(* ===== verification/_CoqProject ===== *)
-Q . S2P
Prelude.v
CText.v
ConstTime.v
Crc32.v
Base64.v
HashSpec.v
Hash.v
HashMd5.v
HashSha1.v
HashSha256.v
HashCorrect.v
Addr.v
Ice.v
IceSdp.v
StunTypes.v
StunWrite.v
StunRead.v
StunRoundtrip.v
HashCrypto.v
Turn.v
Effects.v
Server.v
ServerSafety.v
ServerTotal.v
AgentTypes.v
Agent.v
AgentMessages.v
AgentUpdate.v
AgentCalls.v
AgentNet.v
AgentPacing.v
AgentRetry.v
AgentFrame.v
AgentAuth.v
AgentState.v
AgentRoles.v
Udp.v
Tcp.v
MuxMap.v
MuxQueues.v
MuxPending.v
Mux.v
MuxSpec.v
MuxSafety.v
MuxCorrect.v
ConnPoll.v
ConnThread.v
Conn.v
ConnModes.v
Juice.v
