(* ===== verification/Prelude.v ===== *)
(** * A verification library for libjuice

    libjuice establishes UDP and TCP connections between peers behind address
    translators: it implements ICE (RFC 8445) over STUN (RFC 8489) and TURN
    (RFC 8656), and a small STUN and TURN server.  This library models its core,
    function by function, and proves what makes it correct.  Paths below are
    relative to src/src.

    ** The parts and how they interact

    An agent (agent.c) belongs to one peer.  The application makes it gather
    candidates (addresses of the host, addresses seen by STUN servers, addresses
    allocated on TURN servers), exchanges descriptions with the other peer as SDP
    text (ice.c) and sends and receives data.  The agent keeps a table of entries
    (servers and checks) and a table of candidate pairs; its thread calls it with
    the datagrams it receives and, when a timer expires, for its bookkeeping.
    Messages go through the STUN codec (stun.c), which uses CRC-32 (crc32.c),
    HMACs, constant-time comparison (const_time.c) and Base64 (base64.c).  Relays
    use the map of permissions and channels of turn.c, which the server (server.c)
    uses for its allocations too.  Addresses are those of addr.c.

    An agent reaches the network through a connection (conn.c), in one of three
    modes: a thread of its own (conn_thread.c), a registry of agents that share a
    thread and poll their sockets (conn_poll.c), or a registry of agents that share
    one UDP socket, whose datagrams are given to agents by their source address and
    where requests from unknown peers wait for a decision of the application
    (conn_mux.c).  Sockets are those of udp.c and, with the framing of ICE-TCP,
    tcp.c.  An application calls juice.c.

    ** Files

    - Prelude.v: notations, machine integers, memory, tactics, hints, lemmas on
      lists, bytes and words.  CText.v: the C text functions (ctype, snprintf,
      sscanf, string.h) the sources use.  Effects.v: the monad of stateful code,
      a function of the state to a result, the new state and the list of what was
      done to the outside, or [None] for undefined behaviour (a read or store out
      of bounds, a NULL or freed pointer, a division by zero); rules to take runs
      apart and to show that steps keep a relation.
    - ConstTime.v (const_time.c), Crc32.v (crc32.c), Base64.v (base64.c), Addr.v
      (addr.c, addr.h), each with its theorems.
    - HashSpec.v: MD5, SHA-1, SHA-2 and HMAC as their standards define them.  Hash.v:
      the contexts and functions of picohash.h, hash.c and hmac.c.  HashMd5.v,
      HashSha1.v, HashSha256.v: each algorithm against its definition.
      HashCorrect.v: all of them through the common interface (class [HashFn]).
      HashCrypto.v: the hashes as an instance of [Crypto], and test vectors of STUN.
    - Ice.v: candidates, pairs, priorities, the sorted candidate list (ice.c,
      ice.h).  IceSdp.v: SDP text of descriptions (ice.c).
    - StunTypes.v: messages, credentials and the primitives (class [Crypto]).
      StunWrite.v: the writer over a caller's buffer.  StunRead.v: the reader over
      a datagram, the checks of integrity, nonce cookies.  StunRoundtrip.v: both
      together (stun.c, stun.h).
    - Turn.v: the open-addressing table with its two ordered index arrays, and
      ChannelData framing (turn.c, turn.h).
    - Server.v: the state and every handler of the server (server.c, server.h).
      ServerSafety.v: security and invariants.  ServerTotal.v: no undefined
      behaviour.
    - AgentTypes.v: the state of the agent (agent.h), its events and the class
      [System] of what it gets from outside.  Agent.v: timers, pairs, finding
      entries, sending.  AgentMessages.v: STUN and TURN messages, verification,
      dispatch, [agent_input].  AgentUpdate.v: [agent_bookkeeping].  AgentCalls.v:
      the calls of the application and [agent_create] (agent.c).
    - AgentNet.v: two agents and a network, for examples.  AgentPacing.v: time slots,
      order of pairs.  AgentRetry.v: retransmissions.  AgentFrame.v: what steps leave
      alone.  AgentAuth.v: authentication.  AgentState.v: the state machine.
      AgentRoles.v: roles.
    - Udp.v: UDP sockets (udp.c).  Tcp.v: the framing of ICE-TCP (tcp.c, tcp.h).
    - MuxMap.v: the address map of a registry (conn_mux.c).  MuxQueues.v: the linked
      lists and hash chains of its pending requests, node by node.  MuxPending.v:
      these as a list of requests.  Mux.v: every handler of the mux mode.  MuxSpec.v
      and MuxSafety.v: what each does.  MuxCorrect.v: runs of all of them.
    - ConnPoll.v (conn_poll.c) and ConnThread.v (conn_thread.c): the other modes.
    - Conn.v: connections and registries over any mode, given by its table of
      functions at each moment and their laws (classes [ModeLaws] and [ModeOver];
      conn.c, conn.h).  ConnModes.v: the three modes as instances, the registries of
      the mux mode by port, the calls of the application on a port.
    - Juice.v: the calls of an application on an agent (juice.c).

    ** How the code is modelled

    Machine words are integers with their reductions written out.  A buffer is the
    list of its bytes; loads and stores are partial.  Structures are records,
    enumerations inductive types, an array with a count the list of its used
    elements, a pointer into an array an index.  A loop is structural recursion or
    takes fuel.  The names of definitions are those of the code; a long function is
    cut into several definitions at its blocks.

    Code outside the sources, and parts of the sources that only wrap the system,
    are parameters: [getaddrinfo] and [getnameinfo]; the clock, which does not pass
    within a handler, random bytes, sockets and the results of sending (record [env]
    of Server.v, classes [System] of AgentTypes.v, [UdpCalls] of Udp.v, [Socket] of
    Mux.v, [PollSockets] of ConnPoll.v, [ThreadSocket] of ConnThread.v and
    [RegistrySystem] of ConnModes.v).  The hash and HMAC functions are a class
    ([Crypto] of StunTypes.v, with laws on the lengths of their results in
    [CryptoLaws]): its instances are [standard_crypto] of HashCrypto.v, the functions
    of the sources, and [sum_crypto], short ones for examples.

    What an agent asks of its connection while it handles an event is the list of
    its events; the modes carry it out after that step, in order.  In MuxM, [app] is
    what an application does from a callback.

    ** What the theorems show

    - STUN: reading any datagram stays in bounds, ends and gives a well-formed
      message; writing is the concatenation of the encoded attributes; what is
      written is read back; the integrity check accepts exactly the right HMACs, and
      a signed message verifies.
    - Server: no datagram and no sequence of events makes it fail, given TURN is
      enabled and credentials do not expire under their allocations; only an
      authenticated request changes its tables; nothing is relayed without a
      permission; quotas hold; bookkeeping deletes exactly what has expired.
    - TURN map: permissions and channels refine an abstract map of expiry times;
      channels and peers are in bijection; responses find their request.
    - ICE: both peers compute the same priority of a pair; sorting, parsing and
      generating SDP text, and their round trip.
    - Agent: a datagram brings a pair into use only if it is signed with a password
      of the session; the reported states follow the state machine of the interface;
      a failed agent sends nothing; transmissions are spaced; the rounds of the
      bookkeeping send a request that is not answered at the times of its schedule and
      then give it up; the pairs are sorted; role conflicts are resolved by the
      tiebreakers.  In an example session two agents connect and exchange data.
    - Hashes: MD5, SHA-1, SHA-224, SHA-256 and HMAC of the sources compute the
      functions of the standards, whatever the parts in which a message is given.
    - Base64, CRC-32, comparison: equivalence with reference definitions and round
      trips.
    - ICE-TCP: what is written are frames, also when the socket takes a few bytes at
      a time; frames are read back whatever the parts in which they arrive, if no
      header is split; reading stays in bounds.
    - UDP: a socket gets the first port of its range that is free, from where the
      counter of the process stands; the addresses of the host are those of its
      interfaces that are up, without repetitions: an IPv6 address once per network
      prefix, and only for a socket of that family.
    - Mux mode: the address map refines a partial function of addresses, in a table
      that doubles when half of it is in use; whatever happens, the queues of pending
      requests are a list of at most 4096 requests with distinct numbers, each announced
      once, the agents they and the addresses point to are in memory, and every
      operation is defined; a datagram goes to the agent of its address, or to one whose password it is
      signed with; a request is verified, and attached, only with the right password.
    - Poll and thread modes: the descriptors that are polled are those of the
      connections in use, for what they wait for; a thread leaves only when it has
      nothing to serve.
    - Connections: in every mode, no sequence of operations makes an assertion fail
      or uses a registry after it was freed; agents are in the places they remember;
      the calls of the application on a port of the mux mode keep it so, whatever
      requests wait there.
    - Theorems named after a defect (a division by zero, a use after free, a lost
      allocation, a lost request, unverified addresses, a role conflict that ignores
      the tiebreaker, candidates that are replaced, a header that is lost, a read past
      the descriptors, a thread that is not restarted) show what the code does in
      cases where it does not do what it means to.

    ** Fuel and bounds

    [read_loop] and [integrity_loop] get one more round than the message has bytes,
    and every round consumes at least four.  [find_slot] gets [(n + 2)^2] rounds for
    [n] entries: each restart moves the time past another entry.  [agent_input] gets
    [INPUT_DEPTH] = 2, as data unwrapped from a relay is not unwrapped again.  A
    search for an unused random transaction id or channel takes its draws from a
    list: the server and the agent pass [DRAWS] = 64 of them.  Probing in an
    open-addressing table takes as many steps as the table has slots.  Inserting in
    the address map gets [INSERT_DEPTH] = 2, as a table that has grown is at most half
    full; loops over lists of requests get the number of nodes in memory;
    [bucket_count_for] gets 13 rounds, for a limit of 4096.  [tcp_ice_write] and
    [tcp_ice_read] get a round per byte of the frame or of the stream.  The runs of
    the mux mode have fewer than 2^27 steps, so that the map does not outgrow [int],
    and there are fewer than 2^30 agents and registries in Conn.v.

    ** Not modelled

    - Mutexes and the interleaving of threads: an operation runs with the mutex that
      the code takes, and what other threads do comes before or after it; the lock
      calls of the modes and the wait for callbacks have no counterpart.
    - log.c, timestamp.c, thread.h, socket.h; random.c but for the characters of
      random strings; of juice.c, the calls that only pass their arguments on.
    - Failing memory allocation, logging, freeing of memory in [agent_destroy]; the
      builds without consent freshness, with translation of local addresses, for
      Windows, without [getifaddrs] and with the nettle library.

    ** Plan

    Next: that no event makes an agent fail (an invariant of its tables), which the
    modes take as a condition; the loss of consent; the turns of the poll mode when
    agents open no TCP connections. *)

From stdpp Require Export base list numbers option.
From Stdlib Require Export ZArith Lia.
From Stdlib Require Ascii String.
Export Stdlib.Strings.String.StringSyntax.

#[global] Open Scope Z_scope.

(** ** Notation for the C operators on unsigned words *)

Declare Scope c_scope.
Delimit Scope c_scope with C.
Notation "a .& b" := (Z.land a b) (at level 40, left associativity) : c_scope.
Notation "a .| b" := (Z.lor a b) (at level 50, left associativity) : c_scope.
Notation "a .^ b" := (Z.lxor a b) (at level 48, left associativity) : c_scope.
Notation "a .<< n" := (Z.shiftl a n) (at level 36, left associativity) : c_scope.
Notation "a .>> n" := (Z.shiftr a n) (at level 36, left associativity) : c_scope.
#[global] Open Scope c_scope.

(** ** Machine integers

    Values of the C unsigned types are integers in [0, 2^w); every conversion
    to a w-bit type is written out as a reduction modulo 2^w. *)

Definition u8 (z : Z) : Z := z mod 256.
Definition u16 (z : Z) : Z := z mod 65536.
Definition u32 (z : Z) : Z := z mod 4294967296.
Definition u64 (z : Z) : Z := z mod 18446744073709551616.
(** The greatest value of [int]. *)
Definition INT_MAX : Z := 2147483647.

(** Conversion to the signed 32-bit [int] and to a signed 64-bit offset. *)
Definition s32 (z : Z) : Z := (z + 2147483648) mod 4294967296 - 2147483648.
Definition s64 (z : Z) : Z :=
  (z + 9223372036854775808) mod 18446744073709551616 - 9223372036854775808.

(** A byte, and a list of bytes. *)
Definition is_byte (b : Z) : Prop := 0 <= b < 256.
Abbreviation bytes := (Forall is_byte).

(** The same, by computation. *)
Definition byteb (b : Z) : bool := (0 <=? b) && (b <? 256).

(** Lengths as C sizes. *)
Definition zlen {A} (l : list A) : Z := Z.of_nat (length l).

(** ** Tactics and hint databases *)

Create HintDb juice discriminated.
Create Rewrite HintDb juice.


(** Case analysis on the innermost boolean test of the goal or of [H], with
    the test turned into a proposition. *)
Ltac bool_to_prop :=
  repeat match goal with
  | H : (_ && _) = true |- _ => apply andb_true_iff in H; destruct H
  | H : (_ && _) = false |- _ => apply andb_false_iff in H
  | H : (_ || _) = true |- _ => apply orb_true_iff in H
  | H : (_ || _) = false |- _ => apply orb_false_iff in H; destruct H
  | H : negb _ = true |- _ => apply negb_true_iff in H
  | H : negb _ = false |- _ => apply negb_false_iff in H
  | H : (_ <? _) = true |- _ => apply Z.ltb_lt in H
  | H : (_ <? _) = false |- _ => apply Z.ltb_ge in H
  | H : (_ <=? _) = true |- _ => apply Z.leb_le in H
  | H : (_ <=? _) = false |- _ => apply Z.leb_gt in H
  | H : (_ =? _) = true |- _ => apply Z.eqb_eq in H
  | H : (_ =? _) = false |- _ => apply Z.eqb_neq in H
  end.

Ltac case_if :=
  match goal with
  | |- context [if ?b then _ else _] =>
      lazymatch b with
      | context [if _ then _ else _] => fail
      | _ => let E := fresh "E" in destruct b eqn:E
      end
  end; bool_to_prop.

Ltac case_if_in H :=
  match type of H with
  | context [if ?b then _ else _] =>
      lazymatch b with
      | context [if _ then _ else _] => fail
      | _ => let E := fresh "E" in destruct b eqn:E
      end
  end; bool_to_prop.

(** Unfolds the widths, so that [lia] sees the reductions. *)
Ltac widths := unfold u8, u16, u32, u64, s32, s64, is_byte in *.
Ltac zlia := unfold zlen, is_byte in *; cbn [length] in *; Z.div_mod_to_equations; lia.
Ltac solve_width := widths; Z.div_mod_to_equations; lia.

(** ** Integers: bit operations as arithmetic *)

Lemma land_ones_mod (a n : Z) : 0 <= n -> a .& (2 ^ n - 1) = a mod 2 ^ n.
Proof.
  intros Hn. rewrite <- Z.land_ones by done. f_equal.
  rewrite Z.ones_equiv. lia.
Qed.

(** Testing the two low bits, as the code's [x & 0x03]. *)
Lemma land_3 (a : Z) : a .& 3 = a mod 4.
Proof. exact (land_ones_mod a 2 ltac:(lia)). Qed.
Lemma land_15 (a : Z) : a .& 15 = a mod 16.
Proof. exact (land_ones_mod a 4 ltac:(lia)). Qed.
Lemma land_63 (a : Z) : a .& 63 = a mod 64.
Proof. exact (land_ones_mod a 6 ltac:(lia)). Qed.
Lemma land_255 (a : Z) : a .& 255 = a mod 256.
Proof. exact (land_ones_mod a 8 ltac:(lia)). Qed.

(** An [or] of disjoint fields is a sum. *)
Lemma lor_shiftl_add (a b n : Z) :
  0 <= n -> 0 <= b < 2 ^ n -> (a .<< n) .| b = a * 2 ^ n + b.
Proof.
  intros Hn Hb. rewrite <- Z.shiftl_mul_pow2 by done.
  rewrite <- Z.lxor_lor, Z.add_nocarry_lxor; [done| |];
    apply Z.bits_inj'; intros i Hi; rewrite Z.land_spec, Z.bits_0;
    (destruct (Z.lt_ge_cases i n);
      [by rewrite Z.shiftl_spec_low
      |rewrite <- (Z.mod_small b (2 ^ n)) by done;
       rewrite Z.mod_pow2_bits_high by lia; apply andb_false_r]).
Qed.

Lemma shiftr_div (a n : Z) : 0 <= n -> a .>> n = a / 2 ^ n.
Proof. apply Z.shiftr_div_pow2. Qed.
Lemma shiftl_mul (a n : Z) : 0 <= n -> a .<< n = a * 2 ^ n.
Proof. apply Z.shiftl_mul_pow2. Qed.

Section BitBounds.
Context (n a b : Z) (Hn : 0 <= n) (Ha : 0 <= a < 2 ^ n) (Hb : 0 <= b < 2 ^ n).

Lemma bits_above (x i : Z) : 0 <= x < 2 ^ n -> n <= i -> Z.testbit x i = false.
Proof using Hn.
  intros Hx Hi. rewrite <- (Z.mod_small x (2 ^ n)) by done.
  by apply Z.mod_pow2_bits_high.
Qed.

Lemma below_pow2 (x : Z) :
  0 <= x -> (forall i, n <= i -> Z.testbit x i = false) -> 0 <= x < 2 ^ n.
Proof using Hn.
  intros Hx H. split; [done|].
  destruct (Z.eq_dec x 0) as [->|Hne]; [lia|].
  apply Z.log2_lt_pow2; [lia|].
  destruct (Z.lt_ge_cases (Z.log2 x) n) as [?|Hge]; [done|].
  pose proof (Z.bit_log2 x ltac:(lia)) as Hb'. rewrite H in Hb' by done. done.
Qed.

Lemma lxor_bound : 0 <= a .^ b < 2 ^ n.
Proof using Hn Ha Hb.
  apply below_pow2; [apply Z.lxor_nonneg; lia|].
  intros i Hi. rewrite Z.lxor_spec, !bits_above by done. done.
Qed.

Lemma lor_bound : 0 <= a .| b < 2 ^ n.
Proof using Hn Ha Hb.
  apply below_pow2; [apply Z.lor_nonneg; lia|].
  intros i Hi. rewrite Z.lor_spec, !bits_above by done. done.
Qed.
End BitBounds.

Lemma lxor_byte (a b : Z) : is_byte a -> is_byte b -> is_byte (a .^ b).
Proof. exact (lxor_bound 8 a b ltac:(lia)). Qed.
Lemma lor_byte (a b : Z) : is_byte a -> is_byte b -> is_byte (a .| b).
Proof. exact (lor_bound 8 a b ltac:(lia)). Qed.
#[export] Hint Resolve lxor_byte lor_byte : juice.

Lemma u8_byte (z : Z) : is_byte (u8 z).
Proof. unfold is_byte, u8. apply Z.mod_pos_bound. lia. Qed.
#[export] Hint Resolve u8_byte : juice.

Lemma bytes_forallb (l : list Z) : forallb byteb l = true -> bytes l.
Proof.
  intros Hl. induction l as [|b l IH]; [constructor|]. cbn in Hl. unfold byteb in Hl at 1.
  bool_to_prop. constructor; [unfold is_byte; lia|auto].
Qed.

(** Masking twice with the same word is the identity. *)
Lemma lxor_cancel (a m : Z) : (a .^ m) .^ m = a.
Proof. by rewrite Z.lxor_assoc, Z.lxor_nilpotent, Z.lxor_0_r. Qed.

Lemma lxor_inj_r (a b m : Z) : a .^ m = b .^ m -> a = b.
Proof. intros H. by rewrite <- (lxor_cancel a m), H, lxor_cancel. Qed.

(** Equations between exclusive ors, bit by bit. *)
Ltac xor_solve :=
  apply Z.bits_inj'; intros ?i ?Hi; rewrite ?Z.lxor_spec, ?Z.bits_0;
  repeat match goal with
  | |- context [Z.testbit ?a ?i] => destruct (Z.testbit a i)
  end; reflexivity.

Lemma odd_lxor (a b : Z) : Z.odd (a .^ b) = xorb (Z.odd a) (Z.odd b).
Proof. by rewrite <- !Z.bit0_odd, Z.lxor_spec. Qed.

(** ** Finite checks

    A property of every integer below a small bound is a computation. *)
Fixpoint all_below (n : nat) (P : Z -> bool) : bool :=
  match n with
  | O => true
  | S n' => P (Z.of_nat n') && all_below n' P
  end.

Lemma all_below_spec (n : nat) (P : Z -> bool) :
  all_below n P = true -> forall z, 0 <= z < Z.of_nat n -> P z = true.
Proof.
  induction n as [|n IH]; intros H z Hz; [lia|].
  simpl in H. apply andb_true_iff in H as [H1 H2].
  destruct (Z.eq_dec z (Z.of_nat n)) as [->|Hne]; [done|].
  apply IH; [done|lia].
Qed.

(** ** Big- and little-endian words

    [be n v] is the memory image of [htons], [htonl] or [htonll] of [v] (n = 2,
    4, 8) and [unbe] is what [ntohs], [ntohl] and [ntohll] read back. *)

Fixpoint be (n : nat) (v : Z) : list Z :=
  match n with
  | O => []
  | S n' => be n' (v / 256) ++ [v mod 256]
  end.

Definition unbe (l : list Z) : Z := fold_left (fun acc b => acc * 256 + b) l 0.

Lemma unbe_snoc (l : list Z) (b : Z) : unbe (l ++ [b]) = unbe l * 256 + b.
Proof. unfold unbe. by rewrite fold_left_app. Qed.

Lemma length_be (n : nat) (v : Z) : length (be n v) = n.
Proof.
  revert v; induction n as [|n IH]; intros v; [done|].
  cbn [be]. rewrite length_app, IH. cbn. lia.
Qed.

Lemma be_bytes (n : nat) (v : Z) : bytes (be n v).
Proof.
  revert v; induction n as [|n IH]; intros v; [constructor|].
  cbn [be]. apply Forall_app; split; [apply IH|].
  apply Forall_singleton. unfold is_byte. apply Z.mod_pos_bound. lia.
Qed.

Lemma unbe_be (n : nat) (v : Z) : unbe (be n v) = v mod 256 ^ Z.of_nat n.
Proof.
  revert v; induction n as [|n IH]; intros v.
  { by rewrite Z.mod_1_r. }
  cbn [be]. rewrite unbe_snoc, IH.
  rewrite Nat2Z.inj_succ, Z.pow_succ_r by lia.
  rewrite Z.rem_mul_r by lia. lia.
Qed.

Lemma unbe_be_small (n : nat) (v : Z) :
  0 <= v < 256 ^ Z.of_nat n -> unbe (be n v) = v.
Proof. intros H. rewrite unbe_be. by apply Z.mod_small. Qed.

Lemma be_unbe (l : list Z) : bytes l -> be (length l) (unbe l) = l.
Proof.
  induction l as [|b l IH] using rev_ind; intros Hb; [done|].
  apply Forall_app in Hb as [Hl Hb]. rewrite Forall_singleton in Hb.
  unfold is_byte in Hb.
  rewrite length_app, Nat.add_comm, unbe_snoc. cbn [be length Nat.add].
  replace ((unbe l * 256 + b) / 256) with (unbe l) by (Z.div_mod_to_equations; lia).
  replace ((unbe l * 256 + b) mod 256) with b by (Z.div_mod_to_equations; lia).
  by rewrite IH.
Qed.

Lemma unbe_bound (l : list Z) : bytes l -> 0 <= unbe l < 256 ^ zlen l.
Proof.
  unfold zlen. induction l as [|b l IH] using rev_ind; intros Hb; [cbn; lia|].
  apply Forall_app in Hb as [Hl Hb]. rewrite Forall_singleton in Hb.
  specialize (IH Hl). unfold is_byte in Hb.
  rewrite unbe_snoc, length_app, Nat2Z.inj_add. cbn [length].
  rewrite Z.pow_add_r by lia. change (256 ^ Z.of_nat 1) with 256. lia.
Qed.

#[export] Hint Rewrite length_be : juice.
#[export] Hint Resolve be_bytes : juice.

(** The two bytes of a [uint16_t] in the memory of a little-endian host. *)
Definition le16 (v : Z) : list Z := [v mod 256; v / 256 mod 256].
Definition unle16 (b0 b1 : Z) : Z := b0 + 256 * b1.

(** [htons] and [ntohs] on such a host. *)
Definition bswap16 (v : Z) : Z := 256 * (v mod 256) + v / 256 mod 256.

Lemma bswap16_invol (v : Z) : 0 <= v < 65536 -> bswap16 (bswap16 v) = v.
Proof. unfold bswap16. intros H. Z.div_mod_to_equations. lia. Qed.

(** ** Memory

    An object in memory is the list of its bytes and a pointer into it is an
    offset.  A load or a store outside the object is undefined behaviour in C:
    the operations below return [None] there, so that [Some] results of the
    functions modelled on top of them are results without undefined
    behaviour. *)

Definition in_bounds (m : list Z) (off n : Z) : bool :=
  (0 <=? off) && (0 <=? n) && (off + n <=? zlen m).

Definition load (m : list Z) (off n : Z) : option (list Z) :=
  if in_bounds m off n
  then Some (take (Z.to_nat n) (drop (Z.to_nat off) m))
  else None.

Definition store (m : list Z) (off : Z) (bs : list Z) : option (list Z) :=
  if in_bounds m off (zlen bs)
  then Some (take (Z.to_nat off) m ++ bs ++ drop (Z.to_nat off + length bs) m)
  else None.

(** One byte, and a 16-bit or 32-bit word in network order. *)
Definition load8 (m : list Z) (off : Z) : option Z := unbe <$> load m off 1.
Definition load16 (m : list Z) (off : Z) : option Z := unbe <$> load m off 2.
Definition load32 (m : list Z) (off : Z) : option Z := unbe <$> load m off 4.

Section Memory.
Implicit Types m pre post bs : list Z.

Lemma zlen_app {A} (l1 l2 : list A) : zlen (l1 ++ l2) = zlen l1 + zlen l2.
Proof. unfold zlen. rewrite length_app. lia. Qed.
Lemma zlen_nonneg {A} (l : list A) : 0 <= zlen l.
Proof. unfold zlen. lia. Qed.
Lemma zlen_nil {A} : zlen (@nil A) = 0.
Proof. done. Qed.
Lemma zlen_cons {A} (x : A) (l : list A) : zlen (x :: l) = 1 + zlen l.
Proof. unfold zlen. cbn [length]. lia. Qed.

Lemma zlen_drop {A} (n : nat) (l : list A) : zlen (drop n l) = Z.max 0 (zlen l - Z.of_nat n).
Proof. unfold zlen. rewrite length_drop. lia. Qed.
Lemma zlen_take {A} (n : nat) (l : list A) : zlen (take n l) = Z.min (Z.of_nat n) (zlen l).
Proof. unfold zlen. rewrite length_take. lia. Qed.

Lemma in_bounds_true m off n :
  in_bounds m off n = true <-> 0 <= off /\ 0 <= n /\ off + n <= zlen m.
Proof. unfold in_bounds. rewrite !andb_true_iff, !Z.leb_le. lia. Qed.

Lemma load_Some m off n :
  0 <= off -> 0 <= n -> off + n <= zlen m ->
  load m off n = Some (take (Z.to_nat n) (drop (Z.to_nat off) m)).
Proof. intros. unfold load. by rewrite (proj2 (in_bounds_true _ _ _)). Qed.

(** The load finds exactly the part of the object at its offset. *)
Lemma load_split pre bs post :
  load (pre ++ bs ++ post) (zlen pre) (zlen bs) = Some bs.
Proof.
  rewrite load_Some by (rewrite ?zlen_app; pose proof (zlen_nonneg post);
    pose proof (zlen_nonneg pre); pose proof (zlen_nonneg bs); lia).
  unfold zlen. rewrite !Nat2Z.id. by rewrite drop_app_length, take_app_length.
Qed.

Lemma load_split_eq m pre bs post off n :
  m = pre ++ bs ++ post -> off = zlen pre -> n = zlen bs -> load m off n = Some bs.
Proof. intros -> -> ->. apply load_split. Qed.

(** A store replaces exactly the bytes at its offset. *)
Lemma store_split pre old bs post :
  length old = length bs ->
  store (pre ++ old ++ post) (zlen pre) bs = Some (pre ++ bs ++ post).
Proof.
  intros Hl. unfold store. rewrite (proj2 (in_bounds_true _ _ _)).
  - unfold zlen. rewrite Nat2Z.id, take_app_length, <- Hl.
    by rewrite (app_assoc pre old post), <- length_app, drop_app_length.
  - rewrite !zlen_app. unfold zlen in *. lia.
Qed.

Lemma store_split_eq m pre old bs post off :
  m = pre ++ old ++ post -> off = zlen pre -> length old = length bs ->
  store m off bs = Some (pre ++ bs ++ post).
Proof. intros -> -> ?. by apply store_split. Qed.

Lemma length_store m off bs m' : store m off bs = Some m' -> length m' = length m.
Proof.
  unfold store. case_if; intros [= <-].
  apply in_bounds_true in E. unfold zlen in E.
  rewrite !length_app, length_take, length_drop. lia.
Qed.

Lemma store_total m off bs : 0 <= off -> off + zlen bs <= zlen m ->
  exists m', store m off bs = Some m' /\ zlen m' = zlen m.
Proof.
  intros Ho Hl. pose proof (zlen_nonneg bs). unfold store.
  assert (Hin : in_bounds m off (zlen bs) = true) by (unfold in_bounds; rewrite !andb_true_iff, !Z.leb_le; lia).
  rewrite Hin. eexists. split; [done|]. unfold zlen in *. rewrite !length_app, length_take, length_drop. lia.
Qed.

Lemma load_length m off n bs : load m off n = Some bs -> zlen bs = n.
Proof.
  unfold load. case_if; intros [= <-].
  apply in_bounds_true in E. unfold zlen in *.
  rewrite length_take, length_drop. lia.
Qed.

Lemma load_bytes m off n bs : bytes m -> load m off n = Some bs -> bytes bs.
Proof.
  unfold load. intros Hm. case_if; intros [= <-]. auto using Forall_take, Forall_drop.
Qed.
End Memory.

(** ** C strings

    A NUL-terminated string is the list of its bytes before the terminator. *)

(** The string held by an array: everything before its first NUL. *)
Fixpoint cstr (l : list Z) : list Z :=
  match l with
  | [] => []
  | b :: l' => if b =? 0 then [] else b :: cstr l'
  end.

Definition no_nul (l : list Z) : Prop := Forall (fun b => b <> 0) l.

Lemma cstr_no_nul (l : list Z) : no_nul (cstr l).
Proof.
  induction l as [|b l IH]; [constructor|]. cbn [cstr].
  case_if; constructor; auto.
Qed.

Lemma cstr_id (l : list Z) : no_nul l -> cstr l = l.
Proof.
  induction 1 as [|b l Hb _ IH]; [done|]. cbn [cstr].
  rewrite (proj2 (Z.eqb_neq b 0)) by done. by rewrite IH.
Qed.

Lemma cstr_bytes (l : list Z) : bytes l -> bytes (cstr l).
Proof.
  induction 1 as [|b l Hb _ IH]; [constructor|]. cbn [cstr].
  case_if; constructor; auto.
Qed.

Lemma cstr_length (l : list Z) : (length (cstr l) <= length l)%nat.
Proof.
  induction l as [|b l IH]; [done|]. cbn [cstr]. case_if; cbn [length]; lia.
Qed.

#[export] Hint Resolve cstr_no_nul cstr_bytes : juice.

(** The bytes of a string literal. *)
Fixpoint str (s : String.string) : list Z :=
  match s with
  | String.EmptyString => []
  | String.String c s' => Z.of_nat (Ascii.nat_of_ascii c) :: str s'
  end.
#[global] Arguments str s%_string_scope.
