(* ===== verification/CText.v ===== *)
(** * C text functions

    The parts of <ctype.h>, <stdio.h> and <string.h> the sources use on text:
    character classes in the C locale, decimal printing, [snprintf] and a
    [sscanf] for the directives that occur in the code.  Strings are lists of
    bytes without their terminator. *)

From S2P Require Import Prelude.

(** ** Characters *)

Definition isspace (c : Z) : bool := (c =? 32) || ((9 <=? c) && (c <=? 13)).
Definition isdigit (c : Z) : bool := (48 <=? c) && (c <=? 57).
Definition isupper (c : Z) : bool := (65 <=? c) && (c <=? 90).
Definition islower (c : Z) : bool := (97 <=? c) && (c <=? 122).
Definition isalpha (c : Z) : bool := isupper c || islower c.
Definition toupper (c : Z) : Z := if islower c then c - 32 else c.
Definition tolower (c : Z) : Z := if isupper c then c + 32 else c.
#[global] Arguments isspace : simpl never.
#[global] Arguments isdigit : simpl never.

(** ** Printing *)

(** The decimal digits of a nonnegative number; twenty are enough for 64 bits. *)
Fixpoint dec_digits (fuel : nat) (n : Z) : list Z :=
  match fuel with
  | O => []
  | S fuel' => if n <? 10 then [48 + n] else dec_digits fuel' (n / 10) ++ [48 + n mod 10]
  end.

(** [%u] of a 32-bit value. *)
Definition fmt_u (n : Z) : list Z := dec_digits 20 (u32 n).

(** [snprintf] into a buffer of [size] bytes: the return value and the string
    left in the buffer, [None] when there is no room even for a terminator. *)
Definition snprintf (size : Z) (s : list Z) : Z * option (list Z) :=
  (zlen s, if 0 <? size then Some (take (Z.to_nat (size - 1)) s) else None).

(** ** Scanning *)

Definition digits_value (l : list Z) : Z := fold_left (fun acc d => acc * 10 + (d - 48)) l 0.

Fixpoint span (p : Z -> bool) (n : nat) (l : list Z) : list Z * list Z :=
  match n, l with
  | S n', c :: l' =>
      if p c then let '(a, b) := span p n' l' in (c :: a, b) else ([], l)
  | _, _ => ([], l)
  end.

Fixpoint skip_space (l : list Z) : list Z :=
  match l with
  | c :: l' => if isspace c then skip_space l' else l
  | [] => []
  end.

(** The directives: white space, a literal character, [%Ns], [%d] and [%u]. *)
Inductive directive := DSpace | DLit (c : Z) | DStr (width : nat) | DInt | DUint.
Inductive value := VStr (s : list Z) | VInt (z : Z).

(** An optional sign and at least one digit, saturated to 64 bits as [strtol]
    and [strtoul] do and then converted to the 32-bit type. *)
Definition scan_number (sgn : bool) (l : list Z) : option (Z * list Z) :=
  let l := skip_space l in
  let '(neg, l) :=
    match l with
    | 45 :: l' => (true, l')
    | 43 :: l' => (false, l')
    | _ => (false, l)
    end in
  match span isdigit (length l) l with
  | ([], _) => None
  | (ds, rest) =>
      let v := digits_value ds in
      let v := if sgn then s32 (if neg then Z.max (- v) (- 2 ^ 63) else Z.min v (2 ^ 63 - 1))
               else u32 (let m := Z.min v (2 ^ 64 - 1) in if neg then - m else m) in
      Some (v, rest)
  end.

(** The values assigned before the first directive that does not match; their
    number is what [sscanf] returns. *)
Fixpoint sscanf (fmt : list directive) (l : list Z) : list value :=
  match fmt with
  | [] => []
  | DSpace :: fmt' => sscanf fmt' (skip_space l)
  | DLit c :: fmt' =>
      match l with
      | c' :: l' => if c =? c' then sscanf fmt' l' else []
      | [] => []
      end
  | DStr w :: fmt' =>
      match span (fun c => negb (isspace c)) w (skip_space l) with
      | ([], _) => []
      | (s, rest) => VStr s :: sscanf fmt' rest
      end
  | DInt :: fmt' =>
      match scan_number true l with
      | Some (v, rest) => VInt v :: sscanf fmt' rest
      | None => []
      end
  | DUint :: fmt' =>
      match scan_number false l with
      | Some (v, rest) => VInt v :: sscanf fmt' rest
      | None => []
      end
  end.

(** [strncmp(s, prefix, strlen(prefix)) == 0]. *)
Fixpoint starts_with (prefix s : list Z) : bool :=
  match prefix, s with
  | [], _ => true
  | p :: prefix', c :: s' => (p =? c) && starts_with prefix' s'
  | _ :: _, [] => false
  end.

(** A word: what [%Ns] reads back whole. *)
Definition word (w : list Z) : Prop :=
  w <> [] /\ Forall (fun c => isspace c = false) w.

(** What follows a word: nothing, or white space. *)
Definition stops (l : list Z) : Prop :=
  match l with [] => True | c :: _ => isspace c = true end.

(** ** Facts *)

Lemma snprintf_fits (size : Z) (s : list Z) :
  0 < size -> exists t, snd (snprintf size s) = Some t /\ zlen t < size.
Proof.
  intros Hs. unfold snprintf. rewrite (proj2 (Z.ltb_lt _ _)) by done. cbn [snd].
  eexists; split; [done|]. unfold zlen. rewrite length_take. lia.
Qed.

(** A result that fits is not truncated. *)
Lemma snprintf_whole (size : Z) (s : list Z) :
  zlen s < size -> snprintf size s = (zlen s, Some s).
Proof.
  intros Hs. unfold snprintf. pose proof (zlen_nonneg s).
  rewrite (proj2 (Z.ltb_lt _ _)) by lia. f_equal. f_equal. apply take_ge. zlia.
Qed.

Lemma starts_with_app (p s : list Z) : starts_with p (p ++ s) = true.
Proof. induction p as [|c p IH]; [done|]. cbn. by rewrite Z.eqb_refl. Qed.

Lemma digits_value_snoc (l : list Z) (d : Z) :
  digits_value (l ++ [d]) = digits_value l * 10 + (d - 48).
Proof. unfold digits_value. by rewrite fold_left_app. Qed.

(** Printing then reading a number gives it back. *)
Lemma dec_digits_value (fuel : nat) (n : Z) :
  0 <= n < 10 ^ Z.of_nat fuel -> digits_value (dec_digits fuel n) = n.
Proof.
  revert n; induction fuel as [|fuel IH]; intros n Hn; [cbn in *; lia|].
  rewrite Nat2Z.inj_succ, Z.pow_succ_r in Hn by lia.
  cbn [dec_digits]. case_if; [unfold digits_value; cbn; lia|].
  rewrite digits_value_snoc, IH by zlia. zlia.
Qed.

Lemma dec_digits_isdigit (fuel : nat) (n : Z) :
  0 <= n -> Forall (fun c => isdigit c = true) (dec_digits fuel n).
Proof.
  revert n; induction fuel as [|fuel IH]; intros n Hn; [constructor|].
  cbn [dec_digits]. unfold isdigit. case_if.
  - repeat constructor. rewrite andb_true_iff, !Z.leb_le. lia.
  - apply Forall_app; split; [apply IH; zlia|].
    repeat constructor. rewrite andb_true_iff, !Z.leb_le. zlia.
Qed.

Lemma dec_digits_nonempty (fuel : nat) (n : Z) : dec_digits (S fuel) n <> [].
Proof. cbn [dec_digits]. case_if; [done|]. by destruct (dec_digits fuel (n / 10)). Qed.

Lemma isdigit_not_space (c : Z) : isdigit c = true -> isspace c = false.
Proof.
  unfold isdigit, isspace. intros H. bool_to_prop.
  rewrite orb_false_iff, andb_false_iff, Z.eqb_neq, !Z.leb_gt. lia.
Qed.

Lemma fmt_u_word (n : Z) : word (fmt_u n).
Proof.
  split; [apply dec_digits_nonempty|].
  eapply Forall_impl; [apply isdigit_not_space|]. apply dec_digits_isdigit. solve_width.
Qed.
#[export] Hint Resolve fmt_u_word : juice.

(** [span] takes exactly the matching prefix. *)
Lemma span_app (p : Z -> bool) (n : nat) (w rest : list Z) :
  Forall (fun c => p c = true) w -> (length w <= n)%nat ->
  match rest with [] => True | c :: _ => p c = false \/ length w = n end ->
  span p n (w ++ rest) = (w, rest).
Proof.
  intros Hw; revert n; induction Hw as [|c w Hc _ IH]; intros n Hn Hr.
  - destruct n, rest as [|c rest]; try done. cbn. destruct Hr as [->|?]; done.
  - destruct n as [|n]; [cbn in Hn; lia|]. cbn. rewrite Hc, IH; [done|cbn in Hn; lia|].
    destruct rest; [done|]. destruct Hr as [?|Hr]; [by left|right]. cbn in Hr. lia.
Qed.

Lemma skip_space_word (w rest : list Z) : word w -> skip_space (w ++ rest) = w ++ rest.
Proof.
  intros [Hn Hw]. destruct w as [|c w]; [done|]. apply Forall_cons_1 in Hw as [Hc _].
  cbn. by rewrite Hc.
Qed.

(** The [%Ns] directive reads a word that fits. *)
Lemma sscanf_str (n : nat) (fmt : list directive) (w rest : list Z) :
  word w -> (length w <= n)%nat -> stops rest ->
  sscanf (DStr n :: fmt) (w ++ rest) = VStr w :: sscanf fmt rest.
Proof.
  intros Hw Hn Hr. cbn [sscanf]. rewrite skip_space_word by done.
  destruct Hw as [Hne Hw]. rewrite span_app.
  - by destruct w.
  - eapply Forall_impl; [|exact Hw]. cbn. intros c ->. done.
  - done.
  - destruct rest as [|c rest]; [done|]. left. cbn in Hr. by rewrite Hr.
Qed.

(** A space in the format skips the separating space of the input. *)
Lemma sscanf_space (fmt : list directive) (w rest : list Z) :
  word w -> sscanf (DSpace :: fmt) (32 :: w ++ rest) = sscanf fmt (w ++ rest).
Proof. intros Hw. cbn [sscanf skip_space]. by rewrite skip_space_word. Qed.

Lemma sscanf_space_nil (fmt : list directive) : sscanf (DSpace :: fmt) [] = sscanf fmt [].
Proof. done. Qed.

Lemma scan_number_fmt_u (sgn : bool) (n : Z) (rest : list Z) :
  0 <= n < 2 ^ 31 \/ sgn = false /\ 0 <= n < 2 ^ 32 -> stops rest ->
  scan_number sgn (fmt_u n ++ rest) = Some (n, rest).
Proof.
  intros Hn Hr. unfold scan_number. rewrite skip_space_word by auto with juice.
  assert (Hd : Forall (fun c => isdigit c = true) (fmt_u n))
    by (apply dec_digits_isdigit; solve_width).
  assert (Hv : digits_value (fmt_u n) = n).
  { unfold fmt_u. rewrite dec_digits_value by solve_width. solve_width. }
  pose proof (fmt_u_word n) as [Hne _].
  destruct (fmt_u n) as [|c ds] eqn:E; [done|].
  assert (Hc : isdigit c = true) by (by apply Forall_cons_1 in Hd as [? _]).
  assert (Hm : forall X (a b d : X), (match c with 45 => a | 43 => b | _ => d end) = d).
  { unfold isdigit in Hc. bool_to_prop. intros X a b d.
    assert (c <> 45 /\ c <> 43) as [N1 N2] by lia.
    destruct c as [|p|p]; try done. do 6 (destruct p as [p|p|]; try done). }
  cbn [app]. rewrite Hm.
  rewrite app_comm_cons, span_app; [|done|rewrite length_app; lia|].
  - rewrite Hv. f_equal. f_equal. destruct sgn; solve_width.
  - destruct rest as [|x rest]; [done|]. left. cbn in Hr.
    destruct (isdigit x) eqn:Hx; [|done]. apply isdigit_not_space in Hx. congruence.
Qed.
