(* ===== verification/ConstTime.v ===== *)
(** * Constant-time comparisons (src/const_time.c)

    [const_time_memcmp] compares HMACs and [const_time_strcmp] compares
    secrets.  Reading past the end of an array is undefined behaviour and is
    modelled as [None]. *)

From S2P Require Import Prelude.

(** [for (size_t i = 0; i < len; i++) x |= ca[i] ^ cb[i];] *)
Fixpoint const_time_memcmp_loop (x : Z) (ca cb : list Z) (len : nat) {struct len} : option Z :=
  match len with
  | O => Some x
  | S len' =>
      match ca, cb with
      | a :: ca', b :: cb' => const_time_memcmp_loop (u8 (x .| (a .^ b))) ca' cb' len'
      | _, _ => None
      end
  end.

Definition const_time_memcmp (a b : list Z) (len : nat) : option Z :=
  const_time_memcmp_loop 0 a b len.

(** The loop of [const_time_strcmp] leaves at the first terminator of either
    string, after that position was compared too. *)
Fixpoint const_time_strcmp_loop (x : Z) (ca cb : list Z) : option Z :=
  match ca, cb with
  | a :: ca', b :: cb' =>
      let x := u8 (x .| (a .^ b)) in
      if (a =? 0) || (b =? 0) then Some x else const_time_strcmp_loop x ca' cb'
  | _, _ => None
  end.

Definition const_time_strcmp (a b : list Z) : option Z := const_time_strcmp_loop 0 a b.

(** The accumulator stays a byte and vanishes only when nothing differed. *)
Lemma acc_step (x a b : Z) :
  is_byte x -> is_byte a -> is_byte b ->
  is_byte (u8 (x .| (a .^ b))) /\ (u8 (x .| (a .^ b)) = 0 <-> x = 0 /\ a = b).
Proof.
  intros Hx Ha Hb.
  assert (Hor : is_byte (x .| (a .^ b))) by auto with juice.
  replace (u8 (x .| (a .^ b))) with (x .| (a .^ b))
    by (unfold u8; by rewrite Z.mod_small).
  split; [done|]. rewrite Z.lor_eq_0_iff, Z.lxor_eq_0_iff. done.
Qed.

Lemma const_time_memcmp_loop_spec (x : Z) (ca cb : list Z) (len : nat) :
  is_byte x -> bytes ca -> bytes cb ->
  (len <= length ca)%nat -> (len <= length cb)%nat ->
  exists r, const_time_memcmp_loop x ca cb len = Some r /\
    (r = 0 <-> x = 0 /\ take len ca = take len cb).
Proof.
  revert x ca cb; induction len as [|len IH]; intros x ca cb Hx Ha Hb La Lb.
  { exists x. split; [done|]. rewrite !take_0. tauto. }
  destruct ca as [|a ca]; [cbn in La; lia|]. destruct cb as [|b cb]; [cbn in Lb; lia|].
  apply Forall_cons_1 in Ha as [Ha Hca]. apply Forall_cons_1 in Hb as [Hb Hcb].
  destruct (acc_step x a b Hx Ha Hb) as [Hacc Hz].
  destruct (IH _ ca cb Hacc Hca Hcb ltac:(cbn in La; lia) ltac:(cbn in Lb; lia))
    as (r & Hr & Hiff).
  exists r. split; [exact Hr|]. rewrite Hiff, Hz. cbn [take].
  split; [intros [[-> ->] ->]; done | intros [-> [= -> ->]]; done].
Qed.

Lemma const_time_strcmp_loop_spec (x : Z) (ca cb : list Z) :
  is_byte x -> bytes ca -> bytes cb -> In 0 ca -> In 0 cb ->
  exists r, const_time_strcmp_loop x ca cb = Some r /\
    (r = 0 <-> x = 0 /\ cstr ca = cstr cb).
Proof.
  revert x cb; induction ca as [|a ca IH]; intros x cb Hx Ha Hb Ia Ib; [destruct Ia|].
  destruct cb as [|b cb]; [destruct Ib|].
  apply Forall_cons_1 in Ha as [Ha Hca]. apply Forall_cons_1 in Hb as [Hb Hcb].
  destruct (acc_step x a b Hx Ha Hb) as [Hacc Hz].
  cbn [const_time_strcmp_loop cstr].
  destruct (Z.eqb_spec a 0) as [->|Na]; [|destruct (Z.eqb_spec b 0) as [->|Nb]]; cbn [orb].
  - eexists; split; [done|]. rewrite Hz.
    destruct (Z.eqb_spec b 0) as [->|Nb]; [tauto|].
    split; [intros [_ <-]; done | intros [_ [=]]].
  - eexists; split; [done|]. rewrite Hz. split; [intros [_ ->]; done | intros [_ [=]]].
  - destruct (IH _ cb Hacc Hca Hcb) as (r & Hr & Hiff).
    { destruct Ia; [congruence|done]. } { destruct Ib; [congruence|done]. }
    exists r. split; [exact Hr|]. rewrite Hiff, Hz.
    split; [intros [[-> ->] ->]; done | intros [-> [= -> ->]]; done].
Qed.

(** The constant-time memory comparison reads only its [len] bytes of each
    array and returns 0 exactly when they are all equal. *)
Theorem const_time_memcmp_correct (a b : list Z) (len : nat) :
  bytes a -> bytes b -> (len <= length a)%nat -> (len <= length b)%nat ->
  exists r, const_time_memcmp a b len = Some r /\ (r = 0 <-> take len a = take len b).
Proof.
  intros Ha Hb La Lb.
  destruct (const_time_memcmp_loop_spec 0 a b len) as (r & Hr & Hiff); auto.
  { unfold is_byte; lia. }
  exists r. split; [done|]. rewrite Hiff. tauto.
Qed.

(** On two arrays that hold a terminator, the constant-time string
    comparison stays inside both and returns 0 exactly when the strings are
    equal. *)
Theorem const_time_strcmp_correct (a b : list Z) :
  bytes a -> bytes b -> In 0 a -> In 0 b ->
  exists r, const_time_strcmp a b = Some r /\ (r = 0 <-> cstr a = cstr b).
Proof.
  intros Ha Hb Ia Ib.
  destruct (const_time_strcmp_loop_spec 0 a b) as (r & Hr & Hiff); auto.
  { unfold is_byte; lia. }
  exists r. split; [done|]. rewrite Hiff. tauto.
Qed.

Lemma const_time_memcmp_correct_witness :
  exists r, const_time_memcmp [1; 2; 3] [1; 2; 4] 2 = Some r /\ (r = 0 <-> [1; 2] = [1; 2]).
Proof.
  apply (const_time_memcmp_correct [1; 2; 3] [1; 2; 4] 2);
    repeat constructor; unfold is_byte; lia.
Defined.

Lemma const_time_strcmp_correct_witness :
  exists r, const_time_strcmp [65; 66; 0; 7] [65; 66; 0; 9] = Some r /\
    (r = 0 <-> [65; 66] = [65; 66]).
Proof.
  apply (const_time_strcmp_correct [65; 66; 0; 7] [65; 66; 0; 9]);
    first [cbn; tauto | repeat constructor; unfold is_byte; lia].
Defined.
