(* ===== verification/Crc32.v ===== *)
(** * CRC-32 (src/crc32.c)

    The table-driven CRC-32 used by the STUN FINGERPRINT attribute, the
    bit-serial definition of the same checksum, and the error-detection
    property the fingerprint relies on. *)

From S2P Require Import Prelude.

Definition CRC32_REVERSED_POLY : Z := 0xEDB88320.
Definition CRC32_INIT : Z := 0xFFFFFFFF.
Definition CRC32_XOR : Z := 0xFFFFFFFF.

Definition table : list Z := [
    0x00000000; 0x77073096; 0xEE0E612C; 0x990951BA; 0x076DC419; 0x706AF48F;
    0xE963A535; 0x9E6495A3; 0x0EDB8832; 0x79DCB8A4; 0xE0D5E91E; 0x97D2D988;
    0x09B64C2B; 0x7EB17CBD; 0xE7B82D07; 0x90BF1D91; 0x1DB71064; 0x6AB020F2;
    0xF3B97148; 0x84BE41DE; 0x1ADAD47D; 0x6DDDE4EB; 0xF4D4B551; 0x83D385C7;
    0x136C9856; 0x646BA8C0; 0xFD62F97A; 0x8A65C9EC; 0x14015C4F; 0x63066CD9;
    0xFA0F3D63; 0x8D080DF5; 0x3B6E20C8; 0x4C69105E; 0xD56041E4; 0xA2677172;
    0x3C03E4D1; 0x4B04D447; 0xD20D85FD; 0xA50AB56B; 0x35B5A8FA; 0x42B2986C;
    0xDBBBC9D6; 0xACBCF940; 0x32D86CE3; 0x45DF5C75; 0xDCD60DCF; 0xABD13D59;
    0x26D930AC; 0x51DE003A; 0xC8D75180; 0xBFD06116; 0x21B4F4B5; 0x56B3C423;
    0xCFBA9599; 0xB8BDA50F; 0x2802B89E; 0x5F058808; 0xC60CD9B2; 0xB10BE924;
    0x2F6F7C87; 0x58684C11; 0xC1611DAB; 0xB6662D3D; 0x76DC4190; 0x01DB7106;
    0x98D220BC; 0xEFD5102A; 0x71B18589; 0x06B6B51F; 0x9FBFE4A5; 0xE8B8D433;
    0x7807C9A2; 0x0F00F934; 0x9609A88E; 0xE10E9818; 0x7F6A0DBB; 0x086D3D2D;
    0x91646C97; 0xE6635C01; 0x6B6B51F4; 0x1C6C6162; 0x856530D8; 0xF262004E;
    0x6C0695ED; 0x1B01A57B; 0x8208F4C1; 0xF50FC457; 0x65B0D9C6; 0x12B7E950;
    0x8BBEB8EA; 0xFCB9887C; 0x62DD1DDF; 0x15DA2D49; 0x8CD37CF3; 0xFBD44C65;
    0x4DB26158; 0x3AB551CE; 0xA3BC0074; 0xD4BB30E2; 0x4ADFA541; 0x3DD895D7;
    0xA4D1C46D; 0xD3D6F4FB; 0x4369E96A; 0x346ED9FC; 0xAD678846; 0xDA60B8D0;
    0x44042D73; 0x33031DE5; 0xAA0A4C5F; 0xDD0D7CC9; 0x5005713C; 0x270241AA;
    0xBE0B1010; 0xC90C2086; 0x5768B525; 0x206F85B3; 0xB966D409; 0xCE61E49F;
    0x5EDEF90E; 0x29D9C998; 0xB0D09822; 0xC7D7A8B4; 0x59B33D17; 0x2EB40D81;
    0xB7BD5C3B; 0xC0BA6CAD; 0xEDB88320; 0x9ABFB3B6; 0x03B6E20C; 0x74B1D29A;
    0xEAD54739; 0x9DD277AF; 0x04DB2615; 0x73DC1683; 0xE3630B12; 0x94643B84;
    0x0D6D6A3E; 0x7A6A5AA8; 0xE40ECF0B; 0x9309FF9D; 0x0A00AE27; 0x7D079EB1;
    0xF00F9344; 0x8708A3D2; 0x1E01F268; 0x6906C2FE; 0xF762575D; 0x806567CB;
    0x196C3671; 0x6E6B06E7; 0xFED41B76; 0x89D32BE0; 0x10DA7A5A; 0x67DD4ACC;
    0xF9B9DF6F; 0x8EBEEFF9; 0x17B7BE43; 0x60B08ED5; 0xD6D6A3E8; 0xA1D1937E;
    0x38D8C2C4; 0x4FDFF252; 0xD1BB67F1; 0xA6BC5767; 0x3FB506DD; 0x48B2364B;
    0xD80D2BDA; 0xAF0A1B4C; 0x36034AF6; 0x41047A60; 0xDF60EFC3; 0xA867DF55;
    0x316E8EEF; 0x4669BE79; 0xCB61B38C; 0xBC66831A; 0x256FD2A0; 0x5268E236;
    0xCC0C7795; 0xBB0B4703; 0x220216B9; 0x5505262F; 0xC5BA3BBE; 0xB2BD0B28;
    0x2BB45A92; 0x5CB36A04; 0xC2D7FFA7; 0xB5D0CF31; 0x2CD99E8B; 0x5BDEAE1D;
    0x9B64C2B0; 0xEC63F226; 0x756AA39C; 0x026D930A; 0x9C0906A9; 0xEB0E363F;
    0x72076785; 0x05005713; 0x95BF4A82; 0xE2B87A14; 0x7BB12BAE; 0x0CB61B38;
    0x92D28E9B; 0xE5D5BE0D; 0x7CDCEFB7; 0x0BDBDF21; 0x86D3D2D4; 0xF1D4E242;
    0x68DDB3F8; 0x1FDA836E; 0x81BE16CD; 0xF6B9265B; 0x6FB077E1; 0x18B74777;
    0x88085AE6; 0xFF0F6A70; 0x66063BCA; 0x11010B5C; 0x8F659EFF; 0xF862AE69;
    0x616BFFD3; 0x166CCF45; 0xA00AE278; 0xD70DD2EE; 0x4E048354; 0x3903B3C2;
    0xA7672661; 0xD06016F7; 0x4969474D; 0x3E6E77DB; 0xAED16A4A; 0xD9D65ADC;
    0x40DF0B66; 0x37D83BF0; 0xA9BCAE53; 0xDEBB9EC5; 0x47B2CF7F; 0x30B5FFE9;
    0xBDBDF21C; 0xCABAC28A; 0x53B39330; 0x24B4A3A6; 0xBAD03605; 0xCDD70693;
    0x54DE5729; 0x23D967BF; 0xB3667A2E; 0xC4614AB8; 0x5D681B02; 0x2A6F2B94;
    0xB40BBE37; 0xC30C8EA1; 0x5A05DF1B; 0x2D02EF8D].

(** The body of the loop: [crc = table[(uint8_t)(crc & 0xFF) ^ *p] ^ (crc >> 8)].
    An index outside the table would be undefined behaviour. *)
Definition crc32_step (table : list Z) (crc b : Z) : option Z :=
  t ← table !! Z.to_nat (u8 (crc .& 0xFF) .^ b);
  Some (t .^ (crc .>> 8)).

Fixpoint crc32_loop (table : list Z) (crc : Z) (p : list Z) : option Z :=
  match p with
  | [] => Some crc
  | b :: p' => crc' ← crc32_step table crc b; crc32_loop table crc' p'
  end.

Definition crc32_table (p : list Z) (table : list Z) : option Z :=
  crc ← crc32_loop table CRC32_INIT p;
  Some (crc .^ CRC32_XOR).

Definition juice_crc32 (data : list Z) : option Z := crc32_table data table.

(** ** Reference: one bit at a time

    The reflected CRC-32 of polynomial 0x04C11DB7. *)

Definition crc_bit (c : Z) : Z :=
  (c .>> 1) .^ (if Z.odd c then CRC32_REVERSED_POLY else 0).

Definition crc_byte (c : Z) : Z := Nat.iter 8 crc_bit c.

#[global] Arguments crc_byte : simpl never.

Definition crc32_ref (data : list Z) : Z :=
  fold_left (fun c b => crc_byte (c .^ b)) data CRC32_INIT .^ CRC32_XOR.

(** The state after a prefix of the data. *)
Definition crc_fold (c : Z) (p : list Z) : Z := fold_left (fun c b => crc_byte (c .^ b)) p c.

Definition is_u32 (c : Z) : Prop := 0 <= c < 2 ^ 32.

(** ** The bit step is linear and injective *)

Lemma crc_bit_lxor (a b : Z) : crc_bit (a .^ b) = crc_bit a .^ crc_bit b.
Proof.
  unfold crc_bit. rewrite Z.shiftr_lxor, odd_lxor.
  destruct (Z.odd a), (Z.odd b); cbn [xorb]; xor_solve.
Qed.

Lemma crc_byte_lxor (a b : Z) : crc_byte (a .^ b) = crc_byte a .^ crc_byte b.
Proof.
  unfold crc_byte. generalize 8%nat as n. intros n.
  induction n as [|n IH]; [done|]. by rewrite !Nat.iter_succ, IH, crc_bit_lxor.
Qed.

(** Eight bit steps on a word whose low byte is zero just shift it out. *)
Lemma crc_byte_shiftl (h : Z) : crc_byte (h .<< 8) = h.
Proof.
  assert (Hs : forall n, 0 <= n -> crc_bit (h .<< (n + 1)) = h .<< n).
  { intros n Hn. unfold crc_bit.
    rewrite <- Z.bit0_odd, Z.shiftl_spec_low by lia. rewrite Z.lxor_0_r.
    rewrite Z.shiftr_shiftl_l by lia. f_equal. lia. }
  assert (Hn : forall n, Nat.iter n crc_bit (h .<< Z.of_nat n) = h).
  { induction n as [|n IH]; [apply Z.shiftl_0_r|].
    rewrite Nat.iter_succ_r. replace (Z.of_nat (S n)) with (Z.of_nat n + 1) by lia.
    by rewrite Hs, IH by lia. }
  exact (Hn 8%nat).
Qed.

Lemma split_low_byte (c : Z) : c = (c .& 255) .^ ((c .>> 8) .<< 8).
Proof.
  apply Z.bits_inj'; intros i Hi. rewrite Z.lxor_spec, Z.land_spec.
  change 255 with (Z.ones 8). destruct (Z.lt_ge_cases i 8) as [?|?].
  - rewrite Z.ones_spec_low, Z.shiftl_spec_low by lia. by destruct (Z.testbit c i).
  - rewrite Z.ones_spec_high, Z.shiftl_spec, Z.shiftr_spec by lia.
    replace (i - 8 + 8) with i by lia. by destruct (Z.testbit c i).
Qed.

(** The table holds the effect of eight bit steps on each byte. *)
Lemma table_entry (i : Z) : 0 <= i < 256 -> table !! Z.to_nat i = Some (crc_byte i).
Proof.
  intros Hi.
  pose (P := fun z => bool_decide (table !! Z.to_nat z = Some (crc_byte z))).
  assert (H : P i = true) by (apply (all_below_spec 256 P); [by vm_compute|lia]).
  by apply bool_decide_eq_true in H.
Qed.

Lemma crc32_step_ref (c b : Z) :
  is_byte b -> crc32_step table c b = Some (crc_byte (c .^ b)).
Proof.
  intros Hb. unfold crc32_step.
  rewrite land_255. replace (u8 (c mod 256)) with (c mod 256) by solve_width.
  assert (Hc : is_byte (c mod 256)) by (apply (u8_byte c)).
  rewrite table_entry by (by apply lxor_byte). cbn. f_equal.
  replace (c .^ b) with ((c mod 256 .^ b) .^ ((c .>> 8) .<< 8)).
  - by rewrite (crc_byte_lxor (_ .^ b)), crc_byte_shiftl.
  - rewrite (split_low_byte c) at 3. rewrite land_255. xor_solve.
Qed.

Lemma crc_fold_cons (c b : Z) (p : list Z) :
  crc_fold c (b :: p) = crc_fold (crc_byte (c .^ b)) p.
Proof. reflexivity. Qed.

Lemma crc_fold_app (c : Z) (p q : list Z) : crc_fold c (p ++ q) = crc_fold (crc_fold c p) q.
Proof. unfold crc_fold. apply fold_left_app. Qed.

Lemma crc32_loop_ref (c : Z) (p : list Z) :
  bytes p -> crc32_loop table c p = Some (crc_fold c p).
Proof.
  intros Hp; revert c; induction Hp as [|b p Hb _ IH]; intros c; [reflexivity|].
  cbn [crc32_loop]. rewrite crc32_step_ref by exact Hb. rewrite crc_fold_cons. apply IH.
Qed.

Lemma juice_crc32_fold (data : list Z) :
  bytes data -> juice_crc32 data = Some (crc_fold CRC32_INIT data .^ CRC32_XOR).
Proof.
  intros Hd. unfold juice_crc32, crc32_table. rewrite crc32_loop_ref by exact Hd. reflexivity.
Qed.

(** ** Injectivity, and what it detects *)

Lemma crc_bit_u32 (c : Z) : is_u32 c -> is_u32 (crc_bit c).
Proof.
  unfold is_u32, crc_bit. intros Hc. apply lxor_bound; [lia| |].
  - rewrite Z.shiftr_div_pow2 by lia. Z.div_mod_to_equations; lia.
  - destruct (Z.odd c); unfold CRC32_REVERSED_POLY; lia.
Qed.

(** The top bit of the result is the bit shifted out, so a step can be undone. *)
Lemma crc_bit_inj (a b : Z) : is_u32 a -> is_u32 b -> crc_bit a = crc_bit b -> a = b.
Proof.
  unfold is_u32. intros Ha Hb H.
  assert (Htop : forall c, 0 <= c < 2 ^ 32 -> Z.testbit (crc_bit c) 31 = Z.odd c).
  { intros c Hc. unfold crc_bit. rewrite Z.lxor_spec, Z.shiftr_spec by lia.
    rewrite (bits_above 32) by lia. by destruct (Z.odd c). }
  assert (Hodd : Z.odd a = Z.odd b) by (rewrite <- !Htop by done; by rewrite H).
  unfold crc_bit in H. rewrite Hodd in H. apply lxor_inj_r in H.
  rewrite !Z.shiftr_div_pow2 in H by lia. change (2 ^ 1) with 2 in H.
  pose proof (Z.div_mod a 2 ltac:(lia)) as Da. pose proof (Z.div_mod b 2 ltac:(lia)) as Db.
  rewrite Zmod_odd in Da, Db. rewrite Hodd, H in Da. lia.
Qed.

Lemma crc_byte_u32 (c : Z) : is_u32 c -> is_u32 (crc_byte c).
Proof.
  unfold crc_byte. generalize 8%nat as n. intros n Hc.
  induction n as [|n IH]; [done|]. rewrite Nat.iter_succ. by apply crc_bit_u32.
Qed.

Lemma crc_byte_inj (a b : Z) : is_u32 a -> is_u32 b -> crc_byte a = crc_byte b -> a = b.
Proof.
  unfold crc_byte. generalize 8%nat as n. intros n; revert a b.
  induction n as [|n IH]; intros a b Ha Hb H; [done|].
  rewrite !Nat.iter_succ_r in H. apply IH in H; [|by apply crc_bit_u32..].
  by apply crc_bit_inj.
Qed.

Lemma byte_u32 (b : Z) : is_byte b -> is_u32 b.
Proof. unfold is_byte, is_u32. lia. Qed.
Lemma lxor_u32 (a b : Z) : is_u32 a -> is_u32 b -> is_u32 (a .^ b).
Proof. exact (lxor_bound 32 a b ltac:(lia)). Qed.
#[export] Hint Resolve byte_u32 lxor_u32 crc_byte_u32 : juice.

Lemma crc_fold_u32 (c : Z) (p : list Z) : is_u32 c -> bytes p -> is_u32 (crc_fold c p).
Proof.
  intros Hc Hp; revert c Hc; induction Hp as [|b p Hb _ IH]; intros c Hc; [done|].
  rewrite crc_fold_cons. apply IH. auto with juice.
Qed.

Lemma crc_fold_inj (a b : Z) (p : list Z) :
  is_u32 a -> is_u32 b -> bytes p -> crc_fold a p = crc_fold b p -> a = b.
Proof.
  intros Ha Hb Hp; revert a b Ha Hb; induction Hp as [|x p Hx _ IH]; intros a b Ha Hb H; [done|].
  rewrite !crc_fold_cons in H. apply IH in H; [|auto with juice..].
  apply crc_byte_inj in H; [|auto with juice..]. by apply lxor_inj_r in H.
Qed.

(** ** Theorems *)

(** The table-driven [juice_crc32] computes the bit-serial CRC-32 of the
    reflected polynomial 0xEDB88320 on every sequence of bytes, and never
    indexes outside its table. *)
Theorem juice_crc32_correct (data : list Z) :
  bytes data -> juice_crc32 data = Some (crc32_ref data).
Proof.
  intros Hd. rewrite juice_crc32_fold by exact Hd. reflexivity.
Qed.

(** Changing one byte anywhere in the data always changes the checksum, so
    the STUN fingerprint detects any one-byte corruption. *)
Theorem juice_crc32_detects_byte (pre post : list Z) (a b : Z) :
  bytes pre -> bytes post -> is_byte a -> is_byte b -> a <> b ->
  juice_crc32 (pre ++ a :: post) <> juice_crc32 (pre ++ b :: post).
Proof.
  intros Hpre Hpost Ha Hb Hne.
  rewrite !juice_crc32_fold by (apply Forall_app; auto). intros H.
  apply (inj Some), lxor_inj_r in H. rewrite !crc_fold_app, !crc_fold_cons in H.
  assert (Hc : is_u32 (crc_fold CRC32_INIT pre))
    by (apply crc_fold_u32; [unfold is_u32, CRC32_INIT; lia|done]).
  apply crc_fold_inj in H; [|auto with juice..].
  apply crc_byte_inj in H; [|auto with juice..].
  rewrite !(Z.lxor_comm (crc_fold _ _)) in H. by apply lxor_inj_r in H.
Qed.

(** The standard check value, CRC-32 of the digits 1 to 9. *)
Lemma juice_crc32_correct_witness :
  juice_crc32 (str "123456789") = Some 0xCBF43926.
Proof.
  rewrite juice_crc32_correct; [by vm_compute|].
  repeat constructor; unfold is_byte; cbn; lia.
Defined.

Lemma juice_crc32_detects_byte_witness :
  juice_crc32 [1; 2; 3] <> juice_crc32 [1; 7; 3].
Proof.
  apply (juice_crc32_detects_byte [1] [3] 2 7);
    first [lia | repeat constructor; unfold is_byte; lia].
Defined.
