(* ===== verification/Base64.v ===== *)
(** * Base64 (src/base64.c)

    [juice_base64_encode] and [juice_base64_decode] write sequentially through
    a pointer into the caller's buffer: a run is modelled by its return value
    and by the bytes it wrote from the start of that buffer, in order.  A run
    that writes more bytes than the buffer holds is a buffer overflow. *)

From S2P Require Import Prelude CText.

Definition tab : list Z :=
  str "ABCDEFGHIJKLMNOPQRSTUVWXYZabcdefghijklmnopqrstuvwxyz0123456789+/".

Definition tab_at (i : Z) : Z := nth (Z.to_nat i) tab 0.

Record run := { ret : Z; written : list Z }.

(** ** Encoder *)

Fixpoint encode_loop (inp : list Z) : list Z :=
  match inp with
  | b0 :: b1 :: b2 :: inp' =>
      tab_at (b0 .>> 2)
      :: tab_at (((b0 .& 0x03) .<< 4) .| (b1 .>> 4))
      :: tab_at (((b1 .& 0x0F) .<< 2) .| (b2 .>> 6))
      :: tab_at (b2 .& 0x3F)
      :: encode_loop inp'
  | [b0] => [tab_at (b0 .>> 2); tab_at ((b0 .& 0x03) .<< 4); 61; 61]
  | [b0; b1] =>
      [tab_at (b0 .>> 2); tab_at (((b0 .& 0x03) .<< 4) .| (b1 .>> 4));
       tab_at ((b1 .& 0x0F) .<< 2); 61]
  | [] => []
  end.

Definition juice_base64_encode (data : list Z) (out_size : Z) : run :=
  if out_size <? u64 (4 * (u64 (zlen data + 2) / 3) + 1)
  then {| ret := -1; written := [] |}
  else let w := encode_loop data in
       {| ret := s32 (zlen w); written := w ++ [0] |}.

(** ** Decoder *)

(** The value the decoder stores for a character; [None] is the invalid case. *)
Definition sextet (c : Z) : option Z :=
  if (65 <=? c) && (c <=? 90) then Some (c - 65)
  else if (97 <=? c) && (c <=? 122) then Some (c + 26 - 97)
  else if (48 <=? c) && (c <=? 57) then Some (c + 52 - 48)
  else if (c =? 43) || (c =? 45) then Some 62
  else if (c =? 47) || (c =? 95) then Some 63
  else None.

#[global] Arguments sextet : simpl never.
#[global] Arguments tab_at : simpl never.

(** The inner loop: fills [tab] with up to four values; [None] is its
    [return -1].  [inp] is the rest of the string before its terminator. *)
Fixpoint decode_group (inp : list Z) (tab : list Z) : option (list Z * list Z) :=
  match inp with
  | [] => Some ([], tab)
  | c :: inp' =>
      if zlen tab <? 4 then
        if isspace c then decode_group inp' tab
        else if c =? 61 then Some (inp', tab)
        else match sextet c with
             | Some v => decode_group inp' (tab ++ [v])
             | None => None
             end
      else Some (inp, tab)
  end.

(** The bytes written for one group. *)
Definition group_bytes (tab : list Z) : list Z :=
  let t i := nth i tab 0 in
  let size := zlen tab in
  u8 ((t 0%nat .<< 2) .| (t 1%nat .>> 4))
  :: (if 1 <? size then
        u8 ((t 1%nat .<< 4) .| (t 2%nat .>> 2))
        :: (if 2 <? size then [u8 ((t 2%nat .<< 6) .| t 3%nat)] else [])
      else []).

(** The outer loop.  Every round consumes a character, so the length of the
    string is enough fuel; [None] would be running out of it. *)
Fixpoint decode_loop (fuel : nat) (inp : list Z) (out_size : Z) (w : list Z) : option run :=
  match inp with
  | [] => Some {| ret := s32 (zlen w); written := w |}
  | c :: _ =>
      if c =? 61 then Some {| ret := s32 (zlen w); written := w |}
      else match fuel with
      | O => None
      | S fuel' =>
          match decode_group inp [] with
          | None => Some {| ret := -1; written := w |}
          | Some (inp', tab) =>
              let size := zlen tab in
              if 0 <? size then
                if out_size <? size - 1 then Some {| ret := -1; written := w |}
                else decode_loop fuel' inp' (out_size - (size - 1)) (w ++ group_bytes tab)
              else decode_loop fuel' inp' out_size w
          end
      end
  end.

Definition juice_base64_decode (s : list Z) (out_size : Z) : option run :=
  decode_loop (length s) s out_size [].

(** What the decoder needs of the character of a value. *)
Definition tab_ok (i : Z) : bool :=
  bool_decide (sextet (tab_at i) = Some i) && negb (isspace (tab_at i)) &&
  negb (tab_at i =? 61) && (0 <? tab_at i) && (tab_at i <? 128).

(** The exact bytes a decoder that keeps one byte per started group writes on
    encoded data: the data, then a zero byte when the last group is short. *)
Definition decoded (data : list Z) : list Z :=
  data ++ (if zlen data mod 3 =? 0 then [] else [0]).

(** ** The alphabet *)

Lemma tab_at_ok (i : Z) :
  0 <= i < 64 ->
  sextet (tab_at i) = Some i /\ isspace (tab_at i) = false /\
  (tab_at i =? 61) = false /\ 0 < tab_at i < 128.
Proof.
  intros Hi. assert (H : tab_ok i = true)
    by (apply (all_below_spec 64 tab_ok); [by vm_compute|lia]).
  unfold tab_ok in H. bool_to_prop.
  match goal with H : bool_decide _ = true |- _ => apply bool_decide_eq_true in H end.
  rewrite (proj2 (Z.eqb_neq _ _)) by done. auto.
Qed.

(** The four fields of a 24-bit group, as arithmetic. *)
Lemma sextets_arith (b0 b1 b2 : Z) :
  is_byte b0 -> is_byte b1 -> is_byte b2 ->
  b0 .>> 2 = b0 / 4 /\
  ((b0 .& 0x03) .<< 4) .| (b1 .>> 4) = b0 mod 4 * 16 + b1 / 16 /\
  ((b1 .& 0x0F) .<< 2) .| (b2 .>> 6) = b1 mod 16 * 4 + b2 / 64 /\
  b2 .& 0x3F = b2 mod 64.
Proof.
  unfold is_byte. intros H0 H1 H2.
  rewrite !shiftr_div by lia.
  rewrite land_3, land_15, land_63.
  change (2 ^ 2) with 4. change (2 ^ 4) with 16. change (2 ^ 6) with 64.
  rewrite !lor_shiftl_add by (Z.div_mod_to_equations; lia). done.
Qed.

(** The three bytes a group is reassembled into. *)
Lemma lanes_arith (t0 t1 t2 t3 : Z) :
  0 <= t0 < 64 -> 0 <= t1 < 64 -> 0 <= t2 < 64 -> 0 <= t3 < 64 ->
  u8 ((t0 .<< 2) .| (t1 .>> 4)) = (t0 * 4 + t1 / 16) mod 256 /\
  u8 ((t1 .<< 4) .| (t2 .>> 2)) = (t1 * 16 + t2 / 4) mod 256 /\
  u8 ((t2 .<< 6) .| t3) = (t2 * 64 + t3) mod 256.
Proof.
  intros. unfold u8. rewrite !shiftr_div by lia.
  rewrite !lor_shiftl_add by (Z.div_mod_to_equations; lia). done.
Qed.

Lemma length_group_bytes (l : list Z) :
  zlen (group_bytes l) = Z.max 1 (Z.min 3 (zlen l)).
Proof. unfold group_bytes. repeat case_if; unfold zlen in *; cbn [length]; lia. Qed.

(** Reassembling the three shapes of an encoded group: a short one yields one
    byte more than it encodes. *)
Ltac lanes :=
  match goal with
  | |- group_bytes (?t0 :: ?t1 :: ?l) = _ =>
      let t2 := eval cbn in (nth 0 l 0) in
      let t3 := eval cbn in (nth 1 l 0) in
      let L := fresh in
      pose proof (lanes_arith t0 t1 t2 t3 ltac:(Z.div_mod_to_equations; lia)
        ltac:(Z.div_mod_to_equations; lia) ltac:(Z.div_mod_to_equations; lia)
        ltac:(Z.div_mod_to_equations; lia)) as L;
      destruct L as (L0 & L1 & L2);
      unfold group_bytes; cbn [nth]; rewrite ?L0, ?L1, ?L2; clear L0 L1 L2
  end;
  repeat match goal with
  | |- context [if ?b then _ else _] =>
      let v := eval vm_compute in b in change b with v; cbv iota
  end;
  repeat match goal with |- _ :: _ = _ :: _ => f_equal end;
  first [reflexivity | Z.div_mod_to_equations; lia].

Lemma group_bytes_full (b0 b1 b2 : Z) :
  is_byte b0 -> is_byte b1 -> is_byte b2 ->
  group_bytes [b0 / 4; b0 mod 4 * 16 + b1 / 16; b1 mod 16 * 4 + b2 / 64; b2 mod 64]
  = [b0; b1; b2].
Proof. unfold is_byte. intros. lanes. Qed.

Lemma group_bytes_two (b0 b1 : Z) :
  is_byte b0 -> is_byte b1 ->
  group_bytes [b0 / 4; b0 mod 4 * 16 + b1 / 16; b1 mod 16 * 4] = [b0; b1; 0].
Proof. unfold is_byte. intros. lanes. Qed.

Lemma group_bytes_one (b0 : Z) :
  is_byte b0 -> group_bytes [b0 / 4; b0 mod 4 * 16] = [b0; 0].
Proof. unfold is_byte. intros. lanes. Qed.

(** ** The encoder's output *)

Lemma list_ind3 {A} (P : list A -> Prop) :
  P [] -> (forall a, P [a]) -> (forall a b, P [a; b]) ->
  (forall a b c l, P l -> P (a :: b :: c :: l)) -> forall l, P l.
Proof.
  intros H0 H1 H2 H3. fix IH 1. intros [|a [|b [|c l]]];
    [exact H0|exact (H1 a)|exact (H2 a b)|exact (H3 a b c l (IH l))].
Qed.

Lemma length_encode_loop (data : list Z) :
  zlen (encode_loop data) = 4 * ((zlen data + 2) / 3).
Proof.
  induction data as [| | |b0 b1 b2 l IH] using list_ind3; try reflexivity.
  cbn [encode_loop]. rewrite !zlen_cons, IH.
  Z.div_mod_to_equations; lia.
Qed.

(** An encoded group read back by the inner loop. *)
Lemma decode_group_four (t0 t1 t2 t3 : Z) (inp : list Z) :
  0 <= t0 < 64 -> 0 <= t1 < 64 -> 0 <= t2 < 64 -> 0 <= t3 < 64 ->
  decode_group (tab_at t0 :: tab_at t1 :: tab_at t2 :: tab_at t3 :: inp) []
  = Some (inp, [t0; t1; t2; t3]).
Proof.
  intros H0 H1 H2 H3.
  destruct (tab_at_ok t0 H0) as (S0 & W0 & E0 & _), (tab_at_ok t1 H1) as (S1 & W1 & E1 & _),
    (tab_at_ok t2 H2) as (S2 & W2 & E2 & _), (tab_at_ok t3 H3) as (S3 & W3 & E3 & _).
  cbn. rewrite W0, E0, S0. cbn. rewrite W1, E1, S1. cbn. rewrite W2, E2, S2. cbn.
  rewrite W3, E3, S3. cbn. by destruct inp.
Qed.

Lemma decode_group_padded (t0 t1 : Z) (ts inp : list Z) :
  0 <= t0 < 64 -> 0 <= t1 < 64 -> (length ts <= 1)%nat -> Forall (fun t => 0 <= t < 64) ts ->
  decode_group (tab_at t0 :: tab_at t1 :: (tab_at <$> ts) ++ 61 :: inp) []
  = Some (inp, t0 :: t1 :: ts).
Proof.
  intros H0 H1 Hl Ht.
  destruct (tab_at_ok t0 H0) as (S0 & W0 & E0 & _), (tab_at_ok t1 H1) as (S1 & W1 & E1 & _).
  cbn. rewrite W0, E0, S0. cbn. rewrite W1, E1, S1. cbn.
  destruct ts as [|t2 [|]]; [done| |cbn in Hl; lia].
  apply Forall_cons_1 in Ht as [H2 _]. destruct (tab_at_ok t2 H2) as (S2 & W2 & E2 & _).
  cbn. by rewrite W2, E2, S2.
Qed.

(** One round of the outer loop. *)
Lemma decode_loop_round (fuel : nat) (c : Z) (inp inp' tab : list Z) (out_size : Z) (w : list Z) :
  (c =? 61) = false -> decode_group (c :: inp) [] = Some (inp', tab) ->
  0 < zlen tab -> zlen tab - 1 <= out_size ->
  decode_loop (S fuel) (c :: inp) out_size w
  = decode_loop fuel inp' (out_size - (zlen tab - 1)) (w ++ group_bytes tab).
Proof.
  intros Hc Hg Ht Ho. cbn [decode_loop]. rewrite Hc, Hg.
  by rewrite (proj2 (Z.ltb_lt _ _)), (proj2 (Z.ltb_ge _ _)) by lia.
Qed.

Lemma decode_loop_stop (fuel : nat) (inp : list Z) (out_size : Z) (w : list Z) :
  inp = [] \/ (exists inp', inp = 61 :: inp') ->
  decode_loop fuel inp out_size w = Some {| ret := s32 (zlen w); written := w |}.
Proof. by destruct fuel; intros [->|[inp' ->]]. Qed.

Lemma tab_at_not_pad (i : Z) : 0 <= i < 64 -> (tab_at i =? 61) = false.
Proof. intros Hi. by destruct (tab_at_ok i Hi) as (_ & _ & ? & _). Qed.

(** The decoder on encoded data, from any point of its run. *)
Lemma decode_loop_encode (data : list Z) : bytes data ->
  forall fuel out_size w,
  (length (encode_loop data) <= fuel)%nat -> zlen data <= out_size ->
  decode_loop fuel (encode_loop data) out_size w
  = Some {| ret := s32 (zlen (w ++ decoded data)); written := w ++ decoded data |}.
Proof.
  induction data as [|b0|b0 b1|b0 b1 b2 l IH] using list_ind3; intros Hb fuel out_size w Hf Ho;
    repeat match goal with H : bytes (_ :: _) |- _ => apply Forall_cons_1 in H as [? H] end;
    (destruct fuel as [|fuel]; [try (cbn in Hf; lia)|]).
  - rewrite decode_loop_stop by auto. by rewrite app_nil_r.
  - rewrite decode_loop_stop by auto. by rewrite app_nil_r.
  - cbn [encode_loop]. rewrite shiftr_div, land_3, shiftl_mul by lia.
    change (zlen [b0]) with 1 in Ho.
    erewrite decode_loop_round;
      [|apply tab_at_not_pad|apply (decode_group_padded _ _ [])|..]; try zlia.
    2: constructor.
    rewrite decode_loop_stop by eauto. change (2 ^ 2) with 4. change (2 ^ 4) with 16.
    by rewrite group_bytes_one.
  - cbn [encode_loop]. destruct (sextets_arith b0 b1 0) as (-> & -> & _ & _); try zlia.
    rewrite land_15, shiftl_mul by lia. change (2 ^ 2) with 4.
    erewrite decode_loop_round;
      [|apply tab_at_not_pad|apply (decode_group_padded _ _ [b1 mod 16 * 4])|..]; try zlia.
    2: { repeat constructor; zlia. }
    rewrite decode_loop_stop by eauto. by rewrite group_bytes_two.
  - cbn [encode_loop]. destruct (sextets_arith b0 b1 b2) as (-> & -> & -> & ->); try done.
    rewrite !zlen_cons in Ho. pose proof (zlen_nonneg l).
    erewrite decode_loop_round;
      [|apply tab_at_not_pad|apply decode_group_four|..]; try zlia.
    rewrite group_bytes_full by done. rewrite IH; [|done| cbn in Hf; lia | unfold zlen in *; cbn; lia].
    unfold decoded. rewrite !zlen_cons.
    replace ((1 + (1 + (1 + zlen l))) mod 3) with (zlen l mod 3) by (Z.div_mod_to_equations; lia).
    by rewrite <- app_assoc.
Qed.

Lemma encode_loop_no_nul (data : list Z) : bytes data -> no_nul (encode_loop data).
Proof.
  assert (Hn : forall i, 0 <= i < 64 -> tab_at i <> 0)
    by (intros i Hi; pose proof (tab_at_ok i Hi); lia).
  induction data as [|b0|b0 b1|b0 b1 b2 l IH] using list_ind3; intros Hb;
    repeat match goal with H : bytes (_ :: _) |- _ => apply Forall_cons_1 in H as [? H] end;
    cbn [encode_loop].
  - constructor.
  - rewrite shiftr_div, land_3, shiftl_mul by lia. repeat constructor; try lia; apply Hn; zlia.
  - destruct (sextets_arith b0 b1 0) as (-> & -> & _ & _); try zlia.
    rewrite land_15, shiftl_mul by lia. repeat constructor; try lia; apply Hn; zlia.
  - destruct (sextets_arith b0 b1 b2) as (-> & -> & -> & ->); try done.
    repeat (constructor; [apply Hn; zlia|]). by apply IH.
Qed.

(** ** Progress and output of the decoder on any string *)

(** A group ends with four values, at the end of the string, or after a
    padding character. *)
Lemma decode_group_measure (inp tab inp' tab' : list Z) :
  zlen tab <= 4 -> decode_group inp tab = Some (inp', tab') ->
  zlen tab' <= 4 /\
  (zlen tab' = 4 /\ 4 + zlen inp' <= zlen tab + zlen inp \/
   inp' = [] /\ zlen tab' <= zlen tab + zlen inp \/
   zlen tab' + zlen inp' + 1 <= zlen tab + zlen inp).
Proof.
  revert tab; induction inp as [|c inp IH]; intros tab Ht H.
  { cbn in H. inv H. split; [done|]. right; left. rewrite zlen_nil. split; [done|lia]. }
  cbn [decode_group] in H. rewrite zlen_cons. case_if_in H.
  - case_if_in H; [apply IH in H; [|done]; intuition lia|].
    case_if_in H; [inv H; intuition lia|].
    destruct (sextet c) as [v|]; [|done].
    apply IH in H; rewrite zlen_app, zlen_cons, zlen_nil in *; intuition lia.
  - inv H. rewrite zlen_cons. intuition lia.
Qed.

(** The most bytes a string of [n] characters is decoded to. *)
Lemma decode_loop_bound (fuel : nat) (inp : list Z) (out_size : Z) (w : list Z) :
  (length inp <= fuel)%nat ->
  exists r, decode_loop fuel inp out_size w = Some r /\
    zlen (written r) <= zlen w + zlen inp /\
    (4 <= zlen inp -> zlen (written r) <= zlen w + zlen inp - 1).
Proof.
  revert inp out_size w; induction fuel as [|fuel IH]; intros inp out_size w Hf.
  { destruct inp; [|cbn in Hf; lia]. eexists; split; [done|]. cbn [written]. zlia. }
  destruct inp as [|c inp]; [eexists; split; [done|]; cbn [written]; zlia|].
  cbn [decode_loop]. rewrite zlen_cons.
  destruct (c =? 61); [eexists; split; [done|]; cbn; pose proof (zlen_nonneg inp); lia|].
  destruct (decode_group (c :: inp) []) as [[inp' tab]|] eqn:Hg;
    [|eexists; split; [done|]; cbn; pose proof (zlen_nonneg inp); lia].
  apply decode_group_measure in Hg; [|done]. rewrite zlen_nil, zlen_cons in Hg.
  pose proof (zlen_nonneg inp'). pose proof (zlen_nonneg tab).
  assert (Hl : (length inp' <= fuel)%nat).
  { destruct Hg as [_ [?|[[-> ?]|?]]]; unfold zlen in *; cbn in *; lia. }
  repeat case_if.
  - eexists; split; [done|]. cbn. pose proof (zlen_nonneg inp). lia.
  - destruct (IH inp' (out_size - (zlen tab - 1)) (w ++ group_bytes tab) Hl) as (r & -> & B & B').
    exists r. split; [done|]. rewrite zlen_app, length_group_bytes in *.
    destruct Hg as [_ [?|[[-> ?]|?]]]; rewrite ?zlen_nil in *; lia.
  - destruct (IH inp' out_size w Hl) as (r & -> & B & B').
    exists r. split; [done|]. destruct Hg as [_ [?|[[-> ?]|?]]]; rewrite ?zlen_nil in *; lia.
Qed.

(** ** Theorems *)

(** The encoder fails, writing nothing, exactly when the buffer cannot hold
    the 4*ceil(n/3) characters and the terminator; otherwise it writes that
    string, stays inside the buffer and returns the length of the string. *)
Theorem juice_base64_encode_correct (data : list Z) (out_size : Z) :
  bytes data -> zlen data < 2 ^ 29 ->
  let n := 4 * ((zlen data + 2) / 3) in
  let r := juice_base64_encode data out_size in
  (out_size < n + 1 -> r = {| ret := -1; written := [] |}) /\
  (n + 1 <= out_size ->
     ret r = n /\ zlen (written r) = n + 1 /\ cstr (written r) = encode_loop data /\
     zlen (cstr (written r)) = n).
Proof.
  intros Hb Hl n r. subst r. unfold juice_base64_encode.
  pose proof (zlen_nonneg data) as Hp.
  replace (u64 (zlen data + 2)) with (zlen data + 2) by solve_width.
  fold n. replace (u64 (n + 1)) with (n + 1) by (subst n; solve_width).
  split; intros Ho; [by rewrite (proj2 (Z.ltb_lt _ _)) by done|].
  rewrite (proj2 (Z.ltb_ge _ _)) by done. cbn [ret written].
  rewrite zlen_app, length_encode_loop. fold n.
  assert (Hc : forall l, no_nul l -> cstr (l ++ [0]) = l).
  { induction 1 as [|x l Hx _ IHl]; [done|]. cbn. by rewrite (proj2 (Z.eqb_neq _ _)), IHl. }
  rewrite Hc by (by apply encode_loop_no_nul). rewrite length_encode_loop. fold n.
  repeat split; try done. subst n. solve_width.
Qed.

(** Decoding what the encoder produced, into a buffer at least as large as
    the data, gives the data back, followed by one zero byte when its length is
    not a multiple of 3; the three-byte security-feature field of the STUN
    nonce, in particular, is recovered exactly. *)
Theorem juice_base64_roundtrip (data : list Z) (out_size : Z) :
  bytes data -> zlen data < 2 ^ 29 -> zlen data <= out_size ->
  juice_base64_decode (encode_loop data) out_size
  = Some {| ret := zlen (decoded data); written := decoded data |}.
Proof.
  intros Hb Hl Ho. unfold juice_base64_decode.
  rewrite decode_loop_encode by (done || lia). cbn [app]. f_equal. f_equal.
  assert (zlen (decoded data) <= zlen data + 1).
  { unfold decoded. rewrite zlen_app. case_if; zlia. }
  pose proof (zlen_nonneg (decoded data)). solve_width.
Qed.

(** The decoder always terminates, and it never writes more bytes than the
    string has characters, one fewer from four characters on; a four-character
    field never writes past a three-byte buffer. *)
Theorem juice_base64_decode_bound (s : list Z) (out_size : Z) :
  exists r, juice_base64_decode s out_size = Some r /\
    zlen (written r) <= zlen s /\ (4 <= zlen s -> zlen (written r) <= zlen s - 1).
Proof.
  destruct (decode_loop_bound (length s) s out_size []) as (r & H & B); [done|].
  exists r. split; [exact H|]. rewrite zlen_nil in B. lia.
Qed.

(** The size check of the decoder is too weak: for data whose length is not
    a multiple of 3, a buffer of exactly the length of the data passes the
    check and one byte is written past its end. *)
Theorem juice_base64_decode_overflow (data : list Z) :
  bytes data -> zlen data < 2 ^ 29 -> zlen data mod 3 <> 0 ->
  exists r, juice_base64_decode (encode_loop data) (zlen data) = Some r /\
    0 <= ret r /\ zlen (written r) = zlen data + 1.
Proof.
  intros Hb Hl Hm. unfold juice_base64_decode. rewrite decode_loop_encode by (done || lia).
  cbn [app]. eexists. split; [done|]. cbn [ret written].
  assert (Hd : zlen (decoded data) = zlen data + 1).
  { unfold decoded. rewrite (proj2 (Z.eqb_neq _ _)) by done. by rewrite zlen_app. }
  rewrite Hd. pose proof (zlen_nonneg data). split; [|done]. solve_width.
Qed.

Lemma juice_base64_encode_correct_witness :
  ret (juice_base64_encode (str "libjuice") 13) = 12 /\
  juice_base64_encode (str "libjuice") 12 = {| ret := -1; written := [] |}.
Proof.
  assert (H : bytes (str "libjuice")) by (repeat constructor; unfold is_byte; cbn; lia).
  split.
  - apply (juice_base64_encode_correct (str "libjuice") 13); [done|by vm_compute|by vm_compute].
  - apply (juice_base64_encode_correct (str "libjuice") 12); [done|by vm_compute|by vm_compute].
Defined.

Lemma juice_base64_roundtrip_witness :
  juice_base64_decode (str "AAAD") 3 = Some {| ret := 3; written := [0; 0; 3] |}.
Proof.
  apply (juice_base64_roundtrip [0; 0; 3] 3);
    first [by vm_compute | repeat constructor; unfold is_byte; lia].
Defined.

Lemma juice_base64_decode_overflow_witness :
  exists r, juice_base64_decode (str "QQ==") 1 = Some r /\ 0 <= ret r /\ zlen (written r) = 2.
Proof.
  apply (juice_base64_decode_overflow [65]);
    first [by vm_compute | repeat constructor; unfold is_byte; lia].
Defined.
