(* ===== verification/HashSpec.v ===== *)
(** * Hash functions by their specifications

    MD5 (RFC 1321), SHA-1, SHA-224 and SHA-256 (FIPS 180-4) and HMAC (RFC 2104) on
    whole messages, written after the specifications: the constants are computed from
    their definitions (sines, square roots and cube roots) and not copied from the
    code.  With the laws of iterated hashing that incremental implementations use. *)

From S2P Require Import Prelude.

(** ** Iterated hashing

    A message is padded and cut into blocks of 64 bytes; [compress] updates the
    chaining value with one block. *)

Section Iterated.
Context {T : Type} (compress : T -> list Z -> T).

Fixpoint blocks (n : nat) (st : T) (l : list Z) : T :=
  match n with
  | O => st
  | S n' => blocks n' (compress st (take 64 l)) (drop 64 l)
  end.

(** The complete blocks of [l] are processed; the bytes after them are [rest l]. *)
Definition absorb (st : T) (l : list Z) : T := blocks (length l / 64) st l.
End Iterated.

Definition rest (l : list Z) : list Z := drop (64 * (length l / 64)) l.

(** A one bit, zeros up to 8 bytes before the end of a block, and the length in bits
    as 8 bytes. *)
Definition padding (encode_length : Z -> list Z) (n : Z) : list Z :=
  0x80 :: replicate (Z.to_nat ((55 - n) mod 64)) 0 ++ encode_length (8 * n).

Definition iterated {T} (compress : T -> list Z -> T) (iv : T) (encode_length : Z -> list Z) (msg : list Z) : T :=
  absorb compress iv (msg ++ padding encode_length (zlen msg)).

(** Words of 32 bits. *)
Definition w_not (x : Z) : Z := 4294967295 - x.
Definition rotl (n x : Z) : Z := x * 2 ^ n mod 2 ^ 32 + x / 2 ^ (32 - n).
Definition rotr (n x : Z) : Z := rotl (32 - n) x.

Definition words (word : list Z -> Z) (block : list Z) : list Z :=
  (fun i => word (take 4 (drop (4 * i) block))) <$> seq 0 16.
Definition lsb (n : nat) (v : Z) : list Z := rev (be n v).
Definition unlsb (l : list Z) : Z := unbe (rev l).

(** ** MD5 *)

(** [2 ^ 256 * sin x] by its power series, rounded; the terms are smaller than one
    after 250 of them for the arguments used, 1 to 64. *)
Fixpoint sine_terms (n : nat) (x k term : Z) : Z :=
  match n with
  | O => 0
  | S n' => term + sine_terms n' x (k + 2) (- (term * x * x / ((k + 1) * (k + 2))))
  end.
Definition md5_T (i : Z) : Z := Z.abs (sine_terms 250 i 1 (i * 2 ^ 256)) / 2 ^ 224.

Definition md5_shifts : list Z := [7; 12; 17; 22; 5; 9; 14; 20; 4; 11; 16; 23; 6; 10; 15; 21].

(** The function, the word and the shift of operation [i], with the variables in the
    order b, c, d. *)
Definition md5_function (i : nat) (x y z : Z) : Z :=
  match (i / 16)%nat with
  | 0%nat => (x .& y) .| (w_not x .& z)
  | 1%nat => (x .& z) .| (y .& w_not z)
  | 2%nat => x .^ y .^ z
  | _ => y .^ (x .| w_not z)
  end.
Definition md5_word (i : nat) : nat :=
  match (i / 16)%nat with
  | 0%nat => i
  | 1%nat => (1 + 5 * i) mod 16
  | 2%nat => (5 + 3 * i) mod 16
  | _ => (7 * i) mod 16
  end.
Definition md5_shift (i : nat) : Z := nth (4 * (i / 16) + i mod 4) md5_shifts 0.

Definition md5_operation (X : list Z) (s : Z * Z * Z * Z) (i : nat) : Z * Z * Z * Z :=
  let '(a, b, c, d) := s in
  (d, u32 (b + rotl (md5_shift i)
                 (u32 (a + md5_function i b c d + nth (md5_word i) X 0 + md5_T (Z.of_nat i + 1)))), b, c).

Definition md5_compress (s : Z * Z * Z * Z) (block : list Z) : Z * Z * Z * Z :=
  let '(a, b, c, d) := s in
  let '(a', b', c', d') := fold_left (md5_operation (words unlsb block)) (seq 0 64) s in
  (u32 (a + a'), u32 (b + b'), u32 (c + c'), u32 (d + d')).

Definition md5_iv : Z * Z * Z * Z := (0x67452301, 0xefcdab89, 0x98badcfe, 0x10325476).

Definition md5 (msg : list Z) : list Z :=
  let '(a, b, c, d) := iterated md5_compress md5_iv (lsb 8) msg in lsb 4 a ++ lsb 4 b ++ lsb 4 c ++ lsb 4 d.

(** ** SHA-1 *)

Definition Ch (x y z : Z) : Z := (x .& y) .^ (w_not x .& z).
Definition Parity (x y z : Z) : Z := x .^ y .^ z.
Definition Maj (x y z : Z) : Z := (x .& y) .^ (x .& z) .^ (y .& z).

(** [2 ^ 30] times the square roots of 2, 3, 5 and 10. *)
Definition sha1_K (t : nat) : Z := Z.sqrt (nth (t / 20) [2; 3; 5; 10] 0 * 2 ^ 60).
Definition sha1_function (t : nat) : Z -> Z -> Z -> Z :=
  match (t / 20)%nat with 0%nat => Ch | 1%nat => Parity | 2%nat => Maj | _ => Parity end.

(** The message schedule, with [n] words to be appended. *)
Fixpoint sha1_schedule (n : nat) (w : list Z) : list Z :=
  match n with
  | O => w
  | S n' =>
      let back k := nth (length w - k) w 0 in
      sha1_schedule n' (w ++ [rotl 1 (back 3%nat .^ back 8%nat .^ back 14%nat .^ back 16%nat)])
  end.

Definition sha1_operation (w : list Z) (s : Z * Z * Z * Z * Z) (t : nat) : Z * Z * Z * Z * Z :=
  let '(a, b, c, d, e) := s in
  (u32 (rotl 5 a + sha1_function t b c d + e + sha1_K t + nth t w 0), a, rotl 30 b, c, d).

Definition sha1_compress (s : Z * Z * Z * Z * Z) (block : list Z) : Z * Z * Z * Z * Z :=
  let '(a, b, c, d, e) := s in
  let '(a', b', c', d', e') := fold_left (sha1_operation (sha1_schedule 64 (words unbe block))) (seq 0 80) s in
  (u32 (a + a'), u32 (b + b'), u32 (c + c'), u32 (d + d'), u32 (e + e')).

Definition sha1_iv : Z * Z * Z * Z * Z := (0x67452301, 0xefcdab89, 0x98badcfe, 0x10325476, 0xc3d2e1f0).

Definition sha1 (msg : list Z) : list Z :=
  let '(a, b, c, d, e) := iterated sha1_compress sha1_iv (be 8) msg in
  be 4 a ++ be 4 b ++ be 4 c ++ be 4 d ++ be 4 e.

(** ** SHA-224 and SHA-256 *)

Definition is_prime (n : nat) : bool := forallb (fun d => negb (n mod d =? 0)%nat) (seq 2 (n - 2)).
Definition primes : list Z := Z.of_nat <$> List.filter is_prime (seq 2 310).

(** The largest integer whose cube is at most [x], which is below [2 ^ (3 * n)]. *)
Fixpoint cube_root (n : nat) (x r : Z) : Z :=
  match n with
  | O => r
  | S n' => let r' := r + 2 ^ Z.of_nat n' in cube_root n' x (if r' ^ 3 <=? x then r' else r)
  end.

(** The first 32 bits of the fractional parts of cube roots and of square roots, and
    the next 32 bits of those of square roots. *)
Definition sha2_K (t : nat) : Z := cube_root 36 (nth t primes 0 * 2 ^ 96) 0 mod 2 ^ 32.
Definition sha256_H (i : nat) : Z := Z.sqrt (nth i primes 0 * 2 ^ 64) mod 2 ^ 32.
Definition sha224_H (i : nat) : Z := Z.sqrt (nth (8 + i) primes 0 * 2 ^ 128) mod 2 ^ 32.

Definition Sigma0 (x : Z) : Z := rotr 2 x .^ rotr 13 x .^ rotr 22 x.
Definition Sigma1 (x : Z) : Z := rotr 6 x .^ rotr 11 x .^ rotr 25 x.
Definition sigma0 (x : Z) : Z := rotr 7 x .^ rotr 18 x .^ (x / 2 ^ 3).
Definition sigma1 (x : Z) : Z := rotr 17 x .^ rotr 19 x .^ (x / 2 ^ 10).

Fixpoint sha2_schedule (n : nat) (w : list Z) : list Z :=
  match n with
  | O => w
  | S n' =>
      let back k := nth (length w - k) w 0 in
      sha2_schedule n' (w ++ [u32 (sigma1 (back 2%nat) + back 7%nat + sigma0 (back 15%nat) + back 16%nat)])
  end.

Definition sha2_state : Type := Z * Z * Z * Z * Z * Z * Z * Z.

Definition sha2_operation (w : list Z) (s : sha2_state) (t : nat) : sha2_state :=
  let '(a, b, c, d, e, f, g, h) := s in
  let T1 := u32 (h + Sigma1 e + Ch e f g + sha2_K t + nth t w 0) in
  let T2 := u32 (Sigma0 a + Maj a b c) in
  (u32 (T1 + T2), a, b, c, u32 (d + T1), e, f, g).

Definition sha2_compress (s : sha2_state) (block : list Z) : sha2_state :=
  let '(a, b, c, d, e, f, g, h) := s in
  let '(a', b', c', d', e', f', g', h') :=
    fold_left (sha2_operation (sha2_schedule 48 (words unbe block))) (seq 0 64) s in
  (u32 (a + a'), u32 (b + b'), u32 (c + c'), u32 (d + d'), u32 (e + e'), u32 (f + f'), u32 (g + g'), u32 (h + h')).

Definition sha2_iv (H : nat -> Z) : sha2_state :=
  (H 0%nat, H 1%nat, H 2%nat, H 3%nat, H 4%nat, H 5%nat, H 6%nat, H 7%nat).

Definition sha2_words (s : sha2_state) : list Z :=
  let '(a, b, c, d, e, f, g, h) := s in [a; b; c; d; e; f; g; h].

Definition sha2 (H : nat -> Z) (n : nat) (msg : list Z) : list Z :=
  concat (be 4 <$> take n (sha2_words (iterated sha2_compress (sha2_iv H) (be 8) msg))).
Definition sha256 : list Z -> list Z := sha2 sha256_H 8.
Definition sha224 : list Z -> list Z := sha2 sha224_H 7.

(** ** HMAC *)

(** The key of a block of 64 bytes. *)
Definition hmac_block (hash : list Z -> list Z) (key : list Z) : list Z :=
  let k := if 64 <? zlen key then hash key else key in k ++ replicate (64 - length k) 0.

Definition hmac (hash : list Z -> list Z) (msg key : list Z) : list Z :=
  let k := hmac_block hash key in
  hash (((fun b => b .^ 0x5c) <$> k) ++ hash (((fun b => b .^ 0x36) <$> k) ++ msg)).

(** ** Laws of iterated hashing *)

Section IteratedLaws.
Context {T : Type} (compress : T -> list Z -> T).
Implicit Types l m d b : list Z.

Lemma blocks_app n k (st : T) l1 l2 : length l1 = (64 * n)%nat ->
  blocks compress (n + k) st (l1 ++ l2) = blocks compress k (blocks compress n st l1) l2.
Proof.
  revert st l1. induction n as [|n IH]; intros st l1 Hl.
  { by apply length_zero_iff_nil in Hl as ->. }
  cbn [blocks Nat.add]. rewrite take_app_le, drop_app_le by lia. apply IH. rewrite length_drop. lia.
Qed.

Lemma rest_split m : m = take (64 * (length m / 64)) m ++ rest m.
Proof. unfold rest. by rewrite take_drop. Qed.

Lemma length_rest m : length (rest m) = (length m mod 64)%nat.
Proof. unfold rest. rewrite length_drop. pose proof (Nat.div_mod_eq (length m) 64). lia. Qed.

Lemma length_full m : length (take (64 * (length m / 64)) m) = (64 * (length m / 64))%nat.
Proof. rewrite length_take. pose proof (Nat.div_mod_eq (length m) 64). lia. Qed.

Lemma blocks_take n (st : T) l l' : length l = (64 * n)%nat -> blocks compress n st (l ++ l') = blocks compress n st l.
Proof. intros Hl. pose proof (blocks_app n 0 st l l' Hl) as He. by rewrite Nat.add_0_r in He. Qed.

Lemma split_div k m d : length m = (64 * k)%nat -> (length (m ++ d) / 64 = k + length d / 64)%nat.
Proof. intros Hl. rewrite length_app, Hl, (Nat.mul_comm 64 k), Nat.div_add_l by lia. done. Qed.

(** What is left of a message decides how it goes on. *)
Lemma absorb_app (st : T) m d : absorb compress st (m ++ d) = absorb compress (absorb compress st m) (rest m ++ d).
Proof.
  set (f := take (64 * (length m / 64)) m). pose proof (length_full m) as Hf. fold f in Hf.
  assert (Hm : m = f ++ rest m) by apply rest_split.
  assert (Ha : absorb compress st m = blocks compress (length m / 64) st f).
  { unfold absorb. rewrite Hm at 2. by apply blocks_take. }
  rewrite Ha. rewrite Hm at 1. rewrite <- app_assoc. unfold absorb.
  rewrite (split_div (length m / 64)) by done. by apply blocks_app.
Qed.

Lemma rest_aligned k m d : length m = (64 * k)%nat -> rest (m ++ d) = rest d.
Proof.
  intros Hl. unfold rest. rewrite (split_div k) by done. rewrite drop_app_ge by lia. f_equal. lia.
Qed.

Lemma rest_app m d : rest (m ++ d) = rest (rest m ++ d).
Proof.
  pose proof (length_full m) as Hf. rewrite (rest_split m) at 1. rewrite <- app_assoc.
  by apply (rest_aligned (length m / 64)).
Qed.

Lemma absorb_short (st : T) m : (length m < 64)%nat -> absorb compress st m = st.
Proof. intros Hl. unfold absorb. by rewrite Nat.div_small. Qed.
Lemma rest_short m : (length m < 64)%nat -> rest m = m.
Proof. intros Hl. unfold rest. by rewrite Nat.div_small. Qed.

Lemma absorb_block (st : T) b l : length b = 64%nat ->
  absorb compress st (b ++ l) = absorb compress (compress st b) l.
Proof.
  intros Hb. unfold absorb. rewrite (split_div 1) by lia. cbn [Nat.add blocks].
  rewrite take_app_length', drop_app_length' by done. done.
Qed.
Lemma absorb_one (st : T) b : length b = 64%nat -> absorb compress st b = compress st b.
Proof. intros Hb. rewrite <- (app_nil_r b) at 1. rewrite absorb_block by done. apply absorb_short. cbn. lia. Qed.
Lemma rest_block b l : length b = 64%nat -> rest (b ++ l) = rest l.
Proof. intros Hb. by apply (rest_aligned 1). Qed.

(** The padding that is left when [r] bytes of the last block are used. *)
Definition tail_padding (encode_length : Z -> list Z) (r : nat) (n : Z) : list Z :=
  0x80 :: replicate (if decide (r < 56)%nat then 55 - r else 119 - r) 0 ++ encode_length (8 * n).

Lemma padding_tail encode_length m :
  padding encode_length (zlen m) = tail_padding encode_length (length (rest m)) (zlen m).
Proof.
  unfold padding, tail_padding. rewrite length_rest. do 3 f_equal. unfold zlen.
  pose proof (Nat.mod_upper_bound (length m) 64). pose proof (Nat2Z.inj_mod (length m) 64) as Hz.
  destruct (decide _); Z.div_mod_to_equations; lia.
Qed.

Lemma iterated_rest (iv : T) encode_length m :
  iterated compress iv encode_length m
  = absorb compress (absorb compress iv m) (rest m ++ tail_padding encode_length (length (rest m)) (zlen m)).
Proof. unfold iterated. by rewrite absorb_app, padding_tail. Qed.
End IteratedLaws.

(** ** Words *)

Definition word (x : Z) : Prop := 0 <= x < 2 ^ 32.

Lemma u32_word x : word (u32 x).
Proof. unfold word, u32. change 4294967296 with (2 ^ 32). apply Z.mod_pos_bound. lia. Qed.
Lemma u32_id x : word x -> u32 x = x.
Proof. apply Z.mod_small. Qed.
#[export] Hint Resolve u32_word : juice.

Lemma u32_add_l x y : u32 (u32 x + y) = u32 (x + y).
Proof. apply Zplus_mod_idemp_l. Qed.
Lemma u32_add_r x y : u32 (x + u32 y) = u32 (x + y).
Proof. apply Zplus_mod_idemp_r. Qed.
Lemma u32_idem x : u32 (u32 x) = u32 x.
Proof. apply Zmod_mod. Qed.

Lemma u32_testbit x i : 0 <= i -> Z.testbit (u32 x) i = (i <? 32) && Z.testbit x i.
Proof.
  intros Hi. unfold u32. change 4294967296 with (2 ^ 32). destruct (i <? 32) eqn:E; bool_to_prop.
  - by rewrite Z.mod_pow2_bits_low by lia.
  - by rewrite Z.mod_pow2_bits_high by lia.
Qed.

Lemma word_testbit x i : word x -> 0 <= i -> Z.testbit x i = (i <? 32) && Z.testbit x i.
Proof. intros Hx Hi. rewrite <- (u32_id x Hx) at 1. by apply u32_testbit. Qed.

Lemma w_not_lnot x : word x -> w_not x = u32 (Z.lnot x).
Proof.
  unfold word, w_not, u32. intros Hx. replace (Z.lnot x) with (4294967295 - x + (-1) * 4294967296) by (unfold Z.lnot; lia).
  rewrite Z_mod_plus_full, Z.mod_small; lia.
Qed.

Lemma w_not_testbit x i : word x -> 0 <= i -> Z.testbit (w_not x) i = (i <? 32) && negb (Z.testbit x i).
Proof. intros Hx Hi. by rewrite w_not_lnot, u32_testbit, Z.lnot_spec. Qed.

(** Equations between operations on bits, bit by bit. *)
Ltac bitwise :=
  apply Z.bits_inj'; intros ?i ?Hi;
  repeat (rewrite ?Z.lxor_spec, ?Z.land_spec, ?Z.lor_spec;
          rewrite ?u32_testbit by done; rewrite ?w_not_testbit by done; rewrite ?Z.lnot_spec by done);
  repeat match goal with
  | Hx : word ?x |- context [Z.testbit ?x ?i] =>
      lazymatch goal with
      | _ : Z.testbit x i = _ |- _ => fail
      | _ => let E := fresh "E" in pose proof (word_testbit x i Hx ltac:(done)) as E; revert E
      end; clear Hx
  end; intros;
  repeat match goal with |- context [?i <? 32] => destruct (i <? 32) end;
  repeat match goal with |- context [Z.testbit ?a ?i] => destruct (Z.testbit a i) end; done.

Lemma u32_lxor x y : u32 (x .^ y) = u32 x .^ u32 y.
Proof. bitwise. Qed.
Lemma u32_land x y : u32 (x .& y) = u32 x .& u32 y.
Proof. bitwise. Qed.
Lemma u32_lor x y : u32 (x .| y) = u32 x .| u32 y.
Proof. bitwise. Qed.

Lemma lxor_word x y : word x -> word y -> word (x .^ y).
Proof. apply lxor_bound. lia. Qed.
Lemma lor_word x y : word x -> word y -> word (x .| y).
Proof. apply lor_bound. lia. Qed.
#[export] Hint Resolve lxor_word lor_word : juice.

(** The two ways to write a choice and a majority. *)
Lemma choice_xor x y z : word x -> word y -> word z -> z .^ (x .& (y .^ z)) = Ch x y z.
Proof. intros Hx Hy Hz. unfold Ch. bitwise. Qed.
Lemma choice_or x y z : word x -> word y -> word z -> z .^ (x .& (y .^ z)) = (x .& y) .| (w_not x .& z).
Proof. intros Hx Hy Hz. bitwise. Qed.
Lemma majority_or x y z : ((x .| y) .& z) .| (x .& y) = Maj x y z.
Proof. unfold Maj. bitwise. Qed.
Lemma majority_or' x y z : (x .& y) .| (z .& (x .| y)) = Maj x y z.
Proof. unfold Maj. bitwise. Qed.

(** A rotation by the [or] of two shifts. *)
Lemma rotl_or n x : 0 < n < 32 -> word x -> u32 (x .<< n) .| (x .>> (32 - n)) = rotl n x.
Proof.
  intros Hn Hx. unfold rotl, word in *. rewrite shiftl_mul, shiftr_div by lia.
  assert (Hs : 2 ^ 32 = 2 ^ (32 - n) * 2 ^ n) by (rewrite <- Z.pow_add_r by lia; f_equal; lia).
  assert (He : x * 2 ^ n mod 2 ^ 32 = (x mod 2 ^ (32 - n)) * 2 ^ n).
  { rewrite Hs. by rewrite Z.mul_mod_distr_r by lia. }
  unfold u32. change 4294967296 with (2 ^ 32). rewrite He, <- (shiftl_mul (x mod _) n) by lia.
  rewrite lor_shiftl_add; [by rewrite shiftl_mul by lia|lia|].
  split; [apply Z.div_pos; lia|apply Z.div_lt_upper_bound; [lia|rewrite <- Hs; lia] ].
Qed.

Lemma rotl_word n x : 0 < n < 32 -> word x -> word (rotl n x).
Proof.
  intros Hn Hx. rewrite <- rotl_or by done. apply lor_word; [apply u32_word|].
  unfold word in *. rewrite shiftr_div by lia. split; [apply Z.div_pos; lia|].
  apply Z.div_lt_upper_bound; [lia|]. pose proof (Z.pow_pos_nonneg 2 (32 - n)). nia.
Qed.

(** A word by the [or] of its shifted bytes. *)
Lemma word_of_bytes a b c d : is_byte a -> is_byte b -> is_byte c -> is_byte d ->
  (a .<< 24) .| (b .<< 16) .| (c .<< 8) .| d = unbe [a; b; c; d].
Proof.
  unfold is_byte. intros Ha Hb Hc Hd. rewrite <- !Z.lor_assoc.
  rewrite (lor_shiftl_add c d 8), (lor_shiftl_add b _ 16), (lor_shiftl_add a _ 24) by lia.
  unfold unbe. cbn [fold_left]. lia.
Qed.
Lemma word_of_bytes_lsb a b c d : is_byte a -> is_byte b -> is_byte c -> is_byte d ->
  d .| (c .<< 8) .| (b .<< 16) .| (a .<< 24) = unbe [a; b; c; d].
Proof.
  intros. rewrite <- word_of_bytes by done. rewrite (Z.lor_comm _ (a .<< 24)), (Z.lor_comm _ (b .<< 16)), (Z.lor_comm d).
  by rewrite !Z.lor_assoc.
Qed.

(** The bytes of a word, by shifts. *)
Lemma be_shifts v : [u8 (v .>> 24); u8 (v .>> 16); u8 (v .>> 8); u8 v] = be 4 v.
Proof.
  cbn [be app]. rewrite !Z.div_div by lia. unfold u8. by rewrite !shiftr_div by lia.
Qed.
Lemma be_mod n v : be n (v mod 256 ^ Z.of_nat n) = be n v.
Proof.
  revert v. induction n as [|n IH]; intros v; [done|].
  rewrite Nat2Z.inj_succ, Z.pow_succ_r, Z.rem_mul_r by lia. cbn [be]. f_equal.
  - rewrite <- (IH (v / 256)). f_equal. pose proof (Z.mod_pos_bound v 256). Z.div_mod_to_equations. lia.
  - f_equal. by rewrite (Z.mul_comm 256), Z_mod_plus_full, Zmod_mod.
Qed.
Lemma be_u32 v : be 4 (u32 v) = be 4 v.
Proof. exact (be_mod 4 v). Qed.

(** The mask of a word. *)
Lemma land_word x : x .& 0xffffffff = u32 x.
Proof. change 0xffffffff with (2 ^ 32 - 1). unfold u32. change 4294967296 with (2 ^ 32). by apply land_ones_mod. Qed.

(** ** Buffers *)

(** A store at the end of the part of a buffer that is known. *)
Lemma store_after (m : list Z) (k : nat) (bs : list Z) : (k + length bs <= length m)%nat ->
  exists m', store m (Z.of_nat k) bs = Some m' /\ length m' = length m /\ take (k + length bs) m' = take k m ++ bs.
Proof.
  intros Hl. exists (take k m ++ bs ++ drop (k + length bs) m). split; [|split].
  - unfold store. rewrite (proj2 (in_bounds_true _ _ _)) by (unfold zlen; lia). by rewrite Nat2Z.id.
  - rewrite !length_app, length_take, length_drop. lia.
  - rewrite app_assoc. apply take_app_length'. rewrite length_app, length_take. lia.
Qed.

Lemma load_start (m : list Z) (k : nat) : (k <= length m)%nat -> load m 0 (Z.of_nat k) = Some (take k m).
Proof. intros Hl. rewrite load_Some by (unfold zlen; lia). by rewrite Nat2Z.id. Qed.

(** Word [i] of a block. *)
Lemma load_word4 (m : list Z) (i : nat) : bytes m -> (4 * i + 4 <= length m)%nat ->
  exists a b c d, load m (4 * Z.of_nat i) 4 = Some [a; b; c; d] /\ take 4 (drop (4 * i) m) = [a; b; c; d] /\
    is_byte a /\ is_byte b /\ is_byte c /\ is_byte d.
Proof.
  intros Hm Hl. assert (Hb : bytes (take 4 (drop (4 * i) m))) by auto using Forall_take, Forall_drop.
  assert (Hn : length (take 4 (drop (4 * i) m)) = 4%nat) by (rewrite length_take, length_drop; lia).
  rewrite load_Some by (unfold zlen; lia). replace (Z.to_nat (4 * Z.of_nat i)) with (4 * i)%nat by lia.
  change (Z.to_nat 4) with 4%nat.
  destruct (take 4 (drop (4 * i) m)) as [|a [|b [|c [|d [|x l] ] ] ] ]; try done.
  exists a, b, c, d. do 4 (apply Forall_cons_1 in Hb as [? Hb]). done.
Qed.

Lemma words_take (f : list Z -> Z) (l : list Z) : words f (take 64 l) = words f l.
Proof.
  unfold words. apply list_fmap_ext. intros k i Hi. apply lookup_seq in Hi as [-> Hi].
  by rewrite !take_drop_commute, take_take, Nat.min_l by lia.
Qed.

(** The length of the message. *)
Lemma lsb_8 v : lsb 8 v = lsb 4 v ++ lsb 4 (v / 2 ^ 32).
Proof. unfold lsb. cbn [be app rev]. by rewrite !Z.div_div by lia. Qed.
Lemma lsb_u32 v : lsb 4 (u32 v) = lsb 4 v.
Proof. unfold lsb. by rewrite be_u32. Qed.
Lemma lsb_shifts v : [u8 v; u8 (v .>> 8); u8 (v .>> 16); u8 (v .>> 24)] = lsb 4 v.
Proof. unfold lsb. by rewrite <- be_shifts. Qed.

(** The words of a block. *)
Lemma words_words block : bytes block -> (length block = 64)%nat -> Forall word (words unbe block) /\ length (words unbe block) = 16%nat.
Proof.
  intros Hb Hl. unfold words. split; [|by rewrite length_fmap, length_seq]. apply Forall_fmap, Forall_seq. intros i Hi. cbn.
  assert (H4 : bytes (take 4 (drop (4 * i) block))) by auto using Forall_take, Forall_drop.
  pose proof (unbe_bound _ H4) as Hu. rewrite zlen_take, zlen_drop in Hu. unfold word, zlen in *.
  replace (Z.min _ _) with 4 in Hu by lia. done.
Qed.

(** The field of 8 bits at [k]. *)
Lemma mask_field x k : 0 <= k -> x .& (255 .<< k) = (x .>> k mod 256) .<< k.
Proof.
  intros Hk. rewrite <- land_255. apply Z.bits_inj'. intros i Hi.
  rewrite Z.land_spec, !Z.shiftl_spec, Z.land_spec by done. destruct (Z.lt_ge_cases i k).
  - rewrite !(Z.testbit_neg_r _ (i - k)) by lia. by rewrite !andb_false_r.
  - rewrite Z.shiftr_spec by lia. by replace (i - k + k) with i by lia.
Qed.

(** The count of bits at the end of a message. *)
Lemma be_8_bits n : be 8 (8 * n) = [u8 (n .>> 53); u8 (n .>> 45); u8 (n .>> 37); u8 (n .>> 29); u8 (n .>> 21); u8 (n .>> 13);
  u8 (n .>> 5); u8 (n .<< 3)].
Proof.
  assert (Hq : forall k, 0 <= k -> u8 (n .>> k) = 8 * n / 2 ^ (k + 3) mod 256).
  { intros k Hk. unfold u8. rewrite shiftr_div by lia. rewrite Z.pow_add_r, (Z.mul_comm (2 ^ k)) by lia.
    change (2 ^ 3) with 8. by rewrite Z.div_mul_cancel_l by lia. }
  rewrite !Hq, shiftl_mul, (Z.mul_comm n) by lia. cbn [be app]. by rewrite !Z.div_div by lia.
Qed.

(** A step that is known, without reducing what follows. *)
Lemma bind_known {A B} (o : option A) (a : A) (k : A -> option B) : o = Some a -> (x ← o; k x) = k a.
Proof. by intros ->. Qed.
