(* ===== verification/Hash.v ===== *)
(** * Hash functions (src/picohash.h, src/hash.c, src/hmac.c)

    MD5, SHA-1, SHA-224 and SHA-256 with their contexts, and HMAC on top of them.
    The contexts of the three algorithms share memory in the code; a context is only
    used with one of them, and they are separate here.  Pointers to functions are
    values of the type [fn].  [uint_fast32_t] has [W] bits, 64 with glibc and 32
    elsewhere.  The host is little-endian.  Storing outside a buffer or reading
    outside the input is undefined behaviour, [None]. *)

From S2P Require Import Prelude.

(** ** MD5 *)

Definition PICOHASH_MD5_BLOCK_LENGTH : Z := 64.
Definition PICOHASH_MD5_DIGEST_LENGTH : Z := 16.

(** The variables a, b, c and d of a block, and of a context. *)
Record md5_state := { st_a : Z; st_b : Z; st_c : Z; st_d : Z }.

(** [block], which holds the words of the block that is processed, is left out. *)
Record _picohash_md5_ctx_t := { md5_lo : Z; md5_hi : Z; md5_abcd : md5_state; md5_buffer : list Z }.

Inductive reg := A | B | C | D.
Inductive md5_fn := MD5_F | MD5_G | MD5_H | MD5_I.

(** A use of the macro [_PICOHASH_MD5_STEP]: the function, the variables, the word of
    the block, the constant and the shift. *)
Inductive md5_step := STEP (f : md5_fn) (a b c d : reg) (x : nat) (t s : Z).

Definition get_reg (st : md5_state) (r : reg) : Z :=
  match r with A => st_a st | B => st_b st | C => st_c st | D => st_d st end.

Definition set_reg (st : md5_state) (r : reg) (v : Z) : md5_state :=
  match r with
  | A => {| st_a := v; st_b := st_b st; st_c := st_c st; st_d := st_d st |}
  | B => {| st_a := st_a st; st_b := v; st_c := st_c st; st_d := st_d st |}
  | C => {| st_a := st_a st; st_b := st_b st; st_c := v; st_d := st_d st |}
  | D => {| st_a := st_a st; st_b := st_b st; st_c := st_c st; st_d := v |}
  end.

Definition md5_steps : list md5_step := [
  STEP MD5_F A B C D 0 0xd76aa478 7;
  STEP MD5_F D A B C 1 0xe8c7b756 12;
  STEP MD5_F C D A B 2 0x242070db 17;
  STEP MD5_F B C D A 3 0xc1bdceee 22;
  STEP MD5_F A B C D 4 0xf57c0faf 7;
  STEP MD5_F D A B C 5 0x4787c62a 12;
  STEP MD5_F C D A B 6 0xa8304613 17;
  STEP MD5_F B C D A 7 0xfd469501 22;
  STEP MD5_F A B C D 8 0x698098d8 7;
  STEP MD5_F D A B C 9 0x8b44f7af 12;
  STEP MD5_F C D A B 10 0xffff5bb1 17;
  STEP MD5_F B C D A 11 0x895cd7be 22;
  STEP MD5_F A B C D 12 0x6b901122 7;
  STEP MD5_F D A B C 13 0xfd987193 12;
  STEP MD5_F C D A B 14 0xa679438e 17;
  STEP MD5_F B C D A 15 0x49b40821 22;
  STEP MD5_G A B C D 1 0xf61e2562 5;
  STEP MD5_G D A B C 6 0xc040b340 9;
  STEP MD5_G C D A B 11 0x265e5a51 14;
  STEP MD5_G B C D A 0 0xe9b6c7aa 20;
  STEP MD5_G A B C D 5 0xd62f105d 5;
  STEP MD5_G D A B C 10 0x02441453 9;
  STEP MD5_G C D A B 15 0xd8a1e681 14;
  STEP MD5_G B C D A 4 0xe7d3fbc8 20;
  STEP MD5_G A B C D 9 0x21e1cde6 5;
  STEP MD5_G D A B C 14 0xc33707d6 9;
  STEP MD5_G C D A B 3 0xf4d50d87 14;
  STEP MD5_G B C D A 8 0x455a14ed 20;
  STEP MD5_G A B C D 13 0xa9e3e905 5;
  STEP MD5_G D A B C 2 0xfcefa3f8 9;
  STEP MD5_G C D A B 7 0x676f02d9 14;
  STEP MD5_G B C D A 12 0x8d2a4c8a 20;
  STEP MD5_H A B C D 5 0xfffa3942 4;
  STEP MD5_H D A B C 8 0x8771f681 11;
  STEP MD5_H C D A B 11 0x6d9d6122 16;
  STEP MD5_H B C D A 14 0xfde5380c 23;
  STEP MD5_H A B C D 1 0xa4beea44 4;
  STEP MD5_H D A B C 4 0x4bdecfa9 11;
  STEP MD5_H C D A B 7 0xf6bb4b60 16;
  STEP MD5_H B C D A 10 0xbebfbc70 23;
  STEP MD5_H A B C D 13 0x289b7ec6 4;
  STEP MD5_H D A B C 0 0xeaa127fa 11;
  STEP MD5_H C D A B 3 0xd4ef3085 16;
  STEP MD5_H B C D A 6 0x04881d05 23;
  STEP MD5_H A B C D 9 0xd9d4d039 4;
  STEP MD5_H D A B C 12 0xe6db99e5 11;
  STEP MD5_H C D A B 15 0x1fa27cf8 16;
  STEP MD5_H B C D A 2 0xc4ac5665 23;
  STEP MD5_I A B C D 0 0xf4292244 6;
  STEP MD5_I D A B C 7 0x432aff97 10;
  STEP MD5_I C D A B 14 0xab9423a7 15;
  STEP MD5_I B C D A 5 0xfc93a039 21;
  STEP MD5_I A B C D 12 0x655b59c3 6;
  STEP MD5_I D A B C 3 0x8f0ccc92 10;
  STEP MD5_I C D A B 10 0xffeff47d 15;
  STEP MD5_I B C D A 1 0x85845dd1 21;
  STEP MD5_I A B C D 8 0x6fa87e4f 6;
  STEP MD5_I D A B C 15 0xfe2ce6e0 10;
  STEP MD5_I C D A B 6 0xa3014314 15;
  STEP MD5_I B C D A 13 0x4e0811a1 21;
  STEP MD5_I A B C D 4 0xf7537e82 6;
  STEP MD5_I D A B C 11 0xbd3af235 10;
  STEP MD5_I C D A B 2 0x2ad7d2bb 15;
  STEP MD5_I B C D A 9 0xeb86d391 21 ].

Section MD5.
Context (W : Z).

Definition fast (z : Z) : Z := z mod 2 ^ W.

Definition md5_apply (f : md5_fn) (x y z : Z) : Z :=
  match f with
  | MD5_F => z .^ (x .& (y .^ z))
  | MD5_G => y .^ (z .& (x .^ y))
  | MD5_H => x .^ y .^ z
  | MD5_I => y .^ (x .| fast (Z.lnot z))
  end.

Definition md5_exec (words : list Z) (st : md5_state) (p : md5_step) : md5_state :=
  let '(STEP f a b c d x t s) := p in
  let v := fast (get_reg st a + (md5_apply f (get_reg st b) (get_reg st c) (get_reg st d) + nth x words 0 + t)) in
  let v := fast (v .<< s) .| ((v .& 0xffffffff) .>> (32 - s)) in
  let v := fast (v + get_reg st b) in
  set_reg st a v.

(** [_PICOHASH_MD5_SET] of word [n]. *)
Definition md5_set (ptr : list Z) (n : Z) : option Z :=
  w ← load ptr (4 * n) 4;
  Some (nth 0 w 0 .| (nth 1 w 0 .<< 8) .| (nth 2 w 0 .<< 16) .| (nth 3 w 0 .<< 24)).

Fixpoint md5_words (ptr : list Z) (n : Z) (k : nat) : option (list Z) :=
  match k with
  | O => Some []
  | S k' => w ← md5_set ptr n; ws ← md5_words ptr (n + 1) k'; Some (w :: ws)
  end.

(** One round of the loop of [_picohash_md5_body]. *)
Definition md5_block (st : md5_state) (words : list Z) : md5_state :=
  let st' := fold_left (md5_exec words) md5_steps st in
  {| st_a := fast (st_a st' + st_a st); st_b := fast (st_b st' + st_b st);
     st_c := fast (st_c st' + st_c st); st_d := fast (st_d st' + st_d st) |}.

(** The state and the data that is left. *)
Fixpoint md5_body_loop (fuel : nat) (st : md5_state) (ptr : list Z) (size : Z) : option (md5_state * list Z) :=
  match fuel with
  | O => None
  | S fuel' =>
      words ← md5_words ptr 0 16;
      let st := md5_block st words in
      let ptr := drop 64 ptr in
      let size := u64 (size - 64) in
      if size =? 0 then Some (st, ptr) else md5_body_loop fuel' st ptr size
  end.

Definition with_md5_state (c : _picohash_md5_ctx_t) (st : md5_state) : _picohash_md5_ctx_t :=
  {| md5_lo := md5_lo c; md5_hi := md5_hi c; md5_abcd := st; md5_buffer := md5_buffer c |}.
Definition with_md5_buffer (c : _picohash_md5_ctx_t) (b : list Z) : _picohash_md5_ctx_t :=
  {| md5_lo := md5_lo c; md5_hi := md5_hi c; md5_abcd := md5_abcd c; md5_buffer := b |}.
Definition with_md5_count (c : _picohash_md5_ctx_t) (lo hi : Z) : _picohash_md5_ctx_t :=
  {| md5_lo := lo; md5_hi := hi; md5_abcd := md5_abcd c; md5_buffer := md5_buffer c |}.

Definition _picohash_md5_body (ctx : _picohash_md5_ctx_t) (data : list Z) (size : Z)
  : option (_picohash_md5_ctx_t * list Z) :=
  '(st, ptr) ← md5_body_loop (Z.to_nat (size / 64)) (md5_abcd ctx) data size;
  Some (with_md5_state ctx st, ptr).

Definition _picohash_md5_init (ctx : _picohash_md5_ctx_t) : _picohash_md5_ctx_t :=
  {| md5_lo := 0; md5_hi := 0;
     md5_abcd := {| st_a := 0x67452301; st_b := 0xefcdab89; st_c := 0x98badcfe; st_d := 0x10325476 |};
     md5_buffer := md5_buffer ctx |}.

(** The counters of [_picohash_md5_update]. *)
Definition md5_count (ctx : _picohash_md5_ctx_t) (size : Z) : _picohash_md5_ctx_t :=
  let saved_lo := md5_lo ctx in
  let lo := u64 (saved_lo + size) .& 0x1fffffff in
  let hi := if lo <? saved_lo then fast (md5_hi ctx + 1) else md5_hi ctx in
  with_md5_count ctx lo (fast (hi + fast (size .>> 29))).

(** What follows a buffer that is empty. *)
Definition md5_update_rest (ctx : _picohash_md5_ctx_t) (data : list Z) : option _picohash_md5_ctx_t :=
  let size := zlen data in
  '(ctx, data, size) ← (if 64 <=? size then
      '(ctx, data) ← _picohash_md5_body ctx data (Z.ldiff size 0x3f);
      Some (ctx, data, size .& 0x3f)
    else Some (ctx, data, size));
  d ← load data 0 size;
  b ← store (md5_buffer ctx) 0 d;
  Some (with_md5_buffer ctx b).

Definition _picohash_md5_update (ctx : _picohash_md5_ctx_t) (data : list Z) : option _picohash_md5_ctx_t :=
  let size := zlen data in
  let used := md5_lo ctx .& 0x3f in
  let ctx := md5_count ctx size in
  if negb (used =? 0) then
    let free := 64 - used in
    if size <? free then
      b ← store (md5_buffer ctx) used data;
      Some (with_md5_buffer ctx b)
    else
      d ← load data 0 free;
      b ← store (md5_buffer ctx) used d;
      '(ctx, _) ← _picohash_md5_body (with_md5_buffer ctx b) b 64;
      md5_update_rest ctx (drop (Z.to_nat free) data)
  else md5_update_rest ctx data.

(** The bytes stored from an integer: [v], [v >> 8], [v >> 16], [v >> 24]. *)
Definition le_bytes (v : Z) : list Z := [u8 v; u8 (v .>> 8); u8 (v .>> 16); u8 (v .>> 24)].

(** The context is cleared at the end. *)
Definition _picohash_md5_final (ctx : _picohash_md5_ctx_t) : option (_picohash_md5_ctx_t * list Z) :=
  let used := md5_lo ctx .& 0x3f in
  b ← store (md5_buffer ctx) used [0x80];
  let ctx := with_md5_buffer ctx b in
  let used := used + 1 in
  let free := 64 - used in
  '(ctx, used, free) ← (if free <? 8 then
      b ← store (md5_buffer ctx) used (replicate (Z.to_nat free) 0);
      '(ctx, _) ← _picohash_md5_body (with_md5_buffer ctx b) b 64;
      Some (ctx, 0, 64)
    else Some (ctx, used, free));
  b ← store (md5_buffer ctx) used (replicate (Z.to_nat (free - 8)) 0);
  b ← store b 56 (le_bytes (fast (md5_lo ctx .<< 3)) ++ le_bytes (md5_hi ctx));
  '(ctx, _) ← _picohash_md5_body (with_md5_buffer ctx b) b 64;
  let st := md5_abcd ctx in
  Some ({| md5_lo := 0; md5_hi := 0; md5_abcd := {| st_a := 0; st_b := 0; st_c := 0; st_d := 0 |};
           md5_buffer := replicate 64 0 |},
        le_bytes (st_a st) ++ le_bytes (st_b st) ++ le_bytes (st_c st) ++ le_bytes (st_d st)).
End MD5.

(** ** SHA-1 *)

Definition PICOHASH_SHA1_BLOCK_LENGTH : Z := 64.
Definition PICOHASH_SHA1_DIGEST_LENGTH : Z := 20.

(** [buffer] is the memory of 16 words. *)
Record _picohash_sha1_ctx_t := { sha1_buffer : list Z; sha1_state : list Z; byteCount : Z; bufferOffset : Z }.

Definition _PICOHASH_SHA1_K0 : Z := 0x5a827999.
Definition _PICOHASH_SHA1_K20 : Z := 0x6ed9eba1.
Definition _PICOHASH_SHA1_K40 : Z := 0x8f1bbcdc.
Definition _PICOHASH_SHA1_K60 : Z := 0xca62c1d6.

Definition _picohash_sha1_rol32 (number bits : Z) : Z := u32 (number .<< bits) .| (number .>> (32 - bits)).

(** The words of the memory of an array of [uint32_t], and its memory. *)
Definition le_words (m : list Z) : list Z :=
  (fun i => unbe (rev (take 4 (drop (4 * i) m)))) <$> seq 0 (length m / 4).
Definition le_memory (ws : list Z) : list Z := concat ((fun w => rev (be 4 w)) <$> ws).

Definition sha1_f (i b c d : Z) : Z :=
  if i <? 20 then u32 ((d .^ (b .& (c .^ d))) + _PICOHASH_SHA1_K0)
  else if i <? 40 then u32 ((b .^ c .^ d) + _PICOHASH_SHA1_K20)
  else if i <? 60 then u32 (((b .& c) .| (d .& (b .| c))) + _PICOHASH_SHA1_K40)
  else u32 ((b .^ c .^ d) + _PICOHASH_SHA1_K60).

(** Round [i] of the loop, on the buffer and the variables a, b, c, d and e. *)
Definition sha1_round (i : Z) (s : list Z * (Z * Z * Z * Z * Z)) : list Z * (Z * Z * Z * Z * Z) :=
  let '(buffer, (a, b, c, d, e)) := s in
  let at_ k := nth (Z.to_nat (k .& 15)) buffer 0 in
  let buffer := if 16 <=? i
                then <[Z.to_nat (i .& 15) := _picohash_sha1_rol32 (at_ (i + 13) .^ at_ (i + 8) .^ at_ (i + 2) .^ at_ i) 1]>
                       buffer
                else buffer in
  let t := sha1_f i b c d in
  let t := u32 (t + u32 (_picohash_sha1_rol32 a 5 + e + nth (Z.to_nat (i .& 15)) buffer 0)) in
  (buffer, (t, a, _picohash_sha1_rol32 b 30, c, d)).

Fixpoint sha1_rounds (n : nat) (i : Z) (s : list Z * (Z * Z * Z * Z * Z)) : list Z * (Z * Z * Z * Z * Z) :=
  match n with
  | O => s
  | S n' => sha1_rounds n' (i + 1) (sha1_round i s)
  end.

Definition _picohash_sha1_hash_block (s : _picohash_sha1_ctx_t) : _picohash_sha1_ctx_t :=
  let st k := nth k (sha1_state s) 0 in
  let '(buffer, (a, b, c, d, e)) :=
    sha1_rounds 80 0 (le_words (sha1_buffer s), (st 0%nat, st 1%nat, st 2%nat, st 3%nat, st 4%nat)) in
  {| sha1_buffer := le_memory buffer;
     sha1_state := [u32 (st 0%nat + a); u32 (st 1%nat + b); u32 (st 2%nat + c); u32 (st 3%nat + d); u32 (st 4%nat + e)];
     byteCount := byteCount s; bufferOffset := bufferOffset s |}.

Definition _picohash_sha1_add_uncounted (s : _picohash_sha1_ctx_t) (data : Z) : option _picohash_sha1_ctx_t :=
  b ← store (sha1_buffer s) (bufferOffset s .^ 3) [data];
  let s := {| sha1_buffer := b; sha1_state := sha1_state s; byteCount := byteCount s;
              bufferOffset := u8 (bufferOffset s + 1) |} in
  if bufferOffset s =? PICOHASH_SHA1_BLOCK_LENGTH then
    let s := _picohash_sha1_hash_block s in
    Some {| sha1_buffer := sha1_buffer s; sha1_state := sha1_state s; byteCount := byteCount s; bufferOffset := 0 |}
  else Some s.

Definition _picohash_sha1_init (s : _picohash_sha1_ctx_t) : _picohash_sha1_ctx_t :=
  {| sha1_buffer := sha1_buffer s;
     sha1_state := [0x67452301; 0xefcdab89; 0x98badcfe; 0x10325476; 0xc3d2e1f0];
     byteCount := 0; bufferOffset := 0 |}.

Fixpoint _picohash_sha1_update (s : _picohash_sha1_ctx_t) (data : list Z) : option _picohash_sha1_ctx_t :=
  match data with
  | [] => Some s
  | b :: data' =>
      let s := {| sha1_buffer := sha1_buffer s; sha1_state := sha1_state s; byteCount := u64 (byteCount s + 1);
                  bufferOffset := bufferOffset s |} in
      s ← _picohash_sha1_add_uncounted s b;
      _picohash_sha1_update s data'
  end.

(** The loop that pads with zeros. *)
Fixpoint sha1_pad (fuel : nat) (s : _picohash_sha1_ctx_t) : option _picohash_sha1_ctx_t :=
  match fuel with
  | O => None
  | S fuel' =>
      if bufferOffset s =? 56 then Some s
      else s ← _picohash_sha1_add_uncounted s 0x00; sha1_pad fuel' s
  end.

Fixpoint sha1_add_all (s : _picohash_sha1_ctx_t) (l : list Z) : option _picohash_sha1_ctx_t :=
  match l with
  | [] => Some s
  | b :: l' => s ← _picohash_sha1_add_uncounted s b; sha1_add_all s l'
  end.

(** The expression that swaps the bytes of a word. *)
Definition sha1_swap (w : Z) : Z :=
  (u32 (w .<< 24) .& 0xff000000) .| (u32 (w .<< 8) .& 0x00ff0000) .| ((w .>> 8) .& 0x0000ff00) .|
  ((w .>> 24) .& 0x000000ff).

Definition _picohash_sha1_final (s : _picohash_sha1_ctx_t) : option (_picohash_sha1_ctx_t * list Z) :=
  s ← _picohash_sha1_add_uncounted s 0x80;
  s ← sha1_pad 65 s;
  let n := byteCount s in
  s ← sha1_add_all s [u8 (n .>> 53); u8 (n .>> 45); u8 (n .>> 37); u8 (n .>> 29); u8 (n .>> 21); u8 (n .>> 13);
                      u8 (n .>> 5); u8 (n .<< 3)];
  let s := {| sha1_buffer := sha1_buffer s; sha1_state := sha1_swap <$> sha1_state s; byteCount := byteCount s;
              bufferOffset := bufferOffset s |} in
  Some (s, le_memory (sha1_state s)).

(** ** SHA-224 and SHA-256 *)

Definition PICOHASH_SHA256_BLOCK_LENGTH : Z := 64.
Definition PICOHASH_SHA256_DIGEST_LENGTH : Z := 32.
Definition PICOHASH_SHA224_BLOCK_LENGTH : Z := PICOHASH_SHA256_BLOCK_LENGTH.
Definition PICOHASH_SHA224_DIGEST_LENGTH : Z := 28.

Record _picohash_sha256_ctx_t := { sha_length : Z; sha_state : list Z; curlen : Z; sha_buf : list Z }.

Definition _picohash_sha256_ch (x y z : Z) : Z := z .^ (x .& (y .^ z)).
Definition _picohash_sha256_maj (x y z : Z) : Z := ((x .| y) .& z) .| (x .& y).
Definition _picohash_sha256_s (x y : Z) : Z :=
  (((u32 x .& 0xFFFFFFFF) .>> (y .& 31)) .| u32 (u32 x .<< (32 - (y .& 31)))) .& 0xFFFFFFFF.
Definition _picohash_sha256_r (x n : Z) : Z := (x .& 0xFFFFFFFF) .>> n.
Definition _picohash_sha256_sigma0 (x : Z) : Z :=
  _picohash_sha256_s x 2 .^ _picohash_sha256_s x 13 .^ _picohash_sha256_s x 22.
Definition _picohash_sha256_sigma1 (x : Z) : Z :=
  _picohash_sha256_s x 6 .^ _picohash_sha256_s x 11 .^ _picohash_sha256_s x 25.
Definition _picohash_sha256_gamma0 (x : Z) : Z :=
  _picohash_sha256_s x 7 .^ _picohash_sha256_s x 18 .^ _picohash_sha256_r x 3.
Definition _picohash_sha256_gamma1 (x : Z) : Z :=
  _picohash_sha256_s x 17 .^ _picohash_sha256_s x 19 .^ _picohash_sha256_r x 10.

Definition sha256_K : list Z :=
  [0x428A2F98; 0x71374491; 0xB5C0FBCF; 0xE9B5DBA5] ++
  [0x3956C25B; 0x59F111F1; 0x923F82A4; 0xAB1C5ED5] ++
  [0xD807AA98; 0x12835B01; 0x243185BE; 0x550C7DC3] ++
  [0x72BE5D74; 0x80DEB1FE; 0x9BDC06A7; 0xC19BF174] ++
  [0xE49B69C1; 0xEFBE4786; 0x0FC19DC6; 0x240CA1CC] ++
  [0x2DE92C6F; 0x4A7484AA; 0x5CB0A9DC; 0x76F988DA] ++
  [0x983E5152; 0xA831C66D; 0xB00327C8; 0xBF597FC7] ++
  [0xC6E00BF3; 0xD5A79147; 0x06CA6351; 0x14292967] ++
  [0x27B70A85; 0x2E1B2138; 0x4D2C6DFC; 0x53380D13] ++
  [0x650A7354; 0x766A0ABB; 0x81C2C92E; 0x92722C85] ++
  [0xA2BFE8A1; 0xA81A664B; 0xC24B8B70; 0xC76C51A3] ++
  [0xD192E819; 0xD6990624; 0xF40E3585; 0x106AA070] ++
  [0x19A4C116; 0x1E376C08; 0x2748774C; 0x34B0BCB5] ++
  [0x391C0CB3; 0x4ED8AA4A; 0x5B9CCA4F; 0x682E6FF3] ++
  [0x748F82EE; 0x78A5636F; 0x84C87814; 0x8CC70208] ++
  [0x90BEFFFA; 0xA4506CEB; 0xBEF9A3F7; 0xC67178F2].

(** A round of the loop that compresses, with the rotation of [S]. *)
Definition sha256_rnd (K_i W_i : Z) (s : Z * Z * Z * Z * Z * Z * Z * Z) : Z * Z * Z * Z * Z * Z * Z * Z :=
  let '(a, b, c, d, e, f, g, h) := s in
  let t0 := u32 (h + _picohash_sha256_sigma1 e + _picohash_sha256_ch e f g + K_i + W_i) in
  let t1 := u32 (_picohash_sha256_sigma0 a + _picohash_sha256_maj a b c) in
  let d := u32 (d + t0) in
  let h := u32 (t0 + t1) in
  (h, a, b, c, d, e, f, g).

(** Word [i] of the block. *)
Definition sha256_load (buf : list Z) (i : Z) : option Z :=
  w ← load buf (4 * i) 4;
  Some (u32 (nth 0 w 0 .<< 24) .| (nth 1 w 0 .<< 16) .| (nth 2 w 0 .<< 8) .| nth 3 w 0).

Fixpoint sha256_words (buf : list Z) (i : Z) (k : nat) : option (list Z) :=
  match k with
  | O => Some []
  | S k' => w ← sha256_load buf i; ws ← sha256_words buf (i + 1) k'; Some (w :: ws)
  end.

(** The loop that fills [W], which holds [i] words already. *)
Fixpoint sha256_fill (W : list Z) (i n : nat) : list Z :=
  match n with
  | O => W
  | S n' =>
      let w k := nth (i - k) W 0 in
      sha256_fill (W ++ [u32 (_picohash_sha256_gamma1 (w 2%nat) + w 7%nat + _picohash_sha256_gamma0 (w 15%nat) + w 16%nat)])
        (S i) n'
  end.

Fixpoint sha256_rounds (K W : list Z) (s : Z * Z * Z * Z * Z * Z * Z * Z) : Z * Z * Z * Z * Z * Z * Z * Z :=
  match K, W with
  | k :: K', w :: W' => sha256_rounds K' W' (sha256_rnd k w s)
  | _, _ => s
  end.

Definition _picohash_sha256_compress (ctx : _picohash_sha256_ctx_t) (buf : list Z) : option _picohash_sha256_ctx_t :=
  ws ← sha256_words buf 0 16;
  let st k := nth k (sha_state ctx) 0 in
  let '(a, b, c, d, e, f, g, h) :=
    sha256_rounds sha256_K (sha256_fill ws 16 48)
      (st 0%nat, st 1%nat, st 2%nat, st 3%nat, st 4%nat, st 5%nat, st 6%nat, st 7%nat) in
  Some (Build__picohash_sha256_ctx_t (sha_length ctx)
          [u32 (st 0%nat + a); u32 (st 1%nat + b); u32 (st 2%nat + c); u32 (st 3%nat + d);
           u32 (st 4%nat + e); u32 (st 5%nat + f); u32 (st 6%nat + g); u32 (st 7%nat + h)]
          (curlen ctx) (sha_buf ctx)).

(** [while (curlen < limit) buf[curlen++] = 0]. *)
Fixpoint sha256_zeros (fuel : nat) (limit : Z) (ctx : _picohash_sha256_ctx_t) : option _picohash_sha256_ctx_t :=
  match fuel with
  | O => None
  | S fuel' =>
      if negb (curlen ctx <? limit) then Some ctx
      else
        b ← store (sha_buf ctx) (curlen ctx) [0];
        sha256_zeros fuel' limit (Build__picohash_sha256_ctx_t (sha_length ctx) (sha_state ctx) (u32 (curlen ctx + 1)) b)
  end.

(** The bytes of a word that are copied to the output. *)
Definition be_bytes4 (w : Z) : list Z := [u8 (w .>> 24); u8 (w .>> 16); u8 (w .>> 8); u8 w].

Definition sha256_length_bytes (n : Z) : list Z := (fun i => u8 (n .>> (56 - 8 * Z.of_nat i))) <$> seq 0 8.

(** The rest of the last block and its compression. *)
Definition sha256_pad (ctx : _picohash_sha256_ctx_t) : option _picohash_sha256_ctx_t :=
  ctx ← (if 56 <? curlen ctx then
           ctx ← sha256_zeros 65 64 ctx;
           ctx ← _picohash_sha256_compress ctx (sha_buf ctx);
           Some (Build__picohash_sha256_ctx_t (sha_length ctx) (sha_state ctx) 0 (sha_buf ctx))
         else Some ctx);
  ctx ← sha256_zeros 65 56 ctx;
  b ← store (sha_buf ctx) 56 (sha256_length_bytes (sha_length ctx));
  _picohash_sha256_compress (Build__picohash_sha256_ctx_t (sha_length ctx) (sha_state ctx) (curlen ctx) b) b.

Definition _picohash_sha256_do_final (ctx : _picohash_sha256_ctx_t) (n : Z)
  : option (_picohash_sha256_ctx_t * list Z) :=
  let len := u64 (sha_length ctx + u32 (curlen ctx * 8)) in
  b ← store (sha_buf ctx) (curlen ctx) [0x80];
  ctx ← sha256_pad (Build__picohash_sha256_ctx_t len (sha_state ctx) (u32 (curlen ctx + 1)) b);
  Some (ctx, concat (be_bytes4 <$> take (Z.to_nat (n / 4)) (sha_state ctx))).

Definition _picohash_sha256_init (ctx : _picohash_sha256_ctx_t) : _picohash_sha256_ctx_t :=
  Build__picohash_sha256_ctx_t 0 [0x6A09E667; 0xBB67AE85; 0x3C6EF372; 0xA54FF53A; 0x510E527F; 0x9B05688C; 0x1F83D9AB; 0x5BE0CD19]
    0 (sha_buf ctx).

Definition _picohash_sha224_init (ctx : _picohash_sha256_ctx_t) : _picohash_sha256_ctx_t :=
  Build__picohash_sha256_ctx_t 0 [0xc1059ed8; 0x367cd507; 0x3070dd17; 0xf70e5939; 0xffc00b31; 0x68581511; 0x64f98fa7; 0xbefa4fa4]
    0 (sha_buf ctx).

Fixpoint sha256_update_loop (fuel : nat) (ctx : _picohash_sha256_ctx_t) (in_ : list Z) : option _picohash_sha256_ctx_t :=
  match fuel with
  | O => None
  | S fuel' =>
      let len := zlen in_ in
      if negb (0 <? len) then Some ctx
      else if (curlen ctx =? 0) && (PICOHASH_SHA256_BLOCK_LENGTH <=? len) then
        ctx ← _picohash_sha256_compress ctx in_;
        sha256_update_loop fuel'
          (Build__picohash_sha256_ctx_t (u64 (sha_length ctx + PICOHASH_SHA256_BLOCK_LENGTH * 8)) (sha_state ctx) (curlen ctx) (sha_buf ctx))
          (drop 64 in_)
      else
        let n := u32 (PICOHASH_SHA256_BLOCK_LENGTH - curlen ctx) in
        let n := if len <? n then len else n in
        d ← load in_ 0 n;
        b ← store (sha_buf ctx) (curlen ctx) d;
        let ctx := Build__picohash_sha256_ctx_t (sha_length ctx) (sha_state ctx) (u32 (curlen ctx + u32 n)) b in
        ctx ← (if curlen ctx =? 64 then
                 ctx ← _picohash_sha256_compress ctx (sha_buf ctx);
                 Some (Build__picohash_sha256_ctx_t (u64 (sha_length ctx + 8 * PICOHASH_SHA256_BLOCK_LENGTH)) (sha_state ctx) 0 (sha_buf ctx))
               else Some ctx);
        sha256_update_loop fuel' ctx (drop (Z.to_nat n) in_)
  end.

Definition _picohash_sha256_update (ctx : _picohash_sha256_ctx_t) (data : list Z) : option _picohash_sha256_ctx_t :=
  sha256_update_loop (S (length data)) ctx data.

Definition _picohash_sha256_final (ctx : _picohash_sha256_ctx_t) : option (_picohash_sha256_ctx_t * list Z) :=
  _picohash_sha256_do_final ctx PICOHASH_SHA256_DIGEST_LENGTH.
Definition _picohash_sha224_final (ctx : _picohash_sha256_ctx_t) : option (_picohash_sha256_ctx_t * list Z) :=
  _picohash_sha256_do_final ctx PICOHASH_SHA224_DIGEST_LENGTH.

(** ** Contexts *)

Definition PICOHASH_MAX_BLOCK_LENGTH : Z := 64.
Definition PICOHASH_MAX_DIGEST_LENGTH : Z := 32.

(** The functions that the pointers of a context point to, by algorithm. *)
Inductive fn := fn_md5 | fn_sha1 | fn_sha224 | fn_sha256 | fn_hmac.

Record union := { _md5 : _picohash_md5_ctx_t; _sha1 : _picohash_sha1_ctx_t; _sha256 : _picohash_sha256_ctx_t }.

Definition with_md5 (u : union) (c : _picohash_md5_ctx_t) : union := {| _md5 := c; _sha1 := _sha1 u; _sha256 := _sha256 u |}.
Definition with_sha1 (u : union) (c : _picohash_sha1_ctx_t) : union := {| _md5 := _md5 u; _sha1 := c; _sha256 := _sha256 u |}.
Definition with_sha2 (u : union) (c : _picohash_sha256_ctx_t) : union := {| _md5 := _md5 u; _sha1 := _sha1 u; _sha256 := c |}.

Record picohash_ctx_t := {
  hash_union : union;
  block_length : Z;
  digest_length : Z;
  _reset : fn;
  _update : fn;
  _final : fn;
  hmac_key : list Z;
  hash_reset : fn;
  hash_final : fn
}.

Definition with_union (c : picohash_ctx_t) (u : union) : picohash_ctx_t :=
  Build_picohash_ctx_t u (block_length c) (digest_length c) (_reset c) (_update c) (_final c) (hmac_key c)
    (hash_reset c) (hash_final c).
Definition with_hmac_key (c : picohash_ctx_t) (k : list Z) : picohash_ctx_t :=
  Build_picohash_ctx_t (hash_union c) (block_length c) (digest_length c) (_reset c) (_update c) (_final c) k
    (hash_reset c) (hash_final c).

Section Picohash.
Context (W : Z).

(** Calls of the functions of an algorithm; those of HMAC are below. *)
Definition call_reset (f : fn) (u : union) : option union :=
  match f with
  | fn_md5 => Some (with_md5 u (_picohash_md5_init (_md5 u)))
  | fn_sha1 => Some (with_sha1 u (_picohash_sha1_init (_sha1 u)))
  | fn_sha224 => Some (with_sha2 u (_picohash_sha224_init (_sha256 u)))
  | fn_sha256 => Some (with_sha2 u (_picohash_sha256_init (_sha256 u)))
  | fn_hmac => None
  end.

Definition call_update (f : fn) (u : union) (data : list Z) : option union :=
  match f with
  | fn_md5 => with_md5 u <$> _picohash_md5_update W (_md5 u) data
  | fn_sha1 => with_sha1 u <$> _picohash_sha1_update (_sha1 u) data
  | fn_sha224 | fn_sha256 => with_sha2 u <$> _picohash_sha256_update (_sha256 u) data
  | fn_hmac => None
  end.

Definition call_final (f : fn) (u : union) : option (union * list Z) :=
  match f with
  | fn_md5 => '(c, d) ← _picohash_md5_final W (_md5 u); Some (with_md5 u c, d)
  | fn_sha1 => '(c, d) ← _picohash_sha1_final (_sha1 u); Some (with_sha1 u c, d)
  | fn_sha224 => '(c, d) ← _picohash_sha224_final (_sha256 u); Some (with_sha2 u c, d)
  | fn_sha256 => '(c, d) ← _picohash_sha256_final (_sha256 u); Some (with_sha2 u c, d)
  | fn_hmac => None
  end.

(** The common part of the functions that set a context up. *)
Definition init_with (ctx : picohash_ctx_t) (block digest : Z) (f update : fn) : option picohash_ctx_t :=
  u ← call_reset f (hash_union ctx);
  Some (Build_picohash_ctx_t u block digest f update f (hmac_key ctx) (hash_reset ctx) (hash_final ctx)).

Definition picohash_init_md5 (ctx : picohash_ctx_t) : option picohash_ctx_t :=
  init_with ctx PICOHASH_MD5_BLOCK_LENGTH PICOHASH_MD5_DIGEST_LENGTH fn_md5 fn_md5.
Definition picohash_init_sha1 (ctx : picohash_ctx_t) : option picohash_ctx_t :=
  init_with ctx PICOHASH_SHA1_BLOCK_LENGTH PICOHASH_SHA1_DIGEST_LENGTH fn_sha1 fn_sha1.
Definition picohash_init_sha224 (ctx : picohash_ctx_t) : option picohash_ctx_t :=
  init_with ctx PICOHASH_SHA224_BLOCK_LENGTH PICOHASH_SHA224_DIGEST_LENGTH fn_sha224 fn_sha256.
Definition picohash_init_sha256 (ctx : picohash_ctx_t) : option picohash_ctx_t :=
  init_with ctx PICOHASH_SHA256_BLOCK_LENGTH PICOHASH_SHA256_DIGEST_LENGTH fn_sha256 fn_sha256.

Definition picohash_update (ctx : picohash_ctx_t) (input : list Z) : option picohash_ctx_t :=
  with_union ctx <$> call_update (_update ctx) (hash_union ctx) input.

(** The call of [hash_reset] and of [hash_final]. *)
Definition reset_by (f : fn) (ctx : picohash_ctx_t) : option picohash_ctx_t :=
  with_union ctx <$> call_reset f (hash_union ctx).
Definition final_by (f : fn) (ctx : picohash_ctx_t) : option (picohash_ctx_t * list Z) :=
  '(u, d) ← call_final f (hash_union ctx); Some (with_union ctx u, d).

(** [key[i] ^= delta] for the bytes of the block. *)
Definition xor_key (ctx : picohash_ctx_t) (delta : Z) : picohash_ctx_t :=
  let n := Z.to_nat (block_length ctx) in
  with_hmac_key ctx (((fun b => b .^ delta) <$> take n (hmac_key ctx)) ++ drop n (hmac_key ctx)).

Definition _picohash_hmac_apply_key (ctx : picohash_ctx_t) (delta : Z) : option picohash_ctx_t :=
  let ctx := xor_key ctx delta in
  k ← load (hmac_key ctx) 0 (block_length ctx);
  ctx ← picohash_update ctx k;
  Some (xor_key ctx delta).

Definition _picohash_hmac_final (ctx : picohash_ctx_t) : option (picohash_ctx_t * list Z) :=
  '(ctx, inner_digest) ← final_by (hash_final ctx) ctx;
  ctx ← reset_by (hash_reset ctx) ctx;
  ctx ← _picohash_hmac_apply_key ctx 0x5c;
  d ← load inner_digest 0 (digest_length ctx);
  ctx ← picohash_update ctx d;
  final_by (hash_final ctx) ctx.

Definition _picohash_hmac_reset (ctx : picohash_ctx_t) : option picohash_ctx_t :=
  ctx ← reset_by (hash_reset ctx) ctx;
  _picohash_hmac_apply_key ctx 0x36.

Definition picohash_final (ctx : picohash_ctx_t) : option (picohash_ctx_t * list Z) :=
  match _final ctx with
  | fn_hmac => _picohash_hmac_final ctx
  | f => final_by f ctx
  end.

Definition picohash_reset (ctx : picohash_ctx_t) : option picohash_ctx_t :=
  match _reset ctx with
  | fn_hmac => _picohash_hmac_reset ctx
  | f => reset_by f ctx
  end.

Definition picohash_init_hmac (ctx : picohash_ctx_t) (initf : picohash_ctx_t -> option picohash_ctx_t) (key : list Z)
  : option picohash_ctx_t :=
  ctx ← initf ctx;
  k ← store (hmac_key ctx) 0 (replicate (Z.to_nat (block_length ctx)) 0);
  let ctx := with_hmac_key ctx k in
  ctx ← (if block_length ctx <? zlen key then
           ctx ← picohash_update ctx key;
           '(ctx, d) ← picohash_final ctx;
           k ← store (hmac_key ctx) 0 d;
           picohash_reset (with_hmac_key ctx k)
         else
           k ← store (hmac_key ctx) 0 key;
           Some (with_hmac_key ctx k));
  let ctx := Build_picohash_ctx_t (hash_union ctx) (block_length ctx) (digest_length ctx) fn_hmac (_update ctx) fn_hmac
               (hmac_key ctx) (_reset ctx) (_final ctx) in
  _picohash_hmac_apply_key ctx 0x36.

(** ** The functions of the library

    [ctx] is the context on the stack before it is set up. *)

Definition hash_with (initf : picohash_ctx_t -> option picohash_ctx_t) (ctx : picohash_ctx_t) (message : list Z)
  : option (list Z) :=
  ctx ← initf ctx;
  ctx ← picohash_update ctx message;
  '(_, digest) ← picohash_final ctx;
  Some digest.

Definition juice_hash_md5 (ctx : picohash_ctx_t) (message : list Z) : option (list Z) :=
  hash_with picohash_init_md5 ctx message.
Definition juice_hash_sha1 (ctx : picohash_ctx_t) (message : list Z) : option (list Z) :=
  hash_with picohash_init_sha1 ctx message.
Definition juice_hash_sha256 (ctx : picohash_ctx_t) (message : list Z) : option (list Z) :=
  hash_with picohash_init_sha256 ctx message.

Definition hmac_sha1 (ctx : picohash_ctx_t) (message key : list Z) : option (list Z) :=
  hash_with (fun ctx => picohash_init_hmac ctx picohash_init_sha1 key) ctx message.
Definition hmac_sha256 (ctx : picohash_ctx_t) (message key : list Z) : option (list Z) :=
  hash_with (fun ctx => picohash_init_hmac ctx picohash_init_sha256 key) ctx message.
End Picohash.
