(* ===== verification/HashMd5.v ===== *)
(** * MD5 is computed correctly (src/picohash.h)

    The context of MD5, whatever the width of [uint_fast32_t], represents the bytes it
    was given: the chaining value after the complete blocks, the bytes of the last
    block and their number. *)

From S2P Require Import Prelude HashSpec Hash.

(** ** One block *)

(** The variables as the operation [i] of the specification has them. *)
Definition view (i : nat) (st : md5_state) : Z * Z * Z * Z :=
  let '(a, b, c, d) := (u32 (st_a st), u32 (st_b st), u32 (st_c st), u32 (st_d st)) in
  match (i mod 4)%nat with
  | 0%nat => (a, b, c, d)
  | 1%nat => (d, a, b, c)
  | 2%nat => (c, d, a, b)
  | _ => (b, c, d, a)
  end.

Definition step_fn (i : nat) : md5_fn :=
  match (i / 16)%nat with 0%nat => MD5_F | 1%nat => MD5_G | 2%nat => MD5_H | _ => MD5_I end.

(** The step of the code for operation [i]. *)
Definition step_of (i : nat) : md5_step :=
  let s a b c d := STEP (step_fn i) a b c d (md5_word i) (md5_T (Z.of_nat i + 1)) (md5_shift i) in
  match (i mod 4)%nat with 0%nat => s A B C D | 1%nat => s D A B C | 2%nat => s C D A B | _ => s B C D A end.

Lemma md5_steps_spec : md5_steps = step_of <$> seq 0 64.
Proof. by vm_compute. Qed.

Lemma md5_shifts_small i : (i < 64)%nat -> 0 < md5_shift i < 32.
Proof.
  intros Hi. assert (Hf : forallb (fun i => (0 <? md5_shift i) && (md5_shift i <? 32)) (seq 0 64) = true) by by vm_compute.
  rewrite forallb_forall in Hf. specialize (Hf i (proj2 (in_seq 64 0 i) ltac:(lia))). bool_to_prop. lia.
Qed.

Section MD5.
Context (W : Z) (HW : 32 <= W).

Lemma u32_fast z : u32 (fast W z) = u32 z.
Proof using HW.
  unfold u32, fast. change 4294967296 with (2 ^ 32). replace W with (32 + (W - 32)) by lia.
  rewrite Z.pow_add_r, Z.rem_mul_r by lia. by rewrite (Z.mul_comm (2 ^ 32)), Z_mod_plus_full, Zmod_mod.
Qed.

Lemma md5_apply_spec i x y z :
  u32 (md5_apply W (step_fn i) x y z) = md5_function i (u32 x) (u32 y) (u32 z).
Proof using HW.
  pose proof (u32_word x). pose proof (u32_word y). pose proof (u32_word z).
  unfold step_fn, md5_function. destruct (i / 16)%nat as [|[|[|k] ] ]; cbn [md5_apply].
  - rewrite !u32_lxor, u32_land, u32_lxor. by apply choice_or.
  - rewrite !u32_lxor, u32_land, u32_lxor. rewrite choice_or by done.
    rewrite (Z.land_comm (u32 z)), (Z.land_comm (w_not _)). done.
  - by rewrite !u32_lxor.
  - rewrite !u32_lxor, u32_lor, u32_fast. rewrite (w_not_lnot (u32 z)) by done. do 2 f_equal. bitwise.
Qed.

(** A step of the code on its variables is an operation of the specification. *)
Lemma md5_value_spec (f a b x t s : Z) : 0 < s < 32 ->
  let v := fast W (a + (f + x + t)) in
  u32 (fast W ((fast W (v .<< s) .| ((v .& 0xffffffff) .>> (32 - s))) + b))
  = u32 (u32 b + rotl s (u32 (u32 a + u32 f + x + t))).
Proof using HW.
  intros Hs v. rewrite u32_fast, <- u32_add_l, u32_lor, u32_fast.
  rewrite land_word.
  assert (Hv : u32 v = u32 (u32 a + u32 f + x + t)).
  { unfold v. rewrite u32_fast. replace (u32 a + u32 f + x + t) with (u32 a + (u32 f + (x + t))) by lia.
    rewrite u32_add_l. replace (a + (u32 f + (x + t))) with (u32 f + (a + (x + t))) by lia. rewrite u32_add_l. f_equal. lia. }
  rewrite <- Hv, <- (rotl_or s (u32 v)) by auto using u32_word.
  rewrite (Z.add_comm (u32 b)), u32_add_r. do 2 f_equal. f_equal.
  - rewrite !shiftl_mul by lia. unfold u32. by rewrite Zmult_mod_idemp_l.
  - apply u32_id. unfold word. rewrite shiftr_div by lia. pose proof (u32_word v) as Hw. unfold word in Hw.
    split; [apply Z.div_pos; lia|]. apply Z.div_lt_upper_bound; [lia|]. pose proof (Z.pow_pos_nonneg 2 (32 - s)). nia.
Qed.

Lemma md5_exec_view X st i : (i < 64)%nat ->
  view (S i) (md5_exec W X st (step_of i)) = md5_operation X (view i st) i.
Proof using HW.
  intros Hi. pose proof (md5_shifts_small i Hi) as Hs. unfold view, step_of, md5_operation.
  assert (Hn : (S i mod 4 = match i mod 4 with 0 => 1 | 1 => 2 | 2 => 3 | _ => 0 end)%nat).
  { pose proof (Nat.mod_upper_bound i 4). rewrite <- Nat.add_1_r, <- Nat.Div0.add_mod_idemp_l.
    destruct (i mod 4)%nat as [|[|[|[|k] ] ] ]; [done..|lia]. }
  rewrite Hn. pose proof (Nat.mod_upper_bound i 4 ltac:(lia)) as Hb.
  destruct (i mod 4)%nat as [|[|[|[|k] ] ] ]; [..|lia]; cbn [md5_exec set_reg get_reg st_a st_b st_c st_d];
    by rewrite <- md5_apply_spec, <- md5_value_spec by exact Hs.
Qed.

Definition abcd (st : md5_state) : Z * Z * Z * Z := view 0 st.

Lemma md5_fold_view X st n i : (i + n <= 64)%nat ->
  view (i + n) (fold_left (md5_exec W X) (step_of <$> seq i n) st) = fold_left (md5_operation X) (seq i n) (view i st).
Proof using HW.
  revert st i. induction n as [|n IH]; intros st i Hi; [by rewrite Nat.add_0_r|].
  cbn [seq fmap list_fmap fold_left]. rewrite Nat.add_succ_r, <- Nat.add_succ_l, <- md5_exec_view by lia.
  apply IH. lia.
Qed.

Lemma md5_block_spec st block :
  abcd (md5_block W st (words unlsb block)) = md5_compress (abcd st) block.
Proof using HW.
  pose proof (md5_fold_view (words unlsb block) st 64 0 ltac:(lia)) as Hf. cbn [Nat.add] in Hf.
  unfold md5_block, md5_compress. rewrite md5_steps_spec. unfold abcd.
  set (st' := fold_left (md5_exec W (words unlsb block)) (step_of <$> seq 0 64) st) in *.
  destruct (view 0 st) as [ [ [a b] c] d] eqn:Hv. rewrite <- Hf. unfold view in *. cbn [Nat.modulo Nat.divmod fst snd Nat.sub] in *.
  injection Hv as <- <- <- <-. cbn [st_a st_b st_c st_d].
  by rewrite !u32_fast, !u32_add_l, !u32_add_r, !(Z.add_comm (_ st')).
Qed.
End MD5.

(** ** Many blocks *)

Lemma md5_words_spec (ptr : list Z) n k : bytes ptr -> (4 * (n + k) <= length ptr)%nat ->
  md5_words ptr (Z.of_nat n) k = Some ((fun i => unlsb (take 4 (drop (4 * i) ptr))) <$> seq n k).
Proof.
  intros Hb. revert n. induction k as [|k IH]; intros n Hl; [done|]. cbn [md5_words]. unfold md5_set.
  destruct (load_word4 ptr n Hb ltac:(lia)) as (a & b & c & d & -> & Ht & Ha & Hb' & Hc & Hd). cbn [mbind option_bind nth].
  replace (Z.of_nat n + 1) with (Z.of_nat (S n)) by lia. rewrite IH by lia. cbn [mbind option_bind seq fmap list_fmap].
  do 2 f_equal. rewrite Ht. by apply (word_of_bytes_lsb d c b a).
Qed.

Lemma md5_words_block (ptr : list Z) : bytes ptr -> (64 <= length ptr)%nat ->
  md5_words ptr 0 16 = Some (words unlsb (take 64 ptr)).
Proof. intros Hb Hl. rewrite words_take. by apply (md5_words_spec ptr 0 16). Qed.

Section Body.
Context (W : Z) (HW : 32 <= W).

Lemma md5_body_loop_spec n fuel st ptr : bytes ptr -> (S n <= fuel)%nat -> (64 * S n <= length ptr)%nat ->
  Z.of_nat (64 * S n) < 2 ^ 64 ->
  exists st', md5_body_loop W fuel st ptr (Z.of_nat (64 * S n)) = Some (st', drop (64 * S n) ptr) /\
    abcd st' = blocks md5_compress (S n) (abcd st) ptr.
Proof using HW.
  revert fuel st ptr. induction n as [|n IH]; intros fuel st ptr Hb Hf Hl Hz; (destruct fuel as [|fuel]; [lia|]);
    cbn [md5_body_loop]; rewrite md5_words_block by (done || lia); cbn [mbind option_bind].
  - eexists. split; [reflexivity|]. by apply md5_block_spec.
  - assert (Hs : u64 (Z.of_nat (64 * S (S n)) - 64) = Z.of_nat (64 * S n)) by (unfold u64; rewrite Z.mod_small; lia).
    rewrite Hs, (proj2 (Z.eqb_neq _ 0)) by lia.
    destruct (IH fuel (md5_block W st (words unlsb (take 64 ptr))) (drop 64 ptr)) as (st' & Hr & Ha);
      [by apply Forall_drop|lia|rewrite length_drop; lia|lia|].
    exists st'. rewrite Hr, Ha, drop_drop, md5_block_spec by done. split; [do 3 f_equal; lia|done].
Qed.

(** The body on [n] blocks. *)
Lemma md5_body_spec (ctx : _picohash_md5_ctx_t) data n : bytes data -> (1 <= n)%nat -> (64 * n <= length data)%nat ->
  Z.of_nat (64 * n) < 2 ^ 64 ->
  exists st, _picohash_md5_body W ctx data (Z.of_nat (64 * n)) = Some (with_md5_state ctx st, drop (64 * n) data) /\
    abcd st = blocks md5_compress n (abcd (md5_abcd ctx)) data.
Proof using HW.
  intros Hb Hn Hl Hz. destruct n as [|n]; [lia|]. unfold _picohash_md5_body.
  replace (Z.to_nat (Z.of_nat (64 * S n) / 64)) with (S n) by (rewrite <- (Nat2Z.inj_div _ 64), Nat2Z.id, Nat.mul_comm, Nat.div_mul; lia).
  destruct (md5_body_loop_spec n (S n) (md5_abcd ctx) data) as (st & -> & Ha); [done..|]. by exists st.
Qed.

Lemma md5_body_one (ctx : _picohash_md5_ctx_t) b : bytes b -> length b = 64%nat ->
  exists st, _picohash_md5_body W ctx b 64 = Some (with_md5_state ctx st, []) /\
    abcd st = md5_compress (abcd (md5_abcd ctx)) b.
Proof using HW.
  intros Hb Hl. destruct (md5_body_spec ctx b 1) as (st & Hr & Ha); [done|lia..|].
  exists st. rewrite drop_ge in Hr by lia. split; [done|]. rewrite Ha. cbn [blocks]. by rewrite take_ge by lia.
Qed.

(** ** The context *)

Record md5_rep (c : _picohash_md5_ctx_t) (m : list Z) : Prop := {
  r_bytes : bytes m;
  r_small : zlen m < 2 ^ 61;
  r_buffer : length (md5_buffer c) = 64%nat;
  r_tail : take (length (rest m)) (md5_buffer c) = rest m;
  r_abcd : abcd (md5_abcd c) = absorb md5_compress md5_iv m;
  r_lo : md5_lo c = zlen m mod 2 ^ 29;
  r_hi : u32 (md5_hi c) = zlen m / 2 ^ 29
}.

Lemma used_spec c m : md5_rep c m -> md5_lo c .& 0x3f = Z.of_nat (length (rest m)).
Proof.
  intros Hr. rewrite (r_lo _ _ Hr), land_63, length_rest, Nat2Z.inj_mod. unfold zlen.
  change (2 ^ 29) with (64 * 2 ^ 23). change (Z.of_nat 64) with 64.
  rewrite Z.rem_mul_r, Z.mul_comm, Z_mod_plus_full, Zmod_mod by lia. done.
Qed.

Lemma md5_init_rep ctx : length (md5_buffer ctx) = 64%nat -> md5_rep (_picohash_md5_init ctx) [].
Proof. intros Hl. by split. Qed.

Lemma md5_count_spec c m size : md5_rep c m -> 0 <= size -> zlen m + size < 2 ^ 61 ->
  exists hi, md5_count W c size = with_md5_count c ((zlen m + size) mod 2 ^ 29) hi /\ u32 hi = (zlen m + size) / 2 ^ 29.
Proof using HW.
  intros Hr Hs Hz. pose proof (r_lo _ _ Hr) as Hlo. pose proof (r_hi _ _ Hr) as Hhi. pose proof (zlen_nonneg m) as Hm.
  unfold md5_count. rewrite Hlo. set (n := zlen m) in *.
  assert (Hl : u64 (n mod 2 ^ 29 + size) .& 0x1fffffff = (n + size) mod 2 ^ 29).
  { change 0x1fffffff with (2 ^ 29 - 1). rewrite land_ones_mod by lia. unfold u64.
    pose proof (Z.mod_pos_bound n (2 ^ 29) ltac:(lia)). rewrite (Z.mod_small (_ + _) 18446744073709551616) by lia. apply Zplus_mod_idemp_l. }
  rewrite Hl. eexists. split; [reflexivity|]. rewrite u32_fast by done.
  set (c1 := if (n + size) mod 2 ^ 29 <? n mod 2 ^ 29 then 1 else 0).
  assert (Hc : u32 (if (n + size) mod 2 ^ 29 <? n mod 2 ^ 29 then fast W (md5_hi c + 1) else md5_hi c) = u32 (u32 (md5_hi c) + c1)).
  { unfold c1. rewrite u32_add_l. destruct (_ <? _); [by apply u32_fast|by rewrite Z.add_0_r]. }
  rewrite <- u32_add_l, Hc, <- u32_add_r, u32_fast, u32_add_r, u32_add_l, Hhi, shiftr_div by (done || lia).
  unfold u32, c1. rewrite Z.mod_small; destruct (_ <? _) eqn:E; bool_to_prop; Z.div_mod_to_equations; lia.
Qed.

(** The chaining value and the buffer after [data] follows a complete block. *)
Lemma md5_update_rest_spec ctx data : bytes data -> zlen data < 2 ^ 61 -> length (md5_buffer ctx) = 64%nat ->
  exists st b, md5_update_rest W ctx data = Some (with_md5_buffer (with_md5_state ctx st) b) /\
    abcd st = absorb md5_compress (abcd (md5_abcd ctx)) data /\ length b = 64%nat /\ take (length (rest data)) b = rest data.
Proof using HW.
  intros Hb Hz Hl. pose proof (Nat.div_mod_eq (length data) 64) as Hdiv. pose proof (length_rest data) as Hrest.
  pose proof (Nat.mod_upper_bound (length data) 64 ltac:(lia)) as Hmod.
  unfold md5_update_rest. destruct (64 <=? zlen data) eqn:E; bool_to_prop; unfold zlen in *.
  - assert (Hs : Z.ldiff (Z.of_nat (length data)) 0x3f = Z.of_nat (64 * (length data / 64))).
    { change 0x3f with (Z.ones 6). rewrite Z.ldiff_ones_r, shiftr_div, shiftl_mul by lia.
      rewrite Nat2Z.inj_mul, Nat2Z.inj_div. change (2 ^ 6) with 64. lia. }
    rewrite Hs. destruct (md5_body_spec ctx data (length data / 64)) as (st & -> & Ha); [done|lia..|].
    cbn [mbind option_bind]. fold (rest data).
    replace (Z.of_nat (length data) .& 0x3f) with (Z.of_nat (length (rest data))) by
      (rewrite land_63, Hrest, Nat2Z.inj_mod; done).
    rewrite load_start, take_ge by lia. cbn [mbind option_bind].
    destruct (store_after (md5_buffer ctx) 0 (rest data)) as (b & Hst & Hlb & Htb); [lia|].
    cbn [md5_buffer with_md5_state]. change 0 with (Z.of_nat 0). rewrite Hst. cbn [mbind option_bind].
    exists st, b. split; [done|]. split; [done|]. split; [lia|done].
  - cbn [mbind option_bind]. rewrite load_start, take_ge by lia. cbn [mbind option_bind].
    destruct (store_after (md5_buffer ctx) 0 data) as (b & Hst & Hlb & Htb); [lia|].
    change 0 with (Z.of_nat 0). rewrite Hst. cbn [mbind option_bind].
    exists (md5_abcd ctx), b. rewrite absorb_short, rest_short by lia. split; [by destruct ctx|]. split; [done|]. split; [lia|done].
Qed.

Lemma md5_update_rep ctx m data : md5_rep ctx m -> bytes data -> zlen (m ++ data) < 2 ^ 61 ->
  exists ctx', _picohash_md5_update W ctx data = Some ctx' /\ md5_rep ctx' (m ++ data).
Proof using HW.
  intros Hr Hd Hz. pose proof (r_bytes _ _ Hr) as Hm. pose proof (r_buffer _ _ Hr) as Hb. pose proof (r_tail _ _ Hr) as Ht.
  pose proof (length_rest m) as Hlr. pose proof (Nat.mod_upper_bound (length m) 64 ltac:(lia)) as Hmod.
  rewrite zlen_app in Hz. pose proof (zlen_nonneg data) as Hn. pose proof (zlen_nonneg m) as Hnm.
  destruct (md5_count_spec ctx m (zlen data) Hr Hn Hz) as (hi & Hc & Hhi).
  unfold _picohash_md5_update. rewrite (used_spec _ _ Hr), Hc. clear Hc.
  set (c := with_md5_count ctx _ hi).
  assert (Hfin : forall st b, abcd st = absorb md5_compress (absorb md5_compress md5_iv m) (rest m ++ data) ->
    length b = 64%nat -> take (length (rest (rest m ++ data))) b = rest (rest m ++ data) ->
    md5_rep (with_md5_buffer (with_md5_state c st) b) (m ++ data)).
  { intros st b Hst Hlb Htb. split; cbn [md5_buffer md5_abcd md5_lo md5_hi with_md5_buffer with_md5_state with_md5_count c]; rewrite ?zlen_app; [by apply Forall_app|done|done|by rewrite rest_app
      |by rewrite Hst, <- absorb_app|done|done]. }
  destruct (negb (Z.of_nat (length (rest m)) =? 0)) eqn:E; bool_to_prop.
  - destruct (zlen data <? 64 - Z.of_nat (length (rest m))) eqn:E2; bool_to_prop; unfold zlen in E2.
    + destruct (store_after (md5_buffer ctx) (length (rest m)) data) as (b & Hst & Hlb & Htb); [lia|].
      change (md5_buffer c) with (md5_buffer ctx). rewrite Hst. cbn [mbind option_bind]. eexists. split; [done|].
      assert (Hlen : (length (rest m ++ data) < 64)%nat) by (rewrite length_app; lia).
      change (with_md5_buffer c b) with (with_md5_buffer (with_md5_state c (md5_abcd c)) b).
      apply Hfin; [rewrite absorb_short by done; exact (r_abcd _ _ Hr)|lia|].
      by rewrite rest_short, length_app, Htb, Ht by done.
    + set (k := (64 - length (rest m))%nat). replace (64 - Z.of_nat (length (rest m))) with (Z.of_nat k) by lia.
      rewrite load_start by lia. cbn [mbind option_bind].
      destruct (store_after (md5_buffer ctx) (length (rest m)) (take k data)) as (b & Hst & Hlb & Htb);
        [rewrite length_take; lia|].
      change (md5_buffer c) with (md5_buffer ctx). rewrite Hst. cbn [mbind option_bind].
      rewrite length_take, Nat.min_l, Ht, take_ge in Htb by lia.
      assert (Hbb : bytes b).
      { rewrite Htb. apply Forall_app. split; [apply Forall_drop, Hm|by apply Forall_take]. }
      destruct (md5_body_one (with_md5_buffer c b) b Hbb) as (st & Hbody & Ha); [lia|].
      rewrite Hbody. cbn [mbind option_bind]. rewrite Nat2Z.id.
      destruct (md5_update_rest_spec (with_md5_state (with_md5_buffer c b) st) (drop k data)) as (st' & b' & -> & Ha' & Hl' & Ht');
        [by apply Forall_drop|rewrite zlen_drop; lia|cbn; lia|].
      eexists. split; [done|].
      change (with_md5_buffer (with_md5_state (with_md5_state (with_md5_buffer c b) st) st') b')
        with (with_md5_buffer (with_md5_state c st') b').
      assert (Hsplit : rest m ++ data = b ++ drop k data) by (rewrite Htb, <- app_assoc, take_drop; done).
      apply Hfin; rewrite ?Hsplit; [|done|by rewrite rest_block by lia].
      rewrite Ha', absorb_block by lia. cbn [md5_abcd with_md5_state]. rewrite Ha. cbn [md5_abcd with_md5_buffer c].
      f_equal. f_equal. exact (r_abcd _ _ Hr).
  - assert (Hnil : rest m = []) by (apply length_zero_iff_nil; lia). rewrite Hnil in *.
    destruct (md5_update_rest_spec c data) as (st & b & -> & Ha & Hl & Ht'); [done|lia|done|].
    eexists. split; [done|]. apply Hfin; [|done|done]. rewrite Ha. f_equal. exact (r_abcd _ _ Hr).
Qed.

Lemma md5_length_bytes ctx m : md5_rep ctx m ->
  le_bytes (fast W (md5_lo ctx .<< 3)) ++ le_bytes (md5_hi ctx) = lsb 8 (8 * zlen m).
Proof using HW.
  intros Hr. unfold le_bytes. rewrite !lsb_shifts, lsb_8. f_equal.
  - rewrite <- (lsb_u32 (fast W _)), <- (lsb_u32 (8 * zlen m)), u32_fast, (r_lo _ _ Hr), shiftl_mul by (done || lia). f_equal.
    unfold u32. change 4294967296 with (2 ^ 29 * 2 ^ 3). rewrite !(Z.mul_comm 8), Z.mul_mod_distr_r by lia.
    by rewrite Z.mul_mod_distr_r, Zmod_mod by lia.
  - rewrite <- lsb_u32, (r_hi _ _ Hr). f_equal. change (2 ^ 32) with (2 ^ 3 * 2 ^ 29). rewrite <- Z.div_div by lia.
    change (2 ^ 3) with 8. by rewrite Z.mul_comm, Z.div_mul by lia.
Qed.

Definition md5_digest (s : Z * Z * Z * Z) : list Z := let '(a, b, c, d) := s in lsb 4 a ++ lsb 4 b ++ lsb 4 c ++ lsb 4 d.

Lemma md5_output st : le_bytes (st_a st) ++ le_bytes (st_b st) ++ le_bytes (st_c st) ++ le_bytes (st_d st) = md5_digest (abcd st).
Proof. unfold le_bytes, abcd, view, md5_digest. cbn [Nat.modulo Nat.divmod fst snd Nat.sub]. by rewrite !lsb_shifts, !lsb_u32. Qed.

(** The last block: what is in the buffer, zeros and the length. *)
Lemma md5_last_block ctx (l : list Z) (len8 : list Z) : length (md5_buffer ctx) = 64%nat -> (length l <= 56)%nat ->
  take (length l) (md5_buffer ctx) = l -> bytes l -> bytes len8 -> length len8 = 8%nat ->
  exists b b' st, store (md5_buffer ctx) (Z.of_nat (length l)) (replicate (56 - length l) 0) = Some b /\
    store b 56 len8 = Some b' /\ _picohash_md5_body W (with_md5_buffer ctx b') b' 64 = Some (with_md5_state (with_md5_buffer ctx b') st, []) /\
    abcd st = md5_compress (abcd (md5_abcd ctx)) (l ++ replicate (56 - length l) 0 ++ len8).
Proof using HW.
  intros Hl Hn Ht Hb Hb8 Hl8.
  destruct (store_after (md5_buffer ctx) (length l) (replicate (56 - length l) 0)) as (b & Hs & Hlb & Htb);
    [rewrite length_replicate; lia|]. rewrite length_replicate, Ht in Htb. replace (length l + (56 - length l))%nat with 56%nat in Htb by lia.
  destruct (store_after b 56 len8) as (b' & Hs' & Hlb' & Htb'); [lia|]. rewrite Htb, Hl8, take_ge, <- app_assoc in Htb' by lia.
  assert (Hbytes : bytes b').
  { rewrite Htb'. apply Forall_app; split; [done|]. apply Forall_app; split; [|done]. apply Forall_replicate. unfold is_byte. lia. }
  destruct (md5_body_one (with_md5_buffer ctx b') b' Hbytes) as (st & Hbody & Ha); [lia|].
  exists b, b', st. split; [done|]. split; [done|]. split; [done|]. by rewrite Ha, <- Htb'.
Qed.

Lemma md5_final_spec ctx m : md5_rep ctx m ->
  exists ctx', _picohash_md5_final W ctx = Some (ctx', md5 m) /\ length (md5_buffer ctx') = 64%nat.
Proof using HW.
  intros Hr. pose proof (r_buffer _ _ Hr) as Hb. pose proof (r_tail _ _ Hr) as Ht. set (r := rest m) in *.
  assert (Hlr : (length r < 64)%nat) by (unfold r; rewrite length_rest; by apply Nat.mod_upper_bound).
  assert (Hrb : bytes r) by apply Forall_drop, (r_bytes _ _ Hr).
  pose proof (md5_length_bytes ctx m Hr) as Hlen. unfold _picohash_md5_final. rewrite (used_spec _ _ Hr). fold r.
  destruct (store_after (md5_buffer ctx) (length r) [0x80]) as (b1 & Hs1 & Hl1 & Ht1); [cbn [length]; lia|].
  rewrite Hs1. cbn [mbind option_bind]. rewrite Ht in Ht1. cbn [length] in Ht1.
  assert (Hspec : md5 m = md5_digest (absorb md5_compress (abcd (md5_abcd ctx)) (r ++ tail_padding (lsb 8) (length r) (zlen m)))).
  { unfold md5. rewrite iterated_rest, (r_abcd _ _ Hr). done. }
  assert (Hb8 : bytes (lsb 8 (8 * zlen m)) /\ length (lsb 8 (8 * zlen m)) = 8%nat).
  { unfold lsb. split; [apply Forall_rev, be_bytes|by rewrite length_rev, length_be]. }
  destruct Hb8 as [Hb8 Hl8].
  assert (Hr1 : bytes (r ++ [0x80])) by (apply Forall_app; split; [done|by repeat constructor]).
  destruct (64 - (Z.of_nat (length r) + 1) <? 8) eqn:E; bool_to_prop.
  - set (c1 := with_md5_buffer ctx b1).
    replace (Z.to_nat (64 - (Z.of_nat (length r) + 1))) with (63 - length r)%nat by lia.
    destruct (store_after b1 (length r + 1) (replicate (63 - length r) 0)) as (b2 & Hs2 & Hl2 & Ht2);
      [rewrite length_replicate; lia|]. rewrite length_replicate, Ht1, take_ge in Ht2 by lia.
    replace (Z.of_nat (length r) + 1) with (Z.of_nat (length r + 1)) by lia. cbn [md5_buffer with_md5_buffer c1]. rewrite Hs2. cbn [mbind option_bind].
    assert (Hb2 : bytes b2).
    { rewrite Ht2. apply Forall_app; split; [done|]. apply Forall_replicate. unfold is_byte. lia. }
    destruct (md5_body_one (with_md5_buffer c1 b2) b2 Hb2) as (st & Hbody & Ha); [lia|]. fold c1. rewrite Hbody. cbn [mbind option_bind].
    destruct (md5_last_block (with_md5_state (with_md5_buffer c1 b2) st) [] (lsb 8 (8 * zlen m)))
      as (b3 & b4 & st' & Hs3 & Hs4 & Hbody' & Ha'); [cbn [md5_buffer with_md5_buffer with_md5_state]; lia|cbn [length]; lia|done|by constructor|done|done|].
    cbn [length Nat.sub] in Hs3. change (Z.of_nat 0) with 0 in Hs3. change (Z.to_nat (64 - 8)) with 56%nat. rewrite Hs3. cbn [mbind option_bind].
    cbn [md5_lo md5_hi with_md5_state with_md5_buffer c1]. rewrite Hlen, Hs4. cbn [mbind option_bind].
    cbn [md5_lo md5_hi with_md5_state with_md5_buffer c1] in Hbody'. rewrite Hbody'. cbn [mbind option_bind].
    match goal with |- exists c, Some (?x, ?d) = _ /\ _ =>
      enough (d = md5 m) as ->; [exists x; split; [done|apply length_replicate]|] end. rewrite md5_output, Hspec. f_equal. cbn [md5_abcd with_md5_state].
    rewrite Ha'. cbn [md5_abcd with_md5_state app length Nat.sub]. rewrite Ha.
    assert (Hsplit : r ++ tail_padding (lsb 8) (length r) (zlen m) = b2 ++ replicate 56 0 ++ lsb 8 (8 * zlen m)).
    { rewrite Ht2. unfold tail_padding. rewrite decide_False by lia. replace (119 - length r)%nat with (63 - length r + 56)%nat by lia.
      rewrite replicate_add, <- !app_assoc. done. }
    rewrite Hsplit, absorb_block by lia. rewrite absorb_one; [done|rewrite length_app, Hl8; done].
  - replace (Z.of_nat (length r) + 1) with (Z.of_nat (length (r ++ [0x80]))) by (rewrite length_app; cbn [length]; lia).
    cbn [mbind option_bind]. replace (Z.to_nat (64 - Z.of_nat (length (r ++ [0x80])) - 8)) with (56 - length (r ++ [0x80%Z]))%nat by lia.
    destruct (md5_last_block (with_md5_buffer ctx b1) (r ++ [0x80]) (lsb 8 (8 * zlen m)))
      as (b3 & b4 & st' & Hs3 & Hs4 & Hbody' & Ha'); [cbn [md5_buffer with_md5_buffer]; lia|rewrite length_app; cbn [length]; lia|by rewrite length_app|done|done|done|].
    rewrite Hs3. cbn [mbind option_bind]. cbn [md5_lo md5_hi with_md5_state with_md5_buffer]. rewrite Hlen, Hs4. cbn [mbind option_bind].
    cbn [md5_lo md5_hi with_md5_buffer] in Hbody'. rewrite Hbody'. cbn [mbind option_bind].
    match goal with |- exists c, Some (?x, ?d) = _ /\ _ =>
      enough (d = md5 m) as ->; [exists x; split; [done|apply length_replicate]|] end. rewrite md5_output, Hspec. f_equal. cbn [md5_abcd with_md5_state].
    rewrite Ha'. cbn [md5_abcd with_md5_buffer]. rewrite absorb_one.
    + f_equal. unfold tail_padding. rewrite decide_True, <- app_assoc by lia. rewrite length_app. cbn [length app].
      by replace (56 - (length r + 1))%nat with (55 - length r)%nat by lia.
    + unfold tail_padding. rewrite decide_True by lia. rewrite length_app. cbn [length]. rewrite length_app, length_replicate, Hl8. lia.
Qed.
End Body.
