(* ===== verification/HashSha1.v ===== *)
(** * SHA-1 is computed correctly (src/picohash.h)

    The code keeps the message schedule in a buffer of 16 words that it overwrites as
    it goes, and fills this buffer byte by byte in the order of a big-endian host. *)

From S2P Require Import Prelude HashSpec Hash.

(** ** The schedule *)

Lemma nth_insert_eq (l : list Z) k x : (k < length l)%nat -> nth k (<[k := x]> l) 0 = x.
Proof. intros Hk. by rewrite nth_lookup, list_lookup_insert_eq. Qed.
Lemma nth_insert_ne (l : list Z) k j x : k <> j -> nth j (<[k := x]> l) 0 = nth j l 0.
Proof. intros Hk. by rewrite !nth_lookup, list_lookup_insert_ne. Qed.

Abbreviation sha1_recurrence w t :=
  (rotl 1 (nth (t - 3) w 0 .^ nth (t - 8) w 0 .^ nth (t - 14) w 0 .^ nth (t - 16) w 0)) (only parsing).

Lemma sha1_schedule_length n w : length (sha1_schedule n w) = (length w + n)%nat.
Proof. revert w. induction n as [|n IH]; intros w; cbn [sha1_schedule]; [lia|]. rewrite IH, length_app. cbn [length]. lia. Qed.

Lemma sha1_schedule_prefix n w t : (t < length w)%nat -> nth t (sha1_schedule n w) 0 = nth t w 0.
Proof.
  revert w. induction n as [|n IH]; intros w Ht; [done|]. cbn [sha1_schedule].
  rewrite IH by (rewrite length_app; cbn [length]; lia). by apply app_nth1.
Qed.

Lemma sha1_schedule_spec n w t : (16 <= length w <= t)%nat -> (t < length w + n)%nat ->
  nth t (sha1_schedule n w) 0 = sha1_recurrence (sha1_schedule n w) t.
Proof.
  revert w. induction n as [|n IH]; intros w Hw Ht; [lia|]. cbn [sha1_schedule].
  set (x := rotl 1 _). assert (Hl : length (w ++ [x]) = S (length w)) by (rewrite length_app; cbn [length]; lia).
  destruct (decide (t = length w)) as [->|Hne].
  - rewrite !sha1_schedule_prefix by lia. by rewrite nth_middle, !(app_nth1 w) by lia.
  - apply IH; lia.
Qed.

Lemma sha1_schedule_words n w : (16 <= length w)%nat -> Forall word w -> Forall word (sha1_schedule n w).
Proof.
  revert w. induction n as [|n IH]; intros w Hl Hw; [done|]. cbn [sha1_schedule]. apply IH; [rewrite length_app; lia|].
  apply Forall_app. split; [done|]. apply Forall_singleton, rotl_word; [lia|].
  assert (Hn : forall k, word (nth k w 0)).
  { intros k. destruct (decide (k < length w)%nat); [by apply Forall_nth|]. rewrite nth_overflow by lia. by vm_compute. }
  by auto with juice.
Qed.

(** ** One block *)

Definition words5 (s : Z * Z * Z * Z * Z) : Prop :=
  let '(a, b, c, d, e) := s in word a /\ word b /\ word c /\ word d /\ word e.

Lemma rol32_rotl n x : 0 < n < 32 -> word x -> _picohash_sha1_rol32 x n = rotl n x.
Proof. apply rotl_or. Qed.

Lemma sha1_f_spec t b c d : (t < 80)%nat -> word b -> word c -> word d ->
  sha1_f (Z.of_nat t) b c d = u32 (sha1_function t b c d + sha1_K t).
Proof.
  intros Ht Hb Hc Hd. unfold sha1_f, sha1_function, sha1_K.
  assert (Hq : (t / 20 < 4)%nat) by (apply Nat.Div0.div_lt_upper_bound; lia). pose proof (Nat.div_mod_eq t 20) as Hdm.
  pose proof (Nat.mod_upper_bound t 20 ltac:(lia)) as Hm.
  destruct (t / 20)%nat as [|[|[|[|k] ] ] ]; [..|lia]; repeat case_if; try lia.
  - by rewrite choice_xor.
  - done.
  - by rewrite majority_or'.
  - done.
Qed.

Section Block.
Context (w : list Z) (Hw : length w = 16%nat) (Hword : Forall word w).
Abbreviation sch := (sha1_schedule 64 w).

(** The buffer before round [i] holds the last 16 words of the schedule. *)
Definition window (i : nat) (buffer : list Z) : Prop :=
  length buffer = 16%nat /\
  forall t, (t < Nat.max i 16)%nat -> (Nat.max i 16 <= t + 16)%nat -> nth (t mod 16) buffer 0 = nth t sch 0.

Lemma window_start : window 0 w.
Proof using Hw.
  split; [done|]. intros t Ht _. rewrite Nat.mod_small, sha1_schedule_prefix by lia. done.
Qed.

Lemma sch_word k : word (nth k sch 0).
Proof using Hw Hword.
  destruct (decide (k < length sch)%nat); [|rewrite nth_overflow by lia; by vm_compute].
  apply Forall_nth; [apply sha1_schedule_words; [lia|done]|done].
Qed.

(** The index that the code computes. *)
Lemma ring_index i k : Z.to_nat ((Z.of_nat i + Z.of_nat k) .& 15) = ((i + k) mod 16)%nat.
Proof. rewrite land_15, <- Nat2Z.inj_add. change 16 with (Z.of_nat 16). by rewrite <- Nat2Z.inj_mod, Nat2Z.id. Qed.
Lemma ring_index_0 i : Z.to_nat (Z.of_nat i .& 15) = (i mod 16)%nat.
Proof. pose proof (ring_index i 0) as He. by rewrite Z.add_0_r, Nat.add_0_r in He. Qed.

Lemma ring_back i j k : (16 <= i)%nat -> (j + k = 16)%nat -> ((i + j) mod 16 = (i - k) mod 16)%nat.
Proof.
  intros Hi Hk. replace (i + j)%nat with (i - k + 1 * 16)%nat by lia. by rewrite Nat.Div0.mod_add.
Qed.

Lemma window_back i k buffer : window i buffer -> (16 <= i)%nat -> (1 <= k <= 16)%nat ->
  nth ((i - k) mod 16) buffer 0 = nth (i - k) sch 0.
Proof. intros [_ Hb] Hi Hk. apply Hb; lia. Qed.

Lemma sha1_round_spec i buffer s : (i < 80)%nat -> window i buffer -> words5 s ->
  exists buffer', sha1_round (Z.of_nat i) (buffer, s) = (buffer', sha1_operation sch s i) /\ window (S i) buffer' /\
    words5 (sha1_operation sch s i).
Proof using Hw Hword.
  intros Hi Hwin Hs. destruct s as [ [ [ [a b] c] d] e]. destruct Hs as (Ha & Hb & Hc & Hd & He).
  unfold sha1_round. pose proof (ring_index i 13) as H13. pose proof (ring_index i 8) as H8. pose proof (ring_index i 2) as H2.
  change (Z.of_nat 13) with 13 in H13. change (Z.of_nat 8) with 8 in H8. change (Z.of_nat 2) with 2 in H2.
  rewrite H13, H8, H2, !ring_index_0.
  set (buffer' := if 16 <=? Z.of_nat i then _ else buffer).
  assert (Hb' : window (S i) buffer' /\ nth (i mod 16) buffer' 0 = nth i sch 0).
  { unfold buffer'. clear buffer'. destruct (16 <=? Z.of_nat i) eqn:E; bool_to_prop.
    - rewrite (ring_back i 13 3), (ring_back i 8 8), (ring_back i 2 14) by lia.
      assert (H0 : (i mod 16 = (i - 16) mod 16)%nat) by (rewrite <- (ring_back i 0 16) by lia; f_equal; lia).
      rewrite H0, !(window_back i) by (done || lia).
      rewrite rol32_rotl by (first [lia|repeat apply lxor_word; apply sch_word]). rewrite <- H0.
      assert (Hx : rotl 1 (nth (i - 3) sch 0 .^ nth (i - 8) sch 0 .^ nth (i - 14) sch 0 .^ nth (i - 16) sch 0) = nth i sch 0)
        by (symmetry; apply sha1_schedule_spec; lia). rewrite Hx. destruct Hwin as [Hl Hwin].
      assert (Hm : (i mod 16 < 16)%nat) by (by apply Nat.mod_upper_bound).
      split; [|apply nth_insert_eq; lia]. split; [by rewrite length_insert|].
      intros t Ht1 Ht2. destruct (decide (t = i)) as [->|Hne]; [apply nth_insert_eq; lia|].
      rewrite nth_insert_ne; [apply Hwin; lia|].
      intros Heq. pose proof (Nat.div_mod_eq t 16). pose proof (Nat.div_mod_eq i 16). lia.
    - destruct Hwin as [Hl Hwin]. split; [split; [done|]|apply Hwin; lia]. intros t Ht1 Ht2. apply Hwin; lia. }
  destruct Hb' as [Hwin' Hn]. exists buffer'. rewrite Hn, sha1_f_spec by assumption.
  rewrite (rol32_rotl 5), (rol32_rotl 30) by (assumption || lia).
  unfold sha1_operation. split; [|split; [done|] ].
  - rewrite u32_add_l, u32_add_r.
    replace (rotl 5 a + sha1_function i b c d + e + sha1_K i + nth i sch 0)
      with (sha1_function i b c d + sha1_K i + (rotl 5 a + e + nth i sch 0)) by lia. reflexivity.
  - exact (conj (u32_word _) (conj Ha (conj (rotl_word 30 b ltac:(lia) Hb) (conj Hc Hd)))).
Qed.

Lemma sha1_rounds_spec n i buffer s : (i + n <= 80)%nat -> window i buffer -> words5 s ->
  exists buffer', sha1_rounds n (Z.of_nat i) (buffer, s) = (buffer', fold_left (sha1_operation sch) (seq i n) s) /\
    length buffer' = 16%nat.
Proof using Hw Hword.
  revert i buffer s. induction n as [|n IH]; intros i buffer s Hi Hwin Hs; cbn [sha1_rounds seq fold_left].
  { exists buffer. by destruct Hwin. }
  destruct (sha1_round_spec i buffer s) as (buffer' & -> & Hwin' & Hs'); [lia|done..|].
  replace (Z.of_nat i + 1) with (Z.of_nat (S i)) by lia. apply IH; [lia|done..].
Qed.
End Block.

(** ** The buffer *)

(** The place of byte [j] of a block in the memory of the words. *)
Definition place (j : nat) : nat := Z.to_nat (Z.of_nat j .^ 3).

Lemma place_spec j : (j < 64)%nat -> place j = (4 * (j / 4) + (3 - j mod 4))%nat.
Proof.
  intros Hj. assert (Hf : forallb (fun j => place j =? 4 * (j / 4) + (3 - j mod 4))%nat (seq 0 64) = true) by by vm_compute.
  rewrite forallb_forall in Hf. apply Nat.eqb_eq, Hf, in_seq. lia.
Qed.

Lemma place_bound j : (j < 64)%nat -> (place j < 64)%nat.
Proof. intros Hj. rewrite place_spec by done. pose proof (Nat.div_mod_eq j 4). lia. Qed.

Lemma place_inj i j : (i < 64)%nat -> (j < 64)%nat -> place i = place j -> i = j.
Proof.
  intros Hi Hj. rewrite !place_spec by done. pose proof (Nat.div_mod_eq i 4). pose proof (Nat.div_mod_eq j 4).
  pose proof (Nat.mod_upper_bound i 4 ltac:(lia)). pose proof (Nat.mod_upper_bound j 4 ltac:(lia)). lia.
Qed.

(** The buffer holds the bytes [r] of a block. *)
Definition holds (b r : list Z) : Prop :=
  length b = 64%nat /\ (length r <= 64)%nat /\ forall j x, r !! j = Some x -> b !! place j = Some x.

Lemma store_byte (m : list Z) k x : (k < length m)%nat -> store m (Z.of_nat k) [x] = Some (<[k := x]> m).
Proof.
  intros Hk. unfold store. rewrite (proj2 (in_bounds_true _ _ _)) by (unfold zlen; cbn [length]; lia).
  rewrite Nat2Z.id, insert_take_drop by done. cbn [length]. by rewrite Nat.add_1_r.
Qed.

Lemma holds_snoc b r x : holds b r -> (length r < 64)%nat ->
  store b (Z.of_nat (length r) .^ 3) [x] = Some (<[place (length r) := x]> b) /\ holds (<[place (length r) := x]> b) (r ++ [x]).
Proof.
  intros (Hb & _ & Hh) Hr. pose proof (place_bound _ Hr) as Hp. split.
  - rewrite <- store_byte by lia. f_equal. unfold place. rewrite Z2Nat.id; [done|]. apply Z.lxor_nonneg. lia.
  - split; [by rewrite length_insert|]. split; [rewrite length_app; cbn [length]; lia|]. intros j y Hj.
    destruct (decide (j = length r)) as [->|Hne].
    + rewrite list_lookup_middle in Hj by done. injection Hj as ->. apply list_lookup_insert_eq. lia.
    + assert (Hlt : (j < length (r ++ [x]))%nat) by (by apply lookup_lt_Some in Hj).
      rewrite length_app in Hlt. cbn [length] in Hlt. rewrite lookup_app_l in Hj by lia.
      rewrite list_lookup_insert_ne; [by apply Hh|]. intros He. apply place_inj in He; lia.
Qed.

Lemma take_four (l : list Z) n a b c d : l !! n = Some a -> l !! (n + 1)%nat = Some b -> l !! (n + 2)%nat = Some c ->
  l !! (n + 3)%nat = Some d -> take 4 (drop n l) = [a; b; c; d].
Proof.
  intros Ha Hb Hc Hd. rewrite (drop_S _ _ _ Ha). replace (S n) with (n + 1)%nat by lia. rewrite (drop_S _ _ _ Hb).
  replace (S (n + 1)) with (n + 2)%nat by lia. rewrite (drop_S _ _ _ Hc). replace (S (n + 2)) with (n + 3)%nat by lia.
  by rewrite (drop_S _ _ _ Hd).
Qed.

Lemma holds_words b r : holds b r -> length r = 64%nat -> le_words b = words unbe r.
Proof.
  intros (Hb & _ & Hh) Hr. unfold le_words, words. rewrite Hb. change (64 / 4)%nat with 16%nat.
  apply list_fmap_ext. intros k i Hi. apply lookup_seq in Hi as [-> Hi]. f_equal.
  assert (Hx : forall j, (j < 4)%nat -> exists x, r !! (4 * k + j)%nat = Some x /\ b !! (4 * k + (3 - j))%nat = Some x).
  { intros j Hj. destruct (lookup_lt_is_Some_2 r (4 * k + j)) as [x Hx]; [lia|]. exists x. split; [done|].
    rewrite <- (Hh _ _ Hx), place_spec by lia. f_equal. rewrite Nat.mul_comm, Nat.div_add_l, (Nat.div_small j) by lia.
    rewrite (Nat.add_comm _ j), Nat.Div0.mod_add, Nat.mod_small by lia. lia. }
  destruct (Hx 0%nat) as (x0 & R0 & B0); [lia|]. destruct (Hx 1%nat) as (x1 & R1 & B1); [lia|].
  destruct (Hx 2%nat) as (x2 & R2 & B2); [lia|]. destruct (Hx 3%nat) as (x3 & R3 & B3); [lia|].
  cbn [Nat.sub] in *. rewrite Nat.add_0_r in R0, B3. cbn [Nat.add].
  by rewrite (take_four b (4 * k) x3 x2 x1 x0), (take_four r (4 * k) x0 x1 x2 x3).
Qed.

Lemma le_memory_length ws : length (le_memory ws) = (4 * length ws)%nat.
Proof.
  induction ws as [|w ws IH]; [done|]. change (le_memory (w :: ws)) with (rev (be 4 w) ++ le_memory ws).
  rewrite length_app, length_rev, length_be, IH. cbn [length]. lia.
Qed.

(** ** Bytes and blocks *)

Definition list5 (s : Z * Z * Z * Z * Z) : list Z := let '(a, b, c, d, e) := s in [a; b; c; d; e].

Lemma sha1_compress_words s block : words5 (sha1_compress s block).
Proof.
  unfold sha1_compress. destruct s as [ [ [ [a b] c] d] e]. destruct (fold_left _ _ _) as [ [ [ [a' b'] c'] d'] e'].
  repeat split; apply u32_word.
Qed.

Lemma hash_block_spec s st block : holds (sha1_buffer s) block -> length block = 64%nat -> bytes block ->
  sha1_state s = list5 st -> words5 st ->
  exists b, _picohash_sha1_hash_block s = {| sha1_buffer := b; sha1_state := list5 (sha1_compress st block);
                                            byteCount := byteCount s; bufferOffset := bufferOffset s |} /\ length b = 64%nat.
Proof.
  intros Hh Hl Hb Hs Hw. destruct (words_words block Hb Hl) as [Hww Hwl]. unfold _picohash_sha1_hash_block.
  rewrite Hs, (holds_words _ _ Hh Hl). destruct st as [ [ [ [a b] c] d] e]. cbn [list5 nth].
  destruct (sha1_rounds_spec (words unbe block) Hwl Hww 80 0 (words unbe block) (a, b, c, d, e)) as (buf & Hr & Hlb);
    [lia|by apply window_start|done|].
  change (Z.of_nat 0) with 0 in Hr. rewrite Hr. unfold sha1_compress.
  destruct (fold_left _ _ _) as [ [ [ [a' b'] c'] d'] e']. eexists. split; [reflexivity|]. rewrite le_memory_length. lia.
Qed.

(** The context without its count: the chaining value and the bytes of the block. *)
Record sha1_at (s : _picohash_sha1_ctx_t) (st : Z * Z * Z * Z * Z) (r : list Z) : Prop := {
  at_holds : holds (sha1_buffer s) r;
  at_short : (length r < 64)%nat;
  at_bytes : bytes r;
  at_state : sha1_state s = list5 st;
  at_words : words5 st;
  at_offset : bufferOffset s = Z.of_nat (length r)
}.

Lemma add_uncounted_spec s st r x : sha1_at s st r -> is_byte x ->
  exists s', _picohash_sha1_add_uncounted s x = Some s' /\ byteCount s' = byteCount s /\
    sha1_at s' (absorb sha1_compress st (r ++ [x])) (rest (r ++ [x])).
Proof.
  intros [Hh Hr Hb Hs Hw Ho] Hx. destruct (holds_snoc _ _ x Hh Hr) as [Hst Hh'].
  assert (Hbx : bytes (r ++ [x])) by (apply Forall_app; split; [done|by apply Forall_singleton]).
  assert (Hlx : length (r ++ [x]) = S (length r)) by (rewrite length_app; cbn [length]; lia).
  unfold _picohash_sha1_add_uncounted. rewrite Ho, Hst. cbn [mbind option_bind bufferOffset]. unfold PICOHASH_SHA1_BLOCK_LENGTH.
  assert (Hu : u8 (Z.of_nat (length r) + 1) = Z.of_nat (length (r ++ [x]))) by (rewrite Hlx; unfold u8; rewrite Z.mod_small; lia).
  rewrite Hu. destruct (_ =? 64) eqn:E; bool_to_prop.
  - assert (H64 : length (r ++ [x]) = 64%nat) by lia.
    edestruct (hash_block_spec {| sha1_buffer := <[place (length r):=x]> (sha1_buffer s); sha1_state := sha1_state s;
      byteCount := byteCount s; bufferOffset := Z.of_nat (length (r ++ [x])) |} st (r ++ [x])) as (b & Hk & Hlb); [done..|].
    rewrite Hk. cbn [sha1_buffer sha1_state byteCount]. eexists. split; [reflexivity|]. split; [done|].
    rewrite absorb_one by done. replace (rest (r ++ [x])) with (@nil Z) by (symmetry; apply length_zero_iff_nil; by rewrite length_rest, H64).
    split; cbn [sha1_buffer sha1_state bufferOffset length]; [|lia|constructor|done|apply sha1_compress_words|done].
    split; [done|]. split; [cbn [length]; lia|]. intros j y Hj. by rewrite lookup_nil in Hj.
  - eexists. split; [reflexivity|]. split; [done|]. rewrite absorb_short, rest_short by lia. by split; try lia.
Qed.

(** ** Messages *)

Lemma add_all_spec l s st r : sha1_at s st r -> bytes l ->
  exists s', sha1_add_all s l = Some s' /\ byteCount s' = byteCount s /\
    sha1_at s' (absorb sha1_compress st (r ++ l)) (rest (r ++ l)).
Proof.
  revert s st r. induction l as [|x l IH]; intros s st r Hs Hl; cbn [sha1_add_all].
  { exists s. rewrite app_nil_r, absorb_short, rest_short by apply Hs. done. }
  apply Forall_cons_1 in Hl as [Hx Hl]. destruct (add_uncounted_spec s st r x Hs Hx) as (s1 & -> & Hc & Hs1).
  cbn [mbind option_bind]. destruct (IH _ _ _ Hs1 Hl) as (s' & -> & Hc' & Hs'). exists s'. split; [done|]. split; [congruence|].
  replace (r ++ x :: l) with ((r ++ [x]) ++ l) by (by rewrite <- app_assoc).
  by rewrite (absorb_app _ _ (r ++ [x])), (rest_app (r ++ [x]) l).
Qed.

(** The zeros up to 8 bytes before the end of the block. *)
Definition pads (r : list Z) : nat := ((120 - length r) mod 64)%nat.

Lemma sha1_pad_spec fuel s st r : sha1_at s st r -> (pads r < fuel)%nat ->
  exists s', sha1_pad fuel s = Some s' /\ byteCount s' = byteCount s /\
    sha1_at s' (absorb sha1_compress st (r ++ replicate (pads r) 0)) (rest (r ++ replicate (pads r) 0)).
Proof.
  revert s st r. induction fuel as [|fuel IH]; intros s st r Hs Hf; [lia|]. cbn [sha1_pad].
  pose proof (at_short _ _ _ Hs) as Hr. rewrite (at_offset _ _ _ Hs). destruct (_ =? 56) eqn:E; bool_to_prop.
  - exists s. assert (Hp : pads r = 0%nat) by (unfold pads; replace (120 - length r)%nat with 64%nat by lia; done).
    rewrite Hp, app_nil_r, absorb_short, rest_short by done. done.
  - destruct (add_uncounted_spec s st r 0x00 Hs) as (s1 & -> & Hc & Hs1); [unfold is_byte; lia|]. cbn [mbind option_bind].
    assert (Hp : pads r = S (pads (rest (r ++ [0])))).
    { unfold pads. rewrite length_rest, length_app. cbn [length]. destruct (decide (length r = 63%nat)) as [->|Hne]; [done|].
      rewrite (Nat.mod_small (length r + 1)) by lia. destruct (decide (length r < 56)%nat).
      - replace (120 - length r)%nat with (56 - length r + 1 * 64)%nat by lia.
        replace (120 - (length r + 1))%nat with (56 - (length r + 1) + 1 * 64)%nat by lia.
        rewrite !Nat.Div0.mod_add, !Nat.mod_small by lia. lia.
      - rewrite !Nat.mod_small by lia. lia. }
    destruct (IH _ _ _ Hs1) as (s' & -> & Hc' & Hs'); [lia|]. exists s'. split; [done|]. split; [congruence|].
    rewrite Hp. cbn [replicate]. replace (r ++ 0 :: replicate (pads (rest (r ++ [0]))) 0)
      with ((r ++ [0]) ++ replicate (pads (rest (r ++ [0]))) 0) by (by rewrite <- app_assoc).
    by rewrite (absorb_app _ _ (r ++ [0])), (rest_app (r ++ [0]) (replicate _ _)).
Qed.

Record sha1_rep (s : _picohash_sha1_ctx_t) (m : list Z) : Prop := {
  s_bytes : bytes m;
  s_small : zlen m < 2 ^ 61;
  s_at : sha1_at s (absorb sha1_compress sha1_iv m) (rest m);
  s_count : byteCount s = zlen m
}.

Lemma sha1_init_rep s : length (sha1_buffer s) = 64%nat -> sha1_rep (_picohash_sha1_init s) [].
Proof.
  intros Hl. split; [by constructor|done| |done]. change (rest []) with (@nil Z).
  split; [|cbn [length]; lia|constructor|done|by vm_compute|done]. split; [done|]. split; [cbn; lia|]. intros j x Hj. by rewrite lookup_nil in Hj.
Qed.

Lemma sha1_update_rep data s m : sha1_rep s m -> bytes data -> zlen (m ++ data) < 2 ^ 61 ->
  exists s', _picohash_sha1_update s data = Some s' /\ sha1_rep s' (m ++ data).
Proof.
  revert s m. induction data as [|x data IH]; intros s m Hs Hd Hz; cbn [_picohash_sha1_update].
  { exists s. by rewrite app_nil_r. }
  apply Forall_cons_1 in Hd as [Hx Hd]. rewrite zlen_app, zlen_cons in Hz. pose proof (zlen_nonneg data). pose proof (zlen_nonneg m).
  destruct Hs as [Hm Hz' [Hh Hr Hb Hs Hw Ho] Hc].
  destruct (add_uncounted_spec {| sha1_buffer := sha1_buffer s; sha1_state := sha1_state s;
    byteCount := u64 (byteCount s + 1); bufferOffset := bufferOffset s |} _ _ x (Build_sha1_at
      {| sha1_buffer := sha1_buffer s; sha1_state := sha1_state s; byteCount := u64 (byteCount s + 1);
         bufferOffset := bufferOffset s |} _ _ Hh Hr Hb Hs Hw Ho) Hx) as (s1 & -> & Hc1 & Hs1). cbn [mbind option_bind byteCount] in *.
  rewrite <- absorb_app, <- rest_app in Hs1. replace (m ++ x :: data) with ((m ++ [x]) ++ data) by (by rewrite <- app_assoc).
  apply IH; [|done|rewrite !zlen_app, zlen_cons, zlen_nil; lia].
  split; [apply Forall_app; split; [done|by apply Forall_singleton]|rewrite zlen_app, zlen_cons, zlen_nil; lia|done|].
  rewrite Hc1, Hc, zlen_app, zlen_cons, zlen_nil. unfold u64. rewrite Z.mod_small; lia.
Qed.

(** ** The digest *)

Lemma sha1_swap_spec w : word w -> sha1_swap w = unbe (rev (be 4 w)).
Proof.
  intros Hw. pose proof (be_bytes 4 w) as Hb. pose proof (unbe_be_small 4 w Hw) as Hv. rewrite <- Hv at 1.
  destruct (be 4 w) as [|a [|b [|c [|d [|? ?] ] ] ] ] eqn:E; try (by apply (f_equal length) in E; rewrite length_be in E).
  do 4 (apply Forall_cons_1 in Hb as [? Hb]). cbn [rev app]. unfold is_byte in *. rewrite <- (word_of_bytes d c b a) by done.
  unfold sha1_swap. change 0xff000000 with (255 .<< 24). change 0x00ff0000 with (255 .<< 16). change 0x0000ff00 with (255 .<< 8).
  rewrite !mask_field, land_255 by lia. unfold unbe. cbn [fold_left]. unfold u32. rewrite !shiftr_div, !(shiftl_mul (_ + _)) by lia.
  repeat f_equal; Z.div_mod_to_equations; lia.
Qed.

Lemma sha1_output st : words5 st -> le_memory (sha1_swap <$> list5 st)
  = (let '(a, b, c, d, e) := st in be 4 a ++ be 4 b ++ be 4 c ++ be 4 d ++ be 4 e).
Proof.
  destruct st as [ [ [ [a b] c] d] e]. intros (Ha & Hb & Hc & Hd & He). unfold le_memory. cbn [list5 fmap list_fmap concat].
  assert (Hx : forall w, word w -> rev (be 4 (sha1_swap w)) = be 4 w).
  { intros w Hw. rewrite sha1_swap_spec by done. pose proof (be_unbe (rev (be 4 w)) (Forall_rev (be_bytes 4 w))) as Hu.
    rewrite length_rev, length_be in Hu. by rewrite Hu, rev_involutive. }
  by rewrite !Hx, app_nil_r.
Qed.

Lemma sha1_final_spec s m : sha1_rep s m ->
  exists s', _picohash_sha1_final s = Some (s', sha1 m) /\ length (sha1_buffer s') = 64%nat.
Proof.
  intros [Hm Hz Hs Hc]. unfold _picohash_sha1_final.
  destruct (add_uncounted_spec _ _ _ 0x80 Hs) as (s1 & -> & Hc1 & Hs1); [unfold is_byte; lia|]. cbn [mbind option_bind].
  rewrite <- absorb_app, <- rest_app in Hs1.
  assert (Hp : pads (rest (m ++ [0x80])) = Z.to_nat ((55 - zlen m) mod 64)).
  { unfold pads. rewrite length_rest, length_app. unfold zlen. cbn [length].
    pose proof (Nat.mod_upper_bound (length m + 1) 64 ltac:(lia)) as Hb. apply Nat2Z.inj.
    rewrite Nat2Z.inj_mod, Nat2Z.inj_sub, Nat2Z.inj_mod by lia. pose proof (Z.mod_pos_bound (55 - Z.of_nat (length m)) 64 ltac:(lia)).
    rewrite Z2Nat.id by lia. Z.div_mod_to_equations. lia. }
  destruct (sha1_pad_spec 65 _ _ _ Hs1) as (s2 & -> & Hc2 & Hs2);
    [unfold pads; pose proof (Nat.mod_upper_bound (120 - length (rest (m ++ [0x80]))) 64); lia|]. cbn [mbind option_bind].
  rewrite <- absorb_app, <- rest_app in Hs2.
  replace (byteCount s2) with (zlen m) by congruence. rewrite <- be_8_bits.
  destruct (add_all_spec (be 8 (8 * zlen m)) _ _ _ Hs2) as (s3 & -> & Hc3 & Hs3); [apply be_bytes|]. cbn [mbind option_bind].
  rewrite <- absorb_app in Hs3. cbn [sha1_state sha1_buffer].
  assert (He : ((m ++ [0x80]) ++ replicate (pads (rest (m ++ [0x80]))) 0) ++ be 8 (8 * zlen m) = m ++ padding (be 8) (zlen m))
    by (rewrite Hp; unfold padding; by rewrite <- !app_assoc).
  rewrite He in Hs3. rewrite (at_state _ _ _ Hs3), sha1_output by apply Hs3.
  eexists. split; [reflexivity|exact (proj1 (at_holds _ _ _ Hs3))].
Qed.
