(* ===== verification/HashSha256.v ===== *)
(** * SHA-224 and SHA-256 are computed correctly (src/picohash.h) *)

From S2P Require Import Prelude HashSpec Hash.

(** ** One block *)

Lemma sha256_K_spec : sha256_K = sha2_K <$> seq 0 64.
Proof. by vm_compute. Qed.

Lemma sha256_s_rotr n x : 0 < n < 32 -> word x -> _picohash_sha256_s x n = rotr n x.
Proof.
  intros Hn Hx. unfold _picohash_sha256_s, rotr. change (n .& 31) with (n .& (2 ^ 5 - 1)). rewrite land_ones_mod by lia.
  rewrite (Z.mod_small n) by lia. rewrite !land_word, !(u32_id x) by done.
  rewrite Z.lor_comm, <- (rotl_or (32 - n)) by (done || lia). replace (32 - (32 - n)) with n by lia.
  apply u32_id, lor_word; [apply u32_word|]. unfold word in *. rewrite shiftr_div by lia.
  split; [apply Z.div_pos; lia|]. apply Z.div_lt_upper_bound; [lia|]. pose proof (Z.pow_pos_nonneg 2 n). nia.
Qed.

Lemma sha256_r_shift n x : 0 <= n -> word x -> _picohash_sha256_r x n = x / 2 ^ n.
Proof. intros Hn Hx. unfold _picohash_sha256_r. by rewrite land_word, u32_id, shiftr_div. Qed.

Lemma sha256_sigma0_spec x : word x -> _picohash_sha256_sigma0 x = Sigma0 x.
Proof. intros Hx. unfold _picohash_sha256_sigma0, Sigma0. by rewrite !sha256_s_rotr by (done || lia). Qed.
Lemma sha256_sigma1_spec x : word x -> _picohash_sha256_sigma1 x = Sigma1 x.
Proof. intros Hx. unfold _picohash_sha256_sigma1, Sigma1. by rewrite !sha256_s_rotr by (done || lia). Qed.
Lemma sha256_gamma0_spec x : word x -> _picohash_sha256_gamma0 x = sigma0 x.
Proof. intros Hx. unfold _picohash_sha256_gamma0, sigma0. by rewrite !sha256_s_rotr, sha256_r_shift by (done || lia). Qed.
Lemma sha256_gamma1_spec x : word x -> _picohash_sha256_gamma1 x = sigma1 x.
Proof. intros Hx. unfold _picohash_sha256_gamma1, sigma1. by rewrite !sha256_s_rotr, sha256_r_shift by (done || lia). Qed.

Lemma nth_word k w : Forall word w -> word (nth k w 0).
Proof.
  intros Hw. destruct (decide (k < length w)%nat); [by apply Forall_nth|]. rewrite nth_overflow by lia. by vm_compute.
Qed.

Lemma sha256_fill_spec n W : Forall word W -> sha256_fill W (length W) n = sha2_schedule n W.
Proof.
  revert W. induction n as [|n IH]; intros W Hw; [done|]. cbn [sha256_fill sha2_schedule].
  rewrite sha256_gamma0_spec, sha256_gamma1_spec by (by apply nth_word). rewrite <- IH.
  - f_equal. rewrite length_app. cbn [length]. lia.
  - apply Forall_app. split; [done|]. apply Forall_singleton, u32_word.
Qed.

Lemma sha2_schedule_length n w : length (sha2_schedule n w) = (length w + n)%nat.
Proof. revert w. induction n as [|n IH]; intros w; cbn [sha2_schedule]; [lia|]. rewrite IH, length_app. cbn [length]. lia. Qed.

Definition words8 (s : sha2_state) : Prop := Forall word (sha2_words s).

Lemma sha256_rnd_spec w t s : words8 s -> sha256_rnd (sha2_K t) (nth t w 0) s = sha2_operation w s t /\ words8 (sha2_operation w s t).
Proof.
  destruct s as [ [ [ [ [ [ [a b] c] d] e] f] g] h]. intros Hs. pose proof Hs as Hs'. unfold words8, sha2_words in Hs'.
  do 8 (apply Forall_cons_1 in Hs' as [? Hs']). split.
  - unfold sha256_rnd, sha2_operation, _picohash_sha256_ch, _picohash_sha256_maj.
    by rewrite sha256_sigma0_spec, sha256_sigma1_spec, choice_xor, majority_or by assumption.
  - unfold sha2_operation, words8, sha2_words. repeat apply Forall_cons_2; first [assumption|apply u32_word|apply Forall_nil_2].
Qed.

Lemma sha256_rounds_spec n i w s : words8 s -> length w = (i + n)%nat ->
  sha256_rounds (sha2_K <$> seq i n) (drop i w) s = fold_left (sha2_operation w) (seq i n) s.
Proof.
  revert i s. induction n as [|n IH]; intros i s Hs Hl; [done|]. cbn [seq fmap list_fmap fold_left].
  destruct (lookup_lt_is_Some_2 w i) as [x Hx]; [lia|]. rewrite (drop_S _ _ _ Hx). cbn [sha256_rounds].
  replace x with (nth i w 0) by (by rewrite nth_lookup, Hx).
  destruct (sha256_rnd_spec w i s Hs) as [-> Hs']. apply IH; [done|lia].
Qed.

Lemma sha256_words_spec (buf : list Z) n k : bytes buf -> (4 * (n + k) <= length buf)%nat ->
  sha256_words buf (Z.of_nat n) k = Some ((fun i => unbe (take 4 (drop (4 * i) buf))) <$> seq n k).
Proof.
  intros Hb. revert n. induction k as [|k IH]; intros n Hl; [done|]. cbn [sha256_words]. unfold sha256_load.
  destruct (load_word4 buf n Hb ltac:(lia)) as (a & b & c & d & -> & Ht & Ha & Hb' & Hc & Hd). cbn [mbind option_bind nth].
  replace (Z.of_nat n + 1) with (Z.of_nat (S n)) by lia. rewrite IH by lia. cbn [mbind option_bind seq fmap list_fmap].
  do 2 f_equal. rewrite Ht, u32_id by (unfold word, is_byte in *; rewrite shiftl_mul; lia). by apply word_of_bytes.
Qed.

Lemma sha256_words_block (buf : list Z) : bytes buf -> (64 <= length buf)%nat ->
  sha256_words buf 0 16 = Some (words unbe (take 64 buf)).
Proof. intros Hb Hl. rewrite words_take. by apply (sha256_words_spec buf 0 16). Qed.

Lemma sha2_compress_words s block : words8 (sha2_compress s block).
Proof.
  unfold sha2_compress. destruct s as [ [ [ [ [ [ [a b] c] d] e] f] g] h].
  destruct (fold_left _ _ _) as [ [ [ [ [ [ [a' b'] c'] d'] e'] f'] g'] h'].
  unfold words8, sha2_words. repeat apply Forall_cons_2; first [apply u32_word|apply Forall_nil_2].
Qed.

Lemma sha256_compress_spec ctx buf st : bytes buf -> (64 <= length buf)%nat -> sha_state ctx = sha2_words st -> words8 st ->
  _picohash_sha256_compress ctx buf
  = Some (Build__picohash_sha256_ctx_t (sha_length ctx) (sha2_words (sha2_compress st (take 64 buf))) (curlen ctx) (sha_buf ctx)).
Proof.
  intros Hb Hl Hs Hw. unfold _picohash_sha256_compress. rewrite sha256_words_block by done. cbn [mbind option_bind].
  assert (Hb64 : bytes (take 64 buf)) by (by apply Forall_take).
  destruct (words_words (take 64 buf) Hb64) as [Hww Hwl]; [rewrite length_take; lia|].
  pose proof (sha256_fill_spec 48 _ Hww) as Hf. rewrite Hwl in Hf. rewrite Hf, Hs, sha256_K_spec.
  pose proof (sha256_rounds_spec 64 0 (sha2_schedule 48 (words unbe (take 64 buf))) st Hw) as Hr.
  rewrite drop_0 in Hr. rewrite sha2_schedule_length, Hwl in Hr. specialize (Hr eq_refl).
  destruct st as [ [ [ [ [ [ [a b] c] d] e] f] g] h]. cbn [sha2_words nth]. rewrite Hr. unfold sha2_compress.
  destruct (fold_left _ _ _) as [ [ [ [ [ [ [a' b'] c'] d'] e'] f'] g'] h']. reflexivity.
Qed.

(** ** The context *)

Section Context_.
Context (iv : sha2_state) (Hiv : words8 iv).

Record sha256_rep (c : _picohash_sha256_ctx_t) (m : list Z) : Prop := {
  c_bytes : bytes m;
  c_small : zlen m < 2 ^ 61;
  c_buf : length (sha_buf c) = 64%nat;
  c_tail : take (length (rest m)) (sha_buf c) = rest m;
  c_curlen : curlen c = Z.of_nat (length (rest m));
  c_length : sha_length c = 8 * (zlen m - Z.of_nat (length (rest m)));
  c_state : sha_state c = sha2_words (absorb sha2_compress iv m)
}.

Lemma absorb_words8 st m : words8 st -> words8 (absorb sha2_compress st m).
Proof.
  unfold absorb. generalize (length m / 64)%nat. intros n. revert st m.
  induction n as [|n IH]; intros st m Hst; [done|]. apply IH, sha2_compress_words.
Qed.

Lemma rest_small m : (length (rest m) < 64)%nat.
Proof. rewrite length_rest. by apply Nat.mod_upper_bound. Qed.

(** A complete block from the input. *)
Lemma rep_block c m block : sha256_rep c m -> rest m = [] -> bytes block -> length block = 64%nat -> zlen (m ++ block) < 2 ^ 61 ->
  sha256_rep (Build__picohash_sha256_ctx_t (u64 (sha_length c + 512)) (sha2_words (sha2_compress (absorb sha2_compress iv m) block)) (curlen c) (sha_buf c))
    (m ++ block).
Proof.
  intros [Hb Hz Hl Ht Hc Hn Hs] Hr Hbb Hlb Hz'. rewrite Hr in *.
  assert (Hr' : rest (m ++ block) = []) by (rewrite rest_app, Hr; apply length_zero_iff_nil; by rewrite length_rest, app_nil_l, Hlb).
  rewrite zlen_app in Hz'. pose proof (zlen_nonneg m). assert (Hzb : zlen block = 64) by (unfold zlen; lia).
  split; cbn [sha_buf sha_state sha_length curlen]; rewrite ?Hr', ?zlen_app; [by apply Forall_app|done..| |].
  - rewrite Hn. cbn [length]. unfold u64. rewrite Z.mod_small; lia.
  - by rewrite absorb_app, Hr, app_nil_l, (absorb_one _ _ block) by done.
Qed.

(** Bytes that are stored in the buffer, with the compression of a buffer that is full. *)
Lemma rep_store c m d : sha256_rep c m -> bytes d -> (length (rest m) + length d <= 64)%nat -> zlen (m ++ d) < 2 ^ 61 ->
  exists b, store (sha_buf c) (curlen c) d = Some b /\ length b = 64%nat /\
    let c1 := Build__picohash_sha256_ctx_t (sha_length c) (sha_state c) (u32 (curlen c + u32 (zlen d))) b in
    if curlen c1 =? 64 then
      exists st, _picohash_sha256_compress c1 b = Some (Build__picohash_sha256_ctx_t (sha_length c1) st (curlen c1) b) /\
        sha256_rep (Build__picohash_sha256_ctx_t (u64 (sha_length c1 + 512)) st 0 b) (m ++ d)
    else sha256_rep c1 (m ++ d).
Proof using Hiv.
  intros [Hb Hz Hl Ht Hc Hn Hs] Hd Hle Hz'. pose proof (rest_small m) as Hsm. pose proof (zlen_nonneg m).
  destruct (store_after (sha_buf c) (length (rest m)) d) as (b & Hst & Hlb & Htb); [lia|].
  exists b. rewrite Hc, Hst. split; [done|]. split; [lia|]. cbn [curlen sha_length sha_state sha_buf]. rewrite Ht in Htb.
  assert (Hlen : u32 (Z.of_nat (length (rest m)) + u32 (zlen d)) = Z.of_nat (length (rest m ++ d))).
  { rewrite length_app, u32_add_r. unfold u32, zlen. rewrite Z.mod_small; lia. }
  rewrite Hlen. rewrite zlen_app in Hz'. pose proof (zlen_nonneg d).
  assert (Hbm : bytes (rest m ++ d)) by (apply Forall_app; split; [by apply Forall_drop|done]).
  assert (Hzr : zlen m + zlen d - Z.of_nat (length (rest m ++ d)) = zlen m - Z.of_nat (length (rest m)))
    by (rewrite length_app; unfold zlen; lia).
  destruct (_ =? 64) eqn:E; bool_to_prop.
  - assert (H64 : length (rest m ++ d) = 64%nat) by lia.
    assert (Hbeq : b = rest m ++ d) by (rewrite <- Htb, take_ge; [done|rewrite <- length_app; lia]).
    assert (Hr' : rest (m ++ d) = []) by (rewrite rest_app; apply length_zero_iff_nil; by rewrite length_rest, H64).
    eexists. split.
    + rewrite (sha256_compress_spec _ b (absorb sha2_compress iv m)); [done|by rewrite Hbeq|lia|done|by apply absorb_words8].
    + split; cbn [sha_buf sha_state sha_length curlen]; rewrite ?Hr', ?zlen_app; [by apply Forall_app|done|lia|done|done| |].
      * rewrite Hn. cbn [length]. unfold u64. rewrite Z.mod_small; unfold zlen in *; rewrite length_app in *; lia.
      * rewrite take_ge by lia. by rewrite absorb_app, <- Hbeq, (absorb_one _ _ b) by lia.
  - assert (Hlt : (length (rest m ++ d) < 64)%nat) by (rewrite length_app in *; lia).
    assert (Hr' : rest (m ++ d) = rest m ++ d) by (by rewrite rest_app, rest_short).
    split; cbn [sha_buf sha_state sha_length curlen]; rewrite ?Hr', ?zlen_app;
      [by apply Forall_app|done|lia|by rewrite length_app|done|lia|by rewrite absorb_app, (absorb_short _ _ (rest m ++ d))].
Qed.

Lemma sha256_update_loop_rep fuel c m data : sha256_rep c m -> bytes data -> zlen (m ++ data) < 2 ^ 61 -> (length data < fuel)%nat ->
  exists c', sha256_update_loop fuel c data = Some c' /\ sha256_rep c' (m ++ data).
Proof using Hiv.
  revert c m data. induction fuel as [|fuel IH]; intros c m data Hr Hd Hz Hf; [lia|]. cbn [sha256_update_loop].
  destruct (negb (0 <? zlen data)) eqn:E; bool_to_prop; unfold zlen in E.
  { assert (data = []) as -> by (apply length_zero_iff_nil; lia). exists c. by rewrite app_nil_r. }
  rewrite (c_curlen _ _ Hr). unfold PICOHASH_SHA256_BLOCK_LENGTH. pose proof (rest_small m) as Hsm.
  assert (Hstep : forall k, (1 <= k)%nat -> forall c1, sha256_rep c1 (m ++ take k data) ->
    exists c', sha256_update_loop fuel c1 (drop k data) = Some c' /\ sha256_rep c' (m ++ data)).
  { intros k Hk c1 Hc1. replace (m ++ data) with ((m ++ take k data) ++ drop k data) by (by rewrite <- app_assoc, take_drop).
    apply IH; [done|by apply Forall_drop|by rewrite <- app_assoc, take_drop|rewrite length_drop; lia]. }
  assert (Hzt : forall k, zlen (m ++ take k data) < 2 ^ 61) by (intros k; rewrite zlen_app in *; rewrite zlen_take; lia).
  destruct (_ && _) eqn:E2.
  - apply andb_true_iff in E2 as [E2 E3]. bool_to_prop. unfold zlen in E3.
    assert (Hnil : rest m = []) by (apply length_zero_iff_nil; lia).
    rewrite (sha256_compress_spec c data (absorb sha2_compress iv m)); [|done|lia|apply Hr|by apply absorb_words8].
    cbn [mbind option_bind sha_length sha_state curlen sha_buf].
    change (64 * 8) with 512. apply Hstep; [lia|]. apply rep_block; [done|done|by apply Forall_take|rewrite length_take; lia|done].
  - set (n := if zlen data <? u32 (64 - Z.of_nat (length (rest m))) then zlen data else u32 (64 - Z.of_nat (length (rest m)))).
    assert (Hn : exists k, n = Z.of_nat k /\ (1 <= k <= length data)%nat /\ (length (rest m) + k <= 64)%nat).
    { unfold n, u32. rewrite (Z.mod_small (64 - _)) by lia. unfold zlen. clear n. case_if.
      - exists (length data). lia.
      - exists (64 - length (rest m))%nat. lia. }
    destruct Hn as (k & -> & Hk & Hle). rewrite load_start by lia. cbn [mbind option_bind].
    assert (Hlk : length (take k data) = k) by (rewrite length_take; lia).
    destruct (rep_store c m (take k data) Hr) as (b & Hst & Hlb & Hc1); [by apply Forall_take|lia|done|].
    rewrite (c_curlen _ _ Hr) in Hst, Hc1. rewrite Hst. cbn [mbind option_bind]. unfold zlen in Hc1. rewrite Hlk in Hc1.
    cbn [curlen sha_length sha_state sha_buf] in *. rewrite Nat2Z.id. destruct (_ =? 64).
    + destruct Hc1 as (st & -> & Hc1). cbn [mbind option_bind curlen sha_length sha_state sha_buf].
      change (8 * 64) with 512. apply Hstep; [lia|done].
    + cbn [mbind option_bind]. apply Hstep; [lia|done].
Qed.

Lemma sha256_update_rep c m data : sha256_rep c m -> bytes data -> zlen (m ++ data) < 2 ^ 61 ->
  exists c', _picohash_sha256_update c data = Some c' /\ sha256_rep c' (m ++ data).
Proof using Hiv. intros Hr Hd Hz. apply sha256_update_loop_rep; [done..|lia]. Qed.

(** ** The digest *)

(** The bytes [l] are at the start of the buffer. *)
Definition filled (c : _picohash_sha256_ctx_t) (l : list Z) : Prop :=
  length (sha_buf c) = 64%nat /\ take (length l) (sha_buf c) = l /\ curlen c = Z.of_nat (length l).

Lemma sha256_zeros_spec fuel L c l : filled c l -> (length l <= L <= 64)%nat -> (L - length l < fuel)%nat ->
  exists b, let l' := l ++ replicate (L - length l) 0 in
    let c' := {| sha_length := sha_length c; sha_state := sha_state c; curlen := Z.of_nat L; sha_buf := b |} in
    sha256_zeros fuel (Z.of_nat L) c = Some c' /\ filled c' l'.
Proof.
  revert c l. induction fuel as [|fuel IH]; intros c l (Hb & Ht & Hc) HL Hf; [lia|]. cbn [sha256_zeros]. rewrite Hc.
  destruct (negb _) eqn:E; bool_to_prop.
  - assert (HLl : L = length l) by lia. exists (sha_buf c). rewrite HLl, Nat.sub_diag, app_nil_r. cbv zeta.
    rewrite <- Hc. split; [by destruct c|done].
  - destruct (store_after (sha_buf c) (length l) [0]) as (b & -> & Hlb & Htb); [cbn [length]; lia|]. cbn [mbind option_bind].
    assert (Hu : u32 (Z.of_nat (length l) + 1) = Z.of_nat (length (l ++ [0]))) by (rewrite length_app; cbn [length]; unfold u32; rewrite Z.mod_small; lia).
    rewrite Hu. destruct (IH (Build__picohash_sha256_ctx_t (sha_length c) (sha_state c) (Z.of_nat (length (l ++ [0]))) b) (l ++ [0]))
      as (b' & Hz & Hfil); [|rewrite length_app; cbn [length]; lia..|].
    { split; [cbn [sha_buf]; lia|]. split; [|done]. cbn [sha_buf]. rewrite length_app. cbn [length] in *. by rewrite Htb, Ht. }
    exists b'. cbv zeta in *. split; [exact Hz|]. replace (L - length l)%nat with (S (L - length (l ++ [0%Z]))) by (rewrite length_app; cbn [length]; lia).
    cbn [replicate]. by rewrite <- app_assoc in Hfil.
Qed.

Lemma sha256_length_bytes_be n : sha256_length_bytes n = be 8 n.
Proof.
  unfold sha256_length_bytes. cbn [seq fmap list_fmap be app]. rewrite !Z.div_div by lia. unfold u8.
  change (56 - 8 * Z.of_nat 7) with 0. rewrite Z.shiftr_0_r. by rewrite !shiftr_div by lia.
Qed.

Lemma zeros_bytes k : bytes (replicate k 0).
Proof. apply Forall_replicate. unfold is_byte. lia. Qed.

Lemma be_bytes4_be (w : list Z) : (be_bytes4 <$> w) = (be 4 <$> w).
Proof. induction w as [|x w IH]; [done|]. rewrite !fmap_cons, IH. f_equal. unfold be_bytes4. apply be_shifts. Qed.

(** The last block: zeros and the length. *)
Lemma sha256_last_block c st l (n : Z) : filled c l -> (length l <= 56)%nat -> bytes l -> sha_state c = sha2_words st -> words8 st ->
  exists c1 b c2, sha256_zeros 65 56 c = Some c1 /\ sha_length c1 = sha_length c /\
    store (sha_buf c1) 56 (be 8 n) = Some b /\
    _picohash_sha256_compress (Build__picohash_sha256_ctx_t (sha_length c1) (sha_state c1) (curlen c1) b) b = Some c2 /\
    length (sha_buf c2) = 64%nat /\ sha_state c2 = sha2_words (sha2_compress st (l ++ replicate (56 - length l) 0 ++ be 8 n)).
Proof.
  intros Hfil Hl Hb Hs Hw. destruct (sha256_zeros_spec 65 56 c l Hfil) as (b1 & Hz & Hb1 & Ht1 & _); [lia|lia|].
  cbn [sha_buf] in Hb1, Ht1. rewrite length_app, length_replicate in Ht1. replace (length l + (56 - length l))%nat with 56%nat in Ht1 by lia.
  destruct (store_after b1 56 (be 8 n)) as (b & Hst & Hlb & Htb); [rewrite length_be; lia|].
  rewrite length_be, Ht1, take_ge, <- app_assoc in Htb by lia.
  eexists _, b, _. split; [exact Hz|]. split; [done|]. split; [exact Hst|]. cbn [sha_length sha_state curlen].
  assert (Hbb : bytes b) by (rewrite Htb; apply Forall_app; split; [done|apply Forall_app; split; [apply zeros_bytes|apply be_bytes] ]).
  rewrite (sha256_compress_spec _ b st); [|done|lia|done|done].
  split; [reflexivity|]. cbn [sha_buf sha_state]. split; [lia|]. by rewrite <- Htb, take_ge by lia.
Qed.

Lemma sha256_pad_short c st r n : filled c (r ++ [0x80]) -> (length r < 56)%nat -> bytes r -> sha_length c = 8 * n ->
  sha_state c = sha2_words st -> words8 st ->
  exists c', sha256_pad c = Some c' /\ length (sha_buf c') = 64%nat /\
    sha_state c' = sha2_words (absorb sha2_compress st (r ++ tail_padding (be 8) (length r) n)).
Proof.
  intros Hfil Hl Hr Hn Hs Hw. assert (Hl80 : length (r ++ [0x80]) = S (length r)) by (rewrite length_app; cbn [length]; lia).
  assert (Hr1 : bytes (r ++ [0x80])) by (apply Forall_app; split; [done|by repeat constructor]).
  pose proof (proj2 (proj2 Hfil)) as Hc. unfold sha256_pad. destruct (56 <? curlen c) eqn:E; bool_to_prop; [lia|].
  destruct (sha256_last_block c st (r ++ [0x80]) (8 * n) Hfil) as (c2 & b & c3 & Hz & Hlc & Hst & Hcomp & Hlb & Hst3); [lia|done..|].
  rewrite (bind_known _ c) by reflexivity. rewrite (bind_known _ _ _ Hz), sha256_length_bytes_be, Hlc, Hn, (bind_known _ _ _ Hst).
  exists c3. rewrite Hlc, Hn in Hcomp. split; [exact Hcomp|]. split; [exact Hlb|]. rewrite Hst3. f_equal.
  assert (Heq : r ++ tail_padding (be 8) (length r) n = (r ++ [0x80]) ++ replicate (56 - length (r ++ [0x80%Z])) 0 ++ be 8 (8 * n)).
  { unfold tail_padding. rewrite decide_True, Hl80, <- app_assoc by lia. by replace (56 - S (length r))%nat with (55 - length r)%nat by lia. }
  rewrite Heq, absorb_one; [reflexivity|]. rewrite !length_app, length_replicate, length_be. cbn [length]. lia.
Qed.

Lemma sha256_pad_long c st r n : filled c (r ++ [0x80]) -> (56 <= length r < 64)%nat -> bytes r -> sha_length c = 8 * n ->
  sha_state c = sha2_words st -> words8 st ->
  exists c', sha256_pad c = Some c' /\ length (sha_buf c') = 64%nat /\
    sha_state c' = sha2_words (absorb sha2_compress st (r ++ tail_padding (be 8) (length r) n)).
Proof.
  intros Hfil Hl Hr Hn Hs Hw. assert (Hl80 : length (r ++ [0x80]) = S (length r)) by (rewrite length_app; cbn [length]; lia).
  pose proof (proj2 (proj2 Hfil)) as Hc. unfold sha256_pad. destruct (56 <? curlen c) eqn:E; bool_to_prop; [|lia].
  destruct (sha256_zeros_spec 65 64 c (r ++ [0x80]) Hfil) as (b2 & Hz2 & Hb2 & Ht2 & _); [lia|lia|].
  change (Z.of_nat 64) with 64 in Hz2. cbn [sha_buf] in *.
  rewrite length_app, length_replicate, take_ge in Ht2 by lia.
  assert (Hbb : bytes b2).
  { rewrite Ht2. apply Forall_app; split; [apply Forall_app; split; [done|by repeat constructor]|apply zeros_bytes]. }
  set (cz := Build__picohash_sha256_ctx_t (sha_length c) (sha_state c) 64 b2) in *.
  assert (Hcz : _picohash_sha256_compress cz b2 = Some (Build__picohash_sha256_ctx_t (8 * n) (sha2_words (sha2_compress st b2)) 64 b2)).
  { rewrite (sha256_compress_spec _ b2 st) by (done || lia). by rewrite take_ge, <- Hn by lia. }
  set (st1 := sha2_compress st b2). assert (Hw1 : words8 st1) by apply sha2_compress_words.
  assert (Habs : absorb sha2_compress st (r ++ tail_padding (be 8) (length r) n)
                 = absorb sha2_compress st1 (replicate 56 0 ++ be 8 (8 * n))).
  { unfold st1. rewrite <- (absorb_block _ st b2) by lia. f_equal. rewrite Ht2. unfold tail_padding. rewrite decide_False, Hl80 by lia.
    replace (119 - length r)%nat with (64 - S (length r) + 56)%nat by lia. by rewrite replicate_add, <- !app_assoc. }
  rewrite Habs, (absorb_one _ st1) by (rewrite length_app, length_replicate, length_be; done). fold st1 in Hcz. clearbody st1.
  destruct (sha256_last_block (Build__picohash_sha256_ctx_t (8 * n) (sha2_words st1) 0 b2) st1 [] (8 * n))
    as (c2 & b & c3 & Hz & Hlc & Hst & Hcomp & Hlb & Hst3); [by split|cbn [length]; lia|constructor|done|done|].
  rewrite (bind_known _ (Build__picohash_sha256_ctx_t (8 * n) (sha2_words st1) 0 b2));
    [|by rewrite (bind_known _ _ _ Hz2), (bind_known _ _ _ Hcz)].
  cbn [sha_length] in Hlc. rewrite (bind_known _ _ _ Hz), sha256_length_bytes_be, Hlc, (bind_known _ _ _ Hst).
  exists c3. rewrite Hlc in Hcomp. split; [exact Hcomp|]. split; [exact Hlb|exact Hst3].
Qed.

Lemma sha256_final_spec c m k : sha256_rep c m ->
  exists c', _picohash_sha256_do_final c k = Some (c', concat (be 4 <$> take (Z.to_nat (k / 4))
      (sha2_words (iterated sha2_compress iv (be 8) m)))) /\ length (sha_buf c') = 64%nat.
Proof using Hiv.
  intros [Hb Hz Hl Ht Hc Hn Hs]. pose proof (zlen_nonneg m) as Hm. pose proof (rest_small m) as Hlr.
  assert (Hrb : bytes (rest m)) by (by apply Forall_drop).
  assert (Hw : words8 (absorb sha2_compress iv m)) by (by apply absorb_words8).
  unfold _picohash_sha256_do_final. rewrite Hc, iterated_rest.
  assert (Hlen : u64 (sha_length c + u32 (Z.of_nat (length (rest m)) * 8)) = 8 * zlen m).
  { rewrite Hn. unfold u32. rewrite (Z.mod_small (_ * 8)) by lia. unfold u64. rewrite Z.mod_small; lia. }
  rewrite Hlen. destruct (store_after (sha_buf c) (length (rest m)) [0x80]) as (b1 & -> & Hl1 & Ht1); [cbn [length]; lia|].
  cbn [mbind option_bind].
  set (c1 := Build__picohash_sha256_ctx_t (8 * zlen m) (sha_state c) (u32 (Z.of_nat (length (rest m)) + 1)) b1).
  assert (Hfil : filled c1 (rest m ++ [0x80])).
  { split; [cbn [sha_buf c1]; lia|]. rewrite length_app. cbn [sha_buf curlen c1 length] in *.
    split; [by rewrite Ht1, Ht|]. unfold u32. rewrite Z.mod_small; lia. }
  destruct (decide (length (rest m) < 56)%nat) as [Hlt|Hge].
  - destruct (sha256_pad_short c1 _ _ _ Hfil Hlt Hrb eq_refl Hs Hw) as (c' & -> & Hl' & Hs').
    cbn [mbind option_bind]. exists c'. by rewrite be_bytes4_be, Hs'.
  - destruct (sha256_pad_long c1 _ _ (zlen m) Hfil ltac:(lia) Hrb eq_refl Hs Hw) as (c' & -> & Hl' & Hs').
    cbn [mbind option_bind]. exists c'. by rewrite be_bytes4_be, Hs'.
Qed.
End Context_.
