(* ===== verification/HashCorrect.v ===== *)
(** * The hash functions and HMAC of the library are the standard ones

    The implementations of picohash.h meet one interface, [HashFn]: a context
    represents the bytes it was given.  HMAC is proved against that interface.  The
    functions of hash.c and hmac.c then compute MD5, SHA-1, SHA-256 and their HMACs, for
    any content of the stack and both widths of [uint_fast32_t], and the specifications
    are an instance of the interface [Crypto] that the STUN model uses. *)

From S2P Require Import Prelude HashSpec Hash HashMd5 HashSha1 HashSha256.

(** ** The interface of an algorithm *)

(** [f] resets and finalises, [g] updates.  [rep] is what a context has been given,
    [ok] that its buffers have their sizes. *)
Class HashFn (W : Z) (f g : fn) (digest : Z) := {
  hash : list Z -> list Z;
  ok : union -> Prop;
  rep : union -> list Z -> Prop;
  hash_base : f <> fn_hmac;
  hash_digest m : zlen (hash m) = digest /\ bytes (hash m);
  reset_rep u : ok u -> exists u', call_reset f u = Some u' /\ rep u' [];
  update_rep u m d : rep u m -> bytes d -> zlen (m ++ d) < 2 ^ 61 ->
    exists u', call_update W g u d = Some u' /\ rep u' (m ++ d);
  final_rep u m : rep u m -> exists u', call_final W f u = Some (u', hash m) /\ ok u'
}.
#[global] Arguments hash {W} f {g digest HashFn} _.
#[global] Arguments ok {W} f {g digest HashFn} _.
#[global] Arguments rep {W} f {g digest HashFn} _ _.

Lemma be_digest (l : list Z) : zlen (concat (be 4 <$> l)) = 4 * zlen l /\ bytes (concat (be 4 <$> l)).
Proof.
  induction l as [|w l [IH1 IH2] ]; [done|]. rewrite fmap_cons. cbn [concat]. split.
  - rewrite zlen_app, IH1, zlen_cons. unfold zlen. rewrite length_be. lia.
  - apply Forall_app. split; [apply be_bytes|done].
Qed.

Lemma lsb_digest w : zlen (lsb 4 w) = 4 /\ bytes (lsb 4 w).
Proof. unfold lsb, zlen. rewrite length_rev, length_be. split; [done|apply Forall_rev, be_bytes]. Qed.

Lemma md5_digest_size m : zlen (md5 m) = 16 /\ bytes (md5 m).
Proof.
  unfold md5. destruct (iterated _ _ _ _) as [ [ [a b] c] d]. rewrite !zlen_app.
  pose proof (lsb_digest a). pose proof (lsb_digest b). pose proof (lsb_digest c). pose proof (lsb_digest d).
  split; [lia|]. do 3 (apply Forall_app; split; [tauto|]). tauto.
Qed.

Lemma sha1_digest_size m : zlen (sha1 m) = 20 /\ bytes (sha1 m).
Proof.
  unfold sha1. destruct (iterated _ _ _ _) as [ [ [ [a b] c] d] e].
  pose proof (be_digest [a; b; c; d; e]) as Hd. rewrite !fmap_cons in Hd. cbn [concat] in Hd. rewrite fmap_nil, app_nil_r in Hd. exact Hd.
Qed.

Lemma sha2_digest_size H n m : (n <= 8)%nat -> zlen (sha2 H n m) = 4 * Z.of_nat n /\ bytes (sha2 H n m).
Proof.
  intros Hn. unfold sha2. destruct (be_digest (take n (sha2_words (iterated sha2_compress (sha2_iv H) (be 8) m)))) as [Hl Hb].
  split; [|done]. rewrite Hl, zlen_take. destruct (iterated _ _ _ _) as [ [ [ [ [ [ [a b] c] d] e] f] g] h]. cbn [sha2_words]. unfold zlen. cbn [length]. lia.
Qed.

Lemma sha256_iv_spec ctx : _picohash_sha256_init ctx
  = {| sha_length := 0; sha_state := sha2_words (sha2_iv sha256_H); curlen := 0; sha_buf := sha_buf ctx |}.
Proof. unfold _picohash_sha256_init. f_equal. Qed.
Lemma sha224_iv_spec ctx : _picohash_sha224_init ctx
  = {| sha_length := 0; sha_state := sha2_words (sha2_iv sha224_H); curlen := 0; sha_buf := sha_buf ctx |}.
Proof. unfold _picohash_sha224_init. f_equal. Qed.

Lemma sha256_iv_words : words8 (sha2_iv sha256_H) /\ words8 (sha2_iv sha224_H).
Proof. unfold words8. split; repeat apply Forall_cons_2; try apply Forall_nil_2; by vm_compute. Qed.

Lemma sha2_init_rep iv b : length b = 64%nat ->
  sha256_rep iv {| sha_length := 0; sha_state := sha2_words iv; curlen := 0; sha_buf := b |} [].
Proof. intros Hl. by split. Qed.

Section Algorithms.
Context (W : Z) (HW : 32 <= W).

#[export, program] Instance md5_fn_laws : HashFn W fn_md5 fn_md5 PICOHASH_MD5_DIGEST_LENGTH := {|
  hash := md5; ok u := length (md5_buffer (_md5 u)) = 64%nat; rep u m := md5_rep (_md5 u) m
|}.
Next Obligation. done. Qed.
Next Obligation. apply md5_digest_size. Qed.
Next Obligation. intros u Hu. eexists. split; [reflexivity|]. by apply md5_init_rep. Qed.
Next Obligation.
  intros u m d Hr Hd Hz. destruct (md5_update_rep W HW _ _ _ Hr Hd Hz) as (c & Hc & Hc'). cbn. rewrite Hc. by eexists.
Qed.
Next Obligation. intros u m Hr. destruct (md5_final_spec W HW _ _ Hr) as (c & Hc & Hc'). cbn. rewrite Hc. by eexists. Qed.

#[export, program] Instance sha1_fn_laws : HashFn W fn_sha1 fn_sha1 PICOHASH_SHA1_DIGEST_LENGTH := {|
  hash := sha1; ok u := length (sha1_buffer (_sha1 u)) = 64%nat; rep u m := sha1_rep (_sha1 u) m
|}.
Next Obligation. done. Qed.
Next Obligation. apply sha1_digest_size. Qed.
Next Obligation. intros u Hu. eexists. split; [reflexivity|]. by apply sha1_init_rep. Qed.
Next Obligation.
  intros u m d Hr Hd Hz. destruct (sha1_update_rep _ _ _ Hr Hd Hz) as (c & Hc & Hc'). cbn. rewrite Hc. by eexists.
Qed.
Next Obligation. intros u m Hr. destruct (sha1_final_spec _ _ Hr) as (c & Hc & Hc'). cbn. rewrite Hc. by eexists. Qed.

#[export, program] Instance sha256_fn_laws : HashFn W fn_sha256 fn_sha256 PICOHASH_SHA256_DIGEST_LENGTH := {|
  hash := sha256; ok u := length (sha_buf (_sha256 u)) = 64%nat; rep u m := sha256_rep (sha2_iv sha256_H) (_sha256 u) m
|}.
Next Obligation. done. Qed.
Next Obligation. intros m. by apply (sha2_digest_size sha256_H 8). Qed.
Next Obligation.
  intros u Hu. eexists. split; [reflexivity|]. cbn [_sha256 with_sha2]. rewrite sha256_iv_spec. by apply sha2_init_rep.
Qed.
Next Obligation.
  intros u m d Hr Hd Hz. destruct (sha256_update_rep _ (proj1 sha256_iv_words) _ _ _ Hr Hd Hz) as (c & Hc & Hc').
  cbn [call_update]. rewrite Hc. by eexists.
Qed.
Next Obligation.
  intros u m Hr. destruct (sha256_final_spec _ (proj1 sha256_iv_words) _ _ PICOHASH_SHA256_DIGEST_LENGTH Hr) as (c & Hc & Hc').
  cbn [call_final]. unfold _picohash_sha256_final. rewrite Hc. by eexists.
Qed.

#[export, program] Instance sha224_fn_laws : HashFn W fn_sha224 fn_sha256 PICOHASH_SHA224_DIGEST_LENGTH := {|
  hash := sha224; ok u := length (sha_buf (_sha256 u)) = 64%nat; rep u m := sha256_rep (sha2_iv sha224_H) (_sha256 u) m
|}.
Next Obligation. done. Qed.
Next Obligation. intros m. apply (sha2_digest_size sha224_H 7). lia. Qed.
Next Obligation.
  intros u Hu. eexists. split; [reflexivity|]. cbn [_sha256 with_sha2]. rewrite sha224_iv_spec. by apply sha2_init_rep.
Qed.
Next Obligation.
  intros u m d Hr Hd Hz. destruct (sha256_update_rep _ (proj2 sha256_iv_words) _ _ _ Hr Hd Hz) as (c & Hc & Hc').
  cbn [call_update]. rewrite Hc. by eexists.
Qed.
Next Obligation.
  intros u m Hr. destruct (sha256_final_spec _ (proj2 sha256_iv_words) _ _ PICOHASH_SHA224_DIGEST_LENGTH Hr) as (c & Hc & Hc').
  cbn [call_final]. unfold _picohash_sha224_final. rewrite Hc. by eexists.
Qed.
End Algorithms.

(** ** Contexts of an algorithm *)

Section Generic.
Context {W : Z} {f g : fn} {digest : Z} `{H : !HashFn W f g digest}.

(** The context runs the algorithm, and HMAC if [h] is set. *)
Record runs_on (ctx : picohash_ctx_t) (h : bool) : Prop := {
  on_block : block_length ctx = 64;
  on_digest : digest_length ctx = digest;
  on_update : _update ctx = g;
  on_reset : (if h then hash_reset ctx else _reset ctx) = f;
  on_final : (if h then hash_final ctx else _final ctx) = f;
  on_hmac : h = true -> _final ctx = fn_hmac;
  on_key : length (hmac_key ctx) = 64%nat
}.

Lemma runs_on_union ctx h u : runs_on ctx h -> runs_on (with_union ctx u) h.
Proof. intros []. by split. Qed.

(** The function that sets a context up for the algorithm. *)
Definition sets_up (initf : picohash_ctx_t -> option picohash_ctx_t) : Prop :=
  forall ctx, ok f (hash_union ctx) -> length (hmac_key ctx) = 64%nat ->
    exists ctx', initf ctx = Some ctx' /\ runs_on ctx' false /\ rep f (hash_union ctx') [].

Lemma picohash_update_rep ctx h m d : runs_on ctx h -> rep f (hash_union ctx) m -> bytes d -> zlen (m ++ d) < 2 ^ 61 ->
  exists u, picohash_update W ctx d = Some (with_union ctx u) /\ rep f u (m ++ d).
Proof.
  intros Hon Hr Hd Hz. destruct (update_rep _ _ _ Hr Hd Hz) as (u & Hu & Hr'). exists u. split; [|done].
  unfold picohash_update. by rewrite (on_update _ _ Hon), Hu.
Qed.

(** Updates by parts. *)
Fixpoint picohash_updates (ctx : picohash_ctx_t) (parts : list (list Z)) : option picohash_ctx_t :=
  match parts with
  | [] => Some ctx
  | d :: parts => ctx ← picohash_update W ctx d; picohash_updates ctx parts
  end.

Lemma picohash_updates_rep parts ctx h m : runs_on ctx h -> rep f (hash_union ctx) m -> Forall (Forall is_byte) parts ->
  zlen (m ++ concat parts) < 2 ^ 61 ->
  exists u, picohash_updates ctx parts = Some (with_union ctx u) /\ rep f u (m ++ concat parts).
Proof.
  revert ctx m. induction parts as [|d parts IH]; intros ctx m Hon Hr Hp Hz; cbn [picohash_updates concat] in *.
  { exists (hash_union ctx). rewrite app_nil_r. split; [by destruct ctx|done]. }
  apply Forall_cons_1 in Hp as [Hd Hp]. rewrite app_assoc in Hz.
  destruct (picohash_update_rep ctx h m d Hon Hr Hd) as (u & Hu & Hr'); [rewrite zlen_app in Hz; pose proof (zlen_nonneg (concat parts)); lia|].
  rewrite (bind_known _ _ _ Hu).
  destruct (IH (with_union ctx u) (m ++ d)) as (u' & Hu' & Hr''); [by apply runs_on_union|done..|].
  exists u'. rewrite Hu'. split; [done|by rewrite app_assoc].
Qed.

Lemma final_by_rep ctx m : rep f (hash_union ctx) m ->
  exists u, final_by W f ctx = Some (with_union ctx u, hash f m) /\ ok f u.
Proof.
  intros Hr. destruct (final_rep _ _ Hr) as (u & Hu & Hok). exists u. split; [|done].
  unfold final_by. by rewrite (bind_known _ _ _ Hu).
Qed.

Lemma reset_by_rep ctx : ok f (hash_union ctx) ->
  exists u, reset_by f ctx = Some (with_union ctx u) /\ rep f u [].
Proof. intros Hok. destruct (reset_rep _ Hok) as (u & Hu & Hr). exists u. split; [|done]. unfold reset_by. by rewrite Hu. Qed.

(** A plain context ends with the digest. *)
Lemma picohash_final_rep ctx m : runs_on ctx false -> rep f (hash_union ctx) m ->
  exists u, picohash_final W ctx = Some (with_union ctx u, hash f m) /\ ok f u.
Proof.
  intros Hon Hr. destruct (final_by_rep ctx m Hr) as (u & Hu & Hok). exists u. split; [|done].
  unfold picohash_final. pose proof hash_base as Hb. pose proof (on_final _ _ Hon) as Hf. cbn in Hf. rewrite Hf. by destruct f.
Qed.

Lemma picohash_reset_rep ctx : runs_on ctx false -> ok f (hash_union ctx) ->
  exists u, picohash_reset W ctx = Some (with_union ctx u) /\ rep f u [].
Proof.
  intros Hon Hok. destruct (reset_by_rep ctx Hok) as (u & Hu & Hr). exists u. split; [|done].
  unfold picohash_reset. pose proof hash_base as Hb. pose proof (on_reset _ _ Hon) as Hf. cbn in Hf. rewrite Hf. by destruct f.
Qed.

(** ** HMAC *)

Definition masked (k : list Z) (delta : Z) : list Z := (fun b => b .^ delta) <$> k.

Lemma masked_bytes k delta : bytes k -> is_byte delta -> bytes (masked k delta).
Proof. intros Hk Hd. apply Forall_fmap. eapply Forall_impl; [|exact Hk]. intros b Hb. by apply lxor_byte. Qed.

Lemma xor_key_masked ctx h delta : runs_on ctx h -> xor_key ctx delta = with_hmac_key ctx (masked (hmac_key ctx) delta).
Proof.
  intros Hon. unfold xor_key. rewrite (on_block _ _ Hon), take_ge, drop_ge, app_nil_r by (rewrite (on_key _ _ Hon); lia). done.
Qed.

Lemma masked_twice k delta : masked (masked k delta) delta = k.
Proof.
  unfold masked. induction k as [|b k IH]; [done|]. by rewrite !fmap_cons, lxor_cancel, IH.
Qed.

Lemma apply_key_rep ctx h m delta : runs_on ctx h -> rep f (hash_union ctx) m -> bytes (hmac_key ctx) -> is_byte delta ->
  zlen m + 64 < 2 ^ 61 ->
  exists u, _picohash_hmac_apply_key W ctx delta = Some (with_union ctx u) /\ rep f u (m ++ masked (hmac_key ctx) delta).
Proof.
  intros Hon Hr Hk Hd Hz. unfold _picohash_hmac_apply_key. rewrite (xor_key_masked ctx h delta Hon).
  set (k := masked (hmac_key ctx) delta). assert (Hlk : length k = 64%nat) by (unfold k, masked; rewrite length_fmap; apply Hon).
  set (ctx1 := with_hmac_key ctx k). assert (Hon1 : runs_on ctx1 h) by (destruct Hon; by split).
  assert (Hl : load (hmac_key ctx1) 0 (block_length ctx1) = Some k).
  { rewrite (on_block _ _ Hon1). change 64 with (Z.of_nat 64). rewrite load_start by (cbn; lia). cbn [hmac_key ctx1 with_hmac_key].
    by rewrite take_ge by lia. }
  rewrite (bind_known _ _ _ Hl).
  destruct (picohash_update_rep ctx1 h m k Hon1 Hr) as (u & Hu & Hr'); [by apply masked_bytes|rewrite zlen_app; unfold zlen in *; lia|].
  rewrite (bind_known _ _ _ Hu). exists u. split; [|done].
  rewrite (xor_key_masked _ h) by (by apply runs_on_union). do 2 f_equal. cbn [hmac_key ctx1 with_union with_hmac_key].
  unfold k. rewrite masked_twice. by destruct ctx.
Qed.

Lemma hmac_final_rep ctx k m : runs_on ctx true -> hmac_key ctx = k -> bytes k -> rep f (hash_union ctx) (masked k 0x36 ++ m) ->
  zlen m + 64 < 2 ^ 61 -> digest < 2 ^ 60 ->
  exists ctx', picohash_final W ctx = Some (ctx', hash f (masked k 0x5c ++ hash f (masked k 0x36 ++ m))).
Proof.
  intros Hon Hk Hb Hr Hz Hdig. unfold picohash_final. rewrite (on_hmac _ _ Hon eq_refl). unfold _picohash_hmac_final.
  rewrite (on_final _ _ Hon : hash_final ctx = f). destruct (final_by_rep _ _ Hr) as (u & Hu & Hok). rewrite (bind_known _ _ _ Hu). cbv beta iota.
  assert (Hon1 : runs_on (with_union ctx u) true) by (by apply runs_on_union).
  rewrite (on_reset _ _ Hon1 : hash_reset (with_union ctx u) = f). destruct (reset_by_rep (with_union ctx u) Hok) as (u1 & Hu1 & Hr1).
  rewrite (bind_known _ _ _ Hu1). assert (Hon2 : runs_on (with_union (with_union ctx u) u1) true) by (by apply runs_on_union).
  destruct (apply_key_rep _ true [] 0x5c Hon2 Hr1) as (u2 & Hu2 & Hr2); [by cbn; rewrite Hk|unfold is_byte; lia|rewrite zlen_nil; lia|].
  rewrite (bind_known _ _ _ Hu2). cbn [hmac_key with_union app] in Hr2. rewrite Hk in Hr2.
  assert (Hon3 : runs_on (with_union (with_union (with_union ctx u) u1) u2) true) by (by apply runs_on_union).
  destruct (hash_digest (masked k 0x36 ++ m)) as [Hdl Hdb]. set (d := hash f (masked k 0x36 ++ m)) in *.
  assert (Hl : load d 0 (digest_length (with_union (with_union (with_union ctx u) u1) u2)) = Some d).
  { rewrite (on_digest _ _ Hon3), <- Hdl. unfold zlen. rewrite load_start, take_ge; done. }
  rewrite (bind_known _ _ _ Hl).
  assert (Hkl : zlen (masked k 0x5c) = 64) by (unfold masked, zlen; rewrite length_fmap, <- Hk, (on_key _ _ Hon); done).
  destruct (picohash_update_rep _ true _ d Hon3 Hr2 Hdb) as (u3 & Hu3 & Hr3); [rewrite zlen_app; lia|].
  rewrite (bind_known _ _ _ Hu3). rewrite (on_final _ _ (runs_on_union _ true u3 Hon3) : hash_final _ = f).
  destruct (final_by_rep (with_union (with_union (with_union (with_union ctx u) u1) u2) u3) _ Hr3) as (u4 & Hu4 & _).
  eexists. exact Hu4.
Qed.

Lemma store_key (m d : list Z) : length m = 64%nat -> (length d <= 64)%nat ->
  (exists i, m = replicate i 0) -> store m 0 d = Some (d ++ replicate (64 - length d) 0).
Proof.
  intros Hm Hd [i ->]. rewrite length_replicate in Hm. subst i. unfold store.
  rewrite (proj2 (in_bounds_true _ _ _)) by (unfold zlen; rewrite length_replicate; lia).
  cbn [Z.to_nat take app Nat.add]. by rewrite drop_replicate.
Qed.

Lemma init_hmac_rep initf ctx key : sets_up initf -> ok f (hash_union ctx) -> length (hmac_key ctx) = 64%nat ->
  bytes key -> zlen key < 2 ^ 61 -> digest <= 64 ->
  let k := hmac_block (hash f) key in
  exists ctx', picohash_init_hmac W ctx initf key = Some ctx' /\ runs_on ctx' true /\ hmac_key ctx' = k /\ bytes k /\
    rep f (hash_union ctx') (masked k 0x36).
Proof.
  intros Hinit Hok Hlk Hb Hz Hdig k. destruct (Hinit ctx Hok Hlk) as (c & Hc & Hon & Hr).
  unfold picohash_init_hmac. rewrite (bind_known _ _ _ Hc), (on_block _ _ Hon).
  change (Z.to_nat 64) with 64%nat.
  assert (Hs : store (hmac_key c) 0 (replicate 64 0) = Some (replicate 64 0)).
  { pose proof (on_key _ _ Hon) as Hl. unfold store. rewrite (proj2 (in_bounds_true _ _ _)) by (unfold zlen; rewrite length_replicate, Hl; lia).
    rewrite length_replicate, drop_ge, app_nil_r by (cbn [Z.to_nat Nat.add]; lia). done. }
  rewrite (bind_known _ _ _ Hs). set (c1 := with_hmac_key c (replicate 64 0)).
  assert (Hon1 : runs_on c1 false) by (destruct Hon; by split). assert (Hr1 : rep f (hash_union c1) []) by exact Hr.
  change (block_length c1) with (block_length c). rewrite (on_block _ _ Hon).
  assert (Hkb : bytes k).
  { unfold k, hmac_block. apply Forall_app. split; [|apply Forall_replicate; unfold is_byte; lia]. case_if; [apply hash_digest|done]. }
  assert (Hgo : exists u, ((if 64 <? zlen key
      then ctx ← picohash_update W c1 key; '(ctx, d) ← picohash_final W ctx; k ← store (hmac_key ctx) 0 d; picohash_reset W (with_hmac_key ctx k)
      else k ← store (hmac_key c1) 0 key; Some (with_hmac_key c1 k)) = Some (with_union (with_hmac_key c1 k) u)) /\ rep f u []).
  { unfold k, hmac_block. destruct (64 <? zlen key) eqn:E; bool_to_prop.
    - destruct (picohash_update_rep c1 false [] key Hon1 Hr1 Hb) as (u & Hu & Hru); [done|]. rewrite (bind_known _ _ _ Hu).
      destruct (picohash_final_rep (with_union c1 u) key (runs_on_union _ _ _ Hon1) Hru) as (u1 & Hu1 & Hok1).
      rewrite (bind_known _ _ _ Hu1). cbv beta iota. cbn [hmac_key with_union with_hmac_key c1].
      destruct (hash_digest key) as [Hdl _]. unfold zlen in Hdl.
      assert (Hst : store (replicate 64 0) 0 (hash f key) = Some (hash f key ++ replicate (64 - length (hash f key)) 0))
        by (apply store_key; [done|lia|by exists 64%nat]).
      rewrite (bind_known _ _ _ Hst). set (k' := hash f key ++ _).
      assert (Hlk' : length k' = 64%nat) by (unfold k'; rewrite length_app, length_replicate; lia).
      destruct (picohash_reset_rep (with_hmac_key (with_union (with_union c1 u) u1) k')) as (u2 & Hu2 & Hr2).
      { destruct Hon; by split. } { exact Hok1. } exists u2. split; [|done]. rewrite Hu2. done.
    - unfold zlen in E. assert (Hst : store (hmac_key c1) 0 key = Some (key ++ replicate (64 - length key) 0))
        by (apply store_key; [done|lia|by exists 64%nat]).
      rewrite (bind_known _ _ _ Hst). exists (hash_union c1). split; [|done]. done. }
  destruct Hgo as (u & Hu & Hru). rewrite (bind_known _ _ _ Hu).
  assert (Hlk2 : length k = 64%nat).
  { unfold k, hmac_block. rewrite length_app, length_replicate. case_if; [destruct (hash_digest key) as [Hdl _]|]; unfold zlen in *; lia. }
  match goal with |- exists ctx', _picohash_hmac_apply_key W ?c2 _ = _ /\ _ => set (c3 := c2) end.
  assert (Hon3 : runs_on c3 true) by (destruct Hon; by split).
  destruct (apply_key_rep c3 true [] 0x36 Hon3 Hru Hkb) as (u3 & Hu3 & Hr3); [unfold is_byte; lia|rewrite zlen_nil; lia|].
  eexists. split; [exact Hu3|]. split; [by apply runs_on_union|]. split; [done|]. split; [done|exact Hr3].
Qed.

(** The digest of a message given by parts, and the HMAC of a message. *)
Definition hash_parts (initf : picohash_ctx_t -> option picohash_ctx_t) (ctx : picohash_ctx_t) (parts : list (list Z)) : option (list Z) :=
  ctx ← initf ctx;
  ctx ← picohash_updates ctx parts;
  '(_, d) ← picohash_final W ctx;
  Some d.

Lemma hash_parts_spec initf ctx parts : sets_up initf -> ok f (hash_union ctx) -> length (hmac_key ctx) = 64%nat ->
  Forall (Forall is_byte) parts -> zlen (concat parts) < 2 ^ 61 -> hash_parts initf ctx parts = Some (hash f (concat parts)).
Proof.
  intros Hinit Hok Hlk Hp Hz. destruct (Hinit ctx Hok Hlk) as (c & Hc & Hon & Hr). unfold hash_parts. rewrite (bind_known _ _ _ Hc).
  destruct (picohash_updates_rep parts c false [] Hon Hr Hp Hz) as (u & Hu & Hru). rewrite (bind_known _ _ _ Hu).
  destruct (picohash_final_rep (with_union c u) (concat parts) (runs_on_union _ _ _ Hon) Hru) as (u1 & Hu1 & _).
  by rewrite (bind_known _ _ _ Hu1).
Qed.

Lemma hash_with_spec initf ctx msg : sets_up initf -> ok f (hash_union ctx) -> length (hmac_key ctx) = 64%nat ->
  bytes msg -> zlen msg < 2 ^ 61 -> hash_with W initf ctx msg = Some (hash f msg).
Proof.
  intros Hinit Hok Hlk Hp Hz. pose proof (hash_parts_spec initf ctx [msg] Hinit Hok Hlk) as Hs. cbn [concat] in Hs. rewrite app_nil_r in Hs.
  rewrite <- Hs; [|by constructor|done]. unfold hash_parts, hash_with. destruct (initf ctx) as [c|]; [|done].
  cbn [mbind option_bind picohash_updates]. by destruct (picohash_update W c msg).
Qed.

Lemma hmac_with_spec initf ctx key msg : sets_up initf -> ok f (hash_union ctx) -> length (hmac_key ctx) = 64%nat ->
  bytes key -> zlen key < 2 ^ 61 -> bytes msg -> zlen msg + 64 < 2 ^ 61 -> digest <= 64 ->
  hash_with W (fun ctx => picohash_init_hmac W ctx initf key) ctx msg = Some (hmac (hash f) msg key).
Proof.
  intros Hinit Hok Hlk Hkb Hkz Hb Hz Hdig.
  destruct (init_hmac_rep initf ctx key Hinit Hok Hlk Hkb Hkz Hdig) as (c & Hc & Hon & Hk & Hbk & Hr).
  unfold hash_with. rewrite (bind_known _ _ _ Hc). unfold hmac. set (k := hmac_block (hash f) key) in *.
  assert (Hml : zlen (masked k 0x36) = 64) by (unfold masked, zlen; rewrite length_fmap, <- Hk, (on_key _ _ Hon); done).
  destruct (picohash_update_rep c true _ msg Hon Hr Hb) as (u & Hu & Hru); [rewrite zlen_app; lia|]. rewrite (bind_known _ _ _ Hu).
  destruct (hmac_final_rep (with_union c u) k msg (runs_on_union _ _ _ Hon) Hk Hbk Hru) as (c' & Hc'); [lia|lia|].
  by rewrite (bind_known _ _ _ Hc').
Qed.
End Generic.

(** ** The functions of the library *)

(** The context on the stack has its arrays. *)
Record stack_ok (ctx : picohash_ctx_t) : Prop := {
  stack_md5 : length (md5_buffer (_md5 (hash_union ctx))) = 64%nat;
  stack_sha1 : length (sha1_buffer (_sha1 (hash_union ctx))) = 64%nat;
  stack_sha256 : length (sha_buf (_sha256 (hash_union ctx))) = 64%nat;
  stack_key : length (hmac_key ctx) = 64%nat
}.

Section Library.
Context (W : Z) (HW : 32 <= W).

Lemma init_sets_up f g block digest `{H : !HashFn W f g digest} : block = 64 ->
  sets_up (H := H) (fun ctx => init_with ctx block digest f g).
Proof.
  intros -> ctx Hok Hk. destruct (reset_rep _ Hok) as (u & Hu & Hr). unfold init_with. rewrite (bind_known _ _ _ Hu).
  eexists. split; [reflexivity|]. split; [by split|done].
Qed.

(** C27: the incremental hash functions compute the standard ones: whatever is on the
    stack, however the message is cut into parts and whether [uint_fast32_t] has 32 or
    64 bits, setting a context up, updating it with the parts and finalising it stays
    within the buffers and gives the MD5, SHA-1, SHA-224 or SHA-256 digest of the
    message, as the standards define it. *)
Theorem picohash_incremental_correct ctx parts : stack_ok ctx -> Forall (Forall is_byte) parts -> zlen (concat parts) < 2 ^ 61 ->
  hash_parts (W := W) picohash_init_md5 ctx parts = Some (md5 (concat parts)) /\
  hash_parts (W := W) picohash_init_sha1 ctx parts = Some (sha1 (concat parts)) /\
  hash_parts (W := W) picohash_init_sha224 ctx parts = Some (sha224 (concat parts)) /\
  hash_parts (W := W) picohash_init_sha256 ctx parts = Some (sha256 (concat parts)).
Proof using HW.
  intros [H5 H1 H2 Hk] Hp Hz. split_and!.
  - apply (hash_parts_spec (H := md5_fn_laws W HW)); [by apply init_sets_up|done..].
  - apply (hash_parts_spec (H := sha1_fn_laws W)); [by apply init_sets_up|done..].
  - apply (hash_parts_spec (H := sha224_fn_laws W)); [by apply init_sets_up|done..].
  - apply (hash_parts_spec (H := sha256_fn_laws W)); [by apply init_sets_up|done..].
Qed.

(** C10: the hash functions and the HMACs that the library uses for messages and
    passwords return, for every message and key of bytes, the standard MD5, SHA-1,
    SHA-256, HMAC-SHA1 and HMAC-SHA256: a key longer than a block is hashed first,
    and a shorter one is padded. *)
Theorem juice_hashes_correct ctx msg key : stack_ok ctx -> bytes msg -> bytes key -> zlen msg + 64 < 2 ^ 61 -> zlen key < 2 ^ 61 ->
  juice_hash_md5 W ctx msg = Some (md5 msg) /\ juice_hash_sha1 W ctx msg = Some (sha1 msg) /\
  juice_hash_sha256 W ctx msg = Some (sha256 msg) /\ hmac_sha1 W ctx msg key = Some (hmac sha1 msg key) /\
  hmac_sha256 W ctx msg key = Some (hmac sha256 msg key).
Proof using HW.
  intros [H5 H1 H2 Hk] Hb Hkb Hz Hkz. assert (Hz' : zlen msg < 2 ^ 61) by lia. split_and!.
  - apply (hash_with_spec (H := md5_fn_laws W HW)); [by apply init_sets_up|done..].
  - apply (hash_with_spec (H := sha1_fn_laws W)); [by apply init_sets_up|done..].
  - apply (hash_with_spec (H := sha256_fn_laws W)); [by apply init_sets_up|done..].
  - apply (hmac_with_spec (H := sha1_fn_laws W)); [by apply init_sets_up|done..].
  - apply (hmac_with_spec (H := sha256_fn_laws W)); [by apply init_sets_up|done..].
Qed.
End Library.

(** ** Examples *)

(** A stack full of other data. *)
Definition example_stack : picohash_ctx_t :=
  {| hash_union :=
       {| _md5 := {| md5_lo := 5; md5_hi := 6; md5_abcd := {| st_a := 1; st_b := 2; st_c := 3; st_d := 4 |};
                     md5_buffer := replicate 64 7 |};
          _sha1 := {| sha1_buffer := replicate 64 8; sha1_state := [1; 2; 3]; byteCount := 4; bufferOffset := 77 |};
          _sha256 := {| sha_length := 4; sha_state := []; curlen := 555; sha_buf := replicate 64 9 |} |};
     block_length := 3; digest_length := 4; _reset := fn_sha1; _update := fn_md5; _final := fn_hmac;
     hmac_key := replicate 64 10; hash_reset := fn_md5; hash_final := fn_hmac |}.

Lemma example_stack_ok : stack_ok example_stack.
Proof. by split. Qed.

Definition example_parts : list (list Z) := [str "ab"; []; str "c"].

Lemma example_parts_bytes : Forall (Forall is_byte) example_parts /\ bytes (str "abc") /\ bytes (str "key").
Proof. split; [repeat constructor; by vm_compute|split; apply bytes_forallb; by vm_compute]. Qed.

(** The digests of RFC 1321 and FIPS 180-4 for the message abc. *)
Lemma abc_digests : unbe (md5 (str "abc")) = 0x900150983cd24fb0d6963f7d28e17f72 /\
  unbe (sha1 (str "abc")) = 0xa9993e364706816aba3e25717850c26c9cd0d89d /\
  unbe (sha224 (str "abc")) = 0x23097d223405d8228642a477bda255b32aadbce4bda0b3f7e36c9da7 /\
  unbe (sha256 (str "abc")) = 0xba7816bf8f01cfea414140de5dae2223b00361a396177a9cb410ff61f20015ad.
Proof. split_and!; by vm_compute. Qed.

Lemma picohash_incremental_correct_witness : exists d,
  hash_parts (W := 64) picohash_init_md5 example_stack example_parts = Some d /\ unbe d = 0x900150983cd24fb0d6963f7d28e17f72.
Proof.
  destruct (picohash_incremental_correct 64 ltac:(lia) example_stack example_parts example_stack_ok
              (proj1 example_parts_bytes) ltac:(by vm_compute)) as [Hm _].
  exists (md5 (str "abc")). split; [exact Hm|exact (proj1 abc_digests)].
Defined.

Lemma juice_hashes_correct_witness : exists d,
  juice_hash_sha256 32 example_stack (str "abc") = Some d /\
  unbe d = 0xba7816bf8f01cfea414140de5dae2223b00361a396177a9cb410ff61f20015ad.
Proof.
  destruct (juice_hashes_correct 32 ltac:(lia) example_stack (str "abc") (str "key") example_stack_ok
              (proj1 (proj2 example_parts_bytes)) (proj2 (proj2 example_parts_bytes)) ltac:(by vm_compute) ltac:(by vm_compute))
    as (_ & _ & Hs & _).
  exists (sha256 (str "abc")). split; [exact Hs|exact (proj2 (proj2 (proj2 abc_digests)))].
Defined.
