(* ===== verification/Addr.v ===== *)
(** * Socket addresses (src/addr.c, src/addr.h)

    A [struct sockaddr] is a tagged union: the family selects the IPv4 or the
    IPv6 layout.  Ports are kept as the code keeps them, as the raw [uint16_t]
    in network byte order on a little-endian host.  [sin6_flowinfo] and
    [sin6_scope_id] are left out: no modelled function reads them.  The name
    service calls [getnameinfo] and [getaddrinfo] are parameters. *)

From S2P Require Import Prelude CText.

(** ** Data *)

(** Linux constants. *)
Definition AF_UNSPEC : Z := 0.
Definition AF_INET : Z := 2.
Definition AF_INET6 : Z := 10.
Definition SOCK_STREAM : Z := 1.
Definition SOCK_DGRAM : Z := 2.
Definition sizeof_sockaddr_in : Z := 16.
Definition sizeof_sockaddr_in6 : Z := 28.

Definition ADDR_MAX_NUMERICHOST_LEN : Z := 56.
Definition ADDR_MAX_NUMERICSERV_LEN : Z := 8.
Definition ADDR_MAX_STRING_LEN : Z := 64.

Inductive sockaddr :=
| Sin (sin_port : Z) (sin_addr : list Z)
| Sin6 (sin6_port : Z) (sin6_addr : list Z)
| SaOther (sa_family : Z).

Definition sa_family (sa : sockaddr) : Z :=
  match sa with
  | Sin _ _ => AF_INET
  | Sin6 _ _ => AF_INET6
  | SaOther f => f
  end.

(** The shapes the union can have in memory. *)
Definition sockaddr_wf (sa : sockaddr) : Prop :=
  match sa with
  | Sin port a => 0 <= port < 65536 /\ bytes a /\ length a = 4%nat
  | Sin6 port a => 0 <= port < 65536 /\ bytes a /\ length a = 16%nat
  | SaOther f => 0 <= f < 65536 /\ f <> AF_INET /\ f <> AF_INET6
  end.

Record addr_record_t := {
  addr : sockaddr;
  len : Z;
  socktype : Z
}.

(** A record cleared by [memset]. *)
Definition addr_record_zero : addr_record_t :=
  {| addr := SaOther AF_UNSPEC; len := 0; socktype := 0 |}.

#[global] Instance sockaddr_eq_dec : EqDecision sockaddr.
Proof. solve_decision. Defined.
#[global] Instance addr_record_eq_dec : EqDecision addr_record_t.
Proof. solve_decision. Defined.

(** ** Operations on addresses *)

Definition addr_get_len (sa : sockaddr) : Z :=
  match sa with
  | Sin _ _ => sizeof_sockaddr_in
  | Sin6 _ _ => sizeof_sockaddr_in6
  | SaOther _ => 0
  end.

(** [ntohs] of the stored port. *)
Definition addr_get_port (sa : sockaddr) : Z :=
  match sa with
  | Sin port _ | Sin6 port _ => bswap16 port
  | SaOther _ => 0
  end.

(** Returns the result code and the updated address. *)
Definition addr_set_port (sa : sockaddr) (port : Z) : Z * sockaddr :=
  match sa with
  | Sin _ a => (0, Sin (bswap16 port) a)
  | Sin6 _ a => (0, Sin6 (bswap16 port) a)
  | SaOther _ => (-1, sa)
  end.

Definition byte_at (a : list Z) (i : nat) : Z := nth i a 0.
Definition all_zero (l : list Z) : bool := forallb (fun b => b =? 0) l.

(** The [IN6_IS_ADDR_*] tests of the socket headers. *)
Definition IN6_IS_ADDR_V4MAPPED (a : list Z) : bool :=
  all_zero (take 10 a) && (byte_at a 10 =? 0xFF) && (byte_at a 11 =? 0xFF).
Definition IN6_IS_ADDR_LOOPBACK (a : list Z) : bool :=
  all_zero (take 15 a) && (byte_at a 15 =? 1).
Definition IN6_IS_ADDR_LINKLOCAL (a : list Z) : bool :=
  (byte_at a 0 =? 0xFE) && ((byte_at a 1 .& 0xC0) =? 0x80).

Definition addr_is_any (sa : sockaddr) : bool :=
  match sa with
  | Sin _ b => all_zero (take 4 b)
  | Sin6 _ a =>
      if IN6_IS_ADDR_V4MAPPED a then all_zero (take 4 (drop 12 a)) else all_zero (take 16 a)
  | SaOther _ => false
  end.

(** The test both IPv4 branches of [addr_is_local] make. *)
Definition is_local4 (b : list Z) : bool :=
  if byte_at b 0 =? 127 then true
  else (byte_at b 0 =? 169) && (byte_at b 1 =? 254).

Definition addr_is_local (sa : sockaddr) : bool :=
  match sa with
  | Sin _ b => is_local4 b
  | Sin6 _ a =>
      if IN6_IS_ADDR_LOOPBACK a then true
      else if IN6_IS_ADDR_LINKLOCAL a then true
      else if IN6_IS_ADDR_V4MAPPED a then is_local4 (drop 12 a)
      else false
  | SaOther _ => false
  end.

(** Both conversions return whether they applied, the address and the length. *)
Definition addr_unmap_inet6_v4mapped (sa : sockaddr) (len : Z) : bool * sockaddr * Z :=
  match sa with
  | Sin6 port a =>
      if IN6_IS_ADDR_V4MAPPED a
      then (true, Sin port (take 4 (drop 12 a)), sizeof_sockaddr_in)
      else (false, sa, len)
  | _ => (false, sa, len)
  end.

Definition addr_map_inet6_v4mapped (ss : sockaddr) (len : Z) : bool * sockaddr * Z :=
  match ss with
  | Sin port a =>
      (true, Sin6 port (replicate 10 0 ++ [0xFF; 0xFF] ++ take 4 a), sizeof_sockaddr_in6)
  | _ => (false, ss, len)
  end.

Definition addr_is_equal (a b : sockaddr) (compare_ports : bool) : bool :=
  match a, b with
  | Sin pa aa, Sin pb ab =>
      if negb (bool_decide (take 4 aa = take 4 ab)) then false
      else if compare_ports && negb (pa =? pb) then false
      else true
  | Sin6 pa aa, Sin6 pb ab =>
      if negb (bool_decide (take 16 aa = take 16 ab)) then false
      else if compare_ports && negb (pa =? pb) then false
      else true
  | _, _ => false
  end.

(** ** Printing *)

(** What [getnameinfo] returns for an address: the host and service strings, or
    a failure. *)
Definition getnameinfo_t := sockaddr -> option (list Z * list Z).

Definition addr_to_string (getnameinfo : getnameinfo_t) (sa : sockaddr) (size : Z)
  : Z * option (list Z) :=
  let error := (-1, snd (snprintf size (str "?"))) in
  if addr_get_len sa =? 0 then error
  else match getnameinfo sa with
  | None => error
  | Some (host, service) =>
      let '(n, buffer) := snprintf size (host ++ str ":" ++ service) in
      if (n <? 0) || (size <=? n) then error else (n, buffer)
  end.

(** ** Hashing *)

Definition DJB2_INIT : Z := 5381.
Definition djb2 (hash i : Z) : Z := u64 (u64 (hash .<< 5) + hash + i).

Definition addr_hash (sa : sockaddr) (with_port : bool) : Z :=
  let hash := djb2 DJB2_INIT (sa_family sa) in
  match sa with
  | Sin port a =>
      let hash := fold_left djb2 (take 4 a) hash in
      if with_port then djb2 (djb2 hash (port .>> 8)) (port .& 0xFF) else hash
  | Sin6 port a =>
      let hash := fold_left djb2 (take 16 a) hash in
      if with_port then djb2 (djb2 hash (port .>> 8)) (port .& 0xFF) else hash
  | SaOther _ => hash
  end.

(** ** Resolution *)

(** One element of the list [getaddrinfo] returns; its [ai_family] is the
    family of its address. *)
Record addrinfo := { ai_socktype : Z; ai_addr : sockaddr; ai_addrlen : Z }.

Fixpoint addr_resolve_loop (ai_list : list addrinfo) (socktype : Z) (room : nat) (ret : Z)
  : Z * list addr_record_t :=
  match ai_list with
  | [] => (ret, [])
  | ai :: ais =>
      if (sa_family (ai_addr ai) =? AF_INET) || (sa_family (ai_addr ai) =? AF_INET6) then
        match room with
        | O => addr_resolve_loop ais socktype O (ret + 1)
        | S room' =>
            let '(r, recs) := addr_resolve_loop ais socktype room' (ret + 1) in
            (r, {| addr := ai_addr ai; len := ai_addrlen ai; socktype := socktype |} :: recs)
        end
      else addr_resolve_loop ais socktype room ret
  end.

(** The count of usable addresses, which may exceed [count], and the records
    written; [getaddrinfo] failing is [None]. *)
Definition addr_resolve (getaddrinfo : list Z -> list Z -> Z -> option (list addrinfo))
    (hostname service : list Z) (socktype : Z) (count : nat) : Z * list addr_record_t :=
  match getaddrinfo hostname service socktype with
  | None => (-1, [])
  | Some ai_list => addr_resolve_loop ai_list socktype count 0
  end.

(** The resolver is called for the service 9 without looking names up. *)
Definition addr_is_numeric_hostname (getaddrinfo : list Z -> list Z -> Z -> option (list addrinfo))
    (hostname : list Z) : bool :=
  match getaddrinfo hostname [57] SOCK_DGRAM with None => false | Some _ => true end.

(** ** Records *)

Definition addr_record_is_equal (a b : addr_record_t) (compare_ports : bool) : bool :=
  addr_is_equal (addr a) (addr b) compare_ports && (socktype a =? socktype b).

Definition addr_record_to_string (getnameinfo : getnameinfo_t) (record : addr_record_t) (size : Z) :=
  addr_to_string getnameinfo (addr record) size.

Definition addr_record_hash (record : addr_record_t) (with_port : bool) : Z :=
  u64 (addr_hash (addr record) with_port + (if socktype record =? SOCK_DGRAM then 0 else 1)).

(** Two records the code treats as the same peer. *)
Definition same_record (compare_ports : bool) (a b : addr_record_t) : Prop :=
  addr_record_is_equal a b compare_ports = true.
#[global] Instance same_record_dec p a b : Decision (same_record p a b).
Proof. unfold same_record. apply _. Defined.


(** ** Equality of addresses *)

Lemma addr_is_equal_spec (a b : sockaddr) (p : bool) :
  addr_is_equal a b p = true <->
  match a, b with
  | Sin pa aa, Sin pb ab => take 4 aa = take 4 ab /\ (p = true -> pa = pb)
  | Sin6 pa aa, Sin6 pb ab => take 16 aa = take 16 ab /\ (p = true -> pa = pb)
  | _, _ => False
  end.
Proof.
  destruct a, b; cbn [addr_is_equal]; try done;
    (case_bool_decide; cbn [negb]; [|intuition congruence]);
    destruct p; cbn [andb]; try (intuition congruence);
    case_if; intuition congruence || lia.
Qed.

#[global] Instance same_record_sym p : Symmetric (same_record p).
Proof.
  intros a b. unfold same_record, addr_record_is_equal.
  rewrite !andb_true_iff, !addr_is_equal_spec, !Z.eqb_eq.
  destruct (addr a), (addr b); intuition congruence.
Qed.

#[global] Instance same_record_trans p : Transitive (same_record p).
Proof.
  intros a b c. unfold same_record, addr_record_is_equal.
  rewrite !andb_true_iff, !addr_is_equal_spec, !Z.eqb_eq.
  destruct (addr a), (addr b), (addr c); intuition congruence.
Qed.

(** A record equals itself exactly when its family is a known one. *)
Lemma same_record_refl p a :
  (forall f, addr a <> SaOther f) -> same_record p a a.
Proof.
  intros H. unfold same_record, addr_record_is_equal.
  rewrite andb_true_iff, addr_is_equal_spec, Z.eqb_eq.
  destruct (addr a); [done|done|by edestruct H].
Qed.

(** Ignoring ports is coarser than comparing them. *)
Lemma same_record_weaken a b : same_record true a b -> same_record false a b.
Proof.
  unfold same_record, addr_record_is_equal.
  rewrite !andb_true_iff, !addr_is_equal_spec.
  destruct (addr a), (addr b); intuition congruence.
Qed.

(** The hash is a function of what the comparison looks at. *)
#[global] Instance addr_record_hash_proper p :
  Proper (same_record p ==> eq) (fun r => addr_record_hash r p).
Proof.
  intros a b H. unfold same_record, addr_record_is_equal in H.
  apply andb_true_iff in H as [H Hs]. apply Z.eqb_eq in Hs.
  apply addr_is_equal_spec in H. unfold addr_record_hash. rewrite Hs. f_equal. f_equal.
  destruct (addr a), (addr b); try done; destruct H as [H Hp];
    unfold addr_hash; rewrite H; destruct p; try rewrite Hp by done; done.
Qed.

Lemma addr_record_hash_bound r p : 0 <= addr_record_hash r p < 2 ^ 64.
Proof. unfold addr_record_hash, u64. apply Z.mod_pos_bound. lia. Qed.

(** ** Mapped addresses *)

Lemma map_is_mapped (a : list Z) :
  IN6_IS_ADDR_V4MAPPED (replicate 10 0 ++ [0xFF; 0xFF] ++ a) = true.
Proof. done. Qed.

Lemma all_zero_spec (l : list Z) : all_zero l = true <-> l = replicate (length l) 0.
Proof.
  unfold all_zero. induction l as [|x l IH]; [done|]. cbn [forallb length replicate].
  rewrite andb_true_iff, Z.eqb_eq, IH. split; [intros [-> ->]|intros [= -> ->]].
  - by rewrite length_replicate.
  - by rewrite !length_replicate.
Qed.

Lemma mapped_shape (a : list Z) :
  length a = 16%nat -> IN6_IS_ADDR_V4MAPPED a = true ->
  a = replicate 10 0 ++ [0xFF; 0xFF] ++ drop 12 a.
Proof.
  intros Hl H. unfold IN6_IS_ADDR_V4MAPPED in H. bool_to_prop.
  match goal with H : all_zero _ = true |- _ => apply all_zero_spec in H end.
  do 16 (destruct a as [|? a]; [done|]). destruct a; [|done].
  cbn in *. simplify_eq. done.
Qed.

(** ** Resolution and printing *)

Lemma addr_resolve_loop_spec ais st room ret0 :
  let '(ret, recs) := addr_resolve_loop ais st room ret0 in
  ret0 <= ret /\ zlen recs = Z.min (ret - ret0) (Z.of_nat room) /\
  Forall (fun r => socktype r = st /\
    (sa_family (addr r) = AF_INET \/ sa_family (addr r) = AF_INET6)) recs.
Proof.
  revert room ret0; induction ais as [|ai ais IH]; intros room ret0.
  { cbn. split; [lia|]. split; [zlia|constructor]. }
  cbn [addr_resolve_loop]. case_if; [|apply IH].
  destruct room as [|room].
  - specialize (IH O (ret0 + 1)). destruct (addr_resolve_loop ais st 0 (ret0 + 1)) as [r recs].
    destruct IH as (H1 & H2 & H3). split_and!; [lia|lia|done].
  - specialize (IH room (ret0 + 1)).
    destruct (addr_resolve_loop ais st room (ret0 + 1)) as [r recs].
    destruct IH as (H1 & H2 & H3). rewrite zlen_cons. split_and!; [lia|lia|].
    constructor; [|done]. cbn. split; [done|].
    rewrite !Z.eqb_eq in E. exact E.
Qed.

(** ** Theorems *)

(** Records that compare equal hash to the same bucket, with and without
    ports; this is what makes the open-addressing TURN table find its
    entries. *)
Theorem addr_record_hash_consistent (a b : addr_record_t) (with_port : bool) :
  addr_record_is_equal a b with_port = true ->
  addr_record_hash a with_port = addr_record_hash b with_port.
Proof. exact (addr_record_hash_proper with_port a b). Qed.

(** Mapping an IPv4 address into IPv6 and back is the identity, and
    unmapping an IPv4-mapped IPv6 address and mapping it again is too, lengths
    included; both conversions keep the port and the local and wildcard
    classification. *)
Theorem addr_v4mapped_roundtrip (sa : sockaddr) (len : Z) :
  sockaddr_wf sa ->
  (sa_family sa = AF_INET ->
     exists sa6, addr_map_inet6_v4mapped sa len = (true, sa6, sizeof_sockaddr_in6) /\
       sockaddr_wf sa6 /\ addr_get_port sa6 = addr_get_port sa /\
       addr_is_local sa6 = addr_is_local sa /\ addr_is_any sa6 = addr_is_any sa /\
       addr_unmap_inet6_v4mapped sa6 sizeof_sockaddr_in6 = (true, sa, sizeof_sockaddr_in)) /\
  (forall sa4 l4, addr_unmap_inet6_v4mapped sa len = (true, sa4, l4) ->
     sockaddr_wf sa4 /\ l4 = sizeof_sockaddr_in /\
     addr_map_inet6_v4mapped sa4 l4 = (true, sa, sizeof_sockaddr_in6)).
Proof.
  intros Hwf. split.
  - destruct sa as [port a| |f]; cbn [sa_family]; [|done|intros ->; by destruct Hwf as (_ & ? & _)].
    intros _. destruct Hwf as (Hp & Hb & Hl).
    do 4 (destruct a as [|? a]; [done|]). destruct a; [|done].
    eexists. split; [done|]. cbn. repeat split; try done; try lia.
    repeat (constructor; [unfold is_byte; lia|]). done.
  - intros sa4 l4. destruct sa as [|port a|]; cbn [addr_unmap_inet6_v4mapped]; try done.
    destruct (IN6_IS_ADDR_V4MAPPED a) eqn:E; [|done]. intros [= <- <-].
    destruct Hwf as (Hp & Hb & Hl). pose proof (mapped_shape a Hl E) as Ha.
    assert (Hd : length (drop 12 a) = 4%nat) by (rewrite length_drop; lia).
    assert (Ht : take 4 (drop 12 a) = drop 12 a) by (apply take_ge; lia).
    rewrite Ht. cbn [addr_map_inet6_v4mapped]. rewrite Ht, <- Ha.
    repeat split; try lia; try done. by apply Forall_drop.
Qed.

(** [addr_resolve] never writes more records than it was given room for,
    writes all of them when they fit, and every record it writes is an IPv4 or
    IPv6 address of the requested socket type. *)
Theorem addr_resolve_bounded getaddrinfo hostname service st (count : nat) :
  let '(ret, records) := addr_resolve getaddrinfo hostname service st count in
  zlen records = Z.min (Z.max 0 ret) (Z.of_nat count) /\
  Forall (fun r => socktype r = st /\
    (sa_family (addr r) = AF_INET \/ sa_family (addr r) = AF_INET6)) records.
Proof.
  unfold addr_resolve. destruct (getaddrinfo hostname service st) as [ais|].
  - pose proof (addr_resolve_loop_spec ais st count 0) as H.
    destruct (addr_resolve_loop ais st count 0) as [r recs]. destruct H as (Hr & Hl & Hf).
    split; [lia|done].
  - split; [zlia|constructor].
Qed.

(** In a buffer of ADDR_MAX_STRING_LEN bytes an address is always printed
    in full when the name service respects the lengths it is given; whatever
    happens, a nonempty buffer is left holding a terminated string. *)
Theorem addr_to_string_fits (getnameinfo : getnameinfo_t) (sa : sockaddr) (size : Z) :
  (forall host service, getnameinfo sa = Some (host, service) ->
     zlen host < ADDR_MAX_NUMERICHOST_LEN /\ zlen service < ADDR_MAX_NUMERICSERV_LEN) ->
  0 < size ->
  (exists s, snd (addr_to_string getnameinfo sa size) = Some s /\ zlen s < size) /\
  (forall host service, ADDR_MAX_STRING_LEN <= size -> addr_get_len sa <> 0 ->
     getnameinfo sa = Some (host, service) ->
     addr_to_string getnameinfo sa size
     = (zlen host + 1 + zlen service, Some (host ++ str ":" ++ service))).
Proof.
  intros Hg Hs. unfold addr_to_string. split.
  - pose proof (snprintf_fits size (str "?") Hs) as He.
    repeat case_if; cbn [snd]; try done.
    destruct (getnameinfo sa) as [[host service]|]; [|done].
    pose proof (snprintf_fits size (host ++ str ":" ++ service) Hs) as Hn.
    destruct (snprintf size (host ++ str ":" ++ service)) as [n b]. by case_if.
  - intros host service Hsz Hlen Hn. specialize (Hg _ _ Hn) as [Hh Hv].
    unfold ADDR_MAX_NUMERICHOST_LEN, ADDR_MAX_NUMERICSERV_LEN, ADDR_MAX_STRING_LEN in *.
    rewrite (proj2 (Z.eqb_neq _ _)), Hn by done. unfold snprintf.
    rewrite !zlen_app. change (zlen (str ":")) with 1.
    pose proof (zlen_nonneg host). pose proof (zlen_nonneg service).
    rewrite (proj2 (Z.ltb_lt 0 size)) by done.
    rewrite (proj2 (Z.ltb_ge _ 0)), (proj2 (Z.leb_gt _ _)) by lia. cbn [orb].
    f_equal; [lia|]. f_equal. apply take_ge. rewrite !length_app.
    change (length (str ":")) with 1%nat. unfold zlen in *. lia.
Qed.

Lemma addr_record_hash_consistent_witness :
  addr_record_hash {| addr := Sin 80 [10; 0; 0; 1]; len := 16; socktype := 2 |} false
  = addr_record_hash {| addr := Sin 53 [10; 0; 0; 1]; len := 16; socktype := 2 |} false.
Proof. apply addr_record_hash_consistent. by vm_compute. Defined.

Lemma addr_v4mapped_roundtrip_witness :
  sockaddr_wf (Sin 80 [127; 0; 0; 1]) /\
  exists sa6, addr_map_inet6_v4mapped (Sin 80 [127; 0; 0; 1]) 16 = (true, sa6, 28) /\
    addr_is_local sa6 = true.
Proof.
  assert (H : sockaddr_wf (Sin 80 [127; 0; 0; 1]))
    by (repeat split; try lia; repeat constructor; unfold is_byte; lia).
  split; [done|].
  destruct (proj1 (addr_v4mapped_roundtrip _ 16 H) eq_refl) as (sa6 & H1 & _ & _ & H2 & _).
  exists sa6. split; [exact H1|]. by rewrite H2.
Defined.

Lemma addr_to_string_fits_witness :
  addr_to_string (fun _ => Some (str "192.0.2.1", str "80")) (Sin 80 [192; 0; 2; 1]) 64
  = (12, Some (str "192.0.2.1:80")).
Proof.
  refine (proj2 (addr_to_string_fits (fun _ => Some (str "192.0.2.1", str "80"))
    (Sin 80 [192; 0; 2; 1]) 64 _ _) (str "192.0.2.1") (str "80") _ _ _);
    try done; try (by vm_compute).
  intros host service [= <- <-]. by vm_compute.
Defined.
