(* ===== verification/Ice.v ===== *)
(** * ICE candidates and pairs (src/ice.c, src/ice.h)

    Candidate and description data, priorities, the candidate list of a
    description with its in-place insertion sort, and candidate pairs.  The SDP
    text format is in IceSdp.v.  The arrays with a count of the C code are the
    lists of their used elements. *)

From Stdlib Require Import Permutation Sorted.
From S2P Require Import Prelude CText Addr.
From stdpp Require Import list sorting.
#[local] Open Scope Z_scope.

(** ** Data *)

Inductive ice_candidate_type_t :=
| ICE_CANDIDATE_TYPE_UNKNOWN
| ICE_CANDIDATE_TYPE_HOST
| ICE_CANDIDATE_TYPE_SERVER_REFLEXIVE
| ICE_CANDIDATE_TYPE_PEER_REFLEXIVE
| ICE_CANDIDATE_TYPE_RELAYED.

Inductive ice_candidate_transport_t :=
| ICE_CANDIDATE_TRANSPORT_UDP
| ICE_CANDIDATE_TRANSPORT_TCP_TYPE_ACTIVE
| ICE_CANDIDATE_TRANSPORT_TCP_TYPE_PASSIVE
| ICE_CANDIDATE_TRANSPORT_TCP_TYPE_SO.

#[global] Instance ice_candidate_type_eq_dec : EqDecision ice_candidate_type_t.
Proof. solve_decision. Defined.
#[global] Instance ice_candidate_transport_eq_dec : EqDecision ice_candidate_transport_t.
Proof. solve_decision. Defined.

Definition ICE_MAX_CANDIDATES_COUNT : Z := 30.
Definition ICE_CANDIDATE_PENALTY_TCP : Z := 50.
Definition ICE_CANDIDATE_PREF_HOST : Z := 126.
Definition ICE_CANDIDATE_PREF_PEER_REFLEXIVE : Z := 110.
Definition ICE_CANDIDATE_PREF_SERVER_REFLEXIVE : Z := 100.
Definition ICE_CANDIDATE_PREF_RELAYED : Z := 0.

(** The character arrays hold strings; [component] is an [int]. *)
Record ice_candidate_t := {
  type : ice_candidate_type_t;
  priority : Z;
  component : Z;
  foundation : list Z;
  transport : ice_candidate_transport_t;
  hostname : list Z;
  service : list Z;
  resolved : addr_record_t
}.

Definition ice_candidate_zero : ice_candidate_t :=
  {| type := ICE_CANDIDATE_TYPE_UNKNOWN; priority := 0; component := 0; foundation := [];
     transport := ICE_CANDIDATE_TRANSPORT_UDP; hostname := []; service := [];
     resolved := addr_record_zero |}.

#[global] Instance ice_candidate_eq_dec : EqDecision ice_candidate_t.
Proof. solve_decision. Defined.

Record ice_description_t := {
  ice_ufrag : list Z;
  ice_pwd : list Z;
  ice_lite : bool;
  candidates : list ice_candidate_t;
  finished : bool
}.

Definition candidates_count (d : ice_description_t) : Z := zlen (candidates d).

Definition with_candidates (d : ice_description_t) (cs : list ice_candidate_t) :=
  {| ice_ufrag := ice_ufrag d; ice_pwd := ice_pwd d; ice_lite := ice_lite d;
     candidates := cs; finished := finished d |}.

Inductive ice_candidate_pair_state_t :=
| ICE_CANDIDATE_PAIR_STATE_PENDING
| ICE_CANDIDATE_PAIR_STATE_SUCCEEDED
| ICE_CANDIDATE_PAIR_STATE_FAILED
| ICE_CANDIDATE_PAIR_STATE_FROZEN.

#[global] Instance ice_candidate_pair_state_eq_dec : EqDecision ice_candidate_pair_state_t.
Proof. solve_decision. Defined.

(** A pair points to its candidates: [P] is the type of the pointers and the
    functions on pairs take what they point to. *)
Record ice_candidate_pair_t (P : Type) := {
  local : option P;
  remote : option P;
  pair_priority : Z;
  state : ice_candidate_pair_state_t;
  nominated : bool;
  nomination_requested : bool;
  consent_expiry : Z
}.
#[global] Arguments local {P}.
#[global] Arguments remote {P}.
#[global] Arguments pair_priority {P}.
#[global] Arguments state {P}.
#[global] Arguments nominated {P}.
#[global] Arguments nomination_requested {P}.
#[global] Arguments consent_expiry {P}.

Definition with_pair_priority {P} (pair : ice_candidate_pair_t P) (prio : Z) :=
  {| local := local pair; remote := remote pair; pair_priority := prio; state := state pair;
     nominated := nominated pair; nomination_requested := nomination_requested pair;
     consent_expiry := consent_expiry pair |}.

(** ** Priorities *)

Definition CLAMP (x low high : Z) : Z :=
  if high <? x then high else if x <? low then low else x.

(** The type preference, before the transport penalty. *)
Definition type_preference (type : ice_candidate_type_t) : Z :=
  match type with
  | ICE_CANDIDATE_TYPE_HOST => ICE_CANDIDATE_PREF_HOST
  | ICE_CANDIDATE_TYPE_PEER_REFLEXIVE => ICE_CANDIDATE_PREF_PEER_REFLEXIVE
  | ICE_CANDIDATE_TYPE_SERVER_REFLEXIVE => ICE_CANDIDATE_PREF_SERVER_REFLEXIVE
  | ICE_CANDIDATE_TYPE_RELAYED => ICE_CANDIDATE_PREF_RELAYED
  | ICE_CANDIDATE_TYPE_UNKNOWN => 0
  end.

Definition is_udp (transport : ice_candidate_transport_t) : bool :=
  match transport with ICE_CANDIDATE_TRANSPORT_UDP => true | _ => false end.

(** All arithmetic is on [uint32_t]. *)
Definition ice_compute_priority (type : ice_candidate_type_t) (family component index : Z)
    (transport : ice_candidate_transport_t) : Z :=
  let p := type_preference type in
  let p := if is_udp transport then p
           else if ICE_CANDIDATE_PENALTY_TCP <=? p then p - ICE_CANDIDATE_PENALTY_TCP else 0 in
  let p := u32 (p .<< 16) in
  let local :=
    match transport with
    | ICE_CANDIDATE_TRANSPORT_TCP_TYPE_ACTIVE => 6
    | ICE_CANDIDATE_TRANSPORT_TCP_TYPE_PASSIVE => 4
    | ICE_CANDIDATE_TRANSPORT_TCP_TYPE_SO => 2
    | ICE_CANDIDATE_TRANSPORT_UDP => 0
    end in
  let local := u32 (local .<< 13) in
  let local := if family =? AF_INET6 then u32 (local + 8191)
               else if family =? AF_INET then u32 (local + 4095) else local in
  let local := u32 (local - CLAMP index 0 4095) in
  let p := u32 (p + local) in
  let p := u32 (p .<< 8) in
  u32 (p + (256 - CLAMP component 1 256)).

(** ** Candidate lists *)

Definition MAX_FOUNDATION_PRINT : Z := 32.

(** Returns the result code, the caller's candidate, whose foundation may have
    been filled in, and the description. *)
Definition ice_add_candidate (candidate : ice_candidate_t) (description : ice_description_t)
  : Z * ice_candidate_t * ice_description_t :=
  if bool_decide (type candidate = ICE_CANDIDATE_TYPE_UNKNOWN) then (-1, candidate, description)
  else if ICE_MAX_CANDIDATES_COUNT <=? candidates_count description
  then (-1, candidate, description)
  else
    let candidate :=
      if bool_decide (foundation candidate = str "-") then
        {| type := type candidate; priority := priority candidate;
           component := component candidate;
           foundation :=
             default [] (snd (snprintf MAX_FOUNDATION_PRINT
                                       (fmt_u (candidates_count description + 1))));
           transport := transport candidate; hostname := hostname candidate;
           service := service candidate; resolved := resolved candidate |}
      else candidate in
    (0, candidate, with_candidates description (candidates description ++ [candidate])).

(** The inner loop of the insertion sort, on an array [a] of elements with a
    key: the hole moves from position [h] towards the front while the element
    before it has a smaller key. *)
Fixpoint shift_hole {A} (key : A -> Z) (a : list A) (h : nat) (k : Z) : list A * nat :=
  match h with
  | O => (a, O)
  | S prev =>
      match a !! prev with
      | Some x => if key x <? k then shift_hole key (<[S prev := x]> a) prev k else (a, S prev)
      | None => (a, S prev)
      end
  end.

(** One round of the outer loop. *)
Definition sort_round {A} (key : A -> Z) (a : list A) (cur : nat) : list A :=
  match a !! cur with
  | None => a
  | Some tmp =>
      let '(a, h) := shift_hole key a cur (key tmp) in
      if bool_decide (h = cur) then a else <[h := tmp]> a
  end.

(** [while (++cur < end)]: the rounds for positions [cur], [cur + 1], ... *)
Fixpoint sort_rounds {A} (key : A -> Z) (a : list A) (cur n : nat) : list A :=
  match n with
  | O => a
  | S n' => sort_rounds key (sort_round key a cur) (S cur) n'
  end.

Definition insertion_sort {A} (key : A -> Z) (a : list A) : list A :=
  sort_rounds key a 1 (length a - 1).

Definition ice_sort_candidates (description : ice_description_t) : ice_description_t :=
  with_candidates description (insertion_sort priority (candidates description)).

(** The index of the candidate found, [None] for NULL. *)
Fixpoint find_index_from {A} (p : A -> bool) (l : list A) (i : nat) : option nat :=
  match l with
  | [] => None
  | x :: l' => if p x then Some i else find_index_from p l' (S i)
  end.

Definition candidate_matches (record : addr_record_t) (type' : ice_candidate_type_t)
    (cur : ice_candidate_t) : bool :=
  (bool_decide (type' = ICE_CANDIDATE_TYPE_UNKNOWN) || bool_decide (type cur = type')) &&
  addr_is_equal (addr record) (addr (resolved cur)) true.

Definition ice_find_candidate_from_addr (description : ice_description_t)
    (record : addr_record_t) (type : ice_candidate_type_t) : option nat :=
  find_index_from (candidate_matches record type) (candidates description) 0.

Definition ice_candidates_count (description : ice_description_t) (t : ice_candidate_type_t) : Z :=
  fold_left (fun count c => if bool_decide (type c = t) then count + 1 else count)
            (candidates description) 0.

(** ** Creation of local candidates *)

(** [getnameinfo] fills the host and service names, or fails. *)
Definition ice_create_local_candidate (getnameinfo : getnameinfo_t)
    (type : ice_candidate_type_t) (component index : Z) (record : addr_record_t)
    (transport : ice_candidate_transport_t) : Z * ice_candidate_t :=
  let socktype' := if is_udp transport then SOCK_DGRAM else SOCK_STREAM in
  let c host serv :=
    {| type := type;
       priority := ice_compute_priority type (sa_family (addr record)) component index transport;
       component := component; foundation := str "-"; transport := transport;
       hostname := host; service := serv;
       resolved := {| addr := addr record; len := len record; socktype := socktype' |} |} in
  match getnameinfo (addr record) with
  | None => (-1, c [] [])
  | Some (host, serv) => (0, c host serv)
  end.

Inductive ice_resolve_mode_t := ICE_RESOLVE_MODE_SIMPLE | ICE_RESOLVE_MODE_LOOKUP.

(** [getaddrinfo] on a host, a service, the socket type hinted and whether only
    numeric names are allowed. *)
Definition getaddrinfo_t := list Z -> list Z -> Z -> bool -> option (list addrinfo).

Definition ice_resolve_candidate (getaddrinfo : getaddrinfo_t) (candidate : ice_candidate_t)
    (mode : ice_resolve_mode_t) : Z * ice_candidate_t :=
  let set_resolved r :=
    {| type := type candidate; priority := priority candidate; component := component candidate;
       foundation := foundation candidate; transport := transport candidate;
       hostname := hostname candidate; service := service candidate; resolved := r |} in
  let hint := if is_udp (transport candidate) then SOCK_DGRAM else SOCK_STREAM in
  let numeric := match mode with ICE_RESOLVE_MODE_LOOKUP => false | _ => true end in
  match getaddrinfo (hostname candidate) (service candidate) hint numeric with
  | None =>
      let r := resolved candidate in
      (-1, set_resolved {| addr := addr r; len := 0; socktype := socktype r |})
  | Some ai_list =>
      match filter (fun ai => sa_family (ai_addr ai) = AF_INET \/
                              sa_family (ai_addr ai) = AF_INET6) ai_list with
      | ai :: _ =>
          (0, set_resolved {| addr := ai_addr ai; len := ai_addrlen ai;
                              socktype := ai_socktype ai |})
      | [] => (0, candidate)
      end
  end.

(** ** Candidate pairs *)

Section Pairs.

(** The pointers and what they point to. *)
Context {P : Type} (deref : P -> ice_candidate_t).

(** All arithmetic is on [uint64_t]. *)
Definition compute_pair_priority (g d : Z) : Z :=
  let min := if g <? d then g else d in
  let max := if d <? g then g else d in
  u64 (u64 (u64 (min .<< 32) + u64 (max .<< 1)) + (if d <? g then 1 else 0)).

(** The priority used for a side: its own, or that of a host candidate of the
    other side's family, component and transport when the side is NULL. *)
Definition side_priority (self other : option P) : Z :=
  match self, other with
  | Some c, _ => priority (deref c)
  | None, Some c =>
      let c := deref c in
      ice_compute_priority ICE_CANDIDATE_TYPE_HOST (sa_family (addr (resolved c)))
                           (component c) 0 (transport c)
  | None, None => 0
  end.

Definition ice_update_candidate_pair (pair : ice_candidate_pair_t P) (is_controlling : bool)
  : ice_candidate_pair_t P :=
  match local pair, remote pair with
  | None, None => pair
  | l, r =>
      let local_priority := side_priority l r in
      let remote_priority := side_priority r l in
      let g := if is_controlling then local_priority else remote_priority in
      let d := if is_controlling then remote_priority else local_priority in
      with_pair_priority pair (compute_pair_priority g d)
  end.

(** [None] is the error return on mismatched families. *)
Definition ice_create_candidate_pair (l r : option P) (is_controlling : bool)
  : option (ice_candidate_pair_t P) :=
  let mismatch :=
    match l, r with
    | Some a, Some b =>
        negb (sa_family (addr (resolved (deref a))) =? sa_family (addr (resolved (deref b))))
    | _, _ => false
    end in
  if mismatch then None
  else Some (ice_update_candidate_pair
    {| local := l; remote := r; pair_priority := 0; state := ICE_CANDIDATE_PAIR_STATE_FROZEN;
       nominated := false; nomination_requested := false; consent_expiry := 0 |}
    is_controlling).

End Pairs.

(** ** Credentials *)

(** The characters are those of ASCII; of others the C functions [isalpha] and [isdigit],
    called with a negative [char], are not defined, and here they are refused. *)
Definition ice_is_valid_string (s : option (list Z)) : bool :=
  match s with
  | None => false
  | Some s => forallb (fun c => isalpha c || isdigit c || (c =? 43) || (c =? 47)) s
  end.

(** [juice_random_str64] (src/random.c) on the bytes [rnd 0], [rnd 1], ... that
    [juice_random] returns. *)
Definition chars64 : list Z :=
  str "ABCDEFGHIJKLMNOPQRSTUVWXYZabcdefghijklmnopqrstuvwxyz0123456789+/".

Definition juice_random_str64 (rnd : nat -> Z) (size : nat) : list Z :=
  (fun i => nth (Z.to_nat (rnd i .& 0x3F)) chars64 0) <$> seq 0 (size - 1).

Definition ice_create_local_description (rnd_ufrag rnd_pwd : nat -> Z) : ice_description_t :=
  {| ice_ufrag := juice_random_str64 rnd_ufrag (4 + 1);
     ice_pwd := juice_random_str64 rnd_pwd (22 + 1);
     ice_lite := false; candidates := []; finished := false |}.

(** ** Specifications *)

(** RFC 8445 5.1.2.1 and RFC 6544 4.2: the type preference with the TCP penalty
    and the local preference. *)
Definition type_pref (type : ice_candidate_type_t) (tr : ice_candidate_transport_t) : Z :=
  if is_udp tr then type_preference type
  else Z.max 0 (type_preference type - ICE_CANDIDATE_PENALTY_TCP).

Definition direction_pref (tr : ice_candidate_transport_t) : Z :=
  match tr with
  | ICE_CANDIDATE_TRANSPORT_TCP_TYPE_ACTIVE => 6
  | ICE_CANDIDATE_TRANSPORT_TCP_TYPE_PASSIVE => 4
  | ICE_CANDIDATE_TRANSPORT_TCP_TYPE_SO => 2
  | ICE_CANDIDATE_TRANSPORT_UDP => 0
  end.

Definition local_pref (family index : Z) (tr : ice_candidate_transport_t) : Z :=
  2 ^ 13 * direction_pref tr + (if family =? AF_INET6 then 8191 else 4095)
  - Z.max 0 (Z.min index 4095).

Definition clamp_component (component : Z) : Z := Z.max 1 (Z.min component 256).

(** RFC 8445 6.1.2.3. *)
Definition pair_priority_spec (g d : Z) : Z :=
  2 ^ 32 * Z.min g d + 2 * Z.max g d + (if d <? g then 1 else 0).

(** Descending order of keys. *)
Definition sorted_desc {A} (key : A -> Z) : list A -> Prop :=
  StronglySorted (fun x y => key y <= key x).

(** ** Priorities *)

Lemma CLAMP_spec (x low high : Z) : low <= high -> CLAMP x low high = Z.max low (Z.min x high).
Proof. intros. unfold CLAMP. repeat case_if; lia. Qed.

Lemma type_pref_bound t tr : 0 <= type_pref t tr <= 126.
Proof.
  unfold type_pref, is_udp, type_preference, ICE_CANDIDATE_PENALTY_TCP,
    ICE_CANDIDATE_PREF_HOST, ICE_CANDIDATE_PREF_PEER_REFLEXIVE,
    ICE_CANDIDATE_PREF_SERVER_REFLEXIVE, ICE_CANDIDATE_PREF_RELAYED.
  destruct t, tr; lia.
Qed.

Lemma local_pref_bound f i tr : 0 <= local_pref f i tr < 2 ^ 16.
Proof. unfold local_pref, direction_pref. destruct tr; case_if; lia. Qed.

Lemma ice_compute_priority_formula t f comp i tr :
  f = AF_INET \/ f = AF_INET6 ->
  ice_compute_priority t f comp i tr
  = 2 ^ 24 * type_pref t tr + 2 ^ 8 * local_pref f i tr + (256 - clamp_component comp).
Proof.
  intros Hf. unfold ice_compute_priority.
  assert (Ht : (if is_udp tr then type_preference t
     else if ICE_CANDIDATE_PENALTY_TCP <=? type_preference t
          then type_preference t - ICE_CANDIDATE_PENALTY_TCP else 0) = type_pref t tr).
  { unfold type_pref. destruct (is_udp tr); [done|]. case_if; lia. }
  rewrite Ht. pose proof (type_pref_bound t tr). pose proof (local_pref_bound f i tr).
  assert (Hl : u32 ((if f =? AF_INET6 then u32 (u32 (direction_pref tr .<< 13) + 8191)
     else if f =? AF_INET then u32 (u32 (direction_pref tr .<< 13) + 4095)
     else u32 (direction_pref tr .<< 13)) - CLAMP i 0 4095) = local_pref f i tr).
  { rewrite !shiftl_mul, CLAMP_spec by lia. unfold local_pref in *.
    destruct Hf as [-> | ->]; cbn [AF_INET AF_INET6 Z.eqb Pos.eqb];
      destruct tr; cbn [direction_pref]; solve_width. }
  fold (direction_pref tr). rewrite Hl.
  rewrite !shiftl_mul, CLAMP_spec by lia. fold (clamp_component comp).
  assert (1 <= clamp_component comp <= 256) by (unfold clamp_component; lia).
  solve_width.
Qed.

Lemma compute_pair_priority_formula (g d : Z) :
  0 <= g < 2 ^ 32 -> 0 <= d < 2 ^ 32 -> Z.min g d < 2 ^ 31 ->
  compute_pair_priority g d = pair_priority_spec g d.
Proof.
  intros Hg Hd Hm. unfold compute_pair_priority, pair_priority_spec.
  rewrite !shiftl_mul by lia. destruct (Z.ltb_spec d g), (Z.ltb_spec g d); solve_width.
Qed.

Lemma pair_priority_spec_inj (g d g' d' : Z) :
  0 <= g < 2 ^ 32 -> 0 <= d < 2 ^ 32 -> 0 <= g' < 2 ^ 32 -> 0 <= d' < 2 ^ 32 ->
  Z.max g d < 2 ^ 31 -> Z.max g' d' < 2 ^ 31 ->
  pair_priority_spec g d = pair_priority_spec g' d' -> g = g' /\ d = d'.
Proof. unfold pair_priority_spec. intros. repeat case_if_in H5; lia. Qed.

(** ** The insertion sort *)

Section InsertionSort.

Context {A : Type} (key : A -> Z).
Implicit Types pre post : list A.

(** The hole stops after the last element whose key is not smaller. *)
Lemma shift_hole_spec (k : Z) pre : forall s post,
  exists p1 p2 s', pre = p1 ++ p2 /\ Forall (fun x => key x < k) p2 /\
    (forall y, last p1 = Some y -> k <= key y) /\ (p2 = [] -> s' = s) /\
    shift_hole key (pre ++ s :: post) (length pre) k = (p1 ++ s' :: p2 ++ post, length p1).
Proof.
  induction pre as [|x pre IH] using rev_ind; intros s post.
  { exists [], [], s. done. }
  rewrite length_app. cbn [length]. rewrite Nat.add_1_r. cbn [shift_hole].
  rewrite <- app_assoc. cbn [app]. rewrite list_lookup_middle by done. case_if.
  - replace (<[S (length pre) := x]> (pre ++ x :: s :: post)) with (pre ++ x :: x :: post).
    2: { rewrite insert_app_r_alt by lia. by replace (S (length pre) - length pre)%nat with 1%nat by lia. }
    destruct (IH x (x :: post)) as (p1 & p2 & s' & -> & Hp2 & Hl & _ & ->).
    exists p1, (p2 ++ [x]), s'. split_and!; try done.
    + by rewrite app_assoc.
    + apply Forall_app; auto.
    + by destruct p2.
    + by rewrite <- app_assoc.
  - exists (pre ++ [x]), [], s. split_and!; try done.
    + by rewrite app_nil_r.
    + intros y. rewrite last_snoc. intros [= <-]. done.
    + rewrite <- app_assoc, length_app. cbn. by rewrite Nat.add_1_r.
Qed.

(** A round moves the current element back over the smaller ones. *)
Lemma sort_round_spec pre tmp post :
  exists p1 p2, pre = p1 ++ p2 /\ Forall (fun x => key x < key tmp) p2 /\
    (forall y, last p1 = Some y -> key tmp <= key y) /\
    sort_round key (pre ++ tmp :: post) (length pre) = p1 ++ tmp :: p2 ++ post.
Proof.
  unfold sort_round. rewrite list_lookup_middle by done.
  destruct (shift_hole_spec (key tmp) pre tmp post) as (p1 & p2 & s' & -> & Hp2 & Hl & Hs & ->).
  exists p1, p2. split_and!; try done. case_bool_decide as Hh.
  - rewrite length_app in Hh. assert (p2 = []) as -> by (apply length_zero_iff_nil; lia).
    by rewrite Hs.
  - rewrite insert_app_r_alt by lia. by rewrite Nat.sub_diag.
Qed.

Lemma sorted_desc_insert p1 tmp p2 :
  sorted_desc key (p1 ++ p2) -> Forall (fun x => key x < key tmp) p2 ->
  (forall y, last p1 = Some y -> key tmp <= key y) ->
  sorted_desc key (p1 ++ tmp :: p2).
Proof.
  unfold sorted_desc. intros Hs Hp Hl. apply StronglySorted_app in Hs as (Hx & H1 & H2).
  assert (Htmp : Forall (fun y => key tmp <= key y) p1).
  { destruct p1 as [|x p1 _] using rev_ind; [constructor|].
    rewrite last_snoc in Hl. specialize (Hl x eq_refl).
    apply StronglySorted_app in H1 as (Hx1 & _ & _).
    apply Forall_app; split; [|by apply Forall_singleton].
    apply Forall_forall. intros y Hy.
    specialize (Hx1 y x Hy ltac:(by left)). cbn in Hx1. lia. }
  apply StronglySorted_app; split_and!; [|done|].
  - intros x y Hxi [->|Hy]%elem_of_cons; [|auto].
    rewrite Forall_forall in Htmp. by apply Htmp.
  - constructor; [done|]. eapply Forall_impl; [exact Hp|]. cbn. lia.
Qed.

(** Moving an element over elements of other keys keeps the elements of each
    key in order. *)
Lemma filter_key_insert (k : Z) p1 tmp p2 post :
  Forall (fun x => key x < key tmp) p2 ->
  filter (fun x => key x = k) (p1 ++ tmp :: p2 ++ post)
  = filter (fun x => key x = k) ((p1 ++ p2) ++ tmp :: post).
Proof.
  intros Hp. rewrite !filter_app, !filter_cons, !filter_app.
  destruct (decide (key tmp = k)) as [Hk|]; [|by rewrite app_assoc].
  replace (filter (fun x => key x = k) p2) with (@nil A); [by rewrite app_nil_r|].
  symmetry. induction Hp as [|x p2 Hx _ IH]; [done|].
  rewrite filter_cons_False; [done|lia].
Qed.

Lemma sort_rounds_spec (n : nat) : forall pre post,
  sorted_desc key pre -> length post = n ->
  let a := sort_rounds key (pre ++ post) (length pre) n in
  sorted_desc key a /\ Permutation a (pre ++ post) /\
  forall k, filter (fun x => key x = k) a = filter (fun x => key x = k) (pre ++ post).
Proof.
  induction n as [|n IH]; intros pre post Hs Hn; cbn [sort_rounds].
  { apply length_zero_iff_nil in Hn as ->. rewrite app_nil_r. done. }
  destruct post as [|tmp post]; [done|]. injection Hn as Hn.
  destruct (sort_round_spec pre tmp post) as (p1 & p2 & -> & Hp & Hl & ->).
  assert (Hs' : sorted_desc key (p1 ++ tmp :: p2)) by (by apply sorted_desc_insert).
  destruct (IH (p1 ++ tmp :: p2) post Hs' Hn) as (Ha & Hperm & Hf).
  replace (length (p1 ++ tmp :: p2)) with (S (length (p1 ++ p2))) in *
    by (rewrite !length_app; cbn; lia).
  rewrite <- !app_assoc in *. cbn [app] in *. split_and!; [done| |].
  - etrans; [exact Hperm|]. apply Permutation_app_head.
    rewrite (Permutation_middle p2 post tmp). done.
  - intros k. rewrite Hf, filter_key_insert, <- app_assoc by done. done.
Qed.

Lemma insertion_sort_spec (a : list A) :
  sorted_desc key (insertion_sort key a) /\ Permutation (insertion_sort key a) a /\
  forall k, filter (fun x => key x = k) (insertion_sort key a)
            = filter (fun x => key x = k) a.
Proof.
  unfold insertion_sort. destruct a as [|x a]; [by repeat constructor|].
  apply (sort_rounds_spec (length (x :: a) - 1) [x] a); [|cbn; lia].
  repeat constructor.
Qed.

End InsertionSort.

(** ** Lists and descriptions *)

Lemma find_index_from_spec {A} (p : A -> bool) (l : list A) (i : nat) :
  match find_index_from p l i with
  | Some j => exists n x, j = (i + n)%nat /\ l !! n = Some x /\ p x = true /\
                          forall m y, (m < n)%nat -> l !! m = Some y -> p y = false
  | None => Forall (fun x => p x = false) l
  end.
Proof.
  revert i; induction l as [|x l IH]; intros i; cbn [find_index_from]; [constructor|].
  case_if.
  - exists O, x. split_and!; [lia|done|done|lia].
  - specialize (IH (S i)). destruct (find_index_from p l (S i)) as [j|].
    + destruct IH as (n & y & -> & Hy & Hp & Hm). exists (S n), y.
      split_and!; [lia|done|done|]. intros [|m] z Hlt Hz; cbn in Hz; [by simplify_eq|].
      eapply Hm; [|exact Hz]. lia.
    + by constructor.
Qed.

Lemma chars64_valid : forallb (fun c => isalpha c || isdigit c || (c =? 43) || (c =? 47)) chars64 = true.
Proof. reflexivity. Qed.

Lemma juice_random_str64_valid (rnd : nat -> Z) (size : nat) :
  ice_is_valid_string (Some (juice_random_str64 rnd size)) = true.
Proof.
  cbn [ice_is_valid_string]. apply forallb_forall. intros c Hc.
  unfold juice_random_str64 in Hc. apply in_map_iff in Hc as (i & <- & _).
  pose proof (proj1 (forallb_forall _ _) chars64_valid) as Hv. apply Hv.
  apply nth_In. change (length chars64) with 64%nat.
  change 0x3F with 63. rewrite land_63. zlia.
Qed.

(** ** Theorems *)

(** The candidate priority computed in 32-bit arithmetic is the formula of
    RFC 8445 5.1.2.1 with the TCP penalty and direction preference of RFC 6544,
    it always fits 31 bits, and a candidate with a better type preference has
    the higher priority whatever the families, components and indices. *)
Theorem ice_compute_priority_correct t f comp i tr :
  f = AF_INET \/ f = AF_INET6 ->
  ice_compute_priority t f comp i tr
    = 2 ^ 24 * type_pref t tr + 2 ^ 8 * local_pref f i tr + (256 - clamp_component comp) /\
  0 <= ice_compute_priority t f comp i tr < 2 ^ 31 /\
  forall t' f' comp' i' tr', f' = AF_INET \/ f' = AF_INET6 ->
    type_pref t tr < type_pref t' tr' ->
    ice_compute_priority t f comp i tr < ice_compute_priority t' f' comp' i' tr'.
Proof.
  intros Hf. rewrite ice_compute_priority_formula by done.
  pose proof (type_pref_bound t tr). pose proof (local_pref_bound f i tr).
  assert (0 <= 256 - clamp_component comp < 256) by (unfold clamp_component; lia).
  split_and!; [done|lia|lia|].
  intros t' f' comp' i' tr' Hf' Hlt. rewrite ice_compute_priority_formula by done.
  pose proof (local_pref_bound f' i' tr').
  assert (0 <= 256 - clamp_component comp') by (unfold clamp_component; lia). lia.
Qed.

Lemma ice_compute_priority_correct_witness :
  ice_compute_priority ICE_CANDIDATE_TYPE_RELAYED AF_INET6 1 0 ICE_CANDIDATE_TRANSPORT_UDP
  < ice_compute_priority ICE_CANDIDATE_TYPE_SERVER_REFLEXIVE AF_INET 256 4095
      ICE_CANDIDATE_TRANSPORT_UDP.
Proof.
  apply (ice_compute_priority_correct ICE_CANDIDATE_TYPE_RELAYED AF_INET6 1 0
           ICE_CANDIDATE_TRANSPORT_UDP ltac:(right; reflexivity)); [by left|reflexivity].
Defined.

(** C31: The two agents of a session agree on the order of the pairs: the
    controlling agent's pair and the controlled agent's mirrored pair have the
    same priority, which for priorities below 2^31 is the one of RFC 8445
    6.1.2.3 (no overflow of the 64-bit arithmetic), and pairs of candidates
    with other priorities have another pair priority. *)
Theorem ice_pair_priority_agreement {P} (deref : P -> ice_candidate_t) (l r l' r' : P) :
  Forall (fun c => 0 <= priority (deref c) < 2 ^ 31) [l; r; l'; r'] ->
  let prio p := pair_priority <$> p in
  let create l r := ice_create_candidate_pair deref (Some l) (Some r) in
  prio (create l r true) = prio (create r l false) /\
  (forall p, create l r true = Some p ->
     pair_priority p = pair_priority_spec (priority (deref l)) (priority (deref r))) /\
  (forall p p', create l r true = Some p -> create l' r' true = Some p' ->
     pair_priority p = pair_priority p' ->
     priority (deref l) = priority (deref l') /\ priority (deref r) = priority (deref r')).
Proof.
  intros Hb prio create. repeat (apply Forall_cons_1 in Hb as [? Hb]).
  assert (Hc : forall l r p, 0 <= priority (deref l) < 2 ^ 31 ->
     0 <= priority (deref r) < 2 ^ 31 -> create l r true = Some p ->
     pair_priority p = pair_priority_spec (priority (deref l)) (priority (deref r))).
  { intros a b p Ha Hb'. unfold create, ice_create_candidate_pair. case_if; [done|].
    intros [= <-]. cbn. apply compute_pair_priority_formula; lia. }
  split_and!.
  - unfold prio, create, ice_create_candidate_pair. rewrite Z.eqb_sym. by case_if.
  - auto.
  - intros p p' Hp Hp'. rewrite (Hc _ _ _ H H0 Hp), (Hc _ _ _ H1 H2 Hp').
    apply pair_priority_spec_inj; lia.
Qed.

Definition example_candidate (p : Z) : ice_candidate_t :=
  {| type := ICE_CANDIDATE_TYPE_HOST; priority := p; component := 1; foundation := str "1";
     transport := ICE_CANDIDATE_TRANSPORT_UDP; hostname := []; service := [];
     resolved := addr_record_zero |}.

Lemma ice_pair_priority_agreement_witness :
  pair_priority <$> ice_create_candidate_pair example_candidate (Some 2130706431)
                      (Some 1694498815) true
  = pair_priority <$> ice_create_candidate_pair example_candidate (Some 1694498815)
                        (Some 2130706431) false.
Proof.
  apply (ice_pair_priority_agreement example_candidate 2130706431 1694498815 0 1).
  repeat constructor; cbn; lia.
Defined.

(** The in-place insertion sort leaves the candidates in descending order of
    priority, a permutation of the array before, with candidates of the same
    priority in their order of insertion; nothing else of the description
    changes. *)
Theorem ice_sort_candidates_correct (d : ice_description_t) :
  let d' := ice_sort_candidates d in
  sorted_desc priority (candidates d') /\ Permutation (candidates d') (candidates d) /\
  (forall k, filter (fun c => priority c = k) (candidates d')
             = filter (fun c => priority c = k) (candidates d)) /\
  d' = with_candidates d (candidates d').
Proof.
  cbn. destruct (insertion_sort_spec priority (candidates d)) as (? & ? & ?).
  split_and!; done.
Qed.

(** Adding a candidate never exceeds the capacity of the array; it fails,
    without effect, exactly for a candidate of unknown type or a full array,
    and else appends the candidate, numbering it when its foundation is the
    placeholder. *)
Theorem ice_add_candidate_correct (c : ice_candidate_t) (d : ice_description_t) :
  candidates_count d <= ICE_MAX_CANDIDATES_COUNT ->
  let '(ret, c', d') := ice_add_candidate c d in
  candidates_count d' <= ICE_MAX_CANDIDATES_COUNT /\
  (ret = -1 <-> type c = ICE_CANDIDATE_TYPE_UNKNOWN \/
                candidates_count d = ICE_MAX_CANDIDATES_COUNT) /\
  (ret = -1 -> c' = c /\ d' = d) /\
  (ret <> -1 -> ret = 0 /\ d' = with_candidates d (candidates d ++ [c']) /\
     foundation c' = (if bool_decide (foundation c = str "-")
                      then fmt_u (candidates_count d + 1) else foundation c) /\
     type c' = type c /\ priority c' = priority c /\ component c' = component c /\
     transport c' = transport c /\ hostname c' = hostname c /\ service c' = service c /\
     resolved c' = resolved c).
Proof.
  intros Hd. unfold ice_add_candidate. pose proof (zlen_nonneg (candidates d)) as Hn.
  fold (candidates_count d) in Hn. unfold ICE_MAX_CANDIDATES_COUNT in *.
  case_bool_decide as Ht; [split_and!; intuition|].
  case_if; [split_and!; intuition lia|].
  split_and!; [|intuition lia|done|intros _].
  - unfold candidates_count in *. cbn [candidates with_candidates]. rewrite zlen_app. zlia.
  - split_and!; try done; case_bool_decide; try done.
    cbn [foundation]. unfold MAX_FOUNDATION_PRINT. rewrite snprintf_whole; [done|].
    pose proof (all_below_spec 40 (fun n => zlen (fmt_u n) <? 32) ltac:(vm_compute; reflexivity)
                 (candidates_count d + 1) ltac:(lia)) as Hl. cbv beta in Hl. by apply Z.ltb_lt in Hl.
Qed.

Lemma ice_add_candidate_correct_witness :
  let '(ret, _, d') :=
    ice_add_candidate (example_candidate 1)
      (ice_create_local_description (fun _ => 0) (fun _ => 0)) in
  candidates_count d' <= ICE_MAX_CANDIDATES_COUNT.
Proof.
  apply (ice_add_candidate_correct (example_candidate 1)
           (ice_create_local_description (fun _ => 0) (fun _ => 0))).
  vm_compute. discriminate.
Defined.

(** Looking a candidate up by address and type finds the first candidate of
    the type (any, if the type is unknown) with that address and port, and
    finds none only when no candidate matches. *)
Theorem ice_find_candidate_from_addr_correct (d : ice_description_t) (r : addr_record_t)
    (t : ice_candidate_type_t) :
  let matches c := (t = ICE_CANDIDATE_TYPE_UNKNOWN \/ type c = t) /\
                   addr_is_equal (addr r) (addr (resolved c)) true = true in
  match ice_find_candidate_from_addr d r t with
  | Some i => exists c, candidates d !! i = Some c /\ matches c /\
                forall j c', (j < i)%nat -> candidates d !! j = Some c' -> ~ matches c'
  | None => Forall (fun c => ~ matches c) (candidates d)
  end.
Proof.
  intros matches.
  assert (Hm : forall c, candidate_matches r t c = true <-> matches c).
  { intros c. unfold candidate_matches, matches.
    rewrite andb_true_iff, orb_true_iff, !bool_decide_eq_true. done. }
  unfold ice_find_candidate_from_addr.
  pose proof (find_index_from_spec (candidate_matches r t) (candidates d) 0) as H.
  destruct (find_index_from _ _ _) as [j|].
  - destruct H as (n & c & -> & Hc & Hp & Hlt). exists c. split_and!; [done|by apply Hm|].
    intros j c' Hj Hl Hc'. apply Hm in Hc'. by rewrite (Hlt _ _ Hj Hl) in Hc'.
  - eapply Forall_impl; [exact H|]. cbn. intros c Hc Hc'. apply Hm in Hc'. congruence.
Qed.

(** A fresh local description has a user fragment of 4 and a password of
    22 characters that both satisfy the library's own validity check for ICE
    strings, whatever bytes the random source returns. *)
Theorem ice_create_local_description_valid (rnd_ufrag rnd_pwd : nat -> Z) :
  let d := ice_create_local_description rnd_ufrag rnd_pwd in
  zlen (ice_ufrag d) = 4 /\ zlen (ice_pwd d) = 22 /\
  ice_is_valid_string (Some (ice_ufrag d)) = true /\
  ice_is_valid_string (Some (ice_pwd d)) = true /\ candidates_count d = 0.
Proof.
  cbn [ice_create_local_description ice_ufrag ice_pwd]. split_and!; try done;
    apply juice_random_str64_valid.
Qed.
