(* ===== verification/IceSdp.v ===== *)
(** * The SDP text of ICE descriptions and candidates (src/ice.c)

    Parsing and generation of the ICE attribute lines, with the C string
    functions of CText.v and a parameter for [getaddrinfo].  The theorems:
    generation is one [snprintf] of the text of a description, parsing any
    input respects every array bound and leaves a sorted list, and parsing a
    generated description gives it back. *)

From Stdlib Require Import Permutation Sorted.
From S2P Require Import Prelude CText Addr Ice.
From stdpp Require Import list sorting.
#[local] Open Scope Z_scope.

(** ** Definitions *)

Definition BUFFER_SIZE : Z := 1024.
Definition ICE_PARSE_ERROR : Z := -1.
Definition ICE_PARSE_IGNORED : Z := -2.
Definition ICE_PARSE_MISSING_UFRAG : Z := -3.
Definition ICE_PARSE_MISSING_PWD : Z := -4.

Definition skip_prefix (s prefix : list Z) : list Z :=
  if starts_with prefix s then drop (length prefix) s else s.

(** The result and the pointer [*end]; two pointers into the same string are
    equal when as much of it is left. *)
Definition match_prefix (s prefix : list Z) : bool * list Z :=
  let e := skip_prefix s prefix in
  (negb (bool_decide (length e = length s)) || bool_decide (prefix = []), e).

(** The format of a candidate line. *)
Definition candidate_format : list directive :=
  [DStr 32; DSpace; DInt; DSpace; DStr 32; DSpace; DUint; DSpace; DStr 256; DSpace; DStr 32;
   DSpace; DLit 116; DLit 121; DLit 112; DSpace; DStr 32; DSpace; DStr 7; DSpace; DStr 7].

(** The [switch]es on the names, after [toupper] and [tolower]. *)
Definition parse_type (name : list Z) : option ice_candidate_type_t :=
  let name := tolower <$> name in
  if bool_decide (name = str "host") then Some ICE_CANDIDATE_TYPE_HOST
  else if bool_decide (name = str "srflx") then Some ICE_CANDIDATE_TYPE_SERVER_REFLEXIVE
  else if bool_decide (name = str "relay") then Some ICE_CANDIDATE_TYPE_RELAYED
  else None.

Definition parse_transport (name tcp_type : list Z) : option ice_candidate_transport_t :=
  let name := toupper <$> name in
  if bool_decide (name = str "TCP") then
    if bool_decide (tcp_type = str "active") then Some ICE_CANDIDATE_TRANSPORT_TCP_TYPE_ACTIVE
    else if bool_decide (tcp_type = str "passive")
    then Some ICE_CANDIDATE_TRANSPORT_TCP_TYPE_PASSIVE
    else if bool_decide (tcp_type = str "so") then Some ICE_CANDIDATE_TRANSPORT_TCP_TYPE_SO
    else None
  else if bool_decide (name = str "UDP") then Some ICE_CANDIDATE_TRANSPORT_UDP
  else None.

(** The error code, or the candidate (which the callers drop on an error). *)
Definition parse_sdp_candidate (line : list Z) : Z + ice_candidate_t :=
  let line := skip_prefix line (str "a=") in
  let line := skip_prefix line (str "candidate:") in
  let finish foundation' component' transport' priority' hostname' service' type' tcp_type :=
    match parse_type type' with
    | None => inl ICE_PARSE_IGNORED
    | Some t =>
        match parse_transport transport' tcp_type with
        | None => inl ICE_PARSE_IGNORED
        | Some tr =>
            inr {| type := t; priority := priority'; component := component';
                   foundation := foundation'; transport := tr; hostname := hostname';
                   service := service'; resolved := addr_record_zero |}
        end
    end in
  match sscanf candidate_format line with
  | [VStr f; VInt c; VStr tr; VInt p; VStr h; VStr s; VStr t] => finish f c tr p h s t []
  | [VStr f; VInt c; VStr tr; VInt p; VStr h; VStr s; VStr t; VStr _; VStr tcp_type] =>
      finish f c tr p h s t tcp_type
  | _ => inl ICE_PARSE_ERROR
  end.

Section Parse.

Context (getaddrinfo : getaddrinfo_t).

Definition ice_parse_candidate_sdp (line : list Z) : Z + ice_candidate_t :=
  if fst (match_prefix line (str "a=candidate:")) then
    match parse_sdp_candidate line with
    | inl ret => inl ret
    | inr candidate =>
        inr (snd (ice_resolve_candidate getaddrinfo candidate ICE_RESOLVE_MODE_SIMPLE))
    end
  else inl ICE_PARSE_ERROR.

(** [sscanf(arg, "%256s", field)]: the field keeps its value if nothing is read. *)
Definition scan_field (arg old : list Z) : list Z :=
  match sscanf [DStr 256] arg with [VStr s] => s | _ => old end.

Definition parse_sdp_line (line : list Z) (d : ice_description_t) : Z * ice_description_t :=
  let '(m, arg) := match_prefix line (str "a=ice-ufrag:") in
  if m then
    if (zlen arg <? 4) || (256 <? zlen arg) || negb (ice_is_valid_string (Some arg))
    then (ICE_PARSE_ERROR, d)
    else (0, {| ice_ufrag := scan_field arg (ice_ufrag d); ice_pwd := ice_pwd d;
                ice_lite := ice_lite d; candidates := candidates d; finished := finished d |})
  else
  let '(m, arg) := match_prefix line (str "a=ice-pwd:") in
  if m then
    if (zlen arg <? 22) || (256 <? zlen arg) || negb (ice_is_valid_string (Some arg))
    then (ICE_PARSE_ERROR, d)
    else (0, {| ice_ufrag := ice_ufrag d; ice_pwd := scan_field arg (ice_pwd d);
                ice_lite := ice_lite d; candidates := candidates d; finished := finished d |})
  else
  if fst (match_prefix line (str "a=ice-lite")) then
    (0, {| ice_ufrag := ice_ufrag d; ice_pwd := ice_pwd d; ice_lite := true;
           candidates := candidates d; finished := finished d |})
  else if fst (match_prefix line (str "a=end-of-candidates")) then
    (0, {| ice_ufrag := ice_ufrag d; ice_pwd := ice_pwd d; ice_lite := ice_lite d;
           candidates := candidates d; finished := true |})
  else
  match ice_parse_candidate_sdp line with
  | inr candidate => (0, snd (ice_add_candidate candidate d))
  | inl _ => (ICE_PARSE_IGNORED, d)
  end.

(** The loop over the characters, with the contents of the line buffer;
    [inl] is the early return. *)
Fixpoint ice_parse_sdp_loop (sdp buffer : list Z) (d : ice_description_t)
  : ice_description_t + ice_description_t :=
  match sdp with
  | [] => inr d
  | c :: sdp' =>
      if c =? 10 then
        match buffer with
        | [] => ice_parse_sdp_loop sdp' [] d
        | _ =>
            let '(ret, d) := parse_sdp_line buffer d in
            if ret =? ICE_PARSE_ERROR then inl d else ice_parse_sdp_loop sdp' [] d
        end
      else if negb (c =? 13) && (zlen buffer + 1 <? BUFFER_SIZE)
      then ice_parse_sdp_loop sdp' (buffer ++ [c]) d
      else ice_parse_sdp_loop sdp' buffer d
  end.

Definition ice_description_zero : ice_description_t :=
  {| ice_ufrag := []; ice_pwd := []; ice_lite := false; candidates := []; finished := false |}.

Definition ice_parse_sdp (sdp : list Z) : Z * ice_description_t :=
  match ice_parse_sdp_loop sdp [] ice_description_zero with
  | inl d => (ICE_PARSE_ERROR, d)
  | inr d =>
      let d := ice_sort_candidates d in
      if bool_decide (ice_ufrag d = []) then (ICE_PARSE_MISSING_UFRAG, d)
      else if bool_decide (ice_pwd d = []) then (ICE_PARSE_MISSING_PWD, d)
      else (0, d)
  end.

End Parse.

(** The two [switch]es: the names of type and transport, and the suffix. *)
Definition sdp_type (t : ice_candidate_type_t) : option (list Z * option (list Z)) :=
  let compat := str "raddr 0.0.0.0 rport 0" in
  match t with
  | ICE_CANDIDATE_TYPE_HOST => Some (str "host", None)
  | ICE_CANDIDATE_TYPE_PEER_REFLEXIVE => Some (str "prflx", None)
  | ICE_CANDIDATE_TYPE_SERVER_REFLEXIVE => Some (str "srflx", Some compat)
  | ICE_CANDIDATE_TYPE_RELAYED => Some (str "relay", Some compat)
  | ICE_CANDIDATE_TYPE_UNKNOWN => None
  end.

Definition sdp_transport (tr : ice_candidate_transport_t) (suffix : option (list Z))
  : option (list Z * option (list Z)) :=
  match tr with
  | ICE_CANDIDATE_TRANSPORT_UDP => Some (str "UDP", suffix)
  | ICE_CANDIDATE_TRANSPORT_TCP_TYPE_ACTIVE => Some (str "TCP", Some (str "tcptype active"))
  | _ => None
  end.

(** The text printed by the final [snprintf]; [None] is the return of -1. *)
Definition candidate_line (c : ice_candidate_t) : option (list Z) :=
  '(t, suffix) ← sdp_type (type c);
  '(tr, suffix) ← sdp_transport (transport c) suffix;
  Some (str "a=candidate:" ++ foundation c ++ 32 :: fmt_u (component c) ++ 32 :: tr ++
        32 :: fmt_u (priority c) ++ 32 :: hostname c ++ 32 :: service c ++ str " typ " ++ t ++
        match suffix with Some s => 32 :: s | None => [] end).

Definition ice_generate_candidate_sdp (c : ice_candidate_t) (size : Z) : Z * option (list Z) :=
  match candidate_line c with
  | None => (-1, None)
  | Some s => snprintf size s
  end.

(** The round for a candidate: what it prints, [None] for [continue]. *)
Definition candidate_round (c : ice_candidate_t) : option (list Z) :=
  match type c with
  | ICE_CANDIDATE_TYPE_UNKNOWN | ICE_CANDIDATE_TYPE_PEER_REFLEXIVE => None
  | _ =>
      let '(ret, tmp) := ice_generate_candidate_sdp c BUFFER_SIZE in
      if ret <? 0 then None
      else match tmp with Some tmp => Some (tmp ++ [13; 10]) | None => None end
  end.

(** What round 0 prints: with [ice_lite], the second [snprintf] is at the same
    place as the first. *)
Definition description_round (d : ice_description_t) : list Z :=
  if ice_lite d then str "a=ice-lite" ++ [13; 10]
  else str "a=ice-ufrag:" ++ ice_ufrag d ++ [13; 10] ++ str "a=ice-pwd:" ++ ice_pwd d ++ [13; 10].

Definition last_round (d : ice_description_t) : list Z :=
  if finished d then str "a=end-of-candidates" ++ [13; 10] ++ str "a=ice-options:ice2" ++ [13; 10]
  else str "a=ice-options:ice2,trickle" ++ [13; 10].

(** The text of round [i], [None] for [continue]. *)
Definition sdp_round (d : ice_description_t) (i : nat) : option (list Z) :=
  match i with
  | O => Some (description_round d)
  | S j =>
      match candidates d !! j with
      | Some c => candidate_round c
      | None => Some (last_round d)
      end
  end.

(** The loop: [len], and the string from the start of the buffer to [begin].
    [begin] moves by what [snprintf] left in the buffer. *)
Fixpoint generate_rounds (d : ice_description_t) (size : Z) (i n : nat) (len : Z) (out : list Z)
  : Z * list Z :=
  match n with
  | O => (len, out)
  | S n' =>
      match sdp_round d i with
      | None => generate_rounds d size (S i) n' len out
      | Some s =>
          let '(ret, w) := snprintf (size - zlen out) s in
          generate_rounds d size (S i) n' (len + ret)
            (match w with Some w => out ++ w | None => out end)
      end
  end.

(** The result and the string left in the buffer of [size] bytes. *)
Definition ice_generate_sdp (d : ice_description_t) (size : Z) : Z * list Z :=
  if bool_decide (ice_ufrag d = []) || bool_decide (ice_pwd d = []) then (-1, [])
  else generate_rounds d size 0 (length (candidates d) + 2) 0 [].

(** ** Specifications *)

(** The whole text of a description: what the rounds print. *)
Definition sdp_text (d : ice_description_t) : list Z :=
  description_round d ++ concat (omap candidate_round (candidates d)) ++ last_round d.

(** A candidate as the arrays can hold it and as a line can carry it. *)
Definition sendable (c : ice_candidate_t) : Prop :=
  (type c = ICE_CANDIDATE_TYPE_HOST \/ type c = ICE_CANDIDATE_TYPE_SERVER_REFLEXIVE \/
   type c = ICE_CANDIDATE_TYPE_RELAYED) /\
  (transport c = ICE_CANDIDATE_TRANSPORT_UDP \/
   transport c = ICE_CANDIDATE_TRANSPORT_TCP_TYPE_ACTIVE) /\
  (word (foundation c) /\ zlen (foundation c) <= 32) /\
  (word (hostname c) /\ zlen (hostname c) <= 256) /\
  (word (service c) /\ zlen (service c) <= 32) /\
  0 <= component c < 2 ^ 31 /\ 0 <= priority c < 2 ^ 32.

(** A string the description accepts as a user fragment or password. *)
Definition valid_field (min : Z) (s : list Z) : Prop :=
  min <= zlen s <= 256 /\ ice_is_valid_string (Some s) = true.

(** The candidate a line stands for: all but the resolved address, which the
    parser computes again. *)
Definition unresolved (c : ice_candidate_t) : ice_candidate_t :=
  {| type := type c; priority := priority c; component := component c;
     foundation := foundation c; transport := transport c; hostname := hostname c;
     service := service c; resolved := addr_record_zero |}.

Definition reparsed (getaddrinfo : getaddrinfo_t) (c : ice_candidate_t) : ice_candidate_t :=
  snd (ice_resolve_candidate getaddrinfo (unresolved c) ICE_RESOLVE_MODE_SIMPLE).

(** What fits the arrays of a candidate. *)
Definition candidate_fits (c : ice_candidate_t) : Prop :=
  zlen (foundation c) <= 32 /\ zlen (hostname c) <= 256 /\ zlen (service c) <= 32 /\
  - 2 ^ 31 <= component c < 2 ^ 31 /\ 0 <= priority c < 2 ^ 32 /\
  type c <> ICE_CANDIDATE_TYPE_UNKNOWN.

(** What any parsed description satisfies. *)
Definition description_ok (d : ice_description_t) : Prop :=
  (ice_ufrag d = [] \/ valid_field 4 (ice_ufrag d)) /\
  (ice_pwd d = [] \/ valid_field 22 (ice_pwd d)) /\
  candidates_count d <= ICE_MAX_CANDIDATES_COUNT /\ Forall candidate_fits (candidates d).

(** Text without line ends. *)
Definition no_crlf : list Z -> Prop := Forall (fun b => b <> 10 /\ b <> 13).

(** The candidates of a description that is sent and read back. *)
Definition carried (c : ice_candidate_t) : Prop :=
  candidate_round c = None \/ sendable c /\ foundation c <> str "-".

(** What the conversions of a format may assign. *)
Definition value_fits (d : directive) (v : value) : Prop :=
  match d, v with
  | DStr w, VStr s => s <> [] /\ (length s <= w)%nat
  | DInt, VInt z => - 2 ^ 31 <= z < 2 ^ 31
  | DUint, VInt z => 0 <= z < 2 ^ 32
  | _, _ => False
  end.

Fixpoint values_fit (fmt : list directive) (vs : list value) : Prop :=
  match fmt with
  | [] => vs = []
  | DSpace :: fmt' | DLit _ :: fmt' => values_fit fmt' vs
  | d :: fmt' =>
      match vs with [] => True | v :: vs' => value_fits d v /\ values_fit fmt' vs' end
  end.

(** ** Generation *)

Lemma take_app_take {A} (n : nat) (t s : list A) :
  take n t ++ take (n - length (take n t)) s = take n (t ++ s).
Proof.
  rewrite take_app, length_take. f_equal.
  destruct (Nat.le_gt_cases (length t) n).
  - by rewrite Nat.min_r.
  - rewrite Nat.min_l by lia. by replace (n - length t)%nat with (n - n)%nat by lia.
Qed.

(** The rounds from [i] on print the rest of the text. *)
Lemma generate_rounds_spec d size (n : nat) : forall i t,
  0 <= size ->
  generate_rounds d size i n (zlen t) (take (Z.to_nat (size - 1)) t)
  = (let t := t ++ concat (omap (sdp_round d) (seq i n)) in
     (zlen t, take (Z.to_nat (size - 1)) t)).
Proof.
  induction n as [|n IH]; intros i t Hs; cbn [generate_rounds seq].
  { cbn. by rewrite app_nil_r. }
  change (omap (sdp_round d) (i :: seq (S i) n)) with
    (match sdp_round d i with
     | Some y => y :: omap (sdp_round d) (seq (S i) n)
     | None => omap (sdp_round d) (seq (S i) n) end).
  destruct (sdp_round d i) as [s|]; [|by apply IH]. cbn [snprintf concat].
  unfold snprintf.
  set (out := take (Z.to_nat (size - 1)) t).
  assert (Ho : (length out <= Z.to_nat (size - 1))%nat) by (unfold out; rewrite length_take; lia).
  replace (match (if 0 <? size - zlen out
                  then Some (take (Z.to_nat (size - zlen out - 1)) s) else None) with
           | Some w => out ++ w | None => out end)
    with (take (Z.to_nat (size - 1)) (t ++ s)).
  - rewrite <- zlen_app, IH by done. cbv zeta. by rewrite <- app_assoc.
  - rewrite <- take_app_take. fold out. case_if.
    + f_equal. f_equal. unfold zlen. lia.
    + replace (Z.to_nat (size - 1) - length out)%nat with O by (unfold zlen in *; lia).
      by rewrite take_0, app_nil_r.
Qed.

Lemma sdp_rounds_text d :
  concat (omap (sdp_round d) (seq 0 (length (candidates d) + 2))) = sdp_text d.
Proof.
  rewrite Nat.add_comm. cbn [Nat.add seq]. cbn. unfold sdp_text. f_equal.
  assert (H : forall cs, candidates d = cs ++ drop (length cs) (candidates d) ->
    concat (omap (sdp_round d) (seq (1 + length cs) (S (length (drop (length cs) (candidates d))))))
    = concat (omap candidate_round (drop (length cs) (candidates d))) ++ last_round d).
  2: { specialize (H [] eq_refl). cbn in H. by rewrite drop_0 in H. }
  intros cs. remember (drop (length cs) (candidates d)) as r eqn:Hr. clear Hr. revert cs.
  induction r as [|c r IH]; intros cs Hd.
  - cbn. rewrite app_nil_r in Hd. rewrite (proj2 (lookup_ge_None _ _)) by (rewrite Hd; lia).
    cbn. by rewrite app_nil_r.
  - specialize (IH (cs ++ [c])). rewrite <- app_assoc, length_app, Nat.add_1_r in IH.
    specialize (IH Hd). cbn [length seq].
    change (1 + length cs)%nat with (S (length cs)).
    change (omap (sdp_round d) (S (length cs) :: ?l)) with
      (match sdp_round d (S (length cs)) with
       | Some y => y :: omap (sdp_round d) l | None => omap (sdp_round d) l end).
    assert (sdp_round d (S (length cs)) = candidate_round c) as ->.
    { cbn. by rewrite Hd, list_lookup_middle. }
    cbn [seq length Nat.add] in IH. cbn. destruct (candidate_round c); cbn [concat].
    + rewrite <- app_assoc. by f_equal.
    + done.
Qed.

(** ** Parsing what was generated *)

Lemma dec_digits_length (fuel : nat) (n : Z) : (length (dec_digits fuel n) <= fuel)%nat.
Proof.
  revert n; induction fuel as [|fuel IH]; intros n; [done|]. cbn [dec_digits].
  case_if; [cbn; lia|]. rewrite length_app. cbn. specialize (IH (n / 10)). lia.
Qed.

Lemma fmt_u_length (n : Z) : zlen (fmt_u n) <= 20.
Proof. unfold fmt_u. pose proof (dec_digits_length 20 (u32 n)). zlia. Qed.

Lemma sscanf_int (sgn : bool) (n : Z) (fmt : list directive) (rest : list Z) :
  0 <= n < 2 ^ 31 \/ sgn = false /\ 0 <= n < 2 ^ 32 -> stops rest ->
  sscanf ((if sgn then DInt else DUint) :: fmt) (fmt_u n ++ rest) = VInt n :: sscanf fmt rest.
Proof.
  intros Hn Hr. destruct sgn; cbn [sscanf]; by rewrite scan_number_fmt_u.
Qed.

(** The six fields before the type. *)
Lemma sscanf_fields (f tr h s tail : list Z) (c p : Z) :
  word f -> word tr -> word h -> word s ->
  zlen f <= 32 -> zlen tr <= 32 -> zlen h <= 256 -> zlen s <= 32 ->
  0 <= c < 2 ^ 31 -> 0 <= p < 2 ^ 32 -> stops tail ->
  sscanf candidate_format
    (f ++ 32 :: fmt_u c ++ 32 :: tr ++ 32 :: fmt_u p ++ 32 :: h ++ 32 :: s ++ tail)
  = VStr f :: VInt c :: VStr tr :: VInt p :: VStr h :: VStr s ::
    sscanf (drop 11 candidate_format) tail.
Proof.
  intros. unfold candidate_format. unfold zlen in *.
  assert (Hs : stops (32 :: tail)) by done.
  rewrite sscanf_str by (done || lia). f_equal.
  rewrite sscanf_space, (sscanf_int true) by (auto with juice; try lia; done). f_equal.
  rewrite sscanf_space, sscanf_str by (done || lia). f_equal.
  rewrite sscanf_space, (sscanf_int false) by (auto with juice; try lia; done). f_equal.
  rewrite sscanf_space, sscanf_str by (done || lia). f_equal.
  rewrite sscanf_space, sscanf_str by (done || lia). done.
Qed.

Lemma no_crlf_str (l : list Z) :
  forallb (fun b => negb (b =? 10) && negb (b =? 13)) l = true -> no_crlf l.
Proof.
  rewrite forallb_forall. intros Hf. apply Forall_forall. intros b Hb.
  specialize (Hf b (proj1 (list_elem_of_In _ _) Hb)). bool_to_prop. done.
Qed.

Lemma word_no_crlf (w : list Z) : word w -> no_crlf w.
Proof.
  intros [_ Hw]. eapply Forall_impl; [exact Hw|]. cbn. unfold isspace.
  intros c Hc. bool_to_prop. intuition lia.
Qed.

Lemma word_str (w : list Z) :
  negb (bool_decide (w = [])) && forallb (fun c => negb (isspace c)) w = true -> word w.
Proof.
  rewrite andb_true_iff, negb_true_iff, bool_decide_eq_false, forallb_forall.
  intros [Hn Hf]. split; [done|]. apply Forall_forall. intros c Hc.
  apply negb_true_iff, Hf, list_elem_of_In, Hc.
Qed.

(** The end of a line of a sendable candidate. *)
Lemma candidate_line_sendable c :
  sendable c ->
  exists tr tail, word tr /\ zlen tr <= 32 /\ zlen tail <= 32 /\ stops tail /\
    candidate_line c = Some (str "a=candidate:" ++
      foundation c ++ 32 :: fmt_u (component c) ++ 32 :: tr ++ 32 :: fmt_u (priority c) ++
      32 :: hostname c ++ 32 :: service c ++ tail) /\
    no_crlf (tr ++ tail) /\
    exists t rest, sscanf (drop 11 candidate_format) tail = VStr t :: rest /\
      parse_type t = Some (type c) /\
      ((rest = [] /\ parse_transport tr [] = Some (transport c)) \/
       exists x y, rest = [VStr x; VStr y] /\ parse_transport tr y = Some (transport c)).
Proof.
  intros (Ht & Htr & _).
  unfold candidate_line.
  destruct Ht as [Ht|[Ht|Ht]], Htr as [Htr|Htr]; rewrite Ht, Htr;
    (eexists _, _; do 4 (split; [shelve|]); split; [reflexivity|]);
    (split; [apply no_crlf_str; reflexivity|]);
    (eexists _, _; split_and!; [reflexivity|reflexivity|]);
    first [left; split; reflexivity | right; eexists _, _; split; reflexivity].
  Unshelve.
  all: first [apply word_str; reflexivity | zlia | done].
Qed.

Lemma parse_candidate_line c line :
  sendable c -> candidate_line c = Some line -> parse_sdp_candidate line = inr (unresolved c).
Proof.
  intros Hc Hl. destruct (candidate_line_sendable c Hc)
    as (tr & tail & Hw & Hlt & _ & Hst & Hl' & _ & t & rest & Hs & Ht & Hr).
  destruct Hc as (_ & _ & [? ?] & [? ?] & [? ?] & ? & ?).
  rewrite Hl' in Hl. apply Some_inj in Hl. rewrite <- Hl. unfold parse_sdp_candidate.
  assert (E : forall x, skip_prefix (skip_prefix (str "a=candidate:" ++ x) (str "a="))
                          (str "candidate:") = x) by (intros x; reflexivity).
  cbv zeta. rewrite E, sscanf_fields, Hs by done.
  destruct Hr as [[-> Hr]|(x & y & -> & Hr)]; by rewrite Ht, Hr.
Qed.

Lemma match_prefix_yes (p s : list Z) : p <> [] -> match_prefix (p ++ s) p = (true, s).
Proof.
  intros Hp. unfold match_prefix, skip_prefix. rewrite starts_with_app, drop_app_length.
  rewrite bool_decide_eq_false_2; [done|]. rewrite length_app. destruct p; [done|cbn; lia].
Qed.

Lemma match_prefix_no (p s : list Z) :
  starts_with p s = false -> p <> [] -> match_prefix s p = (false, s).
Proof.
  intros Hs Hp. unfold match_prefix, skip_prefix. rewrite Hs.
  rewrite bool_decide_eq_true_2, bool_decide_eq_false_2 by done. done.
Qed.

Lemma valid_field_word (min : Z) (s : list Z) : 0 < min -> valid_field min s -> word s.
Proof.
  intros Hmin [Hl Hv]. split; [intros ->; rewrite zlen_nil in Hl; lia|].
  apply Forall_forall. intros c Hc. cbn [ice_is_valid_string] in Hv.
  pose proof (proj1 (forallb_forall _ _) Hv c (proj1 (list_elem_of_In _ _) Hc)) as H.
  unfold isalpha, isupper, islower, isdigit in H. unfold isspace.
  rewrite orb_false_iff, andb_false_iff, Z.eqb_neq, !Z.leb_gt.
  rewrite !orb_true_iff, !andb_true_iff, !Z.eqb_eq, !Z.leb_le in H. lia.
Qed.

Lemma scan_field_word (s old : list Z) : word s -> zlen s <= 256 -> scan_field s old = s.
Proof.
  intros Hw Hl. unfold scan_field. rewrite <- (app_nil_r s) at 1.
  rewrite sscanf_str by (done || zlia). done.
Qed.

Section RoundTrip.

Context (getaddrinfo : getaddrinfo_t).
Abbreviation loop := (ice_parse_sdp_loop getaddrinfo).
Abbreviation parse_line := (parse_sdp_line getaddrinfo).

(** One line of the text is one call of [parse_sdp_line]. *)
Lemma loop_line (l : list Z) : forall (buf rest : list Z) d,
  no_crlf l -> buf ++ l <> [] -> zlen (buf ++ l) < BUFFER_SIZE ->
  loop (l ++ 13 :: 10 :: rest) buf d
  = (let '(ret, d) := parse_line (buf ++ l) d in
     if ret =? ICE_PARSE_ERROR then inl d else loop rest [] d).
Proof.
  induction l as [|c l IH]; intros buf rest d Hl Hn Hz.
  - rewrite app_nil_r in *. cbn. by destruct buf.
  - apply Forall_cons_1 in Hl as [[H10 H13] Hl]. cbn [app ice_parse_sdp_loop].
    rewrite (proj2 (Z.eqb_neq c 10)), (proj2 (Z.eqb_neq c 13)) by done. cbn [negb andb].
    rewrite zlen_app, zlen_cons in Hz. pose proof (zlen_nonneg l).
    rewrite (proj2 (Z.ltb_lt _ _)) by lia.
    rewrite IH; rewrite <- ?app_assoc; cbn [app]; try done.
    rewrite zlen_app, zlen_cons. lia.
Qed.

Lemma loop_line_ok (l rest : list Z) d d' :
  no_crlf l -> l <> [] -> zlen l < BUFFER_SIZE -> fst (parse_line l d) <> ICE_PARSE_ERROR ->
  snd (parse_line l d) = d' -> loop (l ++ 13 :: 10 :: rest) [] d = loop rest [] d'.
Proof.
  intros Hl Hn Hz Hr <-. rewrite loop_line by done. cbn [app].
  destruct (parse_line l d) as [ret d']. cbn [fst snd] in *.
  by rewrite (proj2 (Z.eqb_neq _ _) Hr).
Qed.

Lemma parse_ufrag_line u d :
  valid_field 4 u ->
  parse_line (str "a=ice-ufrag:" ++ u) d
  = (0, {| ice_ufrag := u; ice_pwd := ice_pwd d; ice_lite := ice_lite d;
           candidates := candidates d; finished := finished d |}).
Proof.
  intros Hu. pose proof (valid_field_word 4 u ltac:(lia) Hu). destruct Hu as [Hl Hv].
  unfold parse_sdp_line. rewrite match_prefix_yes by done.
  rewrite Hv, (proj2 (Z.ltb_ge _ _)), (proj2 (Z.ltb_ge _ _)) by lia.
  cbn [orb negb]. by rewrite scan_field_word by (done || lia).
Qed.

Lemma parse_pwd_line w d :
  valid_field 22 w ->
  parse_line (str "a=ice-pwd:" ++ w) d
  = (0, {| ice_ufrag := ice_ufrag d; ice_pwd := w; ice_lite := ice_lite d;
           candidates := candidates d; finished := finished d |}).
Proof.
  intros Hu. pose proof (valid_field_word 22 w ltac:(lia) Hu). destruct Hu as [Hl Hv].
  unfold parse_sdp_line. rewrite match_prefix_no, match_prefix_yes by done.
  rewrite Hv, (proj2 (Z.ltb_ge _ _)), (proj2 (Z.ltb_ge _ _)) by lia.
  cbn [orb negb]. by rewrite scan_field_word by (done || lia).
Qed.

Lemma resolve_candidate_fields c mode :
  let c' := snd (ice_resolve_candidate getaddrinfo c mode) in
  type c' = type c /\ foundation c' = foundation c /\ priority c' = priority c /\
  component c' = component c /\ transport c' = transport c /\ hostname c' = hostname c /\
  service c' = service c.
Proof.
  unfold ice_resolve_candidate. cbv zeta.
  destruct (getaddrinfo _ _ _ _) as [ais|]; [|done]. by destruct (filter _ ais).
Qed.

Lemma parse_candidate_sdp_line c line :
  sendable c -> candidate_line c = Some line ->
  ice_parse_candidate_sdp getaddrinfo line = inr (reparsed getaddrinfo c).
Proof.
  intros Hc Hl. unfold ice_parse_candidate_sdp.
  rewrite (parse_candidate_line c line) by done.
  destruct (candidate_line_sendable c Hc) as (tr & tail & _ & _ & _ & _ & Hl' & _).
  rewrite Hl' in Hl. apply Some_inj in Hl. rewrite <- Hl. by rewrite match_prefix_yes.
Qed.

Lemma parse_sdp_line_candidate c line d :
  sendable c -> foundation c <> str "-" -> candidate_line c = Some line ->
  candidates_count d < ICE_MAX_CANDIDATES_COUNT ->
  parse_line line d = (0, with_candidates d (candidates d ++ [reparsed getaddrinfo c])).
Proof.
  intros Hc Hf Hl Hd. unfold parse_sdp_line.
  rewrite (parse_candidate_sdp_line c line) by done.
  destruct (resolve_candidate_fields (unresolved c) ICE_RESOLVE_MODE_SIMPLE)
    as (Ht & Hf' & _). fold (reparsed getaddrinfo c) in *.
  assert (Hadd : ice_add_candidate (reparsed getaddrinfo c) d
    = (0, reparsed getaddrinfo c, with_candidates d (candidates d ++ [reparsed getaddrinfo c]))).
  { unfold ice_add_candidate. rewrite Hf', Ht. cbn [type foundation unresolved].
    rewrite !bool_decide_eq_false_2, (proj2 (Z.leb_gt _ _)); try done.
    destruct Hc as ([-> | [-> | ->] ] & _); done. }
  rewrite Hadd. destruct (candidate_line_sendable c Hc) as (tr & tail & _ & _ & _ & _ & Hl' & _).
  rewrite Hl' in Hl. apply Some_inj in Hl. rewrite <- Hl.
  by rewrite !match_prefix_no by done.
Qed.

(** A generated line has no line ends and fits the buffers. *)
Lemma candidate_line_shape c line :
  sendable c -> candidate_line c = Some line ->
  no_crlf line /\ line <> [] /\ zlen line + 2 < BUFFER_SIZE.
Proof.
  intros Hc Hl.
  destruct (candidate_line_sendable c Hc)
    as (tr & tail & Hw & Hlt & Htail & Hst & Hl' & Hcr & _).
  destruct Hc as (_ & _ & [Hf ?] & [Hh ?] & [Hs ?] & _).
  rewrite Hl' in Hl. apply Some_inj in Hl. rewrite <- Hl. clear Hl Hl'.
  apply Forall_app in Hcr as [Htr Htl].
  split_and!.
  - unfold no_crlf. repeat (rewrite Forall_app || rewrite Forall_cons).
    split_and!; try done; try (by apply word_no_crlf; auto with juice).
    by apply no_crlf_str.
  - done.
  - pose proof (fmt_u_length (component c)). pose proof (fmt_u_length (priority c)).
    rewrite ?zlen_app, ?zlen_cons, ?zlen_app, ?zlen_cons, ?zlen_app, ?zlen_cons, ?zlen_app,
      ?zlen_cons, ?zlen_app, ?zlen_cons, ?zlen_app.
    change (zlen (str "a=candidate:")) with 12. unfold BUFFER_SIZE. lia.
Qed.

Lemma candidate_round_sendable c :
  sendable c -> exists line, candidate_line c = Some line /\
                             candidate_round c = Some (line ++ [13; 10]).
Proof.
  intros Hc. destruct (candidate_line_sendable c Hc) as (tr & tail & _ & _ & _ & _ & Hl & _).
  eexists; split; [exact Hl|]. set (line := str "a=candidate:" ++ _) in *.
  destruct (candidate_line_shape c line Hc Hl) as (_ & _ & Hz).
  unfold candidate_round, ice_generate_candidate_sdp. rewrite Hl, snprintf_whole by lia.
  pose proof (zlen_nonneg line). rewrite (proj2 (Z.ltb_ge _ _)) by lia.
  destruct Hc as ([-> | [-> | ->] ] & _); done.
Qed.

Lemma loop_candidates (cs : list ice_candidate_t) : forall d rest,
  Forall carried cs -> candidates_count d + zlen cs <= ICE_MAX_CANDIDATES_COUNT ->
  loop (concat (omap candidate_round cs) ++ rest) [] d
  = loop rest [] (with_candidates d (candidates d ++
      (reparsed getaddrinfo <$> filter (fun c => is_Some (candidate_round c)) cs))).
Proof.
  induction cs as [|c cs IH]; intros d rest Hcs Hn.
  { cbn. rewrite app_nil_r. by destruct d. }
  rewrite zlen_cons in Hn. pose proof (zlen_nonneg cs).
  apply Forall_cons_1 in Hcs as [[Hc|[Hc Hf] ] Hcs].
  - rewrite filter_cons_False by (rewrite Hc; apply is_Some_None).
    cbn [omap list_omap]. rewrite Hc. apply IH; [done|lia].
  - destruct (candidate_round_sendable c Hc) as (line & Hl & Hr).
    rewrite filter_cons_True by eauto. cbn [omap list_omap]. rewrite Hr. cbn [concat].
    destruct (candidate_line_shape c line Hc Hl) as (Hcr & Hne & Hz).
    rewrite <- !app_assoc. cbn [app].
    assert (Hp := parse_sdp_line_candidate c line d Hc Hf Hl ltac:(lia)).
    erewrite loop_line_ok; [|done|done|lia|by rewrite Hp|by rewrite Hp].
    rewrite IH; [|done|].
    + cbn [snd candidates with_candidates fmap list_fmap]. by rewrite <- app_assoc.
    + unfold candidates_count in *. cbn [snd candidates with_candidates]. rewrite zlen_app. zlia.
Qed.

(** The lines after the candidates. *)
Lemma loop_last (d d0 : ice_description_t) :
  finished d0 = false ->
  loop (last_round d) [] d0
  = inr {| ice_ufrag := ice_ufrag d0; ice_pwd := ice_pwd d0; ice_lite := ice_lite d0;
           candidates := candidates d0; finished := finished d |}.
Proof. destruct d0 as [? ? ? ? fin]. cbn. intros ->. unfold last_round. by destruct (finished d). Qed.

Lemma loop_description d rest :
  valid_field 4 (ice_ufrag d) -> valid_field 22 (ice_pwd d) -> ice_lite d = false ->
  loop (description_round d ++ rest) [] ice_description_zero
  = loop rest [] {| ice_ufrag := ice_ufrag d; ice_pwd := ice_pwd d; ice_lite := false;
                    candidates := []; finished := false |}.
Proof.
  intros Hu Hp Hli. unfold description_round. rewrite Hli.
  pose proof (word_no_crlf _ (valid_field_word 4 _ ltac:(lia) Hu)).
  pose proof (word_no_crlf _ (valid_field_word 22 _ ltac:(lia) Hp)).
  assert (Hb : forall p f, zlen p <= 20 -> no_crlf p -> no_crlf f -> zlen f <= 256 ->
    no_crlf (p ++ f) /\ zlen (p ++ f) < BUFFER_SIZE).
  { intros p f ? ? ? ?. split; [by apply Forall_app|]. rewrite zlen_app. unfold BUFFER_SIZE. lia. }
  destruct (Hb (str "a=ice-ufrag:") (ice_ufrag d)) as [? ?];
    [done|by apply no_crlf_str|done|apply Hu|].
  destruct (Hb (str "a=ice-pwd:") (ice_pwd d)) as [? ?];
    [done|by apply no_crlf_str|done|apply Hp|].
  rewrite <- !app_assoc. rewrite (app_assoc (str "a=ice-ufrag:")). cbn [app].
  erewrite loop_line_ok; [|done|done|done|by rewrite parse_ufrag_line|by rewrite parse_ufrag_line].
  rewrite (app_assoc (str "a=ice-pwd:")).
  erewrite loop_line_ok; [|done|done|done|by rewrite parse_pwd_line|by rewrite parse_pwd_line].
  done.
Qed.

End RoundTrip.

(** ** Parsing any input *)

Lemma span_length (p : Z -> bool) (n : nat) (l : list Z) : (length (fst (span p n l)) <= n)%nat.
Proof.
  revert l; induction n as [|n IH]; intros [|c l]; cbn; try lia.
  specialize (IH l). destruct (span p n l). destruct (p c); cbn in *; lia.
Qed.

Lemma values_fit_nil (fmt : list directive) : values_fit fmt [].
Proof. induction fmt as [|[]]; done. Qed.
#[local] Hint Resolve values_fit_nil : juice.

Lemma scan_number_range (sgn : bool) (l rest : list Z) (v : Z) :
  scan_number sgn l = Some (v, rest) ->
  if sgn then - 2 ^ 31 <= v < 2 ^ 31 else 0 <= v < 2 ^ 32.
Proof.
  unfold scan_number. cbv zeta.
  match goal with |- (let '(_, _) := ?X in _) = _ -> _ => destruct X as [neg l'] end.
  destruct (span _ _ _) as [[|c s] r]; [done|]. intros [= <- _]. destruct sgn; solve_width.
Qed.

(** [sscanf] stays within the arrays its widths are for. *)
Lemma sscanf_fits (fmt : list directive) : forall l, values_fit fmt (sscanf fmt l).
Proof.
  induction fmt as [|d fmt IH]; intros l; [done|].
  destruct d as [|c|w| |]; cbn [sscanf values_fit].
  - apply IH.
  - destruct l as [|c' l]; [auto with juice|]. case_if; auto with juice.
  - pose proof (span_length (fun c => negb (isspace c)) w (skip_space l)) as Hl.
    destruct (span _ w _) as [[|c s] rest]; [done|]. by split.
  - destruct (scan_number true l) as [[v rest]|] eqn:E; [|done]. split; [|apply IH].
    by apply (scan_number_range true) in E.
  - destruct (scan_number false l) as [[v rest]|] eqn:E; [|done]. split; [|apply IH].
    by apply (scan_number_range false) in E.
Qed.

Lemma parse_type_known name t : parse_type name = Some t -> t <> ICE_CANDIDATE_TYPE_UNKNOWN.
Proof. unfold parse_type. repeat case_bool_decide; by intros [= <-]. Qed.

Lemma parse_sdp_candidate_fits line c :
  parse_sdp_candidate line = inr c -> candidate_fits c.
Proof.
  unfold parse_sdp_candidate. cbv zeta. set (l := skip_prefix _ _).
  pose proof (sscanf_fits candidate_format l) as Hf. revert Hf.
  generalize (sscanf candidate_format l) as vs. intros vs Hf H.
  repeat (destruct vs as [|[?|?] vs]; try discriminate H);
    cbn in Hf; destruct_and? Hf;
    (destruct (parse_type _) as [t|] eqn:Ht; [|discriminate]);
    (destruct (parse_transport _ _) as [tr|]; [|discriminate]);
    injection H as <-; unfold candidate_fits; cbn [foundation hostname service component priority type];
    apply parse_type_known in Ht; unfold zlen; split_and!; try lia; done.
Qed.

Lemma candidate_fits_add c d :
  description_ok d -> candidate_fits c -> description_ok (snd (ice_add_candidate c d)).
Proof.
  intros (Hu & Hp & Hn & Hcs) Hc. unfold ice_add_candidate.
  case_bool_decide; [done|]. case_if; [done|]. cbn [snd].
  split_and!; cbn [ice_ufrag ice_pwd with_candidates candidates]; try done.
  - unfold candidates_count in *. cbn [with_candidates candidates]. rewrite zlen_app. zlia.
  - apply Forall_app; split; [done|]. apply Forall_singleton. case_bool_decide; [|done].
    destruct Hc as (? & ? & ? & ? & ?). split; [|done]. cbn [foundation].
    destruct (snprintf_fits MAX_FOUNDATION_PRINT (fmt_u (candidates_count d + 1))
                ltac:(done)) as (t & -> & Ht). cbn. unfold MAX_FOUNDATION_PRINT in Ht. lia.
Qed.

Section AnyInput.

Context (getaddrinfo : getaddrinfo_t).

Lemma parse_sdp_line_ok line d :
  description_ok d -> description_ok (snd (parse_sdp_line getaddrinfo line d)).
Proof.
  intros Hd. unfold parse_sdp_line.
  assert (Hv : forall min arg old, 0 < min ->
    (zlen arg <? min) || (256 <? zlen arg) || negb (ice_is_valid_string (Some arg)) = false ->
    valid_field min (scan_field arg old)).
  { intros min arg old Hmin E. bool_to_prop.
    assert (valid_field min arg) as Hf by done. rewrite scan_field_word; [done| |lia].
    by apply (valid_field_word min). }
  destruct (match_prefix line (str "a=ice-ufrag:")) as [m arg]. destruct m.
  { destruct (_ || _) eqn:E; [done|]. cbn [snd]. destruct Hd as (_ & ? & ? & ?). split_and!; try done.
    right. cbn [ice_ufrag]. by apply Hv. }
  destruct (match_prefix line (str "a=ice-pwd:")) as [m arg']. destruct m.
  { destruct (_ || _) eqn:E; [done|]. cbn [snd]. destruct Hd as (? & _ & ? & ?). split_and!; try done.
    right. cbn [ice_pwd]. by apply Hv. }
  case_if; [done|]. case_if; [done|].
  unfold ice_parse_candidate_sdp. case_if; [|done].
  destruct (parse_sdp_candidate line) as [|c] eqn:Ec; [done|].
  apply candidate_fits_add; [done|]. apply parse_sdp_candidate_fits in Ec.
  destruct (resolve_candidate_fields getaddrinfo c ICE_RESOLVE_MODE_SIMPLE)
    as (Ht & Hf & Hp & Hc & _ & Hh & Hs).
  unfold candidate_fits. rewrite Ht, Hf, Hp, Hc, Hh, Hs. done.
Qed.

Lemma ice_parse_sdp_loop_ok (sdp : list Z) : forall buffer d,
  description_ok d ->
  match ice_parse_sdp_loop getaddrinfo sdp buffer d with
  | inl d' => description_ok d' | inr d' => description_ok d'
  end.
Proof.
  induction sdp as [|c sdp IH]; intros buffer d Hd; [done|]. cbn [ice_parse_sdp_loop].
  case_if; [|case_if; by apply IH].
  destruct buffer as [|b buffer]; [by apply IH|].
  pose proof (parse_sdp_line_ok (b :: buffer) d Hd) as Hl.
  destruct (parse_sdp_line _ _ _) as [ret d']. case_if; [done|]. by apply IH.
Qed.

End AnyInput.

(** ** Theorems *)

Lemma ice_generate_sdp_spec d size :
  0 <= size -> ice_ufrag d <> [] -> ice_pwd d <> [] ->
  ice_generate_sdp d size = (zlen (sdp_text d), take (Z.to_nat (size - 1)) (sdp_text d)).
Proof.
  intros Hs Hu Hp. unfold ice_generate_sdp. rewrite !bool_decide_eq_false_2 by done. cbn [orb].
  pose proof (generate_rounds_spec d size (length (candidates d) + 2) 0 [] Hs) as H.
  rewrite sdp_rounds_text, take_nil in H. done.
Qed.

(** Generating a description into a buffer is one [snprintf] of the whole
    text: the result is the length of the complete text whatever the size, the
    buffer holds its longest prefix that leaves room for the terminator, and
    nothing is written past the size. *)
Theorem ice_generate_sdp_snprintf (d : ice_description_t) (size : Z) :
  0 < size -> ice_ufrag d <> [] -> ice_pwd d <> [] ->
  let '(ret, out) := ice_generate_sdp d size in
  ret = zlen (sdp_text d) /\ Some out = snd (snprintf size (sdp_text d)) /\ zlen out < size.
Proof.
  intros Hs Hu Hp. rewrite ice_generate_sdp_spec by (done || lia).
  split_and!; [done| |].
  - unfold snprintf. by rewrite (proj2 (Z.ltb_lt _ _)).
  - unfold zlen. rewrite length_take. lia.
Qed.

Lemma ice_generate_sdp_snprintf_witness :
  let '(ret, out) := ice_generate_sdp (ice_create_local_description (fun _ => 0) (fun _ => 0)) 20
  in ret = zlen (sdp_text (ice_create_local_description (fun _ => 0) (fun _ => 0))) /\
     Some out = snd (snprintf 20 (sdp_text (ice_create_local_description
                                              (fun _ => 0) (fun _ => 0)))) /\ zlen out < 20.
Proof. apply (ice_generate_sdp_snprintf _ 20); [lia|discriminate|discriminate]. Defined.

(** C32: the description of a full (not ICE-lite) agent, generated into a buffer that
    holds the whole text and parsed again, is the description: same credentials and end
    mark, and the candidates that are sent, with all their fields, sorted by priority
    and with their addresses resolved again.  The credentials must be valid (4 to 256
    and 22 to 256 ICE characters); there are at most 30 candidates; each is either not
    sent or a host, server reflexive or relayed candidate over UDP or active TCP, whose
    foundation, host name and service are words that fit their arrays, with a foundation
    other than a dash. *)
Theorem ice_sdp_roundtrip (getaddrinfo : getaddrinfo_t) (d : ice_description_t) (size : Z) :
  valid_field 4 (ice_ufrag d) -> valid_field 22 (ice_pwd d) -> ice_lite d = false ->
  candidates_count d <= ICE_MAX_CANDIDATES_COUNT -> Forall carried (candidates d) ->
  zlen (sdp_text d) < size ->
  ice_parse_sdp getaddrinfo (snd (ice_generate_sdp d size))
  = (0, {| ice_ufrag := ice_ufrag d; ice_pwd := ice_pwd d; ice_lite := false;
           candidates := insertion_sort priority
             (reparsed getaddrinfo <$>
                filter (fun c => is_Some (candidate_round c)) (candidates d));
           finished := finished d |}).
Proof.
  intros Hu Hp Hli Hn Hcs Hsize.
  pose proof (valid_field_word 4 _ ltac:(lia) Hu) as [Hu' _].
  pose proof (valid_field_word 22 _ ltac:(lia) Hp) as [Hp' _].
  pose proof (zlen_nonneg (sdp_text d)).
  rewrite ice_generate_sdp_spec by (done || lia). cbn [snd].
  rewrite take_ge by zlia. unfold ice_parse_sdp, sdp_text.
  rewrite loop_description by done. rewrite loop_candidates by done. rewrite loop_last by done.
  cbn [ice_ufrag ice_pwd ice_lite candidates finished with_candidates ice_sort_candidates app].
  by rewrite !bool_decide_eq_false_2.
Qed.

Definition example_description : ice_description_t :=
  {| ice_ufrag := str "abcd"; ice_pwd := str "0123456789012345678901"; ice_lite := false;
     candidates :=
       [ {| type := ICE_CANDIDATE_TYPE_SERVER_REFLEXIVE; priority := 1677732351; component := 1;
            foundation := str "2"; transport := ICE_CANDIDATE_TRANSPORT_UDP;
            hostname := str "192.0.2.1"; service := str "4000"; resolved := addr_record_zero |};
         {| type := ICE_CANDIDATE_TYPE_HOST; priority := 2122317823; component := 1;
            foundation := str "1"; transport := ICE_CANDIDATE_TRANSPORT_UDP;
            hostname := str "10.0.0.1"; service := str "4000"; resolved := addr_record_zero |} ];
     finished := true |}.

Lemma ice_sdp_roundtrip_witness :
  fst (ice_parse_sdp (fun _ _ _ _ => None) (snd (ice_generate_sdp example_description 4096))) = 0.
Proof.
  rewrite (ice_sdp_roundtrip (fun _ _ _ _ => None) example_description 4096); try reflexivity.
  - split; [vm_compute; split; discriminate|reflexivity].
  - split; [vm_compute; split; discriminate|reflexivity].
  - vm_compute. discriminate.
  - apply Forall_cons; split; [|apply Forall_cons; split; [|apply Forall_nil; exact I]].
    + right. split; [|discriminate].
      split; [right; left; reflexivity|]. split; [left; reflexivity|].
      split_and!; try (apply word_str; reflexivity); vm_compute; congruence.
    + right. split; [|discriminate].
      split; [left; reflexivity|]. split; [left; reflexivity|].
      split_and!; try (apply word_str; reflexivity); vm_compute; congruence.
Defined.

(** The text generated for an ICE-lite description cannot be read back: the
    second [snprintf] replaces the credential lines, and the parser reports a
    missing user fragment. *)
Theorem ice_lite_sdp_loses_credentials (getaddrinfo : getaddrinfo_t) (d : ice_description_t)
    (size : Z) :
  ice_ufrag d <> [] -> ice_pwd d <> [] -> ice_lite d = true ->
  candidates_count d <= ICE_MAX_CANDIDATES_COUNT -> Forall carried (candidates d) ->
  zlen (sdp_text d) < size ->
  fst (ice_parse_sdp getaddrinfo (snd (ice_generate_sdp d size))) = ICE_PARSE_MISSING_UFRAG.
Proof.
  intros Hu Hp Hli Hn Hcs Hsize. pose proof (zlen_nonneg (sdp_text d)).
  rewrite ice_generate_sdp_spec by (done || lia). cbn [snd].
  rewrite take_ge by zlia. unfold ice_parse_sdp, sdp_text, description_round. rewrite Hli.
  rewrite <- (app_assoc (str "a=ice-lite")). cbn [app].
  erewrite loop_line_ok; [|by apply no_crlf_str|done|done|done|reflexivity].
  rewrite loop_candidates by done. rewrite loop_last by done. done.
Qed.

Lemma ice_lite_sdp_loses_credentials_witness :
  let d := {| ice_ufrag := str "abcd"; ice_pwd := str "0123456789012345678901";
              ice_lite := true; candidates := []; finished := false |} in
  fst (ice_parse_sdp (fun _ _ _ _ => None) (snd (ice_generate_sdp d 4096)))
  = ICE_PARSE_MISSING_UFRAG.
Proof.
  cbv zeta. apply (ice_lite_sdp_loses_credentials (fun _ _ _ _ => None)); try discriminate.
  - reflexivity.
  - constructor.
  - reflexivity.
Defined.

(** C33: Parsing any text leaves a description within all its bounds: at most 30
    candidates of known type whose strings fit their arrays, a user fragment
    and a password that are absent or valid; the result is 0 only with both,
    and the candidates are then sorted. *)
Theorem ice_parse_sdp_safe (getaddrinfo : getaddrinfo_t) (sdp : list Z) :
  let '(ret, d) := ice_parse_sdp getaddrinfo sdp in
  description_ok d /\
  (ret <> ICE_PARSE_ERROR -> sorted_desc priority (candidates d)) /\
  (ret = 0 -> valid_field 4 (ice_ufrag d) /\ valid_field 22 (ice_pwd d)).
Proof.
  pose proof (ice_parse_sdp_loop_ok getaddrinfo sdp [] ice_description_zero) as H.
  assert (Hz : description_ok ice_description_zero).
  { split; [by left|]. split; [by left|]. by split. }
  specialize (H Hz). unfold ice_parse_sdp.
  destruct (ice_parse_sdp_loop _ _ _ _) as [d|d]; [by split_and!|].
  destruct (insertion_sort_spec priority (candidates d)) as (Hs & Hperm & _).
  assert (Hd' : description_ok (ice_sort_candidates d)).
  { destruct H as (? & ? & Hn & Hf). split_and!; try done.
    - unfold candidates_count, zlen in *. cbn. by rewrite Hperm.
    - cbn. by rewrite Hperm. }
  pose proof Hd' as (Hu & Hp & _).
  case_bool_decide; [by split_and!|]. case_bool_decide; [by split_and!|].
  split; [done|]. split; [done|]. intros _. split; [destruct Hu|destruct Hp]; done.
Qed.
