(* ===== verification/StunTypes.v ===== *)
(** * STUN messages: data (src/stun.h)

    Classes, methods, attribute types and limits, credentials and messages, and
    the cryptographic primitives as an interface.  The character arrays of the
    credentials hold C strings; [password_algorithms_value] is the part of its
    array given by [password_algorithms_value_size], [peers] the part given by
    [peers_size], and [data] the bytes the pointer and [data_size] delimit. *)

From S2P Require Import Prelude Addr.

(** ** Constants *)

Definition STUN_MAGIC : Z := 0x2112A442.
Definition STUN_FINGERPRINT_XOR : Z := 0x5354554E.
Definition STUN_TRANSACTION_ID_SIZE : Z := 12.
Definition sizeof_stun_header : Z := 20.
Definition STUN_ATTR_SIZE : Z := 4.
Definition STUN_CLASS_MASK : Z := 0x0110.

Inductive stun_class_t :=
| STUN_CLASS_REQUEST
| STUN_CLASS_INDICATION
| STUN_CLASS_RESP_SUCCESS
| STUN_CLASS_RESP_ERROR.

#[global] Instance stun_class_eq_dec : EqDecision stun_class_t.
Proof. solve_decision. Defined.

Definition class_value (c : stun_class_t) : Z :=
  match c with
  | STUN_CLASS_REQUEST => 0x0000
  | STUN_CLASS_INDICATION => 0x0010
  | STUN_CLASS_RESP_SUCCESS => 0x0100
  | STUN_CLASS_RESP_ERROR => 0x0110
  end.

(** The cast of a masked type to the enumeration. *)
Definition class_of_value (v : Z) : stun_class_t :=
  if v =? 0x0000 then STUN_CLASS_REQUEST
  else if v =? 0x0010 then STUN_CLASS_INDICATION
  else if v =? 0x0100 then STUN_CLASS_RESP_SUCCESS
  else STUN_CLASS_RESP_ERROR.

Definition STUN_IS_RESPONSE (c : stun_class_t) : bool := negb (class_value c .& 0x0100 =? 0).

(** Methods, kept as integers: a received method may be any. *)
Definition STUN_METHOD_BINDING : Z := 0x0001.
Definition STUN_METHOD_ALLOCATE : Z := 0x003.
Definition STUN_METHOD_REFRESH : Z := 0x004.
Definition STUN_METHOD_SEND : Z := 0x006.
Definition STUN_METHOD_DATA : Z := 0x007.
Definition STUN_METHOD_CREATE_PERMISSION : Z := 0x008.
Definition STUN_METHOD_CHANNEL_BIND : Z := 0x009.

(** Attribute types. *)
Definition STUN_ATTR_MAPPED_ADDRESS : Z := 0x0001.
Definition STUN_ATTR_USERNAME : Z := 0x0006.
Definition STUN_ATTR_MESSAGE_INTEGRITY : Z := 0x0008.
Definition STUN_ATTR_ERROR_CODE : Z := 0x0009.
Definition STUN_ATTR_UNKNOWN_ATTRIBUTES : Z := 0x000A.
Definition STUN_ATTR_REALM : Z := 0x0014.
Definition STUN_ATTR_NONCE : Z := 0x0015.
Definition STUN_ATTR_MESSAGE_INTEGRITY_SHA256 : Z := 0x001C.
Definition STUN_ATTR_PASSWORD_ALGORITHM : Z := 0x001D.
Definition STUN_ATTR_USERHASH : Z := 0x001E.
Definition STUN_ATTR_XOR_MAPPED_ADDRESS : Z := 0x0020.
Definition STUN_ATTR_PRIORITY : Z := 0x0024.
Definition STUN_ATTR_USE_CANDIDATE : Z := 0x0025.
Definition STUN_ATTR_PASSWORD_ALGORITHMS : Z := 0x8002.
Definition STUN_ATTR_ALTERNATE_DOMAIN : Z := 0x8003.
Definition STUN_ATTR_SOFTWARE : Z := 0x8022.
Definition STUN_ATTR_ALTERNATE_SERVER : Z := 0x8023.
Definition STUN_ATTR_FINGERPRINT : Z := 0x8028.
Definition STUN_ATTR_ICE_CONTROLLED : Z := 0x8029.
Definition STUN_ATTR_ICE_CONTROLLING : Z := 0x802A.
Definition STUN_ATTR_CHANNEL_NUMBER : Z := 0x000C.
Definition STUN_ATTR_LIFETIME : Z := 0x000D.
Definition STUN_ATTR_XOR_PEER_ADDRESS : Z := 0x0012.
Definition STUN_ATTR_DATA : Z := 0x0013.
Definition STUN_ATTR_XOR_RELAYED_ADDRESS : Z := 0x0016.
Definition STUN_ATTR_EVEN_PORT : Z := 0x0018.
Definition STUN_ATTR_REQUESTED_TRANSPORT : Z := 0x0019.
Definition STUN_ATTR_DONT_FRAGMENT : Z := 0x001A.
Definition STUN_ATTR_RESERVATION_TOKEN : Z := 0x0022.

Definition STUN_IS_OPTIONAL_ATTR (attr_type : Z) : bool := negb (attr_type .& 0x8000 =? 0).

Definition STUN_ADDRESS_FAMILY_IPV4 : Z := 0x01.
Definition STUN_ADDRESS_FAMILY_IPV6 : Z := 0x02.
Definition STUN_ERROR_INTERNAL_VALIDATION_FAILED : Z := 599.

Inductive stun_password_algorithm_t :=
| STUN_PASSWORD_ALGORITHM_UNSET
| STUN_PASSWORD_ALGORITHM_MD5
| STUN_PASSWORD_ALGORITHM_SHA256.

#[global] Instance stun_password_algorithm_eq_dec : EqDecision stun_password_algorithm_t.
Proof. solve_decision. Defined.

Definition algorithm_value (a : stun_password_algorithm_t) : Z :=
  match a with
  | STUN_PASSWORD_ALGORITHM_UNSET => 0x0000
  | STUN_PASSWORD_ALGORITHM_MD5 => 0x0001
  | STUN_PASSWORD_ALGORITHM_SHA256 => 0x0002
  end.

(** Sizes of the arrays, with their terminators. *)
Definition STUN_MAX_USERNAME_LEN : Z := 513 + 1.
Definition STUN_MAX_REALM_LEN : Z := 763 + 1.
Definition STUN_MAX_NONCE_LEN : Z := 763 + 1.
Definition STUN_MAX_SOFTWARE_LEN : Z := 763 + 1.
Definition STUN_MAX_ERROR_REASON_LEN : Z := 763 + 1.
Definition STUN_MAX_PASSWORD_LEN : Z := STUN_MAX_USERNAME_LEN.
Definition MAX_HMAC_KEY_LEN : Z := STUN_MAX_PASSWORD_LEN.
Definition MAX_HMAC_INPUT_LEN : Z :=
  STUN_MAX_USERNAME_LEN + STUN_MAX_REALM_LEN + STUN_MAX_PASSWORD_LEN + 2.
Definition MAX_USERHASH_INPUT_LEN : Z := STUN_MAX_USERNAME_LEN + STUN_MAX_REALM_LEN + 1.
Definition STUN_NONCE_COOKIE : list Z := str "obMatJos2".
Definition STUN_NONCE_COOKIE_LEN : Z := 9.
Definition HASH_MD5_SIZE : Z := 16.
Definition HASH_SHA256_SIZE : Z := 32.
Definition HMAC_SHA1_SIZE : Z := 20.
Definition HMAC_SHA256_SIZE : Z := 32.
Definition USERHASH_SIZE : Z := HASH_SHA256_SIZE.
Definition STUN_SECURITY_PASSWORD_ALGORITHMS_BIT : Z := 0x01.
Definition STUN_SECURITY_USERNAME_ANONYMITY_BIT : Z := 0x02.
Definition STUN_MAX_PASSWORD_ALGORITHMS_VALUE_SIZE : Z := 256.
Definition STUN_MAX_PEER_ADDRESSES : Z := 8.

(** ** Credentials and messages *)

Record stun_credentials_t := {
  username : list Z;
  realm : list Z;
  nonce : list Z;
  userhash : list Z;
  enable_userhash : bool;
  password_algorithm : stun_password_algorithm_t;
  password_algorithms_value : list Z
}.

(** All bytes zero, as after [memset]. *)
Definition stun_credentials_zero : stun_credentials_t :=
  {| username := []; realm := []; nonce := []; userhash := replicate 32 0; enable_userhash :=
     false; password_algorithm := STUN_PASSWORD_ALGORITHM_UNSET; password_algorithms_value := [] |}.

Definition set_username (c : stun_credentials_t) (v : list Z) : stun_credentials_t :=
  Build_stun_credentials_t v (realm c) (nonce c) (userhash c) (enable_userhash c)
    (password_algorithm c) (password_algorithms_value c).
Definition set_realm (c : stun_credentials_t) (v : list Z) : stun_credentials_t :=
  Build_stun_credentials_t (username c) v (nonce c) (userhash c) (enable_userhash c)
    (password_algorithm c) (password_algorithms_value c).
Definition set_nonce (c : stun_credentials_t) (v : list Z) : stun_credentials_t :=
  Build_stun_credentials_t (username c) (realm c) v (userhash c) (enable_userhash c)
    (password_algorithm c) (password_algorithms_value c).
Definition set_userhash (c : stun_credentials_t) (v : list Z) : stun_credentials_t :=
  Build_stun_credentials_t (username c) (realm c) (nonce c) v (enable_userhash c)
    (password_algorithm c) (password_algorithms_value c).
Definition set_enable_userhash (c : stun_credentials_t) (v : bool) : stun_credentials_t :=
  Build_stun_credentials_t (username c) (realm c) (nonce c) (userhash c) v (password_algorithm
    c) (password_algorithms_value c).
Definition set_password_algorithm (c : stun_credentials_t) (v : stun_password_algorithm_t) : stun_credentials_t :=
  Build_stun_credentials_t (username c) (realm c) (nonce c) (userhash c) (enable_userhash c) v
    (password_algorithms_value c).
Definition set_password_algorithms_value (c : stun_credentials_t) (v : list Z) : stun_credentials_t :=
  Build_stun_credentials_t (username c) (realm c) (nonce c) (userhash c) (enable_userhash c)
    (password_algorithm c) v.

Record stun_message_t := {
  msg_class : stun_class_t;
  msg_method : Z;
  transaction_id : list Z;
  error_code : Z;
  priority : Z;
  ice_controlling : Z;
  ice_controlled : Z;
  use_candidate : bool;
  mapped : addr_record_t;
  credentials : stun_credentials_t;
  has_integrity : bool;
  has_fingerprint : bool;
  peers : list addr_record_t;
  relayed : addr_record_t;
  alternate_server : addr_record_t;
  data : option (list Z);
  lifetime : Z;
  channel_number : Z;
  lifetime_set : bool;
  even_port : bool;
  next_port : bool;
  dont_fragment : bool;
  requested_transport : bool;
  reservation_token : Z
}.

(** All bytes zero, as after [memset]. *)
Definition stun_message_zero : stun_message_t :=
  {| msg_class := STUN_CLASS_REQUEST; msg_method := 0; transaction_id := replicate 12 0;
     error_code := 0; priority := 0; ice_controlling := 0; ice_controlled := 0; use_candidate :=
     false; mapped := addr_record_zero; credentials := stun_credentials_zero; has_integrity :=
     false; has_fingerprint := false; peers := []; relayed := addr_record_zero; alternate_server
     := addr_record_zero; data := None; lifetime := 0; channel_number := 0; lifetime_set :=
     false; even_port := false; next_port := false; dont_fragment := false; requested_transport
     := false; reservation_token := 0 |}.

Definition set_msg_class (m : stun_message_t) (v : stun_class_t) : stun_message_t :=
  Build_stun_message_t v (msg_method m) (transaction_id m) (error_code m) (priority m)
    (ice_controlling m) (ice_controlled m) (use_candidate m) (mapped m) (credentials m)
    (has_integrity m) (has_fingerprint m) (peers m) (relayed m) (alternate_server m) (data m)
    (lifetime m) (channel_number m) (lifetime_set m) (even_port m) (next_port m) (dont_fragment
    m) (requested_transport m) (reservation_token m).
Definition set_msg_method (m : stun_message_t) (v : Z) : stun_message_t :=
  Build_stun_message_t (msg_class m) v (transaction_id m) (error_code m) (priority m)
    (ice_controlling m) (ice_controlled m) (use_candidate m) (mapped m) (credentials m)
    (has_integrity m) (has_fingerprint m) (peers m) (relayed m) (alternate_server m) (data m)
    (lifetime m) (channel_number m) (lifetime_set m) (even_port m) (next_port m) (dont_fragment
    m) (requested_transport m) (reservation_token m).
Definition set_transaction_id (m : stun_message_t) (v : list Z) : stun_message_t :=
  Build_stun_message_t (msg_class m) (msg_method m) v (error_code m) (priority m)
    (ice_controlling m) (ice_controlled m) (use_candidate m) (mapped m) (credentials m)
    (has_integrity m) (has_fingerprint m) (peers m) (relayed m) (alternate_server m) (data m)
    (lifetime m) (channel_number m) (lifetime_set m) (even_port m) (next_port m) (dont_fragment
    m) (requested_transport m) (reservation_token m).
Definition set_error_code (m : stun_message_t) (v : Z) : stun_message_t :=
  Build_stun_message_t (msg_class m) (msg_method m) (transaction_id m) v (priority m)
    (ice_controlling m) (ice_controlled m) (use_candidate m) (mapped m) (credentials m)
    (has_integrity m) (has_fingerprint m) (peers m) (relayed m) (alternate_server m) (data m)
    (lifetime m) (channel_number m) (lifetime_set m) (even_port m) (next_port m) (dont_fragment
    m) (requested_transport m) (reservation_token m).
Definition set_priority (m : stun_message_t) (v : Z) : stun_message_t :=
  Build_stun_message_t (msg_class m) (msg_method m) (transaction_id m) (error_code m) v
    (ice_controlling m) (ice_controlled m) (use_candidate m) (mapped m) (credentials m)
    (has_integrity m) (has_fingerprint m) (peers m) (relayed m) (alternate_server m) (data m)
    (lifetime m) (channel_number m) (lifetime_set m) (even_port m) (next_port m) (dont_fragment
    m) (requested_transport m) (reservation_token m).
Definition set_ice_controlling (m : stun_message_t) (v : Z) : stun_message_t :=
  Build_stun_message_t (msg_class m) (msg_method m) (transaction_id m) (error_code m)
    (priority m) v (ice_controlled m) (use_candidate m) (mapped m) (credentials m)
    (has_integrity m) (has_fingerprint m) (peers m) (relayed m) (alternate_server m) (data m)
    (lifetime m) (channel_number m) (lifetime_set m) (even_port m) (next_port m) (dont_fragment
    m) (requested_transport m) (reservation_token m).
Definition set_ice_controlled (m : stun_message_t) (v : Z) : stun_message_t :=
  Build_stun_message_t (msg_class m) (msg_method m) (transaction_id m) (error_code m)
    (priority m) (ice_controlling m) v (use_candidate m) (mapped m) (credentials m)
    (has_integrity m) (has_fingerprint m) (peers m) (relayed m) (alternate_server m) (data m)
    (lifetime m) (channel_number m) (lifetime_set m) (even_port m) (next_port m) (dont_fragment
    m) (requested_transport m) (reservation_token m).
Definition set_use_candidate (m : stun_message_t) (v : bool) : stun_message_t :=
  Build_stun_message_t (msg_class m) (msg_method m) (transaction_id m) (error_code m)
    (priority m) (ice_controlling m) (ice_controlled m) v (mapped m) (credentials m)
    (has_integrity m) (has_fingerprint m) (peers m) (relayed m) (alternate_server m) (data m)
    (lifetime m) (channel_number m) (lifetime_set m) (even_port m) (next_port m) (dont_fragment
    m) (requested_transport m) (reservation_token m).
Definition set_mapped (m : stun_message_t) (v : addr_record_t) : stun_message_t :=
  Build_stun_message_t (msg_class m) (msg_method m) (transaction_id m) (error_code m)
    (priority m) (ice_controlling m) (ice_controlled m) (use_candidate m) v (credentials m)
    (has_integrity m) (has_fingerprint m) (peers m) (relayed m) (alternate_server m) (data m)
    (lifetime m) (channel_number m) (lifetime_set m) (even_port m) (next_port m) (dont_fragment
    m) (requested_transport m) (reservation_token m).
Definition set_credentials (m : stun_message_t) (v : stun_credentials_t) : stun_message_t :=
  Build_stun_message_t (msg_class m) (msg_method m) (transaction_id m) (error_code m)
    (priority m) (ice_controlling m) (ice_controlled m) (use_candidate m) (mapped m) v
    (has_integrity m) (has_fingerprint m) (peers m) (relayed m) (alternate_server m) (data m)
    (lifetime m) (channel_number m) (lifetime_set m) (even_port m) (next_port m) (dont_fragment
    m) (requested_transport m) (reservation_token m).
Definition set_has_integrity (m : stun_message_t) (v : bool) : stun_message_t :=
  Build_stun_message_t (msg_class m) (msg_method m) (transaction_id m) (error_code m)
    (priority m) (ice_controlling m) (ice_controlled m) (use_candidate m) (mapped m)
    (credentials m) v (has_fingerprint m) (peers m) (relayed m) (alternate_server m) (data m)
    (lifetime m) (channel_number m) (lifetime_set m) (even_port m) (next_port m) (dont_fragment
    m) (requested_transport m) (reservation_token m).
Definition set_has_fingerprint (m : stun_message_t) (v : bool) : stun_message_t :=
  Build_stun_message_t (msg_class m) (msg_method m) (transaction_id m) (error_code m)
    (priority m) (ice_controlling m) (ice_controlled m) (use_candidate m) (mapped m)
    (credentials m) (has_integrity m) v (peers m) (relayed m) (alternate_server m) (data m)
    (lifetime m) (channel_number m) (lifetime_set m) (even_port m) (next_port m) (dont_fragment
    m) (requested_transport m) (reservation_token m).
Definition set_peers (m : stun_message_t) (v : list addr_record_t) : stun_message_t :=
  Build_stun_message_t (msg_class m) (msg_method m) (transaction_id m) (error_code m)
    (priority m) (ice_controlling m) (ice_controlled m) (use_candidate m) (mapped m)
    (credentials m) (has_integrity m) (has_fingerprint m) v (relayed m) (alternate_server m)
    (data m) (lifetime m) (channel_number m) (lifetime_set m) (even_port m) (next_port m)
    (dont_fragment m) (requested_transport m) (reservation_token m).
Definition set_relayed (m : stun_message_t) (v : addr_record_t) : stun_message_t :=
  Build_stun_message_t (msg_class m) (msg_method m) (transaction_id m) (error_code m)
    (priority m) (ice_controlling m) (ice_controlled m) (use_candidate m) (mapped m)
    (credentials m) (has_integrity m) (has_fingerprint m) (peers m) v (alternate_server m) (data
    m) (lifetime m) (channel_number m) (lifetime_set m) (even_port m) (next_port m)
    (dont_fragment m) (requested_transport m) (reservation_token m).
Definition set_alternate_server (m : stun_message_t) (v : addr_record_t) : stun_message_t :=
  Build_stun_message_t (msg_class m) (msg_method m) (transaction_id m) (error_code m)
    (priority m) (ice_controlling m) (ice_controlled m) (use_candidate m) (mapped m)
    (credentials m) (has_integrity m) (has_fingerprint m) (peers m) (relayed m) v (data m)
    (lifetime m) (channel_number m) (lifetime_set m) (even_port m) (next_port m) (dont_fragment
    m) (requested_transport m) (reservation_token m).
Definition set_data (m : stun_message_t) (v : option (list Z)) : stun_message_t :=
  Build_stun_message_t (msg_class m) (msg_method m) (transaction_id m) (error_code m)
    (priority m) (ice_controlling m) (ice_controlled m) (use_candidate m) (mapped m)
    (credentials m) (has_integrity m) (has_fingerprint m) (peers m) (relayed m)
    (alternate_server m) v (lifetime m) (channel_number m) (lifetime_set m) (even_port m)
    (next_port m) (dont_fragment m) (requested_transport m) (reservation_token m).
Definition set_lifetime (m : stun_message_t) (v : Z) : stun_message_t :=
  Build_stun_message_t (msg_class m) (msg_method m) (transaction_id m) (error_code m)
    (priority m) (ice_controlling m) (ice_controlled m) (use_candidate m) (mapped m)
    (credentials m) (has_integrity m) (has_fingerprint m) (peers m) (relayed m)
    (alternate_server m) (data m) v (channel_number m) (lifetime_set m) (even_port m) (next_port
    m) (dont_fragment m) (requested_transport m) (reservation_token m).
Definition set_channel_number (m : stun_message_t) (v : Z) : stun_message_t :=
  Build_stun_message_t (msg_class m) (msg_method m) (transaction_id m) (error_code m)
    (priority m) (ice_controlling m) (ice_controlled m) (use_candidate m) (mapped m)
    (credentials m) (has_integrity m) (has_fingerprint m) (peers m) (relayed m)
    (alternate_server m) (data m) (lifetime m) v (lifetime_set m) (even_port m) (next_port m)
    (dont_fragment m) (requested_transport m) (reservation_token m).
Definition set_lifetime_set (m : stun_message_t) (v : bool) : stun_message_t :=
  Build_stun_message_t (msg_class m) (msg_method m) (transaction_id m) (error_code m)
    (priority m) (ice_controlling m) (ice_controlled m) (use_candidate m) (mapped m)
    (credentials m) (has_integrity m) (has_fingerprint m) (peers m) (relayed m)
    (alternate_server m) (data m) (lifetime m) (channel_number m) v (even_port m) (next_port m)
    (dont_fragment m) (requested_transport m) (reservation_token m).
Definition set_even_port (m : stun_message_t) (v : bool) : stun_message_t :=
  Build_stun_message_t (msg_class m) (msg_method m) (transaction_id m) (error_code m)
    (priority m) (ice_controlling m) (ice_controlled m) (use_candidate m) (mapped m)
    (credentials m) (has_integrity m) (has_fingerprint m) (peers m) (relayed m)
    (alternate_server m) (data m) (lifetime m) (channel_number m) (lifetime_set m) v (next_port
    m) (dont_fragment m) (requested_transport m) (reservation_token m).
Definition set_next_port (m : stun_message_t) (v : bool) : stun_message_t :=
  Build_stun_message_t (msg_class m) (msg_method m) (transaction_id m) (error_code m)
    (priority m) (ice_controlling m) (ice_controlled m) (use_candidate m) (mapped m)
    (credentials m) (has_integrity m) (has_fingerprint m) (peers m) (relayed m)
    (alternate_server m) (data m) (lifetime m) (channel_number m) (lifetime_set m) (even_port m)
    v (dont_fragment m) (requested_transport m) (reservation_token m).
Definition set_dont_fragment (m : stun_message_t) (v : bool) : stun_message_t :=
  Build_stun_message_t (msg_class m) (msg_method m) (transaction_id m) (error_code m)
    (priority m) (ice_controlling m) (ice_controlled m) (use_candidate m) (mapped m)
    (credentials m) (has_integrity m) (has_fingerprint m) (peers m) (relayed m)
    (alternate_server m) (data m) (lifetime m) (channel_number m) (lifetime_set m) (even_port m)
    (next_port m) v (requested_transport m) (reservation_token m).
Definition set_requested_transport (m : stun_message_t) (v : bool) : stun_message_t :=
  Build_stun_message_t (msg_class m) (msg_method m) (transaction_id m) (error_code m)
    (priority m) (ice_controlling m) (ice_controlled m) (use_candidate m) (mapped m)
    (credentials m) (has_integrity m) (has_fingerprint m) (peers m) (relayed m)
    (alternate_server m) (data m) (lifetime m) (channel_number m) (lifetime_set m) (even_port m)
    (next_port m) (dont_fragment m) v (reservation_token m).
Definition set_reservation_token (m : stun_message_t) (v : Z) : stun_message_t :=
  Build_stun_message_t (msg_class m) (msg_method m) (transaction_id m) (error_code m)
    (priority m) (ice_controlling m) (ice_controlled m) (use_candidate m) (mapped m)
    (credentials m) (has_integrity m) (has_fingerprint m) (peers m) (relayed m)
    (alternate_server m) (data m) (lifetime m) (channel_number m) (lifetime_set m) (even_port m)
    (next_port m) (dont_fragment m) (requested_transport m) v.

Definition password_algorithms_value_size (c : stun_credentials_t) : Z :=
  zlen (password_algorithms_value c).
Definition peers_size (m : stun_message_t) : Z := zlen (peers m).

(** ** The cryptographic primitives

    [hmac_sha1] and [hmac_sha256] (src/hmac.c) take the message and the key,
    [juice_hash_md5] and [juice_hash_sha256] (src/hash.c) the message.  The
    library is built with one of two implementations of them; what the code
    relies on is the size of the digests. *)
Class Crypto := {
  hmac_sha1 : list Z -> list Z -> list Z;
  hmac_sha256 : list Z -> list Z -> list Z;
  juice_hash_md5 : list Z -> list Z;
  juice_hash_sha256 : list Z -> list Z
}.

Class CryptoLaws `{Crypto} : Prop := {
  hmac_sha1_digest msg key : zlen (hmac_sha1 msg key) = HMAC_SHA1_SIZE /\ bytes (hmac_sha1 msg key);
  hmac_sha256_digest msg key :
    zlen (hmac_sha256 msg key) = HMAC_SHA256_SIZE /\ bytes (hmac_sha256 msg key);
  md5_digest msg : zlen (juice_hash_md5 msg) = HASH_MD5_SIZE /\ bytes (juice_hash_md5 msg);
  sha256_digest msg : zlen (juice_hash_sha256 msg) = HASH_SHA256_SIZE /\ bytes (juice_hash_sha256 msg)
}.

(** ** Facts *)

Lemma class_of_class_value (c : stun_class_t) : class_of_value (class_value c) = c.
Proof. by destruct c. Qed.
