(* ===== verification/StunWrite.v ===== *)
(** * Writing STUN messages (src/stun.c)

    [stun_write] and its helpers on a buffer in memory.  A store outside the
    buffer is [UB].  Sizes are [size_t]: the results of the writing functions
    are converted to it and offsets move modulo 2^64, as in the code.  The
    reference encoder at the end is what the theorems compare with. *)

From S2P Require Import Prelude CText Addr Crc32 StunTypes.

(** ** Helpers *)

(** [while (len & 0x03) ++len;] runs at most three times. *)
Fixpoint align32_loop (fuel : nat) (len : Z) : Z :=
  match fuel with
  | O => len
  | S fuel' => if len .& 0x03 =? 0 then len else align32_loop fuel' (len + 1)
  end.

Definition align32 (len : Z) : Z := align32_loop 3 len.

Definition generate_mask (transaction_id : list Z) : list Z :=
  be 4 STUN_MAGIC ++ take 12 transaction_id.

Definition generate_password_algorithms_attr : list Z :=
  be 2 (algorithm_value STUN_PASSWORD_ALGORITHM_SHA256) ++ be 2 0 ++
  be 2 (algorithm_value STUN_PASSWORD_ALGORITHM_MD5) ++ be 2 0.

Definition stun_get_error_reason (code : Z) : list Z :=
  match code with
  | 0 => str ""
  | 300 => str "Try Alternate"
  | 400 => str "Bad Request"
  | 401 => str "Unauthenticated"
  | 403 => str "Forbidden"
  | 420 => str "Unknown Attribute"
  | 437 => str "Allocation Mismatch"
  | 438 => str "Stale Nonce"
  | 440 => str "Address Family not Supported"
  | 441 => str "Wrong credentials"
  | 442 => str "Unsupported Transport Protocol"
  | 443 => str "Peer Address Family Mismatch"
  | 486 => str "Allocation Quota Reached"
  | 500 => str "Server Error"
  | 508 => str "Insufficient Capacity"
  | _ => str "Error"
  end.

(** The bytes of the key: [key_len] of them. *)
Definition generate_hmac_key `{Crypto} (msg : stun_message_t) (password : option (list Z))
  : list Z :=
  let c := credentials msg in
  let password := default [] password in
  if negb (bool_decide (realm c = [])) then
    let '(input_len, input) :=
      snprintf MAX_HMAC_INPUT_LEN (username c ++ [58] ++ realm c ++ [58] ++ password) in
    let input_len := if MAX_HMAC_INPUT_LEN <=? input_len then MAX_HMAC_INPUT_LEN - 1
                     else input_len in
    let input := take (Z.to_nat input_len) (default [] input) in
    match password_algorithm c with
    | STUN_PASSWORD_ALGORITHM_SHA256 => juice_hash_sha256 input
    | _ => juice_hash_md5 input
    end
  else
    let '(key_len, key) := snprintf MAX_HMAC_KEY_LEN password in
    let key_len := if MAX_HMAC_KEY_LEN <=? key_len then MAX_HMAC_KEY_LEN - 1 else key_len in
    take (Z.to_nat key_len) (default [] key).

(** ** Headers and attributes *)

(** The result and the buffer; [None] is a store outside it. *)
Definition stun_write_header (m : list Z) (off size : Z) (class : stun_class_t) (method : Z)
    (transaction_id : list Z) : option (Z * list Z) :=
  if size <? sizeof_stun_header then Some (-1, m)
  else
    let type := u16 (class_value class) .| u16 method in
    m ← store m off (be 2 type);
    m ← store m (off + 2) (be 2 0);
    m ← store m (off + 4) (be 4 STUN_MAGIC);
    m ← store m (off + 8) (take 12 transaction_id);
    Some (sizeof_stun_header, m).

(** The previous length and the buffer. *)
Definition stun_update_header_length (m : list Z) (length : Z) : option (Z * list Z) :=
  previous ← load16 m 2;
  m ← store m 2 (be 2 (u16 length));
  Some (previous, m).

(** [while (length & 0x03) attr->value[length++] = 0;] *)
Fixpoint pad_loop (fuel : nat) (m : list Z) (off length : Z) : option (list Z * Z) :=
  match fuel with
  | O => Some (m, length)
  | S fuel' =>
      if length .& 0x03 =? 0 then Some (m, length)
      else m ← store m (off + length) [0]; pad_loop fuel' m off (length + 1)
  end.

(** [value] is the [length] bytes at the pointer. *)
Definition stun_write_attr (m : list Z) (off size type : Z) (value : list Z)
  : option (Z * list Z) :=
  let length := zlen value in
  if size <? STUN_ATTR_SIZE + length then Some (-1, m)
  else
    m ← store m off (be 2 (u16 type));
    m ← store m (off + 2) (be 2 (u16 length));
    if 0 <? length then
      m ← store m (off + 4) value;
      '(m, length) ← pad_loop 3 m (off + 4) length;
      Some (s32 (STUN_ATTR_SIZE + length), m)
    else Some (s32 (STUN_ATTR_SIZE + length), m).

(** Exclusive or byte by byte, as far as the first list goes. *)
Definition xor_bytes (a mask : list Z) : list Z := zip_with Z.lxor a mask.

(** The result and, when positive, the bytes of the value.  The port and the
    start of the mask are 16-bit words of a little-endian host. *)
Definition stun_write_value_mapped_address (size : Z) (sa : sockaddr) (addrlen : Z)
    (mask : list Z) : Z * list Z :=
  let mask16 := unle16 (nth 0 mask 0) (nth 1 mask 0) in
  if size <? 4 then (-1, [])
  else
  match sa with
  | Sin sin_port sin_addr =>
      if size <? 4 + 4 then (-1, [])
      else if addrlen <? sizeof_sockaddr_in then (-1, [])
      else (4 + 4, [0; STUN_ADDRESS_FAMILY_IPV4] ++ le16 (sin_port .^ mask16) ++
                   xor_bytes sin_addr (take 4 mask))
  | Sin6 sin6_port sin6_addr =>
      if size <? 4 + 16 then (-1, [])
      else if addrlen <? sizeof_sockaddr_in6 then (-1, [])
      else (4 + 16, [0; STUN_ADDRESS_FAMILY_IPV6] ++ le16 (sin6_port .^ mask16) ++
                    xor_bytes sin6_addr (take 16 mask))
  | SaOther _ => (-1, [])
  end.

(** ** The message

    The state of the writer is the buffer and [pos]; [begin] is offset 0 and
    [end] is [size].  [Overflow] is the jump to the label. *)

Inductive wres :=
| UB
| Overflow
| Ok (m : list Z) (pos : Z).

Definition wbind (r : wres) (k : list Z -> Z -> wres) : wres :=
  match r with Ok m pos => k m pos | _ => r end.
Definition step := list Z -> Z -> wres.
Definition wseq (a b : step) : step := fun m pos => wbind (a m pos) b.
Definition skip : step := Ok.
Definition wif (c : bool) (s : step) : step := if c then s else skip.
Notation "a ;;; b" := (wseq a b) (at level 100, b at level 200, right associativity).

Section Write.

Context `{Crypto} (size : Z).

(** [len = ...; if (len <= 0) goto overflow; pos += len;] with [size_t len]. *)
Definition advance (r : option (Z * list Z)) (pos : Z) : wres :=
  match r with
  | None => UB
  | Some (ret, m) =>
      let len := u64 ret in
      if len <=? 0 then Overflow else Ok m (s64 (pos + len))
  end.

Definition attr (type : Z) (value : list Z) : step := fun m pos =>
  advance (stun_write_attr m pos (u64 (size - pos)) type value) pos.

(** An address attribute, written if the record has a length and the value
    could be formed. *)
Definition address_attr (transaction_id : list Z) (type : Z) (record : addr_record_t) : step :=
  if len record =? 0 then skip
  else
    let mask := generate_mask transaction_id in
    let '(value_len, value) :=
      stun_write_value_mapped_address 32 (addr record) (len record) mask in
    if 0 <? value_len then attr type value else skip.

(** The ERROR-CODE value: the structure and the reason. *)
Definition error_code_value (code : Z) : list Z :=
  [0; 0; u8 (code / 100 .& 0x07); u8 (code mod 100)] ++ stun_get_error_reason code.

(** Everything up to the credentials. *)
Definition write_attributes (msg : stun_message_t) : step :=
  let tid := transaction_id msg in
  wif (negb (error_code msg =? 0))
      (attr STUN_ATTR_ERROR_CODE (error_code_value (error_code msg)));;;
  address_attr tid STUN_ATTR_XOR_MAPPED_ADDRESS (mapped msg);;;
  wif (negb (priority msg =? 0)) (attr STUN_ATTR_PRIORITY (be 4 (priority msg)));;;
  wif (use_candidate msg) (attr STUN_ATTR_USE_CANDIDATE []);;;
  wif (negb (ice_controlling msg =? 0))
      (attr STUN_ATTR_ICE_CONTROLLING (be 8 (ice_controlling msg)));;;
  wif (negb (ice_controlled msg =? 0))
      (attr STUN_ATTR_ICE_CONTROLLED (be 8 (ice_controlled msg)));;;
  wif (negb (channel_number msg =? 0))
      (attr STUN_ATTR_CHANNEL_NUMBER (be 2 (channel_number msg) ++ [0; 0]));;;
  wif (lifetime_set msg || negb (lifetime msg =? 0))
      (attr STUN_ATTR_LIFETIME (be 4 (lifetime msg)));;;
  foldr (fun peer k => address_attr tid STUN_ATTR_XOR_PEER_ADDRESS peer;;; k) skip (peers msg);;;
  address_attr tid STUN_ATTR_XOR_RELAYED_ADDRESS (relayed msg);;;
  match data msg with Some d => attr STUN_ATTR_DATA d | None => skip end;;;
  wif (even_port msg)
      (attr STUN_ATTR_CHANNEL_NUMBER [if next_port msg then 0x80 else 0]);;;
  wif (requested_transport msg) (attr STUN_ATTR_REQUESTED_TRANSPORT [17; 0; 0; 0]);;;
  wif (dont_fragment msg) (attr STUN_ATTR_DONT_FRAGMENT []);;;
  wif (negb (reservation_token msg =? 0))
      (attr STUN_ATTR_RESERVATION_TOKEN (be 8 (reservation_token msg)));;;
  attr STUN_ATTR_SOFTWARE (str "libjuice").

Definition is_request (msg : stun_message_t) : bool :=
  bool_decide (msg_class msg = STUN_CLASS_REQUEST).

(** Realm, nonce and password algorithms go into requests and into 401 and 438
    error responses.  [uninit] is what the structure [pwa] on the stack has in
    [parameters_length], which is written without having been set. *)
Definition write_credentials (uninit : list Z) (msg : stun_message_t) : step :=
  let c := credentials msg in
  let algorithm := algorithm_value (password_algorithm c) in
  wif (is_request msg)
    (if enable_userhash c then attr STUN_ATTR_USERHASH (userhash c)
     else wif (negb (bool_decide (username c = []))) (attr STUN_ATTR_USERNAME (username c)));;;
  wif (is_request msg ||
       (bool_decide (msg_class msg = STUN_CLASS_RESP_ERROR) &&
        ((error_code msg =? 401) || (error_code msg =? 438))))
    (wif (negb (bool_decide (realm c = []))) (attr STUN_ATTR_REALM (realm c));;;
     wif (negb (bool_decide (nonce c = [])))
       (attr STUN_ATTR_NONCE (nonce c);;;
        (if 0 <? algorithm
         then attr STUN_ATTR_PASSWORD_ALGORITHMS (password_algorithms_value c)
         else wif (negb (is_request msg))
                (attr STUN_ATTR_PASSWORD_ALGORITHMS generate_password_algorithms_attr));;;
        wif (is_request msg && negb (algorithm =? 0))
          (attr STUN_ATTR_PASSWORD_ALGORITHM (be 2 algorithm ++ uninit)))).

(** The header length is set to end after the attribute to come, the HMAC is
    taken of everything written and the attribute is appended. *)
Definition write_hmac (hmac : list Z -> list Z -> list Z) (hmac_size type : Z) (key : list Z)
  : step := fun m pos =>
  match stun_update_header_length m (pos - sizeof_stun_header + STUN_ATTR_SIZE + hmac_size) with
  | None => UB
  | Some (_, m) =>
      match load m 0 pos with
      | None => UB
      | Some written => attr type (hmac written key) m pos
      end
  end.

Definition write_integrity (msg : stun_message_t) (password : option (list Z)) : step :=
  wif (negb (bool_decide (msg_class msg = STUN_CLASS_INDICATION)) &&
       bool_decide (is_Some password))
    (let key := generate_hmac_key msg password in
     write_hmac hmac_sha1 HMAC_SHA1_SIZE STUN_ATTR_MESSAGE_INTEGRITY key;;;
     wif (negb (bool_decide
                  (password_algorithm (credentials msg) = STUN_PASSWORD_ALGORITHM_UNSET)))
       (write_hmac hmac_sha256 HMAC_SHA256_SIZE STUN_ATTR_MESSAGE_INTEGRITY_SHA256 key)).

(** The end of [stun_write]; a length that is not a multiple of 4 is the other
    error return. *)
Definition write_fingerprint : step := fun m pos =>
  let length := pos - sizeof_stun_header + STUN_ATTR_SIZE + 4 in
  if negb (length .& 0x03 =? 0) then Overflow
  else
    match stun_update_header_length m length with
    | None => UB
    | Some (_, m) =>
        match written ← load m 0 pos; juice_crc32 written with
        | None => UB
        | Some crc => attr STUN_ATTR_FINGERPRINT (be 4 (crc .^ STUN_FINGERPRINT_XOR)) m pos
        end
    end.

(** The result and the buffer, [None] on undefined behaviour.  The buffer after
    an error is left out. *)
Definition stun_write (uninit m : list Z) (msg : stun_message_t) (password : option (list Z))
  : option (Z * option (list Z)) :=
  let body :=
    (fun m pos => advance (stun_write_header m pos (u64 (size - pos)) (msg_class msg)
                             (msg_method msg) (transaction_id msg)) pos);;;
    write_attributes msg;;;
    write_credentials uninit msg;;;
    write_integrity msg password;;;
    write_fingerprint in
  match body m 0 with
  | UB => None
  | Overflow => Some (-1, None)
  | Ok m pos => Some (s32 pos, Some m)
  end.

End Write.

(** ** The reference encoder *)

Definition padding (v : list Z) : list Z := replicate (Z.to_nat ((- zlen v) mod 4)) 0.

Definition encode_attr (a : Z * list Z) : list Z :=
  be 2 (fst a) ++ be 2 (zlen (snd a)) ++ snd a ++ padding (snd a).

Definition encode_attrs (l : list (Z * list Z)) : list Z := concat (encode_attr <$> l).

Definition encode_header (class : stun_class_t) (method : Z) (tid : list Z) (length : Z) : list Z :=
  be 2 (class_value class .| method) ++ be 2 length ++ be 4 STUN_MAGIC ++ tid.

(** The value of an address attribute, if the record has an address. *)
Definition xor_address_value (tid : list Z) (r : addr_record_t) : option (list Z) :=
  let mask := generate_mask tid in
  let port p := le16 (p .^ unle16 (nth 0 mask 0) (nth 1 mask 0)) in
  match addr r with
  | Sin p a =>
      if sizeof_sockaddr_in <=? len r
      then Some ([0; STUN_ADDRESS_FAMILY_IPV4] ++ port p ++ xor_bytes a (take 4 mask)) else None
  | Sin6 p a =>
      if sizeof_sockaddr_in6 <=? len r
      then Some ([0; STUN_ADDRESS_FAMILY_IPV6] ++ port p ++ xor_bytes a (take 16 mask)) else None
  | SaOther _ => None
  end.

Definition when (c : bool) (a : Z * list Z) : list (Z * list Z) := if c then [a] else [].

Definition address_attrs (tid : list Z) (type : Z) (r : addr_record_t) : list (Z * list Z) :=
  match xor_address_value tid r with Some v => [(type, v)] | None => [] end.

(** The attributes of a message, in order. *)
Definition plain_attributes (msg : stun_message_t) : list (Z * list Z) :=
  let tid := transaction_id msg in
  when (negb (error_code msg =? 0)) (STUN_ATTR_ERROR_CODE, error_code_value (error_code msg)) ++
  address_attrs tid STUN_ATTR_XOR_MAPPED_ADDRESS (mapped msg) ++
  when (negb (priority msg =? 0)) (STUN_ATTR_PRIORITY, be 4 (priority msg)) ++
  when (use_candidate msg) (STUN_ATTR_USE_CANDIDATE, []) ++
  when (negb (ice_controlling msg =? 0))
       (STUN_ATTR_ICE_CONTROLLING, be 8 (ice_controlling msg)) ++
  when (negb (ice_controlled msg =? 0)) (STUN_ATTR_ICE_CONTROLLED, be 8 (ice_controlled msg)) ++
  when (negb (channel_number msg =? 0))
       (STUN_ATTR_CHANNEL_NUMBER, be 2 (channel_number msg) ++ [0; 0]) ++
  when (lifetime_set msg || negb (lifetime msg =? 0))
       (STUN_ATTR_LIFETIME, be 4 (lifetime msg)) ++
  concat (address_attrs tid STUN_ATTR_XOR_PEER_ADDRESS <$> peers msg) ++
  address_attrs tid STUN_ATTR_XOR_RELAYED_ADDRESS (relayed msg) ++
  match data msg with Some d => [(STUN_ATTR_DATA, d)] | None => [] end ++
  when (even_port msg) (STUN_ATTR_CHANNEL_NUMBER, [if next_port msg then 0x80 else 0]) ++
  when (requested_transport msg) (STUN_ATTR_REQUESTED_TRANSPORT, [17; 0; 0; 0]) ++
  when (dont_fragment msg) (STUN_ATTR_DONT_FRAGMENT, []) ++
  when (negb (reservation_token msg =? 0))
       (STUN_ATTR_RESERVATION_TOKEN, be 8 (reservation_token msg)) ++
  [(STUN_ATTR_SOFTWARE, str "libjuice")].

Definition has_auth_attributes (msg : stun_message_t) : bool :=
  is_request msg ||
  (bool_decide (msg_class msg = STUN_CLASS_RESP_ERROR) &&
   ((error_code msg =? 401) || (error_code msg =? 438))).

Definition user_attributes (msg : stun_message_t) : list (Z * list Z) :=
  let c := credentials msg in
  if is_request msg then
    if enable_userhash c then [(STUN_ATTR_USERHASH, userhash c)]
    else when (negb (bool_decide (username c = []))) (STUN_ATTR_USERNAME, username c)
  else [].

Definition nonce_attributes (uninit : list Z) (msg : stun_message_t) : list (Z * list Z) :=
  let c := credentials msg in
  let algorithm := algorithm_value (password_algorithm c) in
  if bool_decide (nonce c = []) then []
  else
    [(STUN_ATTR_NONCE, nonce c)] ++
    (if 0 <? algorithm then [(STUN_ATTR_PASSWORD_ALGORITHMS, password_algorithms_value c)]
     else when (negb (is_request msg))
            (STUN_ATTR_PASSWORD_ALGORITHMS, generate_password_algorithms_attr)) ++
    when (is_request msg && negb (algorithm =? 0))
      (STUN_ATTR_PASSWORD_ALGORITHM, be 2 algorithm ++ uninit).

Definition credential_attributes (uninit : list Z) (msg : stun_message_t) : list (Z * list Z) :=
  let c := credentials msg in
  user_attributes msg ++
  if has_auth_attributes msg then
    when (negb (bool_decide (realm c = []))) (STUN_ATTR_REALM, realm c) ++
    nonce_attributes uninit msg
  else [].

Definition signed_attributes (uninit : list Z) (msg : stun_message_t) : list (Z * list Z) :=
  plain_attributes msg ++ credential_attributes uninit msg.

(** A message with these attributes and a header that gives the length of the
    message once an attribute with an [n]-byte value is appended. *)
Definition encode_before (msg : stun_message_t) (l : list (Z * list Z)) (n : Z) : list Z :=
  encode_header (msg_class msg) (msg_method msg) (transaction_id msg)
    (zlen (encode_attrs l) + STUN_ATTR_SIZE + n) ++ encode_attrs l.

Section Encode.

Context `{Crypto}.

Definition append_hmac (hmac : list Z -> list Z -> list Z) (hmac_size type : Z) (key : list Z)
    (msg : stun_message_t) (l : list (Z * list Z)) : list (Z * list Z) :=
  l ++ [(type, hmac (encode_before msg l hmac_size) key)].

Definition integrity_attributes (msg : stun_message_t) (password : option (list Z))
    (l : list (Z * list Z)) : list (Z * list Z) :=
  if negb (bool_decide (msg_class msg = STUN_CLASS_INDICATION)) && bool_decide (is_Some password)
  then
    let key := generate_hmac_key msg password in
    let l := append_hmac hmac_sha1 HMAC_SHA1_SIZE STUN_ATTR_MESSAGE_INTEGRITY key msg l in
    if bool_decide (password_algorithm (credentials msg) = STUN_PASSWORD_ALGORITHM_UNSET) then l
    else append_hmac hmac_sha256 HMAC_SHA256_SIZE STUN_ATTR_MESSAGE_INTEGRITY_SHA256 key msg l
  else l.

(** All attributes but the fingerprint. *)
Definition all_attributes (uninit : list Z) (msg : stun_message_t) (password : option (list Z))
  : list (Z * list Z) :=
  integrity_attributes msg password (signed_attributes uninit msg).

Definition fingerprint_attr (msg : stun_message_t) (l : list (Z * list Z)) : Z * list Z :=
  (STUN_ATTR_FINGERPRINT, be 4 (crc32_ref (encode_before msg l 4) .^ STUN_FINGERPRINT_XOR)).

Definition encode_message (uninit : list Z) (msg : stun_message_t) (password : option (list Z))
  : list Z :=
  let l := all_attributes uninit msg password in
  encode_before msg l 4 ++ encode_attr (fingerprint_attr msg l).

End Encode.

(** Messages whose fields are as their C types and arrays allow. *)
Definition record_wf (r : addr_record_t) : Prop := sockaddr_wf (addr r).

Definition small_bytes (n : Z) (l : list Z) : Prop := bytes l /\ zlen l < n.

Record message_wf (msg : stun_message_t) : Prop := {
  wf_method : 0 <= msg_method msg < 65536 /\ msg_method msg .& STUN_CLASS_MASK = 0;
  wf_tid : bytes (transaction_id msg) /\ zlen (transaction_id msg) = 12;
  wf_mapped : record_wf (mapped msg);
  wf_peers : Forall record_wf (peers msg);
  wf_relayed : record_wf (relayed msg);
  wf_data : match data msg with Some d => small_bytes 65536 d | None => True end;
  wf_username : small_bytes STUN_MAX_USERNAME_LEN (username (credentials msg));
  wf_realm : small_bytes STUN_MAX_REALM_LEN (realm (credentials msg));
  wf_nonce : small_bytes STUN_MAX_NONCE_LEN (nonce (credentials msg));
  wf_userhash : small_bytes 33 (userhash (credentials msg));
  wf_algorithms : small_bytes 257 (password_algorithms_value (credentials msg))
}.

(** An attribute that its header can describe. *)
Definition attr_ok (a : Z * list Z) : Prop :=
  0 <= fst a < 65536 /\ bytes (snd a) /\ zlen (snd a) < 65536.

(** A step that appends these attributes, all valid, to what is written, when
    they fit. *)
Definition writes (size : Z) (s : step) (l : list (Z * list Z)) : Prop :=
  Forall attr_ok l /\
  forall pre rest, zlen (pre ++ rest) = size -> zlen (encode_attrs l) <= zlen rest ->
  s (pre ++ rest) (zlen pre)
  = Ok (pre ++ encode_attrs l ++ drop (length (encode_attrs l)) rest)
       (zlen pre + zlen (encode_attrs l)).

(** The buffer of [size] bytes and the position once the attributes [l] of
    [msg] are written, with some length in the header. *)
Definition written_state (size : Z) (msg : stun_message_t) (l : list (Z * list Z)) (m : list Z)
    (pos : Z) : Prop :=
  exists n rest,
    m = (encode_header (msg_class msg) (msg_method msg) (transaction_id msg) n ++
         encode_attrs l) ++ rest /\
    0 <= n < 65536 /\ zlen m = size /\ pos = sizeof_stun_header + zlen (encode_attrs l).

(** ** Lengths *)

Lemma align32_spec (n : Z) : 0 <= n -> align32 n = n + (- n) mod 4.
Proof.
  intros Hn. unfold align32. cbn [align32_loop]. rewrite !land_3.
  repeat case_if; zlia.
Qed.

Lemma zlen_padding (v : list Z) : zlen (padding v) = (- zlen v) mod 4.
Proof. unfold padding, zlen. rewrite length_replicate. zlia. Qed.

Lemma zlen_be (n : nat) (v : Z) : zlen (be n v) = Z.of_nat n.
Proof. unfold zlen. by rewrite length_be. Qed.
#[export] Hint Rewrite zlen_padding zlen_be @zlen_app @zlen_cons @zlen_nil : juice.

Lemma zlen_encode_attr (a : Z * list Z) : zlen (encode_attr a) = 4 + align32 (zlen (snd a)).
Proof.
  rewrite align32_spec by apply zlen_nonneg. unfold encode_attr.
  autorewrite with juice. lia.
Qed.

Lemma encode_attrs_app l1 l2 : encode_attrs (l1 ++ l2) = encode_attrs l1 ++ encode_attrs l2.
Proof. unfold encode_attrs. by rewrite fmap_app, concat_app. Qed.

Lemma encode_attrs_one a : encode_attrs [a] = encode_attr a.
Proof. unfold encode_attrs. cbn [fmap list_fmap concat]. apply app_nil_r. Qed.

Lemma encode_attrs_cons a l : encode_attrs (a :: l) = encode_attr a ++ encode_attrs l.
Proof. done. Qed.

Lemma encode_attrs_aligned l : zlen (encode_attrs l) mod 4 = 0.
Proof.
  induction l as [|a l IH]; [done|]. rewrite encode_attrs_cons, zlen_app, zlen_encode_attr.
  pose proof (zlen_nonneg (snd a)). rewrite align32_spec by done. zlia.
Qed.

Lemma zlen_encode_header c method tid n :
  zlen tid = 12 -> zlen (encode_header c method tid n) = sizeof_stun_header.
Proof.
  intros Ht. unfold encode_header. autorewrite with juice. rewrite Ht. done.
Qed.

Lemma padding_bytes (v : list Z) : bytes (padding v).
Proof. unfold padding. apply Forall_replicate. unfold is_byte. lia. Qed.

Lemma encode_attr_bytes a : attr_ok a -> bytes (encode_attr a).
Proof.
  intros (_ & Hv & _). unfold encode_attr.
  rewrite !Forall_app. auto using be_bytes, padding_bytes.
Qed.

Lemma encode_attrs_bytes l : Forall attr_ok l -> bytes (encode_attrs l).
Proof.
  induction 1 as [|a l Ha _ IH]; [constructor|].
  rewrite encode_attrs_cons. apply Forall_app. auto using encode_attr_bytes.
Qed.

(** ** One attribute *)

(** A store at the end of what is written. *)
Lemma store_append (pre bs rest : list Z) :
  zlen bs <= zlen rest ->
  store (pre ++ rest) (zlen pre) bs = Some (pre ++ bs ++ drop (length bs) rest).
Proof.
  intros Hl. apply (store_split_eq _ pre (take (length bs) rest) bs (drop (length bs) rest)).
  - by rewrite take_drop.
  - done.
  - rewrite length_take. unfold zlen in Hl. lia.
Qed.

Lemma pad_loop_spec (fuel : nat) : forall (pre v rest : list Z),
  (- zlen v) mod 4 <= Z.of_nat fuel -> (- zlen v) mod 4 <= zlen rest ->
  pad_loop fuel (pre ++ v ++ rest) (zlen pre) (zlen v)
  = Some (pre ++ v ++ padding v ++ drop (length (padding v)) rest, align32 (zlen v)).
Proof.
  induction fuel as [|fuel IH]; intros pre v rest Hf Hr; pose proof (zlen_nonneg v).
  - assert (E : (- zlen v) mod 4 = 0) by zlia. cbn [pad_loop].
    rewrite align32_spec by done. unfold padding. rewrite E. cbn. by rewrite Z.add_0_r.
  - cbn [pad_loop]. rewrite land_3. case_if.
    + assert (E' : (- zlen v) mod 4 = 0) by zlia.
      rewrite align32_spec by done. unfold padding. rewrite E'. cbn. by rewrite Z.add_0_r.
    + rewrite app_assoc, <- zlen_app, store_append by zlia. cbn [mbind option_bind].
      rewrite <- !app_assoc. rewrite (app_assoc v [0]).
      assert (E1 : zlen v + 1 = zlen (v ++ [0])) by (rewrite zlen_app; done).
      assert (E2 : (- zlen v) mod 4 = (- zlen (v ++ [0])) mod 4 + 1) by zlia.
      assert (Hd : zlen (drop (length [0]) rest) = zlen rest - 1).
      { unfold zlen in *. rewrite length_drop. cbn. zlia. }
      rewrite E1, IH by (rewrite ?Hd; lia).
      assert (Ep : padding v = 0 :: padding (v ++ [0])).
      { unfold padding. rewrite E2, Z2Nat.inj_add, Nat.add_comm by zlia. done. }
      rewrite Ep. cbn [length]. rewrite <- !app_assoc. cbn [app]. rewrite drop_drop.
      rewrite !align32_spec by lia. do 2 f_equal. lia.
Qed.

Lemma stun_write_attr_spec (pre rest : list Z) (size type : Z) (value : list Z) :
  attr_ok (type, value) -> zlen (encode_attr (type, value)) <= zlen rest -> zlen rest <= size ->
  stun_write_attr (pre ++ rest) (zlen pre) size type value
  = Some (zlen (encode_attr (type, value)),
          pre ++ encode_attr (type, value) ++ drop (length (encode_attr (type, value))) rest).
Proof.
  intros (Ht & Hv & Hl) Hr Hs. cbn [fst snd] in *. pose proof (zlen_nonneg value) as Hn.
  unfold stun_write_attr. unfold encode_attr in Hr. cbn [fst snd] in Hr.
  autorewrite with juice in Hr. unfold STUN_ATTR_SIZE.
  rewrite (proj2 (Z.ltb_ge _ _)) by zlia.
  assert (E16 : forall x, 0 <= x < 65536 -> u16 x = x) by (intros; solve_width).
  rewrite !E16 by lia. rewrite store_append by (rewrite zlen_be; zlia). cbn [mbind option_bind].
  set (rest1 := drop (length (be 2 type)) rest).
  assert (Hr1 : zlen rest1 = zlen rest - 2).
  { unfold rest1, zlen. rewrite length_drop, length_be. zlia. }
  rewrite app_assoc. replace (zlen pre + 2) with (zlen (pre ++ be 2 type))
    by (rewrite zlen_app, zlen_be; done).
  rewrite store_append by (rewrite zlen_be; zlia). cbn [mbind option_bind].
  rewrite length_be. set (rest2 := drop 2 rest1).
  assert (Hr2 : zlen rest2 = zlen rest - 4).
  { unfold rest2, zlen in *. rewrite length_drop. zlia. }
  assert (Ed : drop (length (encode_attr (type, value))) rest
               = drop (length (padding value)) (drop (length value) rest2)).
  { unfold rest2, rest1. rewrite !drop_drop. f_equal. unfold encode_attr. cbn [fst snd].
    rewrite !length_app, !length_be. lia. }
  assert (Es : s32 (4 + align32 (zlen value)) = zlen (encode_attr (type, value))).
  { rewrite zlen_encode_attr. cbn [snd]. rewrite align32_spec by done. solve_width. }
  case_if.
  - rewrite app_assoc. replace (zlen pre + 4) with (zlen ((pre ++ be 2 type) ++ be 2 (zlen value)))
      by (rewrite !zlen_app, !zlen_be; lia).
    rewrite store_append by zlia. cbn [mbind option_bind].
    rewrite pad_loop_spec; [|zlia|].
    2: { unfold zlen in *. rewrite length_drop. zlia. }
    cbn [mbind option_bind]. rewrite Es, Ed. f_equal. f_equal.
    unfold encode_attr. cbn [fst snd]. by rewrite <- !app_assoc.
  - assert (value = []) as -> by (destruct value; [done|rewrite zlen_cons in E; zlia]).
    change (zlen []) with 0 in *. change (align32 0) with 0 in Es. rewrite Es, Ed.
    f_equal. f_equal. unfold encode_attr. cbn [fst snd]. by rewrite <- !app_assoc.
Qed.

(** ** Sequences of attributes *)

Section Writes.

Context `{Crypto} (size : Z) (Hsize : size < 2 ^ 31).

Lemma advance_spec (m m' : list Z) (ret pos : Z) :
  0 < ret < 2 ^ 31 -> 0 <= pos < 2 ^ 31 -> advance (Some (ret, m)) pos = Ok m (pos + ret).
Proof.
  intros Hr Hp. unfold advance. replace (u64 ret) with ret by solve_width.
  rewrite (proj2 (Z.leb_gt _ _)) by lia. f_equal. solve_width.
Qed.

Lemma writes_attr type value : attr_ok (type, value) -> writes size (attr size type value)
  [(type, value)].
Proof using Hsize.
  intros Ha. split; [by constructor|]. intros pre rest Hm Hr. rewrite encode_attrs_one in *. rewrite zlen_app in Hm.
  pose proof (zlen_nonneg pre). pose proof (zlen_nonneg rest).
  unfold attr. replace (u64 (size - zlen pre)) with (zlen rest) by solve_width.
  rewrite stun_write_attr_spec by (done || lia). apply advance_spec; [done| |lia].
  rewrite zlen_encode_attr in *. pose proof (zlen_nonneg (snd (type, value))).
  rewrite align32_spec in * by done. zlia.
Qed.

Lemma writes_skip : writes size skip [].
Proof.
  split; [constructor|]. intros pre rest _ _. unfold encode_attrs. cbn. by rewrite Z.add_0_r.
Qed.

Lemma writes_seq s1 s2 l1 l2 :
  writes size s1 l1 -> writes size s2 l2 -> writes size (s1;;; s2) (l1 ++ l2).
Proof.
  intros [Ho1 H1] [Ho2 H2]. split; [by apply Forall_app|].
  intros pre rest Hm Hr. rewrite encode_attrs_app, zlen_app in Hr.
  pose proof (zlen_nonneg (encode_attrs l1)). pose proof (zlen_nonneg (encode_attrs l2)).
  unfold wseq. rewrite H1 by (done || lia). cbn [wbind].
  rewrite app_assoc, <- zlen_app. rewrite H2.
  - rewrite encode_attrs_app, !zlen_app, length_app, drop_drop, <- !app_assoc.
    f_equal. lia.
  - rewrite !zlen_app in *. unfold zlen in *. rewrite length_drop. lia.
  - unfold zlen in *. rewrite length_drop. lia.
Qed.

Lemma writes_wif (c : bool) s l : (c = true -> writes size s l) ->
  writes size (wif c s) (if c then l else []).
Proof. intros Hs. destruct c; [auto|apply writes_skip]. Qed.

Lemma writes_when (c : bool) type value :
  (c = true -> attr_ok (type, value)) ->
  writes size (wif c (attr size type value)) (when c (type, value)).
Proof using Hsize. intros Ha. apply writes_wif. auto using writes_attr. Qed.

Lemma generate_mask_wf tid :
  bytes tid -> zlen tid = 12 -> bytes (generate_mask tid) /\ length (generate_mask tid) = 16%nat.
Proof.
  intros Hb Ht. unfold generate_mask. split.
  - apply Forall_app; split; [apply be_bytes|by apply Forall_take].
  - rewrite length_app, length_take, length_be. unfold zlen in Ht. lia.
Qed.

Lemma xor_bytes_bytes (a m : list Z) : bytes a -> bytes m -> bytes (xor_bytes a m).
Proof.
  intros Ha; revert m; induction Ha as [|x a Hx _ IH]; intros m Hm; [constructor|].
  destruct Hm as [|y m Hy Hm]; [constructor|]. constructor; [auto with juice|by apply IH].
Qed.

Lemma le16_bytes (v : Z) : bytes (le16 v).
Proof. repeat constructor; unfold is_byte; zlia. Qed.

Lemma address_value_ok type family p a mask :
  0 <= type < 65536 -> is_byte family -> bytes a -> bytes mask -> (length a <= 16)%nat ->
  attr_ok (type, [0; family] ++ le16 p ++ xor_bytes a mask).
Proof.
  intros Ht Hf Ha Hm Hl. split; [done|]. cbn [snd]. split.
  - rewrite !Forall_app. split_and!; [|apply le16_bytes|by apply xor_bytes_bytes].
    repeat constructor; unfold is_byte in *; lia.
  - rewrite !zlen_app. unfold zlen, xor_bytes. rewrite length_zip_with. cbn. lia.
Qed.

Lemma writes_address tid type r :
  bytes tid -> zlen tid = 12 -> record_wf r -> 0 <= type < 65536 ->
  writes size (address_attr size tid type r) (address_attrs tid type r).
Proof using Hsize.
  intros Hb Ht Hr Hty. unfold address_attr, address_attrs, xor_address_value,
    stun_write_value_mapped_address.
  destruct (generate_mask_wf tid Hb Ht) as [Hmb Hml].
  unfold record_wf in Hr. unfold sizeof_sockaddr_in, sizeof_sockaddr_in6.
  destruct (addr r) as [p a|p a|f]; cbn in Hr.
  - destruct Hr as (_ & Ha & Hl). change (32 <? 4) with false. change (32 <? 4 + 4) with false.
    cbv beta iota zeta.
    destruct (Z.eqb_spec (len r) 0) as [->|]; [apply writes_skip|].
    destruct (Z.ltb_spec (len r) 16), (Z.leb_spec 16 (len r)); try lia; [apply writes_skip|].
    apply writes_attr, address_value_ok; auto using Forall_take; done || lia.
  - destruct Hr as (_ & Ha & Hl). change (32 <? 4) with false. change (32 <? 4 + 16) with false.
    cbv beta iota zeta.
    destruct (Z.eqb_spec (len r) 0) as [->|]; [apply writes_skip|].
    destruct (Z.ltb_spec (len r) 28), (Z.leb_spec 28 (len r)); try lia; [apply writes_skip|].
    apply writes_attr, address_value_ok; auto using Forall_take; done || lia.
  - cbn. destruct (len r =? 0); apply writes_skip.
Qed.

Lemma writes_peers tid type rs :
  bytes tid -> zlen tid = 12 -> Forall record_wf rs -> 0 <= type < 65536 ->
  writes size (foldr (fun peer k => address_attr size tid type peer;;; k) skip rs)
              (concat (address_attrs tid type <$> rs)).
Proof using Hsize.
  intros Hb Ht Hrs Hty. induction Hrs as [|r rs Hr _ IH]; [apply writes_skip|].
  cbn [foldr fmap list_fmap concat]. apply writes_seq; [by apply writes_address|done].
Qed.

End Writes.

Lemma str_bytes (s : String.string) : bytes (str s).
Proof.
  induction s as [|c s IH]; [constructor|]. constructor; [|done].
  pose proof (Ascii.nat_ascii_bounded c). unfold is_byte. lia.
Qed.

Lemma stun_get_error_reason_ok (code : Z) :
  bytes (stun_get_error_reason code) /\ zlen (stun_get_error_reason code) <= 64.
Proof.
  unfold stun_get_error_reason. repeat case_match; (split; [apply str_bytes|done]).
Qed.

Section Messages.

Context `{CryptoLaws} (size : Z) (Hsize : size < 2 ^ 31) (uninit : list Z)
  (Huninit : bytes uninit /\ zlen uninit = 2).
Context (msg : stun_message_t) (Hwf : message_wf msg).

Lemma error_code_ok (code : Z) : attr_ok (STUN_ATTR_ERROR_CODE, error_code_value code).
Proof.
  destruct (stun_get_error_reason_ok code) as [Hb Hl]. split; [done|]. cbn [snd].
  unfold error_code_value. split.
  - apply Forall_app; split; [|done]. repeat constructor; try apply u8_byte; unfold is_byte; lia.
  - rewrite zlen_app. change (zlen [_; _; _; _]) with 4. lia.
Qed.

Lemma be_ok type (n : nat) v : 0 <= type < 65536 -> (n <= 8)%nat -> attr_ok (type, be n v).
Proof. intros Ht Hn. split; [done|]. split; [apply be_bytes|]. cbn [snd]. rewrite zlen_be. lia. Qed.

Lemma const_ok type (v : list Z) :
  0 <= type < 65536 -> forallb byteb v = true -> zlen v < 65536 -> attr_ok (type, v).
Proof. intros Ht Hv Hl. split; [done|]. split; [by apply bytes_forallb|done]. Qed.

Lemma small_ok type n (v : list Z) : 0 <= type < 65536 -> n <= 65536 -> small_bytes n v ->
  attr_ok (type, v).
Proof. intros Ht Hn [Hb Hl]. split; [done|]. cbn [snd]. split; [done|lia]. Qed.

Lemma write_attributes_writes :
  writes size (write_attributes size msg) (plain_attributes msg).
Proof using Hsize Hwf.
  destruct (wf_tid _ Hwf) as [Hb Ht]. unfold write_attributes, plain_attributes.
  repeat apply writes_seq; try (apply writes_when; [done|]; intros _);
    try (apply writes_address; try done; apply Hwf);
    try (apply be_ok; [done|lia]); try (by apply const_ok).
  - apply error_code_ok.
  - split; [done|]. cbn [snd]. split.
    + apply Forall_app; split; [apply be_bytes|]. repeat constructor; unfold is_byte; lia.
    + rewrite zlen_app, zlen_be. done.
  - apply writes_peers; try done. apply Hwf.
  - pose proof (wf_data _ Hwf) as Hd. destruct (data msg); [|apply writes_skip].
    apply writes_attr; [done|]. by apply (small_ok _ 65536).
  - apply const_ok; [done| |done]. by destruct (next_port msg).
  - by apply writes_attr, const_ok.
Qed.

Lemma write_credentials_writes :
  writes size (write_credentials size uninit msg) (credential_attributes uninit msg).
Proof using Hsize Hwf Huninit.
  destruct Hwf as [_ _ _ _ _ _ Hu Hr Hn Hh Ha].
  assert (Hnonce : writes size (wif (negb (bool_decide (nonce (credentials msg) = [])))
    (attr size STUN_ATTR_NONCE (nonce (credentials msg));;;
     (if 0 <? algorithm_value (password_algorithm (credentials msg))
      then attr size STUN_ATTR_PASSWORD_ALGORITHMS (password_algorithms_value (credentials msg))
      else wif (negb (is_request msg))
             (attr size STUN_ATTR_PASSWORD_ALGORITHMS generate_password_algorithms_attr));;;
     wif (is_request msg && negb (algorithm_value (password_algorithm (credentials msg)) =? 0))
       (attr size STUN_ATTR_PASSWORD_ALGORITHM
          (be 2 (algorithm_value (password_algorithm (credentials msg))) ++ uninit))))
    (nonce_attributes uninit msg)).
  { unfold nonce_attributes. cbv zeta. destruct (bool_decide _); [apply writes_skip|].
    cbn [negb wif]. repeat apply writes_seq.
    - apply writes_attr; [done|]. by apply (small_ok _ STUN_MAX_NONCE_LEN).
    - destruct (0 <? _).
      + apply writes_attr; [done|]. by apply (small_ok _ 257).
      + apply writes_when; [done|]. intros _. by apply const_ok.
    - apply writes_when; [done|]. intros _. destruct Huninit as [Hub Hul]. split; [done|].
      cbn [snd]. split; [apply Forall_app; split; [apply be_bytes|done]|].
      rewrite zlen_app, zlen_be, Hul. done. }
  unfold write_credentials, credential_attributes. cbv zeta. apply writes_seq.
  - unfold user_attributes. cbv zeta. apply writes_wif. intros _.
    destruct (enable_userhash _).
    + apply writes_attr; [done|]. by apply (small_ok _ 33).
    + apply writes_when; [done|]. intros _. by apply (small_ok _ STUN_MAX_USERNAME_LEN).
  - fold (has_auth_attributes msg). apply writes_wif. intros _. apply writes_seq; [|done].
    apply writes_when; [done|]. intros _. by apply (small_ok _ STUN_MAX_REALM_LEN).
Qed.

End Messages.

(** ** Header, integrity and fingerprint *)

Lemma store_append_eq (m pre rest bs : list Z) (off : Z) :
  m = pre ++ rest -> off = zlen pre -> zlen bs <= zlen rest ->
  store m off bs = Some (pre ++ bs ++ drop (length bs) rest).
Proof. intros -> -> Hl. by apply store_append. Qed.

Lemma stun_write_header_spec (m : list Z) (size : Z) c method tid :
  sizeof_stun_header <= zlen m -> zlen m <= size -> 0 <= method < 65536 -> zlen tid = 12 ->
  stun_write_header m 0 size c method tid
  = Some (sizeof_stun_header, encode_header c method tid 0 ++ drop 20 m).
Proof.
  unfold sizeof_stun_header. intros Hm Hs Hme Ht. unfold stun_write_header, sizeof_stun_header.
  rewrite (proj2 (Z.ltb_ge _ _)) by lia.
  rewrite (take_ge tid) by zlia.
  replace (u16 (class_value c)) with (class_value c) by (destruct c; done).
  replace (u16 method) with method by solve_width.
  set (ty := be 2 (class_value c .| method)).
  assert (Hty : zlen ty = 2) by apply zlen_be.
  rewrite (store_append_eq m [] m ty 0) by (done || lia). cbn [mbind option_bind app].
  rewrite (store_append_eq _ ty (drop (length ty) m) (be 2 0)) by (rewrite ?zlen_drop, ?zlen_be; done || zlia).
  cbn [mbind option_bind]. rewrite length_be. rewrite app_assoc.
  rewrite (store_append_eq _ (ty ++ be 2 0) (drop 2 (drop (length ty) m)) (be 4 STUN_MAGIC))
    by (rewrite ?zlen_drop, ?zlen_app, ?zlen_be; done || zlia).
  cbn [mbind option_bind]. rewrite length_be. rewrite app_assoc.
  rewrite (store_append_eq _ ((ty ++ be 2 0) ++ be 4 STUN_MAGIC)
             (drop 4 (drop 2 (drop (length ty) m))) tid)
    by (rewrite ?zlen_drop, ?zlen_app, ?zlen_be; done || zlia).
  cbn [mbind option_bind]. unfold encode_header. fold ty.
  rewrite !drop_drop, <- !app_assoc. do 6 f_equal. unfold ty. rewrite length_be. f_equal. zlia.
Qed.

(** Updating the length replaces the header's. *)
Lemma update_length_spec c method tid n n' body :
  0 <= n < 65536 -> 0 <= n' < 65536 -> zlen tid = 12 ->
  stun_update_header_length (encode_header c method tid n ++ body) n'
  = Some (n, encode_header c method tid n' ++ body).
Proof.
  intros Hn Hn' Ht. unfold stun_update_header_length, encode_header, load16.
  set (ty := be 2 _).
  rewrite (load_split_eq _ ty (be 2 n) ((be 4 STUN_MAGIC ++ tid) ++ body) 2 2);
    [|by rewrite <- !app_assoc|by unfold ty; rewrite zlen_be|by rewrite zlen_be].
  cbn [fmap option_fmap option_map mbind option_bind].
  rewrite (store_split_eq _ ty (be 2 n) (be 2 (u16 n')) ((be 4 STUN_MAGIC ++ tid) ++ body) 2);
    [|by rewrite <- !app_assoc|by unfold ty; rewrite zlen_be|by rewrite !length_be].
  cbn [mbind option_bind]. rewrite unbe_be_small by (cbn; lia).
  replace (u16 n') with n' by solve_width. by rewrite <- !app_assoc.
Qed.

Lemma load_prefix (pre rest : list Z) : load (pre ++ rest) 0 (zlen pre) = Some pre.
Proof. by apply (load_split_eq _ [] pre rest). Qed.

Section Finish.

Context `{CryptoLaws} (size : Z) (Hsize : size < 2 ^ 31).
Context (msg : stun_message_t) (Hwf : message_wf msg).

Abbreviation header := (encode_header (msg_class msg) (msg_method msg) (transaction_id msg)).

Abbreviation written := (written_state size msg).

Lemma header_length n : zlen (header n) = sizeof_stun_header.
Proof using Hwf. destruct (wf_tid _ Hwf). by apply zlen_encode_header. Qed.

(** Appending one attribute computed from what is written. *)
Lemma append_attr (n : Z) (type : Z) (value : list Z -> list Z) l m pos :
  written l m pos -> 0 <= n -> zlen (encode_attrs l) + STUN_ATTR_SIZE + n < 65536 ->
  attr_ok (type, value (encode_before msg l n)) ->
  zlen (encode_attrs (l ++ [(type, value (encode_before msg l n))])) + sizeof_stun_header <= size ->
  exists m', stun_update_header_length m (pos - sizeof_stun_header + STUN_ATTR_SIZE + n)
             = Some (match load16 m 2 with Some p => p | None => 0 end, m') /\
    load m' 0 pos = Some (encode_before msg l n) /\
    exists m'' pos'', attr size type (value (encode_before msg l n)) m' pos = Ok m'' pos'' /\
      written (l ++ [(type, value (encode_before msg l n))]) m'' pos''.
Proof using Hsize Hwf.
  intros (n0 & rest & -> & Hn0 & Hm & ->) Hn Hl Ha Hfit.
  destruct (wf_tid _ Hwf) as [_ Ht]. pose proof (zlen_nonneg (encode_attrs l)) as Hnn.
  set (n1 := zlen (encode_attrs l) + STUN_ATTR_SIZE + n) in *.
  assert (Hn1 : 0 <= n1) by (unfold n1, STUN_ATTR_SIZE; lia).
  pose proof (update_length_spec (msg_class msg) (msg_method msg) (transaction_id msg) n0 n1
    (encode_attrs l ++ rest) Hn0 ltac:(lia) Ht) as Hu.
  pose proof Hu as Hu'. unfold stun_update_header_length in Hu'.
  assert (Hld : match load16 (header n0 ++ encode_attrs l ++ rest) 2 with
                | Some p => p | None => 0 end = n0).
  { destruct (load16 _ 2) as [p|]; [|done]. cbn [mbind option_bind] in Hu'.
    destruct (store _ _ _); [|done]. by inv Hu'. }
  rewrite <- app_assoc.
  replace (sizeof_stun_header + zlen (encode_attrs l) - sizeof_stun_header + STUN_ATTR_SIZE + n)
    with n1 by (unfold n1; lia).
  eexists. rewrite Hu, Hld. split; [done|].
  assert (Hb : encode_before msg l n = header n1 ++ encode_attrs l) by done.
  assert (Hbl : zlen (encode_before msg l n) = sizeof_stun_header + zlen (encode_attrs l))
    by (rewrite Hb, zlen_app, header_length; done).
  rewrite app_assoc, <- Hb, <- Hbl. split; [apply load_prefix|].
  rewrite encode_attrs_app, zlen_app in Hfit.
  assert (Hz : zlen (encode_before msg l n ++ rest) = size).
  { rewrite !zlen_app, header_length in Hm. rewrite zlen_app, Hbl. lia. }
  eexists _, _. split.
  { apply (writes_attr size Hsize type _ Ha); [done|]. rewrite zlen_app in Hz. lia. }
  exists n1, (drop (length (encode_attrs [(type, value (encode_before msg l n))])) rest).
  split_and!; [|lia|lia| |].
  - rewrite encode_attrs_app. rewrite Hb at 1. by rewrite <- !app_assoc.
  - rewrite <- Hz, !zlen_app, zlen_drop. rewrite zlen_app in Hz. unfold zlen in *. lia.
  - rewrite encode_attrs_app, zlen_app. lia.
Qed.

Lemma zlen_append_attr l type v :
  zlen (encode_attrs (l ++ [(type, v)])) = zlen (encode_attrs l) + 4 + align32 (zlen v).
Proof. rewrite encode_attrs_app, encode_attrs_one, zlen_app, zlen_encode_attr. cbn [snd]. lia. Qed.

Lemma write_hmac_spec hmac hmac_size type key l m pos :
  written l m pos -> (forall x k, zlen (hmac x k) = hmac_size /\ bytes (hmac x k)) ->
  0 < hmac_size < 65536 -> 0 <= type < 65536 ->
  let l' := append_hmac hmac hmac_size type key msg l in
  zlen (encode_attrs l') < 65536 -> zlen (encode_attrs l') + sizeof_stun_header <= size ->
  exists m' pos', write_hmac size hmac hmac_size type key m pos = Ok m' pos' /\
                  written l' m' pos'.
Proof using Hsize Hwf.
  intros Hw Hh Hs Ht l' Hl Hfit. unfold l', append_hmac in *.
  destruct (Hh (encode_before msg l hmac_size) key) as [Hhl Hhb].
  rewrite zlen_append_attr, Hhl, align32_spec in Hl by lia. unfold STUN_ATTR_SIZE.
  destruct (append_attr hmac_size type (fun x => hmac x key) l m pos)
    as (m1 & Hu & Hld & m2 & pos2 & Hok & Hw2); try done; try lia.
  { unfold STUN_ATTR_SIZE. zlia. }
  { split; [done|]. cbn [snd]. rewrite Hhl. split; [done|lia]. }
  exists m2, pos2. unfold write_hmac. by rewrite Hu, Hld.
Qed.

Lemma write_integrity_spec password l m pos :
  written l m pos ->
  let l' := integrity_attributes msg password l in
  zlen (encode_attrs l') < 65536 -> zlen (encode_attrs l') + sizeof_stun_header <= size ->
  exists m' pos', write_integrity size msg password m pos = Ok m' pos' /\ written l' m' pos'.
Proof using Hsize Hwf H0.
  intros Hw l'. unfold l', integrity_attributes, write_integrity. cbv zeta.
  destruct (_ && _); cbn [wif]; [|by eauto]. unfold wseq.
  set (key := generate_hmac_key msg password).
  set (l1 := append_hmac hmac_sha1 _ _ key msg l).
  destruct (bool_decide _); cbn [negb wif].
  - intros Hl Hfit.
    destruct (write_hmac_spec hmac_sha1 HMAC_SHA1_SIZE STUN_ATTR_MESSAGE_INTEGRITY key l m pos)
      as (m1 & pos1 & -> & Hw1); try done; [apply hmac_sha1_digest|].
    cbn [wbind]. unfold skip. eauto.
  - set (l2 := append_hmac hmac_sha256 _ _ key msg l1). intros Hl Hfit.
    assert (zlen (encode_attrs l1) <= zlen (encode_attrs l2)).
    { unfold l2, append_hmac. rewrite (encode_attrs_app l1), zlen_app.
      match goal with |- context [encode_attrs [?a] ] =>
        pose proof (zlen_nonneg (encode_attrs [a])) end. lia. }
    destruct (write_hmac_spec hmac_sha1 HMAC_SHA1_SIZE STUN_ATTR_MESSAGE_INTEGRITY key l m pos)
      as (m1 & pos1 & -> & Hw1); try done; [apply hmac_sha1_digest|fold l1; lia..|].
    cbn [wbind].
    apply write_hmac_spec; try done. apply hmac_sha256_digest.
Qed.

Lemma encode_before_bytes l n : Forall attr_ok l -> bytes (encode_before msg l n).
Proof using Hwf.
  intros Hl. destruct (wf_tid _ Hwf) as [Hb _]. unfold encode_before, encode_header.
  rewrite !Forall_app. auto 10 using be_bytes, encode_attrs_bytes.
Qed.

Lemma write_fingerprint_spec l m pos :
  written l m pos -> Forall attr_ok l ->
  zlen (encode_attrs l) + 8 < 65536 -> zlen (encode_attrs l) + 8 + sizeof_stun_header <= size ->
  exists rest, write_fingerprint size m pos
    = Ok ((encode_before msg l 4 ++ encode_attr (fingerprint_attr msg l)) ++ rest)
         (sizeof_stun_header + zlen (encode_attrs l) + 8) /\
    zlen ((encode_before msg l 4 ++ encode_attr (fingerprint_attr msg l)) ++ rest) = size.
Proof using Hsize Hwf.
  intros (n0 & rest & -> & Hn0 & Hm & ->) Hok Hl Hfit.
  destruct (wf_tid _ Hwf) as [_ Ht]. pose proof (zlen_nonneg (encode_attrs l)) as Hnn.
  pose proof (encode_attrs_aligned l). unfold write_fingerprint.
  replace (sizeof_stun_header + zlen (encode_attrs l) - sizeof_stun_header + STUN_ATTR_SIZE + 4)
    with (zlen (encode_attrs l) + STUN_ATTR_SIZE + 4) by lia.
  set (n1 := zlen (encode_attrs l) + STUN_ATTR_SIZE + 4) in *.
  assert (Hn1 : n1 = zlen (encode_attrs l) + 8) by (unfold n1, STUN_ATTR_SIZE; lia).
  rewrite land_3, (proj2 (Z.eqb_eq (n1 mod 4) 0)) by zlia. cbn [negb].
  rewrite <- app_assoc, update_length_spec by (done || lia).
  assert (Hb : encode_before msg l 4 = header n1 ++ encode_attrs l) by done.
  assert (Hbl : zlen (encode_before msg l 4) = sizeof_stun_header + zlen (encode_attrs l))
    by (rewrite Hb, zlen_app, header_length; done).
  rewrite app_assoc, <- Hb, <- Hbl, load_prefix. cbn [mbind option_bind].
  rewrite juice_crc32_fold by (by apply encode_before_bytes).
  change (crc_fold CRC32_INIT (encode_before msg l 4) .^ CRC32_XOR)
    with (crc32_ref (encode_before msg l 4)).
  assert (Hz : zlen (encode_before msg l 4 ++ rest) = size).
  { rewrite !zlen_app, header_length in Hm. rewrite zlen_app, Hbl. lia. }
  set (v := be 4 _).
  assert (Hv : zlen (encode_attrs [(STUN_ATTR_FINGERPRINT, v)]) = 8)
    by (rewrite encode_attrs_one, zlen_encode_attr; done).
  rewrite (proj2 (writes_attr size Hsize STUN_ATTR_FINGERPRINT v ltac:(apply be_ok; [done|lia]))).
  - rewrite Hv, encode_attrs_one. eexists. split; [f_equal; apply app_assoc|].
    change (fingerprint_attr msg l) with (STUN_ATTR_FINGERPRINT, v).
    rewrite encode_attrs_one in Hv.
    rewrite !zlen_app, zlen_drop in *. unfold zlen in *. lia.
  - done.
  - rewrite Hv. rewrite zlen_app in Hz. lia.
Qed.

End Finish.

(** ** The whole message *)

Lemma wseq_assoc (a b c : step) m pos : (a;;; b;;; c) m pos = wbind ((a;;; b) m pos) c.
Proof. unfold wseq. by destruct (a m pos). Qed.

Lemma integrity_attributes_ok `{CryptoLaws} msg password l :
  Forall attr_ok l -> Forall attr_ok (integrity_attributes msg password l).
Proof.
  intros Hl. unfold integrity_attributes. cbv zeta. destruct (_ && _); [|done].
  assert (Hh : forall (hmac : list Z -> list Z -> list Z) n ty k l, Forall attr_ok l ->
    (forall x k, zlen (hmac x k) = n /\ bytes (hmac x k)) -> 0 <= ty < 65536 -> n < 65536 ->
    Forall attr_ok (append_hmac hmac n ty k msg l)).
  { intros hmac n ty k l0 Hl0 Hd Ht Hn. unfold append_hmac. apply Forall_app; split; [done|].
    apply Forall_singleton. destruct (Hd (encode_before msg l0 n) k) as [Hz Hb].
    split; [done|]. split; [done|]. cbn [snd]. lia. }
  destruct (bool_decide _); repeat apply Hh; try done;
    apply hmac_sha1_digest || apply hmac_sha256_digest.
Qed.

Section Whole.

Context `{CryptoLaws} (uninit : list Z) (Huninit : bytes uninit /\ zlen uninit = 2).
Context (msg : stun_message_t) (Hwf : message_wf msg) (password : option (list Z)).

Lemma signed_attributes_writes size :
  size < 2 ^ 31 ->
  writes size (write_attributes size msg;;; write_credentials size uninit msg)
              (signed_attributes uninit msg).
Proof using Hwf Huninit.
  intros Hs. apply writes_seq; [by apply write_attributes_writes|by apply write_credentials_writes].
Qed.

Lemma all_attributes_ok : Forall attr_ok (all_attributes uninit msg password).
Proof using Hwf Huninit H0.
  apply integrity_attributes_ok.
  exact (proj1 (signed_attributes_writes 0 ltac:(lia))).
Qed.

Lemma zlen_encode_message :
  zlen (encode_message uninit msg password)
  = sizeof_stun_header + zlen (encode_attrs (all_attributes uninit msg password)) + 8.
Proof using Hwf.
  unfold encode_message, encode_before. destruct (wf_tid _ Hwf) as [_ Ht].
  rewrite !zlen_app, zlen_encode_header by done.
  rewrite zlen_encode_attr. unfold fingerprint_attr. cbn [snd].
  rewrite zlen_be. change (align32 (Z.of_nat 4)) with 4. lia.
Qed.

Lemma stun_write_spec (m : list Z) :
  let e := encode_message uninit msg password in
  zlen e <= zlen m < 2 ^ 31 -> zlen e < 65536 ->
  exists rest, stun_write (zlen m) uninit m msg password = Some (zlen e, Some (e ++ rest)) /\
               zlen (e ++ rest) = zlen m.
Proof using Hwf Huninit H0.
  intros e Hm Hl. assert (He := zlen_encode_message). fold e in He.
  set (l := all_attributes uninit msg password) in *.
  destruct (wf_tid _ Hwf) as [_ Ht]. destruct (wf_method _ Hwf) as [Hme _].
  pose proof (zlen_nonneg (encode_attrs l)) as Hnn. unfold sizeof_stun_header in *.
  assert (Hsz : zlen (encode_attrs (signed_attributes uninit msg)) <= zlen (encode_attrs l)).
  { unfold l, all_attributes, integrity_attributes. cbv zeta.
    destruct (_ && _); [|done]. destruct (bool_decide _); unfold append_hmac;
      rewrite ?encode_attrs_app, ?zlen_app;
      repeat match goal with |- context [encode_attrs [?a] ] =>
        pose proof (zlen_nonneg (encode_attrs [a])); generalize dependent (zlen (encode_attrs [a])); intros end; lia. }
  unfold stun_write. unfold wseq at 1. rewrite Z.sub_0_r.
  replace (u64 (zlen m)) with (zlen m) by solve_width.
  rewrite stun_write_header_spec by (unfold sizeof_stun_header; done || lia).
  rewrite advance_spec by (unfold sizeof_stun_header; done || lia). cbn [wbind].
  change (0 + sizeof_stun_header) with 20.
  set (h := encode_header _ _ _ 0).
  assert (Hh : zlen h = 20) by (by apply zlen_encode_header).
  assert (Hz : zlen (h ++ drop 20 m) = zlen m) by (rewrite zlen_app, zlen_drop, Hh; lia).
  destruct (signed_attributes_writes (zlen m) ltac:(lia)) as [_ Hw].
  specialize (Hw h (drop 20 m) Hz). rewrite Hh in Hw.
  set (sgn := encode_attrs (signed_attributes uninit msg)) in *.
  rewrite wseq_assoc, Hw by (rewrite zlen_drop; lia).
  cbn [wbind]. clear Hw.
  assert (Hst : written_state (zlen m) msg (signed_attributes uninit msg)
    (h ++ sgn ++ drop (length sgn) (drop 20 m)) (20 + zlen sgn)).
  { exists 0, (drop (length sgn) (drop 20 m)). 
    split; [by rewrite <- app_assoc|]. split; [lia|]. split; [|done].
    rewrite !zlen_app, !zlen_drop, Hh. unfold zlen in *. lia. }
  unfold wseq.
  destruct (write_integrity_spec (zlen m) ltac:(lia) msg Hwf password _ _ _ Hst)
    as (m2 & p2 & -> & Hst2).
  { fold (all_attributes uninit msg password). fold l. lia. }
  { fold (all_attributes uninit msg password). fold l. unfold sizeof_stun_header. lia. }
  cbn [wbind].
  destruct (write_fingerprint_spec (zlen m) ltac:(lia) msg Hwf l m2 p2 Hst2)
    as (rest & -> & Hrest);
    [apply all_attributes_ok|lia|unfold sizeof_stun_header; lia|].
  exists rest. split; [|done]. unfold sizeof_stun_header.
  by replace (s32 (20 + zlen (encode_attrs l) + 8)) with (zlen e) by solve_width.
Qed.

End Whole.

(** ** Theorems *)

(** Digests of the right sizes, for the examples. *)
Definition sum_digest (n : nat) (l : list Z) : list Z := replicate n (fold_left Z.add l 0 mod 256).

Definition sum_crypto : Crypto :=
  {| hmac_sha1 msg key := sum_digest 20 (msg ++ key);
     hmac_sha256 msg key := sum_digest 32 (msg ++ key);
     juice_hash_md5 := sum_digest 16;
     juice_hash_sha256 := sum_digest 32 |}.

Lemma sum_digest_bytes (n : nat) (l : list Z) : bytes (sum_digest n l).
Proof. apply Forall_replicate. unfold is_byte. zlia. Qed.

Lemma sum_crypto_laws : @CryptoLaws sum_crypto.
Proof. constructor; intros; split; done || apply sum_digest_bytes. Qed.

(** An ICE connectivity check. *)
Definition example_request : stun_message_t :=
  {| msg_class := STUN_CLASS_REQUEST; msg_method := STUN_METHOD_BINDING;
     transaction_id := [1; 2; 3; 4; 5; 6; 7; 8; 9; 10; 11; 12]; error_code := 0;
     priority := 1845494271; ice_controlling := 0x1122334455667788; ice_controlled := 0;
     use_candidate := true; mapped := addr_record_zero;
     credentials := set_username stun_credentials_zero (str "abcd:efgh");
     has_integrity := false; has_fingerprint := false;
     peers := [ {| addr := Sin 8475 [192; 0; 2; 1]; len := 16; socktype := SOCK_DGRAM |} ];
     relayed := addr_record_zero; alternate_server := addr_record_zero; data := Some [1; 2; 3];
     lifetime := 0; channel_number := 0; lifetime_set := false; even_port := false;
     next_port := false; dont_fragment := false; requested_transport := false;
     reservation_token := 0 |}.

Lemma example_request_wf : message_wf example_request.
Proof.
  constructor.
  - split; [split; discriminate || reflexivity|reflexivity].
  - split; [by apply bytes_forallb|done].
  - done.
  - apply Forall_cons; [|apply Forall_nil]. split; [lia|]. split; [by apply bytes_forallb|done].
  - done.
  - split; [by apply bytes_forallb|done].
  - split; [by apply bytes_forallb|done].
  - split; [by apply bytes_forallb|done].
  - split; [by apply bytes_forallb|done].
  - split; [by apply bytes_forallb|done].
  - split; [by apply bytes_forallb|done].
Qed.

(** C15: Whenever the buffer is large enough, [stun_write] writes exactly the
    encoding of the message: the header with the final length, the attributes in
    order and padded, the HMACs over everything before them with the length set
    to end after each, and the CRC-32 fingerprint last; it returns the length
    written, and no store is outside the buffer. *)
Theorem stun_write_encodes `{CryptoLaws} (uninit m : list Z) (msg : stun_message_t)
    (password : option (list Z)) :
  message_wf msg -> bytes uninit /\ zlen uninit = 2 ->
  let e := encode_message uninit msg password in
  zlen e <= zlen m < 2 ^ 31 -> zlen e < 65536 ->
  exists rest, stun_write (zlen m) uninit m msg password = Some (zlen e, Some (e ++ rest)) /\
               zlen (e ++ rest) = zlen m.
Proof. intros Hw Hu e Hm He. exact (stun_write_spec uninit Hu msg Hw password m Hm He). Qed.

Lemma stun_write_encodes_witness :
  let e := @encode_message sum_crypto [0; 0] example_request (Some (str "secret")) in
  zlen e = 124 /\
  exists rest, @stun_write sum_crypto 256 [0; 0] (replicate 256 0) example_request
                 (Some (str "secret")) = Some (zlen e, Some (e ++ rest)) /\
               zlen (e ++ rest) = 256.
Proof.
  split; [by vm_compute|].
  apply (@stun_write_encodes sum_crypto sum_crypto_laws [0; 0] (replicate 256 0)).
  - apply example_request_wf.
  - split; [by apply bytes_forallb|done].
  - vm_compute. split; discriminate || reflexivity.
  - by vm_compute.
Defined.

(** The size check of [stun_write_attr] leaves out the padding: into a
    buffer that holds exactly the header and a value that is not a multiple of
    four bytes, the zero bytes of the padding are stored past the end. *)
Theorem stun_write_attr_padding_overflow (m value : list Z) (type : Z) :
  zlen value mod 4 <> 0 -> zlen m = 4 + zlen value ->
  stun_write_attr m 0 (zlen m) type value = None.
Proof.
  intros Hp Hm. pose proof (zlen_nonneg value). unfold stun_write_attr, STUN_ATTR_SIZE.
  rewrite (proj2 (Z.ltb_ge _ _)) by lia.
  rewrite (store_append_eq m [] m (be 2 (u16 type)) 0) by (rewrite ?zlen_be; done || lia).
  cbn [mbind option_bind app].
  rewrite (store_append_eq _ (be 2 (u16 type)) (drop 2 m) (be 2 (u16 (zlen value))))
    by (rewrite ?zlen_drop, ?zlen_be; done || lia).
  cbn [mbind option_bind]. rewrite length_be, app_assoc.
  assert (Hpos : 0 < zlen value) by (destruct value; [done|rewrite zlen_cons in *; zlia]).
  rewrite (proj2 (Z.ltb_lt _ _)) by done.
  rewrite (store_append_eq _ (be 2 (u16 type) ++ be 2 (u16 (zlen value))) (drop 2 (drop 2 m)) value)
    by (rewrite ?zlen_drop, ?zlen_app, ?zlen_be; done || lia).
  cbn [mbind option_bind pad_loop]. rewrite land_3, (proj2 (Z.eqb_neq _ _)) by done.
  unfold store. match goal with |- context [in_bounds ?x ?o ?n] =>
    assert (E : in_bounds x o n = false) end; [|by rewrite E].
  apply not_true_iff_false. rewrite in_bounds_true, !zlen_app, !zlen_be, !zlen_drop.
  change (zlen [0]) with 1. unfold zlen in *. lia.
Qed.

Lemma stun_write_attr_padding_overflow_witness :
  stun_write_attr [0; 0; 0; 0; 0] 0 5 STUN_ATTR_SOFTWARE [65] = None.
Proof. apply (stun_write_attr_padding_overflow [0; 0; 0; 0; 0] [65]); by vm_compute. Defined.

(** A buffer that is too small for the fingerprint is not reported: the -1
    of the attribute writer, stored in an unsigned length, is never negative and
    moves the position back by one, so that [stun_write] returns a length one
    less than the buffer instead of the documented error. *)
Theorem stun_write_short_buffer_unreported :
  let msg := set_msg_method (set_msg_class stun_message_zero STUN_CLASS_INDICATION)
               STUN_METHOD_BINDING in
  zlen (@encode_message sum_crypto [0; 0] msg None) = 40 /\
  exists m, @stun_write sum_crypto 32 [0; 0] (replicate 32 0) msg None = Some (31, Some m).
Proof. split; [by vm_compute|]. eexists. vm_compute. reflexivity. Qed.
