(* ===== verification/StunRead.v ===== *)
(** * Reading STUN messages (src/stun.c)

    [stun_read], [stun_read_attr] with one definition per kind of attribute,
    [stun_check_integrity] and the functions on credentials.  A message is read
    in place from a datagram in memory.  The cases of [stun_read_attr] work on
    the bytes of the attribute value: a load outside of them, even inside the
    datagram, is [None], and so is any other undefined behaviour. *)

From S2P Require Import Prelude CText Addr Base64 ConstTime Crc32 StunTypes StunWrite.

(** ** Datagrams *)

Definition is_stun_datagram (m : list Z) (size : Z) : option bool :=
  if size =? 0 then Some false
  else
    b ← load8 m 0;
    if negb (b .& 0xC0 =? 0) then Some false
    else if size <? sizeof_stun_header then Some false
    else
      magic ← load32 m 4;
      if negb (magic =? STUN_MAGIC) then Some false
      else
        length ← load16 m 2;
        if negb (length .& 0x03 =? 0) then Some false
        else if negb (size =? sizeof_stun_header + length) then Some false
        else Some true.

(** ** Attribute values

    A case of the [switch] yields the message and the security bits, or leaves
    [stun_read_attr] with an error. *)

Definition vres : Type := option (option (stun_message_t * Z)).
Definition fail : vres := Some None.
Definition break (msg : stun_message_t) (bits : Z) : vres := Some (Some (msg, bits)).

(** The result and the record, which an unknown family leaves alone. *)
Definition stun_read_value_mapped_address (v : list Z) (record : addr_record_t) (mask : list Z)
  : option (Z * addr_record_t) :=
  let size := zlen v in
  let mask16 := unle16 (nth 0 mask 0) (nth 1 mask 0) in
  if size <? 4 then Some (-1, record)
  else
    family ← load8 v 1;
    if family =? STUN_ADDRESS_FAMILY_IPV4 then
      if size <? 4 + 4 then Some (-1, record)
      else
        p0 ← load8 v 2; p1 ← load8 v 3;
        address ← load v 4 4;
        Some (4 + 4, {| addr := Sin (unle16 p0 p1 .^ mask16) (xor_bytes address (take 4 mask));
                        len := sizeof_sockaddr_in; socktype := SOCK_DGRAM |})
    else if family =? STUN_ADDRESS_FAMILY_IPV6 then
      if size <? 4 + 16 then Some (-1, record)
      else
        p0 ← load8 v 2; p1 ← load8 v 3;
        address ← load v 4 16;
        Some (4 + 16, {| addr := Sin6 (unle16 p0 p1 .^ mask16) (xor_bytes address (take 16 mask));
                         len := sizeof_sockaddr_in6; socktype := SOCK_DGRAM |})
    else Some (size, record).

Definition zero_mask : list Z := replicate 16 0.

(** The cases that read an address into a field. *)
Definition read_address (v mask : list Z) (old : addr_record_t)
    (set : addr_record_t -> stun_message_t) (bits : Z) : vres :=
  '(ret, r) ← stun_read_value_mapped_address v old mask;
  if ret <? 0 then fail else break (set r) bits.

(** The reason is copied to a buffer for the log. *)
Definition read_error_code (v : list Z) (msg : stun_message_t) (bits : Z) : vres :=
  let length := zlen v in
  if length <? 4 then fail
  else
    code_class ← load8 v 2; code_number ← load8 v 3;
    let code := (code_class .& 0x07) * 100 + code_number in
    if (code =? 401) || (code =? 438) then break (set_error_code msg code) bits
    else
      let reason_length := length - 4 in
      let reason_length := if STUN_MAX_ERROR_REASON_LEN <=? reason_length
                           then STUN_MAX_ERROR_REASON_LEN - 1 else reason_length in
      _ ← load v 4 reason_length;
      break (set_error_code msg code) bits.

(** [length + 1 > max] is the check against the size of the array. *)
Definition read_string (max : Z) (v : list Z) (set : list Z -> stun_message_t) (bits : Z) : vres :=
  if max <? zlen v + 1 then fail else break (set (cstr v)) bits.

Definition with_credentials (msg : stun_message_t)
    (f : stun_credentials_t -> stun_credentials_t) : stun_message_t :=
  set_credentials msg (f (credentials msg)).

Definition read_username (v : list Z) (msg : stun_message_t) (bits : Z) : vres :=
  read_string STUN_MAX_USERNAME_LEN v
    (fun s => with_credentials msg (fun c => set_username c s)) bits.

Definition read_realm (v : list Z) (msg : stun_message_t) (bits : Z) : vres :=
  read_string STUN_MAX_REALM_LEN v (fun s => with_credentials msg (fun c => set_realm c s)) bits.

(** The security bits of a nonce with the cookie: three bytes decoded behind a
    zero byte.  When they do not decode the code clears its pointer, not the
    bits. *)
Definition nonce_security_bits (nonce : list Z) (bits : Z) : option Z :=
  r ← juice_base64_decode (take 4 (drop (Z.to_nat STUN_NONCE_COOKIE_LEN) nonce)) 3;
  if 3 <? zlen (written r) then None
  else if ret r =? 3 then Some (unbe (0 :: written r))
  else Some bits.

Definition read_nonce (v : list Z) (msg : stun_message_t) (bits : Z) : vres :=
  if STUN_MAX_NONCE_LEN <? zlen v + 1 then fail
  else
    let n := cstr v in
    let msg := with_credentials msg (fun c => set_nonce c n) in
    if STUN_IS_RESPONSE (msg_class msg) && (STUN_NONCE_COOKIE_LEN + 4 <? zlen n) &&
       starts_with STUN_NONCE_COOKIE n
    then bits ← nonce_security_bits n bits; break msg bits
    else break msg bits.

(** The algorithms the code knows. *)
Definition known_algorithm (algorithm : Z) : option stun_password_algorithm_t :=
  if algorithm =? algorithm_value STUN_PASSWORD_ALGORITHM_MD5
  then Some STUN_PASSWORD_ALGORITHM_MD5
  else if algorithm =? algorithm_value STUN_PASSWORD_ALGORITHM_SHA256
  then Some STUN_PASSWORD_ALGORITHM_SHA256
  else None.

Definition set_algorithm (msg : stun_message_t) (a : option stun_password_algorithm_t)
  : stun_message_t :=
  match a with
  | Some a => with_credentials msg (fun c => set_password_algorithm c a)
  | None => msg
  end.

Definition read_password_algorithm (v : list Z) (msg : stun_message_t) (bits : Z) : vres :=
  if zlen v <? 4 then fail
  else if negb (STUN_IS_RESPONSE (msg_class msg)) then
    algorithm ← load16 v 0;
    break (set_algorithm msg (known_algorithm algorithm)) bits
  else break msg bits.

(** The loop over the list: the first known algorithm; [Some None] is the error
    return. *)
Fixpoint algorithms_loop (fuel : nat) (v : list Z) (pos : Z)
  : option (option (option stun_password_algorithm_t)) :=
  match fuel with
  | O => None
  | S fuel' =>
      let end_ := zlen v in
      if negb (pos <? end_) then Some (Some None)
      else if end_ - pos <? 4 then Some None
      else
        algorithm ← load16 v pos;
        parameters_length ← load16 v (pos + 2);
        let padded_length := align32 parameters_length in
        let pos := pos + 4 in
        if end_ - pos <? padded_length then Some None
        else
          let pos := pos + padded_length in
          match known_algorithm algorithm with
          | Some a => Some (Some (Some a))
          | None => algorithms_loop fuel' v pos
          end
  end.

Definition read_password_algorithms (v : list Z) (msg : stun_message_t) (bits : Z) : vres :=
  let length := zlen v in
  if length <? 4 then fail
  else if STUN_MAX_PASSWORD_ALGORITHMS_VALUE_SIZE <? length then fail
  else
    let msg := with_credentials msg (fun c => set_password_algorithms_value c v) in
    if negb (STUN_IS_RESPONSE (msg_class msg)) then
      r ← algorithms_loop (S (Z.to_nat length)) v 0;
      match r with
      | None => fail
      | Some a => break (set_algorithm msg a) bits
      end
    else break msg bits.

Definition read_userhash (v : list Z) (msg : stun_message_t) (bits : Z) : vres :=
  if negb (zlen v =? USERHASH_SIZE) then fail
  else break (with_credentials msg (fun c => set_enable_userhash (set_userhash c v) true)) bits.

Definition read_software (v : list Z) (msg : stun_message_t) (bits : Z) : vres :=
  if STUN_MAX_SOFTWARE_LEN <? zlen v + 1 then fail else break msg bits.

(** The cases with a 32-bit or 64-bit value. *)
Definition read_u32 (v : list Z) (set : Z -> stun_message_t) (bits : Z) : vres :=
  if negb (zlen v =? 4) then fail
  else x ← load32 v 0; break (set x) bits.

Definition read_u64 (v : list Z) (set : Z -> stun_message_t) (bits : Z) : vres :=
  if negb (zlen v =? 8) then fail
  else
    hi ← load32 v 0; lo ← load32 v 4;
    break (set (u64 (hi .<< 32) .| lo)) bits.

Definition read_channel_number (v : list Z) (msg : stun_message_t) (bits : Z) : vres :=
  if zlen v <? 4 then fail
  else n ← load16 v 0; break (set_channel_number msg n) bits.

Definition read_peer (v : list Z) (msg : stun_message_t) (bits : Z) : vres :=
  if peers_size msg <? STUN_MAX_PEER_ADDRESSES then
    '(ret, peer) ← stun_read_value_mapped_address v addr_record_zero
                     (generate_mask (transaction_id msg));
    if ret <? 0 then fail
    else if len peer =? 0 then break msg bits
    else break (set_peers msg (peers msg ++ [peer])) bits
  else break msg bits.

Definition read_even_port (v : list Z) (msg : stun_message_t) (bits : Z) : vres :=
  if zlen v <? 1 then fail
  else
    r ← load8 v 0;
    break (set_next_port (set_even_port msg true) (negb (r .& 0x80 =? 0))) bits.

Definition read_requested_transport (v : list Z) (msg : stun_message_t) (bits : Z) : vres :=
  if zlen v <? 4 then fail
  else
    protocol ← load8 v 0;
    if negb (protocol =? 17) then fail else break (set_requested_transport msg true) bits.

(** The types listed are read for the log only. *)
Definition read_unknown_attributes (v : list Z) (msg : stun_message_t) (bits : Z) : vres :=
  _ ← load v 0 (2 * (zlen v / 2)); break msg bits.

Definition read_integrity (v : list Z) (size : Z) (msg : stun_message_t) (bits : Z) : vres :=
  if negb (zlen v =? size) then fail else break (set_has_integrity msg true) bits.

(** The [switch], but for the fingerprint, which depends on the datagram. *)
Definition read_value (type : Z) (v : list Z) (msg : stun_message_t) (bits : Z) : vres :=
  let mask := generate_mask (transaction_id msg) in
  if type =? STUN_ATTR_MAPPED_ADDRESS then read_address v zero_mask (mapped msg) (set_mapped msg) bits
  else if type =? STUN_ATTR_XOR_MAPPED_ADDRESS then read_address v mask (mapped msg) (set_mapped msg) bits
  else if type =? STUN_ATTR_ALTERNATE_SERVER then
    read_address v zero_mask (alternate_server msg) (set_alternate_server msg) bits
  else if type =? STUN_ATTR_ERROR_CODE then read_error_code v msg bits
  else if type =? STUN_ATTR_UNKNOWN_ATTRIBUTES then read_unknown_attributes v msg bits
  else if type =? STUN_ATTR_USERNAME then read_username v msg bits
  else if type =? STUN_ATTR_MESSAGE_INTEGRITY then read_integrity v HMAC_SHA1_SIZE msg bits
  else if type =? STUN_ATTR_MESSAGE_INTEGRITY_SHA256 then read_integrity v HMAC_SHA256_SIZE msg bits
  else if type =? STUN_ATTR_REALM then read_realm v msg bits
  else if type =? STUN_ATTR_NONCE then read_nonce v msg bits
  else if type =? STUN_ATTR_PASSWORD_ALGORITHM then read_password_algorithm v msg bits
  else if type =? STUN_ATTR_PASSWORD_ALGORITHMS then read_password_algorithms v msg bits
  else if type =? STUN_ATTR_USERHASH then read_userhash v msg bits
  else if type =? STUN_ATTR_SOFTWARE then read_software v msg bits
  else if type =? STUN_ATTR_PRIORITY then read_u32 v (set_priority msg) bits
  else if type =? STUN_ATTR_USE_CANDIDATE then break (set_use_candidate msg true) bits
  else if type =? STUN_ATTR_ICE_CONTROLLING then read_u64 v (set_ice_controlling msg) bits
  else if type =? STUN_ATTR_ICE_CONTROLLED then read_u64 v (set_ice_controlled msg) bits
  else if type =? STUN_ATTR_CHANNEL_NUMBER then read_channel_number v msg bits
  else if type =? STUN_ATTR_LIFETIME then
    read_u32 v (fun x => set_lifetime_set (set_lifetime msg x) true) bits
  else if type =? STUN_ATTR_XOR_PEER_ADDRESS then read_peer v msg bits
  else if type =? STUN_ATTR_XOR_RELAYED_ADDRESS then
    read_address v mask (relayed msg) (set_relayed msg) bits
  else if type =? STUN_ATTR_DATA then break (set_data msg (Some v)) bits
  else if type =? STUN_ATTR_EVEN_PORT then read_even_port v msg bits
  else if type =? STUN_ATTR_REQUESTED_TRANSPORT then read_requested_transport v msg bits
  else if type =? STUN_ATTR_DONT_FRAGMENT then break (set_dont_fragment msg true) bits
  else if type =? STUN_ATTR_RESERVATION_TOKEN then read_u64 v (set_reservation_token msg) bits
  else break msg bits.

(** The fingerprint is checked with the header length set to end after it; the
    length is put back.  Yields the buffer and whether the check passed. *)
Definition check_fingerprint (m : list Z) (off : Z) : option (list Z * bool) :=
  let tmp_length := off - sizeof_stun_header + STUN_ATTR_SIZE + 4 in
  '(prev_length, m) ← stun_update_header_length m tmp_length;
  before ← load m 0 off;
  crc ← juice_crc32 before;
  '(_, m) ← stun_update_header_length m prev_length;
  fingerprint ← load32 m (off + 4);
  Some (m, fingerprint =? (crc .^ STUN_FINGERPRINT_XOR)).

(** The state of the reader: datagram, message, security bits. *)
Record reader := { mem : list Z; rmsg : stun_message_t; security_bits : Z }.

Definition after_integrity (type : Z) : bool :=
  (type =? STUN_ATTR_MESSAGE_INTEGRITY) || (type =? STUN_ATTR_MESSAGE_INTEGRITY_SHA256) ||
  (type =? STUN_ATTR_FINGERPRINT).

(** The attribute at [off], with [size] bytes left: the result and the state. *)
Definition stun_read_attr (off size : Z) (st : reader) : option (Z * reader) :=
  let msg := rmsg st in
  if has_fingerprint msg then Some (-1, st)
  else if size <? STUN_ATTR_SIZE then Some (-1, st)
  else
    length ← load16 (mem st) (off + 2);
    type ← load16 (mem st) off;
    let consumed := STUN_ATTR_SIZE + align32 length in
    if size <? STUN_ATTR_SIZE + length then Some (-1, st)
    else if has_integrity msg && negb (after_integrity type) then Some (consumed, st)
    else
      v ← load (mem st) (off + 4) length;
      if type =? STUN_ATTR_FINGERPRINT then
        if negb (length =? 4) then Some (-1, st)
        else
          '(m, valid) ← check_fingerprint (mem st) off;
          if negb valid
          then Some (-1, {| mem := m; rmsg := msg; security_bits := security_bits st |})
          else Some (consumed, {| mem := m; rmsg := set_has_fingerprint msg true;
                                  security_bits := security_bits st |})
      else
        r ← read_value type v msg (security_bits st);
        match r with
        | None => Some (-1, st)
        | Some (msg, bits) =>
            Some (consumed, {| mem := mem st; rmsg := msg; security_bits := bits |})
        end.

(** ** Messages *)

(** [while (pos < end)]: [inl] is the error return. *)
Fixpoint read_loop (fuel : nat) (pos end_ : Z) (st : reader) : option (reader + reader) :=
  match fuel with
  | O => None
  | S fuel' =>
      if negb (pos <? end_) then Some (inr st)
      else
        '(ret, st) ← stun_read_attr pos (end_ - pos) st;
        if ret <=? 0 then Some (inl st) else read_loop fuel' (pos + ret) end_ st
  end.

(** What RFC 8489 asks about password algorithms in responses. *)
Definition validate_response (msg : stun_message_t) (bits : Z) : stun_message_t :=
  if bool_decide (msg_class msg = STUN_CLASS_RESP_ERROR) &&
     ((error_code msg =? 401) || (error_code msg =? 438)) &&
     negb (bits .& STUN_SECURITY_PASSWORD_ALGORITHMS_BIT =? 0) &&
     (password_algorithms_value_size (credentials msg) =? 0)
  then set_error_code msg STUN_ERROR_INTERNAL_VALIDATION_FAILED
  else msg.

(** And in requests and indications. *)
Definition validate_request (msg : stun_message_t) : stun_message_t :=
  let c := credentials msg in
  let unset := bool_decide (password_algorithm c = STUN_PASSWORD_ALGORITHM_UNSET) in
  let no_list := password_algorithms_value_size c =? 0 in
  let invalid := set_error_code msg STUN_ERROR_INTERNAL_VALIDATION_FAILED in
  if STUN_IS_RESPONSE (msg_class msg) then msg
  else if no_list && unset then
    set_credentials msg (set_password_algorithm c STUN_PASSWORD_ALGORITHM_MD5)
  else if unset then invalid
  else if no_list then invalid
  else if bool_decide (generate_password_algorithms_attr = password_algorithms_value c) then msg
  else invalid.

Definition set_userhash_support (msg : stun_message_t) (bits : Z) : stun_message_t :=
  if negb (bits .& STUN_SECURITY_USERNAME_ANONYMITY_BIT =? 0)
  then with_credentials msg (fun c => set_enable_userhash c true) else msg.

(** The message after its header is read. *)
Definition initial_message (type : Z) (tid : list Z) : stun_message_t :=
  set_transaction_id
    (set_msg_method (set_msg_class stun_message_zero (class_of_value (type .& STUN_CLASS_MASK)))
                    (Z.ldiff type STUN_CLASS_MASK)) tid.

(** The result, the datagram and the message.  After a failure the message holds what
    was read so far, but for the attribute that failed; no caller uses it then. *)
Definition stun_read (m : list Z) (size : Z) : option (Z * list Z * stun_message_t) :=
  if size <? sizeof_stun_header then Some (-1, m, stun_message_zero)
  else
    length ← load16 m 2;
    if size <? sizeof_stun_header + length then Some (-1, m, stun_message_zero)
    else
      type ← load16 m 0;
      tid ← load m 8 STUN_TRANSACTION_ID_SIZE;
      let st := {| mem := m; rmsg := initial_message type tid; security_bits := 0 |} in
      r ← read_loop (S (Z.to_nat length)) sizeof_stun_header (sizeof_stun_header + length) st;
      match r with
      | inl st => Some (-1, mem st, rmsg st)
      | inr st =>
          let msg := validate_response (rmsg st) (security_bits st) in
          let msg := validate_request msg in
          let msg := set_userhash_support msg (security_bits st) in
          Some (sizeof_stun_header + length, mem st, msg)
      end.

(** ** Integrity *)

Section Integrity.

Context `{Crypto}.

(** The HMAC of what precedes the attribute, with the header length set to end
    after it, against the value of the attribute. *)
Definition check_hmac (hmac : list Z -> list Z -> list Z) (hmac_size : Z) (key m : list Z) (pos : Z)
  : option (list Z * bool) :=
  let tmp_length := pos - sizeof_stun_header + STUN_ATTR_SIZE + hmac_size in
  '(prev_length, m) ← stun_update_header_length m tmp_length;
  before ← load m 0 pos;
  '(_, m) ← stun_update_header_length m prev_length;
  expected_hmac ← load m (pos + 4) hmac_size;
  c ← const_time_memcmp (hmac before key) expected_hmac (Z.to_nat hmac_size);
  Some (m, c =? 0).

(** The loop, with the value of [success]. *)
Fixpoint integrity_loop (fuel : nat) (key m : list Z) (size pos end_ : Z) (success : bool)
  : option (list Z * bool) :=
  match fuel with
  | O => None
  | S fuel' =>
      if negb (pos <? end_) then Some (m, success)
      else
        attr_length ← load16 m (pos + 2);
        if size <? STUN_ATTR_SIZE + attr_length then Some (m, false)
        else
          type ← load16 m pos;
          let next := pos + STUN_ATTR_SIZE + align32 attr_length in
          if type =? STUN_ATTR_MESSAGE_INTEGRITY then
            if negb (attr_length =? HMAC_SHA1_SIZE) then Some (m, false)
            else
              match check_hmac hmac_sha1 HMAC_SHA1_SIZE key m pos with
              | None => None
              | Some (m, true) => integrity_loop fuel' key m size next end_ true
              | Some (m, false) => Some (m, false)
              end
          else if type =? STUN_ATTR_MESSAGE_INTEGRITY_SHA256 then
            if negb (attr_length =? HMAC_SHA256_SIZE) then Some (m, false)
            else
              match check_hmac hmac_sha256 HMAC_SHA256_SIZE key m pos with
              | None => None
              | Some (m, true) => integrity_loop fuel' key m size next end_ true
              | Some (m, false) => Some (m, false)
              end
          else integrity_loop fuel' key m size next end_ success
  end.

(** The buffer and the result. *)
Definition stun_check_integrity (m : list Z) (size : Z) (msg : stun_message_t)
    (password : option (list Z)) : option (list Z * bool) :=
  if negb (has_integrity msg) then Some (m, false)
  else
    length ← load16 m 2;
    if size <? sizeof_stun_header + length then Some (m, false)
    else
      let key := generate_hmac_key msg password in
      integrity_loop (S (Z.to_nat length)) key m size sizeof_stun_header
        (sizeof_stun_header + length) false.

(** ** Credentials *)

(** The nonce with the cookie and the security bits before it. *)
Definition stun_prepend_nonce_cookie (nonce : list Z) : list Z :=
  let bits := STUN_SECURITY_PASSWORD_ALGORITHMS_BIT .| STUN_SECURITY_USERNAME_ANONYMITY_BIT in
  let encoded_security_bits :=
    cstr (written (juice_base64_encode (drop 1 (be 4 bits)) 5)) in
  let copied := take (Z.to_nat (STUN_MAX_NONCE_LEN - (STUN_NONCE_COOKIE_LEN + 5))) nonce in
  default [] (snd (snprintf STUN_MAX_NONCE_LEN
                     (STUN_NONCE_COOKIE ++ encoded_security_bits ++ copied))).

Definition stun_compute_userhash (username realm : list Z) : list Z :=
  let '(input_len, input) := snprintf MAX_USERHASH_INPUT_LEN (username ++ [58] ++ realm) in
  let input_len := if MAX_USERHASH_INPUT_LEN <=? input_len then MAX_USERHASH_INPUT_LEN - 1
                   else input_len in
  juice_hash_sha256 (take (Z.to_nat input_len) (default [] input)).

(** [dst] keeps its user name. *)
Definition stun_process_credentials (credentials dst : stun_credentials_t) : stun_credentials_t :=
  let username := username dst in
  let dst := set_username credentials username in
  if enable_userhash credentials
  then set_userhash dst (stun_compute_userhash username (realm credentials))
  else dst.

End Integrity.

(** ** Specifications *)

Definition has_address (r : addr_record_t) : Prop := forall f, addr r <> SaOther f.

(** What any message read satisfies. *)
Record received_wf (msg : stun_message_t) : Prop := {
  rwf_message : message_wf msg;
  rwf_strings : no_nul (username (credentials msg)) /\ no_nul (realm (credentials msg)) /\
                no_nul (nonce (credentials msg));
  rwf_userhash : zlen (userhash (credentials msg)) = USERHASH_SIZE;
  rwf_peers : peers_size msg <= STUN_MAX_PEER_ADDRESSES /\ Forall has_address (peers msg);
  rwf_alternate : record_wf (alternate_server msg)
}.

(** A case of the [switch] that is free of undefined behaviour and keeps what is
    promised, the class, the transaction and the fingerprint flag. *)
Definition value_ok (msg : stun_message_t) (r : vres) : Prop :=
  exists o, r = Some o /\
    match o with
    | None => True
    | Some (msg', _) =>
        received_wf msg' /\ msg_class msg' = msg_class msg /\
        transaction_id msg' = transaction_id msg /\ has_fingerprint msg' = has_fingerprint msg /\
        (has_integrity msg = true -> has_integrity msg' = true)
    end.

(** The attributes of a datagram between two offsets are delimited: each has a
    header and a value before the end, and the HMACs have their sizes. *)
Inductive delimited (m : list Z) (end_ : Z) : Z -> Prop :=
| delimited_end pos : end_ <= pos -> delimited m end_ pos
| delimited_attr pos type n :
    pos < end_ -> load16 m pos = Some type -> load16 m (pos + 2) = Some n ->
    pos + STUN_ATTR_SIZE + n <= end_ ->
    (type = STUN_ATTR_MESSAGE_INTEGRITY -> n = HMAC_SHA1_SIZE) ->
    (type = STUN_ATTR_MESSAGE_INTEGRITY_SHA256 -> n = HMAC_SHA256_SIZE) ->
    delimited m end_ (pos + STUN_ATTR_SIZE + align32 n) -> delimited m end_ pos.

(** The attributes met when walking a datagram from an offset. *)
Inductive attr_at (m : list Z) (end_ : Z) : Z -> Z -> Z -> Prop :=
| attr_here pos type :
    pos < end_ -> load16 m pos = Some type -> attr_at m end_ pos pos type
| attr_next pos n p type :
    pos < end_ -> load16 m (pos + 2) = Some n ->
    attr_at m end_ (pos + STUN_ATTR_SIZE + align32 n) p type -> attr_at m end_ pos p type.

(** What an HMAC attribute with an [n]-byte value at [pos] signs: everything
    before it, with the length of the message that ends with it. *)
Definition signed_prefix (m : list Z) (pos n : Z) : list Z :=
  take 2 m ++ be 2 (u16 (pos - sizeof_stun_header + STUN_ATTR_SIZE + n)) ++
  take (Z.to_nat (pos - 4)) (drop 4 m).

Definition is_hmac_attr (type : Z) : Prop :=
  type = STUN_ATTR_MESSAGE_INTEGRITY \/ type = STUN_ATTR_MESSAGE_INTEGRITY_SHA256.

Definition hmac_valid `{Crypto} (key m : list Z) (pos type : Z) : Prop :=
  (type = STUN_ATTR_MESSAGE_INTEGRITY ->
   load m (pos + 4) HMAC_SHA1_SIZE = Some (hmac_sha1 (signed_prefix m pos HMAC_SHA1_SIZE) key)) /\
  (type = STUN_ATTR_MESSAGE_INTEGRITY_SHA256 ->
   load m (pos + 4) HMAC_SHA256_SIZE
   = Some (hmac_sha256 (signed_prefix m pos HMAC_SHA256_SIZE) key)).

(** A datagram is authentic under a key: it has an HMAC attribute, and all of
    them are valid. *)
Definition authentic `{Crypto} (key m : list Z) (end_ : Z) : Prop :=
  (exists p t, attr_at m end_ sizeof_stun_header p t /\ is_hmac_attr t) /\
  (forall p t, attr_at m end_ sizeof_stun_header p t -> hmac_valid key m p t).

(** What one call of [stun_read_attr] guarantees of its result and state. *)
Definition attr_post (off size : Z) (st : reader) (ret : Z) (st' : reader) : Prop :=
  mem st' = mem st /\ received_wf (rmsg st') /\ msg_class (rmsg st') = msg_class (rmsg st) /\
  transaction_id (rmsg st') = transaction_id (rmsg st) /\
  (ret <= 0 \/ exists type n, load16 (mem st) off = Some type /\
     load16 (mem st) (off + 2) = Some n /\ 0 <= n < 65536 /\
     ret = STUN_ATTR_SIZE + align32 n /\ STUN_ATTR_SIZE + n <= size /\
     (type = STUN_ATTR_MESSAGE_INTEGRITY -> n = HMAC_SHA1_SIZE) /\
     (type = STUN_ATTR_MESSAGE_INTEGRITY_SHA256 -> n = HMAC_SHA256_SIZE)).

(** ** Loads within bounds *)

Lemma load_ok (m : list Z) (off n : Z) :
  bytes m -> 0 <= off -> 0 <= n -> off + n <= zlen m ->
  exists bs, load m off n = Some bs /\ zlen bs = n /\ bytes bs.
Proof.
  intros Hm Ho Hn Hl. rewrite load_Some by done. eexists; split; [done|].
  rewrite zlen_take, zlen_drop. split; [lia|]. by apply Forall_take, Forall_drop.
Qed.

Section LoadWords.
Context (m : list Z) (off : Z) (Hm : bytes m) (Ho : 0 <= off).

Lemma load_word_ok (n : Z) : 0 <= n -> off + n <= zlen m ->
  exists w, unbe <$> load m off n = Some w /\ 0 <= w < 256 ^ n.
Proof using Hm Ho.
  intros Hn Hl. destruct (load_ok m off n) as (bs & -> & Hz & Hb); try done.
  exists (unbe bs). split; [done|]. rewrite <- Hz. by apply unbe_bound.
Qed.

Lemma load8_ok : off + 1 <= zlen m -> exists b, load8 m off = Some b /\ 0 <= b < 256.
Proof using Hm Ho. intros Hl. by apply (load_word_ok 1). Qed.
Lemma load16_ok : off + 2 <= zlen m -> exists b, load16 m off = Some b /\ 0 <= b < 65536.
Proof using Hm Ho. intros Hl. by apply (load_word_ok 2). Qed.
Lemma load32_ok : off + 4 <= zlen m -> exists b, load32 m off = Some b /\ 0 <= b < 2 ^ 32.
Proof using Hm Ho. intros Hl. by apply (load_word_ok 4). Qed.
End LoadWords.

(** Executes the next load of the goal, whose bounds must follow by arithmetic. *)
Ltac load_step :=
  match goal with
  | |- context [load8 ?m ?o ≫= _] =>
      let b := fresh "b" in let E := fresh "E" in let Hb := fresh "Hb" in
      destruct (load8_ok m o) as (b & E & Hb); [done|zlia|zlia|]; rewrite E
  | |- context [load16 ?m ?o ≫= _] =>
      let b := fresh "w" in let E := fresh "E" in let Hb := fresh "Hw" in
      destruct (load16_ok m o) as (b & E & Hb); [done|zlia|zlia|]; rewrite E
  | |- context [load32 ?m ?o ≫= _] =>
      let b := fresh "x" in let E := fresh "E" in let Hb := fresh "Hx" in
      destruct (load32_ok m o) as (b & E & Hb); [done|zlia|zlia|]; rewrite E
  | |- context [load ?m ?o ?n ≫= _] =>
      let b := fresh "bs" in let E := fresh "E" in let Hz := fresh "Hz" in
      let Hb := fresh "Hbs" in
      destruct (load_ok m o n) as (b & E & Hz & Hb); [done|zlia|zlia|zlia|]; rewrite E
  end; cbn [mbind option_bind].

(** ** Safety of the cases *)

Section Values.

Context (msg : stun_message_t) (Hmsg : received_wf msg) (v : list Z) (Hv : small_bytes 65536 v)
  (bits : Z).

Let Hvb : bytes v := proj1 Hv.

Lemma value_ok_fail : value_ok msg fail.
Proof. by exists None. Qed.

Lemma value_ok_break msg' :
  received_wf msg' -> msg_class msg' = msg_class msg ->
  transaction_id msg' = transaction_id msg -> has_fingerprint msg' = has_fingerprint msg ->
  (has_integrity msg = true -> has_integrity msg' = true) -> value_ok msg (break msg' bits).
Proof. intros. by exists (Some (msg', bits)). Qed.

(** The same, with the fields of the message exposed. *)
Ltac keep_wf :=
  let Hm := fresh in
  destruct Hmsg as [Hm ? ? ? ?]; constructor; try done;
  destruct Hm; constructor; cbn in *; try done.

Lemma mapped_address_ok record mask :
  record_wf record -> bytes mask -> length mask = 16%nat ->
  exists ret r, stun_read_value_mapped_address v record mask = Some (ret, r) /\ record_wf r.
Proof using Hv.
  intros Hr Hm Hl. unfold stun_read_value_mapped_address.
  pose proof (zlen_nonneg v). case_if; [by eauto|].
  assert (H16 : 0 <= unle16 (nth 0 mask 0) (nth 1 mask 0) < 65536).
  { destruct mask as [|x [|y mask] ]; try (cbn in Hl; lia).
    apply Forall_cons_1 in Hm as [Hx Hm]. apply Forall_cons_1 in Hm as [Hy _].
    unfold unle16, is_byte in *. cbn [nth]. lia. }
  load_step. case_if.
  - case_if; [by eauto|]. load_step. load_step. load_step.
    eexists _, _. split; [done|]. unfold record_wf. cbn [addr sockaddr_wf]. split_and!.
    + apply (lxor_bound 16); try lia. unfold unle16. lia.
    + apply (lxor_bound 16); try lia. unfold unle16. lia.
    + apply xor_bytes_bytes; [done|by apply Forall_take].
    + unfold xor_bytes. rewrite length_zip_with, length_take. unfold zlen in *. lia.
  - case_if; [|by eauto]. case_if; [by eauto|]. load_step. load_step. load_step.
    eexists _, _. split; [done|]. unfold record_wf. cbn [addr sockaddr_wf]. split_and!.
    + apply (lxor_bound 16); try lia. unfold unle16. lia.
    + apply (lxor_bound 16); try lia. unfold unle16. lia.
    + apply xor_bytes_bytes; [done|by apply Forall_take].
    + unfold xor_bytes. rewrite length_zip_with, length_take. unfold zlen in *. lia.
Qed.

Lemma read_address_ok mask old set :
  record_wf old -> bytes mask -> length mask = 16%nat ->
  (forall r, record_wf r -> value_ok msg (break (set r) bits)) ->
  value_ok msg (read_address v mask old set bits).
Proof using Hv.
  intros Ho Hm Hl Hset. unfold read_address.
  destruct (mapped_address_ok old mask) as (ret & r & -> & Hr); try done.
  cbn [mbind option_bind]. case_if; [apply value_ok_fail|by apply Hset].
Qed.

Lemma cstr_small n l : small_bytes n l -> small_bytes n (cstr l).
Proof.
  intros [Hb Hl]. split; [auto with juice|]. pose proof (cstr_length l). unfold zlen in *. lia.
Qed.

Ltac break_ok := apply value_ok_break; [keep_wf|done|done|done|done].

Lemma read_error_code_ok : value_ok msg (read_error_code v msg bits).
Proof using Hmsg Hv.
  unfold read_error_code. pose proof (zlen_nonneg v). case_if; [apply value_ok_fail|].
  load_step. load_step. case_if; [break_ok|]. unfold STUN_MAX_ERROR_REASON_LEN.
  case_if; load_step; break_ok.
Qed.

Lemma read_username_ok : value_ok msg (read_username v msg bits).
Proof using Hmsg Hv.
  unfold read_username, read_string. case_if; [apply value_ok_fail|].
  assert (Hs : small_bytes STUN_MAX_USERNAME_LEN (cstr v)) by (apply cstr_small; split; [done|lia]).
  apply value_ok_break; try done.
  destruct Hmsg as [Hm (Hu & Hr & Hn) ? ? ?]. constructor; try done.
  - destruct Hm. constructor; done.
  - split_and!; [apply cstr_no_nul|done|done].
Qed.

Lemma read_realm_ok : value_ok msg (read_realm v msg bits).
Proof using Hmsg Hv.
  unfold read_realm, read_string. case_if; [apply value_ok_fail|].
  assert (Hs : small_bytes STUN_MAX_REALM_LEN (cstr v)) by (apply cstr_small; split; [done|lia]).
  apply value_ok_break; try done.
  destruct Hmsg as [Hm (Hu & Hr & Hn) ? ? ?]. constructor; try done.
  - destruct Hm. constructor; done.
  - split_and!; [done|apply cstr_no_nul|done].
Qed.

Lemma nonce_security_bits_ok (n : list Z) :
  STUN_NONCE_COOKIE_LEN + 4 < zlen n -> exists b, nonce_security_bits n bits = Some b.
Proof.
  unfold STUN_NONCE_COOKIE_LEN. intros Hn. unfold nonce_security_bits, juice_base64_decode.
  set (e := take 4 _).
  assert (He : zlen e = 4) by (unfold e; rewrite zlen_take, zlen_drop; unfold STUN_NONCE_COOKIE_LEN; lia).
  destruct (decode_loop_bound (length e) e 3 []) as (r & -> & _ & Hb); [done|].
  cbn [mbind option_bind]. specialize (Hb ltac:(lia)). change (zlen []) with 0 in Hb.
  rewrite (proj2 (Z.ltb_ge _ _)) by lia. case_if; eauto.
Qed.

Lemma read_nonce_ok : value_ok msg (read_nonce v msg bits).
Proof using Hmsg Hv.
  unfold read_nonce. case_if; [apply value_ok_fail|].
  assert (Hs : small_bytes STUN_MAX_NONCE_LEN (cstr v)) by (apply cstr_small; split; [done|lia]).
  set (msg' := with_credentials msg _).
  assert (Hk : forall b, value_ok msg (break msg' b)).
  { intros b. exists (Some (msg', b)). split; [done|]. split_and!; try done.
    destruct Hmsg as [Hm (Hu & Hr & Hn) ? ? ?]. constructor; try done.
    - destruct Hm. constructor; done.
    - split_and!; [done|done|apply cstr_no_nul]. }
  case_if; [|apply Hk].
  destruct (nonce_security_bits_ok (cstr v)) as [b ->]; [done|]. apply Hk.
Qed.

Lemma read_password_algorithm_ok : value_ok msg (read_password_algorithm v msg bits).
Proof using Hmsg Hv.
  unfold read_password_algorithm. case_if; [apply value_ok_fail|]. case_if; [|break_ok].
  load_step. destruct (known_algorithm w); [|break_ok].
  apply value_ok_break; try done. keep_wf.
Qed.

Lemma algorithms_loop_ok (fuel : nat) : forall pos,
  0 <= pos -> (0 < fuel)%nat -> zlen v - pos < Z.of_nat fuel ->
  exists r, algorithms_loop fuel v pos = Some r.
Proof using Hv.
  induction fuel as [|fuel IH]; intros pos Hp H0 Hf; [lia|]. cbn [algorithms_loop].
  case_if; [by eauto|]. case_if; [by eauto|]. load_step. load_step.
  case_if; [by eauto|]. destruct (known_algorithm w); [by eauto|].
  apply IH; rewrite ?align32_spec by lia; zlia.
Qed.

Lemma read_password_algorithms_ok : value_ok msg (read_password_algorithms v msg bits).
Proof using Hmsg Hv.
  unfold read_password_algorithms, STUN_MAX_PASSWORD_ALGORITHMS_VALUE_SIZE.
  pose proof (zlen_nonneg v). case_if; [apply value_ok_fail|]. case_if; [apply value_ok_fail|].
  set (msg' := with_credentials msg _).
  assert (Hs : small_bytes 257 v) by (split; [done|lia]).
  assert (Hw : received_wf msg') by (subst msg'; keep_wf).
  case_if; [|by apply value_ok_break].
  destruct (algorithms_loop_ok (S (Z.to_nat (zlen v))) 0) as [r ->]; [lia..|].
  cbn [mbind option_bind]. destruct r as [a|]; [|apply value_ok_fail].
  destruct a as [a|]; [|by apply value_ok_break]. apply value_ok_break; try done.
  destruct Hw as [Hm ? ? ? ?]. constructor; try done. destruct Hm. by constructor.
Qed.

Lemma read_userhash_ok : value_ok msg (read_userhash v msg bits).
Proof using Hmsg Hv.
  unfold read_userhash, USERHASH_SIZE, HASH_SHA256_SIZE. case_if; [apply value_ok_fail|].
  apply value_ok_break; try done. assert (Hs : small_bytes 33 v) by (split; [done|lia]). keep_wf.
Qed.

Lemma read_u32_ok set :
  (forall x, 0 <= x < 2 ^ 32 -> value_ok msg (break (set x) bits)) ->
  value_ok msg (read_u32 v set bits).
Proof using Hv.
  intros Hset. unfold read_u32. case_if; [apply value_ok_fail|]. load_step. by apply Hset.
Qed.

Lemma read_u64_ok set :
  (forall x, value_ok msg (break (set x) bits)) -> value_ok msg (read_u64 v set bits).
Proof using Hv.
  intros Hset. unfold read_u64. case_if; [apply value_ok_fail|]. load_step. load_step. by apply Hset.
Qed.

Lemma generate_mask_received :
  bytes (generate_mask (transaction_id msg)) /\
  length (generate_mask (transaction_id msg)) = 16%nat.
Proof using Hmsg.
  destruct Hmsg as [Hm _ _ _ _]. destruct (wf_tid _ Hm). by apply generate_mask_wf.
Qed.

Lemma mapped_address_valid (record r : addr_record_t) (mask : list Z) ret :
  stun_read_value_mapped_address v record mask = Some (ret, r) -> len r <> len record -> has_address r.
Proof using Type.
  unfold stun_read_value_mapped_address. intros H Hl.
  repeat (case_if_in H || (apply bind_Some in H as (? & _ & H))); injection H as <- <-; done.
Qed.

Lemma read_peer_ok : value_ok msg (read_peer v msg bits).
Proof using Hmsg Hv.
  unfold read_peer. case_if; [|break_ok]. destruct generate_mask_received as [Hgb Hgl].
  destruct (mapped_address_ok addr_record_zero (generate_mask (transaction_id msg)))
    as (ret & r & Hread & Hr); try done. rewrite Hread.
  cbn [mbind option_bind]. case_if; [apply value_ok_fail|]. case_if; [break_ok|].
  apply value_ok_break; try done.
  destruct Hmsg as [Hm ? ? rwf_peers0 ?]. constructor; try done.
  - destruct Hm. constructor; try done. cbn. apply Forall_app; split; [done|by constructor].
  - unfold peers_size, STUN_MAX_PEER_ADDRESSES in *. cbn. rewrite zlen_app.
    change (zlen [r]) with 1. destruct rwf_peers0 as [_ Hva]. split; [lia|].
    apply Forall_app. split; [done|]. constructor; [|constructor].
    eapply mapped_address_valid; [exact Hread|done].
Qed.

Lemma read_value_ok type : value_ok msg (read_value type v msg bits).
Proof using Hmsg Hv.
  destruct generate_mask_received as [Hgb Hgl].
  assert (Hzb : bytes zero_mask) by (apply Forall_replicate; unfold is_byte; lia).
  assert (Hset : record_wf (mapped msg) /\ record_wf (relayed msg)).
  { destruct Hmsg as [[] ? ? ? ?]. done. }
  unfold read_value. cbv zeta.
  repeat match goal with |- value_ok _ (if ?b then _ else _) => destruct b end;
    try break_ok;
    auto using read_error_code_ok, read_username_ok, read_realm_ok, read_nonce_ok,
      read_password_algorithm_ok, read_password_algorithms_ok, read_userhash_ok, read_peer_ok.
  - apply read_address_ok; try done; try apply Hset. intros r Hr. break_ok.
  - apply read_address_ok; try done; try apply Hset. intros r Hr. break_ok.
  - apply read_address_ok; try done; try apply Hmsg. intros r Hr. break_ok.
  - unfold read_unknown_attributes. pose proof (zlen_nonneg v). load_step. break_ok.
  - unfold read_integrity. case_if; [apply value_ok_fail|break_ok].
  - unfold read_integrity. case_if; [apply value_ok_fail|break_ok].
  - unfold read_software. case_if; [apply value_ok_fail|break_ok].
  - apply read_u32_ok. intros x Hx. break_ok.
  - apply read_u64_ok. intros x. break_ok.
  - apply read_u64_ok. intros x. break_ok.
  - unfold read_channel_number. case_if; [apply value_ok_fail|]. load_step. break_ok.
  - apply read_u32_ok. intros x Hx. break_ok.
  - apply read_address_ok; try done; try apply Hset. intros r Hr. break_ok.
  - unfold read_even_port. case_if; [apply value_ok_fail|]. load_step. break_ok.
  - unfold read_requested_transport. case_if; [apply value_ok_fail|]. load_step.
    case_if; [apply value_ok_fail|break_ok].
  - apply read_u64_ok. intros x. break_ok.
Qed.

End Values.

(** ** Safety of the reader *)

(** Setting the header length and putting it back. *)
Lemma update_restore (m : list Z) (n : Z) :
  bytes m -> 4 <= zlen m ->
  exists prev m1, stun_update_header_length m n = Some (prev, m1) /\
    stun_update_header_length m1 prev = Some (u16 n, m) /\ bytes m1 /\ zlen m1 = zlen m /\
    exists a l rest, m = a ++ l ++ rest /\ m1 = a ++ be 2 (u16 n) ++ rest /\
      length a = 2%nat /\ length l = 2%nat.
Proof.
  intros Hb Hl. set (a := take 2 m). set (l := take 2 (drop 2 m)). set (rest := drop 4 m).
  assert (Hm : m = a ++ l ++ rest).
  { unfold a, l, rest. rewrite <- (take_drop 2 m) at 1. f_equal.
    rewrite <- (take_drop 2 (drop 2 m)) at 1. by rewrite drop_drop. }
  assert (Ha : length a = 2%nat) by (unfold a; rewrite length_take; zlia).
  assert (Hll : length l = 2%nat) by (unfold l; rewrite length_take, length_drop; zlia).
  assert (Hal : bytes a /\ bytes l /\ bytes rest).
  { rewrite Hm in Hb. by rewrite !Forall_app in Hb. }
  destruct Hal as (Hba & Hbl & Hbr).
  assert (Hu : forall x k, length x = 2%nat -> stun_update_header_length (a ++ x ++ rest) k
    = Some (unbe x, a ++ be 2 (u16 k) ++ rest)).
  { intros x k Hx. unfold stun_update_header_length, load16.
    rewrite (load_split_eq _ a x rest 2 2) by (done || unfold zlen; lia).
    cbn [fmap option_fmap option_map mbind option_bind].
    rewrite (store_split_eq _ a x (be 2 (u16 k)) rest 2); [done|done|unfold zlen; lia|].
    by rewrite length_be. }
  exists (unbe l), (a ++ be 2 (u16 n) ++ rest). rewrite Hm at 1. rewrite !Hu by (done || apply length_be).
  split_and!.
  - done.
  - rewrite unbe_be_small by solve_width.
    pose proof (unbe_bound l Hbl) as Hub. unfold zlen in Hub. rewrite Hll in Hub.
    replace (u16 (unbe l)) with (unbe l) by solve_width.
    rewrite <- Hll, be_unbe by done. by rewrite <- Hm.
  - rewrite !Forall_app. auto using be_bytes.
  - rewrite Hm, !zlen_app, zlen_be. unfold zlen. lia.
  - by exists a, l, rest.
Qed.

(** Behind the header length nothing changed. *)
Lemma load_behind (a l l' rest : list Z) (off n : Z) :
  length l = length l' -> zlen (a ++ l) <= off ->
  load (a ++ l ++ rest) off n = load (a ++ l' ++ rest) off n.
Proof.
  intros Hl Ho. unfold load, in_bounds.
  assert (E : zlen (a ++ l ++ rest) = zlen (a ++ l' ++ rest))
    by (rewrite !zlen_app; unfold zlen; lia).
  rewrite E. case_if; [|done]. do 2 f_equal. rewrite !app_assoc.
  rewrite !drop_app_ge; [|rewrite zlen_app in Ho; unfold zlen in Ho; rewrite length_app; lia..].
  do 2 f_equal. rewrite !length_app. lia.
Qed.

Lemma check_fingerprint_ok (m : list Z) (off : Z) :
  bytes m -> sizeof_stun_header <= off -> off + 8 <= zlen m ->
  exists valid, check_fingerprint m off = Some (m, valid).
Proof.
  unfold sizeof_stun_header. intros Hb Ho Hl. unfold check_fingerprint.
  destruct (update_restore m (off - sizeof_stun_header + STUN_ATTR_SIZE + 4))
    as (prev & m1 & -> & Hr & Hb1 & Hz & _); [done|lia|]. cbn [mbind option_bind].
  load_step. rewrite juice_crc32_fold by done. cbn [mbind option_bind]. rewrite Hr.
  cbn [mbind option_bind]. load_step. by eauto.
Qed.

Lemma read_value_integrity_size type v msg bits r :
  read_value type v msg bits = Some (Some r) ->
  (type = STUN_ATTR_MESSAGE_INTEGRITY -> zlen v = HMAC_SHA1_SIZE) /\
  (type = STUN_ATTR_MESSAGE_INTEGRITY_SHA256 -> zlen v = HMAC_SHA256_SIZE).
Proof.
  intros Hr. split; intros ->; cbn in Hr; unfold read_integrity in Hr;
    case_if_in Hr; done || discriminate Hr.
Qed.

Lemma stun_read_attr_ok (off size : Z) (st : reader) :
  received_wf (rmsg st) -> bytes (mem st) -> sizeof_stun_header <= off -> 0 <= size ->
  off + size <= zlen (mem st) ->
  exists ret st', stun_read_attr off size st = Some (ret, st') /\ attr_post off size st ret st'.
Proof.
  unfold sizeof_stun_header. intros Hw Hb Ho Hs Hl.
  assert (Herr : attr_post off size st (-1) st) by (split_and!; done || (left; lia)).
  unfold stun_read_attr, STUN_ATTR_SIZE. cbv zeta.
  destruct (has_fingerprint (rmsg st)) eqn:Hfp; [by eauto|]. case_if; [by eauto|].
  load_step. load_step. case_if; [by eauto|]. destruct (_ && _) eqn:Ei.
  { bool_to_prop. unfold after_integrity in *. bool_to_prop. eexists _, _. split; [done|].
    split_and!; try done. right. exists w0, w. split_and!; done || lia. }
  load_step. case_if.
  - case_if; [by eauto|]. destruct (check_fingerprint_ok (mem st) off)
      as [valid ->]; [done|unfold sizeof_stun_header; lia|lia|].
    cbn [mbind option_bind].
    destruct valid; cbn [negb]; eexists _, _; (split; [done|]).
    + split_and!; try done; cbn [rmsg].
      { destruct Hw as [Hm ? ? ? ?]. constructor; try done. destruct Hm. by constructor. }
      right. exists w0, w. split_and!; try (done || lia); intros ->; subst; done.
    + split_and!; try done. by left.
  - destruct (read_value_ok (rmsg st) Hw bs ltac:(split; [done|lia]) (security_bits st) w0)
      as (o & Hr & Ho').
    rewrite Hr. cbn [mbind option_bind]. destruct o as [[msg' bits']|]; [|by eauto].
    destruct Ho' as (? & ? & ? & ? & ?). eexists _, _. split; [done|].
    split_and!; try done. right. apply read_value_integrity_size in Hr as [Hi1 Hi2].
    rewrite Hz in *. exists w0, w. split_and!; done || lia.
Qed.

Lemma read_loop_ok (fuel : nat) : forall (pos end_ : Z) (st : reader),
  received_wf (rmsg st) -> bytes (mem st) -> sizeof_stun_header <= pos -> end_ <= zlen (mem st) ->
  (0 < fuel)%nat -> end_ - pos < Z.of_nat fuel ->
  exists r, read_loop fuel pos end_ st = Some r /\
    let st' := match r with inl st' => st' | inr st' => st' end in
    mem st' = mem st /\ received_wf (rmsg st') /\
    msg_class (rmsg st') = msg_class (rmsg st) /\
    transaction_id (rmsg st') = transaction_id (rmsg st) /\
    match r with inl _ => True | inr _ => delimited (mem st) end_ pos end.
Proof.
  induction fuel as [|fuel IH]; intros pos end_ st Hw Hb Hp He H0 Hf; [lia|].
  cbn [read_loop]. case_if.
  { eexists; split; [done|]. split_and!; try done. by apply delimited_end. }
  destruct (stun_read_attr_ok pos (end_ - pos) st) as (ret & st' & -> & Hm & Hw' & Hc & Ht & Hr);
    try done; try lia.
  cbn [mbind option_bind]. case_if.
  { eexists; split; [done|]. by split_and!. }
  destruct Hr as [?|(type & n & Ht' & Hn & Hb' & Hret & Hle & Hi1 & Hi2)]; [lia|].
  rewrite align32_spec in Hret by lia. unfold STUN_ATTR_SIZE in *.
  destruct (IH (pos + ret) end_ st') as (r & -> & Hm' & Hw'' & Hc' & Htid & Hd);
    rewrite ?Hm; try done; try zlia.
  exists r. split; [done|]. cbv zeta. rewrite Hm', Hc', Htid. split_and!; try done.
  destruct r; [done|]. rewrite Hm in Hd. eapply delimited_attr; try done; unfold STUN_ATTR_SIZE; [lia|].
  rewrite align32_spec by lia. replace (pos + 4 + (n + - n mod 4)) with (pos + ret) by lia. done.
Qed.

Lemma initial_message_wf type tid :
  0 <= type < 65536 -> bytes tid -> zlen tid = 12 -> received_wf (initial_message type tid).
Proof.
  intros Ht Hb Hl. unfold initial_message. constructor; cbn.
  - constructor; cbn; try done; try (by split; [constructor|]).
    + split.
      * apply (below_pow2 16); [lia|apply Z.ldiff_nonneg; lia|]. intros i Hi.
        rewrite Z.ldiff_spec, (bits_above 16) by lia. done.
      * rewrite Z.land_comm. apply Z.bits_inj'. intros i Hi.
        rewrite Z.land_spec, Z.ldiff_spec, Z.bits_0.
        destruct (Z.testbit STUN_CLASS_MASK i); cbn; [by rewrite andb_false_r|done].
    + split; [|done]. apply (Forall_replicate is_byte 32 0). unfold is_byte. lia.
  - split_and!; constructor.
  - done.
  - done.
  - done.
Qed.

Lemma validate_request_wf msg : received_wf msg -> received_wf (validate_request msg).
Proof.
  intros [Hm Hs Hu Hp Ha]. unfold validate_request. cbv zeta.
  repeat case_if; try (constructor; done); (constructor; [|done..]); destruct Hm; by constructor.
Qed.

Lemma finish_wf msg bits :
  received_wf msg ->
  received_wf (set_userhash_support (validate_request (validate_response msg bits)) bits).
Proof.
  intros Hw.
  assert (H1 : received_wf (validate_response msg bits)).
  { unfold validate_response. case_if; [|done].
    destruct Hw as [Hm ? ? ? ?]. (constructor; [|done..]). destruct Hm; by constructor. }
  apply validate_request_wf in H1. unfold set_userhash_support. case_if; [|done].
  destruct H1 as [Hm ? ? ? ?]. (constructor; [|done..]). destruct Hm; by constructor.
Qed.

Lemma is_stun_datagram_total buf : bytes buf -> exists b, is_stun_datagram buf (zlen buf) = Some b.
Proof.
  intros Hb. pose proof (zlen_nonneg buf). unfold is_stun_datagram, sizeof_stun_header.
  case_if; [by eexists|]. destruct (load8_ok buf 0) as (b & -> & _); [done|lia..|]. cbn [mbind option_bind].
  case_if; [by eexists|]. case_if; [by eexists|].
  destruct (load32_ok buf 4) as (m & -> & _); [done|lia..|]. cbn [mbind option_bind]. case_if; [by eexists|].
  destruct (load16_ok buf 2) as (n & -> & _); [done|lia..|]. cbn [mbind option_bind].
  case_if; [by eexists|]. case_if; by eexists.
Qed.

Lemma stun_read_ok (m : list Z) (size : Z) :
  bytes m -> 0 <= size <= zlen m ->
  exists ret msg, stun_read m size = Some (ret, m, msg) /\ (0 <= ret -> received_wf msg) /\
    (ret = -1 \/
     exists n, load16 m 2 = Some n /\ ret = sizeof_stun_header + n /\ ret <= size /\
       delimited m ret sizeof_stun_header).
Proof.
  intros Hb Hs. unfold stun_read, sizeof_stun_header, STUN_TRANSACTION_ID_SIZE.
  case_if; [eexists _, _; split; [done|]; split; [lia|by left]|].
  load_step. case_if; [eexists _, _; split; [done|]; split; [lia|by left]|].
  load_step. load_step.
  match goal with |- context [read_loop ?f ?p ?e ?st] =>
    destruct (read_loop_ok f p e st) as (r & -> & Hm & Hw' & _ & _ & Hd) end;
    cbn [mem rmsg]; try done; try lia.
  { by apply initial_message_wf. }
  cbn [mbind option_bind]. cbn [mem] in Hm.
  destruct r as [st|st]; rewrite Hm; eexists _, _; (split; [done|]).
  - split; [lia|by left].
  - split; [intros _; by apply finish_wf|]. right. exists w. split_and!; try done; lia.
Qed.

(** ** The integrity check *)

Section CheckIntegrity.

Context `{CryptoLaws} (key m : list Z) (Hb : bytes m).

Lemma check_hmac_spec (hmac : list Z -> list Z -> list Z) (n pos : Z) :
  (forall x k, zlen (hmac x k) = n /\ bytes (hmac x k)) ->
  sizeof_stun_header <= pos -> 0 <= n -> pos + 4 + n <= zlen m ->
  exists b, check_hmac hmac n key m pos = Some (m, b) /\
    (b = true <-> load m (pos + 4) n = Some (hmac (signed_prefix m pos n) key)).
Proof using Hb.
  unfold sizeof_stun_header. intros Hh Hp Hn Hl. unfold check_hmac.
  destruct (update_restore m (pos - sizeof_stun_header + STUN_ATTR_SIZE + n))
    as (prev & m1 & -> & Hr & Hb1 & Hz & a & l & rest & Hm & Hm1 & Ha & Hll); [done|lia|].
  cbn [mbind option_bind].
  assert (Hpre : load m1 0 pos = Some (signed_prefix m pos n)).
  { rewrite load_Some by lia. rewrite drop_0, Hm1. unfold signed_prefix. rewrite Hm.
    f_equal. rewrite take_app_ge by lia.
    replace 2%nat with (length a) at 2. rewrite take_app_length. f_equal.
    rewrite take_app_ge by (rewrite length_be; lia). f_equal. rewrite length_be, Ha.
    rewrite app_assoc. replace 4%nat with (length (a ++ l)) by (rewrite length_app; lia).
    rewrite drop_app_length. f_equal. lia. }
  rewrite Hpre. cbn [mbind option_bind]. rewrite Hr. cbn [mbind option_bind].
  destruct (load_ok m (pos + 4) n) as (bs & -> & Hzb & Hbb); try done; try lia.
  cbn [mbind option_bind].
  destruct (Hh (signed_prefix m pos n) key) as [Hdl Hdb].
  destruct (const_time_memcmp_loop_spec 0 (hmac (signed_prefix m pos n) key) bs (Z.to_nat n))
    as (r & Hc & Hiff); try done; try (unfold zlen, is_byte in *; lia).
  unfold const_time_memcmp. rewrite Hc. cbn [mbind option_bind].
  eexists; split; [done|]. rewrite Z.eqb_eq, Hiff.
  rewrite !take_ge by (unfold zlen in *; lia). split; [intros [_ ->]; done|].
  intros [= <-]. done.
Qed.

(** The verdict [b] on the attributes from [pos] on, when [success] says whether
    an HMAC attribute was met before. *)
Abbreviation verdict end_ pos success b :=
  (b = true <->
   (success = true \/ exists p t, attr_at m end_ pos p t /\ is_hmac_attr t) /\
   forall p t, attr_at m end_ pos p t -> hmac_valid key m p t).

Lemma verdict_end end_ pos (success : bool) : end_ <= pos -> verdict end_ pos success success.
Proof.
  intros He. assert (Hn : forall p t, ~ attr_at m end_ pos p t) by (intros p t Ha; inv Ha; lia).
  split; [|intros [[?|(p & t & Ha & _)] _]; [done|by apply Hn in Ha] ].
  intros ->. split; [by left|]. intros p t Ha. by apply Hn in Ha.
Qed.

Section Step.

Context (end_ pos type n : Z) (Hlt : pos < end_) (Htype : load16 m pos = Some type)
  (Hn : load16 m (pos + 2) = Some n).

Lemma attr_at_step p t :
  attr_at m end_ pos p t <->
  (p = pos /\ t = type) \/ attr_at m end_ (pos + STUN_ATTR_SIZE + align32 n) p t.
Proof using Hlt Htype Hn.
  split.
  - intros Ha. destruct Ha as [p t _ Ht'|p n' p' t' _ Hn' Ha].
    + left. rewrite Htype in Ht'. by injection Ht' as <-.
    + right. rewrite Hn in Hn'. by injection Hn' as <-.
  - intros [[-> ->]|Ha]; [by apply attr_here|by eapply attr_next].
Qed.

Lemma verdict_other (success b : bool) :
  ~ is_hmac_attr type -> verdict end_ (pos + STUN_ATTR_SIZE + align32 n) success b ->
  verdict end_ pos success b.
Proof using Hlt Htype Hn.
  intros Hno ->. setoid_rewrite attr_at_step. split; intros [He Hall]; split.
  - destruct He as [He|(p & t & Ha & Hh)]; [by left|right; exists p, t; auto].
  - intros p t [[-> ->]|Ha]; [|by apply Hall]. split; intros ->; exfalso; apply Hno; [by left|by right].
  - destruct He as [He|(p & t & [[-> ->]|Ha] & Hh)]; [by left|done|right; exists p, t; auto].
  - auto.
Qed.

Lemma verdict_valid (success b : bool) :
  is_hmac_attr type -> hmac_valid key m pos type ->
  verdict end_ (pos + STUN_ATTR_SIZE + align32 n) true b -> verdict end_ pos success b.
Proof using Hlt Htype Hn.
  intros Hh Hv ->. setoid_rewrite attr_at_step. split; intros [He Hall]; split.
  - right. exists pos, type. auto.
  - intros p t [[-> ->]|Ha]; auto.
  - by left.
  - auto.
Qed.

Lemma verdict_invalid (success : bool) :
  ~ hmac_valid key m pos type -> verdict end_ pos success false.
Proof using Hlt Htype.
  intros Hv. split; [done|]. intros [_ Hall]. exfalso. apply Hv, Hall. by apply attr_here.
Qed.

End Step.

Lemma integrity_loop_spec (size end_ : Z) (fuel : nat) : forall pos success,
  delimited m end_ pos -> sizeof_stun_header <= pos -> end_ <= zlen m -> end_ <= size ->
  (0 < fuel)%nat -> end_ - pos < Z.of_nat fuel ->
  exists b, integrity_loop fuel key m size pos end_ success = Some (m, b) /\
            verdict end_ pos success b.
Proof using Hb H0.
  unfold sizeof_stun_header.
  induction fuel as [|fuel IH]; intros pos success Hd Hp He Hs H1 Hf; [lia|].
  cbn [integrity_loop]. case_if; [eauto using verdict_end|].
  destruct Hd as [|pos type n Hlt Htype Hn Hle Hi1 Hi2 Hd]; [lia|].
  assert (Hnb : 0 <= n).
  { unfold load16 in Hn. destruct (load m (pos + 2) 2) as [bs|] eqn:El; [|done].
    apply (load_bytes _ _ _ _ Hb), unbe_bound in El. injection Hn as <-. lia. }
  rewrite Htype, Hn. cbn [mbind option_bind]. unfold STUN_ATTR_SIZE in Hle.
  rewrite (proj2 (Z.ltb_ge _ _)) by (unfold STUN_ATTR_SIZE; lia).
  assert (Hnext : forall b0, exists b, integrity_loop fuel key m size
    (pos + STUN_ATTR_SIZE + align32 n) end_ b0 = Some (m, b) /\
    verdict end_ (pos + STUN_ATTR_SIZE + align32 n) b0 b).
  { intros b0. unfold STUN_ATTR_SIZE in *. apply IH; try done; rewrite ?align32_spec by lia; zlia. }
  case_if; [|case_if].
  - rewrite Hi1, Z.eqb_refl in * by done. cbn [negb].
    destruct (check_hmac_spec hmac_sha1 HMAC_SHA1_SIZE pos)
      as (b & -> & Hiff); [apply hmac_sha1_digest|done|done|lia|].
    assert (Hval : hmac_valid key m pos type <-> b = true)
      by (rewrite Hiff, E0; split; [intros [Hv _]; by apply Hv|by intros Hv; split]).
    destruct b.
    + destruct (Hnext true) as (b & -> & Hv). exists b. split; [done|].
      eapply verdict_valid; try done; [by left|by apply Hval].
    + exists false. split; [done|]. eapply verdict_invalid; try done. by rewrite Hval.
  - rewrite Hi2, Z.eqb_refl in * by done. cbn [negb].
    destruct (check_hmac_spec hmac_sha256 HMAC_SHA256_SIZE pos)
      as (b & -> & Hiff); [apply hmac_sha256_digest|done|done|lia|].
    assert (Hval : hmac_valid key m pos type <-> b = true)
      by (rewrite Hiff, E1; split; [intros [_ Hv]; by apply Hv|by intros Hv; split]).
    destruct b.
    + destruct (Hnext true) as (b & -> & Hv). exists b. split; [done|].
      eapply verdict_valid; try done; [by right|by apply Hval].
    + exists false. split; [done|]. eapply verdict_invalid; try done. by rewrite Hval.
  - destruct (Hnext success) as (b & -> & Hv). exists b. split; [done|].
    eapply verdict_other; try done. by intros [?|?].
Qed.

End CheckIntegrity.

(** ** Theorems *)

(** C1: Reading any datagram terminates without undefined behaviour: every load
    is inside the datagram and inside the attribute it belongs to, the datagram
    is unchanged at the end (the header length set for the fingerprint check is
    put back), and a message accepted has all its strings, lists and counts
    within the arrays of the message structure. *)
Theorem stun_read_safe (m : list Z) (size : Z) :
  bytes m -> 0 <= size <= zlen m ->
  exists ret msg, stun_read m size = Some (ret, m, msg) /\ (0 <= ret -> received_wf msg) /\
    (ret = -1 \/
     exists n, load16 m 2 = Some n /\ ret = sizeof_stun_header + n /\ ret <= size /\
       delimited m ret sizeof_stun_header).
Proof. exact (stun_read_ok m size). Qed.

(** A binding response with one attribute of unknown type. *)
Definition example_datagram : list Z :=
  be 2 0x0101 ++ be 2 8 ++ be 4 STUN_MAGIC ++ [1; 2; 3; 4; 5; 6; 7; 8; 9; 10; 11; 12] ++
  be 2 0x7777 ++ be 2 3 ++ [1; 2; 3; 0].

Lemma stun_read_safe_witness :
  exists ret msg, stun_read example_datagram 28 = Some (ret, example_datagram, msg) /\ ret = 28.
Proof.
  destruct (stun_read_safe example_datagram 28) as (ret & msg & H & _).
  - by apply bytes_forallb.
  - vm_compute. split; discriminate.
  - exists ret, msg. split; [exact H|]. vm_compute in H. congruence.
Defined.

Lemma stun_check_integrity_spec `{CryptoLaws} (m : list Z) (size ret : Z)
    (msg msg' : stun_message_t) (password : option (list Z)) :
  bytes m -> 0 <= size <= zlen m -> stun_read m size = Some (ret, m, msg) -> 0 <= ret ->
  has_integrity msg' = true ->
  exists b, stun_check_integrity m size msg' password = Some (m, b) /\
            (b = true <-> authentic (generate_hmac_key msg' password) m ret).
Proof.
  intros Hb Hs Hr Hret Hi.
  destruct (stun_read_ok m size Hb Hs) as (ret' & msg1 & Hr' & _ & Hd).
  rewrite Hr in Hr'. injection Hr' as <- <-.
  destruct Hd as [->|(n & Hn & Hret' & Hle & Hd)]; [lia|].
  unfold stun_check_integrity. rewrite Hi, Hn. cbn [negb mbind option_bind].
  rewrite (proj2 (Z.ltb_ge _ _)) by lia. rewrite <- Hret'. unfold sizeof_stun_header in *.
  destruct (integrity_loop_spec (generate_hmac_key msg' password) m Hb size ret (S (Z.to_nat n))
    20 false) as (b & -> & Hv); try done; try lia.
  exists b. split; [done|]. rewrite Hv. unfold authentic, sizeof_stun_header.
  split; intros [He Hall]; (split; [|done]).
  - by destruct He.
  - by right.
Qed.

(** C14: After a successful read, the integrity check also terminates without
    undefined behaviour and leaves the datagram as it was, and it accepts
    exactly the authentic messages: those that have a MESSAGE-INTEGRITY or
    MESSAGE-INTEGRITY-SHA256 attribute, every one of which holds the HMAC, under
    the key of the credentials and password, of all that precedes it. *)
Theorem stun_check_integrity_correct `{CryptoLaws} (m : list Z) (size ret : Z)
    (msg msg' : stun_message_t) (password : option (list Z)) :
  bytes m -> 0 <= size <= zlen m -> stun_read m size = Some (ret, m, msg) -> 0 <= ret ->
  has_integrity msg' = true ->
  exists b, stun_check_integrity m size msg' password = Some (m, b) /\
            (b = true <-> authentic (generate_hmac_key msg' password) m ret).
Proof. exact (stun_check_integrity_spec m size ret msg msg' password). Qed.

Lemma stun_check_integrity_correct_witness :
  exists b, @stun_check_integrity sum_crypto example_datagram 28
              (set_has_integrity stun_message_zero true) None = Some (example_datagram, b) /\
            (b = true <-> @authentic sum_crypto
               (@generate_hmac_key sum_crypto (set_has_integrity stun_message_zero true) None)
               example_datagram 28).
Proof.
  eapply (@stun_check_integrity_correct sum_crypto sum_crypto_laws example_datagram 28 28).
  - by apply bytes_forallb.
  - vm_compute. split; discriminate.
  - vm_compute. reflexivity.
  - lia.
  - reflexivity.
Defined.

(** Once a MESSAGE-INTEGRITY attribute has been read, attributes other than
    the integrity and fingerprint ones are skipped over without any effect on
    the message, so that nothing unsigned is believed. *)
Theorem stun_read_attr_after_integrity (off size type length : Z) (st : reader) :
  has_integrity (rmsg st) = true -> has_fingerprint (rmsg st) = false ->
  load16 (mem st) off = Some type -> load16 (mem st) (off + 2) = Some length ->
  after_integrity type = false -> 0 <= length -> STUN_ATTR_SIZE + length <= size ->
  stun_read_attr off size st = Some (STUN_ATTR_SIZE + align32 length, st).
Proof.
  intros Hi Hf Ht Hl Ha Hn Hs. unfold stun_read_attr. rewrite Hf. unfold STUN_ATTR_SIZE in *.
  rewrite (proj2 (Z.ltb_ge _ _)) by lia. rewrite Hl, Ht. cbn [mbind option_bind].
  rewrite (proj2 (Z.ltb_ge _ _)) by lia. by rewrite Hi, Ha.
Qed.

Lemma stun_read_attr_after_integrity_witness :
  let st := {| mem := example_datagram; rmsg := set_has_integrity stun_message_zero true;
               security_bits := 0 |} in
  stun_read_attr 20 8 st = Some (8, st).
Proof. by apply (stun_read_attr_after_integrity 20 8 0x7777 3). Defined.

Lemma stun_prepend_nonce_cookie_eq (nonce : list Z) :
  stun_prepend_nonce_cookie nonce = STUN_NONCE_COOKIE ++ str "AAAD" ++ take 750 nonce.
Proof.
  unfold stun_prepend_nonce_cookie. cbv zeta.
  set (c := cstr _). assert (Hc : c = str "AAAD") by reflexivity. rewrite Hc. clear c Hc.
  change (Z.to_nat (STUN_MAX_NONCE_LEN - (STUN_NONCE_COOKIE_LEN + 5))) with 750%nat.
  assert (Hl : zlen (take 750 nonce) <= 750) by (rewrite zlen_take; lia).
  rewrite snprintf_whole.
  2: { rewrite !zlen_app. change (zlen STUN_NONCE_COOKIE) with 9. change (zlen (str "AAAD")) with 4.
       unfold STUN_MAX_NONCE_LEN. lia. }
  match goal with |- context [default [] (snd (_, Some ?y))] =>
    change (default [] (snd (_, Some y))) with y end.
  done.
Qed.

(** The nonce cookie the server prepends fits the array of the nonce, starts
    with the cookie of RFC 8489, keeps the nonce (truncated to what is left),
    and the client decodes from it exactly the two security features announced:
    password algorithms and user name anonymity. *)
Theorem stun_nonce_cookie_roundtrip (nonce : list Z) (bits : Z) :
  let n := stun_prepend_nonce_cookie nonce in
  zlen n < STUN_MAX_NONCE_LEN /\ starts_with STUN_NONCE_COOKIE n = true /\
  drop 13 n = take 750 nonce /\
  nonce_security_bits n bits
  = Some (STUN_SECURITY_PASSWORD_ALGORITHMS_BIT .| STUN_SECURITY_USERNAME_ANONYMITY_BIT).
Proof.
  rewrite stun_prepend_nonce_cookie_eq. cbv zeta.
  assert (Hl : zlen (take 750 nonce) <= 750) by (rewrite zlen_take; lia).
  split_and!.
  - rewrite !zlen_app. change (zlen STUN_NONCE_COOKIE) with 9. change (zlen (str "AAAD")) with 4.
    unfold STUN_MAX_NONCE_LEN. lia.
  - apply starts_with_app.
  - done.
  - done.
Qed.
