(* ===== verification/StunRoundtrip.v ===== *)
(** * STUN: reading what was written

    The reader of StunRead.v on the output of the writer of StunWrite.v.  The
    message read back is given field by field by [received]; the check of its
    integrity under the writer's key succeeds. *)

From S2P Require Import Prelude CText Addr Base64 ConstTime Crc32 StunTypes StunWrite StunRead.

(** ** What is read back *)

(** The effect of one attribute on the message and the security bits, [None]
    for the error return. *)
Definition apply_attr (a : Z * list Z) (s : stun_message_t * Z) : option (stun_message_t * Z) :=
  if has_integrity (fst s) && negb (after_integrity (fst a)) then Some s
  else match read_value (fst a) (snd a) (fst s) (snd s) with Some (Some s') => Some s' | _ => None end.

Fixpoint apply_attrs (l : list (Z * list Z)) (s : stun_message_t * Z)
  : option (stun_message_t * Z) :=
  match l with
  | [] => Some s
  | a :: l' => s' ← apply_attr a s; apply_attrs l' s'
  end.

(** The address read back from a record. *)
Definition received_record (tid : list Z) (r : addr_record_t) : option addr_record_t :=
  match xor_address_value tid r with
  | None => None
  | Some _ => Some {| addr := addr r; len := addr_get_len (addr r); socktype := SOCK_DGRAM |}
  end.

Definition or_zero (r : option addr_record_t) : addr_record_t := default addr_record_zero r.

(** The credentials a message carries. *)
Definition received_user (msg : stun_message_t) : stun_credentials_t :=
  let c := credentials msg in
  if is_request msg then
    if enable_userhash c
    then set_enable_userhash (set_userhash stun_credentials_zero (userhash c)) true
    else set_username stun_credentials_zero (username c)
  else stun_credentials_zero.

Definition received_nonce (msg : stun_message_t) (c' : stun_credentials_t) : stun_credentials_t :=
  let c := credentials msg in
  if bool_decide (nonce c = []) then c'
  else
    let c' := set_nonce c' (nonce c) in
    if bool_decide (password_algorithm c = STUN_PASSWORD_ALGORITHM_UNSET) then
      if is_request msg then c'
      else set_password_algorithms_value c' generate_password_algorithms_attr
    else
      let c' := set_password_algorithms_value c' (password_algorithms_value c) in
      if is_request msg then set_password_algorithm c' (password_algorithm c) else c'.

Definition received_credentials (msg : stun_message_t) : stun_credentials_t :=
  let c' := received_user msg in
  if has_auth_attributes msg
  then received_nonce msg (set_realm c' (realm (credentials msg))) else c'.

(** The security bits of its nonce, for a response with the cookie. *)
Definition received_bits (msg : stun_message_t) : Z :=
  let n := nonce (credentials msg) in
  if has_auth_attributes msg && STUN_IS_RESPONSE (msg_class msg) &&
     (STUN_NONCE_COOKIE_LEN + 4 <? zlen n) && starts_with STUN_NONCE_COOKIE n
  then default 0 (nonce_security_bits n 0) else 0.

Definition received (msg : stun_message_t) (password : option (list Z)) : stun_message_t :=
  {| msg_class := msg_class msg; msg_method := msg_method msg;
     transaction_id := transaction_id msg; error_code := error_code msg;
     priority := priority msg; ice_controlling := ice_controlling msg;
     ice_controlled := ice_controlled msg; use_candidate := use_candidate msg;
     mapped := or_zero (received_record (transaction_id msg) (mapped msg));
     credentials := received_credentials msg;
     has_integrity := negb (bool_decide (msg_class msg = STUN_CLASS_INDICATION)) &&
                      bool_decide (is_Some password);
     has_fingerprint := true;
     peers := omap (received_record (transaction_id msg)) (peers msg);
     relayed := or_zero (received_record (transaction_id msg) (relayed msg));
     alternate_server := addr_record_zero; data := data msg; lifetime := lifetime msg;
     channel_number := channel_number msg;
     lifetime_set := lifetime_set msg || negb (lifetime msg =? 0);
     even_port := false; next_port := false; dont_fragment := dont_fragment msg;
     requested_transport := requested_transport msg;
     reservation_token := reservation_token msg |}.

(** Messages that survive: the numbers fit their attributes, the strings are C
    strings, the user hash is complete, the list of password algorithms is the
    library's when an algorithm is set, and there is no EVEN-PORT (which is
    written under another type). *)
Record carried_wf (msg : stun_message_t) : Prop := {
  cwf_message : message_wf msg;
  cwf_error : 0 <= error_code msg < 800;
  cwf_priority : 0 <= priority msg < 2 ^ 32;
  cwf_lifetime : 0 <= lifetime msg < 2 ^ 32;
  cwf_channel : 0 <= channel_number msg < 65536;
  cwf_tie : 0 <= ice_controlling msg < 2 ^ 64 /\ 0 <= ice_controlled msg < 2 ^ 64;
  cwf_token : 0 <= reservation_token msg < 2 ^ 64;
  cwf_strings : no_nul (username (credentials msg)) /\ no_nul (realm (credentials msg)) /\
                no_nul (nonce (credentials msg));
  cwf_userhash : zlen (userhash (credentials msg)) = USERHASH_SIZE;
  cwf_algorithms : password_algorithm (credentials msg) <> STUN_PASSWORD_ALGORITHM_UNSET ->
                   password_algorithms_value (credentials msg) = generate_password_algorithms_attr;
  cwf_peers : peers_size msg <= STUN_MAX_PEER_ADDRESSES;
  cwf_even_port : even_port msg = false
}.

(** ** Walking encoded attributes *)

Section Walk.

Context (m pre post : list Z).

(** The header of an attribute at its offset. *)
Lemma load_attr_header (a : Z * list Z) :
  attr_ok a -> m = pre ++ encode_attr a ++ post ->
  load16 m (zlen pre) = Some (fst a) /\ load16 m (zlen pre + 2) = Some (zlen (snd a)) /\
  load m (zlen pre + 4) (zlen (snd a)) = Some (snd a).
Proof.
  intros (Ht & Hv & Hl) ->. pose proof (zlen_nonneg (snd a)). unfold encode_attr, load16.
  set (v := snd a) in *. split_and!.
  - rewrite (load_split_eq _ pre (be 2 (fst a)) (be 2 (zlen v) ++ v ++ padding v ++ post));
      [|by rewrite <- !app_assoc|done|by rewrite zlen_be].
    cbn [fmap option_fmap option_map]. rewrite unbe_be_small by (cbn; lia). done.
  - rewrite (load_split_eq _ (pre ++ be 2 (fst a)) (be 2 (zlen v)) (v ++ padding v ++ post));
      [|by rewrite <- !app_assoc|by rewrite zlen_app, zlen_be|by rewrite zlen_be].
    cbn [fmap option_fmap option_map]. rewrite unbe_be_small by (cbn; lia). done.
  - apply (load_split_eq _ (pre ++ be 2 (fst a) ++ be 2 (zlen v)) v (padding v ++ post));
      [by rewrite <- !app_assoc| |done].
    rewrite !zlen_app, !zlen_be. lia.
Qed.

End Walk.

(** The reader on an encoded attribute that is not a fingerprint. *)
Lemma stun_read_attr_encoded (m pre post : list Z) a msg bits s' size :
  attr_ok a -> fst a <> STUN_ATTR_FINGERPRINT -> m = pre ++ encode_attr a ++ post ->
  has_fingerprint msg = false -> STUN_ATTR_SIZE + zlen (snd a) <= size ->
  apply_attr a (msg, bits) = Some s' ->
  stun_read_attr (zlen pre) size {| mem := m; rmsg := msg; security_bits := bits |}
  = Some (zlen (encode_attr a), {| mem := m; rmsg := fst s'; security_bits := snd s' |}).
Proof.
  intros Ha Hf Hm Hfp Hs Happ. destruct (load_attr_header m pre post a Ha Hm) as (H1 & H2 & H3).
  pose proof (zlen_nonneg (snd a)). unfold stun_read_attr. cbn [mem rmsg security_bits].
  rewrite Hfp, H1, H2. cbn [mbind option_bind]. unfold STUN_ATTR_SIZE in *.
  rewrite (proj2 (Z.ltb_ge _ _)), (proj2 (Z.ltb_ge _ _)) by lia. rewrite zlen_encode_attr.
  unfold apply_attr in Happ. cbn [fst snd] in Happ.
  destruct (has_integrity msg && negb (after_integrity (fst a))); [by injection Happ as <-|].
  rewrite H3. cbn [mbind option_bind]. rewrite (proj2 (Z.eqb_neq _ _) Hf).
  destruct (read_value _ _ _ _) as [[s|]|]; try done. injection Happ as <-.
  cbn [mbind option_bind]. by destruct s.
Qed.

Lemma apply_attr_wf a s s' :
  received_wf (fst s) -> attr_ok a -> apply_attr a s = Some s' ->
  received_wf (fst s') /\ has_fingerprint (fst s') = has_fingerprint (fst s).
Proof.
  intros Hw (_ & Hv & Hl) Ha. unfold apply_attr in Ha. destruct (_ && _); [by injection Ha as <-|].
  destruct (read_value_ok (fst s) Hw (snd a) ltac:(by split) (snd s) (fst a)) as (o & Ho & Hok).
  rewrite Ho in Ha. destruct o as [ [msg' bits']|]; [|done]. injection Ha as <-.
  destruct Hok as (? & _ & _ & ? & _). done.
Qed.

(** The reader's loop over encoded attributes. *)
Lemma read_loop_encoded (m post : list Z) (end_ : Z) (k : nat) l : forall pre msg bits s',
  Forall attr_ok l -> Forall (fun a => fst a <> STUN_ATTR_FINGERPRINT) l ->
  m = pre ++ encode_attrs l ++ post -> zlen pre + zlen (encode_attrs l) <= end_ ->
  received_wf msg -> has_fingerprint msg = false -> apply_attrs l (msg, bits) = Some s' ->
  read_loop (length l + k) (zlen pre) end_ {| mem := m; rmsg := msg; security_bits := bits |}
  = read_loop k (zlen pre + zlen (encode_attrs l)) end_
      {| mem := m; rmsg := fst s'; security_bits := snd s' |} /\
  received_wf (fst s') /\ has_fingerprint (fst s') = false.
Proof.
  induction l as [|a l IH]; intros pre msg bits s' Hok Hf Hm He Hw Hfp Happ.
  { cbn in Happ. injection Happ as <-. cbn [length Nat.add fst snd].
    change (zlen (encode_attrs [])) with 0. by rewrite Z.add_0_r. }
  apply Forall_cons_1 in Hok as [Ha Hok]. apply Forall_cons_1 in Hf as [Hfa Hf].
  cbn [apply_attrs] in Happ. destruct (apply_attr a (msg, bits)) as [ [msg1 bits1]|] eqn:E; [|done].
  cbn [mbind option_bind] in Happ.
  rewrite encode_attrs_cons, zlen_app in *. rewrite <- app_assoc in Hm.
  pose proof (zlen_nonneg (encode_attrs l)). pose proof (zlen_nonneg (snd a)).
  assert (Hea := zlen_encode_attr a). rewrite align32_spec in Hea by done.
  destruct (apply_attr_wf a (msg, bits) (msg1, bits1) Hw Ha E) as [Hw1 Hfp1].
  cbn [length Nat.add read_loop]. rewrite (proj2 (Z.ltb_lt _ _)) by zlia. cbn [negb].
  rewrite (stun_read_attr_encoded m pre (encode_attrs l ++ post) a msg bits (msg1, bits1));
    try done; [|unfold STUN_ATTR_SIZE; zlia].
  cbn [mbind option_bind fst snd]. rewrite (proj2 (Z.leb_gt _ _)) by zlia.
  rewrite <- zlen_app. rewrite (app_assoc pre) in Hm.
  cbn [fst] in Hw1, Hfp1.
  destruct (IH (pre ++ encode_attr a) msg1 bits1 s') as (IH1 & IH2); try done;
    [rewrite zlen_app; lia|congruence|].
  rewrite IH1. rewrite zlen_app. by rewrite Z.add_assoc.
Qed.

(** ** Effects of the attributes *)

Lemma apply_attrs_app l1 l2 s :
  apply_attrs (l1 ++ l2) s = s' ← apply_attrs l1 s; apply_attrs l2 s'.
Proof.
  revert s; induction l1 as [|a l1 IH]; intros s; [done|].
  cbn [app apply_attrs]. destruct (apply_attr a s); [|done]. apply IH.
Qed.

Lemma apply_one type v l msg bits s' :
  has_integrity msg = false -> read_value type v msg bits = Some (Some s') ->
  apply_attrs ((type, v) :: l) (msg, bits) = apply_attrs l s'.
Proof.
  intros Hi Hr. cbn [apply_attrs]. unfold apply_attr. cbn [fst snd]. by rewrite Hi, Hr.
Qed.

(** An optional attribute whose absence means the value the field has. *)
Lemma apply_when (c : bool) type v l msg bits msg' :
  has_integrity msg = false ->
  (c = true -> read_value type v msg bits = Some (Some (msg', bits))) ->
  (c = false -> msg' = msg) ->
  apply_attrs (when c (type, v) ++ l) (msg, bits) = apply_attrs l (msg', bits).
Proof.
  intros Hi Ht Hf. destruct c; [|by rewrite Hf]. cbn [when app]. by apply apply_one; auto.
Qed.

Lemma load32_be (x : Z) : 0 <= x < 2 ^ 32 -> load32 (be 4 x) 0 = Some x.
Proof.
  intros Hx. unfold load32. rewrite (load_split_eq _ [] (be 4 x) []);
    [|by rewrite app_nil_r|done|by rewrite zlen_be].
  cbn [fmap option_fmap option_map]. by rewrite unbe_be_small.
Qed.

Lemma be_split (n k : nat) (x : Z) :
  be (n + k) x = be n (x / 256 ^ Z.of_nat k) ++ be k x.
Proof.
  revert x; induction k as [|k IH]; intros x.
  - by rewrite Nat.add_0_r, Z.div_1_r, app_nil_r.
  - rewrite Nat.add_succ_r. cbn [be]. rewrite IH, <- app_assoc. f_equal.
    rewrite Z.div_div by lia. f_equal. rewrite Nat2Z.inj_succ, Z.pow_succ_r by lia. lia.
Qed.

Lemma read_u64_be (x : Z) set bits :
  0 <= x < 2 ^ 64 -> read_u64 (be 8 x) set bits = break (set x) bits.
Proof.
  intros Hx. unfold read_u64. rewrite zlen_be. cbn [Z.of_nat Pos.of_succ_nat Pos.succ Z.eqb Pos.eqb negb].
  unfold load32. rewrite (be_split 4 4). set (h := x / 256 ^ Z.of_nat 4).
  assert (Hh : 0 <= h < 2 ^ 32) by (unfold h; cbn; zlia).
  rewrite (load_split_eq _ [] (be 4 h) (be 4 x) 0 4); [|done|done|by rewrite zlen_be].
  cbn [fmap option_fmap option_map mbind option_bind].
  rewrite (load_split_eq _ (be 4 h) (be 4 x) [] 4 4);
    [|by rewrite app_nil_r|by rewrite zlen_be|by rewrite zlen_be].
  cbn [fmap option_fmap option_map mbind option_bind].
  rewrite (unbe_be_small 4 h) by (cbn; lia). rewrite unbe_be.
  replace (u64 (h .<< 32)) with (h .<< 32) by (rewrite shiftl_mul by lia; solve_width).
  rewrite lor_shiftl_add by (cbn; zlia). do 3 f_equal. unfold h. f_equal. cbn. zlia.
Qed.

Lemma load8_at (v pre post : list Z) (b off : Z) :
  v = pre ++ b :: post -> off = zlen pre -> load8 v off = Some b.
Proof.
  intros -> ->. unfold load8.
  by rewrite (load_split_eq (pre ++ b :: post) pre [b] post (zlen pre) 1).
Qed.

Lemma load16_be (x : Z) (post : list Z) :
  0 <= x < 65536 -> load16 (be 2 x ++ post) 0 = Some x.
Proof.
  intros Hx. unfold load16.
  rewrite (load_split_eq _ [] (be 2 x) post 0 2); [|done|done|by rewrite zlen_be].
  cbn [fmap option_fmap option_map]. by rewrite unbe_be_small.
Qed.

Section Effects.

Context (msg : stun_message_t) (bits : Z) (l : list (Z * list Z)).
Context (Hi : has_integrity msg = false).

(** A field set to the value it has. *)
Ltac same := intros; destruct msg, credentials; cbn in *; bool_to_prop; subst; done.

Lemma read_error_code_value code :
  0 <= code < 800 ->
  read_error_code (error_code_value code) msg bits = break (set_error_code msg code) bits.
Proof.
  intros Hc. unfold read_error_code, error_code_value. set (r := stun_get_error_reason code).
  set (v := [0; 0; _; _] ++ r).
  assert (Hz : zlen v = 4 + zlen r) by (unfold v; rewrite zlen_app; done).
  assert (Hv : bytes v).
  { unfold v. apply Forall_app; split; [|apply stun_get_error_reason_ok].
    repeat constructor; try apply u8_byte; unfold is_byte; lia. }
  pose proof (zlen_nonneg r). rewrite (proj2 (Z.ltb_ge _ _)) by lia.
  rewrite (load8_at v [0; 0] (u8 (code mod 100) :: r) (u8 (code / 100 .& 7)) 2) by done.
  rewrite (load8_at v [0; 0; u8 (code / 100 .& 7)] r (u8 (code mod 100)) 3) by done.
  cbn [mbind option_bind].
  assert (E : (u8 (code / 100 .& 7) .& 7) * 100 + u8 (code mod 100) = code).
  { change 7 with (2 ^ 3 - 1). rewrite !land_ones_mod by lia. cbn [Z.pow Z.pow_pos Pos.iter Z.mul].
    solve_width. }
  rewrite E. case_if; [done|]. unfold STUN_MAX_ERROR_REASON_LEN. case_if; load_step; done.
Qed.

Lemma apply_error code :
  0 <= code < 800 -> error_code msg = 0 ->
  apply_attrs (when (negb (code =? 0)) (STUN_ATTR_ERROR_CODE, error_code_value code) ++ l)
    (msg, bits) = apply_attrs l (set_error_code msg code, bits).
Proof using Hi.
  intros Hc He. apply apply_when; [done| |same].
  intros _. by apply read_error_code_value.
Qed.

Lemma apply_priority x :
  0 <= x < 2 ^ 32 -> priority msg = 0 ->
  apply_attrs (when (negb (x =? 0)) (STUN_ATTR_PRIORITY, be 4 x) ++ l) (msg, bits)
  = apply_attrs l (set_priority msg x, bits).
Proof using Hi.
  intros Hx Hp. apply apply_when; [done| |same]. intros _.
  change (read_u32 (be 4 x) (set_priority msg) bits = Some (Some (set_priority msg x, bits))).
  unfold read_u32. rewrite zlen_be, load32_be by done. done.
Qed.

Lemma apply_use_candidate (c : bool) :
  use_candidate msg = false ->
  apply_attrs (when c (STUN_ATTR_USE_CANDIDATE, []) ++ l) (msg, bits)
  = apply_attrs l (set_use_candidate msg c, bits).
Proof using Hi. intros Hc. apply apply_when; [done|by intros ->|same]. Qed.

Lemma apply_controlling x :
  0 <= x < 2 ^ 64 -> ice_controlling msg = 0 ->
  apply_attrs (when (negb (x =? 0)) (STUN_ATTR_ICE_CONTROLLING, be 8 x) ++ l) (msg, bits)
  = apply_attrs l (set_ice_controlling msg x, bits).
Proof using Hi.
  intros Hx Hp. apply apply_when; [done| |same]. intros _.
  by apply (read_u64_be x (set_ice_controlling msg) bits).
Qed.

Lemma apply_controlled x :
  0 <= x < 2 ^ 64 -> ice_controlled msg = 0 ->
  apply_attrs (when (negb (x =? 0)) (STUN_ATTR_ICE_CONTROLLED, be 8 x) ++ l) (msg, bits)
  = apply_attrs l (set_ice_controlled msg x, bits).
Proof using Hi.
  intros Hx Hp. apply apply_when; [done| |same]. intros _.
  by apply (read_u64_be x (set_ice_controlled msg) bits).
Qed.

Lemma apply_token x :
  0 <= x < 2 ^ 64 -> reservation_token msg = 0 ->
  apply_attrs (when (negb (x =? 0)) (STUN_ATTR_RESERVATION_TOKEN, be 8 x) ++ l) (msg, bits)
  = apply_attrs l (set_reservation_token msg x, bits).
Proof using Hi.
  intros Hx Hp. apply apply_when; [done| |same]. intros _.
  by apply (read_u64_be x (set_reservation_token msg) bits).
Qed.

Lemma apply_channel x :
  0 <= x < 65536 -> channel_number msg = 0 ->
  apply_attrs (when (negb (x =? 0)) (STUN_ATTR_CHANNEL_NUMBER, be 2 x ++ [0; 0]) ++ l) (msg, bits)
  = apply_attrs l (set_channel_number msg x, bits).
Proof using Hi.
  intros Hx Hp. apply apply_when; [done| |same]. intros _.
  change (read_channel_number (be 2 x ++ [0; 0]) msg bits
          = Some (Some (set_channel_number msg x, bits))).
  unfold read_channel_number. rewrite zlen_app, zlen_be, load16_be by done. done.
Qed.

Lemma apply_lifetime (s : bool) x :
  0 <= x < 2 ^ 32 -> lifetime msg = 0 -> lifetime_set msg = false ->
  apply_attrs (when (s || negb (x =? 0)) (STUN_ATTR_LIFETIME, be 4 x) ++ l) (msg, bits)
  = apply_attrs l (set_lifetime_set (set_lifetime msg x) (s || negb (x =? 0)), bits).
Proof using Hi.
  intros Hx Hp Hs. apply apply_when; [done| |].
  - intros ->.
    change (read_u32 (be 4 x) (fun x => set_lifetime_set (set_lifetime msg x) true) bits
            = Some (Some (set_lifetime_set (set_lifetime msg x) true, bits))).
    unfold read_u32. rewrite zlen_be, load32_be by done. done.
  - same.
Qed.

Lemma apply_data d :
  data msg = None ->
  apply_attrs (match d with Some d => [(STUN_ATTR_DATA, d)] | None => [] end ++ l) (msg, bits)
  = apply_attrs l (set_data msg d, bits).
Proof using Hi.
  intros Hd. destruct d as [d|]; [by apply apply_one|]. cbn [app]. do 2 f_equal. same.
Qed.

Lemma apply_transport (c : bool) :
  requested_transport msg = false ->
  apply_attrs (when c (STUN_ATTR_REQUESTED_TRANSPORT, [17; 0; 0; 0]) ++ l) (msg, bits)
  = apply_attrs l (set_requested_transport msg c, bits).
Proof using Hi. intros Hc. apply apply_when; [done|by intros ->|same]. Qed.

Lemma apply_dont_fragment (c : bool) :
  dont_fragment msg = false ->
  apply_attrs (when c (STUN_ATTR_DONT_FRAGMENT, []) ++ l) (msg, bits)
  = apply_attrs l (set_dont_fragment msg c, bits).
Proof using Hi. intros Hc. apply apply_when; [done|by intros ->|same]. Qed.

Lemma apply_software :
  apply_attrs ((STUN_ATTR_SOFTWARE, str "libjuice") :: l) (msg, bits) = apply_attrs l (msg, bits).
Proof using Hi. by apply apply_one. Qed.

End Effects.

(** ** Addresses *)

Lemma xor_bytes_cancel (a mask : list Z) :
  (length a <= length mask)%nat -> xor_bytes (xor_bytes a mask) mask = a.
Proof.
  unfold xor_bytes. revert mask; induction a as [|x a IH]; intros [|y mask] Hl; cbn in *; try done; try lia.
  rewrite lxor_cancel, IH by lia. done.
Qed.

Lemma unle16_le16 (x : Z) : 0 <= x < 65536 -> unle16 (x mod 256) (x / 256 mod 256) = x.
Proof. intros Hx. unfold unle16. zlia. Qed.

Lemma mask16_bound (mask : list Z) :
  bytes mask -> length mask = 16%nat -> 0 <= unle16 (nth 0 mask 0) (nth 1 mask 0) < 65536.
Proof.
  intros Hm Hl. destruct mask as [|x [|y mask] ]; try (cbn in Hl; lia).
  apply Forall_cons_1 in Hm as [Hx Hm]. apply Forall_cons_1 in Hm as [Hy _].
  unfold unle16, is_byte in *. cbn [nth]. lia.
Qed.

(** The layout of an address value. *)
Lemma load_address (family p0 p1 : Z) (a : list Z) :
  let v := [0; family] ++ [p0; p1] ++ a in
  zlen v = 4 + zlen a /\ load8 v 1 = Some family /\ load8 v 2 = Some p0 /\
  load8 v 3 = Some p1 /\ load v 4 (zlen a) = Some a.
Proof.
  cbn [app]. split_and!.
  - rewrite !zlen_cons. lia.
  - by apply (load8_at _ [0] (p0 :: p1 :: a)).
  - by apply (load8_at _ [0; family] (p1 :: a)).
  - by apply (load8_at _ [0; family; p0] a).
  - apply (load_split_eq _ [0; family; p0; p1] a []); [by rewrite app_nil_r|done|done].
Qed.

Lemma read_xor_address (tid : list Z) (r old : addr_record_t) (v : list Z) :
  bytes tid -> zlen tid = 12 -> record_wf r -> xor_address_value tid r = Some v ->
  exists ret, stun_read_value_mapped_address v old (generate_mask tid)
    = Some (ret, {| addr := addr r; len := addr_get_len (addr r); socktype := SOCK_DGRAM |}) /\
    0 < ret.
Proof.
  intros Hb Ht Hr Hv. destruct (generate_mask_wf tid Hb Ht) as [Hmb Hml].
  pose proof (mask16_bound _ Hmb Hml) as H16.
  unfold xor_address_value in Hv. cbv zeta in Hv. unfold record_wf in Hr.
  unfold stun_read_value_mapped_address.
  set (mask := generate_mask tid) in *. set (m16 := unle16 _ _) in *.
  assert (Hport : forall p, 0 <= p < 65536 -> 0 <= p .^ m16 < 65536)
    by (intros p Hp; apply (lxor_bound 16); lia).
  destruct (addr r) as [p a|p a|f]; cbn in Hr; [| |done]; destruct Hr as (Hp & Ha & Hl);
    case_if_in Hv; try discriminate; apply Some_inj in Hv; rewrite <- Hv; clear Hv v;
    match goal with |- context [ [0; ?f] ++ le16 ?q ++ ?x] =>
      destruct (load_address f (q mod 256) (q / 256 mod 256) x) as (Hz & H1 & H2 & H3 & H4);
      assert (Hx : zlen x = zlen a)
        by (unfold zlen, xor_bytes; rewrite length_zip_with, length_take; lia);
      change ([0; f] ++ le16 q ++ x) with ([0; f] ++ [q mod 256; q / 256 mod 256] ++ x);
      set (v := [0; f] ++ [q mod 256; q / 256 mod 256] ++ x) in *
    end; unfold zlen in Hx at 2; rewrite Hl in Hx; rewrite Hx in *;
    change (Z.of_nat 4) with 4 in *; change (Z.of_nat 16) with 16 in *;
    rewrite Hz; cbn [Z.add Z.ltb Z.compare Pos.compare Pos.compare_cont Pos.add Pos.succ];
    rewrite H1; cbn [mbind option_bind]; cbn [STUN_ADDRESS_FAMILY_IPV4 STUN_ADDRESS_FAMILY_IPV6 Z.eqb Pos.eqb];
    rewrite H2, H3; cbn [mbind option_bind]; rewrite H4; cbn [mbind option_bind];
    rewrite unle16_le16 by (by apply Hport);
    rewrite lxor_cancel, xor_bytes_cancel by (rewrite length_take; lia);
    (eexists; split; [reflexivity|done]).
Qed.

Section AddressEffects.

Context (msg : stun_message_t) (bits : Z) (l : list (Z * list Z)).
Context (Hi : has_integrity msg = false).
Context (tid : list Z) (Htid : transaction_id msg = tid) (Hb : bytes tid) (Ht : zlen tid = 12).

Lemma apply_address type (old : addr_record_t) set r :
  (forall v bits, read_value type v msg bits
     = read_address v (generate_mask tid) old set bits) ->
  record_wf r -> old = addr_record_zero -> set addr_record_zero = msg ->
  apply_attrs (address_attrs tid type r ++ l) (msg, bits)
  = apply_attrs l (set (or_zero (received_record tid r)), bits).
Proof using Hi Htid Hb Ht.
  intros Hread Hr -> Hset. unfold address_attrs, received_record.
  destruct (xor_address_value tid r) as [v|] eqn:Hv.
  - destruct (read_xor_address _ r addr_record_zero v Hb Ht Hr Hv) as (ret & Hx & Hpos).
    apply apply_one; [done|]. rewrite Hread. unfold read_address. rewrite Hx.
    cbn [mbind option_bind]. by rewrite (proj2 (Z.ltb_ge _ _)) by lia.
  - cbn [app or_zero default]. by rewrite Hset.
Qed.

Lemma apply_mapped r :
  record_wf r -> mapped msg = addr_record_zero ->
  apply_attrs (address_attrs tid STUN_ATTR_XOR_MAPPED_ADDRESS r ++ l) (msg, bits)
  = apply_attrs l (set_mapped msg (or_zero (received_record tid r)), bits).
Proof using Hi Htid Hb Ht.
  intros Hr Hm. apply (apply_address _ (mapped msg)); try done; [by rewrite <- Htid|].
  destruct msg; cbn in *; by subst.
Qed.

Lemma apply_relayed r :
  record_wf r -> relayed msg = addr_record_zero ->
  apply_attrs (address_attrs tid STUN_ATTR_XOR_RELAYED_ADDRESS r ++ l) (msg, bits)
  = apply_attrs l (set_relayed msg (or_zero (received_record tid r)), bits).
Proof using Hi Htid Hb Ht.
  intros Hr Hm. apply (apply_address _ (relayed msg)); try done; [by rewrite <- Htid|].
  destruct msg; cbn in *; by subst.
Qed.

End AddressEffects.

Lemma apply_peers (tid : list Z) (ps : list addr_record_t) : forall msg bits l,
  has_integrity msg = false -> transaction_id msg = tid -> bytes tid -> zlen tid = 12 ->
  Forall record_wf ps -> peers_size msg + zlen ps <= STUN_MAX_PEER_ADDRESSES ->
  apply_attrs (concat (address_attrs tid STUN_ATTR_XOR_PEER_ADDRESS <$> ps) ++ l)
    (msg, bits)
  = apply_attrs l (set_peers msg (peers msg ++ omap (received_record tid) ps),
                   bits).
Proof.
  induction ps as [|r ps IH]; intros msg bits l Hi Htid Hb Ht Hps Hn.
  { cbn. rewrite app_nil_r. by destruct msg. }
  apply Forall_cons_1 in Hps as [Hr Hps]. rewrite zlen_cons in Hn. pose proof (zlen_nonneg ps).
  cbn [fmap list_fmap concat omap list_omap].
  rewrite <- app_assoc. unfold address_attrs at 1. unfold received_record at 1.
  destruct (xor_address_value tid r) as [v|] eqn:Hv.
  - destruct (read_xor_address _ r addr_record_zero v Hb Ht Hr Hv) as (ret & Hx & Hpos).
    set (r' := {| addr := addr r; len := _; socktype := _ |}) in *.
    assert (Hlen : (len r' =? 0) = false).
    { unfold xor_address_value in Hv. cbv zeta in Hv. unfold r'. cbn [len].
      by destruct (addr r). }
    cbn [app]. rewrite (apply_one _ _ _ _ _ (set_peers msg (peers msg ++ [r']), bits)); [|done|].
    + pose proof (IH (set_peers msg (peers msg ++ [r'])) bits l) as IH'.
      cbn [transaction_id set_peers peers has_integrity] in IH'. rewrite IH'; try done.
      * by rewrite <- app_assoc.
      * unfold peers_size in *. cbn [peers set_peers]. rewrite zlen_app. change (zlen [r']) with 1. lia.
    + change (read_peer v msg bits = Some (Some (set_peers msg (peers msg ++ [r']), bits))).
      unfold read_peer. rewrite (proj2 (Z.ltb_lt _ _)) by lia. rewrite Htid, Hx.
      cbn [mbind option_bind]. by rewrite (proj2 (Z.ltb_ge _ _)), Hlen by lia.
  - cbn [app]. apply IH; try done. lia.
Qed.

(** ** Credentials *)

Section CredentialEffects.

Context (msg : stun_message_t) (bits : Z) (l : list (Z * list Z)).
Context (Hi : has_integrity msg = false).

Lemma apply_username s :
  small_bytes STUN_MAX_USERNAME_LEN s -> no_nul s -> username (credentials msg) = [] ->
  apply_attrs (when (negb (bool_decide (s = []))) (STUN_ATTR_USERNAME, s) ++ l) (msg, bits)
  = apply_attrs l (set_credentials msg (set_username (credentials msg) s), bits).
Proof using Hi.
  intros [_ Hl] Hn Hu. apply apply_when; [done| |].
  - intros _. change (read_username s msg bits
      = Some (Some (set_credentials msg (set_username (credentials msg) s), bits))).
    unfold read_username, read_string. rewrite (proj2 (Z.ltb_ge _ _)) by lia.
    by rewrite cstr_id.
  - rewrite negb_false_iff, bool_decide_eq_true. intros ->.
    destruct msg, credentials; cbn in *; by subst.
Qed.

Lemma apply_userhash s :
  zlen s = USERHASH_SIZE ->
  apply_attrs ((STUN_ATTR_USERHASH, s) :: l) (msg, bits)
  = apply_attrs l (set_credentials msg
      (set_enable_userhash (set_userhash (credentials msg) s) true), bits).
Proof using Hi.
  intros Hl. apply apply_one; [done|].
  change (read_userhash s msg bits = Some (Some (set_credentials msg
      (set_enable_userhash (set_userhash (credentials msg) s) true), bits))).
  unfold read_userhash. by rewrite Hl, Z.eqb_refl.
Qed.

Lemma apply_realm s :
  small_bytes STUN_MAX_REALM_LEN s -> no_nul s -> realm (credentials msg) = [] ->
  apply_attrs (when (negb (bool_decide (s = []))) (STUN_ATTR_REALM, s) ++ l) (msg, bits)
  = apply_attrs l (set_credentials msg (set_realm (credentials msg) s), bits).
Proof using Hi.
  intros [_ Hl] Hn Hu. apply apply_when; [done| |].
  - intros _. change (read_realm s msg bits
      = Some (Some (set_credentials msg (set_realm (credentials msg) s), bits))).
    unfold read_realm, read_string. rewrite (proj2 (Z.ltb_ge _ _)) by lia.
    by rewrite cstr_id.
  - rewrite negb_false_iff, bool_decide_eq_true. intros ->.
    destruct msg, credentials; cbn in *; by subst.
Qed.

Lemma apply_nonce s :
  small_bytes STUN_MAX_NONCE_LEN s -> no_nul s ->
  apply_attrs ((STUN_ATTR_NONCE, s) :: l) (msg, bits)
  = apply_attrs l (set_credentials msg (set_nonce (credentials msg) s),
      if STUN_IS_RESPONSE (msg_class msg) && (STUN_NONCE_COOKIE_LEN + 4 <? zlen s) &&
         starts_with STUN_NONCE_COOKIE s
      then default bits (nonce_security_bits s bits) else bits).
Proof using Hi.
  intros [_ Hl] Hn. apply apply_one; [done|].
  change (read_nonce s msg bits = Some (Some (set_credentials msg (set_nonce (credentials msg) s),
      if STUN_IS_RESPONSE (msg_class msg) && (STUN_NONCE_COOKIE_LEN + 4 <? zlen s) &&
         starts_with STUN_NONCE_COOKIE s
      then default bits (nonce_security_bits s bits) else bits))).
  unfold read_nonce. rewrite (proj2 (Z.ltb_ge _ _)) by lia. rewrite cstr_id by done.
  cbn [msg_class with_credentials set_credentials].
  case_if; [|done]. destruct (nonce_security_bits_ok bits s) as [b Hb']; [done|]. by rewrite Hb'.
Qed.

(** The library's list of algorithms; in a request it also selects the first. *)
Lemma apply_algorithms :
  apply_attrs ((STUN_ATTR_PASSWORD_ALGORITHMS, generate_password_algorithms_attr) :: l) (msg, bits)
  = apply_attrs l
      (let c := set_password_algorithms_value (credentials msg) generate_password_algorithms_attr in
       set_credentials msg
         (if STUN_IS_RESPONSE (msg_class msg) then c
          else set_password_algorithm c STUN_PASSWORD_ALGORITHM_SHA256), bits).
Proof using Hi.
  apply apply_one; [done|].
  change (read_value STUN_ATTR_PASSWORD_ALGORITHMS generate_password_algorithms_attr msg bits)
    with (read_password_algorithms generate_password_algorithms_attr msg bits).
  unfold read_password_algorithms. cbn [msg_class with_credentials set_credentials].
  by destruct (STUN_IS_RESPONSE (msg_class msg)).
Qed.

Lemma apply_algorithm a uninit :
  STUN_IS_RESPONSE (msg_class msg) = false -> a <> STUN_PASSWORD_ALGORITHM_UNSET ->
  zlen uninit = 2 ->
  apply_attrs ((STUN_ATTR_PASSWORD_ALGORITHM, be 2 (algorithm_value a) ++ uninit) :: l) (msg, bits)
  = apply_attrs l (set_credentials msg (set_password_algorithm (credentials msg) a), bits).
Proof using Hi.
  intros Hc Ha Hu. apply apply_one; [done|].
  change (read_password_algorithm (be 2 (algorithm_value a) ++ uninit) msg bits
    = Some (Some (set_credentials msg (set_password_algorithm (credentials msg) a), bits))).
  unfold read_password_algorithm. rewrite zlen_app, zlen_be, Hu, Hc.
  rewrite load16_be by (by destruct a). by destruct a.
Qed.

End CredentialEffects.

(** ** The whole message *)

(** The header gives the class and the method back. *)
Lemma initial_message_encoded c method tid :
  0 <= method < 65536 -> method .& STUN_CLASS_MASK = 0 ->
  initial_message (class_value c .| method) tid
  = set_transaction_id (set_msg_method (set_msg_class stun_message_zero c) method) tid.
Proof.
  intros Hm Hz. unfold initial_message.
  assert (Hbit : forall i, 0 <= i -> Z.testbit method i && Z.testbit STUN_CLASS_MASK i = false).
  { intros i Hi. by rewrite <- Z.land_spec, Hz, Z.bits_0. }
  assert (Hc : forall i, 0 <= i -> Z.testbit (class_value c) i = true ->
                         Z.testbit STUN_CLASS_MASK i = true).
  { intros i Hi Ht.
    assert (E : class_value c .& STUN_CLASS_MASK = class_value c) by (by destruct c).
    rewrite <- E, Z.land_spec in Ht. by apply andb_true_iff in Ht as [_ ?]. }
  assert (E1 : (class_value c .| method) .& STUN_CLASS_MASK = class_value c).
  { apply Z.bits_inj'. intros i Hi. rewrite Z.land_spec, Z.lor_spec.
    specialize (Hbit i Hi). specialize (Hc i Hi).
    destruct (Z.testbit (class_value c) i), (Z.testbit method i), (Z.testbit STUN_CLASS_MASK i);
      try done; by specialize (Hc eq_refl). }
  assert (E2 : Z.ldiff (class_value c .| method) STUN_CLASS_MASK = method).
  { apply Z.bits_inj'. intros i Hi. rewrite Z.ldiff_spec, Z.lor_spec.
    specialize (Hbit i Hi). specialize (Hc i Hi).
    destruct (Z.testbit (class_value c) i), (Z.testbit method i), (Z.testbit STUN_CLASS_MASK i);
      try done; by specialize (Hc eq_refl). }
  by rewrite E1, E2, class_of_class_value.
Qed.

(** The message with the plain attributes only. *)
Definition received_plain (msg : stun_message_t) : stun_message_t :=
  set_has_fingerprint
    (set_has_integrity (set_credentials (received msg None) stun_credentials_zero) false) false.

Section Whole.

Context (msg : stun_message_t) (Hwf : carried_wf msg).

Lemma apply_plain l :
  apply_attrs (plain_attributes msg ++ l)
    (set_transaction_id (set_msg_method (set_msg_class stun_message_zero (msg_class msg))
       (msg_method msg)) (transaction_id msg), 0)
  = apply_attrs l (received_plain msg, 0).
Proof using Hwf.
  destruct Hwf as [ [ _ [Hb Ht] Hm Hps Hr _ _ _ _ _ _] He Hp Hli Hch [Hc1 Hc2] Htok _ _ _ Hn Hev].
  unfold plain_attributes. cbv zeta. rewrite Hev. rewrite <- !app_assoc. cbn [when app].
  rewrite apply_error by done.
  rewrite apply_mapped by done.
  rewrite apply_priority, apply_use_candidate, apply_controlling, apply_controlled,
    apply_channel, apply_lifetime by done.
  rewrite (apply_peers (transaction_id msg) (peers msg)) by done.
  rewrite apply_relayed by done.
  rewrite apply_data, apply_transport, apply_dont_fragment, apply_token by done.
  rewrite apply_software by done. done.
Qed.

Lemma apply_user l m bits :
  has_integrity m = false -> credentials m = stun_credentials_zero ->
  apply_attrs (user_attributes msg ++ l) (m, bits)
  = apply_attrs l (set_credentials m (received_user msg), bits).
Proof using Hwf.
  intros Hi Hc. destruct Hwf as [Hm _ _ _ _ _ _ (Hu & _) Hh _ _ _].
  unfold user_attributes, received_user. cbv zeta.
  destruct (is_request msg); [|cbn [app]; rewrite <- Hc; by destruct m].
  destruct (enable_userhash (credentials msg)).
  - cbn [app]. rewrite apply_userhash by done. by rewrite Hc.
  - rewrite apply_username; [by rewrite Hc|done|apply Hm|done|by rewrite Hc].
Qed.

Lemma apply_nonce_attributes uninit l m :
  zlen uninit = 2 -> has_integrity m = false -> msg_class m = msg_class msg ->
  (STUN_IS_RESPONSE (msg_class msg) = negb (is_request msg)) ->
  apply_attrs (nonce_attributes uninit msg ++ l) (m, 0)
  = apply_attrs l (set_credentials m (received_nonce msg (credentials m)),
      if STUN_IS_RESPONSE (msg_class msg) &&
         (STUN_NONCE_COOKIE_LEN + 4 <? zlen (nonce (credentials msg))) &&
         starts_with STUN_NONCE_COOKIE (nonce (credentials msg))
      then default 0 (nonce_security_bits (nonce (credentials msg)) 0) else 0).
Proof using Hwf.
  intros Hun Hi Hcl Hreq. destruct Hwf as [Hm _ _ _ _ _ _ (_ & _ & Hn) _ Ha _ _].
  unfold nonce_attributes, received_nonce. cbv zeta.
  case_bool_decide as Hnil.
  { rewrite Hnil. change (STUN_NONCE_COOKIE_LEN + 4 <? zlen []) with false.
    rewrite andb_false_r. cbn [andb app]. by destruct m. }
  rewrite <- !app_assoc. cbn [app].
  rewrite apply_nonce; [|done|apply Hm|done]. rewrite Hcl.
  destruct (password_algorithm (credentials msg)) eqn:Ea; cbn [algorithm_value Z.ltb Z.compare Z.eqb Pos.eqb negb].
  - rewrite bool_decide_eq_true_2, andb_false_r by done.
    destruct (is_request msg); cbn [negb when app]; [done|].
    rewrite apply_algorithms by done. cbn [msg_class set_credentials credentials].
    by rewrite Hcl, Hreq.
  - rewrite bool_decide_eq_false_2, andb_true_r, Ha by done. cbn [app].
    rewrite apply_algorithms by done. cbn [msg_class set_credentials credentials].
    rewrite Hcl, Hreq. destruct (is_request msg); cbn [negb when app]; [|done].
    change (be 2 1) with (be 2 (algorithm_value STUN_PASSWORD_ALGORITHM_MD5)).
    rewrite apply_algorithm by (done || by cbn; rewrite Hcl, Hreq). done.
  - rewrite bool_decide_eq_false_2, andb_true_r, Ha by done. cbn [app].
    rewrite apply_algorithms by done. cbn [msg_class set_credentials credentials].
    rewrite Hcl, Hreq. destruct (is_request msg); cbn [negb when app]; [|done].
    change (be 2 2) with (be 2 (algorithm_value STUN_PASSWORD_ALGORITHM_SHA256)).
    rewrite apply_algorithm by (done || by cbn; rewrite Hcl, Hreq). done.
Qed.

Lemma apply_credentials uninit l m :
  zlen uninit = 2 -> has_integrity m = false -> credentials m = stun_credentials_zero ->
  msg_class m = msg_class msg ->
  apply_attrs (credential_attributes uninit msg ++ l) (m, 0)
  = apply_attrs l (set_credentials m (received_credentials msg), received_bits msg).
Proof using Hwf.
  intros Hun Hi Hc Hcl. unfold credential_attributes, received_credentials, received_bits. cbv zeta.
  rewrite <- app_assoc, apply_user by done.
  destruct (has_auth_attributes msg) eqn:Hauth; [|done].
  assert (Hreq : STUN_IS_RESPONSE (msg_class msg) = negb (is_request msg)).
  { unfold has_auth_attributes, is_request in *. by destruct (msg_class msg). }
  destruct Hwf as [Hm _ _ _ _ _ _ (_ & Hr & _) _ _ _ _].
  rewrite <- app_assoc, apply_realm; [|done|apply Hm|done|].
  2: { cbn. unfold received_user. cbv zeta. by destruct (is_request msg), (enable_userhash (credentials msg)). }
  by rewrite apply_nonce_attributes.
Qed.

Lemma apply_integrity `{CryptoLaws} password l0 m bits :
  has_integrity m = false ->
  exists tail, integrity_attributes msg password l0 = l0 ++ tail /\
    apply_attrs tail (m, bits)
    = Some (set_has_integrity m (negb (bool_decide (msg_class msg = STUN_CLASS_INDICATION)) &&
                                 bool_decide (is_Some password)), bits) /\
    Forall (fun a => is_hmac_attr (fst a)) tail.
Proof.
  intros Hi. unfold integrity_attributes. cbv zeta. destruct (_ && _).
  2: { exists []. rewrite app_nil_r. split_and!; [done| |constructor]. cbn. by destruct m; cbn in *; subst. }
  assert (Hr : forall (hmac : list Z -> list Z -> list Z) n ty x k m' b,
    (forall x k, zlen (hmac x k) = n /\ bytes (hmac x k)) ->
    (ty = STUN_ATTR_MESSAGE_INTEGRITY /\ n = HMAC_SHA1_SIZE \/
     ty = STUN_ATTR_MESSAGE_INTEGRITY_SHA256 /\ n = HMAC_SHA256_SIZE) ->
    apply_attr (ty, hmac x k) (m', b) = Some (set_has_integrity m' true, b)).
  { intros hmac n ty x k m' b Hh Hty. destruct (Hh x k) as [Hl _]. unfold apply_attr.
    cbn [fst snd]. destruct Hty as [ [-> ->]|[-> ->] ]; cbn; rewrite andb_false_r;
      unfold read_integrity; by rewrite Hl. }
  unfold append_hmac. destruct (bool_decide _).
  - eexists. split; [done|]. cbn [apply_attrs].
    rewrite (Hr hmac_sha1 HMAC_SHA1_SIZE); [|apply hmac_sha1_digest|by left].
    split; [done|]. repeat constructor.
  - eexists. rewrite <- app_assoc. split; [done|]. cbn [app apply_attrs].
    rewrite (Hr hmac_sha1 HMAC_SHA1_SIZE); [|apply hmac_sha1_digest|by left].
    cbn [mbind option_bind].
    rewrite (Hr hmac_sha256 HMAC_SHA256_SIZE); [|apply hmac_sha256_digest|by right].
    split; [done|]. constructor; [by left|]. constructor; [by right|constructor].
Qed.

(** All attributes but the fingerprint. *)
Lemma apply_all `{CryptoLaws} uninit password :
  zlen uninit = 2 ->
  apply_attrs (all_attributes uninit msg password)
    (initial_message (class_value (msg_class msg) .| msg_method msg) (transaction_id msg), 0)
  = Some (set_has_fingerprint (received msg password) false, received_bits msg).
Proof using Hwf.
  intros Hun. destruct (wf_method _ (cwf_message _ Hwf)) as [Hme Hz].
  rewrite initial_message_encoded by done. unfold all_attributes.
  destruct (apply_integrity password (signed_attributes uninit msg)
    (set_credentials (received_plain msg) (received_credentials msg)) (received_bits msg))
    as (tail & -> & Ht & _); [done|].
  unfold signed_attributes. rewrite <- app_assoc, apply_plain, apply_credentials by done.
  rewrite Ht. done.
Qed.

End Whole.

(** ** Types of the attributes *)

(** Neither an HMAC nor the fingerprint. *)
Abbreviation ordinary := (fun a : Z * list Z => ~ is_hmac_attr (fst a) /\ fst a <> STUN_ATTR_FINGERPRINT).

Lemma ordinary_when (c : bool) type v : ordinary (type, v) -> Forall ordinary (when c (type, v)).
Proof. intros Ho. destruct c; [|constructor]. constructor; [done|constructor]. Qed.

Lemma ordinary_address tid type r :
  ~ is_hmac_attr type -> type <> STUN_ATTR_FINGERPRINT -> Forall ordinary (address_attrs tid type r).
Proof.
  intros H1 H2. unfold address_attrs. destruct (xor_address_value tid r); [|constructor].
  constructor; [done|constructor].
Qed.

Ltac ordinary_type := split; [intros [Ht|Ht]; discriminate Ht|discriminate].

Lemma signed_attributes_ordinary uninit msg : Forall ordinary (signed_attributes uninit msg).
Proof.
  unfold signed_attributes, plain_attributes, credential_attributes, user_attributes,
    nonce_attributes. cbv zeta.
  repeat match goal with
  | |- Forall _ (_ ++ _) => apply Forall_app; split
  | |- Forall _ (when _ _) => apply ordinary_when; ordinary_type
  | |- Forall _ (address_attrs _ _ _) => apply ordinary_address; [intros [Ht|Ht]; discriminate Ht|discriminate]
  | |- Forall _ (if ?b then _ else _) => destruct b
  | |- Forall _ [_] => constructor; [ordinary_type|constructor]
  | |- Forall _ [] => constructor
  end.
  - induction (peers msg) as [|p ps IH]; [constructor|]. cbn [fmap list_fmap concat].
    apply Forall_app; split; [|done].
    apply ordinary_address; [intros [Ht|Ht]; discriminate Ht|discriminate].
  - destruct (data msg); [|constructor]. constructor; [ordinary_type|constructor].
Qed.

(** ** HMAC attributes of the written message *)

Section SignedMessage.

Context `{CryptoLaws} (msg : stun_message_t) (Hwf : message_wf msg).

Lemma integrity_loop_skip (m post key : list Z) (size end_ : Z) (success : bool) (k : nat) l :
  forall pre, Forall attr_ok l -> Forall (fun a => ~ is_hmac_attr (fst a)) l ->
  m = pre ++ encode_attrs l ++ post -> zlen pre + zlen (encode_attrs l) <= end_ -> end_ <= size ->
  integrity_loop (length l + k) key m size (zlen pre) end_ success
  = integrity_loop k key m size (zlen pre + zlen (encode_attrs l)) end_ success.
Proof.
  induction l as [|a l IH]; intros pre Hok Ht Hm He Hs.
  { change (zlen (encode_attrs [])) with 0. by rewrite Z.add_0_r. }
  apply Forall_cons_1 in Hok as [Ha Hok]. apply Forall_cons_1 in Ht as [Hta Ht].
  rewrite encode_attrs_cons, zlen_app in *. rewrite <- app_assoc in Hm.
  pose proof (zlen_nonneg (encode_attrs l)). pose proof (zlen_nonneg (snd a)).
  pose proof (zlen_nonneg pre).
  assert (Hea := zlen_encode_attr a). rewrite align32_spec in Hea by done.
  destruct (load_attr_header m pre (encode_attrs l ++ post) a Ha Hm) as (L1 & L2 & _).
  cbn [length Nat.add integrity_loop]. rewrite (proj2 (Z.ltb_lt _ _)) by zlia. cbn [negb].
  rewrite L1, L2. cbn [mbind option_bind]. unfold STUN_ATTR_SIZE.
  rewrite (proj2 (Z.ltb_ge _ _)) by zlia.
  rewrite (proj2 (Z.eqb_neq _ _)) by (intros E; apply Hta; by left).
  rewrite (proj2 (Z.eqb_neq _ _)) by (intros E; apply Hta; by right).
  replace (zlen pre + 4 + align32 (zlen (snd a))) with (zlen (pre ++ encode_attr a))
    by (rewrite zlen_app, zlen_encode_attr; lia).
  rewrite (app_assoc pre) in Hm. rewrite IH; try done.
  - f_equal. rewrite zlen_app. lia.
  - rewrite zlen_app. lia.
Qed.

(** What is signed is what was there when the HMAC was computed. *)
Lemma signed_prefix_encoded N l n rest :
  0 <= n -> zlen (encode_attrs l) + STUN_ATTR_SIZE + n < 65536 ->
  signed_prefix (encode_header (msg_class msg) (msg_method msg) (transaction_id msg) N ++
                 encode_attrs l ++ rest) (sizeof_stun_header + zlen (encode_attrs l)) n
  = encode_before msg l n.
Proof using Hwf.
  intros Hn Hl. destruct (wf_tid _ Hwf) as [_ Ht]. pose proof (zlen_nonneg (encode_attrs l)).
  unfold signed_prefix, encode_before, encode_header.
  set (ty := be 2 (class_value (msg_class msg) .| msg_method msg)).
  set (mt := be 4 STUN_MAGIC ++ transaction_id msg).
  replace (sizeof_stun_header + zlen (encode_attrs l) - sizeof_stun_header + STUN_ATTR_SIZE + n)
    with (zlen (encode_attrs l) + STUN_ATTR_SIZE + n) by lia.
  set (k := zlen (encode_attrs l) + STUN_ATTR_SIZE + n) in *.
  replace (u16 k) with k by (unfold k, STUN_ATTR_SIZE in *; solve_width).
  assert (Hty : length ty = 2%nat) by apply length_be.
  assert (Hmt : zlen mt = 16) by (unfold mt; rewrite zlen_app, zlen_be; lia).
  rewrite <- !app_assoc. rewrite <- Hty at 1. rewrite take_app_length. do 2 f_equal.
  rewrite (app_assoc ty). replace 4%nat with (length (ty ++ be 2 N)) at 1
    by (rewrite length_app, length_be; lia).
  rewrite drop_app_length, (app_assoc mt).
  replace (Z.to_nat (sizeof_stun_header + zlen (encode_attrs l) - 4))
    with (length (mt ++ encode_attrs l))
    by (rewrite length_app; unfold sizeof_stun_header, zlen in *; lia).
  by rewrite take_app_length.
Qed.

(** The loop on an HMAC attribute that is valid. *)
Lemma integrity_loop_hmac (hmac : list Z -> list Z -> list Z) (n type N : Z) (key : list Z)
    (k : nat) l rest size end_ success :
  (hmac = hmac_sha1 /\ n = HMAC_SHA1_SIZE /\ type = STUN_ATTR_MESSAGE_INTEGRITY \/
   hmac = hmac_sha256 /\ n = HMAC_SHA256_SIZE /\ type = STUN_ATTR_MESSAGE_INTEGRITY_SHA256) ->
  let l' := append_hmac hmac n type key msg l in
  let m := encode_header (msg_class msg) (msg_method msg) (transaction_id msg) N ++
           encode_attrs l' ++ rest in
  Forall attr_ok l -> bytes m -> zlen (encode_attrs l') < 65536 ->
  sizeof_stun_header + zlen (encode_attrs l') <= end_ -> end_ <= size -> end_ = zlen m ->
  integrity_loop (S k) key m size (sizeof_stun_header + zlen (encode_attrs l)) end_ success
  = integrity_loop k key m size (sizeof_stun_header + zlen (encode_attrs l')) end_ true.
Proof using Hwf H0.
  intros Hh l' m Hok Hb Hl He Hs Hend. destruct (wf_tid _ Hwf) as [_ Ht].
  assert (Hd : forall x y, zlen (hmac x y) = n /\ bytes (hmac x y)).
  { destruct Hh as [(-> & -> & _)|(-> & -> & _)]; [apply hmac_sha1_digest|apply hmac_sha256_digest]. }
  assert (Hn : (n = 20 \/ n = 32) /\ 0 <= type < 65536)
    by (destruct Hh as [(_ & -> & ->)|(_ & -> & ->)]; split; unfold STUN_ATTR_MESSAGE_INTEGRITY,
          STUN_ATTR_MESSAGE_INTEGRITY_SHA256; (lia || by left) || by right).
  destruct Hn as [Hn Hty].
  set (v := hmac (encode_before msg l n) key). destruct (Hd (encode_before msg l n) key) as [Hvl Hvb].
  fold v in Hvl, Hvb.
  assert (Hl' : encode_attrs l' = encode_attrs l ++ encode_attr (type, v)).
  { unfold l', append_hmac. by rewrite encode_attrs_app, encode_attrs_one. }
  assert (Hz : zlen (encode_attr (type, v)) = 4 + n).
  { rewrite zlen_encode_attr. cbn [snd]. rewrite Hvl. destruct Hn as [-> | ->]; done. }
  rewrite Hl', zlen_app, Hz in *. pose proof (zlen_nonneg (encode_attrs l)).
  set (h := encode_header (msg_class msg) (msg_method msg) (transaction_id msg) N) in *.
  assert (Hhl : zlen h = sizeof_stun_header) by (by apply zlen_encode_header).
  assert (Hm : m = (h ++ encode_attrs l) ++ encode_attr (type, v) ++ rest)
    by (unfold m; rewrite Hl'; by rewrite <- !app_assoc).
  assert (Hpos : zlen (h ++ encode_attrs l) = sizeof_stun_header + zlen (encode_attrs l))
    by (by rewrite zlen_app, Hhl).
  destruct (load_attr_header m (h ++ encode_attrs l) rest (type, v)) as (L1 & L2 & L3);
    [split; [done|split; [done|cbn [snd]; lia] ]|done|].
  cbn [fst snd] in L1, L2, L3. rewrite Hvl, Hpos in *.
  assert (Hsp : signed_prefix m (sizeof_stun_header + zlen (encode_attrs l)) n
                = encode_before msg l n).
  { unfold m. rewrite Hl', <- app_assoc. apply signed_prefix_encoded; [lia|unfold STUN_ATTR_SIZE; lia]. }
  destruct (check_hmac_spec key m Hb hmac n (sizeof_stun_header + zlen (encode_attrs l)))
    as (b & Hc & Hiff); [done|unfold sizeof_stun_header; lia|lia|unfold sizeof_stun_header in *; lia|].
  assert (b = true) as ->.
  { apply Hiff. rewrite Hsp. exact L3. }
  cbn [integrity_loop]. rewrite (proj2 (Z.ltb_lt _ _)) by lia. cbn [negb].
  rewrite L1, L2. cbn [mbind option_bind].
  unfold STUN_ATTR_SIZE in *. rewrite (proj2 (Z.ltb_ge _ _)) by (unfold sizeof_stun_header in *; lia).
  destruct Hh as [(-> & -> & ->)|(-> & -> & ->)]; cbn [Z.eqb Pos.eqb STUN_ATTR_MESSAGE_INTEGRITY
    STUN_ATTR_MESSAGE_INTEGRITY_SHA256 HMAC_SHA1_SIZE HMAC_SHA256_SIZE negb]; rewrite Hc; f_equal;
    change (align32 HMAC_SHA1_SIZE) with HMAC_SHA1_SIZE;
    change (align32 HMAC_SHA256_SIZE) with HMAC_SHA256_SIZE; lia.
Qed.

(** From the first attribute to behind MESSAGE-INTEGRITY. *)
Lemma integrity_loop_signed (N : Z) (key : list Z) (k : nat) sgn rest size end_ :
  let l1 := append_hmac hmac_sha1 HMAC_SHA1_SIZE STUN_ATTR_MESSAGE_INTEGRITY key msg sgn in
  let m := encode_header (msg_class msg) (msg_method msg) (transaction_id msg) N ++
           encode_attrs l1 ++ rest in
  Forall attr_ok sgn -> Forall (fun a => ~ is_hmac_attr (fst a)) sgn -> bytes m ->
  zlen (encode_attrs l1) < 65536 -> end_ <= size -> end_ = zlen m ->
  integrity_loop (length sgn + S k) key m size sizeof_stun_header end_ false
  = integrity_loop k key m size (sizeof_stun_header + zlen (encode_attrs l1)) end_ true.
Proof using Hwf H0.
  intros l1 m Hok Hno Hb Hl Hs Hend. destruct (wf_tid _ Hwf) as [_ Ht].
  set (h := encode_header (msg_class msg) (msg_method msg) (transaction_id msg) N) in *.
  assert (Hh : zlen h = sizeof_stun_header) by (by apply zlen_encode_header).
  pose proof (zlen_nonneg rest). pose proof (zlen_nonneg (encode_attrs l1)).
  assert (Hz : zlen m = sizeof_stun_header + zlen (encode_attrs l1) + zlen rest)
    by (unfold m; rewrite !zlen_app, Hh; lia).
  set (x := (STUN_ATTR_MESSAGE_INTEGRITY, hmac_sha1 (encode_before msg sgn HMAC_SHA1_SIZE) key)).
  assert (Hl1 : encode_attrs l1 = encode_attrs sgn ++ encode_attr x)
    by (unfold l1, append_hmac; by rewrite encode_attrs_app, encode_attrs_one).
  pose proof (zlen_nonneg (encode_attr x)).
  assert (Hle : zlen (encode_attrs sgn) <= zlen (encode_attrs l1)) by (rewrite Hl1, zlen_app; lia).
  pose proof (integrity_loop_skip m (encode_attr x ++ rest) key size end_ false (S k) sgn h) as Hskip.
  rewrite Hh in Hskip. rewrite Hskip by (done || lia || (unfold m; by rewrite Hl1, <- app_assoc)).
  apply integrity_loop_hmac; try done; [by left|fold l1; lia].
Qed.

End SignedMessage.

(** ** The fingerprint *)

Section Message.

Context `{CryptoLaws} (uninit : list Z) (Huninit : bytes uninit /\ zlen uninit = 2).
Context (msg : stun_message_t) (Hwf : message_wf msg) (password : option (list Z)).

Abbreviation attrs := (all_attributes uninit msg password).
Abbreviation e := (encode_message uninit msg password).

Context (Hsize : zlen e < 65536).

Lemma encode_message_shape :
  exists n, e = encode_header (msg_class msg) (msg_method msg) (transaction_id msg) n ++
                encode_attrs attrs ++ encode_attr (fingerprint_attr msg attrs) /\
    n = zlen (encode_attrs attrs) + 8 /\ 0 <= n < 65536 /\
    zlen e = sizeof_stun_header + n.
Proof using Hwf Hsize.
  pose proof (zlen_encode_message uninit msg Hwf password) as Hz.
  pose proof (zlen_nonneg (encode_attrs attrs)).
  exists (zlen (encode_attrs attrs) + STUN_ATTR_SIZE + 4). split_and!.
  - unfold encode_message, encode_before. by rewrite <- app_assoc.
  - unfold STUN_ATTR_SIZE. lia.
  - unfold STUN_ATTR_SIZE. lia.
  - unfold STUN_ATTR_SIZE, sizeof_stun_header in *. lia.
  - unfold STUN_ATTR_SIZE in *. lia.
Qed.

Lemma encode_message_bytes : bytes e.
Proof using Hwf Huninit H0.
  unfold encode_message. apply Forall_app; split.
  - apply encode_before_bytes; [done|]. by apply all_attributes_ok.
  - apply encode_attr_bytes. apply be_ok; [done|lia].
Qed.

(** The header length is that of the whole message already, so setting it for
    the fingerprint changes nothing. *)
Lemma check_fingerprint_encoded :
  check_fingerprint e (sizeof_stun_header + zlen (encode_attrs attrs)) = Some (e, true).
Proof using Hwf Huninit H0 Hsize.
  destruct encode_message_shape as (n & He & Hn & Hnb & Hz).
  destruct (wf_tid _ Hwf) as [_ Ht]. unfold check_fingerprint.
  replace (sizeof_stun_header + zlen (encode_attrs attrs) - sizeof_stun_header +
           STUN_ATTR_SIZE + 4) with n by (unfold STUN_ATTR_SIZE; lia).
  rewrite He, !update_length_spec by done. cbn [mbind option_bind].
  assert (Hb : encode_before msg attrs 4 =
    encode_header (msg_class msg) (msg_method msg) (transaction_id msg) n ++ encode_attrs attrs).
  { unfold encode_before. by replace (zlen (encode_attrs attrs) + STUN_ATTR_SIZE + 4) with n
      by (unfold STUN_ATTR_SIZE; lia). }
  assert (Hl : zlen (encode_before msg attrs 4) = sizeof_stun_header + zlen (encode_attrs attrs)).
  { by rewrite Hb, zlen_app, zlen_encode_header. }
  rewrite app_assoc, <- Hb, <- Hl, load_prefix. cbn [mbind option_bind].
  assert (Hbb : bytes (encode_before msg attrs 4))
    by (apply encode_before_bytes; [done|by apply all_attributes_ok]).
  rewrite juice_crc32_fold by done. cbn [mbind option_bind].
  change (crc_fold CRC32_INIT (encode_before msg attrs 4) .^ CRC32_XOR)
    with (crc32_ref (encode_before msg attrs 4)).
  rewrite Hb, <- app_assoc, update_length_spec by done. cbn [mbind option_bind].
  rewrite app_assoc, <- Hb.
  set (x := crc32_ref (encode_before msg attrs 4) .^ STUN_FINGERPRINT_XOR).
  assert (Hx : 0 <= x < 2 ^ 32).
  { apply (lxor_bound 32); [lia| |unfold STUN_FINGERPRINT_XOR; lia].
    apply (lxor_bound 32); [lia| |unfold CRC32_XOR; lia].
    change (is_u32 (crc_fold CRC32_INIT (encode_before msg attrs 4))).
    apply crc_fold_u32; [unfold is_u32, CRC32_INIT; lia|done]. }
  destruct (load_attr_header (encode_before msg attrs 4 ++ encode_attr (fingerprint_attr msg attrs))
    (encode_before msg attrs 4) [] (fingerprint_attr msg attrs)) as (_ & _ & Hv).
  { apply be_ok; [done|lia]. }
  { by rewrite app_nil_r. }
  cbn [snd fingerprint_attr] in Hv. rewrite zlen_be in Hv. fold x in Hv.
  unfold load32. change (Z.of_nat 4) with 4 in Hv. rewrite Hv.
  cbn [fmap option_fmap option_map mbind option_bind].
  rewrite unbe_be_small by done. by rewrite Z.eqb_refl.
Qed.

Lemma encode_attrs_length (l : list (Z * list Z)) : 4 * zlen l <= zlen (encode_attrs l).
Proof.
  induction l as [|a l IH]; [done|]. rewrite encode_attrs_cons, zlen_app, zlen_cons, zlen_encode_attr.
  pose proof (zlen_nonneg (snd a)). rewrite align32_spec by done. zlia.
Qed.

Lemma all_attributes_types : Forall (fun a => fst a <> STUN_ATTR_FINGERPRINT) attrs.
Proof using H0.
  unfold all_attributes.
  destruct (apply_integrity msg password (signed_attributes uninit msg) stun_message_zero 0)
    as (tail & -> & _ & Ht); [done|].
  apply Forall_app; split.
  - eapply Forall_impl; [|apply signed_attributes_ordinary]. by intros a [_ ?].
  - eapply Forall_impl; [|exact Ht]. intros a [-> | ->]; discriminate.
Qed.

(** The header fields of the written message. *)
Lemma load_header n body :
  0 <= n < 65536 ->
  let m := encode_header (msg_class msg) (msg_method msg) (transaction_id msg) n ++ body in
  load16 m 0 = Some (class_value (msg_class msg) .| msg_method msg) /\
  load16 m 2 = Some n /\ load m 8 STUN_TRANSACTION_ID_SIZE = Some (transaction_id msg).
Proof using Hwf.
  intros Hn. destruct (wf_tid _ Hwf) as [_ Ht]. destruct (wf_method _ Hwf) as [Hme _].
  unfold encode_header. cbv zeta. set (ty := class_value (msg_class msg) .| msg_method msg).
  assert (Hty : 0 <= ty < 65536).
  { apply (lor_bound 16); [lia| |lia]. by destruct (msg_class msg). }
  rewrite <- !app_assoc. unfold load16. split_and!.
  - rewrite (load_split_eq _ [] (be 2 ty) (be 2 n ++ be 4 STUN_MAGIC ++ transaction_id msg ++ body) 0 2);
      [|done|done|by rewrite zlen_be].
    cbn [fmap option_fmap option_map]. by rewrite unbe_be_small.
  - rewrite (load_split_eq _ (be 2 ty) (be 2 n) (be 4 STUN_MAGIC ++ transaction_id msg ++ body) 2 2);
      [|done|by rewrite zlen_be|by rewrite zlen_be].
    cbn [fmap option_fmap option_map]. by rewrite unbe_be_small.
  - apply (load_split_eq _ (be 2 ty ++ be 2 n ++ be 4 STUN_MAGIC) (transaction_id msg) body).
    + by rewrite <- !app_assoc.
    + by rewrite !zlen_app, !zlen_be.
    + by rewrite Ht.
Qed.

Lemma read_fingerprint_encoded m bits :
  has_fingerprint m = false ->
  stun_read_attr (sizeof_stun_header + zlen (encode_attrs attrs)) 8
    {| mem := e; rmsg := m; security_bits := bits |}
  = Some (8, {| mem := e; rmsg := set_has_fingerprint m true; security_bits := bits |}).
Proof using Hwf Huninit H0 Hsize.
  intros Hfp. destruct encode_message_shape as (n & He & _). destruct (wf_tid _ Hwf) as [_ Ht].
  set (fp := fingerprint_attr msg attrs) in *.
  assert (Hok : attr_ok fp) by (apply be_ok; [done|lia]).
  destruct (load_attr_header e
    (encode_header (msg_class msg) (msg_method msg) (transaction_id msg) n ++ encode_attrs attrs)
    [] fp Hok) as (L1 & L2 & L3).
  { by rewrite He, app_nil_r, <- app_assoc. }
  rewrite zlen_app, zlen_encode_header in L1, L2, L3 by done.
  assert (Hl : zlen (snd fp) = 4) by (unfold fp, fingerprint_attr; cbn [snd]; by rewrite zlen_be).
  rewrite Hl in *. unfold stun_read_attr. cbn [rmsg mem security_bits]. rewrite Hfp, L1, L2.
  cbn [mbind option_bind]. change (8 <? STUN_ATTR_SIZE) with false.
  change (8 <? STUN_ATTR_SIZE + 4) with false. cbn [fst fp fingerprint_attr].
  change (after_integrity STUN_ATTR_FINGERPRINT) with true. rewrite andb_false_r, L3.
  cbn [mbind option_bind]. rewrite Z.eqb_refl, check_fingerprint_encoded. done.
Qed.

(** The reader on the written message. *)
Lemma stun_read_encoded :
  carried_wf msg ->
  stun_read e (zlen e)
  = Some (zlen e, e,
      set_userhash_support (validate_request (validate_response (received msg password)
        (received_bits msg))) (received_bits msg)).
Proof using Hwf Huninit H0 Hsize.
  intros Hcw. destruct encode_message_shape as (n & He & Hn & Hnb & Hz).
  destruct (wf_tid _ Hwf) as [Htb Ht]. destruct (wf_method _ Hwf) as [Hme _].
  destruct Huninit as [_ Hun].
  pose proof (load_header n (encode_attrs attrs ++ encode_attr (fingerprint_attr msg attrs)) Hnb)
    as (L1 & L2 & L3). cbv zeta in *. rewrite <- He in L1, L2, L3.
  unfold stun_read. rewrite Hz. unfold sizeof_stun_header at 1 2.
  rewrite (proj2 (Z.ltb_ge _ _)) by lia. rewrite L2. cbn [mbind option_bind].
  rewrite Z.ltb_irrefl, L1. cbn [mbind option_bind]. rewrite L3. cbn [mbind option_bind].
  pose proof (encode_attrs_length attrs) as Hlen. pose proof (zlen_nonneg (encode_attrs attrs)).
  set (h := encode_header (msg_class msg) (msg_method msg) (transaction_id msg) n) in *.
  assert (Hh : zlen h = sizeof_stun_header) by (by apply zlen_encode_header).
  replace (S (Z.to_nat n)) with (length attrs + S (S (Z.to_nat n - length attrs - 1)))%nat
    by (unfold zlen in *; lia).
  rewrite <- Hh at 1.
  destruct (read_loop_encoded e (encode_attr (fingerprint_attr msg attrs))
    (sizeof_stun_header + n) (S (S (Z.to_nat n - length attrs - 1))) attrs h
    (initial_message (class_value (msg_class msg) .| msg_method msg) (transaction_id msg)) 0
    (set_has_fingerprint (received msg password) false, received_bits msg)) as (-> & Hw & Hfp).
  { by apply all_attributes_ok. } { apply all_attributes_types. } { done. } { rewrite Hh. lia. }
  { apply initial_message_wf; [|done|done]. apply (lor_bound 16); [lia| |lia]. by destruct (msg_class msg). }
  { done. } { by apply apply_all. }
  rewrite Hh. cbn [fst snd]. cbn [read_loop].
  rewrite (proj2 (Z.ltb_lt _ _)) by lia. cbn [negb].
  set (R := received msg password) in *.
  assert (Hfpr : stun_read_attr (sizeof_stun_header + zlen (encode_attrs attrs))
     (sizeof_stun_header + n - (sizeof_stun_header + zlen (encode_attrs attrs)))
     {| mem := e; rmsg := set_has_fingerprint R false; security_bits := received_bits msg |}
   = Some (8, {| mem := e; rmsg := R; security_bits := received_bits msg |})).
  { rewrite Hn. replace (sizeof_stun_header + (zlen (encode_attrs attrs) + 8) -
      (sizeof_stun_header + zlen (encode_attrs attrs))) with 8 by lia.
    by rewrite read_fingerprint_encoded. }
  rewrite Hfpr. cbn [mbind option_bind Z.leb Z.compare].
  rewrite (proj2 (Z.ltb_ge _ _)) by lia. cbn [negb mbind option_bind mem rmsg security_bits]. done.
Qed.

(** The fingerprint is no HMAC, and the loop ends behind it. *)
Lemma integrity_loop_last key (k : nat) :
  integrity_loop (S (S k)) key e (zlen e) (sizeof_stun_header + zlen (encode_attrs attrs))
    (zlen e) true = Some (e, true).
Proof using Hwf Hsize.
  destruct encode_message_shape as (n & He & Hn & Hnb & Hz). destruct (wf_tid _ Hwf) as [_ Ht].
  set (h := encode_header _ _ _ n) in *. set (fp := fingerprint_attr msg attrs) in *.
  assert (Hh : zlen h = sizeof_stun_header) by (by apply zlen_encode_header).
  assert (Hf : zlen (encode_attr fp) = 8).
  { rewrite zlen_encode_attr. unfold fp, fingerprint_attr. cbn [snd]. by rewrite zlen_be. }
  pose proof (integrity_loop_skip e [] key (zlen e) (zlen e) true (S k) [fp]
                (h ++ encode_attrs attrs)) as Hskip.
  rewrite encode_attrs_one, zlen_app, Hh, Hf in Hskip. cbn [length Nat.add] in Hskip.
  rewrite Hskip; clear Hskip.
  - cbn [integrity_loop]. by rewrite (proj2 (Z.ltb_ge _ _)) by lia.
  - constructor; [|constructor]. apply be_ok; [done|lia].
  - constructor; [|constructor]. intros [E|E]; discriminate E.
  - by rewrite He, app_nil_r, <- app_assoc.
  - lia.
  - done.
Qed.

Lemma stun_check_integrity_encoded msg' password' :
  has_integrity msg' = true -> msg_class msg <> STUN_CLASS_INDICATION -> is_Some password ->
  generate_hmac_key msg' password' = generate_hmac_key msg password ->
  stun_check_integrity e (zlen e) msg' password' = Some (e, true).
Proof using Hwf Huninit H0 Hsize.
  intros Hi Hcl Hpw Hkey. destruct encode_message_shape as (n & He & Hn & Hnb & Hz).
  pose proof (load_header n (encode_attrs attrs ++ encode_attr (fingerprint_attr msg attrs)) Hnb)
    as (_ & L2 & _). cbv zeta in L2. rewrite <- He in L2.
  unfold stun_check_integrity. rewrite Hi, L2, Hkey. cbn [negb mbind option_bind].
  rewrite <- Hz, Z.ltb_irrefl. pose proof encode_message_bytes as Hb.
  destruct (wf_tid _ Hwf) as [_ Ht].
  set (key := generate_hmac_key msg password). set (sgn := signed_attributes uninit msg).
  assert (Hok : Forall attr_ok sgn) by exact (proj1 (signed_attributes_writes uninit Huninit msg Hwf 0 ltac:(lia))).
  assert (Hno : Forall (fun a => ~ is_hmac_attr (fst a)) sgn)
    by (eapply Forall_impl; [|apply signed_attributes_ordinary]; by intros a [? _]).
  set (l1 := append_hmac hmac_sha1 HMAC_SHA1_SIZE STUN_ATTR_MESSAGE_INTEGRITY key msg sgn).
  set (l2 := append_hmac hmac_sha256 HMAC_SHA256_SIZE STUN_ATTR_MESSAGE_INTEGRITY_SHA256 key msg l1).
  assert (Hattrs : attrs = l1 \/ attrs = l2).
  { unfold all_attributes, integrity_attributes. cbv zeta.
    rewrite bool_decide_eq_false_2, bool_decide_eq_true_2 by done. cbn [negb andb].
    destruct (bool_decide _); [by left|by right]. }
  pose proof (encode_attrs_length attrs) as Hlen. pose proof all_attributes_ok as Hall.
  specialize (Hall uninit Huninit msg Hwf password).
  set (fp := encode_attr (fingerprint_attr msg attrs)) in *.
  destruct Hattrs as [Ha|Ha]; rewrite Ha in He, Hn, Hlen, Hall.
  - assert (Hln : length l1 = (length sgn + 1)%nat) by (unfold l1, append_hmac; by rewrite length_app).
    replace (S (Z.to_nat n)) with (length sgn + S (S (S (Z.to_nat n - length sgn - 2))))%nat
      by (unfold zlen in *; lia).
    pose proof (integrity_loop_signed msg Hwf n key (S (S (Z.to_nat n - length sgn - 2))) sgn fp
                  (zlen e) (zlen e)) as Hs.
    cbv zeta in Hs. fold l1 in Hs. rewrite <- He in Hs. rewrite Hs by (done || lia).
    rewrite <- Ha. apply integrity_loop_last.
  - assert (Hln : length l2 = (length sgn + 2)%nat)
      by (unfold l2, l1, append_hmac; rewrite !length_app; cbn; lia).
    replace (S (Z.to_nat n)) with (length sgn + S (S (S (S (Z.to_nat n - length sgn - 3)))))%nat
      by (unfold zlen in *; lia).
    set (x := (STUN_ATTR_MESSAGE_INTEGRITY_SHA256,
               hmac_sha256 (encode_before msg l1 HMAC_SHA256_SIZE) key)).
    assert (Hl2 : encode_attrs l2 = encode_attrs l1 ++ encode_attr x)
      by (unfold l2, append_hmac; by rewrite encode_attrs_app, encode_attrs_one).
    pose proof (zlen_nonneg (encode_attr x)).
    assert (Hle : zlen (encode_attrs l1) <= zlen (encode_attrs l2)) by (rewrite Hl2, zlen_app; lia).
    assert (He1 : e = encode_header (msg_class msg) (msg_method msg) (transaction_id msg) n ++
                      encode_attrs l1 ++ encode_attr x ++ fp) by (rewrite He, Hl2; by rewrite <- !app_assoc).
    pose proof (integrity_loop_signed msg Hwf n key (S (S (S (Z.to_nat n - length sgn - 3)))) sgn
                  (encode_attr x ++ fp) (zlen e) (zlen e)) as Hs.
    cbv zeta in Hs. fold l1 in Hs. rewrite <- He1 in Hs. rewrite Hs by (done || lia).
    unfold l2, append_hmac in Hall. apply Forall_app in Hall as [Hok1 _].
    pose proof (integrity_loop_hmac msg Hwf hmac_sha256 HMAC_SHA256_SIZE
      STUN_ATTR_MESSAGE_INTEGRITY_SHA256 n key (S (S (Z.to_nat n - length sgn - 3))) l1 fp
      (zlen e) (zlen e) true) as Hs2.
    cbv zeta in Hs2. fold l2 in Hs2. rewrite <- He in Hs2.
    rewrite Hs2 by (done || lia || by right). rewrite <- Ha. apply integrity_loop_last.
Qed.

End Message.

(** ** Theorems *)

(** The message that is read back when [msg] was written: its fields, then the checks
    RFC 8489 asks for. *)
Definition read_back (msg : stun_message_t) (password : option (list Z)) : stun_message_t :=
  set_userhash_support (validate_request (validate_response (received msg password) (received_bits msg))) (received_bits msg).

Lemma read_back_integrity msg password : has_integrity (read_back msg password) = has_integrity (received msg password).
Proof.
  unfold read_back, set_userhash_support, validate_request, validate_response, with_credentials.
  repeat (case_match; try done).
Qed.

(** What [stun_write] leaves in the buffer. *)
Lemma written `{CryptoLaws} (uninit m : list Z) msg password :
  message_wf msg -> bytes uninit /\ zlen uninit = 2 -> let e := encode_message uninit msg password in
  zlen e <= zlen m < 2 ^ 31 -> zlen e < 65536 ->
  exists buffer, stun_write (zlen m) uninit m msg password = Some (zlen e, Some buffer) /\ take (Z.to_nat (zlen e)) buffer = e.
Proof.
  intros Hw Hu e Hm He. destruct (stun_write_spec uninit Hu msg Hw password m Hm He) as (rest & Hr & _).
  exists (e ++ rest). split; [exact Hr|]. unfold zlen. rewrite Nat2Z.id. apply take_app_length.
Qed.

(** C13: what [stun_write] writes, [stun_read] reads back as the same message: every
    field that an attribute carries has its value again, addresses un-masked, strings
    whole, with the fingerprint verified, followed by the checks RFC 8489 asks for on
    password algorithms; a success response comes back exactly.  This is for messages
    whose numbers fit their attributes (an error code is below 800), whose strings are
    C strings within their limits, whose user hash is complete, which have no more peer
    addresses than are read and no EVEN-PORT (that is written under another type), and
    whose list of password algorithms is the library's if an algorithm is set; the
    buffer must be large enough for the message, and the message shorter than 64 KiB. *)
Theorem stun_roundtrip `{CryptoLaws} (uninit m : list Z) (msg : stun_message_t)
    (password : option (list Z)) :
  carried_wf msg -> bytes uninit /\ zlen uninit = 2 ->
  zlen (encode_message uninit msg password) <= zlen m < 2 ^ 31 -> zlen (encode_message uninit msg password) < 65536 ->
  exists n buffer, stun_write (zlen m) uninit m msg password = Some (n, Some buffer) /\ 0 < n /\
    let d := take (Z.to_nat n) buffer in
    zlen d = n /\ stun_read d n = Some (n, d, read_back msg password) /\
    (msg_class msg = STUN_CLASS_RESP_SUCCESS -> read_back msg password = received msg password).
Proof.
  intros Hc Hu Hm He. destruct (written uninit m msg password (cwf_message _ Hc) Hu Hm He) as (buffer & Hw & Htake).
  exists (zlen (encode_message uninit msg password)), buffer. split; [exact Hw|]. rewrite Htake.
  destruct (encode_message_shape uninit msg (cwf_message _ Hc) password He) as (n & _ & Hn & _ & Hz).
  split; [rewrite Hz; unfold sizeof_stun_header; pose proof (zlen_nonneg (encode_attrs (all_attributes uninit msg password))); lia|].
  split; [done|]. split; [exact (stun_read_encoded uninit Hu msg (cwf_message _ Hc) password He Hc)|]. intros Hcl.
  assert (Hb : received_bits msg = 0).
  { unfold received_bits, has_auth_attributes, is_request. by rewrite Hcl. }
  assert (Hv : forall m b, msg_class m = STUN_CLASS_RESP_SUCCESS ->
                           validate_request (validate_response m b) = m).
  { intros m' b Hm'. unfold validate_response. rewrite bool_decide_eq_false_2 by (by rewrite Hm').
    cbn [andb]. unfold validate_request. by rewrite Hm'. }
  unfold read_back. by rewrite Hb, Hv.
Qed.

Lemma example_request_carried : carried_wf example_request.
Proof.
  constructor; cbn; try lia; try done.
  - apply example_request_wf.
  - split_and!; repeat constructor; discriminate.
Qed.

Lemma stun_roundtrip_witness : exists n buffer,
  @stun_write sum_crypto 256 [0; 0] (replicate 256 0) example_request (Some (str "secret")) = Some (n, Some buffer) /\ 0 < n /\
  exists msg, stun_read (take (Z.to_nat n) buffer) n = Some (n, take (Z.to_nat n) buffer, msg) /\
    peers msg = peers example_request /\ data msg = Some [1; 2; 3] /\
    username (credentials msg) = str "abcd:efgh" /\ has_integrity msg = true.
Proof.
  destruct (@stun_roundtrip sum_crypto sum_crypto_laws [0; 0] (replicate 256 0) example_request (Some (str "secret")))
    as (n & buffer & Hw & Hn & _ & Hr & _).
  - apply example_request_carried.
  - split; [by apply bytes_forallb|reflexivity].
  - vm_compute. split; discriminate || reflexivity.
  - by vm_compute.
  - exists n, buffer. split; [exact Hw|]. split; [exact Hn|]. eexists. split; [exact Hr|]. vm_compute. repeat split.
Defined.

(** C34: what [stun_write] writes with a password, [stun_read] and then
    [stun_check_integrity] accept, for every reader that derives the same key, that is,
    one with the same password and the same user name, realm and password algorithm.
    This is for requests and responses (an indication carries no HMAC), with the same
    conditions on the message and the buffer as for reading it back. *)
Theorem stun_integrity_roundtrip `{CryptoLaws} (uninit m : list Z) (msg : stun_message_t) (password : list Z) :
  carried_wf msg -> bytes uninit /\ zlen uninit = 2 -> msg_class msg <> STUN_CLASS_INDICATION ->
  zlen (encode_message uninit msg (Some password)) <= zlen m < 2 ^ 31 -> zlen (encode_message uninit msg (Some password)) < 65536 ->
  exists n buffer, stun_write (zlen m) uninit m msg (Some password) = Some (n, Some buffer) /\
    let d := take (Z.to_nat n) buffer in
    let msg' := read_back msg (Some password) in
    stun_read d n = Some (n, d, msg') /\
    forall password', generate_hmac_key msg' password' = generate_hmac_key msg (Some password) ->
      stun_check_integrity d n msg' password' = Some (d, true).
Proof.
  intros Hc Hu Hcl Hm He. destruct (written uninit m msg (Some password) (cwf_message _ Hc) Hu Hm He) as (buffer & Hw & Htake).
  eexists _, buffer. split; [exact Hw|]. rewrite Htake.
  split; [exact (stun_read_encoded uninit Hu msg (cwf_message _ Hc) (Some password) He Hc)|]. intros password' Hk.
  apply (stun_check_integrity_encoded uninit Hu msg (cwf_message _ Hc) (Some password) He); [|done|done|exact Hk].
  rewrite read_back_integrity. cbn. by rewrite bool_decide_eq_false_2.
Qed.

Lemma stun_integrity_roundtrip_witness :
  let msg' := read_back example_request (Some (str "secret")) in
  exists n buffer,
  @stun_write sum_crypto 256 [0; 0] (replicate 256 0) example_request (Some (str "secret")) = Some (n, Some buffer) /\
  stun_read (take (Z.to_nat n) buffer) n = Some (n, take (Z.to_nat n) buffer, msg') /\
  @stun_check_integrity sum_crypto (take (Z.to_nat n) buffer) n msg' (Some (str "secret")) = Some (take (Z.to_nat n) buffer, true).
Proof.
  destruct (@stun_integrity_roundtrip sum_crypto sum_crypto_laws [0; 0] (replicate 256 0) example_request (str "secret"))
    as (n & buffer & Hw & Hr & Hk).
  - apply example_request_carried.
  - split; [by apply bytes_forallb|reflexivity].
  - discriminate.
  - vm_compute. split; discriminate || reflexivity.
  - by vm_compute.
  - exists n, buffer. split; [exact Hw|]. split; [exact Hr|]. apply Hk. reflexivity.
Defined.

(** A written message is recognised as a STUN datagram, with any bytes of
    the buffer after it left out of the size. *)
Theorem stun_write_is_datagram `{CryptoLaws} (uninit : list Z) (msg : stun_message_t)
    (password : option (list Z)) :
  message_wf msg -> msg_method msg < 2 ^ 14 -> bytes uninit /\ zlen uninit = 2 ->
  let e := encode_message uninit msg password in
  zlen e < 65536 -> is_stun_datagram e (zlen e) = Some true.
Proof.
  intros Hw Hme Hu e He.
  destruct (encode_message_shape uninit msg Hw password He) as (n & Hsh & Hn & Hnb & Hz).
  destruct (load_header msg Hw n (encode_attrs (all_attributes uninit msg password) ++
    encode_attr (fingerprint_attr msg (all_attributes uninit msg password))) Hnb) as (_ & L2 & _).
  rewrite <- Hsh in L2. fold e in L2, Hsh, Hz.
  pose proof (encode_attrs_aligned (all_attributes uninit msg password)).
  destruct (wf_method _ Hw) as [Hm0 _]. destruct (wf_tid _ Hw) as [_ Ht].
  unfold is_stun_datagram. rewrite Hz. unfold sizeof_stun_header in *.
  rewrite (proj2 (Z.eqb_neq _ _)) by lia.
  set (ty := class_value (msg_class msg) .| msg_method msg).
  assert (Hty : 0 <= ty < 2 ^ 14) by (apply (lor_bound 14); [lia|by destruct (msg_class msg)|lia]).
  assert (Htop : load8 e 0 = Some (ty / 256)).
  { apply (load8_at _ [] (drop 1 e)); [|done]. rewrite Hsh. unfold encode_header.
    cbn [be app drop]. f_equal. fold ty. zlia. }
  rewrite Htop. cbn [mbind option_bind].
  assert (E0 : ty / 256 .& 192 = 0).
  { apply Z.bits_inj'. intros i Hi. rewrite Z.land_spec, Z.bits_0.
    destruct (Z.lt_ge_cases i 6) as [Hi6|Hi6].
    - assert (i = 0 \/ i = 1 \/ i = 2 \/ i = 3 \/ i = 4 \/ i = 5) as Hc by lia.
      destruct Hc as [-> | [-> | [-> | [-> | [-> | ->] ] ] ] ]; apply andb_false_r.
    - rewrite (bits_above 6); [done|lia|zlia|lia]. }
  rewrite E0. cbn [Z.eqb negb]. rewrite (proj2 (Z.ltb_ge _ _)) by lia.
  assert (Hmagic : load32 e 4 = Some STUN_MAGIC).
  { unfold load32. rewrite (load_split_eq e (be 2 ty ++ be 2 n) (be 4 STUN_MAGIC)
      (drop 8 e) 4 4); [by cbn| |by rewrite zlen_app, !zlen_be|by rewrite zlen_be].
    rewrite Hsh. unfold encode_header. fold ty. by rewrite <- !app_assoc. }
  rewrite Hmagic, L2. cbn [mbind option_bind]. rewrite Z.eqb_refl, land_3. cbn [negb].
  rewrite (proj2 (Z.eqb_eq (n mod 4) 0)) by zlia. by rewrite Z.eqb_refl.
Qed.

Lemma stun_write_is_datagram_witness :
  is_stun_datagram (@encode_message sum_crypto [0; 0] example_request None) 100 = Some true.
Proof.
  apply (@stun_write_is_datagram sum_crypto sum_crypto_laws [0; 0] example_request None).
  - apply example_request_wf.
  - by vm_compute.
  - split; [by apply bytes_forallb|reflexivity].
  - by vm_compute.
Defined.

(** A request with EVEN-PORT cannot be read back: the attribute is written
    with the type of CHANNEL-NUMBER and one byte of value, which the reader
    rejects. *)
Theorem stun_even_port_unreadable :
  let msg := set_even_port (set_requested_transport
               (set_msg_method stun_message_zero STUN_METHOD_ALLOCATE) true) true in
  let e := @encode_message sum_crypto [0; 0] msg None in
  exists msg', stun_read e (zlen e) = Some (-1, e, msg').
Proof. eexists. vm_compute. reflexivity. Qed.
