(* ===== verification/HashCrypto.v ===== *)
(** * STUN with the hash functions of the library

    The standard hash functions as an instance of the interface [Crypto] of the STUN
    model, and the messages of the test of the STUN codec (test/stun.c) under it. *)

From S2P Require Import Prelude HashSpec Hash HashMd5 HashSha1 HashSha256 HashCorrect.
From S2P Require Import CText Addr StunTypes StunWrite StunRead.

Definition standard_crypto : Crypto := {|
  StunTypes.hmac_sha1 := hmac sha1;
  StunTypes.hmac_sha256 := hmac sha256;
  StunTypes.juice_hash_md5 := md5;
  StunTypes.juice_hash_sha256 := sha256
|}.

#[export] Instance standard_crypto_laws : @CryptoLaws standard_crypto.
Proof.
  split; intros; [apply sha1_digest_size|apply (sha2_digest_size sha256_H 8); lia|apply md5_digest_size
    |apply (sha2_digest_size sha256_H 8); lia].
Qed.

(** ** The messages of the test *)

Definition message1 : list Z :=
  be 16 0x000100582112a442b7e7a701bc34d686 ++
  be 16 0xfa87dfae802200105354554e20746573 ++
  be 16 0x7420636c69656e74002400046e0001ff ++
  be 16 0x80290008932ff9b151263b3600060009 ++
  be 16 0x6576746a3a6836765920202000080014 ++
  be 16 0x9aeaa70cbfd8cb56781ef2b5b2d3f249 ++
  be 12 0xc1b571a280280004e57a3bcf.

Definition message2 : list Z :=
  be 16 0x000100902112a44278ad3433c6ad72c0 ++
  be 16 0x29da412e001e00204a3cf38fef6992bd ++
  be 16 0xa952c6780417da0f24819415569e60b2 ++
  be 16 0x05c46e41407f1704001500296f624d61 ++
  be 16 0x744a6f733241414143662f2f3439396b ++
  be 16 0x39353464364f4c33346f4c3946535476 ++
  be 16 0x79363473410000000014000b6578616d ++
  be 16 0x706c652e6f726700001d000400020000 ++
  be 16 0x001c0020b5c7bf005b6c52a21c51c5e8 ++
  be 16 0x92f81924136296cb927c43149309278c ++
  be 4 0xc6518e65.

(** The user name of the second message, in UTF-8. *)
Definition matrix : list Z := be 18 0xe3839ee38388e383aae38383e382afe382b9.

(** What [stun_read] returns and stores, and what [stun_check_integrity] says. *)
Definition read_result (m : list Z) : option Z := (fun r => fst (fst r)) <$> stun_read m (zlen m).
Definition received (m : list Z) : stun_message_t :=
  match stun_read m (zlen m) with Some (_, _, msg) => msg | None => stun_message_zero end.
Definition verifies (m : list Z) (msg : stun_message_t) (password : list Z) : option bool :=
  snd <$> @stun_check_integrity standard_crypto m (zlen m) msg (Some password).

(** The test of the STUN codec passes in the model with the standard hash
    functions: the sample request of RFC 5769 is read with its transaction, priority and
    ICE-CONTROLLED attributes, its fingerprint and its HMAC-SHA1 verify under its
    password and not under another one; the sample request with a long-term credential
    is read with its user hash, realm and nonce, its HMAC-SHA256 verifies for the user,
    and its missing PASSWORD-ALGORITHMS is reported as a validation error. *)
Theorem stun_test_vectors :
  let msg1 := received message1 in
  let msg2 := received message2 in
  read_result message1 = Some (zlen message1) /\
  (msg_class msg1, msg_method msg1, transaction_id msg1) = (STUN_CLASS_REQUEST, STUN_METHOD_BINDING, take 12 (drop 8 message1)) /\
  (priority msg1, ice_controlled msg1, has_integrity msg1, has_fingerprint msg1, error_code msg1)
  = (0x6e0001ff, 0x932ff9b151263b36, true, true, 0) /\
  verifies message1 msg1 (str "VOkJxbRl1RmTxUk/WvJxBt") = Some true /\
  verifies message1 msg1 (str "VOkJxbRl1RmTxUk/WvJxBu") = Some false /\
  read_result message2 = Some (zlen message2) /\
  (enable_userhash (credentials msg2), userhash (credentials msg2), realm (credentials msg2), nonce (credentials msg2))
  = (true, take 32 (drop 24 message2), str "example.org", str "obMatJos2AAACf//499k954d6OL34oL9FSTvy64sA") /\
  error_code msg2 = STUN_ERROR_INTERNAL_VALIDATION_FAILED /\
  verifies message2 (set_credentials msg2 (set_username (credentials msg2) matrix)) (str "TheMatrIX") = Some true.
Proof. cbv zeta. split_and!; by vm_compute. Qed.
