(* ===== verification/Turn.v ===== *)
(** * TURN state (src/turn.c, src/turn.h)

    ChannelData framing and the map of permissions and channels of a TURN
    allocation: an open-addressing hash table of entries with two ordered arrays
    of pointers into it.  A pointer to an entry is its index in the table, and
    the arrays are the lists of their used elements.  An access outside an array
    is [None].  The time is a parameter of each operation, and [record] is
    [None] where the code allows NULL. *)

From stdpp Require Import sorting.
From S2P Require Import Prelude CText Addr.

(** ** ChannelData *)

Definition sizeof_channel_data_header : Z := 4.

Definition random_channel_number (r : Z) : Z := 0x4000 .| (r .& 0x0FFF).

Definition is_channel_data (m : list Z) (size : Z) : option bool :=
  if size =? 0 then Some false
  else b ← load8 m 0; Some ((64 <=? b) && (b <=? 79)).

Definition is_valid_channel (channel : Z) : bool := 0x4000 <=? channel.

(** [data] is the [data_size] bytes at the pointer, read before anything is
    written ([memmove]). *)
Definition turn_wrap_channel_data (buffer : list Z) (size : Z) (data : list Z) (channel : Z)
  : option (Z * list Z) :=
  let data_size := zlen data in
  if negb (is_valid_channel channel) then Some (-1, buffer)
  else if 65536 <=? data_size then Some (-1, buffer)
  else if size <? sizeof_channel_data_header + data_size then Some (-1, buffer)
  else
    m ← store buffer sizeof_channel_data_header data;
    m ← store m 0 (be 2 (u16 channel));
    m ← store m 2 (be 2 (u16 data_size));
    Some (sizeof_channel_data_header + data_size, m).

(** ** Data *)

Inductive turn_entry_type_t :=
| TURN_ENTRY_TYPE_EMPTY
| TURN_ENTRY_TYPE_DELETED
| TURN_ENTRY_TYPE_PERMISSION
| TURN_ENTRY_TYPE_CHANNEL.

#[global] Instance turn_entry_type_eq_dec : EqDecision turn_entry_type_t.
Proof. solve_decision. Defined.

Record turn_entry_t := {
  type : turn_entry_type_t;
  timestamp : Z;
  record : addr_record_t;
  transaction_id : list Z;
  channel : Z;
  fresh_transaction_id : bool
}.

Definition turn_entry_zero : turn_entry_t :=
  {| type := TURN_ENTRY_TYPE_EMPTY; timestamp := 0; record := addr_record_zero;
     transaction_id := replicate 12 0; channel := 0; fresh_transaction_id := false |}.

Record turn_map_t := {
  map : list turn_entry_t;
  ordered_channels : list nat;
  ordered_transaction_ids : list nat
}.

Definition map_size (m : turn_map_t) : Z := zlen (map m).
Definition channels_count (m : turn_map_t) : Z := zlen (ordered_channels m).
Definition transaction_ids_count (m : turn_map_t) : Z := zlen (ordered_transaction_ids m).

Definition with_entry (m : turn_map_t) (i : nat) (e : turn_entry_t) : turn_map_t :=
  {| map := <[i := e]> (map m); ordered_channels := ordered_channels m;
     ordered_transaction_ids := ordered_transaction_ids m |}.
Definition with_channels (m : turn_map_t) (l : list nat) : turn_map_t :=
  {| map := map m; ordered_channels := l; ordered_transaction_ids := ordered_transaction_ids m |}.
Definition with_transaction_ids (m : turn_map_t) (l : list nat) : turn_map_t :=
  {| map := map m; ordered_channels := ordered_channels m; ordered_transaction_ids := l |}.

Definition set_type (e : turn_entry_t) (t : turn_entry_type_t) (r : addr_record_t) :=
  {| type := t; timestamp := timestamp e; record := r; transaction_id := transaction_id e;
     channel := channel e; fresh_transaction_id := fresh_transaction_id e |}.
Definition set_timestamp (e : turn_entry_t) (t : Z) :=
  {| type := type e; timestamp := t; record := record e; transaction_id := transaction_id e;
     channel := channel e; fresh_transaction_id := fresh_transaction_id e |}.
Definition set_tid (e : turn_entry_t) (tid : list Z) :=
  {| type := type e; timestamp := timestamp e; record := record e; transaction_id := tid;
     channel := channel e; fresh_transaction_id := fresh_transaction_id e |}.
Definition set_channel (e : turn_entry_t) (c : Z) :=
  {| type := type e; timestamp := timestamp e; record := record e;
     transaction_id := transaction_id e; channel := c;
     fresh_transaction_id := fresh_transaction_id e |}.
Definition set_fresh (e : turn_entry_t) (b : bool) :=
  {| type := type e; timestamp := timestamp e; record := record e;
     transaction_id := transaction_id e; channel := channel e; fresh_transaction_id := b |}.

Definition memory_is_zero (l : list Z) : bool := forallb (fun b => b =? 0) l.

(** [memcmp] on byte arrays of the same length. *)
Fixpoint memcmp (a b : list Z) : comparison :=
  match a, b with
  | x :: a', y :: b' => match x ?= y with Eq => memcmp a' b' | c => c end
  | _, _ => Eq
  end.

(** ** Ordered arrays *)

(** The binary search of [find_ordered_channel_rec] and
    [find_ordered_transaction_id_rec], with the comparison of what is looked for
    to an entry. *)
Fixpoint find_ordered_rec (fuel : nat) (entries : list turn_entry_t)
    (cmp : turn_entry_t -> comparison) (ordered : list nat) (begin_ end_ : Z) : option Z :=
  match fuel with
  | O => None
  | S fuel' =>
      let d := end_ - begin_ in
      if d <=? 0 then Some begin_
      else
        let pivot := begin_ + d ÷ 2 in
        i ← ordered !! Z.to_nat pivot;
        entry ← entries !! i;
        match cmp entry with
        | Lt => find_ordered_rec fuel' entries cmp ordered begin_ pivot
        | Gt => find_ordered_rec fuel' entries cmp ordered (pivot + 1) end_
        | Eq => Some pivot
        end
  end.

Definition find_ordered_channel (m : turn_map_t) (c : Z) : option Z :=
  find_ordered_rec (S (length (ordered_channels m))) (map m) (fun e => c ?= channel e)
    (ordered_channels m) 0 (channels_count m).

Definition find_ordered_transaction_id (m : turn_map_t) (tid : list Z) : option Z :=
  find_ordered_rec (S (length (ordered_transaction_ids m))) (map m)
    (fun e => memcmp tid (transaction_id e)) (ordered_transaction_ids m) 0
    (transaction_ids_count m).

(** [memmove] down over position [pos]. *)
Definition remove_at (l : list nat) (pos : Z) : list nat :=
  take (Z.to_nat pos) l ++ drop (S (Z.to_nat pos)) l.

(** [memmove] up from [pos] and a store there, into an array of [size]. *)
Definition insert_at (size : Z) (l : list nat) (pos : Z) (i : nat) : option (list nat) :=
  if zlen l + 1 <=? size then Some (take (Z.to_nat pos) l ++ i :: drop (Z.to_nat pos) l) else None.

Definition remove_ordered_transaction_id (m : turn_map_t) (tid : list Z) : option turn_map_t :=
  pos ← find_ordered_transaction_id m tid;
  if pos <? transaction_ids_count m
  then Some (with_transaction_ids m (remove_at (ordered_transaction_ids m) pos))
  else Some m.

(** ** The hash table *)

(** The loop of [find_entry] from [pos]; [Some None] is NULL. *)
Fixpoint find_entry_loop (fuel : nat) (entries : list turn_entry_t) (r : addr_record_t)
    (t : turn_entry_type_t) (allow_deleted with_port : bool) (key pos : Z)
  : option (option nat) :=
  match fuel with
  | O => None
  | S fuel' =>
      entry ← entries !! Z.to_nat pos;
      if bool_decide (type entry = TURN_ENTRY_TYPE_EMPTY) ||
         (bool_decide (type entry = t) && addr_record_is_equal (record entry) r with_port)
      then Some (Some (Z.to_nat pos))
      else if allow_deleted && bool_decide (type entry = TURN_ENTRY_TYPE_DELETED)
      then Some (Some (Z.to_nat pos))
      else
        let pos := (pos + 1) mod zlen entries in
        if pos =? key then Some None
        else find_entry_loop fuel' entries r t allow_deleted with_port key pos
  end.

Definition find_entry (m : turn_map_t) (r : addr_record_t) (t : turn_entry_type_t)
    (allow_deleted : bool) : option (option nat) :=
  let with_port := negb (bool_decide (t = TURN_ENTRY_TYPE_PERMISSION)) in
  let key := addr_record_hash r with_port mod map_size m in
  find_entry_loop (length (map m)) (map m) r t allow_deleted with_port key key.

(** The result and the map. *)
Definition op : Type := option (bool * turn_map_t).

(** The end of [update_timestamp]. *)
Definition touch (m : turn_map_t) (i : nat) (now duration : Z) : op :=
  entry ← map m !! i;
  Some (true, with_entry m i (set_fresh (set_timestamp entry (now + duration)) false)).

Definition update_timestamp (m : turn_map_t) (t : turn_entry_type_t) (tid : list Z)
    (r : option addr_record_t) (now duration : Z) : op :=
  match r with
  | Some r =>
      found ← find_entry m r t true;
      match found with
      | None => Some (false, m)
      | Some i =>
          entry ← map m !! i;
          if bool_decide (type entry = t) && bool_decide (transaction_id entry = tid)
          then Some (true, m)
          else
            let m := if bool_decide (type entry = t) then m
                     else with_entry m i (set_type entry t r) in
            m ← (if memory_is_zero (transaction_id entry) then Some m
                 else remove_ordered_transaction_id m (transaction_id entry));
            entry ← map m !! i;
            touch (with_entry m i (set_tid entry tid)) i now duration
      end
  | None =>
      pos ← find_ordered_transaction_id m tid;
      if pos =? transaction_ids_count m then Some (false, m)
      else
        i ← ordered_transaction_ids m !! Z.to_nat pos;
        entry ← map m !! i;
        if negb (bool_decide (type entry = t)) || negb (bool_decide (transaction_id entry = tid))
        then Some (false, m)
        else touch m i now duration
  end.

(** Memory is available and [size] is not negative; with a negative size the code asks
    [calloc] for more than there is, and fails. *)
Definition turn_init_map (size : Z) : turn_map_t :=
  {| map := replicate (Z.to_nat (size * 2)) turn_entry_zero;
     ordered_channels := []; ordered_transaction_ids := [] |}.

Definition turn_set_permission (m : turn_map_t) (tid : list Z) (r : option addr_record_t)
    (now duration : Z) : op :=
  update_timestamp m TURN_ENTRY_TYPE_PERMISSION tid r now duration.

Definition turn_has_permission (m : turn_map_t) (r : addr_record_t) (now : Z) : option bool :=
  found ← find_entry m r TURN_ENTRY_TYPE_PERMISSION false;
  match found with
  | None => Some false
  | Some i =>
      entry ← map m !! i;
      Some (bool_decide (type entry = TURN_ENTRY_TYPE_PERMISSION) && (now <? timestamp entry))
  end.

(** The part of [turn_bind_channel] that binds a record without a channel. *)
Definition bind_new (m : turn_map_t) (i : nat) (entry : turn_entry_t) (r : addr_record_t)
    (tid : option (list Z)) (c now duration : Z) : op :=
  pos ← find_ordered_channel m c;
  taken ← (if pos <? channels_count m then
             o ← ordered_channels m !! Z.to_nat pos;
             other_entry ← map m !! o;
             Some (channel other_entry =? c)
           else Some false);
  if (taken : bool) then Some (false, m)
  else
    let entry := if bool_decide (type entry = TURN_ENTRY_TYPE_CHANNEL) then entry
                 else set_type entry TURN_ENTRY_TYPE_CHANNEL r in
    l ← insert_at (map_size m) (ordered_channels m) pos i;
    let entry := set_timestamp (set_channel entry c) (now + duration) in
    let entry := match tid with
                 | Some tid => set_fresh (set_tid entry tid) true
                 | None => entry
                 end in
    Some (true, with_entry (with_channels m l) i entry).

Definition turn_bind_channel (m : turn_map_t) (r : option addr_record_t) (tid : option (list Z))
    (c now duration : Z) : op :=
  match r with
  | None => Some (false, m)
  | Some r =>
      if negb (is_valid_channel c) then Some (false, m)
      else
        found ← find_entry m r TURN_ENTRY_TYPE_CHANNEL true;
        match found with
        | None => Some (false, m)
        | Some i =>
            entry ← map m !! i;
            if bool_decide (type entry = TURN_ENTRY_TYPE_CHANNEL) && negb (channel entry =? 0) then
              if negb (channel entry =? c) then Some (false, m)
              else Some (true, with_entry m i (set_timestamp entry (now + duration)))
            else bind_new m i entry r tid c now duration
        end
  end.

Definition turn_bind_current_channel (m : turn_map_t) (tid : list Z) (r : option addr_record_t)
    (now duration : Z) : op :=
  update_timestamp m TURN_ENTRY_TYPE_CHANNEL tid r now duration.

(** [Some None] is the result false, [Some (Some c)] the channel stored. *)
Definition turn_get_channel (m : turn_map_t) (r : addr_record_t) : option (option Z) :=
  found ← find_entry m r TURN_ENTRY_TYPE_CHANNEL false;
  match found with
  | None => Some None
  | Some i =>
      entry ← map m !! i;
      if negb (bool_decide (type entry = TURN_ENTRY_TYPE_CHANNEL)) then Some None
      else Some (Some (channel entry))
  end.

Definition turn_get_bound_channel (m : turn_map_t) (r : addr_record_t) (now : Z)
  : option (option Z) :=
  found ← find_entry m r TURN_ENTRY_TYPE_CHANNEL false;
  match found with
  | None => Some None
  | Some i =>
      entry ← map m !! i;
      if negb (bool_decide (type entry = TURN_ENTRY_TYPE_CHANNEL)) then Some None
      else if (channel entry =? 0) || (timestamp entry <=? now) then Some None
      else Some (Some (channel entry))
  end.

Definition turn_find_channel (m : turn_map_t) (c : Z) : option (option addr_record_t) :=
  if negb (is_valid_channel c) then Some None
  else
    pos ← find_ordered_channel m c;
    if pos =? channels_count m then Some None
    else
      i ← ordered_channels m !! Z.to_nat pos;
      entry ← map m !! i;
      if negb (channel entry =? c) then Some None else Some (Some (record entry)).

Definition turn_find_bound_channel (m : turn_map_t) (c now : Z) : option (option addr_record_t) :=
  if negb (is_valid_channel c) then Some None
  else
    pos ← find_ordered_channel m c;
    if pos =? channels_count m then Some None
    else
      i ← ordered_channels m !! Z.to_nat pos;
      entry ← map m !! i;
      if negb (channel entry =? c) || (timestamp entry <=? now) then Some None
      else Some (Some (record entry)).

(** The first of the random numbers whose channel is free. *)
Fixpoint draw_channel (m : turn_map_t) (draws : list Z) : option Z :=
  match draws with
  | [] => None
  | r :: draws' =>
      let c := random_channel_number r in
      found ← turn_find_channel m c;
      match found with Some _ => draw_channel m draws' | None => Some c end
  end.

Definition turn_bind_random_channel (m : turn_map_t) (r : option addr_record_t) (draws : list Z)
    (now duration : Z) : option (bool * Z * turn_map_t) :=
  c ← draw_channel m draws;
  '(ok, m) ← turn_bind_channel m r None c now duration;
  Some (ok, c, m).

(** ** Transaction ids *)

Definition set_transaction_id (m : turn_map_t) (t : turn_entry_type_t) (r : addr_record_t)
    (tid : list Z) : op :=
  if negb (bool_decide (t = TURN_ENTRY_TYPE_PERMISSION)) &&
     negb (bool_decide (t = TURN_ENTRY_TYPE_CHANNEL)) then Some (false, m)
  else
    found ← find_entry m r t true;
    match found with
    | None => Some (false, m)
    | Some i =>
        entry ← map m !! i;
        m ← (if bool_decide (type entry = t) && negb (memory_is_zero (transaction_id entry))
             then remove_ordered_transaction_id m (transaction_id entry) else Some m);
        pos ← find_ordered_transaction_id m tid;
        l ← insert_at (map_size m) (ordered_transaction_ids m) pos i;
        let entry := if bool_decide (type entry = t) then entry else set_type entry t r in
        Some (true, with_entry (with_transaction_ids m l) i (set_fresh (set_tid entry tid) true))
    end.

Definition find_transaction_id (m : turn_map_t) (tid : list Z) : option (option addr_record_t) :=
  pos ← find_ordered_transaction_id m tid;
  if pos =? transaction_ids_count m then Some None
  else
    i ← ordered_transaction_ids m !! Z.to_nat pos;
    entry ← map m !! i;
    if negb (bool_decide (transaction_id entry = tid)) then Some None
    else Some (Some (record entry)).

Fixpoint draw_transaction_id (m : turn_map_t) (draws : list (list Z)) : option (list Z) :=
  match draws with
  | [] => None
  | tid :: draws' =>
      found ← find_transaction_id m tid;
      match found with Some _ => draw_transaction_id m draws' | None => Some tid end
  end.

(** The result, the transaction id for the caller and the map. *)
Definition set_random_transaction_id (m : turn_map_t) (t : turn_entry_type_t) (r : addr_record_t)
    (draws : list (list Z)) : option (bool * list Z * turn_map_t) :=
  found ← find_entry m r t false;
  fresh ← match found with
          | None => Some None
          | Some i => entry ← map m !! i;
                      Some (if fresh_transaction_id entry then Some (transaction_id entry) else None)
          end;
  match fresh with
  | Some tid => Some (true, tid, m)
  | None =>
      tid ← draw_transaction_id m draws;
      '(ok, m) ← set_transaction_id m t r tid;
      Some (ok, tid, m)
  end.

Definition turn_set_permission_transaction_id (m : turn_map_t) (r : addr_record_t) (tid : list Z) : op :=
  set_transaction_id m TURN_ENTRY_TYPE_PERMISSION r tid.
Definition turn_set_channel_transaction_id (m : turn_map_t) (r : addr_record_t) (tid : list Z) : op :=
  set_transaction_id m TURN_ENTRY_TYPE_CHANNEL r tid.
Definition turn_set_random_permission_transaction_id (m : turn_map_t) (r : addr_record_t)
    (draws : list (list Z)) :=
  set_random_transaction_id m TURN_ENTRY_TYPE_PERMISSION r draws.
Definition turn_set_random_channel_transaction_id (m : turn_map_t) (r : addr_record_t)
    (draws : list (list Z)) :=
  set_random_transaction_id m TURN_ENTRY_TYPE_CHANNEL r draws.

Definition turn_retrieve_transaction_id (m : turn_map_t) (tid : list Z)
  : option (option addr_record_t * turn_map_t) :=
  pos ← find_ordered_transaction_id m tid;
  if pos =? transaction_ids_count m then Some (None, m)
  else
    i ← ordered_transaction_ids m !! Z.to_nat pos;
    entry ← map m !! i;
    if negb (bool_decide (transaction_id entry = tid)) then Some (None, m)
    else Some (Some (record entry), with_entry m i (set_fresh entry false)).

(** ** Specifications *)

Definition with_port (t : turn_entry_type_t) : bool :=
  negb (bool_decide (t = TURN_ENTRY_TYPE_PERMISSION)).

(** Types of entries in use. *)
Definition used (t : turn_entry_type_t) : Prop :=
  t = TURN_ENTRY_TYPE_PERMISSION \/ t = TURN_ENTRY_TYPE_CHANNEL.

(** Slot [i] holds the permission or channel of [r]. *)
Definition holds (m : turn_map_t) (t : turn_entry_type_t) (r : addr_record_t) (i : nat)
    (e : turn_entry_t) : Prop :=
  map m !! i = Some e /\ type e = t /\ same_record (with_port t) (record e) r.

Definition absent (m : turn_map_t) (t : turn_entry_type_t) (r : addr_record_t) : Prop :=
  forall i e, ~ holds m t r i e.

(** The probe sequence: where the search is after [d] steps. *)
Definition probe (m : turn_map_t) (t : turn_entry_type_t) (r : addr_record_t) (d : Z) : nat :=
  Z.to_nat ((addr_record_hash r (with_port t) mod map_size m + d) mod map_size m).

(** The first [d] slots of the probe sequence are not empty. *)
Definition probed (m : turn_map_t) (t : turn_entry_type_t) (r : addr_record_t) (d : Z) : Prop :=
  forall k e, 0 <= k < d -> map m !! probe m t r k = Some e -> type e <> TURN_ENTRY_TYPE_EMPTY.

Definition valid_record (r : addr_record_t) : Prop := forall f, addr r <> SaOther f.

(** The table: every entry is reached by its probe sequence, no two entries of a
    type are for the same peer, peers have an address, and nothing is ever
    deleted. *)
Record table_ok (m : turn_map_t) : Prop := {
  tok_size : 0 < map_size m;
  tok_deleted : forall i e, map m !! i = Some e -> type e <> TURN_ENTRY_TYPE_DELETED;
  tok_valid : forall i e, map m !! i = Some e -> used (type e) -> valid_record (record e);
  tok_probe : forall i e, map m !! i = Some e -> used (type e) ->
    exists d, 0 <= d < map_size m /\ i = probe m (type e) (record e) d /\
              probed m (type e) (record e) d;
  tok_unique : forall i j e e', map m !! i = Some e -> map m !! j = Some e' -> used (type e) ->
    type e = type e' -> same_record (with_port (type e)) (record e) (record e') -> i = j
}.

(** The keys of an ordered array, in order. *)
Definition keys (m : turn_map_t) (key : turn_entry_t -> Z) (l : list nat) : list Z :=
  (fun i => from_option key 0 (map m !! i)) <$> l.

Definition increasing : list Z -> Prop := StronglySorted Z.lt.

(** Indices into the table. *)
Definition indices_ok (m : turn_map_t) (l : list nat) : Prop :=
  Forall (fun i => (i < length (map m))%nat) l.

(** The array [l] has exactly the slots [M], by increasing key. *)
Record ordered (m : turn_map_t) (key : turn_entry_t -> Z) (M : nat -> Prop) (l : list nat) : Prop := {
  ord_sorted : increasing (keys m key l);
  ord_members : forall i, i ∈ l <-> M i;
  ord_indices : indices_ok m l
}.

Definition has_channel (m : turn_map_t) (i : nat) : Prop :=
  exists e, map m !! i = Some e /\ type e = TURN_ENTRY_TYPE_CHANNEL /\ channel e <> 0.

(** The channels: the ordered array has the entries with a channel. *)
Record channels_ok (m : turn_map_t) : Prop := {
  cok_ordered : ordered m channel (has_channel m) (ordered_channels m);
  cok_unbound : forall i e, map m !! i = Some e -> type e <> TURN_ENTRY_TYPE_CHANNEL ->
    channel e = 0;
  cok_valid : forall i e, map m !! i = Some e -> channel e <> 0 -> is_valid_channel (channel e) = true
}.

Definition is_tid (tid : list Z) : Prop := bytes tid /\ length tid = 12%nat.

Definition tid_key (e : turn_entry_t) : Z := unbe (transaction_id e).

Definition has_tid (m : turn_map_t) (i : nat) : Prop :=
  exists e, map m !! i = Some e /\ memory_is_zero (transaction_id e) = false.

(** The transaction ids: the ordered array has the entries with an id. *)
Record tids_ok (m : turn_map_t) : Prop := {
  iok_shape : forall i e, map m !! i = Some e -> is_tid (transaction_id e);
  iok_ordered : ordered m tid_key (has_tid m) (ordered_transaction_ids m);
  iok_unused : forall i e, map m !! i = Some e -> ~ used (type e) ->
    memory_is_zero (transaction_id e) = true;
  iok_fresh : forall i e, map m !! i = Some e -> fresh_transaction_id e = true ->
    memory_is_zero (transaction_id e) = false
}.

(** ** Binary search *)

(** [pos] is the place of [k] in an increasing list. *)
Definition lower_bound (l : list Z) (k pos : Z) : Prop :=
  0 <= pos <= zlen l /\
  (forall j x, 0 <= j < pos -> l !! Z.to_nat j = Some x -> x < k) /\
  (forall j x, pos <= j -> l !! Z.to_nat j = Some x -> k <= x).

Lemma increasing_lookup (l : list Z) (i j : nat) x y :
  increasing l -> (i < j)%nat -> l !! i = Some x -> l !! j = Some y -> x < y.
Proof.
  intros Hs; revert i j; induction Hs as [|z l Hs IH Hz]; intros i j Hij Hi Hj; [done|].
  destruct j as [|j]; [lia|]. cbn in Hj. destruct i as [|i]; cbn in Hi.
  - injection Hi as <-. rewrite Forall_forall in Hz. apply Hz.
    apply list_elem_of_In. by eapply list_elem_of_lookup_2.
  - apply (IH i j); [lia|done|done].
Qed.

Lemma find_ordered_rec_spec (m : turn_map_t) (key : turn_entry_t -> Z) (k : Z)
    (cmp : turn_entry_t -> comparison) (l : list nat) (fuel : nat) : forall begin_ end_,
  (forall i e, i ∈ l -> map m !! i = Some e -> cmp e = (k ?= key e)) ->
  indices_ok m l -> increasing (keys m key l) ->
  0 <= begin_ <= end_ -> end_ <= zlen l -> end_ - begin_ < Z.of_nat fuel ->
  (forall j x, 0 <= j < begin_ -> keys m key l !! Z.to_nat j = Some x -> x < k) ->
  (forall j x, end_ <= j -> keys m key l !! Z.to_nat j = Some x -> k <= x) ->
  exists pos, find_ordered_rec fuel (map m) cmp l begin_ end_ = Some pos /\
              lower_bound (keys m key l) k pos.
Proof.
  induction fuel as [|fuel IH]; intros b e Hcmp Hi Hs Hbe Hl Hf Hlo Hhi; [lia|].
  cbn [find_ordered_rec]. case_if.
  { exists b. split; [done|]. split; [|split; [done|]].
    - unfold zlen, keys in *. rewrite length_fmap. lia.
    - intros j x Hj. apply Hhi. lia. }
  rewrite Z.quot_div_nonneg by lia. set (p := b + (e - b) / 2).
  assert (Hp : b <= p < e) by (unfold p; zlia).
  destruct (lookup_lt_is_Some_2 l (Z.to_nat p)) as [i Hli]; [unfold zlen in Hl; lia|].
  rewrite Hli. cbn [mbind option_bind].
  assert (Hin : i ∈ l) by (by eapply list_elem_of_lookup_2).
  assert (Hib : (i < length (map m))%nat).
  { unfold indices_ok in Hi. rewrite Forall_forall in Hi. apply Hi. by apply list_elem_of_In. }
  destruct (lookup_lt_is_Some_2 (map m) i Hib) as [en He]. rewrite He. cbn [mbind option_bind].
  assert (Hk : keys m key l !! Z.to_nat p = Some (key en)).
  { unfold keys. rewrite list_lookup_fmap, Hli. cbn. by rewrite He. }
  rewrite (Hcmp i en Hin He). destruct (Z.compare_spec k (key en)) as [Hc|Hc|Hc].
  - exists p. split; [done|]. split; [unfold zlen, keys in *; rewrite length_fmap; lia|]. split.
    + intros j x Hj Hx. rewrite Hc. eapply increasing_lookup; [exact Hs| |exact Hx|exact Hk]. lia.
    + intros j x Hj Hx. destruct (Z.eq_dec j p) as [->|]; [rewrite Hk in Hx; injection Hx as <-; lia|].
      apply Z.lt_le_incl. rewrite Hc. eapply increasing_lookup; [exact Hs| |exact Hk|exact Hx]. lia.
  - apply IH; try done; try lia. intros j x Hj Hx.
    destruct (Z.eq_dec j p) as [->|]; [rewrite Hk in Hx; injection Hx as <-; lia|].
    enough (key en < x) by lia. eapply increasing_lookup; [exact Hs| |exact Hk|exact Hx]. lia.
  - apply IH; try done; try lia. intros j x Hj Hx.
    destruct (Z.eq_dec j p) as [->|]; [rewrite Hk in Hx; injection Hx as <-; lia|].
    enough (x < key en) by lia. eapply increasing_lookup; [exact Hs| |exact Hx|exact Hk]. lia.
Qed.

(** ** Hash table search *)

(** A slot where the search for the [t] entry of [r] goes on. *)
Definition passed (t : turn_entry_type_t) (r : addr_record_t) (e : turn_entry_t) : Prop :=
  type e <> TURN_ENTRY_TYPE_EMPTY /\ ~ (type e = t /\ same_record (with_port t) (record e) r).

Definition passes (m : turn_map_t) (t : turn_entry_type_t) (r : addr_record_t) (d : Z) : Prop :=
  forall k e, 0 <= k < d -> map m !! probe m t r k = Some e -> passed t r e.

Lemma probe_bound (m : turn_map_t) t r d : 0 < map_size m -> (probe m t r d < length (map m))%nat.
Proof.
  intros H. unfold probe, map_size, zlen in *.
  pose proof (Z.mod_pos_bound (addr_record_hash r (with_port t) mod Z.of_nat (length (map m)) + d)
    (Z.of_nat (length (map m))) H). lia.
Qed.

Lemma probe_surj (m : turn_map_t) t r (i : nat) : (i < length (map m))%nat ->
  exists d, 0 <= d < map_size m /\ i = probe m t r d.
Proof.
  intros H. unfold probe, map_size, zlen. set (n := Z.of_nat (length (map m))).
  set (k := addr_record_hash r (with_port t) mod n).
  exists ((Z.of_nat i - k) mod n). split; [apply Z.mod_pos_bound; lia|].
  rewrite Z.add_mod_idemp_r by lia. replace (k + (Z.of_nat i - k)) with (Z.of_nat i) by lia.
  rewrite Z.mod_small by lia. lia.
Qed.

Lemma probe_proper (m : turn_map_t) t r r' d :
  same_record (with_port t) r r' -> probe m t r d = probe m t r' d.
Proof. intros H. unfold probe. by rewrite (addr_record_hash_proper _ _ _ H). Qed.

Lemma stops_spec t r (e : turn_entry_t) :
  bool_decide (type e = TURN_ENTRY_TYPE_EMPTY) ||
  bool_decide (type e = t) && addr_record_is_equal (record e) r (with_port t) = false <->
  passed t r e.
Proof.
  unfold passed, same_record. repeat case_bool_decide; cbn;
    destruct (addr_record_is_equal (record e) r (with_port t)); intuition congruence.
Qed.

Lemma find_entry_loop_spec (m : turn_map_t) t r allow_deleted (fuel : nat) : forall d,
  0 < map_size m ->
  (forall i e, map m !! i = Some e -> type e <> TURN_ENTRY_TYPE_DELETED) ->
  let key := addr_record_hash r (with_port t) mod map_size m in
  0 <= d < map_size m -> map_size m - d <= Z.of_nat fuel -> passes m t r d ->
  exists res,
    find_entry_loop fuel (map m) r t allow_deleted (with_port t) key ((key + d) mod map_size m)
    = Some res /\
    match res with
    | Some i => exists d' e, 0 <= d' < map_size m /\ i = probe m t r d' /\ map m !! i = Some e /\
                             ~ passed t r e /\ passes m t r d'
    | None => passes m t r (map_size m)
    end.
Proof.
  induction fuel as [|fuel IH]; intros d Hs Hdel key Hd Hf Hp; [lia|]. cbn [find_entry_loop].
  change (Z.to_nat ((key + d) mod map_size m)) with (probe m t r d).
  destruct (lookup_lt_is_Some_2 (map m) (probe m t r d)) as [e He]; [by apply probe_bound|].
  rewrite He. cbn [mbind option_bind].
  rewrite (bool_decide_eq_false_2 (type e = TURN_ENTRY_TYPE_DELETED)) by (by eapply Hdel).
  rewrite andb_false_r.
  destruct (bool_decide (type e = TURN_ENTRY_TYPE_EMPTY) || _) eqn:E.
  { exists (Some (probe m t r d)). split; [done|]. exists d, e. repeat (split; [done|]).
    split; [|done]. intros Hpass. apply stops_spec in Hpass. congruence. }
  apply stops_spec in E.
  assert (Hp' : passes m t r (d + 1)).
  { intros k e' Hk He'. destruct (Z.eq_dec k d) as [->|]; [|apply (Hp k); [lia|done]].
    rewrite He in He'. apply Some_inj in He'. by subst e'. }
  change (zlen (map m)) with (map_size m). rewrite Z.add_mod_idemp_l, <- Z.add_assoc by lia.
  assert (Hk : 0 <= key < map_size m) by (apply Z.mod_pos_bound; lia).
  destruct ((key + (d + 1)) mod map_size m =? key) eqn:E0; [apply Z.eqb_eq in E0|apply Z.eqb_neq in E0].
  - exists None. split; [done|]. replace (map_size m) with (d + 1); [done|].
    assert (Hcong : (d + 1) mod map_size m = 0).
    { replace (d + 1) with (key + (d + 1) - key) by lia. rewrite Zminus_mod, E0.
      rewrite (Z.mod_small key), Z.sub_diag by lia. apply Z.mod_0_l. lia. }
    apply Z.mod_divide in Hcong; [|lia]. destruct Hcong as [q Hq].
    assert (q = 1) by nia. lia.
  - apply IH; try done; [|lia]. split; [lia|]. destruct (Z.eq_dec (d + 1) (map_size m)) as [E1|]; [|lia].
    exfalso. apply E0. rewrite E1, <- Z.add_mod_idemp_r, Z_mod_same_full, Z.add_0_r by lia.
    by apply Z.mod_small.
Qed.

(** What [find_entry] gives: the entry when there is one, otherwise the slot for
    it, or NULL when the table is full. *)
Lemma find_entry_spec (m : turn_map_t) t r allow_deleted : table_ok m -> used t ->
  exists res, find_entry m r t allow_deleted = Some res /\
  match res with
  | Some i => exists e, map m !! i = Some e /\
      (holds m t r i e \/
       (type e = TURN_ENTRY_TYPE_EMPTY /\ absent m t r /\
        exists d, 0 <= d < map_size m /\ i = probe m t r d /\ probed m t r d))
  | None => absent m t r /\ forall i e, map m !! i = Some e -> type e <> TURN_ENTRY_TYPE_EMPTY
  end.
Proof.
  intros Hok Hu. pose proof (tok_size _ Hok) as Hs.
  assert (Hreach : forall j e', holds m t r j e' ->
    exists d, 0 <= d < map_size m /\ j = probe m t r d /\ probed m t r d).
  { intros j e' (He' & <- & Hsame). destruct (tok_probe _ Hok j e' He' Hu) as (d & Hd & Hj & Hpr).
    exists d. split; [done|]. rewrite <- (probe_proper m _ _ _ d Hsame). split; [done|].
    intros k x Hk Hx. rewrite <- (probe_proper m _ _ _ k Hsame) in Hx. by apply (Hpr k x). }
  destruct (find_entry_loop_spec m t r allow_deleted (length (map m)) 0) as (res & Hres & Hspec);
    [done|apply (tok_deleted _ Hok)|lia|unfold map_size, zlen; lia|intros k e Hk; lia|].
  rewrite Z.add_0_r, Z.mod_mod in Hres by lia. exists res. split; [exact Hres|].
  destruct res as [i|].
  - destruct Hspec as (d & e & Hd & -> & He & Hn & Hp). exists e. split; [done|].
    destruct (decide (type e = TURN_ENTRY_TYPE_EMPTY)) as [Hem|Hne].
    + right. split; [done|]. split; [|exists d; split; [done|split; [done|]]; intros k x Hk Hx; apply (Hp k x Hk Hx)].
      intros j e' Hh. destruct (Hreach j e' Hh) as (d' & Hd' & -> & Hpr). destruct Hh as (He' & Ht & Hsame).
      destruct (Z.lt_trichotomy d d') as [Hlt|[->|Hlt]].
      * apply (Hpr d e); [lia|done|done].
      * rewrite He in He'. injection He' as <-. destruct Hu; congruence.
      * destruct (Hp d' e'); [lia|done|]. tauto.
    + left. split; [done|]. destruct (decide (type e = t /\ same_record (with_port t) (record e) r)); [done|].
      destruct Hn. done.
  - split.
    + intros j e' Hh. destruct (Hreach j e' Hh) as (d' & Hd' & -> & _). destruct Hh as (He' & Hm).
      destruct (Hspec d' e'); [done|done|]. tauto.
    + intros i e He. destruct (probe_surj m t r i) as (d & Hd & ->); [by eapply lookup_lt_Some|].
      apply (Hspec d e Hd He).
Qed.

(** ** The table as a map from peers to entries *)

(** The slot of the [t] entry of [r]: the one that holds it, or where it goes. *)
Definition slot (m : turn_map_t) (t : turn_entry_type_t) (r : addr_record_t) (i : nat)
    (e : turn_entry_t) : Prop :=
  map m !! i = Some e /\
  (holds m t r i e \/
   (type e = TURN_ENTRY_TYPE_EMPTY /\ absent m t r /\
    exists d, 0 <= d < map_size m /\ i = probe m t r d /\ probed m t r d)).

(** The record of the entry of [r] once it is written: the one already there
    is kept. *)
Definition slot_record (t : turn_entry_type_t) (r : addr_record_t) (e : turn_entry_t) :=
  if decide (type e = t) then record e else r.

Definition full (m : turn_map_t) : Prop :=
  forall i e, map m !! i = Some e -> type e <> TURN_ENTRY_TYPE_EMPTY.

Definition lookup_entry (m : turn_map_t) (t : turn_entry_type_t) (r : addr_record_t)
  : option turn_entry_t :=
  match find_entry m r t false with
  | Some (Some i) => e ← map m !! i; if decide (type e = t) then Some e else None
  | _ => None
  end.

Lemma used_not_empty t : used t -> t <> TURN_ENTRY_TYPE_EMPTY.
Proof. by intros [-> | ->]. Qed.

Lemma holds_unique (m : turn_map_t) t r i j e e' : table_ok m -> used t ->
  holds m t r i e -> holds m t r j e' -> i = j /\ e = e'.
Proof.
  intros Hok Hu (Hi & Ht & Hs) (Hj & Ht' & Hs').
  assert (i = j) as ->.
  { eapply (tok_unique _ Hok); [exact Hi|exact Hj|by rewrite Ht|congruence|].
    rewrite Ht. etransitivity; [exact Hs|by symmetry]. }
  split; [done|]. congruence.
Qed.

Lemma find_entry_cases (m : turn_map_t) t r allow_deleted : table_ok m -> used t ->
  (exists i e, find_entry m r t allow_deleted = Some (Some i) /\ slot m t r i e) \/
  (find_entry m r t allow_deleted = Some None /\ absent m t r /\ full m).
Proof.
  intros Hok Hu. destruct (find_entry_spec m t r allow_deleted Hok Hu) as ([i|] & -> & H).
  - destruct H as (e & He & Hs). left. exists i, e. by repeat split.
  - right. by destruct H.
Qed.

Lemma slot_holds (m : turn_map_t) t r i e : used t -> slot m t r i e -> type e = t ->
  holds m t r i e.
Proof. intros Hu [_ [H|(Hem & _)] ] Ht; [done|]. by destruct (used_not_empty t Hu); subst. Qed.

Lemma slot_absent (m : turn_map_t) t r i e : slot m t r i e -> type e <> t ->
  type e = TURN_ENTRY_TYPE_EMPTY /\ absent m t r.
Proof. intros [_ [(_ & Ht & _)|(Hem & Ha & _)] ] Hne; [done|tauto]. Qed.

Lemma lookup_entry_spec (m : turn_map_t) t r e : table_ok m -> used t ->
  lookup_entry m t r = Some e <-> exists i, holds m t r i e.
Proof.
  intros Hok Hu. unfold lookup_entry.
  destruct (find_entry_cases m t r false Hok Hu) as [(i & e0 & -> & Hsl)|(-> & Ha & _)].
  - rewrite (proj1 Hsl). cbn [mbind option_bind]. case_decide as Ht.
    + pose proof (slot_holds m t r i e0 Hu Hsl Ht) as Hh. split.
      * intros [= <-]. by exists i.
      * intros (j & Hj). by destruct (holds_unique m t r i j e0 e Hok Hu Hh Hj) as [_ ->].
    + destruct (slot_absent m t r i e0 Hsl Ht) as [_ Ha]. split; [done|].
      intros (j & Hj). by destruct (Ha j e).
  - split; [done|]. intros (j & Hj). by destruct (Ha j e).
Qed.

Lemma lookup_entry_slot (m : turn_map_t) t r i e : table_ok m -> used t -> slot m t r i e ->
  lookup_entry m t r = if decide (type e = t) then Some e else None.
Proof.
  intros Hok Hu Hsl. case_decide as Ht.
  - apply lookup_entry_spec; [done..|]. exists i. by apply slot_holds.
  - destruct (lookup_entry m t r) as [e'|] eqn:E; [|done].
    apply lookup_entry_spec in E as [j Hj]; [|done..].
    by destruct (proj2 (slot_absent m t r i e Hsl Ht) j e').
Qed.

Lemma absent_lookup (m : turn_map_t) t r : table_ok m -> used t -> absent m t r ->
  lookup_entry m t r = None.
Proof.
  intros Hok Hu Ha. destruct (lookup_entry m t r) as [e|] eqn:E; [|done].
  apply lookup_entry_spec in E as [j Hj]; [|done..]. by destruct (Ha j e).
Qed.

Lemma with_entry_lookup (m : turn_map_t) i e j : (i < length (map m))%nat ->
  map (with_entry m i e) !! j = if decide (i = j) then Some e else map m !! j.
Proof.
  intros H. cbn [with_entry map]. case_decide as E; [subst; by apply list_lookup_insert_eq|].
  by apply list_lookup_insert_ne.
Qed.

Lemma map_size_with_entry (m : turn_map_t) i e : map_size (with_entry m i e) = map_size m.
Proof. unfold map_size, zlen. cbn. by rewrite length_insert. Qed.

Lemma probe_with_entry (m : turn_map_t) i e t r d :
  probe (with_entry m i e) t r d = probe m t r d.
Proof. unfold probe. by rewrite map_size_with_entry. Qed.

Lemma probed_with_entry (m : turn_map_t) i e t r d : (i < length (map m))%nat ->
  type e <> TURN_ENTRY_TYPE_EMPTY -> probed m t r d -> probed (with_entry m i e) t r d.
Proof.
  intros Hi He Hp k x Hk Hx. rewrite probe_with_entry, with_entry_lookup in Hx by done.
  case_decide; [by injection Hx as <-|]. by apply (Hp k x).
Qed.

(** Writing the entry of a peer in its slot keeps the table well formed. *)
Lemma table_ok_set (m : turn_map_t) t r i e e' :
  table_ok m -> used t -> valid_record r -> slot m t r i e ->
  type e' = t -> record e' = slot_record t r e -> table_ok (with_entry m i e').
Proof.
  intros Hok Hu Hv Hsl Ht Hr. assert (Hi : (i < length (map m))%nat) by (eapply lookup_lt_Some, Hsl).
  assert (Hne : type e' <> TURN_ENTRY_TYPE_EMPTY) by (rewrite Ht; by apply used_not_empty).
  constructor.
  - rewrite map_size_with_entry. apply (tok_size _ Hok).
  - intros j x. rewrite with_entry_lookup by done. case_decide; [|apply (tok_deleted _ Hok)].
    intros [= <-]. rewrite Ht. by destruct Hu; subst.
  - intros j x. rewrite with_entry_lookup by done. case_decide; [|apply (tok_valid _ Hok)].
    intros [= <-] _. rewrite Hr. unfold slot_record. case_decide as Hte; [|done].
    apply (tok_valid _ Hok i); [apply Hsl|by rewrite Hte].
  - intros j x. rewrite with_entry_lookup by done. rewrite map_size_with_entry.
    intros Hx Hux. enough (exists d, 0 <= d < map_size m /\ j = probe m (type x) (record x) d /\
      probed m (type x) (record x) d) as (d & Hd & Hj & Hp).
    { exists d. rewrite probe_with_entry. split; [done|]. split; [done|]. by apply probed_with_entry. }
    case_decide; [|by apply (tok_probe _ Hok)]. subst j. injection Hx as <-.
    rewrite Ht, Hr. unfold slot_record. case_decide as Hte.
    + rewrite <- Hte. apply (tok_probe _ Hok); [apply Hsl|by rewrite Hte].
    + destruct Hsl as [_ [(_ & ? & _)|(_ & _ & d & Hd & Hj & Hp)] ]; [done|]. by exists d.
  - assert (Hwlog : forall j x, map m !! j = Some x -> i <> j -> type x = t ->
      ~ same_record (with_port t) (record e') (record x)).
    { intros j x Hx Hij Htx Hs. rewrite Hr in Hs. unfold slot_record in Hs. case_decide as Hte.
      - apply Hij. apply (tok_unique _ Hok i j e x); [apply Hsl|done|by rewrite Hte|congruence|by rewrite Hte].
      - destruct (proj2 (slot_absent m t r i e Hsl Hte) j x). repeat split; [done|done|by symmetry]. }
    intros j k x y. rewrite !with_entry_lookup by done. intros Hx Hy Hux Hxy Hs.
    destruct (decide (i = j)) as [<-|Hij], (decide (i = k)) as [<-|Hik]; [done| | |].
    + apply Some_inj in Hx. subst x. destruct (Hwlog k y Hy Hik); congruence.
    + apply Some_inj in Hy. subst y. destruct (Hwlog j x Hx Hij); [congruence|].
      rewrite <- Ht, <- Hxy. by symmetry.
    + by apply (tok_unique _ Hok j k x y).
Qed.

(** After the write, the peer has the new entry and the others have what they had. *)
Lemma lookup_entry_set (m : turn_map_t) t r i e e' t' r' :
  table_ok m -> used t -> used t' -> valid_record r -> slot m t r i e ->
  type e' = t -> record e' = slot_record t r e ->
  lookup_entry (with_entry m i e') t' r' =
  if decide (t' = t /\ same_record (with_port t) r r') then Some e' else lookup_entry m t' r'.
Proof.
  intros Hok Hu Hu' Hv Hsl Ht Hr.
  assert (Hok' := table_ok_set m t r i e e' Hok Hu Hv Hsl Ht Hr).
  assert (Hi : (i < length (map m))%nat) by (eapply lookup_lt_Some, Hsl).
  assert (Hre : same_record (with_port t) (record e') r).
  { rewrite Hr. unfold slot_record. case_decide as Hte; [|by apply same_record_refl].
    by apply (slot_holds m t r i e). }
  case_decide as Hc.
  - destruct Hc as [-> Hs]. apply lookup_entry_spec; [done..|]. exists i.
    split; [by rewrite with_entry_lookup, decide_True by done|]. split; [done|].
    by etransitivity.
  - apply option_eq. intros x. rewrite !lookup_entry_spec by done. unfold holds. split.
    + intros (j & Hj & Htx & Hs). rewrite with_entry_lookup in Hj by done. case_decide as Hij.
      * apply Some_inj in Hj. subst x. destruct Hc. split; [congruence|]. subst t'. rewrite Ht in Hs.
        etransitivity; [symmetry; exact Hre|exact Hs].
      * by exists j.
    + intros (j & Hj & Htx & Hs). exists j. rewrite with_entry_lookup by done. case_decide as Hij; [|done].
      subst j. assert (x = e) as -> by (rewrite (proj1 Hsl) in Hj; congruence). exfalso.
      destruct Hsl as [_ [(_ & Hte & Hse)|(Hem & _)] ].
      * apply Hc. split; [congruence|]. etransitivity; [symmetry; exact Hse|]. congruence.
      * apply (used_not_empty t' Hu'). congruence.
Qed.

Lemma stored_slot (m : turn_map_t) i e : table_ok m -> map m !! i = Some e -> used (type e) ->
  slot m (type e) (record e) i e.
Proof.
  intros Hok He Hu. split; [done|]. left. split; [done|]. split; [done|].
  apply same_record_refl. by apply (tok_valid _ Hok i).
Qed.

(** An in-place change of a used entry. *)
Lemma table_ok_update (m : turn_map_t) i e e' : table_ok m -> map m !! i = Some e -> used (type e) ->
  type e' = type e -> record e' = record e -> table_ok (with_entry m i e').
Proof.
  intros Hok He Hu Ht Hr. apply (table_ok_set m (type e) (record e) i e); try done.
  - by apply (tok_valid _ Hok i).
  - by apply stored_slot.
  - unfold slot_record. by rewrite decide_True.
Qed.

(** The table does not depend on the ordered arrays. *)
Lemma table_ok_channels (m : turn_map_t) l : table_ok m -> table_ok (with_channels m l).
Proof. by intros []. Qed.
Lemma table_ok_transaction_ids (m : turn_map_t) l : table_ok m -> table_ok (with_transaction_ids m l).
Proof. by intros []. Qed.

(** ** Ordered arrays *)

Section Ordered.
Context (m : turn_map_t) (key : turn_entry_t -> Z).

Lemma keys_lookup (l : list nat) (p i : nat) e : l !! p = Some i -> map m !! i = Some e ->
  keys m key l !! p = Some (key e).
Proof. intros Hp He. unfold keys. rewrite list_lookup_fmap, Hp. cbn. by rewrite He. Qed.

Lemma keys_zlen (l : list nat) : zlen (keys m key l) = zlen l.
Proof. unfold zlen, keys. by rewrite length_fmap. Qed.

Lemma ordered_search (M : nat -> Prop) (l : list nat) (k : Z) (cmp : turn_entry_t -> comparison) :
  ordered m key M l -> (forall i e, M i -> map m !! i = Some e -> cmp e = (k ?= key e)) ->
  exists pos, find_ordered_rec (S (length l)) (map m) cmp l 0 (zlen l) = Some pos /\
              lower_bound (keys m key l) k pos.
Proof.
  intros [Hs Hm Hi] Hcmp. apply find_ordered_rec_spec; try done.
  - intros i e Hin. by apply Hcmp, Hm.
  - unfold zlen. lia.
  - unfold zlen. lia.
  - intros; lia.
  - intros j x Hj Hx. apply lookup_lt_Some in Hx. pose proof (keys_zlen l). unfold zlen in *. lia.
Qed.

Lemma ordered_NoDup (M : nat -> Prop) (l : list nat) : ordered m key M l -> NoDup l.
Proof.
  intros [Hs _ _]. apply (NoDup_fmap_1 (fun i => from_option key 0 (map m !! i))).
  change (NoDup (keys m key l)). induction Hs as [|x xs Hs IH Hx]; constructor; [|done].
  intros Hin. rewrite Forall_forall in Hx. apply list_elem_of_In, Hx in Hin. lia.
Qed.

(** The search finds the slot with the key when there is one. *)
Lemma lower_bound_found (M : nat -> Prop) (l : list nat) (k pos : Z) i e :
  ordered m key M l -> lower_bound (keys m key l) k pos -> M i -> map m !! i = Some e -> key e = k ->
  l !! Z.to_nat pos = Some i /\ pos < zlen l.
Proof.
  intros [Hs Hm Hi] (Hb & Hlo & Hhi) HM He Hk. apply Hm in HM.
  apply list_elem_of_lookup in HM as [p Hp]. pose proof (keys_lookup l p i e Hp He) as Hkp.
  pose proof (lookup_lt_Some _ _ _ Hp) as Hpl.
  destruct (Z.lt_trichotomy (Z.of_nat p) pos) as [Hlt|[<- |Hlt]].
  - specialize (Hlo (Z.of_nat p) (key e)). rewrite Nat2Z.id in Hlo. specialize (Hlo ltac:(lia) Hkp). lia.
  - rewrite Nat2Z.id. split; [done|]. unfold zlen. lia.
  - destruct (lookup_lt_is_Some_2 (keys m key l) (Z.to_nat pos)) as [x Hx].
    { unfold keys. rewrite length_fmap. lia. }
    assert (x < key e) by (eapply increasing_lookup; [exact Hs| |exact Hx|exact Hkp]; lia).
    specialize (Hhi pos x ltac:(lia) Hx). lia.
Qed.

Lemma ordered_entry (M : nat -> Prop) (l : list nat) (p i : nat) :
  ordered m key M l -> l !! p = Some i -> M i /\ exists e, map m !! i = Some e.
Proof.
  intros [_ Hm Hi] Hp. assert (Hin : i ∈ l) by (by eapply list_elem_of_lookup_2).
  split; [by apply Hm|]. unfold indices_ok in Hi. rewrite Forall_forall in Hi.
  destruct (lookup_lt_is_Some_2 (map m) i) as [e He]; [by apply Hi, list_elem_of_In|]. by exists e.
Qed.

Lemma ordered_remove (M : nat -> Prop) (l : list nat) (pos : Z) i :
  ordered m key M l -> l !! Z.to_nat pos = Some i ->
  ordered m key (fun j => M j /\ j <> i) (remove_at l pos).
Proof.
  intros Ho Hp. pose proof (ordered_NoDup M l Ho) as Hnd. destruct Ho as [Hs Hm Hi].
  apply list_elem_of_split_length in Hp as (l1 & l2 & -> & Hlen). unfold remove_at.
  rewrite Hlen, take_app_length, drop_app_ge, Nat.sub_succ_l, Nat.sub_diag by lia. cbn [drop].
  split.
  - unfold keys, increasing in *. rewrite fmap_app in *. rewrite fmap_cons in Hs.
    apply StronglySorted_app in Hs as (H1 & H2 & H3). inversion H3; subst.
    apply StronglySorted_app_2; [|done..]. intros x y Hx Hy. apply H1; [done|]. by right.
  - intros j. specialize (Hm j). rewrite elem_of_app in *. rewrite elem_of_cons in Hm.
    apply list.NoDup_app in Hnd as (H1 & H2 & H3). apply list.NoDup_cons in H3 as [H3 H4].
    specialize (H2 j). rewrite elem_of_cons in H2.
    destruct (decide (j = i)) as [->|]; tauto.
  - unfold indices_ok in *. apply Forall_app in Hi as [H1 H2]. apply Forall_app.
    split; [done|]. by inversion H2.
Qed.

Lemma lookup_take_elem {A} (l : list A) n x : x ∈ take n l -> exists j, (j < n)%nat /\ l !! j = Some x.
Proof.
  intros H. apply list_elem_of_lookup in H as [j Hj]. exists j.
  apply lookup_take_Some in Hj. tauto.
Qed.

Lemma lookup_drop_elem {A} (l : list A) n x : x ∈ drop n l -> exists j, (n <= j)%nat /\ l !! j = Some x.
Proof.
  intros H. apply list_elem_of_lookup in H as [j Hj]. exists (n + j)%nat.
  rewrite lookup_drop in Hj. split; [lia|done].
Qed.

(** Inserting a slot whose key is new at the position the search gives. *)
Lemma ordered_insert (M : nat -> Prop) (l : list nat) (pos : Z) i e :
  ordered m key M l -> map m !! i = Some e -> lower_bound (keys m key l) (key e) pos ->
  key e ∉ keys m key l ->
  ordered m key (fun j => M j \/ j = i) (take (Z.to_nat pos) l ++ i :: drop (Z.to_nat pos) l).
Proof.
  intros [Hs Hm Hi] He (Hb & Hlo & Hhi) Hnew. set (n := Z.to_nat pos) in *. split.
  - unfold increasing, keys in *. rewrite fmap_app, fmap_cons, fmap_take, fmap_drop.
    fold (keys m key l) in *. rewrite He. cbn [from_option].
    pose proof Hs as Hs'. rewrite <- (take_drop n (keys m key l)) in Hs'.
    apply StronglySorted_app in Hs' as (H1 & H2 & H3).
    assert (Hlt : forall x, x ∈ take n (keys m key l) -> x < key e).
    { intros x Hx. apply lookup_take_elem in Hx as (j & Hj & Hx).
      apply (Hlo (Z.of_nat j)); [lia|by rewrite Nat2Z.id]. }
    assert (Hgt : forall x, x ∈ drop n (keys m key l) -> key e < x).
    { intros x Hx. apply lookup_drop_elem in Hx as (j & Hj & Hx).
      assert (key e <> x) by (intros Heq; apply Hnew; rewrite Heq; by eapply list_elem_of_lookup_2).
      specialize (Hhi (Z.of_nat j) x). rewrite Nat2Z.id in Hhi. specialize (Hhi ltac:(lia) Hx). lia. }
    apply StronglySorted_app_2; [|done|].
    + intros x y Hx Hy. apply elem_of_cons in Hy as [-> |Hy]; [by apply Hlt|by apply H1].
    + constructor; [done|]. apply Forall_forall. intros x Hx. by apply Hgt, list_elem_of_In.
  - intros j. specialize (Hm j). rewrite <- (take_drop n l) in Hm at 1.
    rewrite elem_of_app, elem_of_cons in *. tauto.
  - unfold indices_ok in *. rewrite <- (take_drop n l) in Hi. apply Forall_app in Hi as [H1 H2].
    apply Forall_app. split; [done|]. constructor; [|done]. by eapply lookup_lt_Some.
Qed.

(** There is room for a slot that is not in the array. *)
Lemma ordered_room (M : nat -> Prop) (l : list nat) i :
  ordered m key M l -> (i < length (map m))%nat -> ~ M i -> zlen l + 1 <= map_size m.
Proof.
  intros Ho Hi HM. pose proof (ordered_NoDup M l Ho) as Hnd. destruct Ho as [_ Hm Hidx].
  assert (Hle : (length (i :: l) <= length (seq 0 (length (map m))))%nat).
  { apply submseteq_length, NoDup_submseteq.
    - constructor; [by rewrite Hm|done].
    - intros j Hj. apply elem_of_seq. apply elem_of_cons in Hj as [-> |Hj]; [lia|].
      unfold indices_ok in Hidx. rewrite Forall_forall in Hidx. apply list_elem_of_In, Hidx in Hj. lia. }
  rewrite length_seq in Hle. cbn in Hle. unfold map_size, zlen. lia.
Qed.

Lemma ordered_insert_at (M : nat -> Prop) (l : list nat) (pos : Z) i :
  ordered m key M l -> (i < length (map m))%nat -> ~ M i ->
  insert_at (map_size m) l pos i = Some (take (Z.to_nat pos) l ++ i :: drop (Z.to_nat pos) l).
Proof.
  intros Ho Hi HM. unfold insert_at. rewrite (proj2 (Z.leb_le _ _)); [done|].
  by apply (ordered_room M l i).
Qed.

(** Changes that the array does not see. *)
Lemma ordered_with_entry (M M' : nat -> Prop) (l : list nat) i e' :
  ordered m key M l -> (i < length (map m))%nat -> (forall j, M j <-> M' j) ->
  (M i -> exists e, map m !! i = Some e /\ key e' = key e) ->
  ordered (with_entry m i e') key M' l.
Proof.
  intros [Hs Hm Hi] Hil HM Hk. split.
  - replace (keys (with_entry m i e') key l) with (keys m key l); [done|].
    unfold keys. apply list_fmap_ext. intros p j Hp. rewrite with_entry_lookup by done.
    case_decide as Hij; [|done]. subst j.
    destruct Hk as (e & He & Hke); [apply Hm; by eapply list_elem_of_lookup_2|].
    rewrite He. cbn. by symmetry.
  - intros j. by rewrite Hm.
  - unfold indices_ok. cbn [with_entry map]. by rewrite length_insert.
Qed.
End Ordered.

Lemma search_cases (m : turn_map_t) (key : turn_entry_t -> Z) (M : nat -> Prop) (l : list nat) (k pos : Z) :
  ordered m key M l -> lower_bound (keys m key l) k pos ->
  (pos < zlen l /\ exists i e, l !! Z.to_nat pos = Some i /\ map m !! i = Some e /\ M i /\ key e = k) \/
  ((k ∉ keys m key l) /\
   (pos = zlen l \/
    (pos < zlen l /\ exists i e, l !! Z.to_nat pos = Some i /\ map m !! i = Some e /\ key e <> k))).
Proof.
  intros Ho Hlb. destruct (decide (k ∈ keys m key l)) as [Hin|Hout].
  - left. apply list_elem_of_fmap in Hin as (i & Hk & Hi). apply (ord_members _ _ _ _ Ho) in Hi as HM.
    apply list_elem_of_lookup in Hi as [p Hp]. destruct (ordered_entry m key M l p i Ho Hp) as [_ [e He] ].
    rewrite He in Hk. cbn in Hk. symmetry in Hk.
    destruct (lower_bound_found m key M l k pos i e Ho Hlb HM He Hk) as [Hl Hlt].
    split; [done|]. by exists i, e.
  - right. split; [done|]. destruct Hlb as (Hb & _). rewrite keys_zlen in Hb.
    destruct (Z.eq_dec pos (zlen l)) as [|Hne]; [by left|]. right. split; [lia|].
    destruct (lookup_lt_is_Some_2 l (Z.to_nat pos)) as [i Hi]; [unfold zlen in *; lia|].
    destruct (ordered_entry m key M l _ i Ho Hi) as [_ [e He] ]. exists i, e. do 2 (split; [done|]).
    intros Hk. apply Hout. eapply list_elem_of_lookup_2. rewrite <- Hk. by eapply keys_lookup.
Qed.

(** ** Channels *)

(** The entry bound to a channel. *)
Definition channel_entry (m : turn_map_t) (c : Z) : option turn_entry_t :=
  pos ← find_ordered_channel m c;
  i ← ordered_channels m !! Z.to_nat pos;
  e ← map m !! i;
  if channel e =? c then Some e else None.

Lemma find_ordered_channel_cases (m : turn_map_t) (c : Z) : channels_ok m -> c <> 0 ->
  exists pos, find_ordered_channel m c = Some pos /\
  lower_bound (keys m channel (ordered_channels m)) c pos /\
  ((pos < channels_count m /\ exists i e, ordered_channels m !! Z.to_nat pos = Some i /\
      map m !! i = Some e /\ type e = TURN_ENTRY_TYPE_CHANNEL /\ channel e = c) \/
   ((c ∉ keys m channel (ordered_channels m)) /\
    (pos = channels_count m \/
     (pos < channels_count m /\ exists i e, ordered_channels m !! Z.to_nat pos = Some i /\
       map m !! i = Some e /\ channel e <> c)))).
Proof.
  intros Hok Hc. pose proof (cok_ordered _ Hok) as Ho.
  destruct (ordered_search m channel _ _ c (fun e => c ?= channel e) Ho) as (pos & Hf & Hlb); [done|].
  exists pos. split; [exact Hf|]. split; [done|].
  destruct (search_cases m channel _ _ c pos Ho Hlb) as [(Hlt & i & e & Hi & He & HM & Hk)|Hno]; [|by right].
  left. split; [done|]. exists i, e. destruct HM as (e' & He' & Ht & _). repeat split; congruence.
Qed.

Lemma not_in_keys (m : turn_map_t) c : channels_ok m -> c <> 0 ->
  c ∉ keys m channel (ordered_channels m) ->
  forall i e, map m !! i = Some e -> type e = TURN_ENTRY_TYPE_CHANNEL -> channel e <> c.
Proof.
  intros Hok Hc Hout i e He Ht Hk. apply Hout.
  assert (Hin : i ∈ ordered_channels m).
  { apply (ord_members _ _ _ _ (cok_ordered _ Hok)). exists e. repeat split; congruence. }
  apply list_elem_of_lookup in Hin as [p Hp]. eapply list_elem_of_lookup_2. rewrite <- Hk.
  by eapply keys_lookup.
Qed.

Lemma channel_entry_spec (m : turn_map_t) c e : channels_ok m -> c <> 0 ->
  channel_entry m c = Some e <->
  exists i, map m !! i = Some e /\ type e = TURN_ENTRY_TYPE_CHANNEL /\ channel e = c.
Proof.
  intros Hok Hc. pose proof (find_ordered_channel_cases m c Hok Hc) as (pos & Hf & Hlb & Hcase).
  unfold channel_entry. rewrite Hf. cbn [mbind option_bind].
  destruct Hcase as [(Hlt & i & e0 & -> & He & Ht & Hk)|(Hout & Hpos)].
  - cbn [mbind option_bind]. rewrite He. cbn [mbind option_bind]. rewrite (proj2 (Z.eqb_eq _ _) Hk). split.
    + intros [= <-]. by exists i.
    + intros (j & Hj & Htj & Hkj).
      assert (HMj : has_channel m j) by (exists e; repeat split; congruence).
      destruct (lower_bound_found m channel _ _ c pos j e (cok_ordered _ Hok) Hlb HMj Hj Hkj) as [Hlj _].
      assert (HMi : has_channel m i) by (exists e0; repeat split; congruence).
      destruct (lower_bound_found m channel _ _ c pos i e0 (cok_ordered _ Hok) Hlb HMi He Hk) as [Hli _].
      congruence.
  - split.
    + intros Hs. exfalso. destruct Hpos as [-> |(_ & i & e' & Hi & He & Hk)].
      * rewrite lookup_ge_None_2 in Hs by (unfold channels_count, zlen; lia). discriminate.
      * rewrite Hi in Hs. cbn [mbind option_bind] in Hs. rewrite He in Hs. cbn [mbind option_bind] in Hs.
        by rewrite (proj2 (Z.eqb_neq _ _) Hk) in Hs.
    + intros (i & He & Ht & Hk). by destruct (not_in_keys m c Hok Hc Hout i e).
Qed.

Lemma valid_channel_nonzero c : is_valid_channel c = true -> c <> 0.
Proof. unfold is_valid_channel. intros H%Z.leb_le. lia. Qed.

Lemma turn_find_bound_channel_eq (m : turn_map_t) c now : channels_ok m -> is_valid_channel c = true ->
  turn_find_bound_channel m c now =
  Some (e ← channel_entry m c; if timestamp e <=? now then None else Some (record e)).
Proof.
  intros Hok Hv. pose proof (valid_channel_nonzero c Hv) as Hc.
  destruct (find_ordered_channel_cases m c Hok Hc) as (pos & Hf & _ & Hcase).
  unfold turn_find_bound_channel, channel_entry. rewrite Hv, Hf. cbn [negb mbind option_bind].
  destruct Hcase as [(Hlt & i & e & Hi & He & _ & Hk)|(_ & [-> |(Hlt & i & e & Hi & He & Hk)])].
  - rewrite (proj2 (Z.eqb_neq pos _)) by lia. rewrite Hi. cbn [mbind option_bind]. rewrite He.
    cbn [mbind option_bind]. rewrite (proj2 (Z.eqb_eq _ _) Hk). cbn. by destruct (timestamp e <=? now).
  - rewrite Z.eqb_refl. rewrite lookup_ge_None_2 by (unfold channels_count, zlen; lia). done.
  - rewrite (proj2 (Z.eqb_neq pos _)) by lia. rewrite Hi. cbn [mbind option_bind]. rewrite He.
    cbn [mbind option_bind]. by rewrite (proj2 (Z.eqb_neq _ _) Hk).
Qed.

Lemma turn_find_channel_eq (m : turn_map_t) c : channels_ok m -> is_valid_channel c = true ->
  turn_find_channel m c = Some (record <$> channel_entry m c).
Proof.
  intros Hok Hv. pose proof (valid_channel_nonzero c Hv) as Hc.
  destruct (find_ordered_channel_cases m c Hok Hc) as (pos & Hf & _ & Hcase).
  unfold turn_find_channel, channel_entry. rewrite Hv, Hf. cbn [negb mbind option_bind].
  destruct Hcase as [(Hlt & i & e & Hi & He & _ & Hk)|(_ & [-> |(Hlt & i & e & Hi & He & Hk)])].
  - rewrite (proj2 (Z.eqb_neq pos _)) by lia. rewrite Hi. cbn [mbind option_bind]. rewrite He.
    cbn [mbind option_bind]. by rewrite (proj2 (Z.eqb_eq _ _) Hk).
  - rewrite Z.eqb_refl. rewrite lookup_ge_None_2 by (unfold channels_count, zlen; lia). done.
  - rewrite (proj2 (Z.eqb_neq pos _)) by lia. rewrite Hi. cbn [mbind option_bind]. rewrite He.
    cbn [mbind option_bind]. by rewrite (proj2 (Z.eqb_neq _ _) Hk).
Qed.

(** Changes of an entry that keep its channel keep the channels. *)
Lemma channels_ok_update (m : turn_map_t) i e e' : channels_ok m -> map m !! i = Some e ->
  channel e' = channel e ->
  (type e' = type e \/ (type e <> TURN_ENTRY_TYPE_CHANNEL)) ->
  channels_ok (with_entry m i e').
Proof.
  intros Hok He Hc Ht. assert (Hi : (i < length (map m))%nat) by (by eapply lookup_lt_Some).
  assert (H0 : type e <> TURN_ENTRY_TYPE_CHANNEL -> channel e = 0) by (by apply (cok_unbound _ Hok i)).
  split.
  - apply (ordered_with_entry m channel (has_channel m)); [apply Hok|done| |by exists e].
    intros j. unfold has_channel. rewrite with_entry_lookup by done. case_decide as Hij; [subst j|done].
    rewrite He. destruct (decide (type e = TURN_ENTRY_TYPE_CHANNEL)) as [Hte|Hte].
    + assert (Hte' : type e' = TURN_ENTRY_TYPE_CHANNEL) by (by destruct Ht; [congruence|]).
      split; intros (x & Hx & _ & Hcx); apply Some_inj in Hx; subst x; [exists e'|exists e];
        repeat split; congruence.
    + rewrite (H0 Hte) in Hc. split; intros (x & Hx & Htx & Hcx); apply Some_inj in Hx; subst x;
        congruence.
  - intros j x. rewrite with_entry_lookup by done. case_decide as Hij; [|apply (cok_unbound _ Hok)].
    intros [= <-] Htx. rewrite Hc. destruct Ht as [Ht|Ht]; [apply H0; congruence|by apply H0].
  - intros j x. rewrite with_entry_lookup by done. case_decide as Hij; [|apply (cok_valid _ Hok)].
    intros [= <-]. rewrite Hc. by apply (cok_valid _ Hok i).
Qed.

(** Giving a channel that no entry has. *)
Lemma channels_ok_bind (m : turn_map_t) i e e' pos : channels_ok m -> map m !! i = Some e ->
  channel e = 0 -> is_valid_channel (channel e') = true -> type e' = TURN_ENTRY_TYPE_CHANNEL ->
  lower_bound (keys m channel (ordered_channels m)) (channel e') pos ->
  channel e' ∉ keys m channel (ordered_channels m) ->
  exists l, insert_at (map_size m) (ordered_channels m) pos i = Some l /\
            channels_ok (with_entry (with_channels m l) i e').
Proof.
  intros Hok He H0 Hvc Ht Hlb Hnew.
  assert (Hc : channel e' <> 0) by (unfold is_valid_channel in Hvc; apply Z.leb_le in Hvc; lia).
  assert (Hi : (i < length (map m))%nat) by (by eapply lookup_lt_Some).
  pose proof (cok_ordered _ Hok) as Ho.
  assert (HM : ~ has_channel m i) by (intros (x & Hx & _ & Hcx); congruence).
  eexists. split; [by apply (ordered_insert_at m channel (has_channel m))|].
  set (l := take _ _ ++ _). set (m' := with_entry m i e').
  assert (Ho' : ordered m' channel (has_channel m) (ordered_channels m)).
  { by apply (ordered_with_entry m channel (has_channel m)). }
  assert (Hkeys : keys m' channel (ordered_channels m) = keys m channel (ordered_channels m)).
  { unfold keys. apply list_fmap_ext. intros p j Hp. unfold m'. rewrite with_entry_lookup by done.
    case_decide as Hij; [subst j|done]. destruct HM. apply (ord_members _ _ _ _ Ho).
    by eapply list_elem_of_lookup_2. }
  assert (He' : map m' !! i = Some e') by (unfold m'; by rewrite with_entry_lookup, decide_True by done).
  split.
  - pose proof (ordered_insert m' channel _ _ pos i e' Ho' He') as [Hs Hm Hx]; [by rewrite Hkeys..|].
    split; [exact Hs| |exact Hx]. intros j. etransitivity; [exact (Hm j)|]. unfold has_channel.
    change (map (with_entry (with_channels m l) i e')) with (map m').
    unfold m' at 1. rewrite with_entry_lookup by done. case_decide as Hij; [subst j|split; [by intros [?|?]|by left]; congruence].
    split; [intros _; by exists e'|by right].
  - intros j x. change (map (with_entry (with_channels m l) i e')) with (map m').
    unfold m'. rewrite with_entry_lookup by done. case_decide as Hij; [|apply (cok_unbound _ Hok)].
    by intros [= <-].
  - intros j x. change (map (with_entry (with_channels m l) i e')) with (map m').
    unfold m'. rewrite with_entry_lookup by done. case_decide as Hij; [|apply (cok_valid _ Hok)].
    by intros [= <-].
Qed.

(** The channels after an entry has been given the channel [c]. *)
Lemma channel_entry_set (m m' : turn_map_t) i e e' c c' : channels_ok m -> channels_ok m' ->
  map m' = <[i := e']> (map m) -> map m !! i = Some e ->
  type e' = TURN_ENTRY_TYPE_CHANNEL -> channel e' = c -> c <> 0 -> c' <> 0 ->
  (channel e = 0 \/ channel e = c) ->
  (forall j x, map m !! j = Some x -> type x = TURN_ENTRY_TYPE_CHANNEL -> channel x = c -> j = i) ->
  channel_entry m' c' = if decide (c' = c) then Some e' else channel_entry m c'.
Proof.
  intros Hok Hok' Hmap He Ht Hce Hc Hc' Hold Huniq.
  assert (Hi : (i < length (map m))%nat) by (by eapply lookup_lt_Some).
  assert (Hl : forall j, map m' !! j = if decide (i = j) then Some e' else map m !! j).
  { intros j. rewrite Hmap. apply (with_entry_lookup m i e' j Hi). }
  case_decide as E.
  - subst c'. apply channel_entry_spec; [done..|]. exists i. by rewrite Hl, decide_True.
  - apply option_eq. intros x. rewrite !channel_entry_spec by done. split; intros (j & Hj & Htx & Hcx); exists j.
    + rewrite Hl in Hj. case_decide; [|done]. apply Some_inj in Hj. congruence.
    + rewrite Hl. case_decide as Hij; [|done]. subst j. rewrite He in Hj. apply Some_inj in Hj. subst x.
      destruct Hold; congruence.
Qed.

(** ** Queries *)

Lemma used_permission : used TURN_ENTRY_TYPE_PERMISSION.
Proof. by left. Qed.
Lemma used_channel : used TURN_ENTRY_TYPE_CHANNEL.
Proof. by right. Qed.
#[local] Hint Resolve used_permission used_channel : core.

(** The query of the entry of a peer that [find_entry] starts. *)
Lemma find_entry_query {A} (m : turn_map_t) t r (f : turn_entry_t -> A) (none : A) :
  table_ok m -> used t ->
  (found ← find_entry m r t false;
   match found with
   | None => Some none
   | Some i => e ← map m !! i; Some (if decide (type e = t) then f e else none)
   end) = Some (from_option f none (lookup_entry m t r)).
Proof.
  intros Hok Hu. unfold lookup_entry.
  destruct (find_entry_cases m t r false Hok Hu) as [(i & e & -> & Hsl)|(-> & Ha & _)]; [|done].
  cbn [mbind option_bind]. rewrite (proj1 Hsl). cbn [mbind option_bind]. by case_decide.
Qed.

Lemma turn_has_permission_eq (m : turn_map_t) r now : table_ok m ->
  turn_has_permission m r now =
  Some (from_option (fun e => now <? timestamp e) false (lookup_entry m TURN_ENTRY_TYPE_PERMISSION r)).
Proof.
  intros Hok. rewrite <- find_entry_query by done. unfold turn_has_permission.
  destruct (find_entry m r _ false) as [ [i|]|]; [|done..]. cbn [mbind option_bind].
  destruct (map m !! i) as [e|]; [|done]. cbn [mbind option_bind]. by case_bool_decide; case_decide.
Qed.

Lemma turn_get_bound_channel_eq (m : turn_map_t) r now : table_ok m ->
  turn_get_bound_channel m r now =
  Some (from_option (fun e => if (channel e =? 0) || (timestamp e <=? now) then None else Some (channel e))
    None (lookup_entry m TURN_ENTRY_TYPE_CHANNEL r)).
Proof.
  intros Hok. rewrite <- find_entry_query by done. unfold turn_get_bound_channel.
  destruct (find_entry m r _ false) as [ [i|]|]; [|done..]. cbn [mbind option_bind].
  destruct (map m !! i) as [e|]; [|done]. cbn [mbind option_bind].
  case_bool_decide; case_decide; try done. cbn. by destruct ((channel e =? 0) || (timestamp e <=? now)).
Qed.

Lemma turn_get_channel_eq (m : turn_map_t) r : table_ok m ->
  turn_get_channel m r = Some (channel <$> lookup_entry m TURN_ENTRY_TYPE_CHANNEL r).
Proof.
  intros Hok. transitivity (Some (from_option (fun e => Some (channel e)) None
    (lookup_entry m TURN_ENTRY_TYPE_CHANNEL r))); [|by destruct (lookup_entry m _ r)].
  rewrite <- find_entry_query by done. unfold turn_get_channel.
  destruct (find_entry m r _ false) as [ [i|]|]; [|done..]. cbn [mbind option_bind].
  destruct (map m !! i) as [e|]; [|done]. cbn [mbind option_bind]. by case_bool_decide; case_decide.
Qed.

(** ** Permissions *)

(** The removal of a transaction id does not fail, and touches nothing else. *)
Lemma find_ordered_rec_safe (m : turn_map_t) cmp (l : list nat) (fuel : nat) : forall begin_ end_,
  indices_ok m l -> 0 <= begin_ <= end_ -> end_ <= zlen l -> end_ - begin_ < Z.of_nat fuel ->
  exists pos, find_ordered_rec fuel (map m) cmp l begin_ end_ = Some pos /\ begin_ <= pos <= end_.
Proof.
  induction fuel as [|fuel IH]; intros b e Hi Hbe Hl Hf; [lia|].
  cbn [find_ordered_rec]. case_if; [exists b; split; [done|lia]|].
  rewrite Z.quot_div_nonneg by lia. set (p := b + (e - b) / 2).
  assert (Hp : b <= p < e) by (unfold p; zlia).
  destruct (lookup_lt_is_Some_2 l (Z.to_nat p)) as [i Hli]; [unfold zlen in Hl; lia|].
  rewrite Hli. cbn [mbind option_bind].
  destruct (lookup_lt_is_Some_2 (map m) i) as [en He].
  { unfold indices_ok in Hi. rewrite Forall_forall in Hi. apply Hi, list_elem_of_In.
    by eapply list_elem_of_lookup_2. }
  rewrite He. cbn [mbind option_bind]. destruct (cmp en).
  - exists p. split; [done|lia].
  - destruct (IH b p) as (q & -> & Hq); [done|lia..|]. exists q. split; [done|lia].
  - destruct (IH (p + 1) e) as (q & -> & Hq); [done|lia..|]. exists q. split; [done|lia].
Qed.

Lemma remove_ordered_transaction_id_safe (m : turn_map_t) tid :
  indices_ok m (ordered_transaction_ids m) ->
  exists l, remove_ordered_transaction_id m tid = Some (with_transaction_ids m l) /\
            l ⊆ ordered_transaction_ids m.
Proof.
  intros Hi. unfold remove_ordered_transaction_id, find_ordered_transaction_id.
  destruct (find_ordered_rec_safe m (fun e => memcmp tid (transaction_id e)) (ordered_transaction_ids m)
    (S (length (ordered_transaction_ids m))) 0 (transaction_ids_count m)) as (pos & -> & Hp); try done;
    try (unfold transaction_ids_count, zlen; lia).
  cbn [mbind option_bind]. case_if.
  - eexists. split; [done|]. unfold remove_at. intros x Hx. apply elem_of_app in Hx as [Hx|Hx].
    + apply lookup_take_elem in Hx as (j & _ & Hj). by eapply list_elem_of_lookup_2.
    + apply lookup_drop_elem in Hx as (j & _ & Hj). by eapply list_elem_of_lookup_2.
  - exists (ordered_transaction_ids m). split; [by destruct m|done].
Qed.

(** The three ways [update_timestamp] goes when a record is given. *)
Lemma update_timestamp_cases (m : turn_map_t) t tid r now duration :
  table_ok m -> indices_ok m (ordered_transaction_ids m) -> used t -> valid_record r ->
  (exists i e l, slot m t r i e /\ ~ (type e = t /\ transaction_id e = tid) /\
     l ⊆ ordered_transaction_ids m /\
     update_timestamp m t tid (Some r) now duration =
     Some (true, with_entry (with_transaction_ids m l) i
       {| type := t; timestamp := now + duration; record := slot_record t r e; transaction_id := tid;
          channel := channel e; fresh_transaction_id := false |})) \/
  (exists i e, slot m t r i e /\ type e = t /\ transaction_id e = tid /\
     update_timestamp m t tid (Some r) now duration = Some (true, m)) \/
  (absent m t r /\ full m /\ update_timestamp m t tid (Some r) now duration = Some (false, m)).
Proof.
  intros Hok Hidx Hu Hv. unfold update_timestamp.
  destruct (find_entry_cases m t r true Hok Hu) as [(i & e & -> & Hsl)|(-> & Ha & Hfull)];
    cbn [mbind option_bind]; [|by right; right].
  pose proof (proj1 Hsl) as He. rewrite He. cbn [mbind option_bind].
  destruct (decide (type e = t /\ transaction_id e = tid)) as [ [Ht Hid]|Hn].
  { right; left. exists i, e. by rewrite !bool_decide_eq_true_2. }
  left. exists i, e. rewrite <- bool_decide_and, (bool_decide_eq_false_2 _ Hn).
  set (m1 := if bool_decide (type e = t) then m else with_entry m i (set_type e t r)).
  assert (Hm1 : m1 = with_entry m i (set_type e t (slot_record t r e))).
  { unfold m1, slot_record. case_bool_decide as Ht; [|by rewrite decide_False].
    rewrite decide_True by done. unfold with_entry. rewrite list_insert_id; [by destruct m|].
    rewrite He. by destruct e; cbn in *; subst. }
  rewrite Hm1. clear Hm1 m1. set (e1 := set_type e t (slot_record t r e)).
  assert (Hi : (i < length (map m))%nat) by (by eapply lookup_lt_Some).
  assert (Hrem : exists l, (if memory_is_zero (transaction_id e) then Some (with_entry m i e1)
    else remove_ordered_transaction_id (with_entry m i e1) (transaction_id e))
    = Some (with_transaction_ids (with_entry m i e1) l) /\ l ⊆ ordered_transaction_ids m).
  { destruct (memory_is_zero (transaction_id e)); [by exists (ordered_transaction_ids m)|].
    apply (remove_ordered_transaction_id_safe (with_entry m i e1)). unfold indices_ok. cbn [with_entry map].
    by rewrite length_insert. }
  destruct Hrem as (l & -> & Hl). exists l. do 3 (split; [done|]). cbn [mbind option_bind].
  assert (Hm1 : map (with_transaction_ids (with_entry m i e1) l) !! i = Some e1).
  { cbn [with_transaction_ids map]. by rewrite with_entry_lookup, decide_True. }
  rewrite Hm1. cbn [mbind option_bind]. unfold touch. rewrite with_entry_lookup, decide_True;
    [|done|by eapply lookup_lt_Some]. cbn [mbind option_bind]. do 2 f_equal.
  unfold with_entry, with_transaction_ids. cbn [map]. by rewrite !list_insert_insert_eq.
Qed.

(** When a permission set now for [r] expires: a retransmitted request does not
    extend it. *)
Definition permission_until (m : turn_map_t) (tid : list Z) (r : addr_record_t) (now duration : Z) : Z :=
  match lookup_entry m TURN_ENTRY_TYPE_PERMISSION r with
  | Some e => if decide (transaction_id e = tid) then timestamp e else now + duration
  | None => now + duration
  end.

(** The invariant of the map on its own. *)
Record turn_map_ok (m : turn_map_t) : Prop := {
  mok_table : table_ok m;
  mok_channels : channels_ok m;
  mok_indices : indices_ok m (ordered_transaction_ids m)
}.

(** The same channels, seen from the peers and from the channel numbers. *)
Definition same_channels (m m' : turn_map_t) : Prop :=
  (forall r now, turn_get_bound_channel m' r now = turn_get_bound_channel m r now) /\
  (forall c now, turn_find_bound_channel m' c now = turn_find_bound_channel m c now).

Lemma same_channels_intro (m m' : turn_map_t) : turn_map_ok m -> turn_map_ok m' ->
  (forall r, lookup_entry m' TURN_ENTRY_TYPE_CHANNEL r = lookup_entry m TURN_ENTRY_TYPE_CHANNEL r) ->
  (forall c, c <> 0 -> channel_entry m' c = channel_entry m c) -> same_channels m m'.
Proof.
  intros [Ht Hc _] [Ht' Hc' _] Hl He. split; intros.
  - rewrite !turn_get_bound_channel_eq by done. by rewrite Hl.
  - destruct (is_valid_channel c) eqn:Hv.
    + rewrite !turn_find_bound_channel_eq by done. by rewrite He by (by apply valid_channel_nonzero).
    + unfold turn_find_bound_channel. by rewrite Hv.
Qed.

Lemma same_channels_refl (m : turn_map_t) : same_channels m m.
Proof. by split. Qed.

(** Rewriting an entry that has no channel and gets none. *)
Lemma channel_entry_other (m m' : turn_map_t) i e e' c : channels_ok m -> channels_ok m' ->
  map m' = <[i := e']> (map m) -> map m !! i = Some e -> channel e' = channel e ->
  channel e = 0 -> c <> 0 -> channel_entry m' c = channel_entry m c.
Proof.
  intros Hok Hok' Hmap He Hce H0 Hc. assert (Hi : (i < length (map m))%nat) by (by eapply lookup_lt_Some).
  apply option_eq. intros x. rewrite !channel_entry_spec by done. rewrite Hmap.
  change (<[i:=e']> (map m)) with (map (with_entry m i e')).
  split; intros (j & Hj & Htx & Hcx); exists j.
  - rewrite with_entry_lookup in Hj by done. case_decide; [|done]. apply Some_inj in Hj. congruence.
  - rewrite with_entry_lookup by done. case_decide; [|done]. congruence.
Qed.

Lemma turn_map_ok_indices (m : turn_map_t) l i e : turn_map_ok m -> l ⊆ ordered_transaction_ids m ->
  indices_ok (with_entry (with_transaction_ids m l) i e) l.
Proof.
  intros [_ _ Hi] Hl. unfold indices_ok in *. rewrite Forall_forall in *. intros j Hj.
  cbn [with_entry with_transaction_ids map]. rewrite length_insert. apply Hi.
  by apply list_elem_of_In, Hl, list_elem_of_In.
Qed.

Lemma channels_ok_transaction_ids (m : turn_map_t) l :
  channels_ok m -> channels_ok (with_transaction_ids m l).
Proof. intros [ [Hs Hm Hi] Hu Hv]. by constructor. Qed.

Lemma decide_same_record {A} p r r' (x y : A) :
  (if decide (same_record p r r') then x else y) = if addr_record_is_equal r r' p then x else y.
Proof.
  case_decide as H; unfold same_record in H; [by rewrite H|].
  by destruct (addr_record_is_equal r r' p).
Qed.

(** Writing a permission in its slot. *)
Lemma permission_written (m : turn_map_t) l r i e e' : turn_map_ok m -> valid_record r ->
  l ⊆ ordered_transaction_ids m -> slot m TURN_ENTRY_TYPE_PERMISSION r i e ->
  type e' = TURN_ENTRY_TYPE_PERMISSION -> record e' = slot_record TURN_ENTRY_TYPE_PERMISSION r e ->
  channel e' = channel e ->
  let m' := with_entry (with_transaction_ids m l) i e' in
  turn_map_ok m' /\ same_channels m m' /\
  (forall r', lookup_entry m' TURN_ENTRY_TYPE_PERMISSION r' =
     if decide (same_record false r r') then Some e' else lookup_entry m TURN_ENTRY_TYPE_PERMISSION r').
Proof.
  intros Hmok Hv Hl Hsl Ht Hr Hc m'. pose proof Hmok as [Hok Hch Hidx].
  set (m1 := with_transaction_ids m l) in m'.
  assert (Hok1 : table_ok m1) by (by apply table_ok_transaction_ids).
  assert (Hnc : type e <> TURN_ENTRY_TYPE_CHANNEL) by (by destruct Hsl as [_ [(_ & -> & _)|(-> & _)] ]).
  assert (Hc0 : channel e = 0) by (apply (cok_unbound _ Hch i e); [apply Hsl|done]).
  assert (Hmok' : turn_map_ok m').
  { split; [|apply (channels_ok_update m1 i e e')|by apply turn_map_ok_indices];
      [|by apply channels_ok_transaction_ids|apply Hsl|done|by right].
    by apply (table_ok_set m1 TURN_ENTRY_TYPE_PERMISSION r i e). }
  assert (Hlk : forall t' r', used t' -> lookup_entry m' t' r' =
    if decide (t' = TURN_ENTRY_TYPE_PERMISSION /\ same_record false r r') then Some e' else lookup_entry m t' r').
  { intros t' r' Hu'. by apply (lookup_entry_set m1 TURN_ENTRY_TYPE_PERMISSION r i e). }
  split; [done|]. split.
  - apply same_channels_intro; [done..| |].
    + intros r'. rewrite Hlk by done. rewrite decide_False by (by intros []). done.
    + intros c Hc'. apply (channel_entry_other m m' i e e'); [done|apply Hmok'|done|apply Hsl|done..].
  - intros r'. rewrite Hlk by done. apply decide_ext. tauto.
Qed.

Lemma turn_set_permission_spec (m : turn_map_t) (tid : list Z) (r : addr_record_t) (now duration : Z) :
  turn_map_ok m -> valid_record r ->
  exists ok m', turn_set_permission m tid (Some r) now duration = Some (ok, m') /\
  turn_map_ok m' /\ same_channels m m' /\
  (ok = false <-> lookup_entry m TURN_ENTRY_TYPE_PERMISSION r = None /\ full m) /\
  (ok = false -> m' = m) /\
  (ok = true -> forall r' now', turn_has_permission m' r' now' =
     if addr_record_is_equal r r' false
     then Some (now' <? permission_until m tid r now duration)
     else turn_has_permission m r' now').
Proof.
  intros Hmok Hv. pose proof Hmok as [Hok Hch Hidx]. unfold turn_set_permission, permission_until.
  destruct (update_timestamp_cases m TURN_ENTRY_TYPE_PERMISSION tid r now duration Hok Hidx)
    as [(i & e & l & Hsl & Hne & Hl & ->)|[(i & e & Hsl & Ht & Hid & ->)|(Ha & Hfull & ->)] ]; [done..| | |].
  - destruct (permission_written m l r i e
      {| type := TURN_ENTRY_TYPE_PERMISSION; timestamp := now + duration;
         record := slot_record TURN_ENTRY_TYPE_PERMISSION r e; transaction_id := tid;
         channel := channel e; fresh_transaction_id := false |} Hmok Hv Hl Hsl) as (Hmok' & Hsc & Hlk); [done..|].
    eexists true, _. do 3 (split; [done|]).
    rewrite (lookup_entry_slot m TURN_ENTRY_TYPE_PERMISSION r i e) by done. split; [|split; [done|] ].
    { split; [done|]. case_decide as Ht; [by intros []|]. intros [_ Hf]. destruct (Hf i e); [apply Hsl|].
      by apply (slot_absent m _ r i e Hsl). }
    intros _ r' now'. rewrite !turn_has_permission_eq, Hlk, decide_same_record by (done || apply Hmok').
    destruct (addr_record_is_equal r r' false); [|done]. cbn [from_option]. do 2 f_equal.
    case_decide; [|done]. rewrite decide_False by tauto. done.
  - assert (Hlk : forall r', same_record false r r' -> lookup_entry m TURN_ENTRY_TYPE_PERMISSION r' = Some e).
    { intros r' Hs. apply lookup_entry_spec; [done..|]. exists i.
      destruct (slot_holds m _ r i e used_permission Hsl Ht) as (H1 & H2 & H3).
      do 2 (split; [done|]). by etransitivity. }
    exists true, m. do 2 (split; [done|]). split; [apply same_channels_refl|].
    rewrite (Hlk r) by (by apply same_record_refl). split; [by split; [|intros [] ]|]. split; [done|].
    intros _ r' now'. rewrite decide_True by done. rewrite !turn_has_permission_eq by done.
    destruct (addr_record_is_equal r r' false) eqn:E; [|done]. by rewrite (Hlk r' E).
  - exists false, m. do 2 (split; [done|]). split; [apply same_channels_refl|].
    rewrite (absent_lookup m _ r) by done. done.
Qed.

(** C18: on a well-formed map, [turn_set_permission] for a peer keeps the map well
    formed and changes no channel.  It fails exactly when the peer has no
    permission and the table is full, and then changes nothing.  Otherwise the
    peer, whatever its port, has a permission until the given duration from now,
    or, when the request is a retransmission of the one that set it, until the
    time it already had, and the permissions of the other peers are unchanged. *)
Theorem turn_set_permission_correct (m : turn_map_t) (tid : list Z) (r : addr_record_t) (now duration : Z) :
  turn_map_ok m -> valid_record r ->
  exists ok m', turn_set_permission m tid (Some r) now duration = Some (ok, m') /\
  turn_map_ok m' /\ same_channels m m' /\
  (ok = false <-> lookup_entry m TURN_ENTRY_TYPE_PERMISSION r = None /\ full m) /\
  (ok = false -> m' = m) /\
  (ok = true -> forall r' now', turn_has_permission m' r' now' =
     if addr_record_is_equal r r' false
     then Some (now' <? permission_until m tid r now duration)
     else turn_has_permission m r' now').
Proof. exact (turn_set_permission_spec m tid r now duration). Qed.

(** ** Channels of a peer *)

Definition has_room (m : turn_map_t) : bool :=
  existsb (fun e => bool_decide (type e = TURN_ENTRY_TYPE_EMPTY)) (map m).

(** Whether [r] can be bound to [c]: it is already, or it has no channel and no
    peer has [c] and there is a slot for it. *)
Definition bindable (m : turn_map_t) (r : addr_record_t) (c : Z) : bool :=
  is_valid_channel c &&
  match lookup_entry m TURN_ENTRY_TYPE_CHANNEL r with
  | Some e => if channel e =? 0 then bool_decide (channel_entry m c = None) else channel e =? c
  | None => bool_decide (channel_entry m c = None) && has_room m
  end.

#[global] Instance turn_entry_eq_dec : EqDecision turn_entry_t.
Proof. solve_decision. Defined.

Lemma has_room_slot (m : turn_map_t) i e : map m !! i = Some e -> type e = TURN_ENTRY_TYPE_EMPTY ->
  has_room m = true.
Proof.
  intros He Ht. apply existsb_exists. exists e. split; [|by rewrite Ht].
  apply list_elem_of_In. by eapply list_elem_of_lookup_2.
Qed.

Lemma full_no_room (m : turn_map_t) : full m -> has_room m = false.
Proof.
  intros Hf. apply not_true_is_false. intros Hr. apply existsb_exists in Hr as (e & Hin & Ht).
  apply list_elem_of_In, list_elem_of_lookup in Hin as [i Hi]. apply bool_decide_eq_true in Ht.
  by destruct (Hf i e).
Qed.

(** What it means that [r] has been bound to [c] until [limit]. *)
Definition bound (m m' : turn_map_t) (r : addr_record_t) (c limit : Z) : Prop :=
  (forall r' now, turn_get_bound_channel m' r' now =
     if addr_record_is_equal r r' true then Some (if now <? limit then Some c else None)
     else turn_get_bound_channel m r' now) /\
  (forall c' now, c' <> c -> turn_find_bound_channel m' c' now = turn_find_bound_channel m c' now) /\
  (exists r0, same_record true r0 r /\ forall now,
     turn_find_bound_channel m' c now = Some (if now <? limit then Some r0 else None)) /\
  (forall r' now, turn_has_permission m' r' now = turn_has_permission m r' now).

(** Both ways to bind write in the slot of the peer an entry with the channel. *)
Lemma channel_written (m : turn_map_t) l r i e e' c limit : turn_map_ok m -> valid_record r ->
  slot m TURN_ENTRY_TYPE_CHANNEL r i e ->
  type e' = TURN_ENTRY_TYPE_CHANNEL -> record e' = slot_record TURN_ENTRY_TYPE_CHANNEL r e ->
  channel e' = c -> timestamp e' = limit -> is_valid_channel c = true ->
  (channel e = 0 \/ channel e = c) ->
  (forall j x, map m !! j = Some x -> type x = TURN_ENTRY_TYPE_CHANNEL -> channel x = c -> j = i) ->
  let m' := with_entry (with_channels m l) i e' in
  channels_ok m' -> turn_map_ok m' /\ bound m m' r c limit.
Proof.
  intros Hmok Hv Hsl Ht Hr Hc Hts Hvc Hold Huniq m' Hch'. pose proof Hmok as [Hok Hch Hidx].
  pose proof (valid_channel_nonzero c Hvc) as Hc0.
  set (m1 := with_channels m l) in m'. assert (Hok1 : table_ok m1) by (by apply table_ok_channels).
  assert (Hok' : table_ok m') by (by apply (table_ok_set m1 TURN_ENTRY_TYPE_CHANNEL r i e)).
  assert (Hce : forall c', c' <> 0 -> channel_entry m' c' = if decide (c' = c) then Some e' else channel_entry m c').
  { intros c' Hc'. apply (channel_entry_set m m' i e e' c c'); try done. apply Hsl. }
  assert (Hlk : forall t' r', used t' -> lookup_entry m' t' r' =
    if decide (t' = TURN_ENTRY_TYPE_CHANNEL /\ same_record true r r') then Some e' else lookup_entry m t' r').
  { intros t' r' Hu'. by apply (lookup_entry_set m1 TURN_ENTRY_TYPE_CHANNEL r i e). }
  split.
  { split; [done..|]. unfold indices_ok. cbn [m' m1 with_entry with_channels map]. by rewrite length_insert. }
  repeat split.
  - intros r' now. rewrite !turn_get_bound_channel_eq, Hlk by done.
    rewrite (decide_ext _ (same_record true r r')), decide_same_record by tauto.
    destruct (addr_record_is_equal r r' true); [|done]. cbn [from_option]. rewrite Hc, Hts.
    rewrite (proj2 (Z.eqb_neq c 0) Hc0). cbn [orb]. rewrite Z.ltb_antisym. by destruct (limit <=? now).
  - intros c' now Hc'. destruct (is_valid_channel c') eqn:Hv'.
    + rewrite !turn_find_bound_channel_eq, Hce, decide_False by (done || by apply valid_channel_nonzero). done.
    + unfold turn_find_bound_channel. by rewrite Hv'.
  - exists (record e'). split.
    + rewrite Hr. unfold slot_record. case_decide; [|by apply same_record_refl].
      by apply (slot_holds m _ r i e used_channel Hsl).
    + intros now. rewrite turn_find_bound_channel_eq, Hce, decide_True by done. cbn [mbind option_bind].
      rewrite Hts, Z.ltb_antisym. by destruct (limit <=? now).
  - intros r' now. rewrite !turn_has_permission_eq, Hlk, decide_False by (done || by intros []). done.
Qed.

Lemma channel_entry_none (m : turn_map_t) c : channels_ok m -> c <> 0 ->
  c ∉ keys m channel (ordered_channels m) -> channel_entry m c = None.
Proof.
  intros Hok Hc Hout. destruct (channel_entry m c) as [e|] eqn:E; [|done].
  apply channel_entry_spec in E as (i & He & Ht & Hk); [|done..].
  by destruct (not_in_keys m c Hok Hc Hout i e).
Qed.

Lemma channel_slot_unique (m : turn_map_t) i j e x : channels_ok m -> channel e <> 0 ->
  map m !! i = Some e -> type e = TURN_ENTRY_TYPE_CHANNEL ->
  map m !! j = Some x -> type x = TURN_ENTRY_TYPE_CHANNEL -> channel x = channel e -> j = i.
Proof.
  intros Hok Hc He Ht Hx Htx Hk. pose proof (cok_ordered _ Hok) as Ho.
  destruct (find_ordered_channel_cases m (channel e) Hok Hc) as (pos & _ & Hlb & _).
  assert (HMi : has_channel m i) by (by exists e).
  assert (HMj : has_channel m j) by (exists x; repeat split; congruence).
  destruct (lower_bound_found m channel _ _ _ pos i e Ho Hlb HMi He eq_refl) as [Hi _].
  destruct (lower_bound_found m channel _ _ _ pos j x Ho Hlb HMj Hx Hk) as [Hj _]. congruence.
Qed.

(** [bind_new] on the slot of a peer without a channel. *)
Lemma bind_new_spec (m : turn_map_t) r i e tid c now duration : turn_map_ok m -> valid_record r ->
  slot m TURN_ENTRY_TYPE_CHANNEL r i e -> channel e = 0 -> is_valid_channel c = true ->
  exists ok m', bind_new m i e r tid c now duration = Some (ok, m') /\
  turn_map_ok m' /\ ok = bool_decide (channel_entry m c = None) /\ (ok = false -> m' = m) /\
  (ok = true -> bound m m' r c (now + duration)).
Proof.
  intros Hmok Hv Hsl Hc0 Hvc. pose proof Hmok as [Hok Hch Hidx].
  pose proof (valid_channel_nonzero c Hvc) as Hc. unfold bind_new.
  destruct (find_ordered_channel_cases m c Hch Hc) as (pos & -> & Hlb & Hcase). cbn [mbind option_bind].
  destruct Hcase as [(Hlt & j & x & Hj & Hx & Htx & Hk)|(Hout & Hpos)].
  - rewrite (proj2 (Z.ltb_lt _ _) Hlt), Hj. cbn [mbind option_bind]. rewrite Hx. cbn [mbind option_bind].
    rewrite (proj2 (Z.eqb_eq _ _) Hk). exists false, m. do 2 (split; [done|]).
    rewrite (proj2 (channel_entry_spec m c x Hch Hc)) by (by exists j). done.
  - assert (Htaken : (if pos <? channels_count m then
        o ← ordered_channels m !! Z.to_nat pos; other ← map m !! o; Some (channel other =? c)
      else Some false) = Some false).
    { destruct Hpos as [-> |(Hlt & j & x & Hj & Hx & Hk)]; [by rewrite Z.ltb_irrefl|].
      rewrite (proj2 (Z.ltb_lt _ _) Hlt), Hj. cbn [mbind option_bind]. rewrite Hx. cbn [mbind option_bind].
      by rewrite (proj2 (Z.eqb_neq _ _) Hk). }
    rewrite Htaken. clear Htaken. cbn [mbind option_bind]. rewrite (channel_entry_none m c Hch Hc Hout).
    set (e0 := if bool_decide (type e = TURN_ENTRY_TYPE_CHANNEL) then e else _).
    set (e' := match tid with Some _ => _ | None => _ end).
    assert (Hr : record e' = slot_record TURN_ENTRY_TYPE_CHANNEL r e).
    { unfold e', e0, slot_record. by destruct tid; case_bool_decide; case_decide. }
    assert (Ht : type e' = TURN_ENTRY_TYPE_CHANNEL).
    { unfold e', e0. by destruct tid; case_bool_decide. }
    assert (Hce : channel e' = c) by (unfold e'; by destruct tid).
    destruct (channels_ok_bind m i e e' pos) as (l & -> & Hch'); try done; try congruence; [apply Hsl|].
    cbn [mbind option_bind]. eexists true, _. split; [done|].
    destruct (channel_written m l r i e e' c (now + duration) Hmok Hv Hsl Ht Hr Hce) as [Hmok' Hb]; try done.
    + unfold e'. by destruct tid.
    + by left.
    + intros k x Hx Htx Hcx. by destruct (not_in_keys m c Hch Hc Hout k x).
Qed.

Lemma turn_bind_channel_spec (m : turn_map_t) (r : addr_record_t) (tid : option (list Z))
    (c now duration : Z) :
  turn_map_ok m -> valid_record r ->
  exists ok m', turn_bind_channel m (Some r) tid c now duration = Some (ok, m') /\
  turn_map_ok m' /\ ok = bindable m r c /\ (ok = false -> m' = m) /\
  (ok = true -> bound m m' r c (now + duration)).
Proof.
  intros Hmok Hv. pose proof Hmok as [Hok Hch Hidx]. unfold turn_bind_channel, bindable.
  destruct (is_valid_channel c) eqn:Hvc; cbn [negb andb]; [|by exists false, m].
  pose proof (valid_channel_nonzero c Hvc) as Hc.
  destruct (find_entry_cases m TURN_ENTRY_TYPE_CHANNEL r true Hok used_channel)
    as [(i & e & -> & Hsl)|(-> & Ha & Hfull)]; cbn [mbind option_bind].
  2: { exists false, m. do 2 (split; [done|]). rewrite (absent_lookup m _ r) by done.
       by rewrite full_no_room, andb_false_r by done. }
  pose proof (proj1 Hsl) as He. rewrite He. cbn [mbind option_bind].
  rewrite (lookup_entry_slot m _ r i e Hok used_channel Hsl). case_bool_decide as Ht.
  - rewrite decide_True by done. destruct (channel e =? 0) eqn:E0; cbn [andb negb].
    { apply Z.eqb_eq in E0. by apply bind_new_spec. }
    apply Z.eqb_neq in E0. destruct (channel e =? c) eqn:Ec; cbn [negb]; [|by exists false, m].
    apply Z.eqb_eq in Ec. eexists true, _. split; [done|].
    destruct (channel_written m (ordered_channels m) r i e (set_timestamp e (now + duration)) c
      (now + duration) Hmok Hv Hsl) as [Hmok' Hb]; try done.
    + unfold slot_record. by rewrite decide_True.
    + by right.
    + intros j x Hx Htx Hcx. apply (channel_slot_unique m i j e x); try done. congruence.
    + apply (channels_ok_update m i e); [done..|]. by left.
  - cbn [andb]. rewrite decide_False by done. destruct (slot_absent m _ r i e Hsl Ht) as [Hem _].
    rewrite (has_room_slot m i e He Hem), andb_true_r. apply bind_new_spec; try done.
    by apply (cok_unbound _ Hch i).
Qed.

(** C19: on a well-formed map, [turn_bind_channel] succeeds exactly when the
    channel number is valid and the peer already has it, or the peer has no
    channel, no other peer has that one and there is room; when it fails the map
    is unchanged.  When it succeeds, until the given duration from now the peer
    is found from the channel and the channel from the peer, every other channel,
    every other peer and every permission are as before, and the map is well
    formed again. *)
Theorem turn_bind_channel_correct (m : turn_map_t) (r : addr_record_t) (tid : option (list Z))
    (c now duration : Z) :
  turn_map_ok m -> valid_record r ->
  exists ok m', turn_bind_channel m (Some r) tid c now duration = Some (ok, m') /\
  turn_map_ok m' /\ ok = bindable m r c /\ (ok = false -> m' = m) /\
  (ok = true -> bound m m' r c (now + duration)).
Proof. exact (turn_bind_channel_spec m r tid c now duration). Qed.

(** ** Transaction ids *)

Lemma unbe_cons (x : Z) (l : list Z) : unbe (x :: l) = x * 256 ^ zlen l + unbe l.
Proof.
  induction l as [|y l IH] using rev_ind; [unfold unbe, zlen; cbn; lia|].
  rewrite app_comm_cons, !unbe_snoc, IH, zlen_app, Z.pow_add_r by (unfold zlen; lia).
  change (256 ^ zlen [y]) with 256. lia.
Qed.

Lemma memcmp_unbe (a : list Z) : forall b, bytes a -> bytes b -> length a = length b ->
  memcmp a b = (unbe a ?= unbe b).
Proof.
  induction a as [|x a IH]; intros [|y b] Ha Hb Hlen; try discriminate; [done|].
  inversion Ha; inversion Hb; subst. injection Hlen as Hlen. cbn [memcmp].
  rewrite !unbe_cons. replace (zlen b) with (zlen a) by (unfold zlen; lia).
  pose proof (unbe_bound a ltac:(done)). pose proof (unbe_bound b ltac:(done)) as Hbb.
  replace (zlen b) with (zlen a) in Hbb by (unfold zlen; lia).
  set (P := 256 ^ zlen a) in *. destruct (Z.compare_spec x y) as [-> |Hlt|Hlt].
  - rewrite IH by done. destruct (Z.compare_spec (unbe a) (unbe b)); symmetry;
      [apply Z.compare_eq_iff|apply Z.compare_lt_iff|apply Z.compare_gt_iff]; lia.
  - symmetry. apply Z.compare_lt_iff. nia.
  - symmetry. apply Z.compare_gt_iff. nia.
Qed.

Lemma tid_unbe_inj (a b : list Z) : is_tid a -> is_tid b -> unbe a = unbe b -> a = b.
Proof.
  intros [Ha Hla] [Hb Hlb] H. rewrite <- (be_unbe a Ha), <- (be_unbe b Hb). congruence.
Qed.

(** The entry with a transaction id. *)
Definition tid_entry (m : turn_map_t) (tid : list Z) : option (nat * turn_entry_t) :=
  pos ← find_ordered_transaction_id m tid;
  i ← ordered_transaction_ids m !! Z.to_nat pos;
  e ← map m !! i;
  if decide (transaction_id e = tid) then Some (i, e) else None.

Definition nonzero (tid : list Z) : Prop := memory_is_zero tid = false.

(** The search in an array whose slots [M] have ids, some of the others too. *)
Lemma tid_search (m : turn_map_t) (M : nat -> Prop) (l : list nat) (tid : list Z) :
  ordered m tid_key M l -> (forall i e, map m !! i = Some e -> is_tid (transaction_id e)) -> is_tid tid ->
  exists pos, find_ordered_rec (S (length l)) (map m) (fun e => memcmp tid (transaction_id e)) l 0 (zlen l)
    = Some pos /\ lower_bound (keys m tid_key l) (unbe tid) pos.
Proof.
  intros Ho Hsh [Hb Hlen]. apply (ordered_search m tid_key M); [done|].
  intros i e _ He. destruct (Hsh i e He) as [Hb' Hlen']. apply memcmp_unbe; [done..|congruence].
Qed.

Lemma find_ordered_transaction_id_cases (m : turn_map_t) tid : tids_ok m -> is_tid tid ->
  exists pos, find_ordered_transaction_id m tid = Some pos /\
  lower_bound (keys m tid_key (ordered_transaction_ids m)) (unbe tid) pos /\
  ((pos < transaction_ids_count m /\ exists i e, ordered_transaction_ids m !! Z.to_nat pos = Some i /\
      map m !! i = Some e /\ transaction_id e = tid) \/
   ((unbe tid ∉ keys m tid_key (ordered_transaction_ids m)) /\
    (pos = transaction_ids_count m \/
     (pos < transaction_ids_count m /\ exists i e, ordered_transaction_ids m !! Z.to_nat pos = Some i /\
       map m !! i = Some e /\ transaction_id e <> tid)))).
Proof.
  intros Hok Ht. pose proof (iok_ordered _ Hok) as Ho.
  destruct (tid_search m _ _ tid Ho (iok_shape _ Hok) Ht) as (pos & Hf & Hlb).
  exists pos. split; [exact Hf|]. split; [done|].
  destruct (search_cases m tid_key _ _ _ pos Ho Hlb)
    as [(Hlt & i & e & Hi & He & _ & Hk)|(Hout & [Hp|(Hlt & i & e & Hi & He & Hk)])].
  - left. split; [done|]. exists i, e. do 2 (split; [done|]).
    apply tid_unbe_inj; [by apply (iok_shape _ Hok i)|done|done].
  - right. split; [done|]. by left.
  - right. split; [done|]. right. split; [done|]. exists i, e. do 2 (split; [done|]).
    intros <-. by apply Hk.
Qed.

Lemma tid_not_in_keys (m : turn_map_t) tid : tids_ok m -> is_tid tid -> nonzero tid ->
  (unbe tid ∉ keys m tid_key (ordered_transaction_ids m)) ->
  forall i e, map m !! i = Some e -> transaction_id e <> tid.
Proof.
  intros Hok Ht Hnz Hout i e He Hk. apply Hout.
  assert (Hin : i ∈ ordered_transaction_ids m).
  { apply (ord_members _ _ _ _ (iok_ordered _ Hok)). exists e. split; [done|]. by rewrite Hk. }
  apply list_elem_of_lookup in Hin as [p Hp]. eapply list_elem_of_lookup_2. rewrite <- Hk.
  change (unbe (transaction_id e)) with (tid_key e). by eapply keys_lookup.
Qed.

Lemma tid_entry_spec (m : turn_map_t) tid i e : tids_ok m -> is_tid tid -> nonzero tid ->
  tid_entry m tid = Some (i, e) <-> map m !! i = Some e /\ transaction_id e = tid.
Proof.
  intros Hok Ht Hnz. destruct (find_ordered_transaction_id_cases m tid Hok Ht) as (pos & Hf & Hlb & Hcase).
  unfold tid_entry. rewrite Hf. cbn [mbind option_bind].
  assert (Hfind : map m !! i = Some e -> transaction_id e = tid ->
    ordered_transaction_ids m !! Z.to_nat pos = Some i).
  { intros He Hid. apply (lower_bound_found m tid_key _ _ (unbe tid) pos i e (iok_ordered _ Hok) Hlb);
      [exists e; split; [done|]; by rewrite Hid|done|unfold tid_key; by rewrite Hid]. }
  destruct Hcase as [(Hlt & j & x & Hj & Hx & Hid)|(Hout & Hpos)].
  - rewrite Hj. cbn [mbind option_bind]. rewrite Hx. cbn [mbind option_bind]. rewrite decide_True by done.
    split; [by intros [= <- <-]|]. intros [He Hide]. specialize (Hfind He Hide). congruence.
  - split.
    + intros Hs. exfalso. destruct Hpos as [-> |(_ & j & x & Hj & Hx & Hne)].
      * rewrite lookup_ge_None_2 in Hs by (unfold transaction_ids_count, zlen; lia). discriminate.
      * rewrite Hj in Hs. cbn [mbind option_bind] in Hs. rewrite Hx in Hs. cbn [mbind option_bind] in Hs.
        by rewrite decide_False in Hs.
    + intros [He Hid]. by destruct (tid_not_in_keys m tid Hok Ht Hnz Hout i e).
Qed.

(** The lookup of a transaction id that three operations start with. *)
Lemma tid_query {A} (m : turn_map_t) tid (f : nat -> turn_entry_t -> option A) (none : A) :
  tids_ok m -> is_tid tid ->
  (pos ← find_ordered_transaction_id m tid;
   if pos =? transaction_ids_count m then Some none
   else
     i ← ordered_transaction_ids m !! Z.to_nat pos;
     e ← map m !! i;
     if negb (bool_decide (transaction_id e = tid)) then Some none else f i e) =
  match tid_entry m tid with Some (i, e) => f i e | None => Some none end.
Proof.
  intros Hok Ht. destruct (find_ordered_transaction_id_cases m tid Hok Ht) as (pos & Hf & _ & Hcase).
  unfold tid_entry. rewrite Hf. cbn [mbind option_bind].
  destruct Hcase as [(Hlt & i & e & Hi & He & Hid)|(_ & [-> |(Hlt & i & e & Hi & He & Hid)])].
  - rewrite (proj2 (Z.eqb_neq pos _)) by lia. rewrite Hi. cbn [mbind option_bind]. rewrite He.
    cbn [mbind option_bind]. by rewrite bool_decide_eq_true_2, decide_True.
  - rewrite Z.eqb_refl, lookup_ge_None_2 by (unfold transaction_ids_count, zlen; lia). done.
  - rewrite (proj2 (Z.eqb_neq pos _)) by lia. rewrite Hi. cbn [mbind option_bind]. rewrite He.
    cbn [mbind option_bind]. by rewrite bool_decide_eq_false_2, decide_False.
Qed.

Lemma turn_retrieve_total (m : turn_map_t) tid : tids_ok m -> is_tid tid ->
  exists o m', turn_retrieve_transaction_id m tid = Some (o, m').
Proof.
  intros Hok Ht. unfold turn_retrieve_transaction_id.
  rewrite (tid_query m tid (fun i e => Some (Some (record e), with_entry m i (set_fresh e false))) (None, m) Hok Ht).
  destruct (tid_entry m tid) as [ [i e]|]; by do 2 eexists.
Qed.

Lemma find_transaction_id_eq (m : turn_map_t) tid : tids_ok m -> is_tid tid ->
  find_transaction_id m tid = Some ((fun p => record p.2) <$> tid_entry m tid).
Proof.
  intros Hok Ht. unfold find_transaction_id.
  rewrite (tid_query m tid (fun _ e => Some (Some (record e))) None Hok Ht).
  by destruct (tid_entry m tid) as [ [i e]|].
Qed.

Lemma update_timestamp_none (m : turn_map_t) t tid now duration : tids_ok m -> is_tid tid ->
  update_timestamp m t tid None now duration =
  match tid_entry m tid with
  | Some (i, e) =>
      if decide (type e = t)
      then Some (true, with_entry m i (set_fresh (set_timestamp e (now + duration)) false))
      else Some (false, m)
  | None => Some (false, m)
  end.
Proof.
  intros Hok Ht.
  rewrite <- (tid_query m tid (fun i e => if decide (type e = t)
    then Some (true, with_entry m i (set_fresh (set_timestamp e (now + duration)) false))
    else Some (false, m)) (false, m) Hok Ht).
  unfold update_timestamp, touch. destruct (find_ordered_transaction_id m tid) as [pos|]; [|done].
  cbn [mbind option_bind]. case_if; [done|].
  destruct (ordered_transaction_ids m !! Z.to_nat pos) as [i|]; [|done]. cbn [mbind option_bind].
  destruct (map m !! i) as [e|] eqn:He; [|done]. cbn [mbind option_bind].
  repeat case_bool_decide; by case_decide.
Qed.

(** Changes of an entry that keep its transaction id keep the transaction ids. *)
Lemma tids_ok_update (m : turn_map_t) i e e' : tids_ok m -> map m !! i = Some e ->
  transaction_id e' = transaction_id e -> (used (type e) -> used (type e')) ->
  (fresh_transaction_id e' = true -> fresh_transaction_id e = true) ->
  tids_ok (with_entry m i e').
Proof.
  intros [Hsh Ho Hun Hfr] He Hid Hu Hf. assert (Hi : (i < length (map m))%nat) by (by eapply lookup_lt_Some).
  split.
  - intros j x. rewrite with_entry_lookup by done. case_decide; [|apply Hsh].
    intros [= <-]. rewrite Hid. by apply (Hsh i).
  - apply (ordered_with_entry m tid_key (has_tid m)); [done|done| |].
    + intros j. unfold has_tid. rewrite with_entry_lookup by done. case_decide; [subst j|done].
      rewrite He. split; intros (x & Hx & Hz); apply Some_inj in Hx; subst x;
        [exists e'|exists e]; split; congruence.
    + intros _. exists e. split; [done|]. unfold tid_key. congruence.
  - intros j x. rewrite with_entry_lookup by done. case_decide; [|apply Hun].
    intros [= <-] Hnu. rewrite Hid. apply (Hun i); tauto.
  - intros j x. rewrite with_entry_lookup by done. case_decide; [|apply Hfr].
    intros [= <-] Hf'. rewrite Hid. apply (Hfr i); tauto.
Qed.

(** The array without the slot that is about to get another id. *)
Lemma remove_own_tid (m : turn_map_t) t r i e : tids_ok m -> table_ok m -> used t ->
  slot m t r i e ->
  exists l, (if bool_decide (type e = t) && negb (memory_is_zero (transaction_id e))
             then remove_ordered_transaction_id m (transaction_id e) else Some m)
            = Some (with_transaction_ids m l) /\
            ordered m tid_key (fun j => has_tid m j /\ j <> i) l.
Proof.
  intros Hok Htb Hu Hsl. pose proof (proj1 Hsl) as He. pose proof (iok_ordered _ Hok) as Ho.
  destruct (memory_is_zero (transaction_id e)) eqn:Hz.
  - rewrite andb_false_r. exists (ordered_transaction_ids m). split; [by destruct m|].
    destruct Ho as [Hs Hm Hi]. split; [done| |done]. intros j. rewrite Hm. split; [|tauto].
    intros HM. split; [done|]. intros ->. destruct HM as (x & Hx & Hxz). congruence.
  - assert (Ht : type e = t).
    { destruct (decide (type e = t)) as [|Hne]; [done|].
      destruct (slot_absent m t r i e Hsl Hne) as [Hem _].
      rewrite (iok_unused _ Hok i e He) in Hz; [done|]. rewrite Hem. by intros []. }
    rewrite bool_decide_eq_true_2 by done. cbn [andb negb].
    destruct (find_ordered_transaction_id_cases m (transaction_id e) Hok) as (pos & Hf & Hlb & _);
      [by apply (iok_shape _ Hok i)|].
    destruct (lower_bound_found m tid_key _ _ _ pos i e Ho Hlb) as [Hp Hlt]; [by exists e|done|done|].
    unfold remove_ordered_transaction_id. rewrite Hf. cbn [mbind option_bind].
    rewrite (proj2 (Z.ltb_lt _ _)) by done. eexists. split; [done|]. by apply ordered_remove.
Qed.

(** Giving a slot a transaction id that no entry has. *)
Lemma tids_ok_set (m : turn_map_t) l i e e' pos : tids_ok m -> map m !! i = Some e ->
  ordered m tid_key (fun j => has_tid m j /\ j <> i) l ->
  lower_bound (keys m tid_key l) (tid_key e') pos -> (tid_key e' ∉ keys m tid_key l) ->
  is_tid (transaction_id e') -> nonzero (transaction_id e') -> used (type e') ->
  exists l', insert_at (map_size m) l pos i = Some l' /\
             tids_ok (with_entry (with_transaction_ids m l') i e').
Proof.
  intros [Hsh _ Hun Hfr] He Ho Hlb Hnew Ht Hnz Hu.
  assert (Hi : (i < length (map m))%nat) by (by eapply lookup_lt_Some).
  set (M := fun j => has_tid m j /\ j <> i) in *. assert (HM : ~ M i) by (by intros [_ ?]).
  eexists. split; [by apply (ordered_insert_at m tid_key M)|]. set (l' := take _ _ ++ _).
  set (m' := with_entry m i e').
  assert (Ho' : ordered m' tid_key M l) by (by apply (ordered_with_entry m tid_key M)).
  assert (Hkeys : keys m' tid_key l = keys m tid_key l).
  { unfold keys. apply list_fmap_ext. intros p j Hp. unfold m'. rewrite with_entry_lookup by done.
    case_decide as Hij; [subst j|done]. destruct HM. apply (ord_members _ _ _ _ Ho).
    by eapply list_elem_of_lookup_2. }
  assert (He' : map m' !! i = Some e') by (unfold m'; by rewrite with_entry_lookup, decide_True by done).
  assert (Hall : forall j x, map m' !! j = Some x -> (j = i /\ x = e') \/ (j <> i /\ map m !! j = Some x)).
  { intros j x. unfold m'. rewrite with_entry_lookup by done. case_decide; [left|right]; [|done].
    split; congruence. }
  split; change (map (with_entry (with_transaction_ids m l') i e')) with (map m').
  - intros j x Hx. destruct (Hall j x Hx) as [ [_ ->]|[_ Hx'] ]; [done|by apply (Hsh j)].
  - pose proof (ordered_insert m' tid_key _ _ pos i e' Ho' He') as [Hs Hm Hx]; [by rewrite Hkeys..|].
    split; [exact Hs| |exact Hx]. intros j. etransitivity; [exact (Hm j)|]. unfold M, has_tid.
    change (map (with_entry (with_transaction_ids m l') i e')) with (map m'). unfold m'.
    rewrite with_entry_lookup by done. case_decide as Hij; [subst j|].
    + split; [intros _; by exists e'|by right].
    + split; [by intros [ [? _]|?]; [|congruence] |]. intros Hx'. left. split; [done|congruence].
  - intros j x Hx. destruct (Hall j x Hx) as [ [_ ->]|[_ Hx'] ]; [done|by apply (Hun j)].
  - intros j x Hx. destruct (Hall j x Hx) as [ [_ ->]|[_ Hx'] ]; [done|by apply (Hfr j)].
Qed.

(** The invariant of a map whose transaction ids all come from
    [set_random_transaction_id]: the one of a client. *)
Record client_ok (m : turn_map_t) : Prop := {
  clok_map : turn_map_ok m;
  clok_tids : tids_ok m;
  clok_empty : forall i e, map m !! i = Some e -> type e = TURN_ENTRY_TYPE_EMPTY -> timestamp e = 0
}.

(** The entry written for a request. *)
Definition requested (t : turn_entry_type_t) (r : addr_record_t) (tid : list Z) (e : turn_entry_t) :=
  {| type := t; timestamp := timestamp e; record := slot_record t r e; transaction_id := tid;
     channel := channel e; fresh_transaction_id := true |}.

Lemma set_transaction_id_cases (m : turn_map_t) t r tid :
  client_ok m -> used t -> valid_record r -> is_tid tid -> nonzero tid -> tid_entry m tid = None ->
  (exists i e l, slot m t r i e /\
     set_transaction_id m t r tid =
       Some (true, with_entry (with_transaction_ids m l) i (requested t r tid e)) /\
     client_ok (with_entry (with_transaction_ids m l) i (requested t r tid e))) \/
  (absent m t r /\ full m /\ set_transaction_id m t r tid = Some (false, m)).
Proof.
  intros [ [Hok Hch Hidx] Htids Hem] Hu Hv Ht Hnz Hfree. unfold set_transaction_id.
  assert (Hg : negb (bool_decide (t = TURN_ENTRY_TYPE_PERMISSION)) &&
               negb (bool_decide (t = TURN_ENTRY_TYPE_CHANNEL)) = false) by (by destruct Hu; subst).
  rewrite Hg. clear Hg.
  destruct (find_entry_cases m t r true Hok Hu) as [(i & e & -> & Hsl)|(-> & Ha & Hfull)];
    cbn [mbind option_bind]; [|by right].
  left. pose proof (proj1 Hsl) as He. rewrite He. cbn [mbind option_bind].
  destruct (remove_own_tid m t r i e Htids Hok Hu Hsl) as (l0 & -> & Ho). cbn [mbind option_bind].
  destruct (tid_search m _ l0 tid Ho (iok_shape _ Htids) Ht) as (pos & Hf & Hlb).
  change (find_ordered_transaction_id (with_transaction_ids m l0) tid) with
    (find_ordered_rec (S (length l0)) (map m) (fun e => memcmp tid (transaction_id e)) l0 0 (zlen l0)).
  rewrite Hf. cbn [mbind option_bind].
  assert (Hnew : unbe tid ∉ keys m tid_key l0).
  { intros Hin. apply list_elem_of_fmap in Hin as (j & Hk & Hj). apply (ord_members _ _ _ _ Ho) in Hj as [HMj _].
    destruct HMj as (x & Hx & _). rewrite Hx in Hk. cbn in Hk.
    assert (transaction_id x = tid) by (symmetry; apply tid_unbe_inj; [done|by apply (iok_shape _ Htids j)|done]).
    assert (tid_entry m tid = Some (j, x)) by (by apply tid_entry_spec). congruence. }
  destruct (tids_ok_set m l0 i e (requested t r tid e) pos Htids He Ho Hlb Hnew Ht Hnz Hu) as (l' & Hins & Htids').
  change (map_size (with_transaction_ids m l0)) with (map_size m).
  change (ordered_transaction_ids (with_transaction_ids m l0)) with l0. rewrite Hins. cbn [mbind option_bind].
  exists i, e, l'. split; [done|].
  assert (Heq : set_fresh (set_tid (if bool_decide (type e = t) then e else set_type e t r) tid) true
                = requested t r tid e).
  { unfold requested, slot_record. case_bool_decide as E; case_decide; try done. by rewrite <- E. }
  rewrite Heq. split; [done|]. assert (Hi : (i < length (map m))%nat) by (by eapply lookup_lt_Some).
  split; [split| |]; [| | |done|].
  - by apply (table_ok_set (with_transaction_ids m l') t r i e); [by apply table_ok_transaction_ids|..].
  - apply (channels_ok_update (with_transaction_ids m l') i e); [by apply channels_ok_transaction_ids|done|done|].
    destruct (decide (type e = t)) as [->|Hne]; [by left|right].
    by rewrite (proj1 (slot_absent m t r i e Hsl Hne)).
  - apply (ord_indices _ _ _ _ (iok_ordered _ Htids')).
  - intros j x. rewrite (with_entry_lookup (with_transaction_ids m l')) by done.
    destruct (decide (i = j)); [|apply Hem]. intros [= <-] Hte. by destruct (used_not_empty t Hu).
Qed.

(** Random ids of which one at least is not in use. *)
Definition draws_ok (m : turn_map_t) (draws : list (list Z)) : Prop :=
  Forall (fun tid => is_tid tid /\ nonzero tid) draws /\ Exists (fun tid => tid_entry m tid = None) draws.

Lemma draw_transaction_id_spec (m : turn_map_t) draws : tids_ok m -> draws_ok m draws ->
  exists tid, draw_transaction_id m draws = Some tid /\ is_tid tid /\ nonzero tid /\ tid_entry m tid = None.
Proof.
  intros Hok [Hall Hex]. induction draws as [|tid draws IH]; [by inversion Hex|].
  inversion Hall as [|? ? [Ht Hnz] Hall']; subst. cbn [draw_transaction_id].
  rewrite find_transaction_id_eq by done. cbn [mbind option_bind].
  destruct (tid_entry m tid) as [p|] eqn:E; cbn [fmap option_fmap option_map]; [|by exists tid].
  apply IH; [done|]. inversion Hex; subst; [congruence|done].
Qed.

(** The request for [r] has gone out with [tid]: the entry with that id is its
    entry, with the expiry and channel it had, and the other entries have not
    changed. *)
Definition requested_in (m m' : turn_map_t) (t : turn_entry_type_t) (r : addr_record_t) (tid : list Z) : Prop :=
  is_tid tid /\ exists i e', tid_entry m' tid = Some (i, e') /\ slot m' t r i e' /\ type e' = t /\
  timestamp e' = from_option timestamp 0 (lookup_entry m t r) /\
  channel e' = from_option channel 0 (lookup_entry m t r) /\
  forall t' r', used t' -> lookup_entry m' t' r' =
    if decide (t' = t /\ same_record (with_port t) r r') then Some e' else lookup_entry m t' r'.

Lemma requested_in_fresh (m : turn_map_t) t r i e : client_ok m -> used t -> valid_record r ->
  slot m t r i e -> fresh_transaction_id e = true -> requested_in m m t r (transaction_id e).
Proof.
  intros [ [Hok _ _] Htids _] Hu Hv Hsl Hf. pose proof (proj1 Hsl) as He.
  pose proof (iok_fresh _ Htids i e He Hf) as Hnz.
  assert (Ht : type e = t).
  { destruct (decide (type e = t)) as [|Hne]; [done|].
    destruct (slot_absent m t r i e Hsl Hne) as [Hem _].
    rewrite (iok_unused _ Htids i e He) in Hnz; [done|]. rewrite Hem. by intros []. }
  pose proof (iok_shape _ Htids i e He) as Hshape.
  split; [done|]. exists i, e. rewrite (lookup_entry_slot m t r i e Hok Hu Hsl), decide_True by done.
  split; [by apply tid_entry_spec|]. do 4 (split; [done|]). intros t' r' Hu'.
  case_decide as Hc; [|done]. destruct Hc as [-> Hs]. apply lookup_entry_spec; [done..|]. exists i.
  destruct (slot_holds m t r i e Hu Hsl Ht) as (_ & _ & Hr). split; [done|]. split; [done|]. by etransitivity.
Qed.

Lemma requested_in_set (m : turn_map_t) l t r i e tid : client_ok m -> used t -> valid_record r ->
  is_tid tid -> nonzero tid -> slot m t r i e ->
  let m' := with_entry (with_transaction_ids m l) i (requested t r tid e) in
  client_ok m' -> requested_in m m' t r tid.
Proof.
  intros [ [Hok Hch _] Htids Hem] Hu Hv Ht Hnz Hsl m' Hok'. pose proof (proj1 Hsl) as He.
  assert (Hi : (i < length (map m))%nat) by (by eapply lookup_lt_Some).
  assert (Hlk : map m' !! i = Some (requested t r tid e)).
  { unfold m'. by rewrite (with_entry_lookup (with_transaction_ids m l)), decide_True. }
  split; [done|]. exists i, (requested t r tid e).
  rewrite (lookup_entry_slot m t r i e Hok Hu Hsl).
  assert (Hvals : timestamp e = from_option timestamp 0 (if decide (type e = t) then Some e else None) /\
                  channel e = from_option channel 0 (if decide (type e = t) then Some e else None)).
  { case_decide as E; [done|]. destruct (slot_absent m t r i e Hsl E) as [Hte _]. cbn.
    split; [by apply (Hem i)|]. apply (cok_unbound _ Hch i); [done|]. by rewrite Hte. }
  destruct Hvals as [Hv1 Hv2]. split; [apply tid_entry_spec; by try apply Hok'|]. split.
  { split; [done|]. left. split; [done|]. split; [done|]. cbn. unfold slot_record.
    case_decide as E; [|by apply same_record_refl]. by apply (slot_holds m t r i e Hu Hsl). }
  do 3 (split; [done|]). intros t' r' Hu'.
  by apply (lookup_entry_set (with_transaction_ids m l) t r i e); [by apply table_ok_transaction_ids|..].
Qed.

Lemma set_random_transaction_id_spec (m : turn_map_t) t r draws :
  client_ok m -> used t -> valid_record r -> draws_ok m draws ->
  exists ok tid m', set_random_transaction_id m t r draws = Some (ok, tid, m') /\ client_ok m' /\
  (ok = false <-> lookup_entry m t r = None /\ full m) /\ (ok = false -> m' = m) /\
  (ok = true -> requested_in m m' t r tid).
Proof.
  intros Hcl Hu Hv Hd. pose proof Hcl as [ [Hok _ _] Htids _]. unfold set_random_transaction_id.
  destruct (draw_transaction_id_spec m draws Htids Hd) as (tid & Hdraw & Ht & Hnz & Hfree).
  assert (Hset : exists ok tid m',
    (tid ← draw_transaction_id m draws; '(ok, m) ← set_transaction_id m t r tid; Some (ok, tid, m))
    = Some (ok, tid, m') /\ client_ok m' /\
    (ok = false <-> lookup_entry m t r = None /\ full m) /\ (ok = false -> m' = m) /\
    (ok = true -> requested_in m m' t r tid)).
  { rewrite Hdraw. cbn [mbind option_bind].
    destruct (set_transaction_id_cases m t r tid Hcl Hu Hv Ht Hnz Hfree) as
      [(i & e & l & Hsl & -> & Hcl')|(Ha & Hfull & ->)]; cbn [mbind option_bind].
    - eexists true, tid, _. do 2 (split; [done|]). split.
      { split; [done|]. rewrite (lookup_entry_slot m t r i e Hok Hu Hsl). case_decide as E; [by intros []|].
        intros [_ Hf]. destruct (Hf i e); [apply Hsl|]. by apply (slot_absent m t r i e Hsl). }
      split; [done|]. intros _. by apply requested_in_set.
    - exists false, tid, m. do 2 (split; [done|]). by rewrite (absent_lookup m t r). }
  destruct (find_entry_cases m t r false Hok Hu) as [(i & e & -> & Hsl)|(-> & _ & _)];
    cbn [mbind option_bind]; [|done].
  rewrite (proj1 Hsl). cbn [mbind option_bind]. destruct (fresh_transaction_id e) eqn:Hf; [|done].
  exists true, (transaction_id e), m. do 2 (split; [done|]).
  pose proof (requested_in_fresh m t r i e Hcl Hu Hv Hsl Hf) as Hreq. split; [|done].
  split; [done|]. intros [Hl _]. exfalso. destruct Hreq as (_ & j & x & _ & Hslx & Htx & _).
  rewrite (lookup_entry_slot m t r j x Hok Hu Hslx) in Hl. by rewrite decide_True in Hl.
Qed.

Lemma response_accepted (m m' : turn_map_t) t r tid now duration : client_ok m' -> used t -> valid_record r ->
  requested_in m m' t r tid ->
  exists m'' e'', update_timestamp m' t tid None now duration = Some (true, m'') /\ client_ok m'' /\
  timestamp e'' = now + duration /\ channel e'' = from_option channel 0 (lookup_entry m t r) /\
  forall t' r', used t' -> lookup_entry m'' t' r' =
    if decide (t' = t /\ same_record (with_port t) r r') then Some e'' else lookup_entry m t' r'.
Proof.
  intros [ [Hok Hch Hidx] Htids Hem] Hu Hv (Htid & i & e & Hte & Hsl & Ht & _ & Hc & Hlk).
  rewrite update_timestamp_none, Hte, decide_True by done. pose proof (proj1 Hsl) as He.
  assert (Hi : (i < length (map m'))%nat) by (by eapply lookup_lt_Some).
  set (e'' := set_fresh (set_timestamp e (now + duration)) false).
  assert (Hr : record e'' = slot_record t r e) by (unfold slot_record; by rewrite decide_True).
  exists (with_entry m' i e''), e''. split; [done|]. split; [split; [split| |] |].
  - by apply (table_ok_set m' t r i e).
  - apply (channels_ok_update m' i e); [done..|by left].
  - unfold indices_ok in *. cbn [with_entry map ordered_transaction_ids]. by rewrite length_insert.
  - by apply (tids_ok_update m' i e).
  - intros j x. rewrite with_entry_lookup by done. destruct (decide (i = j)); [|apply Hem].
    intros [= <-] Hty. cbn in Hty. destruct (used_not_empty t Hu). congruence.
  - do 2 (split; [done|]). intros t' r' Hu'. rewrite (lookup_entry_set m' t r i e) by done.
    case_decide as Hd; [done|]. rewrite Hlk by done. by rewrite decide_False.
Qed.

(** The exchange of a client that asks for a permission.  On a well-formed
    map with random ids one of which is free,
    [turn_set_random_permission_transaction_id] fails exactly when the peer has
    no entry and the table is full, and grants nothing by itself.  When the
    response comes with the id it gave, [turn_set_permission] without a record
    grants the permission to that peer for the given duration, and to no other. *)
Theorem turn_permission_request_correct (m : turn_map_t) (r : addr_record_t) (draws : list (list Z)) :
  client_ok m -> valid_record r -> draws_ok m draws ->
  exists ok tid m', turn_set_random_permission_transaction_id m r draws = Some (ok, tid, m') /\
  client_ok m' /\
  (ok = false <-> lookup_entry m TURN_ENTRY_TYPE_PERMISSION r = None /\ full m) /\ (ok = false -> m' = m) /\
  (ok = true ->
   (forall r' now, 0 <= now -> turn_has_permission m' r' now = turn_has_permission m r' now) /\
   forall now duration, exists m'', turn_set_permission m' tid None now duration = Some (true, m'') /\
   client_ok m'' /\
   forall r' now', turn_has_permission m'' r' now' =
     if addr_record_is_equal r r' false then Some (now' <? now + duration)
     else turn_has_permission m r' now').
Proof.
  intros Hcl Hv Hd.
  destruct (set_random_transaction_id_spec m TURN_ENTRY_TYPE_PERMISSION r draws Hcl used_permission Hv Hd)
    as (ok & tid & m' & Hset & Hcl' & Hok & Hm & Hreq).
  exists ok, tid, m'. do 4 (split; [done|]). intros Htrue. specialize (Hreq Htrue). split.
  - intros r' now Hnow. rewrite !turn_has_permission_eq by (apply Hcl' || apply Hcl). f_equal.
    destruct Hreq as (_ & i & e & _ & _ & _ & Hts & _ & Hlk). rewrite Hlk by done. case_decide as Hs; [|done].
    destruct Hs as [_ Hs]. cbn [from_option]. rewrite Hts.
    assert (Heq : lookup_entry m TURN_ENTRY_TYPE_PERMISSION r' = lookup_entry m TURN_ENTRY_TYPE_PERMISSION r).
    { apply option_eq. intros x. rewrite !lookup_entry_spec by (done || apply Hcl). unfold holds. cbn [with_port].
      split; intros (j & H1 & H2 & H3); exists j; do 2 (split; [done|]); etransitivity; try exact H3; by try symmetry. }
    rewrite Heq. destruct (lookup_entry m _ r) as [x|]; [done|]. cbn [from_option]. apply Z.ltb_ge. lia.
  - intros now duration.
    destruct (response_accepted m m' TURN_ENTRY_TYPE_PERMISSION r tid now duration Hcl' used_permission Hv Hreq)
      as (m'' & e & Hup & Hcl'' & Hts & _ & Hlk).
    exists m''. split; [exact Hup|]. split; [done|]. intros r' now'.
    rewrite !turn_has_permission_eq, Hlk by (done || apply Hcl'' || apply Hcl).
    rewrite (decide_ext _ (same_record false r r')), decide_same_record by (cbn; tauto).
    destruct (addr_record_is_equal r r' false); [|done]. cbn [from_option]. by rewrite Hts.
Qed.

(** The exchange of a client that binds a channel it has reserved for a peer.
    [turn_set_random_channel_transaction_id] succeeds, and when the response
    comes with the id it gave, [turn_bind_current_channel] without a record makes
    that channel, and no other, bound to the peer for the given duration. *)
Theorem turn_channel_request_correct (m : turn_map_t) (r : addr_record_t) (c : Z) (draws : list (list Z)) :
  client_ok m -> valid_record r -> draws_ok m draws ->
  turn_get_channel m r = Some (Some c) -> c <> 0 ->
  exists tid m', turn_set_random_channel_transaction_id m r draws = Some (true, tid, m') /\ client_ok m' /\
  forall now duration, exists m'', turn_bind_current_channel m' tid None now duration = Some (true, m'') /\
  client_ok m'' /\
  forall r' now', turn_get_bound_channel m'' r' now' =
    if addr_record_is_equal r r' true then Some (if now' <? now + duration then Some c else None)
    else turn_get_bound_channel m r' now'.
Proof.
  intros Hcl Hv Hd Hget Hc. rewrite turn_get_channel_eq in Hget by apply Hcl. apply Some_inj in Hget.
  apply fmap_Some in Hget as (e0 & Hl & ->).
  destruct (set_random_transaction_id_spec m TURN_ENTRY_TYPE_CHANNEL r draws Hcl used_channel Hv Hd)
    as ([] & tid & m' & Hset & Hcl' & Hok & _ & Hreq).
  2: { destruct (proj1 Hok eq_refl) as [Hn _]. congruence. }
  exists tid, m'. do 2 (split; [done|]). intros now duration.
  destruct (response_accepted m m' TURN_ENTRY_TYPE_CHANNEL r tid now duration Hcl' used_channel Hv (Hreq eq_refl))
    as (m'' & e & Hup & Hcl'' & Hts & Hce & Hlk).
  exists m''. split; [exact Hup|]. split; [done|]. intros r' now'.
  rewrite !turn_get_bound_channel_eq, Hlk by (done || apply Hcl'' || apply Hcl).
  rewrite (decide_ext _ (same_record true r r')), decide_same_record by (cbn; tauto).
  destruct (addr_record_is_equal r r' true); [|done]. cbn [from_option]. rewrite Hts, Hce, Hl. cbn [from_option].
  rewrite (proj2 (Z.eqb_neq _ _) Hc). cbn [orb]. rewrite Z.ltb_antisym. by destruct (now + duration <=? now').
Qed.

(** ** Use of the map *)

Lemma init_lookup (size : Z) i e : map (turn_init_map size) !! i = Some e -> e = turn_entry_zero.
Proof. intros H. cbn in H. by apply lookup_replicate in H as [-> _]. Qed.

Lemma turn_init_map_ok (size : Z) : 0 < size -> turn_map_ok (turn_init_map size).
Proof.
  intros Hs. split; [split|split; [split| |]|constructor].
  - unfold map_size, zlen. cbn. rewrite length_replicate. lia.
  - by intros i e ->%init_lookup.
  - by intros i e ->%init_lookup [].
  - by intros i e ->%init_lookup [].
  - by intros i j e e' ->%init_lookup _ [].
  - constructor.
  - intros i. split; [intros H; by apply not_elem_of_nil in H|]. by intros (e & ->%init_lookup & ? & _).
  - constructor.
  - by intros i e ->%init_lookup.
  - by intros i e ->%init_lookup.
Qed.

Lemma turn_init_client_ok (size : Z) : 0 < size -> client_ok (turn_init_map size).
Proof.
  intros Hs. split; [by apply turn_init_map_ok| |by intros i e ->%init_lookup].
  split; [| split| |].
  - intros i e ->%init_lookup. split; [|done]. apply bytes_forallb. reflexivity.
  - constructor.
  - intros i. split; [intros H; by apply not_elem_of_nil in H|]. by intros (e & ->%init_lookup & ?).
  - constructor.
  - by intros i e ->%init_lookup.
  - by intros i e ->%init_lookup.
Qed.

(** The maps of a server: it sets permissions and binds channels for the peers
    named in the requests. *)
Inductive server_map : turn_map_t -> Prop :=
| server_map_init size : 0 < size -> server_map (turn_init_map size)
| server_map_permission m tid r now duration ok m' : server_map m -> valid_record r ->
    turn_set_permission m tid (Some r) now duration = Some (ok, m') -> server_map m'
| server_map_bind m r tid c now duration ok m' : server_map m -> valid_record r ->
    turn_bind_channel m (Some r) tid c now duration = Some (ok, m') -> server_map m'.

Lemma server_map_ok (m : turn_map_t) : server_map m -> turn_map_ok m.
Proof.
  induction 1 as [size Hs|m tid r now duration ok m' _ IH Hv H|m r tid c now duration ok m' _ IH Hv H].
  - by apply turn_init_map_ok.
  - unfold turn_set_permission in H. pose proof IH as [Hok _ Hidx].
    destruct (update_timestamp_cases m TURN_ENTRY_TYPE_PERMISSION tid r now duration Hok Hidx)
      as [(i & e & l & Hsl & _ & Hl & Hu)|[(i & e & _ & _ & _ & Hu)|(_ & _ & Hu)] ];
      [done..| | |]; rewrite Hu in H; injection H as <- <-; [|done|done].
    apply (permission_written m l r i e _ IH Hv Hl Hsl); done.
  - destruct (turn_bind_channel_spec m r tid c now duration IH Hv) as (ok' & m0 & Hb & Hmok & _).
    rewrite Hb in H. by injection H as <- <-.
Qed.

(** The maps of a client: it reserves channels, asks for permissions and channels
    with random ids, and takes the responses. *)
Inductive client_map : turn_map_t -> Prop :=
| client_map_init size : 0 < size -> client_map (turn_init_map size)
| client_map_reserve m r c now duration ok m' : client_map m -> valid_record r ->
    turn_bind_channel m (Some r) None c now duration = Some (ok, m') -> client_map m'
| client_map_request m t r draws ok tid m' : client_map m -> used t -> valid_record r -> draws_ok m draws ->
    set_random_transaction_id m t r draws = Some (ok, tid, m') -> client_map m'
| client_map_response m t tid now duration ok m' : client_map m -> is_tid tid -> nonzero tid ->
    update_timestamp m t tid None now duration = Some (ok, m') -> client_map m'
| client_map_retrieve m tid res m' : client_map m -> is_tid tid -> nonzero tid ->
    turn_retrieve_transaction_id m tid = Some (res, m') -> client_map m'.

(** Without a transaction id, binding keeps the one of the entry. *)
Lemma turn_bind_channel_shape (m : turn_map_t) r c now duration ok m' :
  turn_bind_channel m (Some r) None c now duration = Some (ok, m') ->
  m' = m \/ exists i e l e', map m !! i = Some e /\ m' = with_entry (with_channels m l) i e' /\
    transaction_id e' = transaction_id e /\ fresh_transaction_id e' = fresh_transaction_id e /\
    type e' = TURN_ENTRY_TYPE_CHANNEL.
Proof.
  unfold turn_bind_channel. destruct (is_valid_channel c); cbn [negb]; [|intros [= <- <-]; by left].
  intros H. apply bind_Some in H as ([i|] & _ & H); [|injection H as <- <-; by left].
  apply bind_Some in H as (e & He & H). case_bool_decide as Ht; cbn [andb] in H.
  1: destruct (channel e =? 0); cbn [negb] in H;
     [|destruct (channel e =? c); injection H as <- <-; [right|by left];
       exists i, e, (ordered_channels m); by eexists].
  all: unfold bind_new in H; apply bind_Some in H as (pos & _ & H);
    apply bind_Some in H as ([] & _ & H); [injection H as <- <-; by left|];
    apply bind_Some in H as (l & _ & H); injection H as <- <-; right; exists i, e, l; eexists;
    split; [done|]; split; [done|]; by case_bool_decide.
Qed.

Lemma tids_ok_channels (m : turn_map_t) l : tids_ok m -> tids_ok (with_channels m l).
Proof. intros [Hsh [Hs Hm Hi] Hu Hf]. by split; [|split|..]. Qed.

Lemma tid_entry_used (m : turn_map_t) tid i e : tids_ok m -> nonzero tid -> is_tid tid ->
  tid_entry m tid = Some (i, e) -> map m !! i = Some e /\ used (type e).
Proof.
  intros Hok Hnz Ht H. apply tid_entry_spec in H as [He Hid]; [|done..]. split; [done|].
  destruct (type e) eqn:E; try (by left); try (by right);
    (rewrite <- Hid in Hnz; unfold nonzero in Hnz; rewrite (iok_unused _ Hok i e He) in Hnz; [done|];
     rewrite E; by intros []).
Qed.

(** An in-place change of a used entry of a client. *)
Lemma client_ok_update (m : turn_map_t) i e e' : client_ok m -> map m !! i = Some e -> used (type e) ->
  type e' = type e -> record e' = record e -> transaction_id e' = transaction_id e ->
  channel e' = channel e -> fresh_transaction_id e' = false -> client_ok (with_entry m i e').
Proof.
  intros [ [Hok Hch Hidx] Htids Hem] He Hu Ht Hr Hid Hc Hf.
  assert (Hi : (i < length (map m))%nat) by (by eapply lookup_lt_Some).
  split; [split| |].
  - by apply (table_ok_update m i e).
  - apply (channels_ok_update m i e); [done..|by left].
  - unfold indices_ok in *. cbn [with_entry map ordered_transaction_ids]. by rewrite length_insert.
  - apply (tids_ok_update m i e); [done..|by rewrite Ht|by rewrite Hf].
  - intros j x. rewrite with_entry_lookup by done. destruct (decide (i = j)); [|apply Hem].
    intros [= <-] Hty. destruct (used_not_empty _ Hu). congruence.
Qed.

Lemma client_map_ok (m : turn_map_t) : client_map m -> client_ok m.
Proof.
  induction 1 as [size Hs|m r c now duration ok m' _ IH Hv H|m t r draws ok tid m' _ IH Hu Hv Hd H
    |m t tid now duration ok m' _ IH Ht Hnz H|m tid res m' _ IH Ht Hnz H].
  - by apply turn_init_client_ok.
  - destruct (turn_bind_channel_spec m r None c now duration (clok_map _ IH) Hv) as (ok' & m0 & Hb & Hmok & _).
    rewrite Hb in H. injection H as <- <-.
    destruct (turn_bind_channel_shape _ _ _ _ _ _ _ Hb) as [-> |(i & e & l & e' & He & -> & Hid & Hf & Ht)]; [done|].
    destruct IH as [_ Htids Hem]. split; [done| |].
    + apply (tids_ok_update (with_channels m l) i e); [by apply tids_ok_channels|done..| |by rewrite Hf].
      intros _. rewrite Ht. done.
    + intros j x. rewrite (with_entry_lookup (with_channels m l)) by (by eapply lookup_lt_Some).
      destruct (decide (i = j)); [|apply Hem]. intros [= <-] Hty. congruence.
  - destruct (set_random_transaction_id_spec m t r draws IH Hu Hv Hd) as (ok' & tid' & m0 & Hb & Hcl & _).
    rewrite Hb in H. by injection H as <- <- <-.
  - rewrite (update_timestamp_none m t tid now duration (clok_tids _ IH) Ht) in H.
    destruct (tid_entry m tid) as [ [i e]|] eqn:E; [|by injection H as <- <-].
    apply tid_entry_used in E as [He Hu]; [|apply IH|done..].
    case_decide; [|by injection H as <- <-]. injection H as <- <-. by apply (client_ok_update m i e).
  - unfold turn_retrieve_transaction_id in H.
    rewrite (tid_query m tid (fun i e => Some (Some (record e), with_entry m i (set_fresh e false)))
      (None, m) (clok_tids _ IH) Ht) in H.
    destruct (tid_entry m tid) as [ [i e]|] eqn:E; [|by injection H as <- <-].
    apply tid_entry_used in E as [He Hu]; [|apply IH|done..]. injection H as <- <-.
    by apply (client_ok_update m i e).
Qed.

(** C20: in every map a server can reach, from the initial one by setting
    permissions and binding channels, the channels in force are one to one: the
    peer a channel leads to has that channel, and the channel of a peer leads
    back to it. *)
Theorem server_channels_bijective (m : turn_map_t) :
  server_map m ->
  (forall c now r, turn_find_bound_channel m c now = Some (Some r) ->
     turn_get_bound_channel m r now = Some (Some c)) /\
  (forall r now c, turn_get_bound_channel m r now = Some (Some c) ->
     exists r0, same_record true r0 r /\ turn_find_bound_channel m c now = Some (Some r0)).
Proof.
  intros Hm. apply server_map_ok in Hm as [Hok Hch _]. split.
  - intros c now r. destruct (is_valid_channel c) eqn:Hv.
    2: { unfold turn_find_bound_channel. by rewrite Hv. }
    rewrite turn_find_bound_channel_eq, turn_get_bound_channel_eq by done. intros H. apply Some_inj in H.
    destruct (channel_entry m c) as [e|] eqn:Hc; [|done]. cbn [mbind option_bind] in H.
    destruct (timestamp e <=? now) eqn:Hts; [done|]. apply Some_inj in H. subst r.
    pose proof (valid_channel_nonzero c Hv) as Hnz.
    apply channel_entry_spec in Hc as (i & He & Ht & Hk); [|done..].
    assert (Hu : used (type e)) by (rewrite Ht; done).
    rewrite (proj2 (lookup_entry_spec m _ (record e) e Hok used_channel)).
    + cbn [from_option]. rewrite Hts, Hk, (proj2 (Z.eqb_neq _ _) Hnz). done.
    + exists i. split; [done|]. split; [done|]. apply same_record_refl. by apply (tok_valid _ Hok i).
  - intros r now c. rewrite turn_get_bound_channel_eq by done. intros H. apply Some_inj in H.
    destruct (lookup_entry m TURN_ENTRY_TYPE_CHANNEL r) as [e|] eqn:Hl; [|done]. cbn [from_option] in H.
    destruct ((channel e =? 0) || (timestamp e <=? now)) eqn:Hg; [done|]. apply Some_inj in H. subst c.
    apply orb_false_iff in Hg as [H0 Hts]. apply Z.eqb_neq in H0.
    apply lookup_entry_spec in Hl as (i & He & Ht & Hs); [|done..].
    exists (record e). split; [done|].
    rewrite turn_find_bound_channel_eq by (done || by apply (cok_valid _ Hch i)).
    rewrite (proj2 (channel_entry_spec m (channel e) e Hch H0)) by (by exists i).
    cbn [mbind option_bind]. by rewrite Hts.
Qed.

(** ** Random channels *)

Lemma random_channel_number_range (r : Z) :
  0x4000 <= random_channel_number r <= 0x4FFF /\ is_valid_channel (random_channel_number r) = true.
Proof.
  unfold random_channel_number, is_valid_channel.
  change 0x0FFF with (2 ^ 12 - 1). rewrite land_ones_mod by lia.
  pose proof (Z.mod_pos_bound r (2 ^ 12)).
  rewrite Z.lor_comm. change 0x4000 with (4 .<< 12). rewrite Z.lor_comm, lor_shiftl_add by lia.
  rewrite shiftl_mul by lia. rewrite Z.leb_le. lia.
Qed.

Lemma draw_channel_spec (m : turn_map_t) draws : channels_ok m ->
  Exists (fun r => channel_entry m (random_channel_number r) = None) draws ->
  exists c, draw_channel m draws = Some c /\ 0x4000 <= c <= 0x4FFF /\ is_valid_channel c = true /\
            channel_entry m c = None.
Proof.
  intros Hch Hex. induction draws as [|r draws IH]; [by inversion Hex|]. cbn [draw_channel].
  destruct (random_channel_number_range r) as [Hr Hv]. rewrite turn_find_channel_eq by done.
  cbn [mbind option_bind]. destruct (channel_entry m (random_channel_number r)) as [e|] eqn:E; cbn [fmap option_fmap option_map].
  - apply IH. inversion Hex; subst; [congruence|done].
  - by exists (random_channel_number r).
Qed.

(** [turn_bind_random_channel], with random numbers one of which gives a free
    channel, reserves for the peer a channel in the range 0x4000 to 0x4FFF that
    no peer has, and it fails, changing nothing, exactly when the peer already
    has a channel or there is no room for it. *)
Theorem turn_bind_random_channel_correct (m : turn_map_t) (r : addr_record_t) (draws : list Z)
    (now duration : Z) :
  turn_map_ok m -> valid_record r ->
  Exists (fun x => channel_entry m (random_channel_number x) = None) draws ->
  exists ok c m', turn_bind_random_channel m (Some r) draws now duration = Some (ok, c, m') /\
  0x4000 <= c <= 0x4FFF /\ channel_entry m c = None /\ turn_map_ok m' /\
  ok = (match lookup_entry m TURN_ENTRY_TYPE_CHANNEL r with
        | Some e => channel e =? 0
        | None => has_room m
        end) /\
  (ok = false -> m' = m) /\ (ok = true -> bound m m' r c (now + duration)).
Proof.
  intros Hmok Hv Hex. pose proof Hmok as [Hok Hch _].
  destruct (draw_channel_spec m draws Hch Hex) as (c & Hd & Hr & Hvc & Hfree).
  destruct (turn_bind_channel_spec m r None c now duration Hmok Hv) as (ok & m' & Hb & Hmok' & Hbd & Hm & Htrue).
  exists ok, c, m'. unfold turn_bind_random_channel. rewrite Hd. cbn [mbind option_bind]. rewrite Hb.
  do 4 (split; [done|]). split; [|done]. rewrite Hbd. unfold bindable. rewrite Hvc, Hfree. cbn [andb].
  destruct (lookup_entry m TURN_ENTRY_TYPE_CHANNEL r) as [e|] eqn:Hl; [|done].
  destruct (channel e =? 0) eqn:E0; [done|]. apply Z.eqb_neq. intros Hce. apply Z.eqb_neq in E0.
  apply lookup_entry_spec in Hl as (i & He & Ht & _); [|done..].
  assert (channel_entry m c = Some e) by (apply channel_entry_spec; [done|congruence|by exists i]). congruence.
Qed.

(** ** ChannelData *)

(** [turn_wrap_channel_data] refuses invalid channels, data of 65536 bytes or
    more and buffers that are too small, writing nothing.  Otherwise it writes
    exactly the channel and the length in network order followed by the data,
    leaves the rest of the buffer as it was and returns their size, and the
    result is recognised as ChannelData exactly when the channel is below
    0x5000. *)
Theorem turn_wrap_channel_data_correct (buffer data : list Z) (channel : Z) :
  0 <= channel < 65536 -> bytes data ->
  if is_valid_channel channel && (zlen data <? 65536) && (4 + zlen data <=? zlen buffer)
  then exists m, turn_wrap_channel_data buffer (zlen buffer) data channel = Some (4 + zlen data, m) /\
         m = be 2 channel ++ be 2 (zlen data) ++ data ++ drop (4 + length data) buffer /\
         is_channel_data m (4 + zlen data) = Some (channel <? 0x5000)
  else turn_wrap_channel_data buffer (zlen buffer) data channel = Some (-1, buffer).
Proof.
  intros Hc Hb. unfold turn_wrap_channel_data, sizeof_channel_data_header.
  destruct (is_valid_channel channel) eqn:Hv; [|done]. cbn [negb andb].
  rewrite (Z.ltb_antisym 65536). destruct (65536 <=? zlen data) eqn:Hd; [done|]. cbn [negb andb].
  rewrite (Z.ltb_antisym (4 + zlen data)). destruct (4 + zlen data <=? zlen buffer) eqn:Hs; [|done].
  cbn [negb]. apply Z.leb_gt in Hd. apply Z.leb_le in Hs. unfold is_valid_channel in Hv. apply Z.leb_le in Hv.
  assert (Hlen : (4 + length data <= length buffer)%nat) by (unfold zlen in Hs; lia).
  rewrite (store_split_eq buffer (take 4 buffer) (take (length data) (drop 4 buffer)) data
    (drop (4 + length data) buffer) 4).
  2: { by rewrite <- drop_drop, take_drop, take_drop. }
  2: { rewrite zlen_take. unfold zlen in *. lia. }
  2: { rewrite length_take, length_drop. lia. }
  cbn [mbind option_bind]. destruct buffer as [|b0 [|b1 [|b2 [|b3 rest] ] ] ]; try (cbn in Hlen; lia).
  cbn [take]. set (tl := data ++ drop _ _).
  rewrite (store_split_eq _ [] [b0; b1] (be 2 (u16 channel)) ([b2; b3] ++ tl) 0) by done.
  cbn [mbind option_bind].
  rewrite (store_split_eq _ (be 2 (u16 channel)) [b2; b3] (be 2 (u16 (zlen data))) tl 2) by done.
  cbn [mbind option_bind]. pose proof (zlen_nonneg data) as Hnn.
  unfold u16. rewrite !Z.mod_small by lia. eexists. split; [done|]. split; [done|].
  unfold is_channel_data. rewrite (proj2 (Z.eqb_neq _ _)) by lia.
  unfold load8. rewrite (load_split_eq _ [] [channel / 256 mod 256] ([channel mod 256] ++ be 2 (zlen data) ++ tl) 0 1) by done.
  cbn [fmap option_fmap option_map mbind option_bind]. f_equal.
  replace (unbe [channel / 256 mod 256]) with (channel / 256) by (unfold unbe; cbn; zlia).
  apply eq_iff_eq_true. rewrite andb_true_iff, !Z.leb_le, Z.ltb_lt. zlia.
Qed.

(** ** Examples *)

Definition example_peer (n port : Z) : addr_record_t :=
  {| addr := Sin port [10; 0; 0; n]; len := 16; socktype := 2 |}.

Definition example_tid (n : Z) : list Z := n :: replicate 11 0.

Lemma example_peer_valid n port : valid_record (example_peer n port).
Proof. done. Qed.

Lemma example_tid_ok n : is_byte n -> n <> 0 -> is_tid (example_tid n) /\ nonzero (example_tid n).
Proof.
  intros Hn H0. split; [split; [|done]|].
  - constructor; [done|]. apply bytes_forallb. reflexivity.
  - unfold nonzero, example_tid. cbn. by rewrite (proj2 (Z.eqb_neq _ _) H0).
Qed.

(** A flaw of the ordered array of transaction ids.  A permission set with a
    record stores its transaction id without entering it in the array, and the
    next one for the same peer then removes whatever id is at its place: here a
    request to peer 2 is pending with id 9, peer 1 gets two permissions with ids
    3 and 4, and the response with id 9 is refused. *)
Theorem turn_set_permission_loses_request :
  (r1 ← turn_set_permission_transaction_id (turn_init_map 4) (example_peer 2 0) (example_tid 9);
   pending ← turn_set_permission r1.2 (example_tid 9) None 0 10;
   r2 ← turn_set_permission r1.2 (example_tid 3) (Some (example_peer 1 0)) 0 10;
   r3 ← turn_set_permission r2.2 (example_tid 4) (Some (example_peer 1 0)) 0 10;
   late ← turn_set_permission r3.2 (example_tid 9) None 0 10;
   Some (pending.1, late.1)) = Some (true, false).
Proof. by vm_compute. Qed.

Lemma turn_set_permission_correct_witness :
  exists ok m', turn_set_permission (turn_init_map 4) (example_tid 1) (Some (example_peer 1 80)) 5 10
    = Some (ok, m') /\ turn_map_ok m'.
Proof.
  destruct (turn_set_permission_correct (turn_init_map 4) (example_tid 1) (example_peer 1 80) 5 10)
    as (ok & m' & H & Hok & _); [apply turn_init_map_ok; lia|apply example_peer_valid|].
  exists ok, m'. exact (conj H Hok).
Defined.

Lemma turn_bind_channel_correct_witness :
  exists ok m', turn_bind_channel (turn_init_map 4) (Some (example_peer 1 80)) None 0x4001 5 10
    = Some (ok, m') /\ turn_map_ok m'.
Proof.
  destruct (turn_bind_channel_correct (turn_init_map 4) (example_peer 1 80) None 0x4001 5 10)
    as (ok & m' & H & Hok & _); [apply turn_init_map_ok; lia|apply example_peer_valid|].
  exists ok, m'. exact (conj H Hok).
Defined.

Lemma init_draws_ok n : is_byte n -> n <> 0 -> draws_ok (turn_init_map 4) [example_tid n].
Proof.
  intros Hn H0. split; [constructor; [by apply example_tid_ok|constructor]|]. by constructor.
Qed.

Lemma turn_permission_request_correct_witness :
  exists ok tid m', turn_set_random_permission_transaction_id (turn_init_map 4) (example_peer 1 80)
    [example_tid 7] = Some (ok, tid, m') /\ client_ok m'.
Proof.
  destruct (turn_permission_request_correct (turn_init_map 4) (example_peer 1 80) [example_tid 7])
    as (ok & tid & m' & H & Hok & _);
    [apply turn_init_client_ok; lia|apply example_peer_valid|by apply init_draws_ok|].
  exists ok, tid, m'. exact (conj H Hok).
Defined.

(** A map where peer 1 has the channel 0x4001. *)
Definition example_bound : turn_map_t :=
  match turn_bind_channel (turn_init_map 4) (Some (example_peer 1 80)) None 0x4001 5 10 with
  | Some (_, m) => m
  | None => turn_init_map 4
  end.

Lemma example_bound_server : server_map example_bound.
Proof.
  apply (server_map_bind (turn_init_map 4) (example_peer 1 80) None 0x4001 5 10 true);
    [apply server_map_init; lia|apply example_peer_valid|by vm_compute].
Qed.

Lemma example_bound_client : client_map example_bound.
Proof.
  apply (client_map_reserve (turn_init_map 4) (example_peer 1 80) 0x4001 5 10 true);
    [apply client_map_init; lia|apply example_peer_valid|by vm_compute].
Qed.

Lemma turn_channel_request_correct_witness :
  exists tid m', turn_set_random_channel_transaction_id example_bound (example_peer 1 80) [example_tid 7]
    = Some (true, tid, m') /\ client_ok m'.
Proof.
  destruct (turn_channel_request_correct example_bound (example_peer 1 80) 0x4001 [example_tid 7])
    as (tid & m' & H & Hok & _);
    [apply client_map_ok, example_bound_client|apply example_peer_valid| |by vm_compute|done|].
  - split; [constructor; [by apply example_tid_ok|constructor]|]. constructor. by vm_compute.
  - exists tid, m'. exact (conj H Hok).
Defined.

Lemma server_channels_bijective_witness :
  turn_get_bound_channel example_bound (example_peer 1 80) 6 = Some (Some 0x4001).
Proof.
  apply (proj1 (server_channels_bijective example_bound example_bound_server)). by vm_compute.
Defined.

Lemma turn_bind_random_channel_correct_witness :
  exists ok c m', turn_bind_random_channel example_bound (Some (example_peer 2 80)) [1; 2] 5 10
    = Some (ok, c, m') /\ 0x4000 <= c <= 0x4FFF.
Proof.
  destruct (turn_bind_random_channel_correct example_bound (example_peer 2 80) [1; 2] 5 10)
    as (ok & c & m' & H & Hc & _);
    [apply server_map_ok, example_bound_server|apply example_peer_valid| |].
  - apply Exists_cons_tl, Exists_cons_hd. by vm_compute.
  - exists ok, c, m'. exact (conj H Hc).
Defined.

Lemma turn_wrap_channel_data_correct_witness :
  turn_wrap_channel_data (replicate 8 0) 8 [1; 2; 3] 0x4001 = Some (7, [64; 1; 0; 3; 1; 2; 3; 0]).
Proof.
  destruct (turn_wrap_channel_data_correct (replicate 8 0) [1; 2; 3] 0x4001) as (m & H & -> & _);
    [lia|by apply bytes_forallb|exact H].
Defined.
