(* ===== verification/Effects.v ===== *)
(** * Effects

    The effects of the server and of the agent: a computation takes a state to
    its result, the new state and what it did, in order; [None] is undefined
    behaviour.  With the rules to take a run apart, to run forward and to show
    that a run exists. *)

From S2P Require Import Prelude.

Definition eff (S E A : Type) : Type := S -> option (A * S * list E).

#[global] Instance eff_ret S E : MRet (eff S E) := fun A x s => Some (x, s, []).
#[global] Instance eff_bind S E : MBind (eff S E) := fun A B k c s =>
  match c s with
  | Some (x, s, tr) => match k x s with Some (y, s, tr') => Some (y, s, tr ++ tr') | None => None end
  | None => None
  end.

Section Effects.
Context {S E : Type}.
#[local] Abbreviation M := (eff S E).

Definition get : M S := fun s => Some (s, s, []).
Definition put (s : S) : M unit := fun _ => Some (tt, s, []).
Definition emit (ev : E) : M unit := fun s => Some (tt, s, [ev]).
(** A step that may be undefined. *)
Definition defined {A} (x : option A) : M A := fun s => match x with Some x => Some (x, s, []) | None => None end.

(** ** Runs *)

Lemma bind_run {A B} (c : M A) (k : A -> M B) s y s' tr :
  (x ← c; k x) s = Some (y, s', tr) <->
  exists x s1 tr1 tr2, c s = Some (x, s1, tr1) /\ k x s1 = Some (y, s', tr2) /\ tr = tr1 ++ tr2.
Proof.
  change ((x ← c; k x) s) with
    (match c s with
     | Some (x, s, tr) => match k x s with Some (y, s, tr') => Some (y, s, tr ++ tr') | None => None end
     | None => None
     end).
  destruct (c s) as [ [ [x s1] tr1]|]; [|split; [done|by intros (? & ? & ? & ? & ? & _)]].
  split.
  - destruct (k x s1) as [ [ [y' s2] tr2]|] eqn:Hk; [|done]. intros [= <- <- <-]. by exists x, s1, tr1, tr2.
  - intros (x' & s1' & tr1' & tr2 & Hc & Hk & ->). injection Hc as <- <- <-. by rewrite Hk.
Qed.

Lemma ret_run {A} (x : A) s y s' tr : (mret x : M A) s = Some (y, s', tr) <-> y = x /\ s' = s /\ tr = [].
Proof.
  change ((mret x : M A) s) with (Some (x, s, [] : list E)).
  split; [by intros [= <- <- <-]|by intros (-> & -> & ->)].
Qed.

Lemma get_run s y s' tr : get s = Some (y, s', tr) <-> y = s /\ s' = s /\ tr = [].
Proof. unfold get. split; [by intros [= <- <- <-]|by intros (-> & -> & ->)]. Qed.

Lemma put_run s0 s (y : unit) s' tr : put s0 s = Some (y, s', tr) <-> s' = s0 /\ tr = [].
Proof. unfold put. destruct y. split; [by intros [= <- <-]|by intros (-> & ->)]. Qed.

Lemma emit_run ev s (y : unit) s' tr : emit ev s = Some (y, s', tr) <-> s' = s /\ tr = [ev].
Proof. unfold emit. destruct y. split; [by intros [= <- <-]|by intros (-> & ->)]. Qed.

Lemma defined_run {A} (x : option A) s y s' tr :
  defined x s = Some (y, s', tr) <-> x = Some y /\ s' = s /\ tr = [].
Proof.
  unfold defined. destruct x; [|by split; [|intros (? & _)] ].
  split; [by intros [= <- <- <-]|by intros ([= ->] & -> & ->)].
Qed.

(** ** Running forward *)

Lemma bind_some {A B} (c : M A) (k : A -> M B) s x s1 tr1 : c s = Some (x, s1, tr1) ->
  (x ← c; k x) s = match k x s1 with Some (y, s2, tr2) => Some (y, s2, tr1 ++ tr2) | None => None end.
Proof. intros Hc. unfold mbind, eff_bind. by rewrite Hc. Qed.

Lemma bind_quiet {A B} (c : M A) (k : A -> M B) s x s1 : c s = Some (x, s1, []) -> (x ← c; k x) s = k x s1.
Proof. intros Hc. rewrite (bind_some c k s x s1 [] Hc). by destruct (k x s1) as [ [ [y s2] tr]|]. Qed.

Lemma bind_get {A} (k : S -> M A) s : (x ← get; k x) s = k s s.
Proof. by apply bind_quiet. Qed.
Lemma bind_defined {A B} (x : option A) (k : A -> M B) v s : x = Some v -> (x ← defined x; k x) s = k v s.
Proof. intros ->. by apply bind_quiet. Qed.
Lemma bind_put {A} s0 (k : unit -> M A) s : (x ← put s0; k x) s = k tt s0.
Proof. by apply bind_quiet. Qed.

(** ** Weakest preconditions *)

(** [c] runs from [s] without undefined behaviour and ends with [Q]. *)
Definition wp {A} (c : M A) (Q : A -> S -> Prop) (s : S) : Prop :=
  exists x s' tr, c s = Some (x, s', tr) /\ Q x s'.

Lemma wp_bind {A B} (c : M A) (k : A -> M B) Q s :
  wp c (fun x s' => wp (k x) Q s') s -> wp (x ← c; k x) Q s.
Proof.
  intros (x & s1 & tr1 & Hc & y & s2 & tr2 & Hk & HQ). exists y, s2, (tr1 ++ tr2).
  split; [|done]. apply bind_run. by exists x, s1, tr1, tr2.
Qed.

Lemma wp_ret {A} (x : A) (Q : A -> S -> Prop) s : Q x s -> wp (mret x) Q s.
Proof. intros HQ. by exists x, s, []. Qed.
Lemma wp_get (Q : S -> S -> Prop) s : Q s s -> wp get Q s.
Proof. intros HQ. by exists s, s, []. Qed.
Lemma wp_put s0 (Q : unit -> S -> Prop) s : Q tt s0 -> wp (put s0) Q s.
Proof. intros HQ. by exists tt, s0, []. Qed.
Lemma wp_emit ev (Q : unit -> S -> Prop) s : Q tt s -> wp (emit ev) Q s.
Proof. intros HQ. by exists tt, s, [ev]. Qed.
Lemma wp_defined {A} (x : option A) v (Q : A -> S -> Prop) s : x = Some v -> Q v s -> wp (defined x) Q s.
Proof. intros -> HQ. by exists v, s, []. Qed.

Lemma wp_mono {A} (c : M A) (Q Q' : A -> S -> Prop) s :
  wp c Q s -> (forall x s', Q x s' -> Q' x s') -> wp c Q' s.
Proof. intros (x & s' & tr & Hc & HQ) Hi. exists x, s', tr. auto. Qed.

(** ** Relations kept by a computation *)

(** Relations of a state, what was done and the state after it, that compose. *)
Class Composes (R : S -> list E -> S -> Prop) : Prop := {
  composes_nil s : R s [] s;
  composes_app s tr1 s1 tr2 s2 : R s tr1 s1 -> R s1 tr2 s2 -> R s (tr1 ++ tr2) s2
}.

(** A relation of states alone. *)
Definition on_states (R : S -> S -> Prop) : S -> list E -> S -> Prop := fun s _ s' => R s s'.

#[global] Instance on_states_composes R `{!PreOrder R} : Composes (on_states R).
Proof. split; [intros s; exact (reflexivity s)|]. intros s tr1 s1 tr2 s2 H1 H2. exact (transitivity H1 H2). Qed.

Lemma on_states_refl R `{!PreOrder R} s tr : on_states R s tr s.
Proof. exact (reflexivity s). Qed.

(** Every run of [c] from [s] is in the relation. *)
Definition keeps_at (R : S -> list E -> S -> Prop) (s : S) {A} (c : M A) : Prop :=
  forall x s' tr, c s = Some (x, s', tr) -> R s tr s'.

Section Keeps.
Context (R : S -> list E -> S -> Prop) `{!Composes R}.

Lemma keeps_bind {A B} (c : M A) (k : A -> M B) s :
  keeps_at R s c -> (forall x s1, keeps_at R s1 (k x)) -> keeps_at R s (x ← c; k x).
Proof.
  intros Hc Hk y s' tr (x & s1 & tr1 & tr2 & H1 & H2 & ->)%bind_run.
  apply (composes_app _ _ s1); [by apply (Hc x s1 tr1)|by apply (Hk x s1 y s' tr2)].
Qed.
Lemma keeps_bind_post {A B} (Q : S -> Prop) (c : M A) (k : A -> M B) s :
  (forall x s1 tr, c s = Some (x, s1, tr) -> R s tr s1 /\ Q s1) -> (forall x s1, Q s1 -> keeps_at R s1 (k x)) ->
  keeps_at R s (x ← c; k x).
Proof.
  intros Hc Hk y s' tr (x & s1 & tr1 & tr2 & H1 & H2 & ->)%bind_run. destruct (Hc _ _ _ H1) as [HR HQ].
  apply (composes_app _ _ s1); [done|by apply (Hk x s1 HQ y s' tr2)].
Qed.
Lemma keeps_ret {A} (x : A) s : keeps_at R s (mret x).
Proof. intros y s' tr (_ & -> & ->)%ret_run. apply composes_nil. Qed.
Lemma keeps_get s : keeps_at R s get.
Proof. intros y s' tr (_ & -> & ->)%get_run. apply composes_nil. Qed.
Lemma keeps_emit ev s : R s [ev] s -> keeps_at R s (emit ev).
Proof. intros HR y s' tr (-> & ->)%emit_run. done. Qed.
Lemma keeps_defined {A} (x : option A) s : keeps_at R s (defined x).
Proof. intros y s' tr (_ & -> & ->)%defined_run. apply composes_nil. Qed.
Lemma keeps_put s0 s : R s [] s0 -> keeps_at R s (put s0).
Proof. intros HR y s' tr (-> & ->)%put_run. done. Qed.

Lemma keeps_bind_get {A} (k : S -> M A) s : keeps_at R s (k s) -> keeps_at R s (x ← get; k x).
Proof. intros Hk y s' tr. rewrite bind_get. apply Hk. Qed.
Lemma keeps_bind_ret {A B} (x : A) (k : A -> M B) s : keeps_at R s (k x) -> keeps_at R s (x ← mret x; k x).
Proof. intros Hk y s' tr. rewrite (bind_quiet _ _ _ x s) by done. apply Hk. Qed.
Lemma keeps_bind_defined {A B} (o : option A) (k : A -> M B) s :
  (forall x, o = Some x -> keeps_at R s (k x)) -> keeps_at R s (x ← defined o; k x).
Proof. intros Hk y s' tr. destruct o as [x|]; [|done]. rewrite (bind_quiet _ _ _ x s) by done. by apply Hk. Qed.
Lemma keeps_bind_put {A} s0 (k : unit -> M A) s :
  R s [] s0 -> keeps_at R s0 (k tt) -> keeps_at R s (x ← put s0; k x).
Proof.
  intros HR Hk y s' tr Hr. rewrite bind_put in Hr. apply (composes_app s [] s0 tr s'); [done|]. by apply Hk in Hr.
Qed.
End Keeps.

End Effects.

(** Takes a run apart. *)
Ltac run_inv :=
  repeat match goal with
  | H : (mbind _ _) _ = Some _ |- _ =>
      apply bind_run in H; destruct H as (? & ? & ? & ? & ? & H & ?); subst
  | H : mret _ _ = Some _ |- _ => apply ret_run in H; destruct H as (? & ? & ?); subst
  | H : get _ = Some _ |- _ => apply get_run in H; destruct H as (? & ? & ?); subst
  | H : put _ _ = Some _ |- _ => apply put_run in H; destruct H as (? & ?); subst
  | H : emit _ _ = Some _ |- _ => apply emit_run in H; destruct H as (? & ?); subst
  | H : defined _ _ = Some _ |- _ => apply defined_run in H; destruct H as (? & ? & ?); subst
  end.

(** The same, with a case for each branch. *)
Ltac run_cases :=
  repeat (run_inv; match goal with
  | H : (if ?b then _ else _) _ = Some _ |- _ => destruct b eqn:?
  | H : (match ?b with _ => _ end) _ = Some _ |- _ => destruct b eqn:?
  end); run_inv.

(** Computations known to keep a relation. *)
Create HintDb keeps.
#[export] Hint Extern 0 (on_states _ ?s _ ?s) => (apply on_states_refl; typeclasses eauto) : keeps.

(** Goes through a computation; what is not known to keep the relation is left. *)
Ltac keeps :=
  repeat first
    [ progress cbv zeta
    | solve [eauto 2 with keeps]
    | lazymatch goal with
      | |- Composes _ => typeclasses eauto
      | |- keeps_at _ _ (mret _) => apply keeps_ret
      | |- keeps_at _ _ get => apply keeps_get
      | |- keeps_at _ _ (emit _) => apply keeps_emit
      | |- keeps_at _ _ (defined _) => apply keeps_defined
      | |- keeps_at _ _ (put _) => apply keeps_put
      | |- keeps_at _ _ (match ?x with _ => _ end) => destruct x eqn:?
      | |- keeps_at _ _ (mbind _ get) => apply keeps_bind_get
      | |- keeps_at _ _ (mbind _ (mret _)) => apply keeps_bind_ret
      | |- keeps_at _ _ (mbind _ (defined _)) => apply keeps_bind_defined; intros
      | |- keeps_at _ _ (mbind _ (put _)) => apply keeps_bind_put
      | |- keeps_at _ _ (mbind _ (match ?x with _ => _ end)) => destruct x eqn:?
      | |- keeps_at _ _ (mbind _ _) => apply keeps_bind; intros
      end ].
