(* ===== verification/Server.v ===== *)
(** * The STUN and TURN server (src/server.c, src/server.h)

    The state of the server, its handlers and the table of allocations.  A
    handler is a function of the state to its result, the new state and the
    datagrams it sends and sockets it closes, in order; [None] is undefined
    behaviour.  What the system gives to a handler is an argument: the time
    (which does not pass within a handler), the random bytes, the sockets and
    addresses of the host and the result of sending.  A pointer to credentials
    is the identity of their node, and dereferencing the pointer of a node that
    has been freed is undefined behaviour.  Strings of the configuration are
    lists of bytes without NUL; memory is available. *)

From S2P Require Import Prelude Effects CText ConstTime Addr Turn StunTypes StunWrite StunRead.

(** ** Data *)

Definition SERVER_DEFAULT_REALM : list Z := str "libjuice".
Definition SERVER_DEFAULT_MAX_ALLOCATIONS : Z := 1000.
Definition SERVER_DEFAULT_MAX_PEERS : Z := 16.
Definition SERVER_NONCE_KEY_SIZE : Z := 32.
Definition SERVER_NONCE_KEY_LIFETIME : Z := 600 * 1000.
Definition ALLOCATION_LIFETIME : Z := 600000.
Definition PERMISSION_LIFETIME : Z := 300000.
Definition BIND_LIFETIME : Z := 600000.
Definition MAX_RELAYED_RECORDS_COUNT : Z := 8.
Definition BUFFER_SIZE : Z := 4096.
Definition INVALID_SOCKET : Z := -1.

Record juice_server_credentials_t := {
  cred_username : list Z;
  cred_password : list Z;
  allocations_quota : Z
}.

Record juice_server_config_t := {
  max_allocations : Z;
  max_peers : Z;
  external_address : option (list Z);
  server_realm : list Z
}.

Inductive server_turn_alloc_state_t :=
| SERVER_TURN_ALLOC_EMPTY
| SERVER_TURN_ALLOC_DELETED
| SERVER_TURN_ALLOC_FULL.

#[global] Instance server_turn_alloc_state_eq_dec : EqDecision server_turn_alloc_state_t.
Proof. solve_decision. Defined.

Record server_turn_alloc_t := {
  alloc_state : server_turn_alloc_state_t;
  alloc_record : addr_record_t;
  alloc_credentials : option nat;
  alloc_transaction_id : list Z;
  alloc_timestamp : Z;
  alloc_sock : Z;
  alloc_map : turn_map_t
}.

(** A slot cleared by [calloc]. *)
Definition alloc_zero : server_turn_alloc_t :=
  {| alloc_state := SERVER_TURN_ALLOC_EMPTY; alloc_record := addr_record_zero;
     alloc_credentials := None; alloc_transaction_id := replicate 12 0; alloc_timestamp := 0;
     alloc_sock := 0; alloc_map := {| map := []; ordered_channels := []; ordered_transaction_ids := [] |} |}.

(** [node_id] is the address of the node. *)
Record juice_credentials_list_t := {
  node_id : nat;
  node_credentials : juice_server_credentials_t;
  node_userhash : list Z;
  node_timestamp : Z
}.

(** [next_id] is an address that has never been used. *)
Record juice_server_t := {
  config : juice_server_config_t;
  server_credentials : list juice_credentials_list_t;
  nonce_key : list Z;
  nonce_key_timestamp : Z;
  server_sock : Z;
  allocs : list server_turn_alloc_t;
  next_id : nat
}.

Definition allocs_count (s : juice_server_t) : Z := zlen (allocs s).

Definition with_config (s : juice_server_t) (c : juice_server_config_t) :=
  {| config := c; server_credentials := server_credentials s; nonce_key := nonce_key s;
     nonce_key_timestamp := nonce_key_timestamp s; server_sock := server_sock s;
     allocs := allocs s; next_id := next_id s |}.
Definition with_nodes (s : juice_server_t) (l : list juice_credentials_list_t) :=
  {| config := config s; server_credentials := l; nonce_key := nonce_key s;
     nonce_key_timestamp := nonce_key_timestamp s; server_sock := server_sock s;
     allocs := allocs s; next_id := next_id s |}.
Definition with_nonce_key (s : juice_server_t) (k : list Z) (t : Z) :=
  {| config := config s; server_credentials := server_credentials s; nonce_key := k;
     nonce_key_timestamp := t; server_sock := server_sock s; allocs := allocs s; next_id := next_id s |}.
Definition with_allocs (s : juice_server_t) (l : list server_turn_alloc_t) :=
  {| config := config s; server_credentials := server_credentials s; nonce_key := nonce_key s;
     nonce_key_timestamp := nonce_key_timestamp s; server_sock := server_sock s;
     allocs := l; next_id := next_id s |}.
Definition with_next_id (s : juice_server_t) (n : nat) :=
  {| config := config s; server_credentials := server_credentials s; nonce_key := nonce_key s;
     nonce_key_timestamp := nonce_key_timestamp s; server_sock := server_sock s;
     allocs := allocs s; next_id := n |}.

Definition with_max_allocations (s : juice_server_t) (n : Z) : juice_server_t :=
  with_config s {| max_allocations := n; max_peers := max_peers (config s);
                   external_address := external_address (config s); server_realm := server_realm (config s) |}.

Definition set_quota (n : juice_credentials_list_t) (q : Z) : juice_credentials_list_t :=
  {| node_id := node_id n;
     node_credentials := {| cred_username := cred_username (node_credentials n);
                            cred_password := cred_password (node_credentials n);
                            allocations_quota := q |};
     node_userhash := node_userhash n; node_timestamp := node_timestamp n |}.

Definition with_alloc_map (a : server_turn_alloc_t) (m : turn_map_t) : server_turn_alloc_t :=
  {| alloc_state := alloc_state a; alloc_record := alloc_record a; alloc_credentials := alloc_credentials a;
     alloc_transaction_id := alloc_transaction_id a; alloc_timestamp := alloc_timestamp a;
     alloc_sock := alloc_sock a; alloc_map := m |}.
Definition with_alloc_request (a : server_turn_alloc_t) (tid : list Z) (t : Z) : server_turn_alloc_t :=
  {| alloc_state := alloc_state a; alloc_record := alloc_record a; alloc_credentials := alloc_credentials a;
     alloc_transaction_id := tid; alloc_timestamp := t; alloc_sock := alloc_sock a; alloc_map := alloc_map a |}.
Definition with_alloc_sock (a : server_turn_alloc_t) (sock : Z) : server_turn_alloc_t :=
  {| alloc_state := alloc_state a; alloc_record := alloc_record a; alloc_credentials := alloc_credentials a;
     alloc_transaction_id := alloc_transaction_id a; alloc_timestamp := alloc_timestamp a;
     alloc_sock := sock; alloc_map := alloc_map a |}.

(** ** Effects *)

Inductive event :=
| Sent (sock : Z) (dst : addr_record_t) (data : list Z)
| Closed (sock : Z).

Abbreviation M := (eff juice_server_t event).

Definition put_alloc (i : nat) (a : server_turn_alloc_t) : M unit :=
  s ← get; put (with_allocs s (<[i := a]> (allocs s))).

(** ** Credentials *)

Definition find_node (id : nat) (l : list juice_credentials_list_t) : option juice_credentials_list_t :=
  find (fun n => bool_decide (node_id n = id)) l.

(** The credentials at a pointer. *)
Definition deref (id : nat) : M juice_server_credentials_t :=
  s ← get; n ← defined (find_node id (server_credentials s)); mret (node_credentials n).

(** A change of the quota through a pointer. *)
Definition add_quota (id : nat) (d : Z) : M unit :=
  s ← get;
  _ ← defined (find_node id (server_credentials s));
  put (with_nodes s ((fun n => if bool_decide (node_id n = id)
                               then set_quota n (allocations_quota (node_credentials n) + d) else n)
                     <$> server_credentials s)).

(** ** Allocations *)

(** The loop of [find_allocation] from [pos]; [Some None] is NULL. *)
Fixpoint find_allocation_loop (fuel : nat) (l : list server_turn_alloc_t) (r : addr_record_t)
    (allow_deleted : bool) (key pos : Z) : option (option nat) :=
  match fuel with
  | O => None
  | S fuel' =>
      a ← l !! Z.to_nat pos;
      if bool_decide (alloc_state a = SERVER_TURN_ALLOC_EMPTY) ||
         (allow_deleted && bool_decide (alloc_state a = SERVER_TURN_ALLOC_DELETED)) ||
         addr_record_is_equal (alloc_record a) r true
      then Some (Some (Z.to_nat pos))
      else
        let pos := (pos + 1) mod zlen l in
        if pos =? key then Some None
        else find_allocation_loop fuel' l r allow_deleted key pos
  end.

(** The remainder by a size of 0 is undefined. *)
Definition find_allocation (l : list server_turn_alloc_t) (size : Z) (r : addr_record_t)
    (allow_deleted : bool) : option (option nat) :=
  if size =? 0 then None
  else
    let key := addr_record_hash r true mod size in
    find_allocation_loop (length l) l r allow_deleted key key.

Definition deleted (a : server_turn_alloc_t) : server_turn_alloc_t :=
  {| alloc_state := SERVER_TURN_ALLOC_DELETED; alloc_record := alloc_record a; alloc_credentials := None;
     alloc_transaction_id := alloc_transaction_id a; alloc_timestamp := alloc_timestamp a;
     alloc_sock := INVALID_SOCKET; alloc_map := alloc_map a |}.

Definition delete_allocation (i : nat) : M unit :=
  s ← get;
  a ← defined (allocs s !! i);
  if negb (bool_decide (alloc_state a = SERVER_TURN_ALLOC_FULL)) then mret tt
  else
    id ← defined (alloc_credentials a);
    _ ← add_quota id 1;
    _ ← emit (Closed (alloc_sock a));
    put_alloc i (deleted a).

(** What the handlers get from the system; [local_addrs] is the count and the
    records of [udp_get_addrs], [new_sock] the result of [udp_create_socket]. *)
Record env := {
  now : Z;
  random_key : list Z;
  random_tid : list Z;
  new_sock : Z;
  sock_port : Z;
  local_addrs : Z * list addr_record_t;
  sendto : addr_record_t -> list Z -> Z
}.

(** [recvfrom] on a socket: a datagram, nothing more to read, or an error. *)
Inductive received_t :=
| Datagram (buf : list Z) (src : addr_record_t)
| WouldBlock
| RecvError.

Section Server.
Context `{Crypto}.
(** The bytes of the address of a record in memory, the resolver, and the
    contents of uninitialised memory: 2 bytes of a structure of [stun_write] and
    a buffer of [BUFFER_SIZE]. *)
Context (sockaddr_bytes : addr_record_t -> list Z)
        (getaddrinfo : list Z -> list Z -> Z -> option (list addrinfo))
        (uninit stack : list Z) (e : env).

(** ** Configuration *)

(** The pointers of the configuration that are NULL are [None]. *)
Definition server_do_add_credentials (username password : option (list Z)) (quota lifetime : Z) : M nat :=
  s ← get;
  let username := default [] username in
  let node := {| node_id := next_id s;
                 node_credentials := {| cred_username := username; cred_password := default [] password;
                                        allocations_quota := quota |};
                 node_userhash := stun_compute_userhash username (server_realm (config s));
                 node_timestamp := if 0 <? lifetime then now e + lifetime else 0 |} in
  _ ← put (with_next_id (with_nodes s (node :: server_credentials s)) (S (next_id s)));
  mret (next_id s).

(** The end of [server_add_credentials] and of the loop of [server_create]: no
    quota means all the allocations. *)
Definition default_quota (max : Z) (n : juice_credentials_list_t) : juice_credentials_list_t :=
  if allocations_quota (node_credentials n) =? 0 then set_quota n max else n.

Definition server_add_credentials (username password : option (list Z)) (quota lifetime : Z) : M Z :=
  s ← get;
  _ ← (if max_allocations (config s) <? quota then put (with_max_allocations s quota) else mret tt);
  s ← get;
  let max := max_allocations (config s) in
  _ ← (if allocs_count s <? max
       then put (with_allocs s (allocs s ++ replicate (Z.to_nat (max - allocs_count s)) alloc_zero))
       else mret tt);
  id ← server_do_add_credentials username password quota lifetime;
  s ← get;
  _ ← put (with_nodes s ((fun n => if bool_decide (node_id n = id) then default_quota max n else n)
                         <$> server_credentials s));
  mret 0.

(** The loop of [server_create] over the credentials. *)
Fixpoint add_all (l : list (option (list Z) * option (list Z) * Z)) : M unit :=
  match l with
  | [] => mret tt
  | (username, password, quota) :: l' =>
      s ← get;
      _ ← (if max_allocations (config s) <? quota then put (with_max_allocations s quota) else mret tt);
      _ ← server_do_add_credentials username password quota 0;
      add_all l'
  end.

(** The server on [new_sock], which is valid, or NULL. *)
Definition server_create (max_alloc max_peers_ : Z) (external realm : option (list Z))
    (creds : list (option (list Z) * option (list Z) * Z)) : option (option juice_server_t) :=
  if new_sock e =? INVALID_SOCKET then Some None
  else
    let max := if 0 <? max_alloc then max_alloc else SERVER_DEFAULT_MAX_ALLOCATIONS in
    let realm := match realm with Some (b :: r) => b :: r | _ => SERVER_DEFAULT_REALM end in
    let peers := if max_peers_ =? 0 then SERVER_DEFAULT_MAX_PEERS else max_peers_ in
    let s := {| config := {| max_allocations := max; max_peers := peers;
                             external_address := external; server_realm := realm |};
                server_credentials := []; nonce_key := replicate 32 0; nonce_key_timestamp := 0;
                server_sock := new_sock e;
                allocs := match creds with [] => [] | _ => replicate (Z.to_nat max) alloc_zero end;
                next_id := 0 |} in
    match add_all creds s with
    | None => None
    | Some (_, s, _) =>
        Some (Some (with_nodes s (default_quota (max_allocations (config s)) <$> server_credentials s)))
    end.

(** ** Sending *)

Definition send_from (sock : Z) (dst : addr_record_t) (data : list Z) : M Z :=
  _ ← emit (Sent sock dst data); mret (sendto e dst data).

Definition server_send (dst : addr_record_t) (data : list Z) : M Z :=
  s ← get; send_from (server_sock s) dst data.

Definition server_stun_send (dst : addr_record_t) (msg : stun_message_t) (password : option (list Z)) : M Z :=
  r ← defined (stun_write BUFFER_SIZE uninit stack msg password);
  match r with
  | (size, Some buffer) =>
      if size <=? 0 then mret (-1)
      else ret ← server_send dst (take (Z.to_nat size) buffer); mret (if ret <? 0 then -1 else 0)
  | (_, None) => mret (-1)
  end.

(** ** Nonces and answers *)

Definition nonce_table : list Z :=
  str "ABCDEFGHIJKLMNOPQRSTUVWXYZabcdefghijklmnopqrstuvwxyz0123456789-_".

Definition server_get_nonce (src : addr_record_t) : M (list Z) :=
  s ← get;
  _ ← (if nonce_key_timestamp s <=? now e
       then put (with_nonce_key s (random_key e) (now e + SERVER_NONCE_KEY_LIFETIME)) else mret tt);
  s ← get;
  let digest := hmac_sha256 (sockaddr_bytes src) (nonce_key s) in
  mret (stun_prepend_nonce_cookie ((fun d => nth (Z.to_nat (d mod 64)) nonce_table 0) <$> take 32 digest)).

Definition server_prepare_credentials (src : addr_record_t) (credentials_ : option nat)
    (msg : stun_message_t) : M stun_message_t :=
  s ← get;
  let copy size text := default [] (snd (snprintf size text)) in
  let c := set_realm (credentials msg) (copy STUN_MAX_REALM_LEN (server_realm (config s))) in
  n ← server_get_nonce src;
  let c := set_nonce c n in
  match credentials_ with
  | None => mret (set_credentials msg c)
  | Some id =>
      cr ← deref id;
      mret (set_credentials msg (set_username c (copy STUN_MAX_USERNAME_LEN (cred_username cr))))
  end.

Definition password_of (credentials_ : option nat) : M (option (list Z)) :=
  match credentials_ with
  | None => mret None
  | Some id => cr ← deref id; mret (Some (cred_password cr))
  end.

Definition answer (cls : stun_class_t) (method : Z) (tid : list Z) : stun_message_t :=
  set_transaction_id (set_msg_method (set_msg_class stun_message_zero cls) method) tid.

Definition server_answer_stun_error (tid : list Z) (src : addr_record_t) (method code : Z)
    (credentials_ : option nat) : M Z :=
  let ans := set_error_code (answer STUN_CLASS_RESP_ERROR method tid) code in
  ans ← (if negb (method =? STUN_METHOD_BINDING)
         then server_prepare_credentials src credentials_ ans else mret ans);
  password ← password_of credentials_;
  server_stun_send src ans password.

Definition server_answer_stun_binding (tid : list Z) (src : addr_record_t) : M Z :=
  server_stun_send src (set_mapped (answer STUN_CLASS_RESP_SUCCESS STUN_METHOD_BINDING tid) src) None.

Definition server_process_stun_binding (msg : stun_message_t) (src : addr_record_t) : M Z :=
  server_answer_stun_binding (transaction_id msg) src.

(** [return server_answer_stun_error] and the same with the result -1. *)
Definition refuse (msg : stun_message_t) (src : addr_record_t) (code : Z) (credentials_ : option nat) : M Z :=
  server_answer_stun_error (transaction_id msg) src (msg_method msg) code credentials_.
Definition refuse_fail (msg : stun_message_t) (src : addr_record_t) (code : Z) (credentials_ : option nat) : M Z :=
  _ ← refuse msg src code credentials_; mret (-1).

(** The success answer with credentials. *)
Definition accept (ans : stun_message_t) (src : addr_record_t) (id : nat) : M Z :=
  ans ← server_prepare_credentials src (Some id) ans;
  password ← password_of (Some id);
  server_stun_send src ans password.

(** ** Requests *)

(** The loop that picks the relayed address: the first IPv4 one, or the first. *)
Fixpoint pick_relayed (records : list addr_record_t) (relayed : option addr_record_t) : option addr_record_t :=
  match records with
  | [] => relayed
  | r :: records' =>
      let v4 := sa_family (addr r) =? AF_INET in
      match relayed with
      | Some _ => if v4 then Some r else pick_relayed records' relayed
      | None => if v4 then Some r else pick_relayed records' (Some r)
      end
  end.

(** The relayed address to advertise, if any. *)
Definition relayed_address (s : juice_server_t) : option addr_record_t :=
  let '(count, records) :=
    match external_address (config s) with
    | Some host => addr_resolve getaddrinfo host (default [] (snd (snprintf 8 (fmt_u (u16 (sock_port e))))))
                     SOCK_DGRAM (Z.to_nat MAX_RELAYED_RECORDS_COUNT)
    | None => local_addrs e
    end in
  if count <=? 0 then None
  else
    let count := if MAX_RELAYED_RECORDS_COUNT <? count then MAX_RELAYED_RECORDS_COUNT else count in
    pick_relayed (take (Z.to_nat count) records) None.

(** The new allocation for [src] in a slot. *)
Definition allocation (a : server_turn_alloc_t) (src : addr_record_t) (id : nat) (s : juice_server_t)
  : server_turn_alloc_t :=
  {| alloc_state := SERVER_TURN_ALLOC_FULL; alloc_record := src; alloc_credentials := Some id;
     alloc_transaction_id := alloc_transaction_id a; alloc_timestamp := alloc_timestamp a;
     alloc_sock := new_sock e; alloc_map := turn_init_map (max_peers (config s)) |}.

(** From [uint32_t lifetime] to the end of [server_process_turn_allocate]. *)
Definition grant_allocation (msg : stun_message_t) (src : addr_record_t) (id i : nat) : M Z :=
  let lifetime_ := ALLOCATION_LIFETIME / 1000 in
  let lifetime_ := if lifetime_set msg && (lifetime msg <? lifetime_) then lifetime msg else lifetime_ in
  s ← get;
  a ← defined (allocs s !! i);
  _ ← put_alloc i (with_alloc_request a (transaction_id msg) (now e + u32 (lifetime_ * 1000)));
  relayed_ ← (if lifetime_ =? 0 then _ ← delete_allocation i; mret (Some None)
              else s ← get;
                   match relayed_address s with
                   | None => _ ← delete_allocation i; mret None
                   | Some r => mret (Some (Some r))
                   end);
  match relayed_ with
  | None => refuse_fail msg src 500 (Some id)
  | Some relayed_ =>
      let ans := answer STUN_CLASS_RESP_SUCCESS (msg_method msg) (transaction_id msg) in
      let ans := set_mapped (set_lifetime_set (set_lifetime ans lifetime_) true) src in
      let ans := match relayed_ with Some r => set_relayed ans r | None => ans end in
      accept ans src id
  end.

(** An allocation in the free slot [i], if the quota allows it. *)
Definition create_allocation (msg : stun_message_t) (src : addr_record_t) (id i : nat)
    (a : server_turn_alloc_t) : M Z :=
  cr ← deref id;
  if allocations_quota cr <=? 0 then refuse msg src 486 (Some id)
  else
    _ ← put_alloc i (with_alloc_sock a (new_sock e));
    if new_sock e =? INVALID_SOCKET then refuse_fail msg src 500 (Some id)
    else
      s ← get;
      _ ← put_alloc i (allocation a src id s);
      _ ← add_quota id (-1);
      grant_allocation msg src id i.

Definition server_process_turn_allocate (msg : stun_message_t) (src : addr_record_t) (id : nat) : M Z :=
  if negb (bool_decide (msg_class msg = STUN_CLASS_REQUEST)) then mret (-1)
  else if negb (msg_method msg =? STUN_METHOD_ALLOCATE) && negb (msg_method msg =? STUN_METHOD_REFRESH)
  then mret (-1)
  else
    s ← get;
    found ← defined (find_allocation (allocs s) (allocs_count s) src true);
    match found with
    | None => refuse msg src 486 (Some id)
    | Some i =>
        a ← defined (allocs s !! i);
        if bool_decide (alloc_state a = SERVER_TURN_ALLOC_FULL) then
          if (msg_method msg =? STUN_METHOD_ALLOCATE) &&
             negb (bool_decide (alloc_transaction_id a = transaction_id msg))
          then refuse msg src 437 (Some id)
          else if negb (bool_decide (alloc_credentials a = Some id)) then refuse msg src 441 (Some id)
          else grant_allocation msg src id i
        else if msg_method msg =? STUN_METHOD_REFRESH then refuse msg src 437 (Some id)
        else create_allocation msg src id i a
    end.

(** The permissions of a request, up to the first that fails. *)
Fixpoint set_permissions (m : turn_map_t) (tid : list Z) (l : list addr_record_t) : op :=
  match l with
  | [] => Some (true, m)
  | peer :: l' =>
      '(ok, m) ← turn_set_permission m tid (Some peer) (now e) PERMISSION_LIFETIME;
      if (ok : bool) then set_permissions m tid l' else Some (false, m)
  end.

(** The allocation of [src], which must exist and belong to [id]. *)
Definition with_allocation (msg : stun_message_t) (src : addr_record_t) (id : nat)
    (k : nat -> server_turn_alloc_t -> M Z) : M Z :=
  s ← get;
  found ← defined (find_allocation (allocs s) (allocs_count s) src false);
  match found with
  | None => refuse msg src 437 (Some id)
  | Some i =>
      a ← defined (allocs s !! i);
      if negb (bool_decide (alloc_state a = SERVER_TURN_ALLOC_FULL)) then refuse msg src 437 (Some id)
      else if negb (bool_decide (alloc_credentials a = Some id)) then refuse msg src 441 (Some id)
      else k i a
  end.

Definition server_process_turn_create_permission (msg : stun_message_t) (src : addr_record_t) (id : nat) : M Z :=
  if negb (bool_decide (msg_class msg = STUN_CLASS_REQUEST)) then mret (-1)
  else if peers_size msg =? 0 then refuse msg src 400 (Some id)
  else
    with_allocation msg src id (fun i a =>
      '(ok, m) ← defined (set_permissions (alloc_map a) (transaction_id msg) (peers msg));
      _ ← put_alloc i (with_alloc_map a m);
      if negb ok then refuse_fail msg src 500 (Some id)
      else accept (answer STUN_CLASS_RESP_SUCCESS STUN_METHOD_CREATE_PERMISSION (transaction_id msg)) src id).

Definition server_process_turn_channel_bind (msg : stun_message_t) (src : addr_record_t) (id : nat) : M Z :=
  if negb (bool_decide (msg_class msg = STUN_CLASS_REQUEST)) then mret (-1)
  else if peers_size msg =? 0 then refuse msg src 400 (Some id)
  else if channel_number msg =? 0 then refuse msg src 400 (Some id)
  else
    with_allocation msg src id (fun i a =>
      let c := channel_number msg in
      if negb (is_valid_channel c) then refuse msg src 400 (Some id)
      else
        peer ← defined (peers msg !! 0%nat);
        '(ok, m) ← defined (turn_bind_channel (alloc_map a) (Some peer) (Some (transaction_id msg)) c
                              (now e) BIND_LIFETIME);
        _ ← put_alloc i (with_alloc_map a m);
        if negb ok then refuse_fail msg src 500 (Some id)
        else
          '(ok, m) ← defined (turn_set_permission m (transaction_id msg) (Some peer) (now e)
                                PERMISSION_LIFETIME);
          _ ← put_alloc i (with_alloc_map a m);
          if negb ok then refuse_fail msg src 500 (Some id)
          else accept (answer STUN_CLASS_RESP_SUCCESS STUN_METHOD_CHANNEL_BIND (transaction_id msg)) src id).

(** ** Relaying *)

Definition server_process_turn_send (msg : stun_message_t) (src : addr_record_t) : M Z :=
  if negb (bool_decide (msg_class msg = STUN_CLASS_INDICATION)) then mret (-1)
  else
    match data msg with
    | None => mret (-1)
    | Some bytes_ =>
        if peers_size msg =? 0 then mret (-1)
        else
          s ← get;
          found ← defined (find_allocation (allocs s) (allocs_count s) src false);
          match found with
          | None => mret (-1)
          | Some i =>
              a ← defined (allocs s !! i);
              if negb (bool_decide (alloc_state a = SERVER_TURN_ALLOC_FULL)) then mret (-1)
              else
                peer ← defined (peers msg !! 0%nat);
                ok ← defined (turn_has_permission (alloc_map a) peer (now e));
                if negb ok then mret (-1) else send_from (alloc_sock a) peer bytes_
          end
    end.

Definition server_process_channel_data (buf : list Z) (src : addr_record_t) : M Z :=
  s ← get;
  found ← defined (find_allocation (allocs s) (allocs_count s) src false);
  match found with
  | None => mret (-1)
  | Some i =>
      a ← defined (allocs s !! i);
      if negb (bool_decide (alloc_state a = SERVER_TURN_ALLOC_FULL)) then mret (-1)
      else if zlen buf <? sizeof_channel_data_header then mret (-1)
      else
        c ← defined (load16 buf 0);
        length_ ← defined (load16 buf 2);
        if zlen buf - sizeof_channel_data_header <? length_ then mret (-1)
        else
          found ← defined (turn_find_bound_channel (alloc_map a) c (now e));
          match found with
          | None => mret (-1)
          | Some record =>
              bytes_ ← defined (load buf sizeof_channel_data_header length_);
              _ ← send_from (alloc_sock a) record bytes_;
              mret 0
          end
  end.

(** The end of [server_forward]: as ChannelData where the peer has a channel, in a
    Data indication otherwise. *)
Definition forward_to_client (a : server_turn_alloc_t) (buf : list Z) (r : addr_record_t) : M Z :=
  found ← defined (turn_get_bound_channel (alloc_map a) r (now e));
  match found with
  | Some c =>
      '(n, m) ← defined (turn_wrap_channel_data (buf ++ drop (length buf) stack) BUFFER_SIZE buf c);
      if n <=? 0 then mret (-1) else server_send (alloc_record a) (take (Z.to_nat n) m)
  | None =>
      let msg := answer STUN_CLASS_INDICATION STUN_METHOD_DATA (random_tid e) in
      server_stun_send (alloc_record a) (set_data (set_peers msg [r]) (Some buf)) None
  end.

(** A datagram received on the socket of an allocation. *)
Definition forward_datagram (a : server_turn_alloc_t) (buf : list Z) (r : addr_record_t) : M Z :=
  let '(_, sa, len_) := addr_unmap_inet6_v4mapped (addr r) (len r) in
  let r := {| addr := sa; len := len_; socktype := socktype r |} in
  ok ← defined (turn_has_permission (alloc_map a) r (now e));
  if negb ok then mret (-1) else forward_to_client a buf r.

(** Every path leaves the loop of [server_forward] after one [recvfrom]. *)
Definition server_forward (a : server_turn_alloc_t) (x : received_t) : M Z :=
  match x with
  | WouldBlock => mret 0
  | RecvError => mret (-1)
  | Datagram buf r => forward_datagram a buf r
  end.

(** ** Dispatch *)

Definition node_live (n : juice_credentials_list_t) : bool :=
  (node_timestamp n =? 0) || (now e <? node_timestamp n).

(** The loops over the credentials, which keep the last match. *)
Fixpoint find_by_userhash (l : list juice_credentials_list_t) (hash : list Z) (found : option nat)
  : option (option nat) :=
  match l with
  | [] => Some found
  | n :: l' =>
      if node_live n then
        c ← const_time_memcmp (node_userhash n) hash (Z.to_nat USERHASH_SIZE);
        find_by_userhash l' hash (if c =? 0 then Some (node_id n) else found)
      else find_by_userhash l' hash found
  end.

Fixpoint find_by_username (l : list juice_credentials_list_t) (name : list Z) (found : option nat)
  : option (option nat) :=
  match l with
  | [] => Some found
  | n :: l' =>
      if node_live n then
        c ← const_time_strcmp (cred_username (node_credentials n) ++ [0]) (name ++ [0]);
        find_by_username l' name (if c =? 0 then Some (node_id n) else found)
      else find_by_username l' name found
  end.

Definition lacks_credentials (msg : stun_message_t) : bool :=
  let c := credentials msg in
  negb (has_integrity msg) || bool_decide (realm c = []) || bool_decide (nonce c = []) ||
  (bool_decide (username c = []) && negb (enable_userhash c)).

(** The lookup of the credentials of a request: the pointer and the message,
    which gets the user name of a user hash. *)
Definition lookup_credentials (msg : stun_message_t) : M (option nat * stun_message_t) :=
  s ← get;
  if enable_userhash (credentials msg) then
    found ← defined (find_by_userhash (server_credentials s) (userhash (credentials msg)) None);
    match found with
    | None => mret (None, msg)
    | Some id =>
        cr ← deref id;
        let name := default [] (snd (snprintf STUN_MAX_USERNAME_LEN (cred_username cr))) in
        mret (Some id, set_credentials msg (set_username (credentials msg) name))
    end
  else
    found ← defined (find_by_username (server_credentials s) (username (credentials msg)) None);
    mret (found, msg).

(** The [switch] of [server_dispatch_stun]; a request that reaches a handler that
    takes credentials has them. *)
Definition dispatch_method (msg : stun_message_t) (src : addr_record_t) (credentials_ : option nat) : M Z :=
  let method := msg_method msg in
  if method =? STUN_METHOD_BINDING then server_process_stun_binding msg src
  else if (method =? STUN_METHOD_ALLOCATE) || (method =? STUN_METHOD_REFRESH) then
    id ← defined credentials_; server_process_turn_allocate msg src id
  else if method =? STUN_METHOD_CREATE_PERMISSION then
    id ← defined credentials_; server_process_turn_create_permission msg src id
  else if method =? STUN_METHOD_CHANNEL_BIND then
    id ← defined credentials_; server_process_turn_channel_bind msg src id
  else if method =? STUN_METHOD_SEND then server_process_turn_send msg src
  else mret (-1).

(** The check of the credentials of a request, then what it asks for. *)
Definition authenticate (buf : list Z) (msg : stun_message_t) (src : addr_record_t) : M Z :=
  if lacks_credentials msg then refuse msg src 401 None
  else
    n ← server_get_nonce src;
    s ← get;
    if negb (bool_decide (nonce (credentials msg) = n)) ||
       negb (bool_decide (realm (credentials msg) = server_realm (config s)))
    then refuse msg src 438 None
    else
      '(credentials_, msg) ← lookup_credentials msg;
      match credentials_ with
      | None => refuse_fail msg src 401 None
      | Some id =>
          cr ← deref id;
          '(_, valid) ← defined (stun_check_integrity buf (zlen buf) msg (Some (cred_password cr)));
          if negb valid then refuse_fail msg src 401 None
          else dispatch_method msg src (Some id)
      end.

Definition server_dispatch_stun (buf : list Z) (msg : stun_message_t) (src : addr_record_t) : M Z :=
  let method := msg_method msg in
  let request := bool_decide (msg_class msg = STUN_CLASS_REQUEST) in
  let indication := bool_decide (msg_class msg = STUN_CLASS_INDICATION) in
  if negb (request || (indication && ((method =? STUN_METHOD_BINDING) || (method =? STUN_METHOD_SEND))))
  then mret (-1)
  else
    s ← get;
    if (allocs_count s =? 0) && negb (method =? STUN_METHOD_BINDING) then refuse msg src 400 None
    else if error_code msg =? STUN_ERROR_INTERNAL_VALIDATION_FAILED then
      if request then refuse msg src 400 None else mret (-1)
    else if negb (method =? STUN_METHOD_BINDING) && negb indication then authenticate buf msg src
    else dispatch_method msg src None.

Definition server_input (buf : list Z) (src : addr_record_t) : M Z :=
  stun ← defined (is_stun_datagram buf (zlen buf));
  if (stun : bool) then
    '(ret, buf, msg) ← defined (stun_read buf (zlen buf));
    if ret <? 0 then mret (-1) else server_dispatch_stun buf msg src
  else
    channel_data ← defined (is_channel_data buf (zlen buf));
    if (channel_data : bool) then server_process_channel_data buf src else mret (-1).

Fixpoint server_recv (l : list received_t) : M Z :=
  match l with
  | [] | WouldBlock :: _ => mret 0
  | RecvError :: _ => mret (-1)
  | Datagram buf r :: l' =>
      if zlen buf =? 0 then server_recv l'
      else
        let '(_, sa, len_) := addr_unmap_inet6_v4mapped (addr r) (len r) in
        _ ← server_input buf {| addr := sa; len := len_; socktype := socktype r |};
        server_recv l'
  end.

(** ** Bookkeeping *)

(** The loop over the allocations from slot [i]: the next timestamp. *)
Fixpoint expire_allocations (n i : nat) (next : Z) : M Z :=
  match n with
  | O => mret next
  | S n' =>
      s ← get;
      a ← defined (allocs s !! i);
      if negb (bool_decide (alloc_state a = SERVER_TURN_ALLOC_FULL)) then expire_allocations n' (S i) next
      else if alloc_timestamp a <=? now e then
        _ ← delete_allocation i; expire_allocations n' (S i) next
      else expire_allocations n' (S i) (if alloc_timestamp a <? next then alloc_timestamp a else next)
  end.

(** The result is 0 and [next_timestamp] is returned. *)
Definition server_bookkeeping : M Z :=
  s ← get;
  next ← expire_allocations (length (allocs s)) 0 (now e + 60000);
  s ← get;
  _ ← put (with_nodes s (List.filter
             (fun n => negb (negb (node_timestamp n =? 0) && (node_timestamp n <=? now e)))
             (server_credentials s)));
  mret next.

End Server.

(** ** The thread *)

(** What [poll] reports: an interruption, a failure, an error of the socket of the
    server, or which sockets have something to read and what [recvfrom] then
    gives, for the server and for each slot of the table.  The thread may have
    been asked to stop. *)
Inductive poll_t :=
| PollInterrupted
| PollFailed
| PollStopped
| PollError
| Polled (server_ready : option (list received_t)) (slots : list (option received_t)).

(** A round of the loop: the system at [server_bookkeeping], what [poll] gives, and
    the system after it. *)
Record round := { before_poll : env; poll_result : poll_t; after_poll : env }.

Section Thread.
Context `{Crypto} (sockaddr_bytes : addr_record_t -> list Z)
        (getaddrinfo : list Z -> list Z -> Z -> option (list addrinfo)) (uninit stack : list Z).

(** The loop over the allocations from slot [i]. *)
Fixpoint forward_all (e : env) (slots : list (option received_t)) (i : nat) : M unit :=
  match slots with
  | [] => mret tt
  | x :: slots' =>
      s ← get;
      _ ← match allocs s !! i, x with
          | Some a, Some x =>
              if bool_decide (alloc_state a = SERVER_TURN_ALLOC_FULL)
              then _ ← server_forward uninit stack e a x; mret tt else mret tt
          | _, _ => mret tt
          end;
      forward_all e slots' (S i)
  end.

(** The loop of the thread over its rounds, each of which starts when the one
    before has been treated. *)
Fixpoint server_run (l : list round) : M unit :=
  match l with
  | [] => mret tt
  | r :: l' =>
      _ ← server_bookkeeping (before_poll r);
      match poll_result r with
      | PollInterrupted => server_run l'
      | PollFailed | PollStopped | PollError => mret tt
      | Polled server_ready slots =>
          ret ← match server_ready with
                | Some received => server_recv sockaddr_bytes getaddrinfo uninit stack (after_poll r) received
                | None => mret 0
                end;
          if ret <? 0 then mret tt
          else _ ← forward_all (after_poll r) slots 0; server_run l'
      end
  end.
End Thread.

(** The loop of [server_do_destroy] over the allocations from slot [i]. *)
Fixpoint delete_all (n i : nat) : M unit :=
  match n with
  | O => mret tt
  | S n' => _ ← delete_allocation i; delete_all n' (S i)
  end.

(** The sockets that are closed; the memory is freed after. *)
Definition server_do_destroy : M unit :=
  s ← get;
  _ ← emit (Closed (server_sock s));
  delete_all (length (allocs s)) 0.
