(* ===== verification/ServerSafety.v ===== *)
(** * Safety of the STUN and TURN server

    What the handlers of the server do with the state, for any datagram: only an
    authenticated request changes the tables, nothing is relayed without a
    permission, the quotas of the users hold, and bookkeeping deletes exactly what
    has expired.  Runs of a server on concrete datagrams close the file: they are
    the witnesses of the theorems and show four defects of the code. *)

From S2P Require Import Prelude Effects CText ConstTime Addr Turn StunTypes StunWrite StunRead StunRoundtrip Server.

(** ** Answers *)

(** What a step that only answers may change: the nonce key. *)
Definition same_tables (s s' : juice_server_t) : Prop :=
  allocs s' = allocs s /\ server_credentials s' = server_credentials s /\ config s' = config s /\
  server_sock s' = server_sock s /\ next_id s' = next_id s.

Lemma same_tables_trans s1 s2 s3 : same_tables s1 s2 -> same_tables s2 s3 -> same_tables s1 s3.
Proof. unfold same_tables. intuition congruence. Qed.

(** [c] changes no table and sends only from the socket of the server, to [src]. *)
Definition answers_only {A} (src : addr_record_t) (c : M A) : Prop :=
  forall s x s' tr, c s = Some (x, s', tr) ->
  same_tables s s' /\ Forall (fun ev => exists d, ev = Sent (server_sock s) src d) tr.

Lemma answers_only_bind {A B} src (c : M A) (k : A -> M B) :
  answers_only src c -> (forall x, answers_only src (k x)) -> answers_only src (x ← c; k x).
Proof.
  intros Hc Hk s y s' tr Hr. run_inv. destruct (Hc _ _ _ _ H) as [T1 E1].
  destruct (Hk _ _ _ _ _ Hr) as [T2 E2]. split; [by eapply same_tables_trans|].
  apply Forall_app. split; [done|]. destruct T1 as (_ & _ & _ & Hs & _). by rewrite <- Hs.
Qed.

Lemma answers_only_pure {A} src (c : M A) :
  (forall s x s' tr, c s = Some (x, s', tr) -> s' = s /\ tr = []) -> answers_only src c.
Proof. intros Hc s x s' tr Hr. apply Hc in Hr as [-> ->]. by repeat split. Qed.

Lemma answers_only_ret {A} src (x : A) : answers_only src (mret x : M A).
Proof. apply answers_only_pure. intros. by run_inv. Qed.
Lemma answers_only_get src : answers_only src get.
Proof. apply answers_only_pure. intros. by run_inv. Qed.
Lemma answers_only_defined {A} src (x : option A) : answers_only src (defined x).
Proof. apply answers_only_pure. intros. by run_inv. Qed.
#[local] Hint Resolve answers_only_ret answers_only_get answers_only_defined : core.

(** Goes through a handler bind by bind and branch by branch. *)
Ltac answers :=
  repeat first
    [ solve [auto]
    | progress (apply answers_only_bind; [|intros ?])
    | match goal with
      | |- answers_only _ (match ?x with _ => _ end) => destruct x
      | |- answers_only _ (let '_ := ?x in _) => destruct x
      end ].

Section Answers.
Context `{Crypto} (sockaddr_bytes : addr_record_t -> list Z)
        (getaddrinfo : list Z -> list Z -> Z -> option (list addrinfo)) (uninit stack : list Z) (e : env).


Lemma server_send_answers dst d : answers_only dst (server_send e dst d).
Proof.
  intros s x s' tr Hr. unfold server_send, send_from in Hr. run_inv. split; [by repeat split|].
  cbn. constructor; [by eexists|constructor].
Qed.

Lemma server_get_nonce_answers src dst : answers_only dst (server_get_nonce sockaddr_bytes e src).
Proof.
  intros s x s' tr Hr. unfold server_get_nonce in Hr.
  run_cases; (split; [by repeat split|constructor]).
Qed.

Lemma deref_answers id dst : answers_only dst (deref id).
Proof. unfold deref. answers. Qed.
#[local] Hint Resolve server_send_answers server_get_nonce_answers deref_answers : core.

Lemma server_stun_send_answers dst msg password :
  answers_only dst (server_stun_send uninit stack e dst msg password).
Proof. unfold server_stun_send. answers. Qed.
#[local] Hint Resolve server_stun_send_answers : core.

Lemma server_prepare_credentials_answers src cr msg dst :
  answers_only dst (server_prepare_credentials sockaddr_bytes e src cr msg).
Proof. unfold server_prepare_credentials. answers. Qed.
Lemma password_of_answers cr dst : answers_only dst (password_of cr).
Proof. unfold password_of. answers. Qed.
#[local] Hint Resolve server_prepare_credentials_answers password_of_answers : core.

Lemma refuse_answers msg src code cr : answers_only src (refuse sockaddr_bytes uninit stack e msg src code cr).
Proof. unfold refuse, server_answer_stun_error. answers. Qed.
#[local] Hint Resolve refuse_answers : core.
Lemma refuse_fail_answers msg src code cr : answers_only src (refuse_fail sockaddr_bytes uninit stack e msg src code cr).
Proof. unfold refuse_fail. answers. Qed.
Lemma accept_answers ans src id : answers_only src (accept sockaddr_bytes uninit stack e ans src id).
Proof. unfold accept. answers. Qed.
Lemma binding_answers msg src : answers_only src (server_process_stun_binding uninit stack e msg src).
Proof. unfold server_process_stun_binding, server_answer_stun_binding. answers. Qed.
Lemma lookup_credentials_answers msg src : answers_only src (lookup_credentials e msg).
Proof. unfold lookup_credentials. answers. Qed.
End Answers.
#[global] Hint Resolve refuse_answers refuse_fail_answers accept_answers binding_answers
  lookup_credentials_answers server_get_nonce_answers deref_answers : core.

(** ** Authentication *)

Section Authentication.
Context `{Crypto} (sockaddr_bytes : addr_record_t -> list Z)
        (getaddrinfo : list Z -> list Z -> Z -> option (list addrinfo)) (uninit stack : list Z) (e : env).

(** The nonce the server expects from [src] now. *)
Definition current_nonce (s : juice_server_t) (src : addr_record_t) : list Z :=
  match server_get_nonce sockaddr_bytes e src s with Some (n, _, _) => n | None => [] end.

(** The credentials that a request names. *)
Definition names (msg : stun_message_t) (n : juice_credentials_list_t) : Prop :=
  if enable_userhash (credentials msg)
  then const_time_memcmp (node_userhash n) (userhash (credentials msg)) (Z.to_nat USERHASH_SIZE) = Some 0
  else const_time_strcmp (cred_username (node_credentials n) ++ [0]) (username (credentials msg) ++ [0]) = Some 0.

(** The message with the user name of the credentials, where it has a user hash. *)
Definition identified (msg : stun_message_t) (n : juice_credentials_list_t) : stun_message_t :=
  if enable_userhash (credentials msg)
  then set_credentials msg (set_username (credentials msg)
         (default [] (snd (snprintf STUN_MAX_USERNAME_LEN (cred_username (node_credentials n))))))
  else msg.

(** The request in [buf] is from the user of credentials [n] of the server. *)
Definition authenticated (s : juice_server_t) (buf : list Z) (msg : stun_message_t) (src : addr_record_t)
    (n : juice_credentials_list_t) : Prop :=
  n ∈ server_credentials s /\ node_live e n = true /\ names msg n /\
  has_integrity msg = true /\ nonce (credentials msg) = current_nonce s src /\
  realm (credentials msg) = server_realm (config s) /\
  exists buf', stun_check_integrity buf (zlen buf) (identified msg n) (Some (cred_password (node_credentials n)))
               = Some (buf', true).

Definition unique_ids (s : juice_server_t) : Prop := NoDup (node_id <$> server_credentials s).

Lemma find_node_unique (l : list juice_credentials_list_t) n : NoDup (node_id <$> l) -> n ∈ l ->
  find_node (node_id n) l = Some n.
Proof.
  induction l as [|x l IH]; intros Hnd Hin; [by apply not_elem_of_nil in Hin|]. unfold find_node in *. cbn.
  rewrite fmap_cons in Hnd. apply list.NoDup_cons in Hnd as [Hx Hnd].
  apply elem_of_cons in Hin as [-> |Hin]; [by rewrite bool_decide_eq_true_2|].
  case_bool_decide as Hid; [|by apply IH]. destruct Hx. rewrite Hid. by apply list_elem_of_fmap_2.
Qed.

Lemma find_by_userhash_found (l : list juice_credentials_list_t) hash : forall found id,
  find_by_userhash e l hash found = Some (Some id) ->
  found = Some id \/ exists n, n ∈ l /\ node_id n = id /\ node_live e n = true /\
    const_time_memcmp (node_userhash n) hash (Z.to_nat USERHASH_SIZE) = Some 0.
Proof.
  induction l as [|n l IH]; intros found id Hf; cbn [find_by_userhash] in Hf; [by injection Hf as ->; left|].
  destruct (node_live e n) eqn:Hl.
  - apply bind_Some in Hf as (c & Hc & Hf). apply IH in Hf as [Hf|(n' & Hn' & Hr)].
    + case_if_in Hf; [|by left]. injection Hf as <-. subst c. right. exists n. repeat split; [by left|done|done].
    + right. exists n'. split; [by right|done].
  - apply IH in Hf as [Hf|(n' & Hn' & Hr)]; [by left|]. right. exists n'. split; [by right|done].
Qed.

Lemma find_by_username_found (l : list juice_credentials_list_t) name : forall found id,
  find_by_username e l name found = Some (Some id) ->
  found = Some id \/ exists n, n ∈ l /\ node_id n = id /\ node_live e n = true /\
    const_time_strcmp (cred_username (node_credentials n) ++ [0]) (name ++ [0]) = Some 0.
Proof.
  induction l as [|n l IH]; intros found id Hf; cbn [find_by_username] in Hf; [by injection Hf as ->; left|].
  destruct (node_live e n) eqn:Hl.
  - apply bind_Some in Hf as (c & Hc & Hf). apply IH in Hf as [Hf|(n' & Hn' & Hr)].
    + case_if_in Hf; [|by left]. injection Hf as <-. subst c. right. exists n. repeat split; [by left|done|done].
    + right. exists n'. split; [by right|done].
  - apply IH in Hf as [Hf|(n' & Hn' & Hr)]; [by left|]. right. exists n'. split; [by right|done].
Qed.

Lemma lookup_credentials_found s msg id msg' s' tr : unique_ids s ->
  lookup_credentials e msg s = Some ((Some id, msg'), s', tr) ->
  exists n, n ∈ server_credentials s /\ node_id n = id /\ node_live e n = true /\ names msg n /\
            msg' = identified msg n /\ find_node id (server_credentials s) = Some n.
Proof.
  intros Hu Hr. unfold lookup_credentials, deref, names, identified in *.
  destruct (enable_userhash (credentials msg)); run_cases; try discriminate.
  - match goal with Hf : find_by_userhash _ _ _ _ = _ |- _ =>
      apply find_by_userhash_found in Hf as [?|(nd & Hn & Hid & Hl & Hc)]; [done|] end. subst.
    match goal with Hf : find_node _ _ = Some ?x |- _ =>
      pose proof Hf as Hf'; rewrite (find_node_unique _ nd Hu Hn) in Hf'; injection Hf' as <- end.
    match goal with Heq : (Some id, msg') = _ |- _ => injection Heq as -> -> end. by exists nd.
  - match goal with Heq : (Some id, msg') = _ |- _ => injection Heq as <- -> end.
    match goal with Hf : find_by_username _ _ _ _ = _ |- _ =>
      apply find_by_username_found in Hf as [?|(nd & Hn & Hid & Hl & Hc)]; [done|] end.
    exists nd. do 5 (split; [done|]). subst. by apply find_node_unique.
Qed.
End Authentication.

(** [c] keeps the socket, sends only to [src] from it and closes sockets. *)
Definition emits {A} (src : addr_record_t) (c : M A) : Prop :=
  forall s x s' tr, c s = Some (x, s', tr) ->
  server_sock s' = server_sock s /\
  Forall (fun ev => (exists d, ev = Sent (server_sock s) src d) \/ (exists k, ev = Closed k)) tr.

Lemma emits_bind {A B} src (c : M A) (k : A -> M B) :
  emits src c -> (forall x, emits src (k x)) -> emits src (x ← c; k x).
Proof.
  intros Hc Hk s y s' tr Hr. run_inv. destruct (Hc _ _ _ _ H) as [T1 E1].
  destruct (Hk _ _ _ _ _ Hr) as [T2 E2]. split; [congruence|]. apply Forall_app. split; [done|]. by rewrite <- T1.
Qed.

Lemma answers_emits {A} src (c : M A) : answers_only src c -> emits src c.
Proof.
  intros Hc s x s' tr Hr. apply Hc in Hr as [ (_ & _ & _ & Hs & _) He]. split; [done|].
  eapply Forall_impl; [|exact He]. intros ev [d ->]. left. by exists d.
Qed.

Lemma put_alloc_emits src i a : emits src (put_alloc i a).
Proof. intros s x s' tr Hr. unfold put_alloc in Hr. run_inv. split; [done|constructor]. Qed.

Lemma add_quota_emits src id d : emits src (add_quota id d).
Proof. intros s x s' tr Hr. unfold add_quota in Hr. run_inv. split; [done|constructor]. Qed.

Lemma emit_closed_emits src k : emits src (emit (Closed k)).
Proof.
  intros s x s' tr Hr. run_inv. split; [done|]. constructor; [|constructor]. right. by exists k.
Qed.
#[local] Hint Resolve put_alloc_emits add_quota_emits emit_closed_emits : core.

Ltac emits_step :=
  repeat first
    [ solve [auto | apply answers_emits; auto]
    | progress (apply emits_bind; [|intros ?])
    | match goal with
      | |- emits _ (match ?x with _ => _ end) => destruct x
      | |- emits _ (let '_ := ?x in _) => destruct x
      end ].

Lemma delete_allocation_emits src i : emits src (delete_allocation i).
Proof. unfold delete_allocation. emits_step. Qed.
#[local] Hint Resolve delete_allocation_emits : core.

Section Requests.
Context `{Crypto} (sockaddr_bytes : addr_record_t -> list Z)
        (getaddrinfo : list Z -> list Z -> Z -> option (list addrinfo)) (uninit stack : list Z) (e : env).

Lemma grant_allocation_emits msg src id i :
  emits src (grant_allocation sockaddr_bytes getaddrinfo uninit stack e msg src id i).
Proof. unfold grant_allocation. emits_step. Qed.
#[local] Hint Resolve grant_allocation_emits : core.

Lemma create_allocation_emits msg src id i a :
  emits src (create_allocation sockaddr_bytes getaddrinfo uninit stack e msg src id i a).
Proof. unfold create_allocation. emits_step. Qed.
#[local] Hint Resolve create_allocation_emits : core.

Lemma allocate_emits msg src id :
  emits src (server_process_turn_allocate sockaddr_bytes getaddrinfo uninit stack e msg src id).
Proof. unfold server_process_turn_allocate. emits_step. Qed.

Lemma create_permission_emits msg src id :
  emits src (server_process_turn_create_permission sockaddr_bytes uninit stack e msg src id).
Proof. unfold server_process_turn_create_permission, with_allocation. emits_step. Qed.

Lemma channel_bind_emits msg src id :
  emits src (server_process_turn_channel_bind sockaddr_bytes uninit stack e msg src id).
Proof. unfold server_process_turn_channel_bind, with_allocation. emits_step. Qed.
End Requests.
#[global] Hint Resolve allocate_emits create_permission_emits channel_bind_emits : core.

(** ** Relaying *)

(** The allocation that [find_allocation] gives when it is in use is for the
    client. *)
Lemma find_allocation_loop_client (l : list server_turn_alloc_t) r allow_deleted key (fuel : nat) : forall pos i a,
  find_allocation_loop fuel l r allow_deleted key pos = Some (Some i) -> l !! i = Some a ->
  alloc_state a = SERVER_TURN_ALLOC_FULL -> same_record true (alloc_record a) r.
Proof.
  induction fuel as [|fuel IH]; intros pos i a Hf Ha Hs; [done|]. cbn [find_allocation_loop] in Hf.
  apply bind_Some in Hf as (a' & Ha' & Hf).
  destruct (bool_decide (alloc_state a' = SERVER_TURN_ALLOC_EMPTY) ||
    allow_deleted && bool_decide (alloc_state a' = SERVER_TURN_ALLOC_DELETED) ||
    addr_record_is_equal (alloc_record a') r true) eqn:E.
  - injection Hf as <-. rewrite Ha' in Ha. injection Ha as ->. rewrite Hs in E.
    cbn in E. by rewrite andb_false_r in E.
  - case_if_in Hf; [done|]. by apply (IH _ _ _ Hf).
Qed.

Lemma find_allocation_client (l : list server_turn_alloc_t) size r allow_deleted i a :
  find_allocation l size r allow_deleted = Some (Some i) -> l !! i = Some a ->
  alloc_state a = SERVER_TURN_ALLOC_FULL -> same_record true (alloc_record a) r.
Proof.
  unfold find_allocation. destruct (size =? 0); [done|]. apply find_allocation_loop_client.
Qed.

Section Safety.
Context `{Crypto} (sockaddr_bytes : addr_record_t -> list Z)
        (getaddrinfo : list Z -> list Z -> Z -> option (list addrinfo)) (uninit stack : list Z) (e : env).

(** Relaying for the client [src]: from the socket of its allocation, to a peer
    with a permission or a channel. *)
Definition relayed_for (s : juice_server_t) (src : addr_record_t) (ev : event) : Prop :=
  exists i a dst d, ev = Sent (alloc_sock a) dst d /\ allocs s !! i = Some a /\
  alloc_state a = SERVER_TURN_ALLOC_FULL /\ same_record true (alloc_record a) src /\
  (turn_has_permission (alloc_map a) dst (now e) = Some true \/
   exists c, turn_find_bound_channel (alloc_map a) c (now e) = Some (Some dst)).

Lemma turn_send_relays msg src s r s' tr : server_process_turn_send e msg src s = Some (r, s', tr) ->
  s' = s /\ Forall (relayed_for s src) tr.
Proof.
  intros Hr. unfold server_process_turn_send, send_from in Hr. run_cases; try solve [split; [done|constructor] ].
  split; [done|]. constructor; [|constructor].
  do 4 eexists. split; [done|]. split; [eassumption|].
  match goal with Hs : negb (bool_decide (alloc_state ?a = _)) = false, Ha : allocs _ !! _ = Some ?a,
    Hf : find_allocation _ _ _ _ = _ |- _ =>
    apply negb_false_iff, bool_decide_eq_true in Hs;
    split; [done|]; split; [exact (find_allocation_client _ _ _ _ _ _ Hf Ha Hs)|] end.
  left. match goal with Hp : turn_has_permission _ _ _ = Some ?b, Hb : negb ?b = false |- _ =>
    apply negb_false_iff in Hb; by subst end.
Qed.

Lemma channel_data_relays buf src s r s' tr : server_process_channel_data e buf src s = Some (r, s', tr) ->
  s' = s /\ Forall (relayed_for s src) tr.
Proof.
  intros Hr. unfold server_process_channel_data, send_from in Hr. run_cases; try solve [split; [done|constructor] ].
  split; [done|]. constructor; [|constructor].
  do 4 eexists. split; [done|]. split; [eassumption|].
  match goal with Hs : negb (bool_decide (alloc_state ?a = _)) = false, Ha : allocs _ !! _ = Some ?a,
    Hf : find_allocation _ _ _ _ = _ |- _ =>
    apply negb_false_iff, bool_decide_eq_true in Hs;
    split; [done|]; split; [exact (find_allocation_client _ _ _ _ _ _ Hf Ha Hs)|] end.
  right. eexists. eassumption.
Qed.

(** What a datagram may make the server emit. *)
Definition allowed (s : juice_server_t) (src : addr_record_t) (ev : event) : Prop :=
  (exists d, ev = Sent (server_sock s) src d) \/ (exists k, ev = Closed k) \/ relayed_for s src ev.

Lemma emits_allowed {A} (c : M A) src s x s' tr s0 : emits src c -> server_sock s0 = server_sock s ->
  c s = Some (x, s', tr) -> Forall (allowed s0 src) tr.
Proof.
  intros Hc Hs Hr. apply Hc in Hr as [_ He]. eapply Forall_impl; [|exact He].
  intros ev [ [d ->]|[k ->] ]; [left; exists d; by rewrite Hs|right; left; by exists k].
Qed.

Lemma relays_allowed s src tr : Forall (relayed_for s src) tr -> Forall (allowed s src) tr.
Proof. intros Hf. eapply Forall_impl; [|exact Hf]. intros ev He. by right; right. Qed.

Lemma dispatch_method_allowed msg src cr s r s' tr :
  dispatch_method sockaddr_bytes getaddrinfo uninit stack e msg src cr s = Some (r, s', tr) ->
  Forall (allowed s src) tr.
Proof.
  intros Hr. unfold dispatch_method in Hr.
  repeat match goal with Hx : (if ?b then _ else _) _ = Some _ |- _ => destruct b end;
    run_inv; try (eapply emits_allowed; [|reflexivity|eassumption]; (auto || by apply answers_emits)).
  - apply turn_send_relays in Hr as [_ Hf]. by apply relays_allowed.
  - constructor.
Qed.

(** A step that keeps the tables, then the handler of the request. *)
Lemma allowed_same s s1 src tr : same_tables s s1 -> Forall (allowed s1 src) tr -> Forall (allowed s src) tr.
Proof.
  intros (Ha & _ & _ & Hs & _) Hf. eapply Forall_impl; [|exact Hf]. unfold allowed, relayed_for.
  by rewrite Ha, Hs.
Qed.

(** The server has only answered so far: from [s] to [s1]. *)
Definition only_answered (src : addr_record_t) (s s1 : juice_server_t) (tr : list event) : Prop :=
  same_tables s s1 /\ Forall (allowed s src) tr.

Lemma only_answered_nil src s : only_answered src s s [].
Proof. split; [by repeat split|constructor]. Qed.

Lemma only_answered_step {A} (c : M A) src s s1 tr1 x s2 tr2 : only_answered src s s1 tr1 ->
  answers_only src c -> c s1 = Some (x, s2, tr2) -> only_answered src s s2 (tr1 ++ tr2).
Proof.
  intros [T1 A1] Hc Hr. split; [eapply same_tables_trans; [done|]; by apply (Hc _ _ _ _ Hr)|].
  apply Forall_app. split; [done|]. eapply allowed_same; [exact T1|].
  eapply emits_allowed; [by apply answers_emits|reflexivity|exact Hr].
Qed.

(** A lookup that finds credentials, and reading them. *)
Lemma lookup_deref s1 s2 s3 msg msg' id tr cr tr' : unique_ids s1 ->
  lookup_credentials e msg s1 = Some ((Some id, msg'), s2, tr) -> deref id s2 = Some (cr, s3, tr') ->
  exists n, n ∈ server_credentials s1 /\ id = node_id n /\ node_live e n = true /\ names msg n /\
            msg' = identified msg n /\ cr = node_credentials n.
Proof.
  intros Hu Hl Hd. pose proof (lookup_credentials_answers _ msg addr_record_zero _ _ _ _ Hl) as [T _].
  destruct (lookup_credentials_found e s1 msg id msg' s2 tr Hu Hl) as (n & Hin & Hid & Hlive & Hnm & Hm & Hf).
  exists n. unfold deref in Hd. run_inv. rewrite (proj1 (proj2 T)) in *. repeat split; congruence.
Qed.

(** The two ways a run of [authenticate] can go. *)
Lemma authenticate_cases buf msg src s r s' tr : unique_ids s ->
  authenticate sockaddr_bytes getaddrinfo uninit stack e buf msg src s = Some (r, s', tr) ->
  only_answered src s s' tr \/
  (exists n s1 tr1 tr2, authenticated sockaddr_bytes e s buf msg src n /\ only_answered src s s1 tr1 /\
     dispatch_method sockaddr_bytes getaddrinfo uninit stack e (identified msg n) src (Some (node_id n)) s1
     = Some (r, s', tr2) /\ tr = tr1 ++ tr2).
Proof.
  intros Hu Hr. unfold authenticate in Hr. destruct (lacks_credentials msg) eqn:Hlack.
  { left. by apply (only_answered_step _ _ _ _ _ _ _ _ (only_answered_nil src s) (refuse_answers _ _ _ _ _ _ _ _) Hr). }
  apply bind_run in Hr as (nc & s1 & tr1 & tr2 & Hn & Hr & ->).
  pose proof (only_answered_step _ _ _ _ _ _ _ _ (only_answered_nil src s) (server_get_nonce_answers _ _ _ _) Hn) as O1.
  cbn [app] in O1. apply bind_run in Hr as (? & ? & tr3 & tr4 & Hg & Hr & ->).
  apply get_run in Hg as (-> & -> & ->). cbn [app].
  destruct (negb (bool_decide (nonce (credentials msg) = nc)) || _) eqn:Hnonce.
  { left. exact (only_answered_step _ _ _ _ _ _ _ _ O1 (refuse_answers _ _ _ _ _ _ _ _) Hr). }
  apply bind_run in Hr as ([cr msg'] & s2 & tr5 & tr6 & Hl & Hr & ->). rewrite app_assoc.
  pose proof (only_answered_step _ _ _ _ _ _ _ _ O1 (lookup_credentials_answers _ _ _) Hl) as O2.
  destruct cr as [id|].
  2: { left. exact (only_answered_step _ _ _ _ _ _ _ _ O2 (refuse_fail_answers _ _ _ _ _ _ _ _) Hr). }
  apply bind_run in Hr as (cr & s3 & tr7 & tr8 & Hd & Hr & ->). rewrite app_assoc.
  pose proof (only_answered_step _ _ _ _ _ _ _ _ O2 (deref_answers _ _) Hd) as O3.
  destruct (proj1 O1) as (_ & Tc & Tf & _).
  assert (Hu1 : unique_ids s1) by (unfold unique_ids; by rewrite Tc).
  destruct (lookup_deref s1 s2 s3 msg msg' id tr5 cr tr7 Hu1 Hl Hd) as (n & Hin & -> & Hlive & Hnames & -> & ->).
  apply bind_run in Hr as ([buf' valid] & ? & tr9 & tr10 & Hc & Hr & ->).
  apply defined_run in Hc as (Hc & -> & ->). cbn [app]. destruct valid; cbn [negb] in Hr.
  2: { left. exact (only_answered_step _ _ _ _ _ _ _ _ O3 (refuse_fail_answers _ _ _ _ _ _ _ _) Hr). }
  right. exists n, s3, ((tr1 ++ tr5) ++ tr7), tr10. split; [|done]. apply orb_false_iff in Hnonce as [Hn1 Hn2].
  apply negb_false_iff, bool_decide_eq_true in Hn1, Hn2.
  unfold lacks_credentials in Hlack. apply orb_false_iff in Hlack as [ [ [Hi _]%orb_false_iff _]%orb_false_iff _].
  apply negb_false_iff in Hi. repeat split; try done; [by rewrite <- Tc| |by rewrite <- Tf|by exists buf'].
  unfold current_nonce. by rewrite Hn.
Qed.

(** The methods that need no credentials. *)
Lemma dispatch_indication msg src s r s' tr :
  negb ((msg_method msg =? STUN_METHOD_BINDING) || (msg_method msg =? STUN_METHOD_SEND)) = false ->
  dispatch_method sockaddr_bytes getaddrinfo uninit stack e msg src None s = Some (r, s', tr) ->
  only_answered src s s' tr.
Proof.
  intros Hm Hr. unfold dispatch_method in Hr. destruct (Z.eqb_spec (msg_method msg) STUN_METHOD_BINDING) as [|Hb].
  - exact (only_answered_step _ _ _ _ _ _ _ _ (only_answered_nil src s) (binding_answers _ _ _ _ _) Hr).
  - cbn [orb] in Hm. apply negb_false_iff, Z.eqb_eq in Hm. rewrite Hm in Hr. cbn in Hr.
    apply turn_send_relays in Hr as [-> Hf]. split; [by repeat split|]. by apply relays_allowed.
Qed.

(** Every way a datagram can go. *)
Lemma server_input_cases buf src s r s' tr : unique_ids s ->
  server_input sockaddr_bytes getaddrinfo uninit stack e buf src s = Some (r, s', tr) ->
  only_answered src s s' tr \/
  (exists ret buf' msg n s1 tr1 tr2, stun_read buf (zlen buf) = Some (ret, buf', msg) /\ 0 <= ret /\
     msg_class msg = STUN_CLASS_REQUEST /\ authenticated sockaddr_bytes e s buf' msg src n /\
     only_answered src s s1 tr1 /\
     dispatch_method sockaddr_bytes getaddrinfo uninit stack e (identified msg n) src (Some (node_id n)) s1
     = Some (r, s', tr2) /\ tr = tr1 ++ tr2).
Proof.
  intros Hu Hr. unfold server_input in Hr. apply bind_run in Hr as (stun & ? & ? & tr0 & H1 & Hr & ->).
  apply defined_run in H1 as (_ & -> & ->). destruct stun.
  2: { left. run_cases; try apply only_answered_nil. apply channel_data_relays in Hr as [-> Hf].
       split; [by repeat split|]. by apply relays_allowed. }
  apply bind_run in Hr as ([ [ret buf'] msg] & ? & ? & tr1 & H1 & Hr & ->).
  apply defined_run in H1 as (Hread & -> & ->). cbn [app]. destruct (ret <? 0) eqn:Hret.
  { run_inv. left. apply only_answered_nil. }
  apply Z.ltb_ge in Hret. unfold server_dispatch_stun in Hr.
  destruct (bool_decide (msg_class msg = STUN_CLASS_REQUEST)) eqn:Hreq; cbn [orb negb] in Hr.
  - apply bool_decide_eq_true in Hreq. run_cases;
      try (left; exact (only_answered_step _ _ _ _ _ _ _ _ (only_answered_nil src s) (refuse_answers _ _ _ _ _ _ _ _) Hr)).
    + destruct (authenticate_cases buf' msg src s r s' _ Hu Hr) as [O|(n & s1 & tra & trb & Ha & O & Hd & ->)]; [by left|].
      right. exists ret, buf', msg, n, s1, tra, trb. done.
    + left. rewrite Hreq in *. unfold dispatch_method in Hr. destruct (msg_method msg =? STUN_METHOD_BINDING); [|done].
      exact (only_answered_step _ _ _ _ _ _ _ _ (only_answered_nil src s) (binding_answers _ _ _ _ _) Hr).
  - left. destruct (bool_decide (msg_class msg = STUN_CLASS_INDICATION)) eqn:Hind; cbn [andb negb] in Hr;
      [|run_inv; apply only_answered_nil]. rewrite andb_false_r in Hr. run_cases; try apply only_answered_nil;
      try exact (only_answered_step _ _ _ _ _ _ _ _ (only_answered_nil src s) (refuse_answers _ _ _ _ _ _ _ _) Hr).
    eapply dispatch_indication; eassumption.
Qed.


Lemma server_input_allowed buf src s r s' tr : unique_ids s ->
  server_input sockaddr_bytes getaddrinfo uninit stack e buf src s = Some (r, s', tr) -> Forall (allowed s src) tr.
Proof.
  intros Hu Hr. destruct (server_input_cases buf src s r s' tr Hu Hr)
    as [ [_ Ha]|(ret & buf' & msg & n & s1 & tr1 & tr2 & _ & _ & _ & _ & [T A1] & Hd & ->)]; [done|].
  apply Forall_app. split; [done|]. eapply allowed_same; [exact T|]. by eapply dispatch_method_allowed.
Qed.

(** C5: whatever datagram it gets, the server sends only answers to its source
    from its own socket, and datagrams from the socket of the allocation of that
    source to peers that this allocation has a permission or a channel for: the
    server is not an open relay. *)
Theorem server_no_open_relay (buf : list Z) (src : addr_record_t) (s s' : juice_server_t) (r : Z)
    (tr : list event) :
  unique_ids s ->
  server_input sockaddr_bytes getaddrinfo uninit stack e buf src s = Some (r, s', tr) ->
  Forall (allowed s src) tr.
Proof. exact (server_input_allowed buf src s r s' tr). Qed.

(** C4: only an authenticated request changes the allocations or the credentials
    of the server: one that carries the realm of the server, the nonce it gave
    that source under the current key, the user name or hash of credentials that
    have not expired, and a MESSAGE-INTEGRITY that is valid for their password.
    Any other datagram, well formed or not, leaves both tables as they are. *)
Theorem server_authenticates (buf : list Z) (src : addr_record_t) (s s' : juice_server_t) (r : Z)
    (tr : list event) :
  unique_ids s ->
  server_input sockaddr_bytes getaddrinfo uninit stack e buf src s = Some (r, s', tr) ->
  same_tables s s' \/
  (exists ret buf' msg n, stun_read buf (zlen buf) = Some (ret, buf', msg) /\ 0 <= ret /\
     msg_class msg = STUN_CLASS_REQUEST /\ authenticated sockaddr_bytes e s buf' msg src n).
Proof.
  intros Hu Hr. destruct (server_input_cases buf src s r s' tr Hu Hr)
    as [ [T _]|(ret & buf' & msg & n & s1 & tr1 & tr2 & Hread & Hret & Hc & Ha & _)]; [by left|].
  right. by exists ret, buf', msg, n.
Qed.

Lemma forward_to_client_answers a buf r0 :
  answers_only (alloc_record a) (forward_to_client uninit stack e a buf r0).
Proof. pose proof (server_send_answers e). pose proof (server_stun_send_answers uninit stack e). unfold forward_to_client. answers. Qed.

Lemma forward_datagram_safe a buf r0 s r s' tr : forward_datagram uninit stack e a buf r0 s = Some (r, s', tr) ->
  same_tables s s' /\ Forall (fun ev => exists d, ev = Sent (server_sock s) (alloc_record a) d) tr /\
  (tr <> [] -> let '(_, sa, len_) := addr_unmap_inet6_v4mapped (addr r0) (len r0) in
     turn_has_permission (alloc_map a) {| addr := sa; len := len_; socktype := socktype r0 |} (now e) = Some true).
Proof.
  intros Hr. unfold forward_datagram in Hr. destruct (addr_unmap_inet6_v4mapped (addr r0) (len r0)) as [ [b sa] len_].
  apply bind_run in Hr as (ok & s1 & tr1 & tr2 & Hp & Hr & ->). apply defined_run in Hp as (Hp & -> & ->).
  destruct ok; cbn [negb] in Hr; [|run_inv; split; [by repeat split|split; [constructor|done] ] ].
  destruct (forward_to_client_answers a buf _ _ _ _ _ Hr) as [T Hf]. by split; [|split].
Qed.

(** What is read from the socket of an allocation is relayed only if it is a
    datagram whose source has a permission there, and then only to the client of
    the allocation, from the socket of the server and without changing its
    tables. *)
Theorem server_forward_safe (a : server_turn_alloc_t) (x : received_t) (s s' : juice_server_t) (r : Z)
    (tr : list event) :
  server_forward uninit stack e a x s = Some (r, s', tr) ->
  same_tables s s' /\ Forall (fun ev => exists d, ev = Sent (server_sock s) (alloc_record a) d) tr /\
  (tr <> [] -> exists buf r0, x = Datagram buf r0 /\
     let '(_, sa, len_) := addr_unmap_inet6_v4mapped (addr r0) (len r0) in
     turn_has_permission (alloc_map a) {| addr := sa; len := len_; socktype := socktype r0 |} (now e) = Some true).
Proof.
  intros Hr. destruct x as [buf r0| |]; [|cbn [server_forward] in Hr; run_inv; (split; [by repeat split|split; [constructor|done] ])..].
  destruct (forward_datagram_safe a buf r0 s r s' tr Hr) as (T & Hf & Hp). split; [done|]. split; [done|].
  intros Htr. exists buf, r0. split; [done|]. by apply Hp.
Qed.
End Safety.

(** ** Quotas *)

Definition owned (a : server_turn_alloc_t) (id : nat) : Z :=
  if bool_decide (alloc_state a = SERVER_TURN_ALLOC_FULL) && bool_decide (alloc_credentials a = Some id)
  then 1 else 0.

(** The number of allocations of credentials. *)
Definition usage (l : list server_turn_alloc_t) (id : nat) : Z := foldr (fun a n => owned a id + n) 0 l.

(** What is left of the quota of credentials and what they use. *)
Definition balance (s : juice_server_t) (id : nat) : option Z :=
  n ← find_node id (server_credentials s);
  Some (allocations_quota (node_credentials n) + usage (allocs s) id).

(** The credentials of the allocations in use exist, and no quota is negative. *)
Record books_ok (s : juice_server_t) : Prop := {
  bok_ids : unique_ids s;
  bok_pointers : forall i a, allocs s !! i = Some a -> alloc_state a = SERVER_TURN_ALLOC_FULL ->
    exists id, alloc_credentials a = Some id /\ is_Some (find_node id (server_credentials s));
  bok_quota : forall id n, find_node id (server_credentials s) = Some n ->
    0 <= allocations_quota (node_credentials n)
}.

(** The books of [s'] are those of [s]. *)
Definition same_books (s s' : juice_server_t) : Prop :=
  books_ok s' /\ (forall id, balance s' id = balance s id) /\ server_sock s' = server_sock s.

Lemma usage_insert (l : list server_turn_alloc_t) i a a' id : l !! i = Some a ->
  usage (<[i := a']> l) id = usage l id - owned a id + owned a' id.
Proof.
  revert i. induction l as [|x l IH]; intros [|i] Hi; try discriminate; cbn in Hi.
  - injection Hi as ->. cbn. unfold usage. lia.
  - change (usage (<[S i := a']> (x :: l)) id) with (owned x id + usage (<[i := a']> l) id).
    change (usage (x :: l) id) with (owned x id + usage l id). rewrite (IH i Hi). lia.
Qed.

Lemma usage_nonneg (l : list server_turn_alloc_t) id : 0 <= usage l id.
Proof. induction l as [|a l IH]; [done|]. cbn. unfold owned at 1. case_if; fold (usage l id); lia. Qed.

Lemma find_node_fmap (f : juice_credentials_list_t -> juice_credentials_list_t) id l :
  (forall n, node_id (f n) = node_id n) -> find_node id (f <$> l) = f <$> find_node id l.
Proof.
  intros Hf. induction l as [|n l IH]; [done|]. unfold find_node in *. cbn. rewrite Hf.
  by case_bool_decide.
Qed.

Lemma find_node_id id l n : find_node id l = Some n -> node_id n = id.
Proof. intros Hf. apply find_some in Hf as [_ Hf]. by apply bool_decide_eq_true in Hf. Qed.

(** The change of the quota of [id] by [d]. *)
Definition bump (id : nat) (d : Z) (n : juice_credentials_list_t) : juice_credentials_list_t :=
  if bool_decide (node_id n = id) then set_quota n (allocations_quota (node_credentials n) + d) else n.

Lemma bump_id id d n : node_id (bump id d n) = node_id n.
Proof. unfold bump. by case_bool_decide. Qed.

Lemma add_quota_run id d s y s' tr : add_quota id d s = Some (y, s', tr) ->
  is_Some (find_node id (server_credentials s)) /\
  s' = with_nodes s (bump id d <$> server_credentials s) /\ tr = [].
Proof. intros Hr. unfold add_quota in Hr. run_inv. split; [by eexists|done]. Qed.

Lemma bump_ids id d (l : list juice_credentials_list_t) : node_id <$> (bump id d <$> l) = node_id <$> l.
Proof. rewrite <- list_fmap_compose. apply list_fmap_ext. intros j n _. apply bump_id. Qed.

(** One slot and one quota changed so that the books agree. *)
Lemma same_books_change s i a a' id d :
  books_ok s -> allocs s !! i = Some a -> is_Some (find_node id (server_credentials s)) ->
  (forall k, d * (if bool_decide (k = id) then 1 else 0) = owned a k - owned a' k) ->
  (alloc_state a' = SERVER_TURN_ALLOC_FULL -> exists k, alloc_credentials a' = Some k /\
     is_Some (find_node k (server_credentials s))) ->
  (forall n, find_node id (server_credentials s) = Some n -> 0 <= allocations_quota (node_credentials n) + d) ->
  same_books s (with_nodes (with_allocs s (<[i := a']> (allocs s))) (bump id d <$> server_credentials s)).
Proof.
  intros [Hids Hp Hq] Ha Hid Hd Ha' Hpos.
  assert (Hf : forall k, find_node k (bump id d <$> server_credentials s) = bump id d <$> find_node k (server_credentials s)).
  { intros k. apply find_node_fmap. intros n. apply bump_id. }
  assert (Hsome : forall k, is_Some (find_node k (bump id d <$> server_credentials s)) <->
                            is_Some (find_node k (server_credentials s))).
  { intros k. rewrite Hf. by rewrite fmap_is_Some. }
  split; [split| split; [|done] ]; cbn [with_nodes with_allocs allocs server_credentials].
  - unfold unique_ids. cbn. by rewrite bump_ids.
  - intros j x Hx Hs. destruct (decide (i = j)) as [<-|Hij].
    + rewrite list_lookup_insert_eq in Hx by (by eapply lookup_lt_Some). injection Hx as <-.
      destruct (Ha' Hs) as (k & Hk & Hk'). exists k. by rewrite Hsome.
    + rewrite list_lookup_insert_ne in Hx by done. destruct (Hp j x Hx Hs) as (k & Hk & Hk').
      exists k. by rewrite Hsome.
  - intros k n. rewrite Hf. intros (n0 & Hn0 & ->)%fmap_Some. unfold bump. case_bool_decide as E; [|by apply (Hq k)].
    cbn. apply Hpos. rewrite <- E, (find_node_id k _ _ Hn0). done.
  - intros k. unfold balance. cbn [with_nodes with_allocs allocs server_credentials]. rewrite Hf.
    destruct (find_node k (server_credentials s)) as [n|] eqn:Hn; [|done]. cbn.
    rewrite (usage_insert (allocs s) i a a' k Ha). specialize (Hd k). apply find_node_id in Hn. f_equal.
    unfold bump. rewrite Hn. case_bool_decide; cbn; lia.
Qed.

Definition keeps_books {A} (c : M A) : Prop :=
  forall s x s' tr, books_ok s -> c s = Some (x, s', tr) -> same_books s s'.

Lemma same_books_refl s : books_ok s -> same_books s s.
Proof. by intros. Qed.

Lemma same_books_trans s1 s2 s3 : same_books s1 s2 -> same_books s2 s3 -> same_books s1 s3.
Proof. intros (_ & B1 & S1) (O & B2 & S2). repeat split; try apply O; [intros id; by rewrite B2|congruence]. Qed.

Lemma same_tables_books s s' : books_ok s -> same_tables s s' -> same_books s s'.
Proof.
  intros [Hi Hp Hq] (Ha & Hc & _ & Hs & _). split; [|split; [|done] ].
  - split; unfold unique_ids; rewrite ?Ha, ?Hc; done.
  - intros id. unfold balance. by rewrite Ha, Hc.
Qed.

Lemma answers_keeps_books {A} src (c : M A) : answers_only src c -> keeps_books c.
Proof. intros Hc s x s' tr Hok Hr. apply same_tables_books; [done|]. by apply (Hc _ _ _ _ Hr). Qed.

Lemma keeps_books_bind {A B} (c : M A) (k : A -> M B) :
  keeps_books c -> (forall x, keeps_books (k x)) -> keeps_books (x ← c; k x).
Proof.
  intros Hc Hk s y s' tr Hok Hr. run_inv. pose proof (Hc _ _ _ _ Hok H) as B1.
  eapply same_books_trans; [exact B1|]. eapply Hk; [apply B1|exact Hr].
Qed.

Lemma put_alloc_run i a s y s' tr : put_alloc i a s = Some (y, s', tr) ->
  s' = with_allocs s (<[i := a]> (allocs s)) /\ tr = [].
Proof. intros Hr. unfold put_alloc in Hr. by run_inv. Qed.

Lemma deref_run id s cr s' tr : deref id s = Some (cr, s', tr) ->
  exists n, find_node id (server_credentials s) = Some n /\ cr = node_credentials n /\ s' = s /\ tr = [].
Proof. intros Hr. unfold deref in Hr. run_inv. by eexists. Qed.

(** Writing a slot without changing who owns it. *)
Lemma put_alloc_books s i a a' : books_ok s -> allocs s !! i = Some a ->
  alloc_state a' = alloc_state a -> alloc_credentials a' = alloc_credentials a ->
  same_books s (with_allocs s (<[i := a']> (allocs s))).
Proof.
  intros [Hi Hp Hq] Ha Hs Hc. split; [split|split; [|done] ]; cbn [with_allocs allocs server_credentials]; try done.
  - intros j x Hx Hf. destruct (decide (i = j)) as [<-|Hij].
    + rewrite list_lookup_insert_eq in Hx by (by eapply lookup_lt_Some). injection Hx as <-.
      rewrite Hc. apply (Hp i a Ha). congruence.
    + rewrite list_lookup_insert_ne in Hx by done. by apply (Hp j x).
  - intros id. unfold balance. cbn [with_allocs allocs server_credentials]. rewrite (usage_insert _ i a a' id Ha).
    assert (owned a' id = owned a id) as -> by (unfold owned; by rewrite Hs, Hc).
    destruct (find_node id (server_credentials s)); [|done]. cbn. f_equal. lia.
Qed.

Lemma owned_full a id k : alloc_state a = SERVER_TURN_ALLOC_FULL -> alloc_credentials a = Some id ->
  owned a k = if bool_decide (k = id) then 1 else 0.
Proof.
  intros Hs Hc. unfold owned. rewrite Hs, Hc. rewrite bool_decide_eq_true_2 by done. cbn [andb].
  repeat case_bool_decide; congruence.
Qed.

Lemma owned_not_full a k : alloc_state a <> SERVER_TURN_ALLOC_FULL -> owned a k = 0.
Proof. intros Hs. unfold owned. by rewrite bool_decide_eq_false_2. Qed.

Lemma delete_allocation_books i : keeps_books (delete_allocation i).
Proof.
  intros s x s' tr Hok Hr. unfold delete_allocation in Hr. run_cases; [by apply same_books_refl|].
  match goal with H : negb _ = false |- _ => apply negb_false_iff, bool_decide_eq_true in H as Hs end.
  match goal with H : add_quota _ _ _ = Some _ |- _ => apply add_quota_run in H as (Hid & -> & ->) end.
  unfold put_alloc in Hr. run_inv.
  match goal with Ha : allocs s !! i = Some ?a, Hc : alloc_credentials ?a = Some ?id |- _ =>
    apply (same_books_change s i a (deleted a) id 1); try done;
    [intros k; rewrite (owned_full a id k Hs Hc), (owned_not_full (deleted a)) by done; lia
    |intros n Hn; pose proof (bok_quota _ Hok id n Hn); lia] end.
Qed.
#[local] Hint Resolve delete_allocation_books : core.

Ltac books :=
  repeat first
    [ solve [auto | apply (answers_keeps_books addr_record_zero); auto | eapply answers_keeps_books; auto]
    | progress (apply keeps_books_bind; [|intros ?])
    | match goal with
      | |- keeps_books (match ?x with _ => _ end) => destruct x
      | |- keeps_books (let '_ := ?x in _) => destruct x
      end ].

Section Books.
Context `{Crypto} (sockaddr_bytes : addr_record_t -> list Z)
        (getaddrinfo : list Z -> list Z -> Z -> option (list addrinfo)) (uninit stack : list Z) (e : env).

Lemma grant_allocation_books msg src id i :
  keeps_books (grant_allocation sockaddr_bytes getaddrinfo uninit stack e msg src id i).
Proof.
  intros s x s' tr Hok Hr. unfold grant_allocation in Hr.
  apply bind_run in Hr as (? & ? & ? & ? & Hg & Hr & ->). apply get_run in Hg as (-> & -> & ->).
  apply bind_run in Hr as (a & ? & ? & ? & Hg & Hr & ->). apply defined_run in Hg as (Ha & -> & ->).
  apply bind_run in Hr as (? & s1 & ? & ? & Hp & Hr & ->). apply put_alloc_run in Hp as [-> ->].
  match goal with _ : context [with_alloc_request a ?t ?l] |- _ =>
    pose proof (put_alloc_books s i a (with_alloc_request a t l) Hok Ha eq_refl eq_refl) as B1 end.
  eapply same_books_trans; [exact B1|].
  match type of Hr with ?c _ = _ => assert (Hc : keeps_books c) by books end.
  eapply Hc; [apply B1|exact Hr].
Qed.
#[local] Hint Resolve grant_allocation_books : core.

(** A free slot taken and the quota lowered. *)
Lemma take_slot_books s i a src id n : books_ok s -> allocs s !! i = Some a ->
  alloc_state a <> SERVER_TURN_ALLOC_FULL -> find_node id (server_credentials s) = Some n ->
  0 < allocations_quota (node_credentials n) ->
  same_books s (with_nodes (with_allocs s (<[i := allocation e a src id s]> (allocs s)))
                  (bump id (-1) <$> server_credentials s)).
Proof.
  intros Hok Ha Hs Hn Hq. apply (same_books_change s i a (allocation e a src id s) id (-1)); try done.
  - intros k. rewrite (owned_not_full a) by done. rewrite (owned_full _ id k) by done. lia.
  - intros _. by exists id.
  - intros n' Hn'. rewrite Hn in Hn'. injection Hn' as <-. lia.
Qed.

Lemma create_allocation_books msg src id i a s x s' tr : books_ok s -> allocs s !! i = Some a ->
  alloc_state a <> SERVER_TURN_ALLOC_FULL ->
  create_allocation sockaddr_bytes getaddrinfo uninit stack e msg src id i a s = Some (x, s', tr) ->
  same_books s s'.
Proof.
  intros Hok Ha Hs Hr. unfold create_allocation in Hr.
  apply bind_run in Hr as (cr & ? & ? & ? & Hd & Hr & ->). apply deref_run in Hd as (n & Hn & -> & -> & ->).
  destruct (allocations_quota _ <=? 0) eqn:Hq;
    [by apply (answers_keeps_books _ _ (refuse_answers _ _ _ _ _ _ _ _) _ _ _ _ Hok Hr)|].
  apply Z.leb_gt in Hq. apply bind_run in Hr as (? & s1 & ? & ? & Hp & Hr & ->).
  apply put_alloc_run in Hp as [-> ->].
  pose proof (put_alloc_books s i a (with_alloc_sock a (new_sock e)) Hok Ha eq_refl eq_refl) as B1.
  eapply same_books_trans; [exact B1|]. destruct (new_sock e =? INVALID_SOCKET);
    [exact (answers_keeps_books _ _ (refuse_fail_answers _ _ _ _ _ _ _ _) _ _ _ _ (proj1 B1) Hr)|].
  apply bind_run in Hr as (? & ? & ? & ? & Hg & Hr & ->). apply get_run in Hg as (-> & -> & ->).
  apply bind_run in Hr as (? & s2 & ? & ? & Hp & Hr & ->). apply put_alloc_run in Hp as [-> ->].
  apply bind_run in Hr as (? & s3 & ? & ? & Hp & Hr & ->). apply add_quota_run in Hp as (_ & -> & ->).
  set (s1 := with_allocs s (<[i := with_alloc_sock a (new_sock e)]> (allocs s))) in *.
  assert (Ha1 : allocs s1 !! i = Some (with_alloc_sock a (new_sock e))).
  { apply list_lookup_insert_eq. by eapply lookup_lt_Some. }
  pose proof (take_slot_books s1 i _ src id n (proj1 B1) Ha1 Hs Hn Hq) as B2.
  eapply same_books_trans; [exact B2|]. exact (grant_allocation_books msg src id i _ _ _ _ (proj1 B2) Hr).
Qed.

Lemma allocate_books msg src id :
  keeps_books (server_process_turn_allocate sockaddr_bytes getaddrinfo uninit stack e msg src id).
Proof.
  intros s x s' tr Hok Hr. unfold server_process_turn_allocate in Hr.
  destruct (negb (bool_decide (msg_class msg = STUN_CLASS_REQUEST))); [run_inv; by apply same_books_refl|].
  destruct (negb (msg_method msg =? STUN_METHOD_ALLOCATE) && _); [run_inv; by apply same_books_refl|].
  apply bind_run in Hr as (? & ? & ? & ? & Hg & Hr & ->). apply get_run in Hg as (-> & -> & ->).
  apply bind_run in Hr as (found & ? & ? & ? & Hg & Hr & ->). apply defined_run in Hg as (Hfind & -> & ->).
  destruct found as [i|]; [|by apply (answers_keeps_books _ _ (refuse_answers _ _ _ _ _ _ _ _) _ _ _ _ Hok Hr)].
  apply bind_run in Hr as (a & ? & ? & ? & Hg & Hr & ->). apply defined_run in Hg as (Ha & -> & ->).
  destruct (bool_decide (alloc_state a = SERVER_TURN_ALLOC_FULL)) eqn:Hfull.
  { match type of Hr with ?c _ = _ => assert (Hc : keeps_books c) by books end. exact (Hc _ _ _ _ Hok Hr). }
  apply bool_decide_eq_false in Hfull. destruct (msg_method msg =? STUN_METHOD_REFRESH);
    [by apply (answers_keeps_books _ _ (refuse_answers _ _ _ _ _ _ _ _) _ _ _ _ Hok Hr)|].
  by apply (create_allocation_books msg src id i a s x s' _ Hok Ha Hfull Hr).
Qed.

(** The requests on the map of an allocation. *)
Lemma with_allocation_books msg src id (k : nat -> server_turn_alloc_t -> M Z) :
  (forall i a s x s' tr, books_ok s -> allocs s !! i = Some a -> k i a s = Some (x, s', tr) -> same_books s s') ->
  keeps_books (with_allocation sockaddr_bytes uninit stack e msg src id k).
Proof.
  intros Hk s x s' tr Hok Hr. unfold with_allocation in Hr.
  apply bind_run in Hr as (? & ? & ? & ? & Hg & Hr & ->). apply get_run in Hg as (-> & -> & ->).
  apply bind_run in Hr as (found & ? & ? & ? & Hg & Hr & ->). apply defined_run in Hg as (_ & -> & ->).
  pose proof (fun code => answers_keeps_books _ _ (refuse_answers sockaddr_bytes uninit stack e msg src code (Some id))) as Hrf.
  destruct found as [i|]; [|by apply (Hrf _ _ _ _ _ Hok Hr)].
  apply bind_run in Hr as (a & ? & ? & ? & Hg & Hr & ->). apply defined_run in Hg as (Ha & -> & ->).
  destruct (negb _); [by apply (Hrf _ _ _ _ _ Hok Hr)|]. destruct (negb _); [by apply (Hrf _ _ _ _ _ Hok Hr)|].
  by apply (Hk i a s x s' _ Hok Ha Hr).
Qed.

(** A write of the map, then answers. *)
Lemma put_map_books {A} src i a m (k : M A) s x s' tr : books_ok s -> allocs s !! i = Some a ->
  answers_only src k -> (_ ← put_alloc i (with_alloc_map a m); k) s = Some (x, s', tr) -> same_books s s'.
Proof.
  intros Hok Ha Hk Hr. apply bind_run in Hr as (? & s1 & ? & ? & Hp & Hr & ->). apply put_alloc_run in Hp as [-> ->].
  pose proof (put_alloc_books s i a (with_alloc_map a m) Hok Ha eq_refl eq_refl) as B1.
  eapply same_books_trans; [exact B1|]. exact (answers_keeps_books src k Hk _ _ _ _ (proj1 B1) Hr).
Qed.

Lemma create_permission_books msg src id :
  keeps_books (server_process_turn_create_permission sockaddr_bytes uninit stack e msg src id).
Proof.
  unfold server_process_turn_create_permission.
  do 2 (match goal with |- keeps_books (if ?b then _ else _) => destruct b end;
        [apply (answers_keeps_books src); auto|]). apply with_allocation_books.
  intros i a s x s' tr Hok Ha Hr. apply bind_run in Hr as ([ok m] & ? & ? & ? & Hg & Hr & ->).
  apply defined_run in Hg as (_ & -> & ->). eapply put_map_books; [done|done| |exact Hr]. answers.
Qed.

Lemma channel_bind_books msg src id :
  keeps_books (server_process_turn_channel_bind sockaddr_bytes uninit stack e msg src id).
Proof.
  unfold server_process_turn_channel_bind.
  do 3 (match goal with |- keeps_books (if ?b then _ else _) => destruct b end;
        [apply (answers_keeps_books src); auto|]). apply with_allocation_books.
  intros i a s x s' tr Hok Ha Hr. destruct (negb (is_valid_channel (channel_number msg)));
    [exact (answers_keeps_books _ _ (refuse_answers _ _ _ _ _ _ _ _) _ _ _ _ Hok Hr)|].
  apply bind_run in Hr as (peer & ? & ? & ? & Hg & Hr & ->). apply defined_run in Hg as (_ & -> & ->).
  apply bind_run in Hr as ([ok m] & ? & ? & ? & Hg & Hr & ->). apply defined_run in Hg as (_ & -> & ->).
  apply bind_run in Hr as (? & s1 & ? & ? & Hp & Hr & ->). apply put_alloc_run in Hp as [-> ->].
  pose proof (put_alloc_books s i a (with_alloc_map a m) Hok Ha eq_refl eq_refl) as B1.
  eapply same_books_trans; [exact B1|]. destruct (negb ok);
    [exact (answers_keeps_books _ _ (refuse_fail_answers _ _ _ _ _ _ _ _) _ _ _ _ (proj1 B1) Hr)|].
  apply bind_run in Hr as ([ok' m'] & ? & ? & ? & Hg & Hr & ->). apply defined_run in Hg as (_ & -> & ->).
  eapply (put_map_books src i (with_alloc_map a m) m'); [apply B1| | |exact Hr]; [|answers].
  cbn [with_allocs allocs]. apply list_lookup_insert_eq. by eapply lookup_lt_Some.
Qed.

Lemma dispatch_method_books msg src cr :
  keeps_books (dispatch_method sockaddr_bytes getaddrinfo uninit stack e msg src cr).
Proof.
  intros s x s' tr Hok Hr. unfold dispatch_method in Hr.
  repeat match goal with Hx : (if ?b then _ else _) _ = Some _ |- _ => destruct b end; run_inv.
  - exact (answers_keeps_books _ _ (binding_answers _ _ _ _ _) _ _ _ _ Hok Hr).
  - by apply (allocate_books _ _ _ _ _ _ _ Hok Hr).
  - by apply (create_permission_books _ _ _ _ _ _ _ Hok Hr).
  - by apply (channel_bind_books _ _ _ _ _ _ _ Hok Hr).
  - apply turn_send_relays in Hr as [-> _]. by apply same_books_refl.
  - by apply same_books_refl.
Qed.

Lemma server_input_books buf src : keeps_books (server_input sockaddr_bytes getaddrinfo uninit stack e buf src).
Proof.
  intros s r s' tr Hok Hr.
  destruct (server_input_cases _ _ _ _ _ _ _ _ _ _ _ (bok_ids _ Hok) Hr)
    as [ [T _]|(ret & buf' & msg & n & s1 & tr1 & tr2 & _ & _ & _ & _ & [T _] & Hd & _)];
    [by apply same_tables_books|].
  pose proof (same_tables_books _ _ Hok T) as B1. eapply same_books_trans; [exact B1|].
  exact (dispatch_method_books _ _ _ _ _ _ _ (proj1 B1) Hd).
Qed.

(** C17: no datagram takes the server out of its quotas.  If the credentials of
    every allocation exist and no quota is negative, this holds after any
    datagram, and for each user what is left of its quota and the number of its
    allocations add up to the same sum: no user ever has more allocations than it
    was given. *)
Theorem server_quota_respected (buf : list Z) (src : addr_record_t) (s s' : juice_server_t) (r : Z)
    (tr : list event) :
  books_ok s ->
  server_input sockaddr_bytes getaddrinfo uninit stack e buf src s = Some (r, s', tr) ->
  books_ok s' /\ (forall id, balance s' id = balance s id) /\
  (forall id n, find_node id (server_credentials s') = Some n ->
     usage (allocs s') id <= default 0 (balance s id)).
Proof.
  intros Hok Hr. destruct (server_input_books _ _ _ _ _ _ Hok Hr) as (Hok' & Hbal & _).
  split; [done|]. split; [done|]. intros id n Hn.
  rewrite <- Hbal. unfold balance. rewrite Hn. cbn. pose proof (bok_quota _ Hok' id n Hn). lia.
Qed.
End Books.

(** ** Bookkeeping *)

Section Bookkeeping.
Context (e : env).

Definition expired (a : server_turn_alloc_t) : bool :=
  bool_decide (alloc_state a = SERVER_TURN_ALLOC_FULL) && (alloc_timestamp a <=? now e).

(** What becomes of a slot. *)
Definition settle (a : server_turn_alloc_t) : server_turn_alloc_t := if expired a then deleted a else a.

Lemma delete_allocation_full s i a : books_ok s -> allocs s !! i = Some a ->
  alloc_state a = SERVER_TURN_ALLOC_FULL ->
  exists s', delete_allocation i s = Some (tt, s', [Closed (alloc_sock a)]) /\ same_books s s' /\
             allocs s' = <[i := deleted a]> (allocs s) /\ node_timestamp <$> server_credentials s' =
             node_timestamp <$> server_credentials s.
Proof.
  intros Hok Ha Hs. destruct (bok_pointers _ Hok i a Ha Hs) as (id & Hid & n & Hn).
  assert (Hrun : delete_allocation i s = Some (tt, with_allocs (with_nodes s (bump id 1 <$> server_credentials s))
    (<[i := deleted a]> (allocs s)), [Closed (alloc_sock a)])).
  { unfold delete_allocation, add_quota, put_alloc, defined, get, put, emit, mbind, eff_bind, mret, eff_ret.
    rewrite Ha, Hs. rewrite bool_decide_eq_true_2 by done. cbn [negb]. rewrite Hid, Hn. done. }
  eexists. split; [exact Hrun|]. split; [exact (delete_allocation_books i s _ _ _ Hok Hrun)|]. split; [done|].
  cbn. rewrite <- list_fmap_compose. apply list_fmap_ext. intros j x _. cbn. unfold bump. by case_bool_decide.
Qed.

(** The earliest expiry of the allocations that stay, or [next]. *)
Definition earliest (next : Z) (l : list server_turn_alloc_t) : Z :=
  fold_left (fun m a => if bool_decide (alloc_state a = SERVER_TURN_ALLOC_FULL) && negb (expired a)
                        then Z.min (alloc_timestamp a) m else m) l next.

Lemma expire_allocations_run (n : nat) : forall s i next, books_ok s -> (i + n)%nat = length (allocs s) ->
  exists s' tr, expire_allocations e n i next s = Some (earliest next (drop i (allocs s)), s', tr) /\
  same_books s s' /\ allocs s' = take i (allocs s) ++ (settle <$> drop i (allocs s)) /\
  node_timestamp <$> server_credentials s' = node_timestamp <$> server_credentials s.
Proof.
  induction n as [|n IH]; intros s i next Hok Hlen.
  { exists s, []. rewrite drop_ge by lia. cbn. split; [done|]. split; [by apply same_books_refl|].
    rewrite app_nil_r, take_ge by lia. done. }
  destruct (lookup_lt_is_Some_2 (allocs s) i) as [a Ha]; [lia|].
  rewrite (drop_S _ a i Ha). cbn [expire_allocations fmap list_fmap].
  assert (Hskip : forall next', settle a = a -> exists s' tr,
    expire_allocations e n (S i) next' s = Some (earliest next' (drop (S i) (allocs s)), s', tr) /\
    same_books s s' /\ allocs s' = take i (allocs s) ++ settle a :: (settle <$> drop (S i) (allocs s)) /\
    node_timestamp <$> server_credentials s' = node_timestamp <$> server_credentials s).
  { intros next' Hset. destruct (IH s (S i) next' Hok ltac:(lia)) as (s' & tr & -> & HB & Hal & Hts).
    exists s', tr. split; [done|]. split; [done|]. split; [|done].
    rewrite Hal, (take_S_r _ _ a Ha), Hset, <- app_assoc. done. }
  rewrite bind_get, (bind_defined _ _ a s Ha). unfold earliest at 1. cbn [fold_left].
  destruct (bool_decide (alloc_state a = SERVER_TURN_ALLOC_FULL)) eqn:Hs; cbn [negb andb].
  2: { apply Hskip. unfold settle, expired. by rewrite Hs. }
  destruct (alloc_timestamp a <=? now e) eqn:Ht.
  - assert (Hex : expired a = true) by (unfold expired; by rewrite Hs, Ht). rewrite Hex. cbn [negb].
    apply bool_decide_eq_true in Hs.
    destruct (delete_allocation_full s i a Hok Ha Hs) as (s1 & Hdel & B1 & Hal1 & Hts1).
    rewrite (bind_some _ _ _ _ _ _ Hdel). assert (Hl1 : length (allocs s1) = length (allocs s)).
    { by rewrite Hal1, length_insert. }
    destruct (IH s1 (S i) next (proj1 B1) ltac:(lia)) as (s' & tr & -> & B2 & Hal & Hts).
    assert (Hdrop : drop (S i) (allocs s1) = drop (S i) (allocs s)) by (rewrite Hal1; apply drop_insert_lt; lia).
    rewrite Hdrop in *. eexists s', _. split; [done|]. split; [by eapply same_books_trans|].
    split; [|congruence]. rewrite Hal, Hal1. unfold settle at 2. rewrite Hex.
    rewrite (take_S_r _ i (deleted a)) by (apply list_lookup_insert_eq; lia).
    rewrite take_insert_ge by lia. by rewrite <- app_assoc.
  - assert (Hex : expired a = false) by (unfold expired; by rewrite Hs, Ht). rewrite Hex. cbn [negb].
    replace (if alloc_timestamp a <? next then alloc_timestamp a else next)
      with (Z.min (alloc_timestamp a) next) by (destruct (Z.ltb_spec (alloc_timestamp a) next); lia).
    apply Hskip. unfold settle. by rewrite Hex.
Qed.

Lemma earliest_spec (l : list server_turn_alloc_t) : forall next,
  earliest next l <= next /\
  (forall a, In a l -> alloc_state a = SERVER_TURN_ALLOC_FULL -> expired a = false ->
     earliest next l <= alloc_timestamp a) /\
  (earliest next l = next \/ exists a, In a l /\ alloc_state a = SERVER_TURN_ALLOC_FULL /\
     expired a = false /\ alloc_timestamp a = earliest next l).
Proof.
  induction l as [|a l IH]; intros next; [cbn; split; [lia|split; [by intros ? []|by left] ]|].
  change (earliest next (a :: l)) with (earliest (if bool_decide (alloc_state a = SERVER_TURN_ALLOC_FULL) &&
    negb (expired a) then Z.min (alloc_timestamp a) next else next) l).
  set (next' := if bool_decide _ && _ then _ else next).
  destruct (IH next') as (H1 & H2 & H3).
  assert (Hcase : (next' = next /\ (alloc_state a <> SERVER_TURN_ALLOC_FULL \/ expired a = true)) \/
    (next' = Z.min (alloc_timestamp a) next /\ alloc_state a = SERVER_TURN_ALLOC_FULL /\ expired a = false)).
  { unfold next'. case_bool_decide; [|left; tauto]. destruct (expired a); [left; tauto|right; tauto]. }
  repeat split.
  - destruct Hcase as [ [-> _]|[-> _] ]; lia.
  - intros x [<-|Hx] Hs Hex; [|by apply H2]. destruct Hcase as [ [_ [?|?] ]|[-> _] ]; [done|congruence|lia].
  - destruct H3 as [->|(x & Hx & Hr)]; [|right; exists x; split; [by right|done] ].
    destruct Hcase as [ [-> _]|(-> & Hs & Hex)]; [by left|].
    destruct (Z.min_spec (alloc_timestamp a) next) as [ [? ->]|[? ->] ]; [|by left].
    right. exists a. split; [by left|done].
Qed.

Lemma find_node_filter (f : juice_credentials_list_t -> bool) id l n : NoDup (node_id <$> l) ->
  find_node id (List.filter f l) = Some n -> find_node id l = Some n.
Proof.
  intros Hnd Hf. pose proof (find_node_id _ _ _ Hf) as <-. apply find_some in Hf as [Hin _].
  apply filter_In in Hin as [Hin _]. apply find_node_unique; [done|]. by apply list_elem_of_In.
Qed.

Lemma filter_timestamps (l : list juice_credentials_list_t) :
  node_timestamp <$> List.filter (fun n => negb (negb (node_timestamp n =? 0) && (node_timestamp n <=? now e))) l =
  List.filter (fun t => (t =? 0) || (now e <? t)) (node_timestamp <$> l).
Proof.
  induction l as [|n l IH]; [done|]. cbn.
  assert (negb (negb (node_timestamp n =? 0) && (node_timestamp n <=? now e))
          = (node_timestamp n =? 0) || (now e <? node_timestamp n)) as ->.
  { rewrite negb_andb, negb_involutive, Z.ltb_antisym. done. }
  destruct ((node_timestamp n =? 0) || (now e <? node_timestamp n)); cbn; by f_equal.
Qed.

(** Bookkeeping, when the credentials of every allocation exist, deletes
    exactly the allocations that have expired, leaves the other slots alone, keeps
    the quotas right, removes exactly the credentials that have expired, and
    returns the time of the next expiry of an allocation, at most a minute away. *)
Theorem server_bookkeeping_correct (s : juice_server_t) :
  books_ok s ->
  exists next s' tr, server_bookkeeping e s = Some (next, s', tr) /\
  allocs s' = settle <$> allocs s /\
  (forall id, is_Some (find_node id (server_credentials s')) -> balance s' id = balance s id) /\
  node_timestamp <$> server_credentials s' =
    List.filter (fun t => (t =? 0) || (now e <? t)) (node_timestamp <$> server_credentials s) /\
  next <= now e + 60000 /\
  (forall i a, allocs s' !! i = Some a -> alloc_state a = SERVER_TURN_ALLOC_FULL ->
     now e < alloc_timestamp a /\ next <= alloc_timestamp a) /\
  (next = now e + 60000 \/ exists a, a ∈ allocs s' /\ alloc_state a = SERVER_TURN_ALLOC_FULL /\
     alloc_timestamp a = next).
Proof.
  intros Hok. unfold server_bookkeeping. rewrite bind_get.
  destruct (expire_allocations_run (length (allocs s)) s 0 (now e + 60000) Hok eq_refl)
    as (s1 & tr & Hrun & (Hok1 & Hbal & _) & Hal & Hts).
  rewrite drop_0, take_0 in *. cbn [app] in Hal. rewrite (bind_some _ _ _ _ _ _ Hrun). rewrite bind_get, bind_put.
  destruct (earliest_spec (allocs s) (now e + 60000)) as (E1 & E2 & E3).
  eexists _, _, _. split; [reflexivity|]. cbn [with_nodes allocs server_credentials].
  assert (Hkeep : forall a, settle a = a \/ alloc_state (settle a) <> SERVER_TURN_ALLOC_FULL).
  { intros a. unfold settle. destruct (expired a); [by right|by left]. }
  split; [exact Hal|]. split; [|split; [|split; [exact E1|split] ] ].
  - intros id [n Hn]. transitivity (balance s1 id); [|apply Hbal]. unfold balance.
    cbn [with_nodes allocs server_credentials]. rewrite Hn.
    by rewrite (find_node_filter _ _ _ _ (bok_ids _ Hok1) Hn).
  - rewrite <- Hts. apply filter_timestamps.
  - intros i a Ha Hs. rewrite Hal, list_lookup_fmap in Ha. apply fmap_Some in Ha as (a0 & Ha0 & ->).
    destruct (Hkeep a0) as [Hk|]; [|done]. rewrite Hk in *.
    assert (Hex : expired a0 = false).
    { destruct (expired a0) eqn:E; [|done]. unfold settle in Hk. rewrite E in Hk. by rewrite <- Hk in Hs. }
    split; [|apply E2; [|done..]; apply list_elem_of_In; by eapply list_elem_of_lookup_2].
    unfold expired in Hex. rewrite Hs, bool_decide_eq_true_2 in Hex by done. cbn in Hex. by apply Z.leb_gt in Hex.
  - destruct E3 as [->|(a & Ha & Hs & Hex & Ht)]; [by left|]. right. exists a. rewrite Hal. split; [|done].
    apply list_elem_of_fmap. exists a. split; [unfold settle; by rewrite Hex|by apply list_elem_of_In].
Qed.
End Bookkeeping.

(** ** Creation *)

Section Creation.
Context `{Crypto} (e : env).

(** The identities of the nodes are fresh and distinct, and no quota is negative. *)
Definition nodes_ok (s : juice_server_t) : Prop :=
  NoDup (node_id <$> server_credentials s) /\
  Forall (fun n => (node_id n < next_id s)%nat /\ 0 <= allocations_quota (node_credentials n)) (server_credentials s).

Lemma server_do_add_credentials_run u p q t s : exists n, node_id n = next_id s /\
  allocations_quota (node_credentials n) = q /\
  server_do_add_credentials e u p q t s =
    Some (next_id s, with_next_id (with_nodes s (n :: server_credentials s)) (S (next_id s)), []).
Proof. eexists {| node_id := _ |}. split; [reflexivity|]. split; [|reflexivity]. done. Qed.

Lemma nodes_ok_cons s n : nodes_ok s -> node_id n = next_id s -> 0 <= allocations_quota (node_credentials n) ->
  nodes_ok (with_next_id (with_nodes s (n :: server_credentials s)) (S (next_id s))).
Proof.
  intros [Hd Hf] Hid Hq. split; cbn [with_next_id with_nodes server_credentials next_id].
  - rewrite fmap_cons. apply list.NoDup_cons. split; [|done]. rewrite Hid. intros Hin.
    apply list_elem_of_fmap in Hin as (m & Hm & Hin). rewrite Forall_forall in Hf.
    apply list_elem_of_In in Hin. apply Hf in Hin as [Hlt _]. lia.
  - constructor; [lia|]. eapply Forall_impl; [|exact Hf]. cbn. intros a [? ?]. lia.
Qed.

Lemma add_all_run creds : forall s, nodes_ok s -> Forall (fun c => 0 <= c.2) creds ->
  exists s', add_all e creds s = Some (tt, s', []) /\ nodes_ok s' /\ allocs s' = allocs s /\
    max_allocations (config s) <= max_allocations (config s').
Proof.
  induction creds as [|[ [u p] q] creds IH]; intros s Hs Hq; [exists s; repeat split; [apply Hs..|lia] |].
  inversion Hq as [|? ? Hq1 Hq2]; subst. cbn [snd] in Hq1. cbn [add_all]. rewrite bind_get.
  set (s1 := if max_allocations (config s) <? q then with_max_allocations s q else s).
  assert (Hs1 : nodes_ok s1) by (unfold s1; destruct (_ <? _); exact Hs).
  assert (Ha1 : allocs s1 = allocs s) by (unfold s1; destruct (_ <? _); reflexivity).
  assert (Hm1 : max_allocations (config s) <= max_allocations (config s1))
    by (unfold s1; destruct (_ <? _) eqn:E; cbn; lia).
  rewrite (bind_quiet _ _ s tt s1) by (unfold s1; destruct (_ <? _); reflexivity).
  destruct (server_do_add_credentials_run u p q 0 s1) as (n & Hn & Hnq & Hr).
  rewrite (bind_quiet _ _ _ _ _ Hr).
  destruct (IH _ (nodes_ok_cons s1 n Hs1 Hn ltac:(lia)) Hq2) as (s' & -> & Hok & Ha & Hm).
  exists s'. split; [done|]. split; [done|]. split; [by rewrite Ha|]. cbn in Hm. lia.
Qed.

Lemma default_quota_id max n : node_id (default_quota max n) = node_id n.
Proof. unfold default_quota. by destruct (_ =? 0). Qed.

Lemma free_slots_books s : nodes_ok s ->
  (forall i a, allocs s !! i = Some a -> alloc_state a <> SERVER_TURN_ALLOC_FULL) -> books_ok s.
Proof.
  intros [Hd Hf] Ha. split; [exact Hd| |].
  - intros i a Hi Hs. by apply Ha in Hi.
  - intros id n Hn. rewrite Forall_forall in Hf. apply find_some in Hn as [Hin _]. exact (proj2 (Hf _ Hin)).
Qed.

(** A server that is created without a negative quota has its books in order and a
    slot for every allocation that the configuration asks for. *)
Lemma server_create_books max peers external realm creds : new_sock e <> INVALID_SOCKET ->
  Forall (fun c => 0 <= c.2) creds ->
  exists s, server_create e max peers external realm creds = Some (Some s) /\ books_ok s /\
    allocs s = match creds with [] => [] | _ =>
      replicate (Z.to_nat (if 0 <? max then max else SERVER_DEFAULT_MAX_ALLOCATIONS)) alloc_zero end.
Proof.
  intros Hsock Hq. unfold server_create. rewrite (proj2 (Z.eqb_neq _ _) Hsock).
  match goal with |- context [add_all _ _ ?s0] => set (s0' := s0) end.
  destruct (add_all_run creds s0') as (s & -> & [Hd Hf] & Ha & Hm); [split; constructor|done|].
  eexists. split; [reflexivity|]. split; [|cbn; exact Ha]. apply free_slots_books.
  - split; cbn [with_nodes server_credentials next_id].
    + rewrite <- list_fmap_compose. erewrite list_fmap_ext; [exact Hd|]. intros ? ? _. apply default_quota_id.
    + apply Forall_fmap. eapply Forall_impl; [|exact Hf]. intros n [? ?]. unfold compose. rewrite default_quota_id.
      split; [done|]. unfold default_quota. destruct (allocations_quota (node_credentials n) =? 0); [|done]. cbn [set_quota node_credentials allocations_quota].
      assert (0 <= max_allocations (config s0')) by (unfold s0', SERVER_DEFAULT_MAX_ALLOCATIONS; cbn; destruct (0 <? max) eqn:?; lia).
      lia.
  - cbn [with_nodes allocs]. rewrite Ha. unfold s0'. cbn [allocs]. intros i a Hi.
    destruct creds; [done|]. apply lookup_replicate in Hi as [-> _]. discriminate.
Qed.
End Creation.

(** ** A server that runs *)

(** A host with one address, where every send succeeds. *)
Definition example_env (t : Z) : env :=
  {| now := t; random_key := replicate 32 7; random_tid := replicate 12 1; new_sock := 9; sock_port := 5000;
     local_addrs := (1, [example_peer 200 5000]); sendto := fun _ _ => 0 |}.

Definition example_bytes (r : addr_record_t) : list Z :=
  match addr r with Sin p a => le16 2 ++ le16 p ++ a ++ replicate 8 0 | _ => [] end.
Definition no_names : list Z -> list Z -> Z -> option (list addrinfo) := fun _ _ _ => None.

Abbreviation example_input t :=
  (@server_input sum_crypto example_bytes no_names [0; 0] (replicate 4096 0) (example_env t)) (only parsing).
Abbreviation example_forward t :=
  (@server_forward sum_crypto [0; 0] (replicate 4096 0) (example_env t)) (only parsing).

Definition no_server : juice_server_t :=
  {| config := {| max_allocations := 0; max_peers := 0; external_address := None; server_realm := [] |};
     server_credentials := []; nonce_key := []; nonce_key_timestamp := 0; server_sock := 0; allocs := [];
     next_id := 0 |}.

(** The server created with credentials, and its table of [max] slots. *)
Definition example_server (max : Z) (creds : list (option (list Z) * option (list Z) * Z)) : juice_server_t :=
  match @server_create sum_crypto (example_env 0) max 4 None None creds with
  | Some (Some s) => s
  | _ => no_server
  end.
Definition example_user : list (option (list Z) * option (list Z) * Z) :=
  [(Some (str "user"), Some (str "secret"), 2)].

(** The nonce the server gives to [src]. *)
Definition example_nonce (src : addr_record_t) (s : juice_server_t) (t : Z) : list Z :=
  match @server_get_nonce sum_crypto example_bytes (example_env t) src s with
  | Some (n, _, _) => n
  | None => []
  end.

(** An authenticated request of the user. *)
Definition example_request_for (s : juice_server_t) (t : Z) (src : addr_record_t) (method : Z) (tid : list Z)
    (f : stun_message_t -> stun_message_t) : list Z :=
  let c := set_nonce (set_realm (set_username stun_credentials_zero (str "user")) (str "libjuice"))
             (example_nonce src s t) in
  @encode_message sum_crypto [0; 0] (f (set_credentials (answer STUN_CLASS_REQUEST method tid) c)) (Some (str "secret")).

(** A request and the state after it. *)
Definition run_request (t : Z) (src : addr_record_t) (method : Z) (tid : list Z)
    (f : stun_message_t -> stun_message_t) (s : juice_server_t) : juice_server_t :=
  match example_input t (example_request_for s t src method tid f) src s with
  | Some (_, s', _) => s'
  | None => no_server
  end.

Definition client : addr_record_t := example_peer 1 80.
Definition rival : addr_record_t := example_peer 5 80.
Definition peer : addr_record_t := example_peer 77 7000.

(** The client has an allocation and a permission for [peer]. *)
Definition example_allocated : juice_server_t :=
  run_request 1000 client STUN_METHOD_ALLOCATE (example_tid 1) (fun m => m) (example_server 4 example_user).
Definition example_permitted : juice_server_t :=
  run_request 2000 client STUN_METHOD_CREATE_PERMISSION (example_tid 2) (fun m => set_peers m [peer])
    example_allocated.

Definition example_send : list Z :=
  @encode_message sum_crypto [0; 0]
    (set_data (set_peers (answer STUN_CLASS_INDICATION STUN_METHOD_SEND (example_tid 3)) [peer]) (Some (str "hi")))
    None.

Lemma example_server_books max : 0 < max -> books_ok (example_server max example_user).
Proof.
  intros Hmax. unfold example_server.
  destruct (@server_create_books sum_crypto (example_env 0) max 4 None None example_user) as (s & -> & Hok & _);
    [done|by repeat constructor|exact Hok].
Qed.

Lemma run_request_books t src method tid f s : books_ok s -> books_ok (run_request t src method tid f s).
Proof.
  intros Hok. unfold run_request. destruct (example_input _ _ _ _) as [ [ [r s'] tr]|] eqn:Hr.
  - exact (proj1 (@server_input_books sum_crypto _ _ _ _ _ _ _ _ _ _ _ Hok Hr)).
  - split; [constructor|by intros [|i] a Ha|done].
Qed.

Lemma example_permitted_books : books_ok example_permitted.
Proof. do 2 apply run_request_books. by apply example_server_books. Qed.

Definition example_allocate : list Z :=
  example_request_for (example_server 4 example_user) 1000 client STUN_METHOD_ALLOCATE (example_tid 1) (fun m => m).

Lemma example_allocate_run : exists r tr,
  example_input 1000 example_allocate client (example_server 4 example_user) = Some (r, example_allocated, tr).
Proof. eexists _, _. vm_compute. reflexivity. Qed.

Lemma example_send_run : exists s',
  example_input 3000 example_send client example_permitted = Some (0, s', [Sent 9 peer (str "hi")]).
Proof. eexists. vm_compute. reflexivity. Qed.

(** The allocation of the client. *)
Definition example_alloc : server_turn_alloc_t := nth 2 (allocs example_permitted) alloc_zero.

Lemma example_forward_run : exists s' d, example_forward 3000 example_alloc (Datagram (str "yo") peer) example_permitted
  = Some (0, s', [Sent (server_sock example_permitted) client d]).
Proof. eexists _, _. vm_compute. reflexivity. Qed.

Lemma example_usage : usage (allocs example_allocated) 0 = 1.
Proof. vm_compute. reflexivity. Qed.
Lemma example_no_usage : usage (allocs (example_server 4 example_user)) 0 = 0.
Proof. vm_compute. reflexivity. Qed.
Lemma example_balance : balance (example_server 4 example_user) 0 = Some 2.
Proof. vm_compute. reflexivity. Qed.

(** The Send indication of the client is relayed to its peer. *)
Lemma server_no_open_relay_witness :
  let ev := Sent 9 peer (str "hi") in
  (exists s', example_input 3000 example_send client example_permitted = Some (0, s', [ev])) /\
  allowed (example_env 3000) example_permitted client ev.
Proof.
  intros ev. split; [exact example_send_run|]. destruct example_send_run as [s' Hr].
  exact (Forall_inv (@server_no_open_relay sum_crypto example_bytes no_names [0; 0] (replicate 4096 0)
    (example_env 3000) example_send client example_permitted s' 0 _ (bok_ids _ example_permitted_books) Hr)).
Defined.

(** The Allocate request changes the tables, so it is authenticated. *)
Lemma server_authenticates_witness :
  exists ret buf' msg n, stun_read example_allocate (zlen example_allocate) = Some (ret, buf', msg) /\ 0 <= ret /\
    msg_class msg = STUN_CLASS_REQUEST /\
    @authenticated sum_crypto example_bytes (example_env 1000) (example_server 4 example_user) buf' msg client n.
Proof.
  destruct example_allocate_run as (r & tr & Hr).
  destruct (@server_authenticates sum_crypto example_bytes no_names [0; 0] (replicate 4096 0) (example_env 1000)
    example_allocate client (example_server 4 example_user) example_allocated r tr
    (bok_ids _ (example_server_books 4 eq_refl)) Hr) as [(Ha & _)|Hauth]; [|exact Hauth].
  pose proof example_usage as Hu. rewrite Ha, example_no_usage in Hu. discriminate.
Defined.

(** What reaches the socket of the allocation from the peer goes to the client. *)
Lemma server_forward_safe_witness :
  (exists s' d, example_forward 3000 example_alloc (Datagram (str "yo") peer) example_permitted
                  = Some (0, s', [Sent (server_sock example_permitted) client d])) /\
  turn_has_permission (alloc_map example_alloc) peer 3000 = Some true.
Proof.
  split; [exact example_forward_run|]. destruct example_forward_run as (s' & d & Hr).
  destruct (proj2 (proj2 (@server_forward_safe sum_crypto [0; 0] (replicate 4096 0) (example_env 3000) example_alloc
    (Datagram (str "yo") peer) example_permitted s' 0 _ Hr)) ltac:(discriminate)) as (buf & r0 & [= <- <-] & Hp).
  exact Hp.
Defined.

(** The user may have two allocations: after one, one is left. *)
Lemma server_quota_respected_witness :
  books_ok example_allocated /\ usage (allocs example_allocated) 0 = 1 /\
  balance example_allocated 0 = Some 2.
Proof.
  destruct example_allocate_run as (r & tr & Hr).
  destruct (@server_quota_respected sum_crypto example_bytes no_names [0; 0] (replicate 4096 0) (example_env 1000)
    example_allocate client _ _ r tr (example_server_books 4 eq_refl) Hr) as (Hok & Hb & _).
  split; [exact Hok|]. split; [exact example_usage|]. rewrite Hb. exact example_balance.
Defined.

Lemma example_settled : forallb (fun a => negb (bool_decide (alloc_state a = SERVER_TURN_ALLOC_FULL)))
  (settle (example_env 700000) <$> allocs example_permitted) = true.
Proof. vm_compute. reflexivity. Qed.

(** Long after its lifetime the allocation is deleted. *)
Lemma server_bookkeeping_correct_witness :
  exists next s' tr, server_bookkeeping (example_env 700000) example_permitted = Some (next, s', tr) /\
    allocs s' = settle (example_env 700000) <$> allocs example_permitted /\ next = 760000.
Proof.
  destruct (server_bookkeeping_correct (example_env 700000) example_permitted example_permitted_books)
    as (next & s' & tr & Hr & Ha & _ & _ & _ & _ & Hn).
  exists next, s', tr. split; [exact Hr|]. split; [exact Ha|].
  destruct Hn as [->|(a & Hin & Hs & _)]; [reflexivity|]. rewrite Ha in Hin.
  pose proof example_settled as Hall. rewrite forallb_forall in Hall. apply list_elem_of_In in Hin.
  apply Hall in Hin. rewrite Hs in Hin. discriminate.
Defined.

(** ** Defects *)

(** A ChannelData datagram stops a server that has no credentials.  Without
    credentials there is no table of allocations; [server_dispatch_stun] refuses
    TURN requests then, but [server_input] hands ChannelData to
    [find_allocation], which takes a hash modulo the size 0 of the table: a
    division by zero, whoever sends the datagram and whatever it holds. *)
Theorem server_channel_data_divides_by_zero `{Crypto} sockaddr_bytes getaddrinfo uninit stack e (buf : list Z)
    (src : addr_record_t) (s : juice_server_t) :
  is_stun_datagram buf (zlen buf) = Some false -> is_channel_data buf (zlen buf) = Some true -> allocs s = [] ->
  server_input sockaddr_bytes getaddrinfo uninit stack e buf src s = None.
Proof.
  intros Hstun Hcd Ha. unfold server_input. rewrite (bind_defined _ _ _ _ Hstun).
  rewrite (bind_defined _ _ _ _ Hcd). unfold server_process_channel_data. rewrite bind_get.
  unfold find_allocation, allocs_count. rewrite Ha. done.
Qed.

Lemma server_channel_data_divides_by_zero_witness :
  example_input 1000 [64; 0; 0; 0] client (example_server 4 []) = None.
Proof.
  apply (@server_channel_data_divides_by_zero sum_crypto); vm_compute; reflexivity.
Defined.

(** The answer of a run to the class and the error code of its message. *)
Definition answered (r : option (Z * juice_server_t * list event)) : option (stun_class_t * Z) :=
  match r with
  | Some (_, _, [Sent _ _ d]) =>
      match stun_read d (zlen d) with
      | Some (_, _, msg) => Some (msg_class msg, error_code msg)
      | None => None
      end
  | _ => None
  end.

(** A Refresh request of [src] at [t]. *)
Definition refresh (t : Z) (src : addr_record_t) (s : juice_server_t) : option (stun_class_t * Z) :=
  answered (example_input t (example_request_for s t src STUN_METHOD_REFRESH (example_tid 9) (fun m => m)) src s).

(** Both clients hash to the same slot; the first one then gives up its allocation. *)
Definition example_both : juice_server_t :=
  run_request 2000 rival STUN_METHOD_ALLOCATE (example_tid 2) (fun m => m) example_allocated.
Definition example_tombstone : juice_server_t :=
  run_request 3000 client STUN_METHOD_REFRESH (example_tid 3)
    (fun m => set_lifetime_set (set_lifetime m 0) true) example_both.

(** Deleting an allocation makes a live one unreachable for Refresh.  The search
    for Allocate and Refresh stops at the first deleted slot, although the
    allocation of the client may come after it: the rival, whose allocation is
    in use, can refresh it before the other client deletes its own and gets the
    error 437 (no allocation) after, so that its allocation runs out. *)
Theorem server_refresh_loses_allocation :
  (alloc_state <$> allocs example_tombstone !! 2%nat, alloc_state <$> allocs example_tombstone !! 3%nat,
   alloc_record <$> allocs example_tombstone !! 3%nat)
    = (Some SERVER_TURN_ALLOC_DELETED, Some SERVER_TURN_ALLOC_FULL, Some rival) /\
  refresh 4000 rival example_both = Some (STUN_CLASS_RESP_SUCCESS, 0) /\
  refresh 4000 rival example_tombstone = Some (STUN_CLASS_RESP_ERROR, 437).
Proof. vm_compute. repeat split. Qed.

(** A server whose user was added for one second. *)
Definition example_temporary : juice_server_t :=
  match @server_add_credentials sum_crypto (example_env 0) (Some (str "user")) (Some (str "secret")) 2 1000
          (example_server 4 []) with
  | Some (_, s, _) => s
  | None => no_server
  end.
Definition after_bookkeeping (t : Z) (s : juice_server_t) : option juice_server_t :=
  match server_bookkeeping (example_env t) s with Some (_, s, _) => Some s | None => None end.

(** Bookkeeping frees credentials that allocations still point to.  A user with
    a lifetime of a second gets an allocation; bookkeeping after that second
    frees the credentials and keeps the allocation, and the bookkeeping at the
    end of the allocation gives the quota back through the freed pointer. *)
Theorem server_credentials_use_after_free :
  let s := run_request 500 client STUN_METHOD_ALLOCATE (example_tid 1) (fun m => m) example_temporary in
  (usage (allocs s) 0 = 1) /\
  exists s', after_bookkeeping 2000 s = Some s' /\ server_credentials s' = [] /\ usage (allocs s') 0 = 1 /\
  after_bookkeeping 700000 s' = None.
Proof. split; [vm_compute; reflexivity|]. eexists. split; [vm_compute; reflexivity|]. vm_compute. repeat split. Qed.

Definition grown (quota : Z) (s : juice_server_t) : juice_server_t :=
  match @server_add_credentials sum_crypto (example_env 0) (Some (str "more")) (Some (str "other")) quota 0 s with
  | Some (_, s, _) => s
  | None => no_server
  end.

(** Adding credentials can lose the allocations.  [server_add_credentials] makes
    the table larger for a larger quota, and the position of a client is its hash
    modulo the size of the table: the slots are not moved, and the allocation
    that a client could refresh before is not found after. *)
Theorem server_add_credentials_loses_allocation :
  refresh 2000 client example_allocated = Some (STUN_CLASS_RESP_SUCCESS, 0) /\
  usage (allocs (grown 7 example_allocated)) 0 = 1 /\
  refresh 2000 client (grown 7 example_allocated) = Some (STUN_CLASS_RESP_ERROR, 437).
Proof. vm_compute. repeat split. Qed.
