(* ===== verification/ServerTotal.v ===== *)
(** * The server never fails (src/server.c)

    Every handler of the model of the server returns: no datagram, well formed or
    not, makes it read or write out of bounds, divide by zero or follow the
    pointer of credentials that no longer exist, as long as TURN is enabled and
    the credentials of the allocations have not been freed. *)

From S2P Require Import Prelude Effects CText ConstTime Addr Turn StunTypes StunWrite StunRead StunRoundtrip Server ServerSafety.

(** ** Sizes of answers *)

(** The attributes [l] take at most [n] bytes. *)
Definition size_le (l : list (Z * list Z)) (n : Z) : Prop := zlen (encode_attrs l) <= n.

Lemma size_le_nil : size_le [] 0.
Proof. done. Qed.

Lemma size_le_app l1 l2 n1 n2 : size_le l1 n1 -> size_le l2 n2 -> size_le (l1 ++ l2) (n1 + n2).
Proof. unfold size_le. rewrite encode_attrs_app, zlen_app. lia. Qed.

Lemma size_le_one t v n : zlen v <= n -> size_le [(t, v)] (7 + n).
Proof.
  intros Hv. unfold size_le. rewrite encode_attrs_one, zlen_encode_attr. cbn [snd].
  rewrite align32_spec by apply zlen_nonneg. zlia.
Qed.

Lemma size_le_when c t v n : zlen v <= n -> size_le (when c (t, v)) (7 + n).
Proof.
  intros Hv. pose proof (zlen_nonneg v). unfold when. destruct c; [by apply size_le_one|].
  unfold size_le. change (zlen (encode_attrs [])) with 0. lia.
Qed.

Lemma size_le_weaken l n n' : size_le l n -> n <= n' -> size_le l n'.
Proof. unfold size_le. lia. Qed.

Lemma zlen_xor_bytes (a mask : list Z) : zlen (xor_bytes a mask) <= zlen a.
Proof. unfold xor_bytes, zlen. rewrite length_zip_with. lia. Qed.

Lemma size_le_address tid t r : record_wf r -> size_le (address_attrs tid t r) 27.
Proof.
  intros Hr. unfold address_attrs. destruct (xor_address_value tid r) as [v|] eqn:E; [|done].
  apply (size_le_weaken _ (7 + 20)); [|lia]. apply size_le_one. unfold xor_address_value, record_wf in *.
  destruct (addr r) as [p a|p a|f]; [| |done]; destruct Hr as (_ & _ & Hl); case_if_in E; [|done| |done];
    injection E as <-; autorewrite with juice;
    match goal with |- context [xor_bytes a ?m] => pose proof (zlen_xor_bytes a m) end;
    unfold zlen in *; cbn [length le16] in *; lia.
Qed.

Lemma error_reason_short c : zlen (stun_get_error_reason c) <= 40.
Proof.
  unfold stun_get_error_reason.
  repeat match goal with |- context [match ?x with _ => _ end] => destruct x end; by vm_compute.
Qed.

Lemma error_code_value_short c : zlen (error_code_value c) <= 44.
Proof.
  unfold error_code_value. rewrite zlen_app. pose proof (error_reason_short c).
  change (zlen [0; 0; u8 (c / 100 .& 0x07); u8 (c mod 100)]) with 4. lia.
Qed.

(** Adds up the bounds of a sequence of attributes. *)
Ltac add_sizes :=
  eapply size_le_weaken;
  [ repeat match goal with
    | |- size_le (_ ++ _) _ => apply size_le_app
    | |- size_le (when _ _) _ => apply size_le_when
    | |- size_le [_] _ => apply size_le_one
    | |- size_le [] _ => apply size_le_nil
    | |- size_le (address_attrs _ _ _) _ => eapply size_le_address; eassumption
    | |- zlen _ <= _ => first [eassumption | apply error_code_value_short | apply Z.le_refl]
    end
  | rewrite ?zlen_be, ?zlen_app; unfold zlen, str; cbn [length app List.map]; try lia ].

Lemma plain_attributes_size msg : message_wf msg -> peers msg = [] -> data msg = None ->
  size_le (plain_attributes msg) 400.
Proof.
  intros Hw Hp Hd. unfold plain_attributes. rewrite Hp, Hd. pose proof (wf_mapped _ Hw). pose proof (wf_relayed _ Hw).
  cbn [fmap list_fmap concat]. add_sizes. cbn. lia.
Qed.

Lemma zlen_small n l : small_bytes n l -> zlen l <= n - 1.
Proof. intros [_ ?]. lia. Qed.

Lemma credential_attributes_size uninit msg : message_wf msg -> zlen uninit = 2 ->
  size_le (credential_attributes uninit msg) 2800.
Proof.
  intros Hw Hu. pose proof (zlen_small _ _ (wf_username _ Hw)). pose proof (zlen_small _ _ (wf_realm _ Hw)).
  pose proof (zlen_small _ _ (wf_nonce _ Hw)). pose proof (zlen_small _ _ (wf_userhash _ Hw)).
  pose proof (zlen_small _ _ (wf_algorithms _ Hw)).
  unfold STUN_MAX_USERNAME_LEN, STUN_MAX_REALM_LEN, STUN_MAX_NONCE_LEN in *.
  unfold credential_attributes. apply (size_le_weaken _ (600 + (800 + 1100))); [|lia].
  apply size_le_app; [|destruct (has_auth_attributes msg); [apply size_le_app|]].
  - unfold user_attributes. destruct (is_request msg); [destruct (enable_userhash _)|]; add_sizes.
  - add_sizes.
  - unfold nonce_attributes. destruct (bool_decide _); [add_sizes|]. destruct (0 <? _); add_sizes; unfold zlen in Hu; cbn; lia.
  - add_sizes.
Qed.

Lemma append_hmac_size `{Crypto} hmac n t key msg l m : (forall x k, zlen (hmac x k) = n) -> size_le l m ->
  size_le (append_hmac hmac n t key msg l) (m + (7 + n)).
Proof. intros Hh Hl. unfold append_hmac. apply size_le_app; [done|]. apply size_le_one. by rewrite Hh. Qed.

(** A message without data and peers fits the buffer of the server. *)
Lemma encode_message_size `{CryptoLaws} uninit msg password : message_wf msg -> zlen uninit = 2 ->
  peers msg = [] -> data msg = None -> zlen (encode_message uninit msg password) <= BUFFER_SIZE.
Proof.
  intros Hw Hu Hp Hd. rewrite zlen_encode_message by done. unfold sizeof_stun_header, BUFFER_SIZE.
  assert (Hs : size_le (signed_attributes uninit msg) (400 + 2800))
    by (apply size_le_app; [by apply plain_attributes_size|by apply credential_attributes_size]).
  assert (Ha : size_le (all_attributes uninit msg password) 3400); [|unfold size_le in Ha; lia].
  pose proof (fun x k => proj1 (hmac_sha1_digest x k)) as H1.
  pose proof (fun x k => proj1 (hmac_sha256_digest x k)) as H2. unfold all_attributes, integrity_attributes. cbv zeta.
  destruct (_ && _); [|by eapply size_le_weaken].
  apply (append_hmac_size hmac_sha1 HMAC_SHA1_SIZE STUN_ATTR_MESSAGE_INTEGRITY (generate_hmac_key msg password) msg) in Hs; [|exact H1].
  destruct (bool_decide _); [eapply size_le_weaken; [exact Hs|done] |].
  eapply size_le_weaken; [eapply append_hmac_size; [exact H2|exact Hs]|done].
Qed.

Lemma wp_put_alloc i a (Q : unit -> juice_server_t -> Prop) s :
  Q tt (with_allocs s (<[i := a]> (allocs s))) -> wp (put_alloc i a) Q s.
Proof. intros HQ. apply wp_bind, wp_get, wp_put, HQ. Qed.

(** ** The state of a server *)

Section Total.
(** What is known of the times when credentials expire. *)
Context (live : Z -> Prop).

Definition user_ok (n : juice_credentials_list_t) : Prop :=
  bytes (cred_username (node_credentials n)) /\ bytes (node_userhash n) /\
  zlen (node_userhash n) = USERHASH_SIZE /\ live (node_timestamp n).

(** The shape of a server with TURN enabled: the allocations have well-formed maps. *)
Record server_wf (s : juice_server_t) : Prop := {
  swf_table : 0 < allocs_count s;
  swf_realm : bytes (server_realm (config s));
  swf_peers : 0 < max_peers (config s);
  swf_users : Forall user_ok (server_credentials s);
  swf_maps : Forall (fun a => alloc_state a = SERVER_TURN_ALLOC_FULL -> turn_map_ok (alloc_map a)) (allocs s)
}.

Lemma server_wf_same s s' : server_wf s -> same_tables s s' -> server_wf s'.
Proof.
  intros [Ht Hr Hp Hu Hm] (Ha & Hc & Hcf & _ & _).
  split; unfold allocs_count in *; rewrite ?Ha, ?Hc, ?Hcf; done.
Qed.

(** The state after a step that changes no table. *)
Definition same_then (s : juice_server_t) {A} (Q : A -> juice_server_t -> Prop) : Prop :=
  forall x s', same_tables s s' -> Q x s'.

Lemma same_tables_refl s : same_tables s s.
Proof. by repeat split. Qed.
#[local] Hint Resolve same_tables_refl : core.

Lemma small_copy n text : 0 < n -> bytes text -> small_bytes n (default [] (snd (snprintf n text))).
Proof.
  intros Hn Hb. unfold snprintf. rewrite (proj2 (Z.ltb_lt _ _)) by lia. cbn [snd default]. split.
  - by apply Forall_take.
  - cbn. rewrite zlen_take. lia.
Qed.

(** ** Answers *)

Context `{CryptoLaws} (sockaddr_bytes : addr_record_t -> list Z)
        (getaddrinfo : list Z -> list Z -> Z -> option (list addrinfo)) (uninit stack : list Z) (e : env).
Context (Huninit : bytes uninit /\ zlen uninit = 2) (Hstack : zlen stack = BUFFER_SIZE).

(** An answer to write: without data and peers. *)
Definition answer_ok (msg : stun_message_t) : Prop := message_wf msg /\ peers msg = [] /\ data msg = None.

Lemma server_stun_send_wp dst msg password (Q : Z -> juice_server_t -> Prop) s :
  answer_ok msg -> (forall x, Q x s) -> wp (server_stun_send uninit stack e dst msg password) Q s.
Proof using Huninit Hstack H0.
  intros (Hw & Hp & Hd) HQ. destruct Huninit as [Hu1 Hu2].
  pose proof (encode_message_size uninit msg password Hw Hu2 Hp Hd) as Hs. unfold BUFFER_SIZE in *.
  destruct (stun_write_spec uninit Huninit msg Hw password stack) as (rest & Hr & _); [lia..|].
  rewrite Hstack in Hr. apply wp_bind. eapply wp_defined; [exact Hr|]. cbv iota beta.
  destruct (_ <=? 0); [by apply wp_ret|]. apply wp_bind. unfold server_send, send_from.
  apply wp_bind, wp_get, wp_bind, wp_emit, wp_ret, wp_ret, HQ.
Qed.

Lemma server_get_nonce_wp src (Q : list Z -> juice_server_t -> Prop) s :
  (forall n s', small_bytes STUN_MAX_NONCE_LEN n -> same_tables s s' -> Q n s') ->
  wp (server_get_nonce sockaddr_bytes e src) Q s.
Proof.
  intros HQ. unfold server_get_nonce. apply wp_bind, wp_get, wp_bind.
  assert (Hn : forall k, small_bytes STUN_MAX_NONCE_LEN (stun_prepend_nonce_cookie
    ((fun d => nth (Z.to_nat (d mod 64)) nonce_table 0) <$> take 32 (hmac_sha256 (sockaddr_bytes src) k)))).
  { intros k. rewrite stun_prepend_nonce_cookie_eq. split.
    - apply Forall_app. split; [by apply bytes_forallb|]. apply Forall_app. split; [by apply bytes_forallb|].
      apply Forall_take, Forall_fmap, Forall_true. intros d. unfold compose.
      apply (Forall_forall is_byte (0 :: nonce_table)); [by apply bytes_forallb|].
      destruct (nth_in_or_default (Z.to_nat (d mod 64)) nonce_table 0) as [Hin|Hin]; [by right|by left].
    - rewrite !zlen_app. change (zlen STUN_NONCE_COOKIE) with 9. change (zlen (str "AAAD")) with 4.
      rewrite zlen_take. unfold STUN_MAX_NONCE_LEN. lia. }
  destruct (_ <=? now e); [apply wp_put|apply wp_ret]; apply wp_bind, wp_get, wp_ret, HQ; auto. by repeat split.
Qed.

(** A pointer to credentials is NULL or to a node of the list. *)
Definition pointer_ok (s : juice_server_t) (cr : option nat) : Prop :=
  forall id, cr = Some id -> is_Some (find_node id (server_credentials s)).

Lemma pointer_ok_same s s' cr : pointer_ok s cr -> same_tables s s' -> pointer_ok s' cr.
Proof. intros Hp (_ & Hc & _) id Hid. rewrite Hc. by apply Hp. Qed.

Lemma deref_wp id (Q : juice_server_credentials_t -> juice_server_t -> Prop) s :
  pointer_ok s (Some id) -> (forall n, n ∈ server_credentials s -> node_id n = id -> Q (node_credentials n) s) ->
  wp (deref id) Q s.
Proof.
  intros Hp HQ. destruct (Hp id eq_refl) as [n Hn]. unfold deref. apply wp_bind, wp_get, wp_bind.
  eapply wp_defined; [exact Hn|]. apply wp_ret, HQ; [|by apply find_node_id in Hn].
  apply find_some in Hn as [Hn _]. by apply list_elem_of_In.
Qed.

(** What [answer] and the setters of the handlers give. *)
Lemma answer_ok_answer cls method tid : 0 <= method < 65536 /\ method .& STUN_CLASS_MASK = 0 ->
  bytes tid /\ zlen tid = 12 -> answer_ok (answer cls method tid).
Proof. intros Hm Ht. split; [|done]. split; try done; by vm_compute; repeat constructor. Qed.

(** An update of the message that keeps [answer_ok] because it keeps each field or
    gives it a valid value. *)
Ltac keep_answer :=
  match goal with
  | H : answer_ok ?m |- answer_ok _ =>
      let Hw := fresh in destruct H as (Hw & ? & ?); split; [destruct Hw; by constructor|done]
  end.

Lemma answer_ok_error msg code : answer_ok msg -> answer_ok (set_error_code msg code).
Proof. intros Ha. keep_answer. Qed.
Lemma answer_ok_mapped msg r : answer_ok msg -> record_wf r -> answer_ok (set_mapped msg r).
Proof. intros Ha Hr. keep_answer. Qed.
Lemma answer_ok_relayed msg r : answer_ok msg -> record_wf r -> answer_ok (set_relayed msg r).
Proof. intros Ha Hr. keep_answer. Qed.
Lemma answer_ok_lifetime msg n b : answer_ok msg -> answer_ok (set_lifetime_set (set_lifetime msg n) b).
Proof. intros Ha. keep_answer. Qed.
Lemma answer_ok_realm_nonce msg r n : answer_ok msg -> small_bytes STUN_MAX_REALM_LEN r ->
  small_bytes STUN_MAX_NONCE_LEN n ->
  answer_ok (set_credentials msg (set_nonce (set_realm (credentials msg) r) n)).
Proof. intros Ha Hr Hn. keep_answer. Qed.
Lemma answer_ok_username msg r n u : answer_ok msg -> small_bytes STUN_MAX_REALM_LEN r ->
  small_bytes STUN_MAX_NONCE_LEN n -> small_bytes STUN_MAX_USERNAME_LEN u ->
  answer_ok (set_credentials msg (set_username (set_nonce (set_realm (credentials msg) r) n) u)).
Proof. intros Ha Hr Hn Hu. keep_answer. Qed.

Lemma server_prepare_credentials_wp src cr msg (Q : stun_message_t -> juice_server_t -> Prop) s :
  server_wf s -> pointer_ok s cr -> answer_ok msg ->
  (forall msg' s', answer_ok msg' -> same_tables s s' -> Q msg' s') ->
  wp (server_prepare_credentials sockaddr_bytes e src cr msg) Q s.
Proof.
  intros Hs Hp Ha HQ. unfold server_prepare_credentials. apply wp_bind, wp_get, wp_bind, server_get_nonce_wp.
  intros n s' Hn T. pose proof (small_copy STUN_MAX_REALM_LEN _ ltac:(done) (swf_realm _ Hs)) as Hr.
  destruct cr as [id|]; [|by apply wp_ret, HQ; [apply answer_ok_realm_nonce|] ].
  apply wp_bind, deref_wp; [by eapply pointer_ok_same|]. intros n0 Hin _. apply wp_ret, HQ; [|done].
  apply answer_ok_username; [done..|]. apply small_copy; [done|].
  pose proof (swf_users _ (server_wf_same _ _ Hs T)) as Hu. rewrite Forall_forall in Hu.
  by apply list_elem_of_In, Hu in Hin as [? _].
Qed.

Lemma password_of_wp cr (Q : option (list Z) -> juice_server_t -> Prop) s :
  pointer_ok s cr -> (forall x, Q x s) -> wp (password_of cr) Q s.
Proof.
  intros Hp HQ. destruct cr as [id|]; [|by apply wp_ret]. apply wp_bind, deref_wp; [done|]. intros. by apply wp_ret.
Qed.

(** A message of which a response can be made. *)
Definition request_ok (msg : stun_message_t) : Prop :=
  (0 <= msg_method msg < 65536 /\ msg_method msg .& STUN_CLASS_MASK = 0) /\
  bytes (transaction_id msg) /\ zlen (transaction_id msg) = 12.

Lemma refuse_wp msg src code cr (Q : Z -> juice_server_t -> Prop) s :
  server_wf s -> pointer_ok s cr -> request_ok msg -> same_then s Q ->
  wp (refuse sockaddr_bytes uninit stack e msg src code cr) Q s.
Proof using Huninit Hstack H0.
  intros Hs Hp [Hm Ht] HQ. unfold refuse, server_answer_stun_error.
  set (ans := set_error_code _ _). assert (Ha : answer_ok ans) by (by apply answer_ok_error, answer_ok_answer).
  apply wp_bind. destruct (negb _).
  - apply server_prepare_credentials_wp; [done..|]. intros ans' s' Ha' T.
    apply wp_bind, password_of_wp; [by eapply pointer_ok_same|]. intros pw. apply server_stun_send_wp; [done|]. auto.
  - apply wp_ret, wp_bind, password_of_wp; [done|]. intros pw. apply server_stun_send_wp; [done|]. auto.
Qed.

Lemma refuse_fail_wp msg src code cr (Q : Z -> juice_server_t -> Prop) s :
  server_wf s -> pointer_ok s cr -> request_ok msg -> same_then s Q ->
  wp (refuse_fail sockaddr_bytes uninit stack e msg src code cr) Q s.
Proof using Huninit Hstack H0.
  intros Hs Hp Hm HQ. apply wp_bind, refuse_wp; [done..|]. intros x s' T. by apply wp_ret, HQ.
Qed.

Lemma accept_wp ans src id (Q : Z -> juice_server_t -> Prop) s :
  server_wf s -> pointer_ok s (Some id) -> answer_ok ans -> same_then s Q ->
  wp (accept sockaddr_bytes uninit stack e ans src id) Q s.
Proof using Huninit Hstack H0.
  intros Hs Hp Ha HQ. apply wp_bind, server_prepare_credentials_wp; [done..|]. intros ans' s' Ha' T.
  apply wp_bind, password_of_wp; [by eapply pointer_ok_same|]. intros pw. apply server_stun_send_wp; auto.
Qed.

Lemma binding_wp msg src (Q : Z -> juice_server_t -> Prop) s :
  request_ok msg -> record_wf src -> same_then s Q ->
  wp (server_process_stun_binding uninit stack e msg src) Q s.
Proof using Huninit Hstack H0.
  intros [_ Ht] Hr HQ. apply server_stun_send_wp; [|auto]. apply answer_ok_mapped; [|done].
  by apply answer_ok_answer.
Qed.

(** ** Tables *)

Lemma find_allocation_loop_total (l : list server_turn_alloc_t) r b key (fuel : nat) : forall d,
  0 <= key < zlen l -> 0 <= d < zlen l -> Z.of_nat fuel = zlen l - d ->
  exists o, find_allocation_loop fuel l r b key ((key + d) mod zlen l) = Some o /\
    forall i, o = Some i -> (i < length l)%nat.
Proof.
  induction fuel as [|fuel IH]; intros d Hk Hd Hf; [lia|]. cbn [find_allocation_loop].
  pose proof (Z.mod_pos_bound (key + d) (zlen l) ltac:(lia)) as Hp.
  assert (Hlt : (Z.to_nat ((key + d) mod zlen l) < length l)%nat) by (unfold zlen in *; lia).
  destruct (lookup_lt_is_Some_2 l _ Hlt) as [a ->]. cbn [mbind option_bind].
  destruct (_ || _ || _); [eexists; split; [done|]; by intros i [= <-] |].
  rewrite Z.add_mod_idemp_l by lia. rewrite <- Z.add_assoc. destruct (_ =? key) eqn:E; [by exists None|].
  destruct (Z.eq_dec (d + 1) (zlen l)) as [Hend|Hend].
  - rewrite Hend in E. rewrite <- Z.add_mod_idemp_r, Z.mod_same, Z.add_0_r, Z.mod_small in E by lia. lia.
  - apply IH; lia.
Qed.

Lemma find_allocation_total (l : list server_turn_alloc_t) r b : 0 < zlen l ->
  exists o, find_allocation l (zlen l) r b = Some o /\ forall i, o = Some i -> (i < length l)%nat.
Proof.
  intros Hl. unfold find_allocation. rewrite (proj2 (Z.eqb_neq _ _)) by lia.
  pose proof (Z.mod_pos_bound (addr_record_hash r true) (zlen l) Hl) as Hk. set (key := _ mod _) in *.
  destruct (find_allocation_loop_total l r b key (length l) 0) as (o & Ho & Hi); [done|lia|unfold zlen; lia|].
  rewrite Z.add_0_r, Z.mod_small in Ho by done. by exists o.
Qed.

(** A slot gets an allocation whose map, if it is in use, is well formed. *)
Lemma server_wf_put s i a : server_wf s -> (alloc_state a = SERVER_TURN_ALLOC_FULL -> turn_map_ok (alloc_map a)) ->
  server_wf (with_allocs s (<[i := a]> (allocs s))).
Proof.
  intros [Ht Hr Hp Hu Hm] Ha. split; try done; unfold allocs_count in *; cbn [with_allocs allocs].
  - unfold zlen in *. by rewrite length_insert.
  - by apply Forall_insert.
Qed.

Lemma server_wf_nodes s f : server_wf s ->
  (forall n, user_ok n -> user_ok (f n)) -> server_wf (with_nodes s (f <$> server_credentials s)).
Proof.
  intros [Ht Hr Hp Hu Hm] Hf. split; try done. cbn [with_nodes server_credentials]. apply Forall_fmap.
  eapply Forall_impl; [|exact Hu]. exact Hf.
Qed.

Lemma slot_map s i a : server_wf s -> allocs s !! i = Some a -> alloc_state a = SERVER_TURN_ALLOC_FULL ->
  turn_map_ok (alloc_map a).
Proof. intros Hs Hi. pose proof (swf_maps _ Hs) as Hm. rewrite Forall_lookup in Hm. by apply (Hm i). Qed.

Lemma pointer_ok_put s i a cr : pointer_ok s cr -> pointer_ok (with_allocs s (<[i := a]> (allocs s))) cr.
Proof. done. Qed.

(** The allocation in use in slot [i], if any, has its credentials. *)
Definition slot_ok (s : juice_server_t) (i : nat) : Prop :=
  exists a, allocs s !! i = Some a /\
    (alloc_state a = SERVER_TURN_ALLOC_FULL ->
     exists id, alloc_credentials a = Some id /\ pointer_ok s (Some id)).

Lemma add_quota_wp id d (Q : unit -> juice_server_t -> Prop) s : server_wf s -> pointer_ok s (Some id) ->
  (forall s', server_wf s' -> allocs s' = allocs s -> (forall cr, pointer_ok s cr -> pointer_ok s' cr) -> Q tt s') ->
  wp (add_quota id d) Q s.
Proof.
  intros Hs Hp HQ. destruct (Hp id eq_refl) as [n Hn]. apply wp_bind, wp_get, wp_bind.
  eapply wp_defined; [exact Hn|]. apply wp_put, HQ; [| done |].
  - apply server_wf_nodes; [done|]. intros m Hm. by destruct (bool_decide _).
  - intros cr Hcr k Hk. cbn [with_nodes server_credentials]. rewrite (find_node_fmap (bump id d)) by apply bump_id.
    destruct (Hcr k Hk) as [m ->]. by eexists.
Qed.

Lemma delete_allocation_wp i (Q : unit -> juice_server_t -> Prop) s : server_wf s -> slot_ok s i ->
  (forall s', server_wf s' -> (forall cr, pointer_ok s cr -> pointer_ok s' cr) -> Q tt s') ->
  wp (delete_allocation i) Q s.
Proof.
  intros Hs (a & Hi & Ha) HQ. apply wp_bind, wp_get, wp_bind. eapply wp_defined; [exact Hi|].
  case_bool_decide as Hf; cbn [negb]; [|by apply wp_ret, HQ]. destruct (Ha Hf) as (id & Hid & Hp).
  apply wp_bind. eapply wp_defined; [exact Hid|]. apply wp_bind, add_quota_wp; [done..|].
  intros s' Hs' _ Hp'. apply wp_bind, wp_emit, wp_put_alloc, HQ; [by apply server_wf_put|done].
Qed.

(** ** Requests *)

(** The addresses the system gives are well formed. *)
Context (Hnames : forall host service type l, getaddrinfo host service type = Some l ->
           Forall (fun ai => sockaddr_wf (ai_addr ai)) l)
        (Hlocal : Forall record_wf (snd (local_addrs e))).

Lemma addr_resolve_loop_wf ais st : Forall (fun ai => sockaddr_wf (ai_addr ai)) ais ->
  forall room ret, Forall record_wf (snd (addr_resolve_loop ais st room ret)).
Proof.
  induction 1 as [|ai ais Hai _ IH]; intros room ret; [constructor|]. cbn [addr_resolve_loop].
  destruct (_ || _); [|apply IH]. destruct room as [|room]; [apply IH|].
  specialize (IH room (ret + 1)). destruct (addr_resolve_loop _ _ _ _). by constructor.
Qed.

Lemma pick_relayed_in records : forall o r, pick_relayed records o = Some r -> o = Some r \/ r ∈ records.
Proof.
  induction records as [|r0 records IH]; intros o r; cbn [pick_relayed]; [auto|]. rewrite elem_of_cons.
  destruct o as [o|]; destruct (sa_family (addr r0) =? AF_INET); [by intros [= ->]; auto| |by intros [= ->]; auto|];
    (intros Hr; apply IH in Hr as [Hr|Hr]; [|auto]); [auto|injection Hr as ->; auto].
Qed.

Lemma relayed_address_wf s r : relayed_address getaddrinfo e s = Some r -> record_wf r.
Proof using Hnames Hlocal.
  unfold relayed_address. set (found := match external_address (config s) with Some _ => _ | None => _ end).
  assert (Hf : Forall record_wf (snd found)).
  { unfold found. destruct (external_address (config s)) as [host|]; [|done]. unfold addr_resolve.
    destruct (getaddrinfo _ _ _) as [l|] eqn:E; [|constructor]. by apply addr_resolve_loop_wf, (Hnames _ _ _ _ E). }
  destruct found as [count records]. destruct (count <=? 0); [done|]. intros Hr.
  apply pick_relayed_in in Hr as [|Hr]; [done|]. eapply Forall_take in Hf.
  rewrite Forall_forall in Hf. apply Hf. by apply list_elem_of_In.
Qed.

Lemma slot_ok_put s i a : (i < length (allocs s))%nat ->
  (alloc_state a = SERVER_TURN_ALLOC_FULL -> exists id, alloc_credentials a = Some id /\ pointer_ok s (Some id)) ->
  slot_ok (with_allocs s (<[i := a]> (allocs s))) i.
Proof. intros Hi Ha. exists a. split; [|exact Ha]. by apply list_lookup_insert_eq. Qed.

Lemma grant_allocation_wp msg src id i s : server_wf s -> pointer_ok s (Some id) -> request_ok msg -> record_wf src ->
  slot_ok s i ->
  wp (grant_allocation sockaddr_bytes getaddrinfo uninit stack e msg src id i) (fun _ => server_wf) s.
Proof using Huninit Hstack H0 Hnames Hlocal.
  intros Hs Hp Hm Hsrc (a & Hi & Ha). unfold grant_allocation. cbv zeta. set (lifetime_ := if _ && _ then _ else _).
  apply wp_bind, wp_get, wp_bind. eapply wp_defined; [exact Hi|]. apply wp_bind, wp_put_alloc.
  set (a' := with_alloc_request a _ _). assert (Hs' : server_wf (with_allocs s (<[i := a']> (allocs s)))).
  { apply server_wf_put; [done|]. exact (slot_map s i a Hs Hi). }
  assert (Hok : slot_ok (with_allocs s (<[i := a']> (allocs s))) i)
    by (apply slot_ok_put; [by eapply lookup_lt_Some|done]).
  assert (Hp' : pointer_ok (with_allocs s (<[i := a']> (allocs s))) (Some id)) by done.
  revert Hs' Hok Hp'. generalize (with_allocs s (<[i := a']> (allocs s))). clear s Hs Hp Hi a Ha a'.
  intros s Hs Hok Hp. apply wp_bind.
  assert (Hgrant : forall s o, server_wf s -> pointer_ok s (Some id) -> (forall r, o = Some r -> record_wf r) ->
    wp (accept sockaddr_bytes uninit stack e
      (match o with
       | Some r => set_relayed (set_mapped (set_lifetime_set (set_lifetime
           (answer STUN_CLASS_RESP_SUCCESS (msg_method msg) (transaction_id msg)) lifetime_) true) src) r
       | None => set_mapped (set_lifetime_set (set_lifetime
           (answer STUN_CLASS_RESP_SUCCESS (msg_method msg) (transaction_id msg)) lifetime_) true) src
       end) src id) (fun _ => server_wf) s).
  { intros s1 o Hs1 Hp1 Hr. destruct Hm as [Hm1 Hm2]. apply accept_wp; [done|done| |by intros x s2 T; eapply server_wf_same].
    assert (Ha : answer_ok (set_mapped (set_lifetime_set (set_lifetime
      (answer STUN_CLASS_RESP_SUCCESS (msg_method msg) (transaction_id msg)) lifetime_) true) src))
      by (by apply answer_ok_mapped; [apply answer_ok_lifetime, answer_ok_answer|]).
    destruct o as [r|]; [|done]. apply answer_ok_relayed; auto. }
  destruct (lifetime_ =? 0).
  - apply wp_bind, delete_allocation_wp; [done..|]. intros s1 Hs1 Hp1. apply wp_ret.
    apply (Hgrant s1 None); auto. done.
  - apply wp_bind, wp_get. destruct (relayed_address getaddrinfo e s) as [r|] eqn:Hr.
    + apply wp_ret. apply (Hgrant s (Some r)); auto. intros ? [= <-]. by eapply relayed_address_wf.
    + apply wp_bind, delete_allocation_wp; [done..|]. intros s1 Hs1 Hp1. apply wp_ret, refuse_fail_wp; auto.
      intros x s2 T. by eapply server_wf_same.
Qed.

Lemma wf_same s : server_wf s -> same_then s (fun (_ : Z) => server_wf).
Proof. intros Hs x s' T. by eapply server_wf_same. Qed.
#[local] Hint Resolve wf_same : core.

Lemma create_allocation_wp msg src id i a s : server_wf s -> pointer_ok s (Some id) -> request_ok msg ->
  record_wf src -> allocs s !! i = Some a -> alloc_state a <> SERVER_TURN_ALLOC_FULL ->
  wp (create_allocation sockaddr_bytes getaddrinfo uninit stack e msg src id i a) (fun _ => server_wf) s.
Proof using Huninit Hstack H0 Hnames Hlocal.
  intros Hs Hp Hm Hsrc Hi Ha. apply wp_bind, deref_wp; [done|]. intros n _ _.
  destruct (_ <=? 0); [by apply refuse_wp; auto|]. apply wp_bind, wp_put_alloc.
  set (s1 := with_allocs s _). assert (Hs1 : server_wf s1) by (by apply server_wf_put).
  assert (Hp1 : pointer_ok s1 (Some id)) by done.
  destruct (_ =? INVALID_SOCKET); [by apply refuse_fail_wp; auto|]. apply wp_bind, wp_get, wp_bind, wp_put_alloc.
  set (s2 := with_allocs s1 _).
  assert (Hs2 : server_wf s2) by (apply server_wf_put; [done|]; intros _; by apply turn_init_map_ok, swf_peers).
  assert (Hp2 : pointer_ok s2 (Some id)) by done.
  assert (Hok : slot_ok s2 i).
  { apply slot_ok_put; [|by intros _; exists id]. unfold s1. cbn [with_allocs allocs]. rewrite length_insert.
    by eapply lookup_lt_Some. }
  apply wp_bind, add_quota_wp; [done..|]. intros s3 Hs3 Ha3 Hp3. apply grant_allocation_wp; auto.
  destruct Hok as (a2 & Hi2 & Hf2). exists a2. rewrite Ha3. split; [done|]. intros Hf.
  destruct (Hf2 Hf) as (k & Hk & Hpk). exists k. auto.
Qed.

(** The books of the server make every slot safe to delete. *)
Lemma books_slot s i a : books_ok s -> allocs s !! i = Some a -> slot_ok s i.
Proof.
  intros Hb Hi. exists a. split; [done|]. intros Hf. destruct (bok_pointers _ Hb i a Hi Hf) as (id & Hid & Hn).
  exists id. split; [done|]. by intros k [= <-].
Qed.

(** The search of the table by a handler. *)
Lemma wp_find_allocation src b (Q : option nat -> juice_server_t -> Prop) s : server_wf s ->
  Q None s -> (forall i a, allocs s !! i = Some a -> Q (Some i) s) ->
  wp (defined (find_allocation (allocs s) (allocs_count s) src b) : M _) Q s.
Proof.
  intros Hs H1 H2. destruct (find_allocation_total (allocs s) src b (swf_table _ Hs)) as ([i|] & Ho & Hi);
    (eapply wp_defined; [exact Ho|]); [|done].
  destruct (lookup_lt_is_Some_2 (allocs s) i (Hi i eq_refl)) as [a Ha]. by eapply H2.
Qed.

Lemma allocate_wp msg src id s : server_wf s -> books_ok s -> pointer_ok s (Some id) -> request_ok msg ->
  record_wf src ->
  wp (server_process_turn_allocate sockaddr_bytes getaddrinfo uninit stack e msg src id) (fun _ => server_wf) s.
Proof using Huninit Hstack H0 Hnames Hlocal.
  intros Hs Hb Hp Hm Hsrc. unfold server_process_turn_allocate. destruct (negb _); [by apply wp_ret|].
  destruct (_ && _); [by apply wp_ret|]. apply wp_bind, wp_get, wp_bind, wp_find_allocation; [done| |].
  - by apply refuse_wp; auto.
  - intros i a Hi. apply wp_bind. eapply wp_defined; [exact Hi|]. case_bool_decide as Hf.
    + destruct (_ && _); [by apply refuse_wp; auto|]. destruct (negb _); [by apply refuse_wp; auto|].
      apply grant_allocation_wp; auto. by eapply books_slot.
    + destruct (_ =? STUN_METHOD_REFRESH); [by apply refuse_wp; auto|]. by apply create_allocation_wp.
Qed.

Lemma with_allocation_wp msg src id k s : server_wf s -> pointer_ok s (Some id) -> request_ok msg ->
  (forall i a, allocs s !! i = Some a -> alloc_state a = SERVER_TURN_ALLOC_FULL -> wp (k i a) (fun _ => server_wf) s) ->
  wp (with_allocation sockaddr_bytes uninit stack e msg src id k) (fun _ => server_wf) s.
Proof using Huninit Hstack H0.
  intros Hs Hp Hm Hk. apply wp_bind, wp_get, wp_bind, wp_find_allocation; [done| |].
  - by apply refuse_wp; auto.
  - intros i a Hi. apply wp_bind. eapply wp_defined; [exact Hi|]. case_bool_decide as Hf; cbn [negb];
      [|by apply refuse_wp; auto]. destruct (negb _); [by apply refuse_wp; auto|]. by apply Hk.
Qed.

Lemma set_permissions_ok tid l : Forall has_address l -> forall m, turn_map_ok m ->
  exists ok m', set_permissions e m tid l = Some (ok, m') /\ turn_map_ok m'.
Proof.
  induction 1 as [|r l Hr _ IH]; intros m Hm; [by exists true, m|]. cbn [set_permissions].
  destruct (turn_set_permission_spec m tid r (now e) PERMISSION_LIFETIME Hm Hr) as (ok & m1 & -> & Hm1 & _).
  cbn [mbind option_bind]. destruct ok; [by apply IH|by exists false, m1].
Qed.

(** The end of the handlers that change the map of an allocation. *)
Lemma put_map_wp i a m (ok : bool) msg src id code ans (k : M Z) s : server_wf s -> turn_map_ok m ->
  pointer_ok s (Some id) -> request_ok msg -> answer_ok ans ->
  k = (if negb ok then refuse_fail sockaddr_bytes uninit stack e msg src code (Some id)
       else accept sockaddr_bytes uninit stack e ans src id) ->
  wp (_ ← put_alloc i (with_alloc_map a m); k) (fun _ => server_wf) s.
Proof using Huninit Hstack H0.
  intros Hs Hmap Hp Hm Hans ->. apply wp_bind, wp_put_alloc.
  assert (Hs1 : server_wf (with_allocs s (<[i := with_alloc_map a m]> (allocs s)))) by (by apply server_wf_put).
  destruct ok; cbn [negb]; [by apply accept_wp; auto|by apply refuse_fail_wp; auto].
Qed.

Lemma method_ok method : method = STUN_METHOD_CREATE_PERMISSION \/ method = STUN_METHOD_CHANNEL_BIND ->
  0 <= method < 65536 /\ method .& STUN_CLASS_MASK = 0.
Proof. by intros [-> | ->]. Qed.

Lemma create_permission_wp msg src id s : server_wf s -> pointer_ok s (Some id) -> request_ok msg ->
  Forall has_address (peers msg) ->
  wp (server_process_turn_create_permission sockaddr_bytes uninit stack e msg src id) (fun _ => server_wf) s.
Proof using Huninit Hstack H0.
  intros Hs Hp Hm Hpeers. unfold server_process_turn_create_permission. destruct (negb _); [by apply wp_ret|].
  destruct (_ =? 0); [by apply refuse_wp; auto|]. apply with_allocation_wp; [done..|]. intros i a Hi Hf.
  destruct (set_permissions_ok (transaction_id msg) (peers msg) Hpeers _ (slot_map s i a Hs Hi Hf))
    as (ok & m & Hset & Hmap).
  apply wp_bind. eapply wp_defined; [exact Hset|]. cbv iota beta.
  eapply (put_map_wp i a m ok msg src id 500); [done..| |reflexivity]. apply answer_ok_answer; [by apply method_ok; left|apply Hm].
Qed.

Lemma channel_bind_wp msg src id s : server_wf s -> pointer_ok s (Some id) -> request_ok msg ->
  Forall has_address (peers msg) ->
  wp (server_process_turn_channel_bind sockaddr_bytes uninit stack e msg src id) (fun _ => server_wf) s.
Proof using Huninit Hstack H0.
  intros Hs Hp Hm Hpeers. unfold server_process_turn_channel_bind. destruct (negb _); [by apply wp_ret|].
  destruct (peers_size msg =? 0) eqn:Hz; [by apply refuse_wp; auto|].
  destruct (channel_number msg =? 0); [by apply refuse_wp; auto|]. apply with_allocation_wp; [done..|].
  intros i a Hi Hf. destruct (negb _); [by apply refuse_wp; auto|].
  destruct (peers msg) as [|peer l] eqn:El; [unfold peers_size in Hz; by rewrite El in Hz|]. inversion Hpeers as [|? ? Hpeer _]; subst.
  apply wp_bind. eapply wp_defined; [reflexivity|].
  destruct (turn_bind_channel_spec (alloc_map a) peer (Some (transaction_id msg)) (channel_number msg) (now e)
    BIND_LIFETIME (slot_map s i a Hs Hi Hf) Hpeer) as (ok & m & Hb & Hmap & _).
  apply wp_bind. eapply wp_defined; [exact Hb|]. cbv iota beta. apply wp_bind, wp_put_alloc.
  set (s1 := with_allocs s _). assert (Hs1 : server_wf s1) by (by apply server_wf_put).
  assert (Hp1 : pointer_ok s1 (Some id)) by done.
  destruct ok; cbn [negb]; [|by apply refuse_fail_wp; auto].
  destruct (turn_set_permission_spec m (transaction_id msg) peer (now e) PERMISSION_LIFETIME Hmap Hpeer)
    as (ok & m2 & Hset & Hmap2 & _).
  apply wp_bind. eapply wp_defined; [exact Hset|]. cbv iota beta.
  eapply (put_map_wp i a m2 ok msg src id 500); [done..| |reflexivity]. apply answer_ok_answer; [by apply method_ok; right|apply Hm].
Qed.

(** ** Relaying *)

Lemma bound_channel_total (m : turn_map_t) c t : channels_ok m -> exists o, turn_find_bound_channel m c t = Some o.
Proof.
  intros Hok. destruct (is_valid_channel c) eqn:Hv; [rewrite turn_find_bound_channel_eq by done; by eexists|].
  unfold turn_find_bound_channel. rewrite Hv. by eexists.
Qed.

Lemma send_from_wp sock dst d (Q : Z -> juice_server_t -> Prop) s : (forall x, Q x s) -> wp (send_from e sock dst d) Q s.
Proof. intros HQ. apply wp_bind, wp_emit, wp_ret, HQ. Qed.

Lemma turn_send_wp msg src s : server_wf s -> wp (server_process_turn_send e msg src) (fun _ => server_wf) s.
Proof.
  intros Hs. unfold server_process_turn_send. destruct (negb _); [by apply wp_ret|].
  destruct (data msg) as [d|]; [|by apply wp_ret]. destruct (peers_size msg =? 0) eqn:Hz; [by apply wp_ret|].
  apply wp_bind, wp_get, wp_bind, wp_find_allocation; [done|by apply wp_ret|]. intros i a Hi. apply wp_bind.
  eapply wp_defined; [exact Hi|]. case_bool_decide as Hf; cbn [negb]; [|by apply wp_ret].
  destruct (peers msg) as [|peer l] eqn:El; [unfold peers_size in Hz; by rewrite El in Hz|].
  apply wp_bind. eapply wp_defined; [reflexivity|]. apply wp_bind.
  eapply wp_defined; [apply turn_has_permission_eq; by apply mok_table, (slot_map s i a)|].
  destruct (negb _); [by apply wp_ret|by apply send_from_wp].
Qed.

Lemma channel_data_wp buf src s : server_wf s -> bytes buf ->
  wp (server_process_channel_data e buf src) (fun _ => server_wf) s.
Proof.
  intros Hs Hb. apply wp_bind, wp_get, wp_bind, wp_find_allocation; [done|by apply wp_ret|]. intros i a Hi.
  apply wp_bind. eapply wp_defined; [exact Hi|]. case_bool_decide as Hf; cbn [negb]; [|by apply wp_ret].
  destruct (zlen buf <? _) eqn:Hl; [by apply wp_ret|]. unfold sizeof_channel_data_header in *.
  destruct (load16_ok buf 0) as (c & Hc & _); [done|lia|lia|]. destruct (load16_ok buf 2) as (n & Hn & Hn'); [done|lia|lia|].
  apply wp_bind. eapply wp_defined; [exact Hc|]. apply wp_bind. eapply wp_defined; [exact Hn|].
  destruct (_ <? n) eqn:Hlen; [by apply wp_ret|].
  destruct (bound_channel_total (alloc_map a) c (now e) (mok_channels _ (slot_map s i a Hs Hi Hf))) as [o Ho].
  apply wp_bind. eapply wp_defined; [exact Ho|]. destruct o as [r|]; [|by apply wp_ret].
  apply wp_bind. eapply wp_defined; [apply load_Some; lia|]. apply wp_bind, send_from_wp. intros x. by apply wp_ret.
Qed.

(** ** Authentication *)

Lemma memcmp_total (x y : list Z) : bytes x -> bytes y -> zlen x = USERHASH_SIZE -> zlen y = USERHASH_SIZE ->
  exists c, const_time_memcmp x y (Z.to_nat USERHASH_SIZE) = Some c.
Proof.
  intros Hx Hy Lx Ly. unfold const_time_memcmp. unfold zlen in *.
  destruct (const_time_memcmp_loop_spec 0 x y (Z.to_nat USERHASH_SIZE)) as (r & Hr & _); [done..|lia|lia|].
  rewrite Hr. by eexists.
Qed.

Lemma strcmp_total (x y : list Z) : bytes x -> bytes y -> exists c, const_time_strcmp (x ++ [0]) (y ++ [0]) = Some c.
Proof.
  intros Hx Hy. unfold const_time_strcmp.
  assert (Hb : forall l, bytes l -> bytes (l ++ [0])) by (intros; apply Forall_app; split; [done|by apply bytes_forallb]).
  destruct (const_time_strcmp_loop_spec 0 (x ++ [0]) (y ++ [0])) as (r & Hr & _);
    [done|by apply Hb|by apply Hb|apply in_or_app; right; by left|apply in_or_app; right; by left|].
  rewrite Hr. by eexists.
Qed.

(** The loops find nothing or a node of the list. *)
Definition in_list (l : list juice_credentials_list_t) (found : option nat) (o : option nat) : Prop :=
  o = found \/ exists n, n ∈ l /\ o = Some (node_id n).

Lemma in_list_cons n l found o : in_list l found o -> in_list (n :: l) found o.
Proof. intros [?|(m & Hm & ?)]; [by left|]. right. exists m. split; [by right|done]. Qed.

Lemma in_list_step n l found o (c : bool) : in_list l (if c then Some (node_id n) else found) o -> in_list (n :: l) found o.
Proof.
  destruct c; [|apply in_list_cons]. intros [->|(m & Hm & ->)]; right; [exists n|exists m]; (split; [|done]);
    [by left|by right].
Qed.

Lemma find_by_userhash_total l hash : Forall user_ok l -> bytes hash -> zlen hash = USERHASH_SIZE ->
  forall found, exists o, find_by_userhash e l hash found = Some o /\ in_list l found o.
Proof.
  intros Hl Hb Hz. induction Hl as [|n l (_ & Hu & Hu' & _) _ IH]; intros found; [exists found; split; [done|by left]|].
  cbn [find_by_userhash]. destruct (node_live e n).
  - destruct (memcmp_total (node_userhash n) hash) as [c ->]; [done..|]. cbn [mbind option_bind].
    destruct (IH (if c =? 0 then Some (node_id n) else found)) as (o & -> & Ho). exists o. split; [done|].
    by apply in_list_step in Ho.
  - destruct (IH found) as (o & -> & Ho). exists o. split; [done|by apply in_list_cons].
Qed.

Lemma find_by_username_total l name : Forall user_ok l -> bytes name ->
  forall found, exists o, find_by_username e l name found = Some o /\ in_list l found o.
Proof.
  intros Hl Hb. induction Hl as [|n l (Hu & _) _ IH]; intros found; [exists found; split; [done|by left]|].
  cbn [find_by_username]. destruct (node_live e n).
  - destruct (strcmp_total (cred_username (node_credentials n)) name) as [c ->]; [done..|]. cbn [mbind option_bind].
    destruct (IH (if c =? 0 then Some (node_id n) else found)) as (o & -> & Ho). exists o. split; [done|].
    by apply in_list_step in Ho.
  - destruct (IH found) as (o & -> & Ho). exists o. split; [done|by apply in_list_cons].
Qed.

Lemma in_list_pointer s o : in_list (server_credentials s) None o -> pointer_ok s o.
Proof.
  intros [->|(n & Hn & ->)]; [done|]. intros id [= <-]. apply list_elem_of_In in Hn.
  destruct (find_node (node_id n) (server_credentials s)) eqn:E; [by eexists|]. exfalso.
  pose proof (find_none _ _ E _ Hn) as Hf. cbv beta in Hf. rewrite bool_decide_eq_true_2 in Hf; done.
Qed.

(** A message as [stun_read] gives it, up to its user name. *)
Definition read_ok (msg : stun_message_t) : Prop :=
  request_ok msg /\ Forall has_address (peers msg) /\ bytes (username (credentials msg)) /\
  bytes (userhash (credentials msg)) /\ zlen (userhash (credentials msg)) = USERHASH_SIZE.

Lemma read_ok_username msg u : read_ok msg -> bytes u -> read_ok (set_credentials msg (set_username (credentials msg) u)).
Proof. intros (Hr & Hp & _ & Hu) Hb. by repeat split; try apply Hr; try apply Hu. Qed.

Lemma lookup_credentials_wp msg (Q : option nat * stun_message_t -> juice_server_t -> Prop) s : server_wf s -> read_ok msg ->
  (forall o msg', pointer_ok s o -> read_ok msg' -> has_integrity msg' = has_integrity msg -> Q (o, msg') s) ->
  wp (lookup_credentials e msg) Q s.
Proof.
  intros Hs Hm HQ. pose proof Hm as (_ & _ & Hu & Hh & Hz). apply wp_bind, wp_get. destruct (enable_userhash _).
  - destruct (find_by_userhash_total _ _ (swf_users _ Hs) Hh Hz None) as (o & Ho & Hin).
    pose proof (in_list_pointer s o Hin) as Hp. apply wp_bind. eapply wp_defined; [exact Ho|].
    destruct o as [id|]; [|by apply wp_ret, HQ]. apply wp_bind, deref_wp; [done|]. intros n Hn _.
    apply wp_ret, HQ; [done| |done]. apply read_ok_username; [done|]. apply small_copy; [done|].
    pose proof (swf_users _ Hs) as Hus. rewrite Forall_forall in Hus. by apply list_elem_of_In, Hus in Hn as [? _].
  - destruct (find_by_username_total _ _ (swf_users _ Hs) Hu None) as (o & Ho & Hin).
    apply wp_bind. eapply wp_defined; [exact Ho|]. apply wp_ret, HQ; [by apply in_list_pointer|done..].
Qed.

(** ** Dispatch *)

Lemma dispatch_method_wp msg src cr s : server_wf s -> books_ok s -> pointer_ok s cr -> read_ok msg -> record_wf src ->
  (cr = None -> msg_method msg = STUN_METHOD_BINDING \/ msg_class msg = STUN_CLASS_INDICATION /\ msg_method msg = STUN_METHOD_SEND) ->
  wp (dispatch_method sockaddr_bytes getaddrinfo uninit stack e msg src cr) (fun _ => server_wf) s.
Proof using Huninit Hstack H0 Hnames Hlocal.
  intros Hs Hb Hp (Hm & Hpeers & _) Hsrc Hcr. unfold dispatch_method.
  destruct (_ =? STUN_METHOD_BINDING) eqn:E1; [by apply binding_wp; auto|].
  assert (Hsend : cr = None -> msg_method msg = STUN_METHOD_SEND) by (intros Hn; destruct (Hcr Hn) as [|[] ]; [lia|done]).
  destruct (_ || _) eqn:E2.
  { destruct cr as [id|]; [apply wp_bind; eapply wp_defined; [done|]; by apply allocate_wp|].
    rewrite Hsend in E2 by done. done. }
  destruct (_ =? STUN_METHOD_CREATE_PERMISSION) eqn:E3.
  { destruct cr as [id|]; [apply wp_bind; eapply wp_defined; [done|]; by apply create_permission_wp|].
    rewrite Hsend in E3 by done. done. }
  destruct (_ =? STUN_METHOD_CHANNEL_BIND) eqn:E4.
  { destruct cr as [id|]; [apply wp_bind; eapply wp_defined; [done|]; by apply channel_bind_wp|].
    rewrite Hsend in E4 by done. done. }
  destruct (_ =? STUN_METHOD_SEND); [by apply turn_send_wp|by apply wp_ret].
Qed.

Lemma authenticate_wp buf msg src s : server_wf s -> books_ok s -> read_ok msg -> record_wf src ->
  bytes buf -> (exists ret msg0, stun_read buf (zlen buf) = Some (ret, buf, msg0) /\ 0 <= ret) ->
  wp (authenticate sockaddr_bytes getaddrinfo uninit stack e buf msg src) (fun _ => server_wf) s.
Proof using Huninit Hstack H0 Hnames Hlocal.
  intros Hs Hb Hm Hsrc Hbuf (ret & msg0 & Hread & Hret). unfold authenticate. pose proof (proj1 Hm) as Hreq.
  destruct (lacks_credentials msg) eqn:Hl; [by apply refuse_wp; auto|]. apply wp_bind, server_get_nonce_wp.
  intros n s1 _ T. apply wp_bind, wp_get. pose proof (server_wf_same _ _ Hs T) as Hs1.
  pose proof (proj1 (same_tables_books _ _ Hb T)) as Hb1. destruct (_ || _); [by apply refuse_wp; auto|].
  apply wp_bind, lookup_credentials_wp; [done..|]. intros o msg' Hp Hm' Hi. cbv iota beta.
  destruct o as [id|]; [|apply refuse_fail_wp; auto; apply Hm']. apply wp_bind, deref_wp; [done|]. intros nd Hnd _.
  assert (Hint : has_integrity msg' = true).
  { rewrite Hi. unfold lacks_credentials in Hl. by destruct (has_integrity msg). }
  pose proof (zlen_nonneg buf).
  destruct (stun_check_integrity_spec buf (zlen buf) ret msg0 msg' (Some (cred_password (node_credentials nd))))
    as (b & Hc & _); [done|lia|done..|].
  apply wp_bind. eapply wp_defined; [exact Hc|]. cbv iota beta. destruct b; cbn [negb].
  - by apply dispatch_method_wp.
  - apply refuse_fail_wp; auto; [done|apply Hm'].
Qed.

Lemma received_read_ok msg : received_wf msg -> read_ok msg.
Proof.
  intros [Hw _ Hu [_ Hp] _]. split; [split; [apply Hw|apply Hw] |]. split; [done|].
  split; [apply Hw|]. split; [apply Hw|done].
Qed.

Lemma server_dispatch_stun_wp buf msg src s : server_wf s -> books_ok s -> received_wf msg -> record_wf src ->
  bytes buf -> (exists ret msg0, stun_read buf (zlen buf) = Some (ret, buf, msg0) /\ 0 <= ret) ->
  wp (server_dispatch_stun sockaddr_bytes getaddrinfo uninit stack e buf msg src) (fun _ => server_wf) s.
Proof using Huninit Hstack H0 Hnames Hlocal.
  intros Hs Hb Hw Hsrc Hbuf Hread. pose proof (received_read_ok msg Hw) as Hm. pose proof (proj1 Hm) as Hreq.
  unfold server_dispatch_stun. cbv zeta. destruct (negb (_ || _)) eqn:Hc; [by apply wp_ret|].
  apply wp_bind, wp_get. destruct (_ && negb (_ =? _)); [by apply refuse_wp; auto|].
  destruct (error_code msg =? _).
  { destruct (bool_decide (msg_class msg = STUN_CLASS_REQUEST)); [by apply refuse_wp; auto|by apply wp_ret]. }
  destruct (negb (_ =? _) && negb _) eqn:Ha; [by apply authenticate_wp|].
  apply dispatch_method_wp; try done. intros _.
  destruct (msg_method msg =? STUN_METHOD_BINDING) eqn:Hbind; [left; lia|]. right. cbn [negb andb] in Ha.
  destruct (bool_decide (msg_class msg = STUN_CLASS_INDICATION)) eqn:Hind; [|done]. apply bool_decide_eq_true in Hind.
  split; [done|]. rewrite bool_decide_eq_false_2 in Hc by (rewrite Hind; done). cbn in Hc.
  destruct (msg_method msg =? STUN_METHOD_SEND) eqn:Hsend; [lia|done].
Qed.

Lemma is_channel_data_total buf : bytes buf -> exists b, is_channel_data buf (zlen buf) = Some b.
Proof.
  intros Hb. pose proof (zlen_nonneg buf). unfold is_channel_data. case_if; [by eexists|]. load_step. by eexists.
Qed.

Lemma server_input_wp buf src s : server_wf s -> books_ok s -> bytes buf -> record_wf src ->
  wp (server_input sockaddr_bytes getaddrinfo uninit stack e buf src) (fun _ => server_wf) s.
Proof using Huninit Hstack H0 Hnames Hlocal.
  intros Hs Hb Hbuf Hsrc. destruct (is_stun_datagram_total buf Hbuf) as [b H1].
  destruct (is_channel_data_total buf Hbuf) as [c H2]. pose proof (zlen_nonneg buf).
  apply wp_bind. eapply wp_defined; [exact H1|]. destruct b.
  - destruct (stun_read_ok buf (zlen buf)) as (ret & msg & Hr & Hw & _); [done|lia|].
    apply wp_bind. eapply wp_defined; [exact Hr|]. cbv iota beta. destruct (ret <? 0) eqn:Hlt; [by apply wp_ret|].
    apply server_dispatch_stun_wp; try done; [apply Hw; lia|]. exists ret, msg. split; [done|lia].
  - apply wp_bind. eapply wp_defined; [exact H2|]. destruct c; [by apply channel_data_wp|by apply wp_ret].
Qed.

(** ** Datagrams from peers *)

(** The largest datagram for which the Data indication surely fits the buffer. *)
Definition FORWARD_SIZE : Z := 4000.

Definition data_indication (tid : list Z) (r : addr_record_t) (buf : list Z) : stun_message_t :=
  set_data (set_peers (answer STUN_CLASS_INDICATION STUN_METHOD_DATA tid) [r]) (Some buf).

Lemma data_indication_size tid r buf : bytes tid /\ zlen tid = 12 -> record_wf r -> bytes buf ->
  zlen buf <= FORWARD_SIZE -> message_wf (data_indication tid r buf) /\
  zlen (encode_message uninit (data_indication tid r buf) None) <= BUFFER_SIZE.
Proof.
  intros Ht Hr Hb Hl. unfold FORWARD_SIZE, BUFFER_SIZE in *.
  assert (Hw : message_wf (data_indication tid r buf)).
  { destruct (answer_ok_answer STUN_CLASS_INDICATION STUN_METHOD_DATA tid) as [Hw _]; [done|done|].
    destruct Hw. constructor; try done; [by repeat constructor|]. split; [done|]. cbn. lia. }
  split; [done|]. rewrite zlen_encode_message by done. unfold sizeof_stun_header.
  enough (Hs : size_le (all_attributes uninit (data_indication tid r buf) None) 4060) by (unfold size_le in Hs; lia).
  change (all_attributes uninit (data_indication tid r buf) None) with (plain_attributes (data_indication tid r buf) ++ []).
  rewrite app_nil_r. change (plain_attributes (data_indication tid r buf)) with
    ((address_attrs tid STUN_ATTR_XOR_PEER_ADDRESS r ++ []) ++
     [(STUN_ATTR_DATA, buf)] ++ [(STUN_ATTR_SOFTWARE, str "libjuice")]).
  rewrite app_nil_r. add_sizes.
Qed.

Context (Htid : bytes (random_tid e) /\ zlen (random_tid e) = 12).

Lemma turn_wrap_channel_data_total m d c : zlen m = BUFFER_SIZE ->
  exists n m', turn_wrap_channel_data m BUFFER_SIZE d c = Some (n, m').
Proof.
  intros Hm. unfold turn_wrap_channel_data, sizeof_channel_data_header, BUFFER_SIZE in *. pose proof (zlen_nonneg d).
  destruct (negb _); [by eexists _, _|]. destruct (_ <=? _); [by eexists _, _|].
  destruct (_ <? _) eqn:Hs; [by eexists _, _|].
  destruct (store_total m 4 d) as (m1 & -> & Hm1); [lia|lia|]. cbn [mbind option_bind].
  destruct (store_total m1 0 (be 2 (u16 c))) as (m2 & -> & Hm2); [lia|rewrite zlen_be; lia|]. cbn [mbind option_bind].
  destruct (store_total m2 2 (be 2 (u16 (zlen d)))) as (m3 & -> & Hm3); [lia|rewrite zlen_be; lia|]. by eexists _, _.
Qed.

Lemma forward_to_client_wp a buf r s : server_wf s -> turn_map_ok (alloc_map a) -> record_wf r -> bytes buf ->
  zlen buf <= FORWARD_SIZE -> wp (forward_to_client uninit stack e a buf r) (fun _ s' => s' = s) s.
Proof using Huninit Hstack H0 Htid.
  intros Hs Hm Hr Hb Hl. unfold forward_to_client. apply wp_bind.
  eapply wp_defined; [by apply turn_get_bound_channel_eq, Hm|]. destruct (from_option _ _ _) as [c|].
  - destruct (turn_wrap_channel_data_total (buf ++ drop (length buf) stack) buf c) as (n & m & Hw).
    { unfold FORWARD_SIZE, BUFFER_SIZE, zlen in *. rewrite length_app, length_drop. lia. }
    apply wp_bind. eapply wp_defined; [exact Hw|]. cbv iota beta. destruct (n <=? 0); [by apply wp_ret|].
    apply wp_bind, wp_get. by apply send_from_wp.
  - destruct (data_indication_size (random_tid e) r buf Htid Hr Hb Hl) as [Hw Hsize]. unfold server_stun_send.
    fold (data_indication (random_tid e) r buf). unfold BUFFER_SIZE in *.
    destruct (stun_write_spec uninit Huninit _ Hw None stack) as (rest & Hwr & _); [lia..|]. rewrite Hstack in Hwr.
    apply wp_bind. eapply wp_defined; [exact Hwr|]. cbv iota beta. destruct (_ <=? 0); [by apply wp_ret|].
    apply wp_bind, wp_bind, wp_get, send_from_wp. intros x. by apply wp_ret.
Qed.

Lemma unmapped_wf r : record_wf r -> let '(_, sa, len_) := addr_unmap_inet6_v4mapped (addr r) (len r) in sockaddr_wf sa.
Proof.
  unfold record_wf. destruct (addr r) as [p a|p a|f]; cbn [addr_unmap_inet6_v4mapped]; try done.
  intros (Hp & Hb & Hl). destruct (IN6_IS_ADDR_V4MAPPED a); [|done]. split; [done|]. split.
  - by apply Forall_take, Forall_drop.
  - rewrite length_take, length_drop. lia.
Qed.

(** What [recvfrom] gives: bytes, and an address of the system. *)
Definition received_ok (limit : Z) (x : received_t) : Prop :=
  match x with Datagram buf src => bytes buf /\ zlen buf <= limit /\ record_wf src | _ => True end.

Lemma server_forward_wp a x s : server_wf s -> turn_map_ok (alloc_map a) -> received_ok FORWARD_SIZE x ->
  wp (server_forward uninit stack e a x) (fun _ s' => s' = s) s.
Proof using Huninit Hstack H0 Htid.
  intros Hs Hm Hx. destruct x as [buf r| |]; [|by apply wp_ret..]. destruct Hx as (Hb & Hl & Hr).
  cbn [server_forward]. unfold forward_datagram. pose proof (unmapped_wf r Hr) as Hu.
  destruct (addr_unmap_inet6_v4mapped (addr r) (len r)) as [ [b sa] len_]. apply wp_bind.
  eapply wp_defined; [by apply turn_has_permission_eq, Hm|]. destruct (negb _); [by apply wp_ret|].
  by apply forward_to_client_wp.
Qed.

(** Any number of datagrams from the socket of the server. *)
Lemma server_recv_wp l : Forall (received_ok BUFFER_SIZE) l -> forall s, server_wf s -> books_ok s ->
  wp (server_recv sockaddr_bytes getaddrinfo uninit stack e l) (fun _ s' => server_wf s' /\ same_books s s') s.
Proof using Huninit Hstack H0 Hnames Hlocal.
  induction 1 as [|x l Hx _ IH]; intros s Hs Hb; cbn [server_recv].
  { apply wp_ret. split; [done|by apply same_books_refl]. }
  destruct x as [buf r| |]; [|apply wp_ret; (split; [done|by apply same_books_refl])..].
  destruct (zlen buf =? 0); [by apply IH|]. destruct Hx as (Hbuf & _ & Hr). pose proof (unmapped_wf r Hr) as Hu.
  destruct (addr_unmap_inet6_v4mapped (addr r) (len r)) as [ [b sa] len_]. apply wp_bind.
  destruct (server_input_wp buf {| addr := sa; len := len_; socktype := socktype r |} s Hs Hb Hbuf Hu)
    as (x & s1 & tr & Hrun & Hs1).
  exists x, s1, tr. split; [done|]. pose proof (server_input_books _ _ _ _ _ _ _ _ _ _ _ Hb Hrun) as Hb1.
  eapply wp_mono; [apply IH; [done|apply Hb1]|]. intros y s2 [Hs2 Hb2]. split; [done|].
  by eapply same_books_trans.
Qed.

Lemma forward_all_wp slots : Forall (fun x => forall y, x = Some y -> received_ok FORWARD_SIZE y) slots ->
  forall i s, server_wf s -> wp (forward_all uninit stack e slots i) (fun _ s' => s' = s) s.
Proof using Huninit Hstack H0 Htid.
  induction 1 as [|x slots Hx _ IH]; intros i s Hs; cbn [forward_all]; [by apply wp_ret|].
  apply wp_bind, wp_get, wp_bind. destruct (allocs s !! i) as [a|] eqn:Ha; [|by apply wp_ret, IH].
  destruct x as [x|]; [|by apply wp_ret, IH]. case_bool_decide as Hf; [|by apply wp_ret, IH].
  apply wp_bind. eapply wp_mono; [apply server_forward_wp; [done|by apply (slot_map s i)|by apply Hx]|].
  intros y s' ->. by apply wp_ret, IH.
Qed.
End Total.

(** ** Bookkeeping of permanent users *)

Definition permanent (t : Z) : Prop := t = 0.

Lemma delete_allocation_wf live i s x s' tr : server_wf live s -> delete_allocation i s = Some (x, s', tr) ->
  server_wf live s'.
Proof.
  intros Hs Hr. unfold delete_allocation in Hr. run_cases; [done|]. apply add_quota_run in H1 as (_ & -> & _).
  apply put_alloc_run in Hr as (-> & _). apply server_wf_put; [|done]. apply server_wf_nodes; [done|].
  intros n Hn. unfold bump. destruct (bool_decide (node_id n = _)); exact Hn.
Qed.

Lemma expire_allocations_wf live e (n : nat) : forall i next s x s' tr, server_wf live s ->
  expire_allocations e n i next s = Some (x, s', tr) -> server_wf live s'.
Proof.
  induction n as [|n IH]; intros i next s x s' tr Hs Hr; cbn [expire_allocations] in Hr; [by run_inv|].
  run_cases; try (by eapply IH). eapply IH; [|exact Hr]. by eapply delete_allocation_wf.
Qed.

(** Nothing of a list of permanent users is filtered out. *)
Lemma permanent_kept e (l : list juice_credentials_list_t) : Forall (user_ok permanent) l ->
  List.filter (fun n => negb (negb (node_timestamp n =? 0) && (node_timestamp n <=? now e))) l = l.
Proof.
  induction 1 as [|n l (_ & _ & _ & Ht) _ IH]; [done|]. cbn. rewrite Ht. cbn. by rewrite IH.
Qed.

Lemma server_bookkeeping_wp e s : server_wf permanent s -> books_ok s ->
  wp (server_bookkeeping e) (fun _ s' => server_wf permanent s' /\ same_books s s') s.
Proof.
  intros Hs Hb. apply wp_bind, wp_get, wp_bind.
  destruct (expire_allocations_run e (length (allocs s)) s 0 (now e + 60000) Hb eq_refl) as (s1 & tr & Hrun & HB & _).
  pose proof (expire_allocations_wf _ _ _ _ _ _ _ _ _ Hs Hrun) as Hs1. eexists _, s1, tr. split; [exact Hrun|].
  apply wp_bind, wp_get, wp_bind, wp_put, wp_ret. rewrite permanent_kept by apply Hs1. destruct s1. by split.
Qed.

(** ** The thread *)

(** A round with what the system may give: addresses of the host, a random
    transaction id, datagrams of bytes. *)
Definition round_ok (r : round) : Prop :=
  Forall record_wf (snd (local_addrs (after_poll r))) /\
  (bytes (random_tid (after_poll r)) /\ zlen (random_tid (after_poll r)) = 12) /\
  match poll_result r with
  | Polled ready slots =>
      (forall l, ready = Some l -> Forall (received_ok BUFFER_SIZE) l) /\
      Forall (fun x => forall y, x = Some y -> received_ok FORWARD_SIZE y) slots
  | _ => True
  end.

Section Thread.
Context `{CryptoLaws} (sockaddr_bytes : addr_record_t -> list Z)
        (getaddrinfo : list Z -> list Z -> Z -> option (list addrinfo)) (uninit stack : list Z).
Context (Huninit : bytes uninit /\ zlen uninit = 2) (Hstack : zlen stack = BUFFER_SIZE)
        (Hnames : forall host service type l, getaddrinfo host service type = Some l ->
           Forall (fun ai => sockaddr_wf (ai_addr ai)) l).

Lemma server_run_wp l : Forall round_ok l -> forall s, server_wf permanent s -> books_ok s ->
  wp (server_run sockaddr_bytes getaddrinfo uninit stack l) (fun _ s' => server_wf permanent s' /\ same_books s s') s.
Proof using Huninit Hstack H0 Hnames.
  induction 1 as [|r l (Hl & Ht & Hp) _ IH]; intros s Hs Hb; cbn [server_run].
  { apply wp_ret. split; [done|by apply same_books_refl]. }
  apply wp_bind. eapply wp_mono; [by apply server_bookkeeping_wp|]. intros next s1 [Hs1 Hb1].
  assert (Hrest : forall s2, server_wf permanent s2 -> same_books s s2 ->
    wp (server_run sockaddr_bytes getaddrinfo uninit stack l) (fun _ s' => server_wf permanent s' /\ same_books s s') s2).
  { intros s2 Hs2 Hb2. eapply wp_mono; [apply IH; [done|apply Hb2]|]. intros x s3 [Hs3 Hb3].
    split; [done|by eapply same_books_trans]. }
  destruct (poll_result r) as [| | | |ready slots]; [by apply Hrest|by apply wp_ret..|]. destruct Hp as [Hready Hslots].
  apply wp_bind. assert (Hrecv : wp (match ready with
    | Some received => server_recv sockaddr_bytes getaddrinfo uninit stack (after_poll r) received
    | None => mret 0 end) (fun _ s' => server_wf permanent s' /\ same_books s s') s1).
  { destruct ready as [received|]; [|by apply wp_ret].
    eapply wp_mono; [apply (server_recv_wp permanent); auto; apply Hb1|]. intros x s2 [Hs2 Hb2].
    split; [done|by eapply same_books_trans]. }
  eapply wp_mono; [exact Hrecv|]. intros ret s2 [Hs2 Hb2]. destruct (ret <? 0); [by apply wp_ret|].
  apply wp_bind. eapply wp_mono; [by apply (forward_all_wp permanent)|]. intros [] s3 ->. by apply Hrest.
Qed.
End Thread.

(** ** Creation *)

Section Creation.
Context `{CryptoLaws} (e : env).

Definition names_ok (c : option (list Z) * option (list Z) * Z) : Prop :=
  bytes (default [] c.1.1) /\ 0 <= c.2.

Lemma userhash_digest u r : bytes (stun_compute_userhash u r) /\ zlen (stun_compute_userhash u r) = USERHASH_SIZE.
Proof. unfold stun_compute_userhash. destruct (snprintf _ _) as [n o]. split; apply sha256_digest. Qed.

Lemma add_all_wf creds : forall s x s' tr, Forall names_ok creds -> Forall (user_ok permanent) (server_credentials s) ->
  add_all e creds s = Some (x, s', tr) ->
  Forall (user_ok permanent) (server_credentials s') /\ allocs s' = allocs s /\
  server_realm (config s') = server_realm (config s) /\ max_peers (config s') = max_peers (config s).
Proof.
  induction creds as [|[ [u p] q] creds IH]; intros s x s' tr Hc Hu Hr; cbn [add_all] in Hr; [by run_inv|].
  inversion Hc as [|? ? [Hb Hq] Hc']; subst. run_inv.
  match goal with H : (if _ then _ else _) _ = Some (_, ?s1, _) |- _ =>
    assert (Hsame : server_credentials s1 = server_credentials s /\ allocs s1 = allocs s /\
      server_realm (config s1) = server_realm (config s) /\ max_peers (config s1) = max_peers (config s))
      by (run_cases; done) end.
  unfold server_do_add_credentials in *. run_inv. destruct Hsame as (E1 & E2 & E3 & E4).
  apply IH in Hr as (F1 & F2 & F3 & F4); [|done|].
  - split; [done|]. split; [by rewrite F2|]. split; [by rewrite F3|by rewrite F4].
  - cbn [with_next_id with_nodes server_credentials]. constructor; [|by rewrite E1].
    split; [done|]. cbn [node_userhash node_timestamp]. split; [|split; [|reflexivity] ]; apply userhash_digest.
Qed.

Lemma server_create_wf max peers external realm creds : new_sock e <> INVALID_SOCKET -> 0 <= peers ->
  bytes (default [] realm) -> creds <> [] -> Forall names_ok creds ->
  exists s, server_create e max peers external realm creds = Some (Some s) /\ books_ok s /\ server_wf permanent s.
Proof.
  intros Hsock Hpeers Hrealm Hne Hc.
  destruct (server_create_books e max peers external realm creds Hsock) as (s & Hs & Hb & Ha).
  { eapply Forall_impl; [|exact Hc]. by intros c [_ ?]. }
  exists s. split; [done|]. split; [done|]. unfold server_create in Hs. rewrite (proj2 (Z.eqb_neq _ _) Hsock) in Hs.
  match type of Hs with context [add_all _ _ ?s0] => set (s0' := s0) in Hs end.
  destruct (add_all e creds s0') as [ [ [x s1] tr]|] eqn:Hadd; [|done]. injection Hs as <-.
  apply add_all_wf in Hadd as (F1 & F2 & F3 & F4); [|done|constructor].
  assert (Hal : allocs s1 = replicate (Z.to_nat (if 0 <? max then max else SERVER_DEFAULT_MAX_ALLOCATIONS)) alloc_zero)
    by (cbn [with_nodes allocs] in Ha; rewrite Ha; by destruct creds).
  split; cbn [with_nodes allocs config server_credentials].
  - unfold allocs_count, zlen. cbn [with_nodes allocs]. rewrite Hal, length_replicate.
    unfold SERVER_DEFAULT_MAX_ALLOCATIONS. destruct (0 <? max) eqn:?; lia.
  - rewrite F3. cbn. destruct realm as [ [|b r]|]; [by apply bytes_forallb|done|by apply bytes_forallb].
  - rewrite F4. cbn. unfold SERVER_DEFAULT_MAX_PEERS. destruct (peers =? 0) eqn:?; lia.
  - apply Forall_fmap. eapply Forall_impl; [|exact F1]. intros n Hn. unfold compose, default_quota.
    destruct (allocations_quota (node_credentials n) =? 0); exact Hn.
  - rewrite Hal. apply Forall_replicate. discriminate.
Qed.
End Creation.

Lemma usage_free n id : usage (replicate n alloc_zero) id = 0.
Proof.
  induction n as [|n IH]; [done|]. change (owned alloc_zero id + usage (replicate n alloc_zero) id = 0).
  by rewrite IH.
Qed.

(** ** Theorems *)

(** C3: no datagram is undefined behaviour.  A server with TURN enabled whose books
    are in order handles any sequence of bytes from any address: it never reads or
    writes out of bounds, follows a pointer that is not valid or searches its
    table without end; and after it the books are in order, every map of an
    allocation is well formed, the sum of quota and use of every user is the same,
    and all that was sent was allowed. *)
Theorem server_input_safe `{CryptoLaws} (live : Z -> Prop) (sockaddr_bytes : addr_record_t -> list Z)
    (getaddrinfo : list Z -> list Z -> Z -> option (list addrinfo)) (uninit stack : list Z) (e : env)
    (buf : list Z) (src : addr_record_t) (s : juice_server_t) :
  bytes uninit /\ zlen uninit = 2 -> zlen stack = BUFFER_SIZE ->
  (forall host service type l, getaddrinfo host service type = Some l ->
     Forall (fun ai => sockaddr_wf (ai_addr ai)) l) ->
  Forall record_wf (snd (local_addrs e)) -> books_ok s -> server_wf live s -> bytes buf -> record_wf src ->
  exists r s' tr, server_input sockaddr_bytes getaddrinfo uninit stack e buf src s = Some (r, s', tr) /\
    books_ok s' /\ server_wf live s' /\ (forall id, balance s' id = balance s id) /\ Forall (allowed e s src) tr.
Proof.
  intros Hu Hst Hn Hl Hb Hs Hbuf Hsrc.
  destruct (server_input_wp live sockaddr_bytes getaddrinfo uninit stack e Hu Hst Hn Hl buf src s Hs Hb Hbuf Hsrc)
    as (r & s' & tr & Hr & Hs').
  destruct (server_input_books _ _ _ _ _ _ _ _ _ _ _ Hb Hr) as (Hb' & Hbal & _).
  exists r, s', tr. split; [done|]. split; [done|]. split; [done|]. split; [done|].
  by eapply server_input_allowed; [apply Hb|].
Qed.

(** C2: the thread of a server never fails.  A server created with users that do not
    expire and no negative quota runs any number of rounds (bookkeeping, any
    datagrams on its socket, datagrams of up to 4000 bytes on the sockets of its
    allocations) without undefined behaviour, and at the end no user has more
    allocations than its quota at the start. *)
Theorem server_run_safe `{CryptoLaws} (sockaddr_bytes : addr_record_t -> list Z)
    (getaddrinfo : list Z -> list Z -> Z -> option (list addrinfo)) (uninit stack : list Z) (e : env)
    (max peers : Z) (external realm : option (list Z)) (creds : list (option (list Z) * option (list Z) * Z))
    (rounds : list round) :
  bytes uninit /\ zlen uninit = 2 -> zlen stack = BUFFER_SIZE ->
  (forall host service type l, getaddrinfo host service type = Some l ->
     Forall (fun ai => sockaddr_wf (ai_addr ai)) l) ->
  new_sock e <> INVALID_SOCKET -> 0 <= peers -> bytes (default [] realm) -> creds <> [] -> Forall names_ok creds ->
  Forall round_ok rounds ->
  exists s s' tr, server_create e max peers external realm creds = Some (Some s) /\
    server_run sockaddr_bytes getaddrinfo uninit stack rounds s = Some (tt, s', tr) /\
    (forall id n, find_node id (server_credentials s) = Some n ->
       usage (allocs s') id <= allocations_quota (node_credentials n)).
Proof.
  intros Hu Hst Hn Hsock Hp Hr Hne Hc Hrounds.
  destruct (server_create_wf e max peers external realm creds Hsock Hp Hr Hne Hc) as (s & Hs & Hb & Hw).
  destruct (server_run_wp sockaddr_bytes getaddrinfo uninit stack Hu Hst Hn rounds Hrounds s Hw Hb)
    as ([] & s' & tr & Hrun & _ & Hb' & Hbal & _).
  exists s, s', tr. split; [done|]. split; [done|]. intros id n Hfind. specialize (Hbal id).
  assert (Hz : usage (allocs s) id = 0).
  { destruct (server_create_books e max peers external realm creds Hsock) as (s1 & Hs1 & _ & Ha).
    { eapply Forall_impl; [|exact Hc]. by intros c [_ ?]. }
    rewrite Hs in Hs1. injection Hs1 as <-. rewrite Ha. destruct creds; [done|]. apply usage_free. }
  unfold balance in Hbal. rewrite Hfind in Hbal. cbn in Hbal. rewrite Hz in Hbal.
  destruct (find_node id (server_credentials s')) as [n'|] eqn:Hf'; [|done]. cbn in Hbal. injection Hbal as Hbal.
  pose proof (bok_quota _ Hb' id n' Hf'). lia.
Qed.

(** ** Witnesses *)

Lemma example_stack_size : zlen (replicate 4096 0) = BUFFER_SIZE.
Proof. reflexivity. Qed.

Lemma example_peer_wf n port : is_byte n -> 0 <= port < 65536 -> record_wf (example_peer n port).
Proof. intros Hn Hp. split; [done|]. split; [|done]. by repeat (constructor; [unfold is_byte in *; lia|]). Qed.

Lemma example_user_names : Forall names_ok example_user.
Proof. constructor; [|constructor]. split; [by apply bytes_forallb|done]. Qed.

Lemma example_server_wf : server_wf permanent (example_server 4 example_user).
Proof.
  unfold example_server.
  destruct (@server_create_wf sum_crypto sum_crypto_laws (example_env 0) 4 4 None None example_user)
    as (s & -> & _ & Hs); [done|lia|constructor|done|apply example_user_names|exact Hs].
Qed.

(** An unauthenticated Allocate request, as any datagram, is handled. *)
Lemma server_input_safe_witness :
  exists r s' tr, example_input 1000 example_datagram client (example_server 4 example_user) = Some (r, s', tr) /\
    Forall (allowed (example_env 1000) (example_server 4 example_user) client) tr.
Proof.
  destruct (@server_input_safe sum_crypto sum_crypto_laws permanent example_bytes no_names [0; 0] (replicate 4096 0)
    (example_env 1000) example_datagram client (example_server 4 example_user)) as (r & s' & tr & Hr & _ & _ & _ & Ha).
  - split; [by apply bytes_forallb|done].
  - exact example_stack_size.
  - done.
  - constructor; [by apply example_peer_wf|constructor].
  - by apply example_server_books.
  - exact example_server_wf.
  - by apply bytes_forallb.
  - by apply example_peer_wf.
  - exists r, s', tr. split; [exact Hr|exact Ha].
Defined.

(** A round in which a ChannelData datagram comes to the server and another one to
    the first slot, then one that is interrupted. *)
Definition example_rounds : list round :=
  [{| before_poll := example_env 0;
      poll_result := Polled (Some [Datagram [64; 0; 0; 0] client; WouldBlock]) [Some (Datagram [1] peer)];
      after_poll := example_env 5 |};
   {| before_poll := example_env 60000; poll_result := PollInterrupted; after_poll := example_env 60005 |}].

Lemma example_rounds_ok : Forall round_ok example_rounds.
Proof.
  assert (Hl : forall t, Forall record_wf (snd (local_addrs (example_env t))) /\
    (bytes (random_tid (example_env t)) /\ zlen (random_tid (example_env t)) = 12)).
  { intros t. split; [constructor; [by apply example_peer_wf|constructor]|]. split; [by apply bytes_forallb|done]. }
  assert (Hp : record_wf client /\ record_wf peer) by (split; by apply example_peer_wf).
  constructor; [|constructor; [|constructor] ]; (split; [apply Hl|split; [apply Hl|] ]); cbn [poll_result]; [|done].
  split.
  - intros l [= <-]. constructor; [|by repeat constructor]. split; [by apply bytes_forallb|]. split; [done|apply Hp].
  - constructor; [|constructor]. intros y [= <-]. split; [by apply bytes_forallb|]. split; [done|apply Hp].
Qed.

Lemma server_run_safe_witness :
  exists s s' tr, @server_create sum_crypto (example_env 0) 4 4 None None example_user = Some (Some s) /\
    @server_run sum_crypto example_bytes no_names [0; 0] (replicate 4096 0) example_rounds s = Some (tt, s', tr).
Proof.
  destruct (@server_run_safe sum_crypto sum_crypto_laws example_bytes no_names [0; 0] (replicate 4096 0)
    (example_env 0) 4 4 None None example_user example_rounds) as (s & s' & tr & Hs & Hr & _).
  - split; [by apply bytes_forallb|done].
  - exact example_stack_size.
  - done.
  - done.
  - lia.
  - constructor.
  - done.
  - exact example_user_names.
  - exact example_rounds_ok.
  - exists s, s', tr. split; [exact Hs|exact Hr].
Defined.
