(* ===== verification/AgentTypes.v ===== *)
(** * The state of the ICE agent (src/agent.h)

    The data of an agent: its entries, pairs and descriptions, what it does to the
    outside and what the system gives it.  Pointers into the arrays of the agent
    are indices of the lists of their used elements: a pair points to candidates
    of the local or remote description, an entry to a pair and to the entry of its
    relay.  What is behind the used part of a description is zero.  Times are integers
    without bounds; in the code they are milliseconds in 64 bits, which do not wrap. *)

From S2P Require Import Prelude Effects CText Addr Turn Ice IceSdp StunTypes StunWrite StunRead.

(** ** Constants *)

Definition MIN_STUN_RETRANSMISSION_TIMEOUT : Z := 500.
Definition LAST_STUN_RETRANSMISSION_TIMEOUT : Z := MIN_STUN_RETRANSMISSION_TIMEOUT * 16.
Definition MAX_STUN_CHECK_RETRANSMISSION_COUNT : Z := 6.
Definition MAX_STUN_SERVER_RETRANSMISSION_COUNT : Z := 5.
Definition STUN_TCP_TIMEOUT : Z := LAST_STUN_RETRANSMISSION_TIMEOUT.
Definition STUN_PACING_TIME : Z := 50.
Definition STUN_KEEPALIVE_PERIOD : Z := 15000.
Definition ICE_PAC_TIMEOUT : Z := 39500.
Definition CONSENT_TIMEOUT : Z := 30000.
Definition MIN_CONSENT_CHECK_PERIOD : Z := 4000.
Definition MAX_CONSENT_CHECK_PERIOD : Z := 6000.
Definition NOMINATION_TIMEOUT : Z := 2000.
Definition TURN_LIFETIME : Z := 600000.
Definition TURN_REFRESH_PERIOD : Z := TURN_LIFETIME - 60000.
Definition MAX_SERVER_ENTRIES_COUNT : Z := 2.
Definition MAX_RELAY_ENTRIES_COUNT : Z := 2.
Definition MAX_TURN_REDIRECTIONS : Z := 1.
Definition MAX_STUN_SERVER_RECORDS_COUNT : Z := MAX_SERVER_ENTRIES_COUNT.
Definition MAX_HOST_CANDIDATES_COUNT : Z := (ICE_MAX_CANDIDATES_COUNT - MAX_STUN_SERVER_RECORDS_COUNT) / 2.
Definition MAX_PEER_REFLEXIVE_CANDIDATES_COUNT : Z := MAX_HOST_CANDIDATES_COUNT.
Definition MAX_CANDIDATE_PAIRS_COUNT : Z := ICE_MAX_CANDIDATES_COUNT * (1 + MAX_RELAY_ENTRIES_COUNT).
Definition MAX_STUN_ENTRIES_COUNT : Z := MAX_CANDIDATE_PAIRS_COUNT + MAX_STUN_SERVER_RECORDS_COUNT.
Definition AGENT_TURN_MAP_SIZE : Z := ICE_MAX_CANDIDATES_COUNT.
Definition PERMISSION_LIFETIME : Z := 300000.
Definition BIND_LIFETIME : Z := 600000.
Definition BUFFER_SIZE : Z := 4096.
Definition DEFAULT_MAX_RECORDS_COUNT : Z := 8.

Definition JUICE_ERR_SUCCESS : Z := 0.
Definition JUICE_ERR_INVALID : Z := -1.
Definition JUICE_ERR_FAILED : Z := -2.
Definition JUICE_ERR_NOT_AVAIL : Z := -3.
Definition JUICE_ERR_IGNORED : Z := -4.

(** ** Data *)

Inductive juice_state_t :=
| JUICE_STATE_DISCONNECTED
| JUICE_STATE_GATHERING
| JUICE_STATE_CONNECTING
| JUICE_STATE_CONNECTED
| JUICE_STATE_COMPLETED
| JUICE_STATE_FAILED.

Inductive juice_concurrency_mode_t :=
| JUICE_CONCURRENCY_MODE_POLL
| JUICE_CONCURRENCY_MODE_MUX
| JUICE_CONCURRENCY_MODE_THREAD.

Inductive juice_ice_tcp_mode_t :=
| JUICE_ICE_TCP_MODE_NONE
| JUICE_ICE_TCP_MODE_ACTIVE.

Inductive agent_mode_t :=
| AGENT_MODE_UNKNOWN
| AGENT_MODE_CONTROLLED
| AGENT_MODE_CONTROLLING.

Inductive agent_stun_entry_type_t :=
| AGENT_STUN_ENTRY_TYPE_EMPTY
| AGENT_STUN_ENTRY_TYPE_SERVER
| AGENT_STUN_ENTRY_TYPE_RELAY
| AGENT_STUN_ENTRY_TYPE_CHECK.

Inductive agent_stun_entry_state_t :=
| AGENT_STUN_ENTRY_STATE_PENDING
| AGENT_STUN_ENTRY_STATE_CANCELLED
| AGENT_STUN_ENTRY_STATE_FAILED
| AGENT_STUN_ENTRY_STATE_SUCCEEDED
| AGENT_STUN_ENTRY_STATE_SUCCEEDED_KEEPALIVE
| AGENT_STUN_ENTRY_STATE_IDLE.

Inductive tcp_state_t :=
| TCP_STATE_DISCONNECTED
| TCP_STATE_CONNECTING
| TCP_STATE_CONNECTED
| TCP_STATE_FAILED.

#[global] Instance juice_state_eq_dec : EqDecision juice_state_t.
Proof. solve_decision. Defined.
#[global] Instance juice_concurrency_mode_eq_dec : EqDecision juice_concurrency_mode_t.
Proof. solve_decision. Defined.
#[global] Instance juice_ice_tcp_mode_eq_dec : EqDecision juice_ice_tcp_mode_t.
Proof. solve_decision. Defined.
#[global] Instance agent_mode_eq_dec : EqDecision agent_mode_t.
Proof. solve_decision. Defined.
#[global] Instance agent_stun_entry_type_eq_dec : EqDecision agent_stun_entry_type_t.
Proof. solve_decision. Defined.
#[global] Instance agent_stun_entry_state_eq_dec : EqDecision agent_stun_entry_state_t.
Proof. solve_decision. Defined.
#[global] Instance tcp_state_eq_dec : EqDecision tcp_state_t.
Proof. solve_decision. Defined.

Record juice_turn_server_t := {
  host : option (list Z);
  ts_username : list Z;
  ts_password : option (list Z);
  port : Z
}.

(** The parts of the configuration that the agent itself uses. *)
Record juice_config_t := {
  concurrency_mode : juice_concurrency_mode_t;
  stun_server_host : option (list Z);
  stun_server_port : Z;
  turn_servers : list juice_turn_server_t
}.

Record agent_turn_state_t := {
  turn_map : turn_map_t;
  turn_credentials : stun_credentials_t;
  turn_password : option (list Z)
}.

Definition with_turn_map (t : agent_turn_state_t) (m : turn_map_t) : agent_turn_state_t :=
  {| turn_map := m; turn_credentials := turn_credentials t; turn_password := turn_password t |}.
Definition with_turn_credentials (t : agent_turn_state_t) (c : stun_credentials_t) : agent_turn_state_t :=
  {| turn_map := turn_map t; turn_credentials := c; turn_password := turn_password t |}.

Record agent_stun_entry_t := {
  e_type : agent_stun_entry_type_t;
  e_state : agent_stun_entry_state_t;
  e_mode : agent_mode_t;
  e_pair : option nat;
  e_record : addr_record_t;
  e_relayed : addr_record_t;
  e_transaction_id : list Z;
  e_next_transmission : Z;
  e_retransmission_timeout : Z;
  e_retransmissions : Z;
  e_transaction_id_expired : bool;
  e_tcp_state : tcp_state_t;
  e_turn : option agent_turn_state_t;
  e_turn_redirections : Z;
  e_relay_entry : option nat
}.

Definition set_e_state (x : agent_stun_entry_t) (v : agent_stun_entry_state_t) : agent_stun_entry_t :=
  Build_agent_stun_entry_t (e_type x) v (e_mode x) (e_pair x) (e_record x) (e_relayed x)
    (e_transaction_id x) (e_next_transmission x) (e_retransmission_timeout x) (e_retransmissions x)
    (e_transaction_id_expired x) (e_tcp_state x) (e_turn x) (e_turn_redirections x) (e_relay_entry x).
Definition set_e_mode (x : agent_stun_entry_t) (v : agent_mode_t) : agent_stun_entry_t :=
  Build_agent_stun_entry_t (e_type x) (e_state x) v (e_pair x) (e_record x) (e_relayed x)
    (e_transaction_id x) (e_next_transmission x) (e_retransmission_timeout x) (e_retransmissions x)
    (e_transaction_id_expired x) (e_tcp_state x) (e_turn x) (e_turn_redirections x) (e_relay_entry x).
Definition set_e_record (x : agent_stun_entry_t) (v : addr_record_t) : agent_stun_entry_t :=
  Build_agent_stun_entry_t (e_type x) (e_state x) (e_mode x) (e_pair x) v (e_relayed x)
    (e_transaction_id x) (e_next_transmission x) (e_retransmission_timeout x) (e_retransmissions x)
    (e_transaction_id_expired x) (e_tcp_state x) (e_turn x) (e_turn_redirections x) (e_relay_entry x).
Definition set_e_relayed (x : agent_stun_entry_t) (v : addr_record_t) : agent_stun_entry_t :=
  Build_agent_stun_entry_t (e_type x) (e_state x) (e_mode x) (e_pair x) (e_record x) v
    (e_transaction_id x) (e_next_transmission x) (e_retransmission_timeout x) (e_retransmissions x)
    (e_transaction_id_expired x) (e_tcp_state x) (e_turn x) (e_turn_redirections x) (e_relay_entry x).
Definition set_e_transaction_id (x : agent_stun_entry_t) (v : list Z) : agent_stun_entry_t :=
  Build_agent_stun_entry_t (e_type x) (e_state x) (e_mode x) (e_pair x) (e_record x) (e_relayed x) v
    (e_next_transmission x) (e_retransmission_timeout x) (e_retransmissions x)
    (e_transaction_id_expired x) (e_tcp_state x) (e_turn x) (e_turn_redirections x) (e_relay_entry x).
Definition set_e_next_transmission (x : agent_stun_entry_t) (v : Z) : agent_stun_entry_t :=
  Build_agent_stun_entry_t (e_type x) (e_state x) (e_mode x) (e_pair x) (e_record x) (e_relayed x)
    (e_transaction_id x) v (e_retransmission_timeout x) (e_retransmissions x)
    (e_transaction_id_expired x) (e_tcp_state x) (e_turn x) (e_turn_redirections x) (e_relay_entry x).
Definition set_e_retransmission_timeout (x : agent_stun_entry_t) (v : Z) : agent_stun_entry_t :=
  Build_agent_stun_entry_t (e_type x) (e_state x) (e_mode x) (e_pair x) (e_record x) (e_relayed x)
    (e_transaction_id x) (e_next_transmission x) v (e_retransmissions x) (e_transaction_id_expired x)
    (e_tcp_state x) (e_turn x) (e_turn_redirections x) (e_relay_entry x).
Definition set_e_retransmissions (x : agent_stun_entry_t) (v : Z) : agent_stun_entry_t :=
  Build_agent_stun_entry_t (e_type x) (e_state x) (e_mode x) (e_pair x) (e_record x) (e_relayed x)
    (e_transaction_id x) (e_next_transmission x) (e_retransmission_timeout x) v
    (e_transaction_id_expired x) (e_tcp_state x) (e_turn x) (e_turn_redirections x) (e_relay_entry x).
Definition set_e_transaction_id_expired (x : agent_stun_entry_t) (v : bool) : agent_stun_entry_t :=
  Build_agent_stun_entry_t (e_type x) (e_state x) (e_mode x) (e_pair x) (e_record x) (e_relayed x)
    (e_transaction_id x) (e_next_transmission x) (e_retransmission_timeout x) (e_retransmissions x) v
    (e_tcp_state x) (e_turn x) (e_turn_redirections x) (e_relay_entry x).
Definition set_e_tcp_state (x : agent_stun_entry_t) (v : tcp_state_t) : agent_stun_entry_t :=
  Build_agent_stun_entry_t (e_type x) (e_state x) (e_mode x) (e_pair x) (e_record x) (e_relayed x)
    (e_transaction_id x) (e_next_transmission x) (e_retransmission_timeout x) (e_retransmissions x)
    (e_transaction_id_expired x) v (e_turn x) (e_turn_redirections x) (e_relay_entry x).
Definition set_e_turn (x : agent_stun_entry_t) (v : option agent_turn_state_t) : agent_stun_entry_t :=
  Build_agent_stun_entry_t (e_type x) (e_state x) (e_mode x) (e_pair x) (e_record x) (e_relayed x)
    (e_transaction_id x) (e_next_transmission x) (e_retransmission_timeout x) (e_retransmissions x)
    (e_transaction_id_expired x) (e_tcp_state x) v (e_turn_redirections x) (e_relay_entry x).
Definition set_e_turn_redirections (x : agent_stun_entry_t) (v : Z) : agent_stun_entry_t :=
  Build_agent_stun_entry_t (e_type x) (e_state x) (e_mode x) (e_pair x) (e_record x) (e_relayed x)
    (e_transaction_id x) (e_next_transmission x) (e_retransmission_timeout x) (e_retransmissions x)
    (e_transaction_id_expired x) (e_tcp_state x) (e_turn x) v (e_relay_entry x).

(** A pointer to a candidate of one of the descriptions. *)
Inductive candidate_ptr := Local (i : nat) | Remote (i : nat).

#[global] Instance candidate_ptr_eq_dec : EqDecision candidate_ptr.
Proof. solve_decision. Defined.

Abbreviation agent_pair := (ice_candidate_pair_t candidate_ptr).

Definition set_pair_local (p : agent_pair) (v : option candidate_ptr) : agent_pair :=
  {| local := v; remote := remote p; pair_priority := pair_priority p; state := state p; nominated :=
     nominated p; nomination_requested := nomination_requested p; consent_expiry := consent_expiry p |}.
Definition set_pair_state (p : agent_pair) (v : ice_candidate_pair_state_t) : agent_pair :=
  {| local := local p; remote := remote p; pair_priority := pair_priority p; state := v; nominated :=
     nominated p; nomination_requested := nomination_requested p; consent_expiry := consent_expiry p |}.
Definition set_pair_nominated (p : agent_pair) (v : bool) : agent_pair :=
  {| local := local p; remote := remote p; pair_priority := pair_priority p; state := state p; nominated :=
     v; nomination_requested := nomination_requested p; consent_expiry := consent_expiry p |}.
Definition set_pair_nomination_requested (p : agent_pair) (v : bool) : agent_pair :=
  {| local := local p; remote := remote p; pair_priority := pair_priority p; state := state p; nominated :=
     nominated p; nomination_requested := v; consent_expiry := consent_expiry p |}.
Definition set_pair_consent_expiry (p : agent_pair) (v : Z) : agent_pair :=
  {| local := local p; remote := remote p; pair_priority := pair_priority p; state := state p; nominated :=
     nominated p; nomination_requested := nomination_requested p; consent_expiry := v |}.

(** [conn_started] is whether [conn_impl] is set; [draws] counts the random draws. *)
Record juice_agent_t := {
  a_config : juice_config_t;
  a_state : juice_state_t;
  a_mode : agent_mode_t;
  a_ice_tcp_mode : juice_ice_tcp_mode_t;
  a_local : ice_description_t;
  a_remote : ice_description_t;
  candidate_pairs : list (ice_candidate_pair_t candidate_ptr);
  ordered_pairs : list nat;
  selected_pair : option nat;
  entries : list agent_stun_entry_t;
  selected_entry : option nat;
  ice_tiebreaker : Z;
  pac_timestamp : Z;
  nomination_timestamp : Z;
  gathering_done : bool;
  conn_started : bool;
  draws : nat
}.

Definition set_a_config (a : juice_agent_t) (v : juice_config_t) : juice_agent_t :=
  Build_juice_agent_t v (a_state a) (a_mode a) (a_ice_tcp_mode a) (a_local a) (a_remote a)
    (candidate_pairs a) (ordered_pairs a) (selected_pair a) (entries a) (selected_entry a)
    (ice_tiebreaker a) (pac_timestamp a) (nomination_timestamp a) (gathering_done a) (conn_started a)
    (draws a).
Definition set_a_state (a : juice_agent_t) (v : juice_state_t) : juice_agent_t :=
  Build_juice_agent_t (a_config a) v (a_mode a) (a_ice_tcp_mode a) (a_local a) (a_remote a)
    (candidate_pairs a) (ordered_pairs a) (selected_pair a) (entries a) (selected_entry a)
    (ice_tiebreaker a) (pac_timestamp a) (nomination_timestamp a) (gathering_done a) (conn_started a)
    (draws a).
Definition set_a_mode (a : juice_agent_t) (v : agent_mode_t) : juice_agent_t :=
  Build_juice_agent_t (a_config a) (a_state a) v (a_ice_tcp_mode a) (a_local a) (a_remote a)
    (candidate_pairs a) (ordered_pairs a) (selected_pair a) (entries a) (selected_entry a)
    (ice_tiebreaker a) (pac_timestamp a) (nomination_timestamp a) (gathering_done a) (conn_started a)
    (draws a).
Definition set_a_ice_tcp_mode (a : juice_agent_t) (v : juice_ice_tcp_mode_t) : juice_agent_t :=
  Build_juice_agent_t (a_config a) (a_state a) (a_mode a) v (a_local a) (a_remote a) (candidate_pairs a)
    (ordered_pairs a) (selected_pair a) (entries a) (selected_entry a) (ice_tiebreaker a)
    (pac_timestamp a) (nomination_timestamp a) (gathering_done a) (conn_started a) (draws a).
Definition set_a_local (a : juice_agent_t) (v : ice_description_t) : juice_agent_t :=
  Build_juice_agent_t (a_config a) (a_state a) (a_mode a) (a_ice_tcp_mode a) v (a_remote a)
    (candidate_pairs a) (ordered_pairs a) (selected_pair a) (entries a) (selected_entry a)
    (ice_tiebreaker a) (pac_timestamp a) (nomination_timestamp a) (gathering_done a) (conn_started a)
    (draws a).
Definition set_a_remote (a : juice_agent_t) (v : ice_description_t) : juice_agent_t :=
  Build_juice_agent_t (a_config a) (a_state a) (a_mode a) (a_ice_tcp_mode a) (a_local a) v
    (candidate_pairs a) (ordered_pairs a) (selected_pair a) (entries a) (selected_entry a)
    (ice_tiebreaker a) (pac_timestamp a) (nomination_timestamp a) (gathering_done a) (conn_started a)
    (draws a).

Definition set_candidate_pairs (a : juice_agent_t) (v : list (ice_candidate_pair_t candidate_ptr)) : juice_agent_t :=
  Build_juice_agent_t (a_config a) (a_state a) (a_mode a) (a_ice_tcp_mode a) (a_local a) (a_remote a) v
    (ordered_pairs a) (selected_pair a) (entries a) (selected_entry a) (ice_tiebreaker a)
    (pac_timestamp a) (nomination_timestamp a) (gathering_done a) (conn_started a) (draws a).
Definition set_ordered_pairs (a : juice_agent_t) (v : list nat) : juice_agent_t :=
  Build_juice_agent_t (a_config a) (a_state a) (a_mode a) (a_ice_tcp_mode a) (a_local a) (a_remote a)
    (candidate_pairs a) v (selected_pair a) (entries a) (selected_entry a) (ice_tiebreaker a)
    (pac_timestamp a) (nomination_timestamp a) (gathering_done a) (conn_started a) (draws a).
Definition set_selected_pair (a : juice_agent_t) (v : option nat) : juice_agent_t :=
  Build_juice_agent_t (a_config a) (a_state a) (a_mode a) (a_ice_tcp_mode a) (a_local a) (a_remote a)
    (candidate_pairs a) (ordered_pairs a) v (entries a) (selected_entry a) (ice_tiebreaker a)
    (pac_timestamp a) (nomination_timestamp a) (gathering_done a) (conn_started a) (draws a).
Definition set_entries (a : juice_agent_t) (v : list agent_stun_entry_t) : juice_agent_t :=
  Build_juice_agent_t (a_config a) (a_state a) (a_mode a) (a_ice_tcp_mode a) (a_local a) (a_remote a)
    (candidate_pairs a) (ordered_pairs a) (selected_pair a) v (selected_entry a) (ice_tiebreaker a)
    (pac_timestamp a) (nomination_timestamp a) (gathering_done a) (conn_started a) (draws a).
Definition set_selected_entry (a : juice_agent_t) (v : option nat) : juice_agent_t :=
  Build_juice_agent_t (a_config a) (a_state a) (a_mode a) (a_ice_tcp_mode a) (a_local a) (a_remote a)
    (candidate_pairs a) (ordered_pairs a) (selected_pair a) (entries a) v (ice_tiebreaker a)
    (pac_timestamp a) (nomination_timestamp a) (gathering_done a) (conn_started a) (draws a).
Definition set_ice_tiebreaker (a : juice_agent_t) (v : Z) : juice_agent_t :=
  Build_juice_agent_t (a_config a) (a_state a) (a_mode a) (a_ice_tcp_mode a) (a_local a) (a_remote a)
    (candidate_pairs a) (ordered_pairs a) (selected_pair a) (entries a) (selected_entry a) v
    (pac_timestamp a) (nomination_timestamp a) (gathering_done a) (conn_started a) (draws a).
Definition set_pac_timestamp (a : juice_agent_t) (v : Z) : juice_agent_t :=
  Build_juice_agent_t (a_config a) (a_state a) (a_mode a) (a_ice_tcp_mode a) (a_local a) (a_remote a)
    (candidate_pairs a) (ordered_pairs a) (selected_pair a) (entries a) (selected_entry a)
    (ice_tiebreaker a) v (nomination_timestamp a) (gathering_done a) (conn_started a) (draws a).
Definition set_nomination_timestamp (a : juice_agent_t) (v : Z) : juice_agent_t :=
  Build_juice_agent_t (a_config a) (a_state a) (a_mode a) (a_ice_tcp_mode a) (a_local a) (a_remote a)
    (candidate_pairs a) (ordered_pairs a) (selected_pair a) (entries a) (selected_entry a)
    (ice_tiebreaker a) (pac_timestamp a) v (gathering_done a) (conn_started a) (draws a).
Definition set_gathering_done (a : juice_agent_t) (v : bool) : juice_agent_t :=
  Build_juice_agent_t (a_config a) (a_state a) (a_mode a) (a_ice_tcp_mode a) (a_local a) (a_remote a)
    (candidate_pairs a) (ordered_pairs a) (selected_pair a) (entries a) (selected_entry a)
    (ice_tiebreaker a) (pac_timestamp a) (nomination_timestamp a) v (conn_started a) (draws a).
Definition set_conn_started (a : juice_agent_t) (v : bool) : juice_agent_t :=
  Build_juice_agent_t (a_config a) (a_state a) (a_mode a) (a_ice_tcp_mode a) (a_local a) (a_remote a)
    (candidate_pairs a) (ordered_pairs a) (selected_pair a) (entries a) (selected_entry a)
    (ice_tiebreaker a) (pac_timestamp a) (nomination_timestamp a) (gathering_done a) v (draws a).
Definition set_draws (a : juice_agent_t) (v : nat) : juice_agent_t :=
  Build_juice_agent_t (a_config a) (a_state a) (a_mode a) (a_ice_tcp_mode a) (a_local a) (a_remote a)
    (candidate_pairs a) (ordered_pairs a) (selected_pair a) (entries a) (selected_entry a)
    (ice_tiebreaker a) (pac_timestamp a) (nomination_timestamp a) (gathering_done a) (conn_started a) v.

Definition entries_count (a : juice_agent_t) : Z := zlen (entries a).
Definition candidate_pairs_count (a : juice_agent_t) : Z := zlen (candidate_pairs a).

(** What a pointer points to. *)
Definition candidate_at (a : juice_agent_t) (p : candidate_ptr) : ice_candidate_t :=
  match p with
  | Local i => nth i (candidates (a_local a)) ice_candidate_zero
  | Remote i => nth i (candidates (a_remote a)) ice_candidate_zero
  end.

(** An entry that is cleared, as in a new agent. *)
Definition entry_zero : agent_stun_entry_t :=
  {| e_type := AGENT_STUN_ENTRY_TYPE_EMPTY; e_state := AGENT_STUN_ENTRY_STATE_PENDING;
     e_mode := AGENT_MODE_UNKNOWN; e_pair := None; e_record := addr_record_zero; e_relayed := addr_record_zero;
     e_transaction_id := replicate 12 0; e_next_transmission := 0; e_retransmission_timeout := 0;
     e_retransmissions := 0; e_transaction_id_expired := false; e_tcp_state := TCP_STATE_DISCONNECTED;
     e_turn := None; e_turn_redirections := 0; e_relay_entry := None |}.

Definition with_finished (d : ice_description_t) : ice_description_t :=
  {| ice_ufrag := ice_ufrag d; ice_pwd := ice_pwd d; ice_lite := ice_lite d; candidates := candidates d;
     finished := true |}.

(** ** Effects *)

(** What an agent does to the outside: datagrams, TCP connections, wake-ups of its
    thread, callbacks and the thread that resolves the names of servers.  A callback that is not set does nothing. *)
Inductive event :=
| Sent (dst : addr_record_t) (data : list Z) (ds : Z)
| TcpConnect (dst : addr_record_t)
| Interrupt
| StateChanged (s : juice_state_t)
| NewCandidate (sdp : list Z)
| GatheringDone
| Received (data : list Z)
| ResolverStarted.

Abbreviation M := (eff juice_agent_t event).

(** What the system gives to a step of the agent: the name service, the contents of
    uninitialised memory (2 bytes of a structure of [stun_write] and a buffer of
    [BUFFER_SIZE]), the time, which does not pass within a step, the random draws,
    the result of sending, and what creating the connection, asking for its
    addresses and starting a thread return. *)
Class System := {
  getnameinfo : getnameinfo_t;
  getaddrinfo : getaddrinfo_t;
  uninit : list Z;
  stack : list Z;
  now : Z;
  random_bytes : nat -> list Z;
  conn_send : addr_record_t -> list Z -> Z;
  conn_create : Z;
  conn_addrs : Z * list addr_record_t;
  thread_init : Z
}.

Definition get_entry (i : nat) : M agent_stun_entry_t := a ← get; defined (entries a !! i).
Definition update_entry (i : nat) (f : agent_stun_entry_t -> agent_stun_entry_t) : M unit :=
  a ← get; x ← defined (entries a !! i); put (set_entries a (<[i := f x]> (entries a))).
Definition get_pair (i : nat) : M agent_pair := a ← get; defined (candidate_pairs a !! i).
Definition update_pair (i : nat) (f : agent_pair -> agent_pair) : M unit :=
  a ← get; p ← defined (candidate_pairs a !! i); put (set_candidate_pairs a (<[i := f p]> (candidate_pairs a))).
Definition modify (f : juice_agent_t -> juice_agent_t) : M unit := a ← get; put (f a).

(** A new entry, which the array must have room for. *)
Definition push_entry (x : agent_stun_entry_t) : M nat :=
  a ← get;
  if entries_count a <? MAX_STUN_ENTRIES_COUNT
  then _ ← put (set_entries a (entries a ++ [x])); mret (length (entries a))
  else defined None.
