(* ===== verification/Agent.v ===== *)
(** * The ICE agent: timers, pairs, entries and sending (src/agent.c)

    The parts of the agent that its handlers share, as steps on its state.  The
    default build is modelled: consent freshness is on, and the translation of local
    addresses is off, so that [agent_translate_host_candidate_entry] does nothing.
    Memory is available, logging is left out, and no other thread runs between
    [conn_unlock] and [conn_lock]. *)

From S2P Require Import Prelude Effects CText Addr Turn Ice IceSdp StunTypes StunWrite StunRead AgentTypes.

Section Agent.
Context `{Crypto} `{System}.

(** ** Random numbers *)

Definition juice_random (n : nat) : M (list Z) :=
  a ← get; _ ← put (set_draws a (S (draws a))); mret (take n (random_bytes (draws a))).
(** Integers are drawn as their bytes, the lowest first. *)
Definition juice_rand32 : M Z := b ← juice_random 4; mret (unbe (rev b)).

(** The draws of a loop that tries until an id or a channel is free; more of them
    than a map has entries. *)
Definition DRAWS : nat := 64.
Definition draw_many (n : nat) : M (list (list Z)) :=
  a ← get;
  _ ← put (set_draws a (draws a + DRAWS)%nat);
  mret ((fun k => take n (random_bytes (draws a + k))) <$> seq 0 DRAWS).

(** ** State and timers *)

Definition agent_change_state (st : juice_state_t) : M unit :=
  a ← get;
  if negb (bool_decide (st = a_state a)) then _ ← put (set_a_state a st); emit (StateChanged st)
  else mret tt.

(** The transport of the remote candidate of a pair. *)
Definition entry_is_tcp (x : agent_stun_entry_t) : M bool :=
  match e_pair x with
  | None => mret false
  | Some p =>
      a ← get;
      p ← get_pair p;
      r ← defined (remote p);
      mret (negb (is_udp (transport (candidate_at a r))))
  end.

(** [abs((int)timediff)]: the difference is cut to 32 bits. *)
Definition abs_int (d : Z) : option Z :=
  let d := s32 d in if d =? - 2 ^ 31 then None else Some (Z.abs d).

(** The loop that finds a time slot for entry [i], given the times [l] of all
    entries, from entry [pos]. *)
Fixpoint find_slot (fuel : nat) (i : nat) (l : list Z) (pos : nat) (t : Z) : option Z :=
  match fuel with
  | O => None
  | S fuel' =>
      match l !! pos with
      | None => Some t
      | Some other =>
          if bool_decide (pos = i) then find_slot fuel' i l (S pos) t
          else if other =? 0 then find_slot fuel' i l (S pos) t
          else
            d ← abs_int (t - other);
            if d <? STUN_PACING_TIME then find_slot fuel' i l 0 (other + STUN_PACING_TIME)
            else find_slot fuel' i l (S pos) t
      end
  end.

Definition slot_fuel (n : nat) : nat := ((n + 2) * (n + 2))%nat.

(** The entry before a slot is found: its state, first time and retransmissions. *)
Definition arm_entry (x : agent_stun_entry_t) (delay : Z) : M agent_stun_entry_t :=
  let x := if negb (bool_decide (e_state x = AGENT_STUN_ENTRY_STATE_SUCCEEDED_KEEPALIVE))
           then set_e_state x AGENT_STUN_ENTRY_STATE_PENDING else x in
  let x := set_e_next_transmission x (now + delay) in
  if bool_decide (e_state x = AGENT_STUN_ENTRY_STATE_PENDING) then
    tcp ← entry_is_tcp x;
    mret (if (tcp : bool)
          then set_e_retransmissions (set_e_retransmission_timeout x STUN_TCP_TIMEOUT) 0
          else set_e_retransmissions (set_e_retransmission_timeout x MIN_STUN_RETRANSMISSION_TIMEOUT)
                 (if bool_decide (e_type x = AGENT_STUN_ENTRY_TYPE_CHECK)
                  then MAX_STUN_CHECK_RETRANSMISSION_COUNT else MAX_STUN_SERVER_RETRANSMISSION_COUNT))
  else mret x.

Definition agent_arm_transmission (i : nat) (delay : Z) : M unit :=
  x ← get_entry i;
  x ← arm_entry x delay;
  a ← get;
  t ← defined (find_slot (slot_fuel (length (entries a))) i (e_next_transmission <$> entries a) 0
                 (e_next_transmission x));
  update_entry i (fun _ => set_e_next_transmission x t).

Definition agent_arm_keepalive (i : nat) : M unit :=
  _ ← update_entry i (fun x => if bool_decide (e_state x = AGENT_STUN_ENTRY_STATE_SUCCEEDED)
                               then set_e_state x AGENT_STUN_ENTRY_STATE_SUCCEEDED_KEEPALIVE else x);
  x ← get_entry i;
  if negb (bool_decide (e_state x = AGENT_STUN_ENTRY_STATE_SUCCEEDED_KEEPALIVE)) then mret tt
  else
    a ← get;
    period ← match e_type x with
             | AGENT_STUN_ENTRY_TYPE_RELAY =>
                 mret (if 0 <? candidates_count (a_remote a) then TURN_REFRESH_PERIOD else STUN_KEEPALIVE_PERIOD)
             | AGENT_STUN_ENTRY_TYPE_SERVER => mret STUN_KEEPALIVE_PERIOD
             | _ =>
                 r ← juice_rand32;
                 mret (MIN_CONSENT_CHECK_PERIOD + r mod (MAX_CONSENT_CHECK_PERIOD - MIN_CONSENT_CHECK_PERIOD + 1))
             end;
    _ ← update_entry i (fun x => set_e_transaction_id_expired x true);
    agent_arm_transmission i period.

Definition agent_update_pac_timer : M unit :=
  a ← get;
  if negb (pac_timestamp a =? 0) then mret tt
  else if negb (bool_decide (ice_ufrag (a_remote a) = [])) && gathering_done a
  then put (set_pac_timestamp a (now + ICE_PAC_TIMEOUT))
  else mret tt.

(** A request to a server that is not answered yet. *)
Definition gathering_entry (x : agent_stun_entry_t) : bool :=
  negb (bool_decide (e_type x = AGENT_STUN_ENTRY_TYPE_CHECK)) &&
  bool_decide (e_state x = AGENT_STUN_ENTRY_STATE_PENDING).

Definition agent_update_gathering_done : M unit :=
  a ← get;
  if existsb gathering_entry (entries a) then mret tt
  else if gathering_done a then mret tt
  else
    _ ← put (set_gathering_done (set_a_local a (with_finished (a_local a))) true);
    _ ← agent_update_pac_timer;
    emit GatheringDone.

(** ** Pairs *)

Definition priority_of (ps : list agent_pair) (i : nat) : Z :=
  match ps !! i with Some p => pair_priority p | None => 0 end.

(** The round of the insertion sort for pair [i]. *)
Definition ordered_round (prio : nat -> Z) (l : list nat) (i : nat) : list nat :=
  let '(l, h) := shift_hole prio l i (prio i) in <[h := i]> l.

Fixpoint ordered_rounds (prio : nat -> Z) (l : list nat) (i n : nat) : list nat :=
  match n with
  | O => l
  | S n' => ordered_rounds prio (ordered_round prio l i) (S i) n'
  end.

(** The cells of a pair that is new are not set before. *)
Definition agent_update_ordered_pairs : M unit :=
  a ← get;
  let n := length (candidate_pairs a) in
  put (set_ordered_pairs a
         (ordered_rounds (priority_of (candidate_pairs a)) (take n (ordered_pairs a ++ replicate n O)) 0 n)).

Definition agent_update_candidate_pairs : M unit :=
  a ← get;
  let is_controlling := bool_decide (a_mode a = AGENT_MODE_CONTROLLING) in
  _ ← put (set_candidate_pairs a
             ((fun p => ice_update_candidate_pair (candidate_at a) p is_controlling) <$> candidate_pairs a));
  _ ← agent_update_ordered_pairs;
  modify (fun a => set_entries a
    ((fun x => if bool_decide (e_type x = AGENT_STUN_ENTRY_TYPE_CHECK) then set_e_transaction_id_expired x true else x)
     <$> entries a)).

(** The first entry of a pair. *)
Definition entry_of_pair (a : juice_agent_t) (p : nat) : option nat :=
  find_index_from (fun x => bool_decide (e_pair x = Some p)) (entries a) 0.

Definition agent_unfreeze_candidate_pair (p : nat) : M Z :=
  pair ← get_pair p;
  if negb (bool_decide (state pair = ICE_CANDIDATE_PAIR_STATE_FROZEN)) then mret 0
  else
    a ← get;
    match entry_of_pair a p with
    | None => mret (-1)
    | Some i =>
        _ ← update_pair p (fun p => set_pair_state p ICE_CANDIDATE_PAIR_STATE_PENDING);
        _ ← update_entry i (fun x => set_e_state x AGENT_STUN_ENTRY_STATE_PENDING);
        _ ← agent_arm_transmission i 0;
        mret 0
    end.

Definition agent_register_entry_for_candidate_pair (p : nat) (relay_entry : option nat) : M unit :=
  pair ← get_pair p;
  r ← defined (remote pair);
  a ← get;
  tid ← juice_random 12;
  _ ← push_entry
        {| e_type := AGENT_STUN_ENTRY_TYPE_CHECK; e_state := AGENT_STUN_ENTRY_STATE_IDLE;
           e_mode := AGENT_MODE_UNKNOWN; e_pair := Some p; e_record := resolved (candidate_at a r);
           e_relayed := e_relayed entry_zero; e_transaction_id := tid;
           e_next_transmission := e_next_transmission entry_zero;
           e_retransmission_timeout := e_retransmission_timeout entry_zero;
           e_retransmissions := e_retransmissions entry_zero; e_transaction_id_expired := false;
           e_tcp_state := e_tcp_state entry_zero; e_turn := e_turn entry_zero;
           e_turn_redirections := e_turn_redirections entry_zero; e_relay_entry := relay_entry |};
  mret tt.

(** The families of two candidates are the same. *)
Definition same_family (c d : ice_candidate_t) : bool :=
  sa_family (addr (resolved c)) =? sa_family (addr (resolved d)).

(** A pair with a remote candidate over TCP of the same family exists. *)
Definition tcp_pair_exists (a : juice_agent_t) (c : ice_candidate_t) : option bool :=
  foldr (fun p found =>
           r ← remote p;
           if negb (is_udp (transport (candidate_at a r))) && same_family (candidate_at a r) c
           then Some true else found) (Some false) (candidate_pairs a).

(** The entry of the relay that gave the candidate [c]. *)
Definition find_relay_entry (a : juice_agent_t) (c : ice_candidate_t) : option nat :=
  find_index_from (fun x => bool_decide (e_type x = AGENT_STUN_ENTRY_TYPE_RELAY) &&
                            addr_record_is_equal (e_relayed x) (resolved c) true) (entries a) 0.

(** A pair of higher priority than [p] has succeeded. *)
Fixpoint better_pair_succeeded (ps : list agent_pair) (l : list nat) (p : nat) : option bool :=
  match l with
  | [] => Some false
  | q :: l' =>
      if bool_decide (q = p) then Some false
      else
        pair ← ps !! q;
        if bool_decide (state pair = ICE_CANDIDATE_PAIR_STATE_SUCCEEDED) then Some true
        else better_pair_succeeded ps l' p
  end.

Definition selected_is_nominated (a : juice_agent_t) : option bool :=
  match selected_pair a with
  | None => Some false
  | Some p => pair ← candidate_pairs a !! p; Some (nominated pair)
  end.

(** The end of [agent_add_candidate_pair]: whether the new pair is checked now. *)
Definition unfreeze_new_pair (p : nat) : M Z :=
  a ← get;
  waits ← (if bool_decide (a_mode a = AGENT_MODE_CONTROLLING)
           then defined (better_pair_succeeded (candidate_pairs a) (ordered_pairs a) p) else mret false);
  if (waits : bool) then mret 0
  else
    done_ ← defined (selected_is_nominated a);
    _ ← (if negb (bool_decide (ice_ufrag (a_remote a) = [])) && negb done_
         then agent_unfreeze_candidate_pair p else mret 0);
    mret 0.

Definition agent_add_candidate_pair (l : option candidate_ptr) (r : candidate_ptr) : M Z :=
  a ← get;
  match ice_create_candidate_pair (candidate_at a) l (Some r) (bool_decide (a_mode a = AGENT_MODE_CONTROLLING)) with
  | None => mret (-1)
  | Some pr =>
      if MAX_CANDIDATE_PAIRS_COUNT <=? candidate_pairs_count a then mret (-1)
      else
        let c := candidate_at a r in
        ignored ←
          (if is_udp (transport c) then mret false
           else if negb (bool_decide (a_ice_tcp_mode a = JUICE_ICE_TCP_MODE_ACTIVE)) then mret true
           else if negb (bool_decide (transport c = ICE_CANDIDATE_TRANSPORT_TCP_TYPE_PASSIVE)) &&
                   negb (bool_decide (transport c = ICE_CANDIDATE_TRANSPORT_TCP_TYPE_SO)) then mret true
           else defined (tcp_pair_exists a c));
        if (ignored : bool) then mret 0
        else
          let p := length (candidate_pairs a) in
          _ ← put (set_candidate_pairs a (candidate_pairs a ++ [pr]));
          _ ← agent_update_ordered_pairs;
          a ← get;
          if entries_count a =? MAX_STUN_ENTRIES_COUNT then mret (-1)
          else
            let relayed_candidate :=
              match l with
              | Some l => if bool_decide (type (candidate_at a l) = ICE_CANDIDATE_TYPE_RELAYED)
                          then Some (candidate_at a l) else None
              | None => None
              end in
            match relayed_candidate with
            | None => _ ← agent_register_entry_for_candidate_pair p None; unfreeze_new_pair p
            | Some c =>
                match find_relay_entry a c with
                | None => mret (-1)
                | Some i => _ ← agent_register_entry_for_candidate_pair p (Some i); unfreeze_new_pair p
                end
            end
  end.

(** The loop of [agent_add_candidate_pairs_for_remote] from local candidate [i]. *)
Fixpoint pair_relayed (n i : nat) (r : candidate_ptr) : M Z :=
  match n with
  | O => mret 0
  | S n' =>
      a ← get;
      let c := candidate_at a (Local i) in
      if bool_decide (type c = ICE_CANDIDATE_TYPE_RELAYED) && same_family c (candidate_at a r) then
        ret ← agent_add_candidate_pair (Some (Local i)) r;
        if negb (ret =? 0) then mret (-1) else pair_relayed n' (S i) r
      else pair_relayed n' (S i) r
  end.

Definition agent_add_candidate_pairs_for_remote (r : candidate_ptr) : M Z :=
  ret ← agent_add_candidate_pair None r;
  if negb (ret =? 0) then mret (-1)
  else a ← get; pair_relayed (length (candidates (a_local a))) 0 r.

(** ** Finding entries *)

Definition pair_is_relayed (a : juice_agent_t) (p : agent_pair) : bool :=
  match local p with
  | Some l => bool_decide (type (candidate_at a l) = ICE_CANDIDATE_TYPE_RELAYED)
  | None => false
  end.

Definition entry_is_relayed (a : juice_agent_t) (x : agent_stun_entry_t) : option bool :=
  match e_pair x with
  | None => Some false
  | Some p => p ← candidate_pairs a !! p; Some (pair_is_relayed a p)
  end.

(** [turn_retrieve_transaction_id] marks the id as used. *)
Definition retrieve_transaction_id (i : nat) (tid : list Z) : M (option addr_record_t) :=
  x ← get_entry i;
  t ← defined (e_turn x);
  '(r, m) ← defined (turn_retrieve_transaction_id (turn_map t) tid);
  _ ← update_entry i (fun x => set_e_turn x (Some (with_turn_map t m)));
  mret r.

Fixpoint find_entry_loop (n i : nat) (tid : list Z) : M (option nat) :=
  match n with
  | O => mret None
  | S n' =>
      x ← get_entry i;
      if bool_decide (tid = e_transaction_id x) then mret (Some i)
      else
        found ← match e_turn x with
                | Some _ => r ← retrieve_transaction_id i tid; mret (bool_decide (is_Some r))
                | None => mret false
                end;
        if (found : bool) then mret (Some i) else find_entry_loop n' (S i) tid
  end.

Definition agent_find_entry_from_transaction_id (tid : list Z) : M (option nat) :=
  a ← get; find_entry_loop (length (entries a)) 0 tid.

(** The entry is for [record], over the relay of the address [relayed] if any. *)
Definition entry_matches (a : juice_agent_t) (record : addr_record_t) (relayed : option addr_record_t)
    (x : agent_stun_entry_t) : option bool :=
  r ← entry_is_relayed a x;
  match relayed with
  | Some relayed =>
      if (r : bool) then
        p ← e_pair x;
        p ← candidate_pairs a !! p;
        l ← local p;
        Some (addr_record_is_equal (resolved (candidate_at a l)) relayed true &&
              addr_record_is_equal (e_record x) record true)
      else Some false
  | None => Some (negb r && addr_record_is_equal (e_record x) record true)
  end.

(** The first element that a predicate accepts. *)
Fixpoint find_first {A} (f : A -> option bool) (l : list A) (i : nat) : option (option nat) :=
  match l with
  | [] => Some None
  | x :: l' => b ← f x; if (b : bool) then Some (Some i) else find_first f l' (S i)
  end.

(** The pair of highest priority that is not relayed, for a remote address. *)
Fixpoint matching_pair (a : juice_agent_t) (record : addr_record_t) (l : list nat) : option (option nat) :=
  match l with
  | [] => Some None
  | q :: l' =>
      p ← candidate_pairs a !! q;
      if pair_is_relayed a p then matching_pair a record l'
      else
        r ← remote p;
        if addr_record_is_equal (resolved (candidate_at a r)) record true then Some (Some q)
        else matching_pair a record l'
  end.

(** The selected entry, if its pair is nominated. *)
Definition nominated_entry (a : juice_agent_t) : option (option nat) :=
  match selected_entry a with
  | None => Some None
  | Some i =>
      x ← entries a !! i;
      match e_pair x with
      | None => Some None
      | Some p => p ← candidate_pairs a !! p; Some (if nominated p then Some i else None)
      end
  end.

Definition find_entry_from_record (a : juice_agent_t) (record : addr_record_t)
    (relayed : option addr_record_t) : option (option nat) :=
  sel ← nominated_entry a;
  hit ← match sel with
        | Some i => x ← entries a !! i; entry_matches a record relayed x
        | None => Some false
        end;
  if (hit : bool) then Some sel
  else
    match relayed with
    | Some _ => find_first (entry_matches a record relayed) (entries a) 0
    | None =>
        p ← matching_pair a record (ordered_pairs a);
        match p ≫= entry_of_pair a with
        | Some i => Some (Some i)
        | None => find_first (entry_matches a record None) (entries a) 0
        end
    end.

Definition agent_find_entry_from_record (record : addr_record_t) (relayed : option addr_record_t)
  : M (option nat) :=
  a ← get; defined (find_entry_from_record a record relayed).

(** ** Sending *)

(** Nothing happens before the connection is created. *)
Definition conn_interrupt : M unit :=
  a ← get; if conn_started a then emit Interrupt else mret tt.

Definition agent_direct_send (dst : addr_record_t) (data : list Z) (ds : Z) : M Z :=
  a ← get;
  if conn_started a then _ ← emit (Sent dst data ds); mret (conn_send dst data)
  else mret (-1).

(** [stun_write] into a buffer on the stack: its result and what it wrote. *)
Definition write_message (msg : stun_message_t) (password : option (list Z)) : M (Z * list Z) :=
  r ← defined (stun_write BUFFER_SIZE uninit stack msg password);
  match r with
  | (size, Some buffer) => mret (size, take (Z.to_nat size) buffer)
  | (size, None) => mret (size, [])
  end.

(** Writes a message and sends it to the server of an entry. *)
Definition send_message (dst : addr_record_t) (msg : stun_message_t) (password : option (list Z)) (ds : Z)
  : M Z :=
  '(size, buffer) ← write_message msg password;
  if size <=? 0 then mret (-1)
  else
    ret ← agent_direct_send dst buffer ds;
    if ret <? 0 then mret (-1) else mret 0.

(** A request for a permission or a channel of a peer. *)
Definition turn_request (method : Z) (tid : list Z) (c : stun_credentials_t) (peer : addr_record_t)
  : stun_message_t :=
  set_peers (set_credentials (StunTypes.set_transaction_id
    (set_msg_method (set_msg_class stun_message_zero STUN_CLASS_REQUEST) method) tid) c) [peer].

Definition agent_send_turn_create_permission_request (i : nat) (record : addr_record_t) (ds : Z) : M Z :=
  x ← get_entry i;
  if negb (bool_decide (e_type x = AGENT_STUN_ENTRY_TYPE_RELAY)) then mret (-1)
  else
    match e_turn x with
    | None => mret (-1)
    | Some t =>
        let c := turn_credentials t in
        if bool_decide (realm c = []) || bool_decide (nonce c = []) then mret (-1)
        else
          ids ← draw_many 12;
          '(ok, tid, m) ← defined (turn_set_random_permission_transaction_id (turn_map t) record ids);
          _ ← update_entry i (fun x => set_e_turn x (Some (with_turn_map t m)));
          if negb ok then mret (-1)
          else send_message (e_record x) (turn_request STUN_METHOD_CREATE_PERMISSION tid c record)
                 (turn_password t) ds
    end.

(** The result and the channel. *)
Definition agent_send_turn_channel_bind_request (i : nat) (record : addr_record_t) (ds : Z) : M (Z * Z) :=
  x ← get_entry i;
  if negb (bool_decide (e_type x = AGENT_STUN_ENTRY_TYPE_RELAY)) then mret (-1, 0)
  else
    match e_turn x with
    | None => mret (-1, 0)
    | Some t =>
        let c := turn_credentials t in
        if bool_decide (realm c = []) || bool_decide (nonce c = []) then mret (-1, 0)
        else
          ch ← defined (turn_get_channel (turn_map t) record);
          '(ok, channel, m) ←
            match ch with
            | Some channel => mret (true, channel, turn_map t)
            | None =>
                numbers ← draw_many 4;
                defined (turn_bind_random_channel (turn_map t) (Some record)
                           ((fun b => unbe (rev b)) <$> numbers) (now) 0)
            end;
          _ ← update_entry i (fun x => set_e_turn x (Some (with_turn_map t m)));
          if negb (ok : bool) then mret (-1, 0)
          else
            ids ← draw_many 12;
            '(ok, tid, m) ← defined (turn_set_random_channel_transaction_id m record ids);
            _ ← update_entry i (fun x => set_e_turn x (Some (with_turn_map t m)));
            if negb (ok : bool) then mret (-1, 0)
            else
              ret ← send_message (e_record x)
                      (set_channel_number (turn_request STUN_METHOD_CHANNEL_BIND tid c record) channel)
                      (turn_password t) ds;
              mret (ret, channel)
    end.

(** [size] is unsigned: a negative result of [stun_write] is a size. *)
Definition agent_relay_send (i : nat) (dst : addr_record_t) (data : list Z) (ds : Z) : M Z :=
  x ← get_entry i;
  match e_turn x with
  | None => mret (-1)
  | Some t =>
      allowed ← defined (turn_has_permission (turn_map t) dst (now));
      ret ← (if negb allowed then agent_send_turn_create_permission_request i dst ds else mret 0);
      if negb (ret =? 0) then mret (-1)
      else
        tid ← juice_random 12;
        let msg := set_data (set_peers (StunTypes.set_transaction_id
          (set_msg_method (set_msg_class stun_message_zero STUN_CLASS_INDICATION) STUN_METHOD_SEND) tid)
          [dst]) (Some data) in
        '(size, buffer) ← write_message msg None;
        if size =? 0 then mret (-1)
        else if size <? 0 then defined None
        else agent_direct_send (e_record x) buffer ds
  end.

Definition agent_channel_send (i : nat) (record : addr_record_t) (data : list Z) (ds : Z) : M Z :=
  x ← get_entry i;
  match e_turn x with
  | None => mret (-1)
  | Some t =>
      bound ← defined (turn_get_bound_channel (turn_map t) record (now));
      '(ret, channel) ←
        match bound with
        | Some channel => mret (0, channel)
        | None => agent_send_turn_channel_bind_request i record ds
        end;
      if ret <? 0 then mret (-1)
      else
        '(len, buffer) ← defined (turn_wrap_channel_data stack BUFFER_SIZE data channel);
        if len <=? 0 then mret (-1)
        else agent_direct_send (e_record x) (take (Z.to_nat len) buffer) ds
  end.

End Agent.
