(* ===== verification/AgentMessages.v ===== *)
(** * The ICE agent: messages (src/agent.c)

    The messages an agent sends and its handling of the datagrams it receives:
    connectivity checks, requests to STUN and TURN servers, their verification, new
    candidates and [agent_input]. *)

From S2P Require Import Prelude Effects CText Addr Turn Ice IceSdp StunTypes StunWrite StunRead AgentTypes Agent.

Section Agent.
Context `{Crypto} `{System}.

(** ** Connectivity checks and server requests *)

(** The message of [agent_send_stun_binding] for a check: [None] without the
    credentials of the peer. *)
Definition check_request (a : juice_agent_t) (x : agent_stun_entry_t) (p : option agent_pair)
    (msg : stun_message_t) : option stun_message_t :=
  if bool_decide (ice_ufrag (a_remote a) = []) || bool_decide (ice_pwd (a_remote a) = []) then None
  else
    let user := default [] (snd (snprintf STUN_MAX_USERNAME_LEN
                  (ice_ufrag (a_remote a) ++ [58] ++ ice_ufrag (a_local a)))) in
    let controlling := bool_decide (a_mode a = AGENT_MODE_CONTROLLING) in
    let controlled := bool_decide (a_mode a = AGENT_MODE_CONTROLLED) in
    let index := match p with
                 | Some p => match local p with Some (Local k) => Z.of_nat k | _ => 0 end
                 | None => 0
                 end in
    let msg := set_credentials msg (set_username (credentials msg) user) in
    let msg := set_ice_controlling msg (if controlling then ice_tiebreaker a else 0) in
    let msg := set_ice_controlled msg (if controlled then ice_tiebreaker a else 0) in
    let msg := StunTypes.set_priority msg
                 (ice_compute_priority ICE_CANDIDATE_TYPE_PEER_REFLEXIVE (sa_family (addr (e_record x))) 1 index
                    ICE_CANDIDATE_TRANSPORT_UDP) in
    Some (set_use_candidate msg
            (controlling && match p with
                            | Some p => nomination_requested p && negb (nominated p)
                            | None => false
                            end)).

(** The pair of an entry. *)
Definition pair_of (a : juice_agent_t) (x : agent_stun_entry_t) : option (option agent_pair) :=
  match e_pair x with
  | None => Some None
  | Some p => p ← candidate_pairs a !! p; Some (Some p)
  end.

(** The response of a check carries [code] and [mapped]. *)
Definition check_response (msg : stun_message_t) (code : Z) (mapped : option addr_record_t) : stun_message_t :=
  let msg := set_error_code msg code in
  match mapped with Some r => set_mapped msg r | None => msg end.

(** Sends what was written, over the relay of the entry if it has one. *)
Definition send_binding (i : nat) (msg : stun_message_t) (password : option (list Z)) : M Z :=
  '(size, buffer) ← write_message msg password;
  if size <=? 0 then mret (-1)
  else
    x ← get_entry i;
    match e_relay_entry x with
    | Some r =>
        a ← get;
        p ← defined (pair_of a x);
        ret ← (if match p with Some p => nominated p | None => false end
               then agent_channel_send r (e_record x) buffer 0
               else agent_relay_send r (e_record x) buffer 0);
        if ret <? 0 then mret (-1) else mret 0
    | None =>
        ret ← agent_direct_send (e_record x) buffer 0;
        if ret <? 0 then mret (-1) else mret 0
    end.

Definition is_resp (c : stun_class_t) : bool :=
  bool_decide (c = STUN_CLASS_RESP_SUCCESS) || bool_decide (c = STUN_CLASS_RESP_ERROR).

Definition agent_send_stun_binding (i : nat) (cls : stun_class_t) (code : Z) (tid : option (list Z))
    (mapped : option addr_record_t) : M Z :=
  x ← get_entry i;
  if is_resp cls && negb (bool_decide (is_Some tid)) then mret (-1)
  else
    tid ← match tid with
          | Some tid => mret tid
          | None => if bool_decide (cls = STUN_CLASS_INDICATION) then juice_random 12
                    else mret (e_transaction_id x)
          end;
    let msg := StunTypes.set_transaction_id
                 (set_msg_method (set_msg_class stun_message_zero cls) STUN_METHOD_BINDING) tid in
    a ← get;
    if negb (bool_decide (e_type x = AGENT_STUN_ENTRY_TYPE_CHECK)) then send_binding i msg None
    else
      match cls with
      | STUN_CLASS_REQUEST =>
          p ← defined (pair_of a x);
          match check_request a x p msg with
          | None => mret 0
          | Some msg =>
              _ ← update_entry i (fun x => set_e_mode x (a_mode a));
              send_binding i msg (Some (ice_pwd (a_remote a)))
          end
      | STUN_CLASS_INDICATION => send_binding i msg None
      | _ => send_binding i (check_response msg code mapped) (Some (ice_pwd (a_local a)))
      end.

Definition agent_send_turn_allocate_request (i : nat) (method : Z) : M Z :=
  if negb (method =? STUN_METHOD_ALLOCATE) && negb (method =? STUN_METHOD_REFRESH) then mret (-1)
  else
    x ← get_entry i;
    if negb (bool_decide (e_type x = AGENT_STUN_ENTRY_TYPE_RELAY)) then mret (-1)
    else
      match e_turn x with
      | None => mret (-1)
      | Some t =>
          let msg := StunTypes.set_transaction_id
                       (set_msg_method (set_msg_class stun_message_zero STUN_CLASS_REQUEST) method)
                       (e_transaction_id x) in
          let msg := set_lifetime msg (TURN_LIFETIME / 1000) in
          let msg := if method =? STUN_METHOD_ALLOCATE then set_requested_transport msg true else msg in
          let known := negb (bool_decide (nonce (turn_credentials t) = [])) in
          let msg := if known then set_credentials msg (turn_credentials t) else msg in
          send_message (e_record x) msg (if known then turn_password t else None) 0
      end.

(** ** New candidates *)

Definition set_local (d : ice_description_t) : M unit := modify (fun a => set_a_local a d).
Definition set_remote (d : ice_description_t) : M unit := modify (fun a => set_a_remote a d).

(** The SDP line of a candidate, [None] if there is none. *)
Definition candidate_sdp (c : ice_candidate_t) : option (list Z) :=
  let '(n, s) := ice_generate_candidate_sdp c BUFFER_SIZE in if n <? 0 then None else s.

(** The loop of [agent_add_local_relayed_candidate] from remote candidate [k]. *)
Fixpoint pair_with_remotes (n k : nat) (l : candidate_ptr) : M unit :=
  match n with
  | O => mret tt
  | S n' =>
      a ← get;
      _ ← (if same_family (candidate_at a l) (candidate_at a (Remote k))
           then agent_add_candidate_pair (Some l) (Remote k) else mret 0);
      pair_with_remotes n' (S k) l
  end.

Definition agent_add_local_relayed_candidate (record : addr_record_t) : M Z :=
  a ← get;
  if bool_decide (is_Some (ice_find_candidate_from_addr (a_local a) record ICE_CANDIDATE_TYPE_RELAYED))
  then mret 0
  else
    let '(ret, c) := ice_create_local_candidate getnameinfo ICE_CANDIDATE_TYPE_RELAYED 1
                       (candidates_count (a_local a)) record ICE_CANDIDATE_TRANSPORT_UDP in
    if negb (ret =? 0) then mret (-1)
    else
      let '(ret, c, d) := ice_add_candidate c (a_local a) in
      if negb (ret =? 0) then mret (-1)
      else
        _ ← set_local d;
        match candidate_sdp c with
        | None => mret (-1)
        | Some sdp =>
            _ ← pair_with_remotes (length (candidates (a_remote a))) 0 (Local (length (candidates d) - 1));
            _ ← emit (NewCandidate sdp);
            mret 0
        end.

Definition agent_add_local_reflexive_candidate (t : ice_candidate_type_t) (record : addr_record_t) : M Z :=
  if negb (bool_decide (t = ICE_CANDIDATE_TYPE_SERVER_REFLEXIVE)) &&
     negb (bool_decide (t = ICE_CANDIDATE_TYPE_PEER_REFLEXIVE)) then mret (-1)
  else
    a ← get;
    let sought := if sa_family (addr record) =? AF_INET6 then ICE_CANDIDATE_TYPE_UNKNOWN else t in
    if bool_decide (is_Some (ice_find_candidate_from_addr (a_local a) record sought)) then mret 0
    else
      let '(ret, c) := ice_create_local_candidate getnameinfo t 1 (candidates_count (a_local a)) record
                         ICE_CANDIDATE_TRANSPORT_UDP in
      if negb (ret =? 0) then mret (-1)
      else if bool_decide (type c = ICE_CANDIDATE_TYPE_PEER_REFLEXIVE) &&
              (MAX_PEER_REFLEXIVE_CANDIDATES_COUNT <=?
               ice_candidates_count (a_local a) ICE_CANDIDATE_TYPE_PEER_REFLEXIVE) then mret 0
      else
        let '(ret, c, d) := ice_add_candidate c (a_local a) in
        if negb (ret =? 0) then mret (-1)
        else
          _ ← set_local d;
          match candidate_sdp c with
          | None => mret (-1)
          | Some sdp =>
              _ ← (if negb (bool_decide (t = ICE_CANDIDATE_TYPE_PEER_REFLEXIVE)) then emit (NewCandidate sdp)
                   else mret tt);
              mret 0
          end.

Definition set_priority_of (c : ice_candidate_t) (p : Z) : ice_candidate_t :=
  {| type := type c; Ice.priority := p; component := component c; foundation := foundation c;
     transport := transport c; hostname := hostname c; service := service c; resolved := resolved c |}.

(** The priority of the last candidate. *)
Definition set_last_priority (d : ice_description_t) (p : Z) : ice_description_t :=
  with_candidates d (alter (fun c => set_priority_of c p) (length (candidates d) - 1)%nat (candidates d)).

Definition agent_add_remote_reflexive_candidate (t : ice_candidate_type_t) (prio : Z) (record : addr_record_t)
  : M Z :=
  if negb (bool_decide (t = ICE_CANDIDATE_TYPE_PEER_REFLEXIVE)) then mret (-1)
  else
    a ← get;
    if bool_decide (is_Some (ice_find_candidate_from_addr (a_remote a) record ICE_CANDIDATE_TYPE_UNKNOWN))
    then mret 0
    else
      let '(ret, c) := ice_create_local_candidate getnameinfo t 1 (candidates_count (a_local a)) record
                         ICE_CANDIDATE_TRANSPORT_UDP in
      if negb (ret =? 0) then mret (-1)
      else if MAX_PEER_REFLEXIVE_CANDIDATES_COUNT <=?
              ice_candidates_count (a_remote a) ICE_CANDIDATE_TYPE_PEER_REFLEXIVE then mret 0
      else
        let '(ret, c, d) := ice_add_candidate c (a_remote a) in
        if negb (ret =? 0) then mret (-1)
        else
          _ ← set_remote (set_last_priority d prio);
          agent_add_candidate_pairs_for_remote (Remote (length (candidates d) - 1)).

Definition agent_add_local_tcp_active_candidate (record : addr_record_t) : M Z :=
  a ← get;
  let '(ret, c) := ice_create_local_candidate getnameinfo ICE_CANDIDATE_TYPE_HOST 1
                     (candidates_count (a_local a)) record ICE_CANDIDATE_TRANSPORT_TCP_TYPE_ACTIVE in
  if negb (ret =? 0) then mret (-1)
  else
    let '(ret, c, d) := ice_add_candidate c (a_local a) in
    if negb (ret =? 0) then mret (-1) else _ ← set_local d; mret 0.

(** ** Verification *)

(** [strchr(username, ':')]: what is before and after the separator. *)
Fixpoint split_username (s : list Z) : option (list Z * list Z) :=
  match s with
  | [] => None
  | c :: s' =>
      if c =? 58 then Some ([], s')
      else match split_username s' with Some (l, r) => Some (c :: l, r) | None => None end
  end.

(** The user name of a request is for this agent, from the known peer if any. *)
Definition username_accepted (a : juice_agent_t) (user : list Z) : bool :=
  match split_username user with
  | None => false
  | Some (local_ufrag, remote_ufrag) =>
      bool_decide (local_ufrag = ice_ufrag (a_local a)) &&
      (bool_decide (ice_ufrag (a_remote a) = []) || bool_decide (remote_ufrag = ice_ufrag (a_remote a)))
  end.

(** The result and the datagram. *)
Definition verify_stun_binding (a : juice_agent_t) (buf : list Z) (msg : stun_message_t)
  : option (Z * list Z) :=
  if negb (msg_method msg =? STUN_METHOD_BINDING) then Some (-1, buf)
  else if bool_decide (msg_class msg = STUN_CLASS_INDICATION) ||
          bool_decide (msg_class msg = STUN_CLASS_RESP_ERROR) then Some (0, buf)
  else if negb (has_integrity msg) then Some (-1, buf)
  else
    let request := bool_decide (msg_class msg = STUN_CLASS_REQUEST) in
    if request && negb (username_accepted a (username (credentials msg))) then Some (-1, buf)
    else
      let password := if request then ice_pwd (a_local a) else ice_pwd (a_remote a) in
      if bool_decide (password = []) then Some (-1, buf)
      else
        '(buf, ok) ← stun_check_integrity buf (zlen buf) msg (Some password);
        Some (if (ok : bool) then 0 else -1, buf).

Definition agent_verify_stun_binding (buf : list Z) (msg : stun_message_t) : M (Z * list Z) :=
  a ← get; defined (verify_stun_binding a buf msg).

(** The result and the message, whose credentials are filled in. *)
Definition verify_credentials (x : agent_stun_entry_t) (buf : list Z) (msg : stun_message_t)
  : option (Z * stun_message_t) :=
  if bool_decide (msg_class msg = STUN_CLASS_INDICATION) ||
     (bool_decide (msg_class msg = STUN_CLASS_RESP_ERROR) && negb (error_code msg =? 400)) then Some (0, msg)
  else if negb (has_integrity msg) then Some (-1, msg)
  else
    match e_turn x with
    | None => Some (-1, msg)
    | Some t =>
        let c := turn_credentials t in
        let msg := set_credentials msg
          (set_username (set_nonce (set_realm (credentials msg) (realm c)) (nonce c)) (username c)) in
        '(_, ok) ← stun_check_integrity buf (zlen buf) msg (turn_password t);
        Some (if (ok : bool) then 0 else -1, msg)
    end.

Definition agent_verify_credentials (i : nat) (buf : list Z) (msg : stun_message_t) : M (Z * stun_message_t) :=
  x ← get_entry i; defined (verify_credentials x buf msg).

(** ** Binding messages *)

Definition set_entry_state (i : nat) (st : agent_stun_entry_state_t) : M unit :=
  update_entry i (fun x => set_e_state x st).

Definition set_mode (m : agent_mode_t) : M unit := modify (fun a => set_a_mode a m).

(** The entry fails, with its pair. *)
Definition fail_entry (i : nat) : M unit :=
  _ ← update_entry i (fun x => set_e_next_transmission (set_e_state x AGENT_STUN_ENTRY_STATE_FAILED) 0);
  x ← get_entry i;
  match e_pair x with
  | Some p => update_pair p (fun p => set_pair_state p ICE_CANDIDATE_PAIR_STATE_FAILED)
  | None => mret tt
  end.

(** The USE-CANDIDATE attribute of a request. *)
Definition request_nomination (p : nat) : M unit :=
  pr ← get_pair p;
  if bool_decide (state pr = ICE_CANDIDATE_PAIR_STATE_SUCCEEDED)
  then update_pair p (fun p => set_pair_nominated p true)
  else if negb (nomination_requested pr) then update_pair p (fun p => set_pair_nomination_requested p true)
  else mret tt.

(** The end of the handling of a request: the response and the triggered check. *)
Definition answer_request (i p : nat) (tid : list Z) (src : addr_record_t) : M Z :=
  ret ← agent_send_stun_binding i STUN_CLASS_RESP_SUCCESS 0 (Some tid) (Some src);
  if negb (ret =? 0) then mret (-1)
  else
    pr ← get_pair p;
    a ← get;
    _ ← (if negb (bool_decide (state pr = ICE_CANDIDATE_PAIR_STATE_SUCCEEDED)) &&
            negb (bool_decide (ice_ufrag (a_remote a) = [])) then
           _ ← update_pair p (fun p => set_pair_state p ICE_CANDIDATE_PAIR_STATE_PENDING);
           _ ← set_entry_state i AGENT_STUN_ENTRY_STATE_PENDING;
           agent_arm_transmission i STUN_PACING_TIME
         else mret tt);
    mret 0.

Definition process_binding_request (i : nat) (msg : stun_message_t) (src : addr_record_t) : M Z :=
  x ← get_entry i;
  if negb (bool_decide (e_type x = AGENT_STUN_ENTRY_TYPE_CHECK)) then mret (-1)
  else
    p ← defined (e_pair x);
    let tid := Some (transaction_id msg) in
    if ice_controlling msg =? ice_controlled msg then
      _ ← agent_send_stun_binding i STUN_CLASS_RESP_ERROR 400 tid None; mret (-1)
    else
      a ← get;
      if bool_decide (a_mode a = AGENT_MODE_CONTROLLING) && negb (ice_controlling msg =? 0) then
        _ ← (if ice_controlling msg <=? ice_tiebreaker a
             then _ ← agent_send_stun_binding i STUN_CLASS_RESP_ERROR 487 tid None; mret tt
             else _ ← set_mode AGENT_MODE_CONTROLLED; agent_update_candidate_pairs);
        mret 0
      else if bool_decide (a_mode a = AGENT_MODE_CONTROLLED) && negb (ice_controlled msg =? 0) then
        _ ← (if ice_controlling msg <=? ice_tiebreaker a
             then _ ← set_mode AGENT_MODE_CONTROLLING; agent_update_candidate_pairs
             else _ ← agent_send_stun_binding i STUN_CLASS_RESP_ERROR 487 tid None; mret tt);
        mret 0
      else if use_candidate msg && (ice_controlling msg =? 0) then
        _ ← agent_send_stun_binding i STUN_CLASS_RESP_ERROR 400 tid None; mret (-1)
      else
        _ ← (if use_candidate msg then request_nomination p else mret tt);
        answer_request i p (transaction_id msg) src.

(** A response starts keepalives unless a pair is nominated. *)
Definition entry_succeeded (i : nat) : M unit :=
  _ ← update_entry i (fun x =>
        if negb (bool_decide (e_state x = AGENT_STUN_ENTRY_STATE_SUCCEEDED_KEEPALIVE))
        then set_e_next_transmission (set_e_state x AGENT_STUN_ENTRY_STATE_SUCCEEDED) 0 else x);
  a ← get;
  done_ ← defined (selected_is_nominated a);
  if negb done_ then
    _ ← set_entry_state i AGENT_STUN_ENTRY_STATE_SUCCEEDED_KEEPALIVE;
    agent_arm_keepalive i
  else mret tt.

(** A pair whose check was answered: its local candidate, its consent and its
    nomination. *)
Definition check_succeeded (p : nat) (msg : stun_message_t) : M unit :=
  _ ← update_pair p (fun p => set_pair_state p ICE_CANDIDATE_PAIR_STATE_SUCCEEDED);
  a ← get;
  _ ← update_pair p (fun p =>
        if negb (bool_decide (is_Some (local p))) && negb (len (mapped msg) =? 0)
        then set_pair_local p (Local <$> ice_find_candidate_from_addr (a_local a) (mapped msg)
                                           ICE_CANDIDATE_TYPE_UNKNOWN)
        else p);
  _ ← update_pair p (fun p => set_pair_consent_expiry p (now + CONSENT_TIMEOUT));
  update_pair p (fun p => if nomination_requested p then set_pair_nominated p true else p).

Definition process_binding_success (i : nat) (msg : stun_message_t) (src : addr_record_t)
    (relayed : option addr_record_t) : M Z :=
  _ ← entry_succeeded i;
  x ← get_entry i;
  let check := bool_decide (e_type x = AGENT_STUN_ENTRY_TYPE_CHECK) in
  _ ← (if negb (len (mapped msg) =? 0) && negb (bool_decide (is_Some relayed)) then
         agent_add_local_reflexive_candidate
           (if check then ICE_CANDIDATE_TYPE_PEER_REFLEXIVE else ICE_CANDIDATE_TYPE_SERVER_REFLEXIVE) (mapped msg)
       else mret 0);
  if check then
    match e_pair x with
    | None => mret (-1)
    | Some p =>
        pr ← get_pair p;
        if negb (bool_decide (state pr = ICE_CANDIDATE_PAIR_STATE_SUCCEEDED)) &&
           negb (addr_record_is_equal src (e_record x) true)
        then _ ← fail_entry i; mret 0
        else _ ← check_succeeded p msg; mret 0
    end
  else if bool_decide (e_type x = AGENT_STUN_ENTRY_TYPE_SERVER)
  then _ ← agent_update_gathering_done; mret 0
  else mret 0.

Definition process_binding_error (i : nat) (msg : stun_message_t) : M Z :=
  x ← get_entry i;
  a ← get;
  match e_type x with
  | AGENT_STUN_ENTRY_TYPE_CHECK =>
      if error_code msg =? 487 then
        if bool_decide (e_mode x = a_mode a) then
          _ ← set_mode (if bool_decide (e_mode x = AGENT_MODE_CONTROLLING) then AGENT_MODE_CONTROLLED
                        else AGENT_MODE_CONTROLLING);
          b ← juice_random 8;
          _ ← modify (fun a => set_ice_tiebreaker a (unbe (rev b)));
          _ ← agent_update_candidate_pairs;
          _ ← (if negb (bool_decide (e_state x = AGENT_STUN_ENTRY_STATE_IDLE)) then
                 _ ← set_entry_state i AGENT_STUN_ENTRY_STATE_PENDING;
                 agent_arm_transmission i 0
               else mret tt);
          mret 0
        else mret 0
      else _ ← fail_entry i; mret 0
  | AGENT_STUN_ENTRY_TYPE_SERVER =>
      _ ← set_entry_state i AGENT_STUN_ENTRY_STATE_FAILED;
      _ ← agent_update_gathering_done;
      mret 0
  | _ => mret 0
  end.

Definition agent_process_stun_binding (msg : stun_message_t) (i : nat) (src : addr_record_t)
    (relayed : option addr_record_t) : M Z :=
  match msg_class msg with
  | STUN_CLASS_REQUEST => process_binding_request i msg src
  | STUN_CLASS_RESP_SUCCESS => process_binding_success i msg src relayed
  | STUN_CLASS_RESP_ERROR => process_binding_error i msg
  | STUN_CLASS_INDICATION => mret 0
  end.

(** ** TURN messages *)

(** The entry of a relay fails, which may end the gathering. *)
Definition fail_relay (i : nat) : M Z :=
  _ ← set_entry_state i AGENT_STUN_ENTRY_STATE_FAILED;
  _ ← agent_update_gathering_done;
  mret (-1).

Definition set_turn_credentials (i : nat) (msg : stun_message_t) : M unit :=
  x ← get_entry i;
  t ← defined (e_turn x);
  update_entry i (fun x => set_e_turn x (Some (with_turn_credentials t
    (stun_process_credentials (credentials msg) (turn_credentials t))))).

Definition lacks_realm_or_nonce (msg : stun_message_t) : bool :=
  bool_decide (realm (credentials msg) = []) || bool_decide (nonce (credentials msg) = []).

Definition process_allocate_success (i : nat) (msg : stun_message_t) : M Z :=
  if msg_method msg =? STUN_METHOD_REFRESH then mret 0
  else if len (relayed msg) =? 0 then
    _ ← set_entry_state i AGENT_STUN_ENTRY_STATE_FAILED; mret (-1)
  else
    _ ← entry_succeeded i;
    _ ← (if negb (len (mapped msg) =? 0)
         then agent_add_local_reflexive_candidate ICE_CANDIDATE_TYPE_SERVER_REFLEXIVE (mapped msg) else mret 0);
    _ ← update_entry i (fun x => set_e_relayed x (relayed msg));
    ret ← agent_add_local_relayed_candidate (relayed msg);
    if negb (ret =? 0) then mret (-1)
    else _ ← agent_update_gathering_done; mret 0.

Definition process_allocate_error (i : nat) (msg : stun_message_t) : M Z :=
  x ← get_entry i;
  t ← defined (e_turn x);
  if error_code msg =? 401 then
    if negb (bool_decide (realm (turn_credentials t) = [])) then fail_relay i
    else if lacks_realm_or_nonce msg then fail_relay i
    else _ ← set_turn_credentials i msg; _ ← agent_arm_transmission i 0; mret 0
  else if error_code msg =? 438 then
    if lacks_realm_or_nonce msg then fail_relay i
    else _ ← set_turn_credentials i msg; _ ← agent_arm_transmission i 0; mret 0
  else if (msg_method msg =? STUN_METHOD_ALLOCATE) && (error_code msg =? 300) then
    if (len (alternate_server msg) =? 0) || addr_record_is_equal (alternate_server msg) (e_record x) true
    then fail_relay i
    else if MAX_TURN_REDIRECTIONS <=? e_turn_redirections x then fail_relay i
    else
      _ ← update_entry i (fun x => set_e_record (set_e_turn_redirections x (e_turn_redirections x + 1))
                                     (alternate_server msg));
      _ ← agent_arm_transmission i 0;
      mret 0
  else _ ← fail_relay i; mret 0.

Definition agent_process_turn_allocate (msg : stun_message_t) (i : nat) : M Z :=
  if negb (msg_method msg =? STUN_METHOD_ALLOCATE) && negb (msg_method msg =? STUN_METHOD_REFRESH)
  then mret (-1)
  else
    x ← get_entry i;
    if negb (bool_decide (e_type x = AGENT_STUN_ENTRY_TYPE_RELAY)) then mret (-1)
    else if negb (bool_decide (is_Some (e_turn x))) then mret (-1)
    else
      match msg_class msg with
      | STUN_CLASS_RESP_SUCCESS => process_allocate_success i msg
      | STUN_CLASS_RESP_ERROR => process_allocate_error i msg
      | _ => mret (-1)
      end.

(** The handling of CreatePermission and ChannelBind responses: [update] is the
    update of the map on success, [resend] the request sent again. *)
Definition process_turn_response (update : turn_map_t -> option (bool * turn_map_t))
    (resend : addr_record_t -> M unit) (msg : stun_message_t) (i : nat) : M Z :=
  x ← get_entry i;
  if negb (bool_decide (e_type x = AGENT_STUN_ENTRY_TYPE_RELAY)) then mret (-1)
  else
    match e_turn x with
    | None => mret (-1)
    | Some t =>
        match msg_class msg with
        | STUN_CLASS_RESP_SUCCESS =>
            '(_, m) ← defined (update (turn_map t));
            _ ← update_entry i (fun x => set_e_turn x (Some (with_turn_map t m)));
            mret 0
        | STUN_CLASS_RESP_ERROR =>
            if error_code msg =? 438 then
              if lacks_realm_or_nonce msg then mret (-1)
              else
                _ ← set_turn_credentials i msg;
                r ← retrieve_transaction_id i (transaction_id msg);
                _ ← match r with Some record => resend record | None => mret tt end;
                mret 0
            else mret 0
        | _ => mret (-1)
        end
    end.

Definition agent_process_turn_create_permission (msg : stun_message_t) (i : nat) : M Z :=
  process_turn_response
    (fun m => turn_set_permission m (transaction_id msg) None (now) (PERMISSION_LIFETIME / 2))
    (fun r => _ ← agent_send_turn_create_permission_request i r 0; mret tt) msg i.

Definition agent_process_turn_channel_bind (msg : stun_message_t) (i : nat) : M Z :=
  process_turn_response
    (fun m => turn_bind_current_channel m (transaction_id msg) None (now) (BIND_LIFETIME / 2))
    (fun r => _ ← agent_send_turn_channel_bind_request i r 0; mret tt) msg i.

(** ** Datagrams *)

Section Input.
(** [agent_input] for a datagram received over a relay. *)
Context (input : list Z -> addr_record_t -> addr_record_t -> M Z).

Definition agent_process_turn_data (msg : stun_message_t) (i : nat) : M Z :=
  x ← get_entry i;
  if negb (bool_decide (e_type x = AGENT_STUN_ENTRY_TYPE_RELAY)) then mret (-1)
  else if negb (bool_decide (msg_class msg = STUN_CLASS_INDICATION)) then mret (-1)
  else
    match data msg, peers msg with
    | Some data, peer :: _ => input data peer (e_relayed x)
    | _, _ => mret (-1)
    end.

Definition agent_process_channel_data (i : nat) (buf : list Z) : M Z :=
  if zlen buf <? sizeof_channel_data_header then mret (-1)
  else
    channel ← defined (load16 buf 0);
    length ← defined (load16 buf 2);
    let payload := drop (Z.to_nat sizeof_channel_data_header) buf in
    if zlen payload <? length then mret (-1)
    else
      x ← get_entry i;
      t ← defined (e_turn x);
      src ← defined (turn_find_channel (turn_map t) channel);
      match src with
      | None => mret (-1)
      | Some src => input (take (Z.to_nat length) payload) src (e_relayed x)
      end.

(** The switch on the method, for the entry found. *)
Definition dispatch_method (buf : list Z) (msg : stun_message_t) (i : nat) (src : addr_record_t)
    (relayed : option addr_record_t) : M Z :=
  let method := msg_method msg in
  if method =? STUN_METHOD_BINDING then
    x ← get_entry i;
    if bool_decide (e_type x = AGENT_STUN_ENTRY_TYPE_CHECK) && negb (has_integrity msg) &&
       (bool_decide (msg_class msg = STUN_CLASS_REQUEST) ||
        bool_decide (msg_class msg = STUN_CLASS_RESP_SUCCESS))
    then mret (-1)
    else agent_process_stun_binding msg i src relayed
  else if (method =? STUN_METHOD_ALLOCATE) || (method =? STUN_METHOD_REFRESH) then
    '(ret, msg) ← agent_verify_credentials i buf msg;
    if negb (ret =? 0) then mret (-1) else agent_process_turn_allocate msg i
  else if method =? STUN_METHOD_CREATE_PERMISSION then
    '(ret, msg) ← agent_verify_credentials i buf msg;
    if negb (ret =? 0) then mret (-1) else agent_process_turn_create_permission msg i
  else if method =? STUN_METHOD_CHANNEL_BIND then
    '(ret, msg) ← agent_verify_credentials i buf msg;
    if negb (ret =? 0) then mret (-1) else agent_process_turn_channel_bind msg i
  else if method =? STUN_METHOD_DATA then agent_process_turn_data msg i
  else mret (-1).

(** The verification of a message of the peer; its address may be new. *)
Definition dispatch_peer (buf : list Z) (msg : stun_message_t) (src : addr_record_t) : M (Z * list Z) :=
  if (msg_method msg =? STUN_METHOD_BINDING) && has_integrity msg then
    '(ret, buf) ← agent_verify_stun_binding buf msg;
    if negb (ret =? 0) then mret (-1, buf)
    else
      _ ← agent_add_remote_reflexive_candidate ICE_CANDIDATE_TYPE_PEER_REFLEXIVE (StunTypes.priority msg) src;
      mret (0, buf)
  else mret (0, buf).

Definition agent_dispatch_stun (buf : list Z) (msg : stun_message_t) (src : addr_record_t)
    (relayed : option addr_record_t) : M Z :=
  '(ret, buf) ← dispatch_peer buf msg src;
  if negb (ret =? 0) then mret (-1)
  else if STUN_IS_RESPONSE (msg_class msg) then
    found ← agent_find_entry_from_transaction_id (transaction_id msg);
    match found with
    | None => mret (-1)
    | Some i => dispatch_method buf msg i src relayed
    end
  else
    found ← agent_find_entry_from_record src relayed;
    match found with
    | None => mret 0
    | Some i => dispatch_method buf msg i src relayed
    end.

(** The body of [agent_input]. *)
Definition input_body (buf : list Z) (src : addr_record_t) (relayed : option addr_record_t) : M Z :=
  a ← get;
  if bool_decide (a_state a = JUICE_STATE_DISCONNECTED) || bool_decide (a_state a = JUICE_STATE_GATHERING)
  then mret 0
  else
    stun ← defined (is_stun_datagram buf (zlen buf));
    if (stun : bool) then
      '(ret, buf, msg) ← defined (stun_read buf (zlen buf));
      if ret <? 0 then mret (-1) else agent_dispatch_stun buf msg src relayed
    else
      found ← agent_find_entry_from_record src relayed;
      match found with
      | None => mret (-1)
      | Some i =>
          x ← get_entry i;
          match e_type x with
          | AGENT_STUN_ENTRY_TYPE_RELAY =>
              channel ← defined (is_channel_data buf (zlen buf));
              if (channel : bool) then agent_process_channel_data i buf else mret (-1)
          | AGENT_STUN_ENTRY_TYPE_CHECK => _ ← emit (Received buf); mret 0
          | _ => mret (-1)
          end
      end.
End Input.

(** A datagram within a datagram within a datagram is never looked at: [fuel] is
    the depth. *)
Fixpoint agent_input (fuel : nat) (buf : list Z) (src : addr_record_t) (relayed : option addr_record_t) : M Z :=
  match fuel with
  | O => defined None
  | S fuel' => input_body (fun buf src r => agent_input fuel' buf src (Some r)) buf src relayed
  end.

Definition INPUT_DEPTH : nat := 2.

Definition agent_conn_recv (buf : list Z) (src : addr_record_t) : M Z :=
  _ ← agent_input INPUT_DEPTH buf src None; mret 0.

Definition agent_conn_fail : M Z :=
  _ ← agent_change_state JUICE_STATE_FAILED;
  _ ← modify (fun a => set_selected_entry a None);
  mret 0.

End Agent.
