(* ===== verification/AgentUpdate.v ===== *)
(** * The ICE agent: bookkeeping (src/agent.c)

    The periodic update of an agent: retransmissions, keepalives, consent, the
    selection and nomination of a pair and the state of the agent. *)

From S2P Require Import Prelude Effects CText Addr Turn Ice IceSdp StunTypes StunWrite StunRead AgentTypes Agent AgentMessages.

Section Agent.
Context `{Crypto} `{System}.

(** ** TCP connections *)

Fixpoint tcp_state_loop (n i : nat) (dst : addr_record_t) (st : tcp_state_t) : M Z :=
  match n with
  | O => mret (-1)
  | S n' =>
      x ← get_entry i;
      tcp ← entry_is_tcp x;
      if tcp && addr_record_is_equal (e_record x) dst true then
        _ ← update_entry i (fun x => set_e_tcp_state x st);
        _ ← match st with
            | TCP_STATE_CONNECTED => agent_arm_transmission i 0
            | TCP_STATE_DISCONNECTED | TCP_STATE_FAILED => _ ← fail_entry i; conn_interrupt
            | TCP_STATE_CONNECTING => mret tt
            end;
        mret 0
      else tcp_state_loop n' (S i) dst st
  end.

Definition agent_conn_tcp_state (dst : addr_record_t) (st : tcp_state_t) : M Z :=
  a ← get; tcp_state_loop (length (entries a)) 0 dst st.

(** ** Bookkeeping *)

(** A new transaction id if the old one has expired. *)
Definition renew_transaction_id (i : nat) : M unit :=
  x ← get_entry i;
  if e_transaction_id_expired x then
    tid ← juice_random 12;
    update_entry i (fun x => set_e_transaction_id_expired (set_e_transaction_id x tid) false)
  else mret tt.

(** The next retransmission after a request was sent. *)
Definition schedule_retransmission (x : agent_stun_entry_t) : agent_stun_entry_t :=
  let x := set_e_retransmissions x (e_retransmissions x - 1) in
  if e_retransmissions x <? 0 then set_e_next_transmission x (now + LAST_STUN_RETRANSMISSION_TIMEOUT)
  else set_e_retransmission_timeout (set_e_next_transmission x (now + e_retransmission_timeout x))
         (e_retransmission_timeout x * 2).

(** The request of a pending entry is sent: whether it was. *)
Definition transmit (i : nat) : M bool :=
  x ← get_entry i;
  if 0 <=? e_retransmissions x then
    _ ← renew_transaction_id i;
    ret ← match e_type x with
          | AGENT_STUN_ENTRY_TYPE_RELAY => agent_send_turn_allocate_request i STUN_METHOD_ALLOCATE
          | _ => agent_send_stun_binding i STUN_CLASS_REQUEST 0 None None
          end;
    if 0 <=? ret then _ ← update_entry i schedule_retransmission; mret true else mret false
  else mret false.

(** The end of the retransmissions, or a failure to send. *)
Definition pending_failed (i : nat) : M unit :=
  x ← get_entry i;
  match e_type x with
  | AGENT_STUN_ENTRY_TYPE_RELAY | AGENT_STUN_ENTRY_TYPE_SERVER =>
      _ ← update_entry i (fun x => set_e_next_transmission (set_e_state x AGENT_STUN_ENTRY_STATE_FAILED) 0);
      agent_update_gathering_done
  | _ => fail_entry i
  end.

(** [TcpConnect] is the call of [conn_tcp_connect], which only the poll mode acts on: it
    makes the connection a connecting one, for which the test below is the same. *)
Definition update_pending (i : nat) : M unit :=
  x ← get_entry i;
  if now <? e_next_transmission x then mret tt
  else
    tcp ← entry_is_tcp x;
    a ← get;
    _ ← (if tcp && bool_decide (e_tcp_state x = TCP_STATE_DISCONNECTED) && conn_started a
         then emit (TcpConnect (e_record x)) else mret tt);
    if tcp && negb (bool_decide (e_tcp_state x = TCP_STATE_CONNECTED)) then mret tt
    else
      sent ← transmit i;
      if (sent : bool) then mret tt else pending_failed i.

Definition update_keepalive (i : nat) : M unit :=
  x ← get_entry i;
  a ← get;
  p ← defined (pair_of a x);
  if match p with Some p => consent_expiry p <=? now | None => false end then fail_entry i
  else if now <? e_next_transmission x then mret tt
  else
    tid ← juice_random 12;
    _ ← update_entry i (fun x => set_e_transaction_id_expired (set_e_transaction_id x tid) false);
    ret ← match e_type x with
          | AGENT_STUN_ENTRY_TYPE_RELAY => agent_send_turn_allocate_request i STUN_METHOD_REFRESH
          | _ => agent_send_stun_binding i STUN_CLASS_REQUEST 0 None None
          end;
    if ret <? 0 then agent_arm_transmission i STUN_KEEPALIVE_PERIOD else agent_arm_keepalive i.

Definition update_one (i : nat) : M unit :=
  x ← get_entry i;
  match e_state x with
  | AGENT_STUN_ENTRY_STATE_PENDING => update_pending i
  | AGENT_STUN_ENTRY_STATE_SUCCEEDED_KEEPALIVE => update_keepalive i
  | _ => update_entry i (fun x => set_e_next_transmission x 0)
  end.

Fixpoint update_entries (n i : nat) : M unit :=
  match n with
  | O => mret tt
  | S n' => _ ← update_one i; update_entries n' (S i)
  end.

(** What the scan of the pairs in order finds; it also freezes pairs. *)
Record scan_t := {
  scan_pairs : list agent_pair;
  pending_count : Z;
  nominated_pair : option nat;
  scan_selected : option nat
}.

Definition freeze (ps : list agent_pair) (q : nat) : list agent_pair :=
  alter (fun p => set_pair_state p ICE_CANDIDATE_PAIR_STATE_FROZEN) q ps.

Definition scan_step (controlling : bool) (s : scan_t) (q : nat) : option scan_t :=
  p ← scan_pairs s !! q;
  Some (if nominated p then
          match nominated_pair s with
          | None => {| scan_pairs := scan_pairs s; pending_count := pending_count s;
                       nominated_pair := Some q; scan_selected := Some q |}
          | Some _ => s
          end
        else
          match state p with
          | ICE_CANDIDATE_PAIR_STATE_SUCCEEDED =>
              match scan_selected s with
              | None => {| scan_pairs := scan_pairs s; pending_count := pending_count s;
                           nominated_pair := nominated_pair s; scan_selected := Some q |}
              | Some _ => s
              end
          | ICE_CANDIDATE_PAIR_STATE_PENDING =>
              if controlling && bool_decide (is_Some (scan_selected s)) then
                {| scan_pairs := freeze (scan_pairs s) q; pending_count := pending_count s;
                   nominated_pair := nominated_pair s; scan_selected := scan_selected s |}
              else
                {| scan_pairs := scan_pairs s; pending_count := pending_count s + 1;
                   nominated_pair := nominated_pair s; scan_selected := scan_selected s |}
          | _ => s
          end).

Fixpoint scan_loop (controlling : bool) (s : scan_t) (l : list nat) : option scan_t :=
  match l with
  | [] => Some s
  | q :: l' => s ← scan_step controlling s q; scan_loop controlling s l'
  end.

(** The loop that freezes the pending pairs but the nominated one. *)
Fixpoint freeze_others (ps : list agent_pair) (nom : nat) (l : list nat) : option (list agent_pair) :=
  match l with
  | [] => Some ps
  | q :: l' =>
      p ← ps !! q;
      if negb (bool_decide (q = nom)) && bool_decide (state p = ICE_CANDIDATE_PAIR_STATE_PENDING)
      then freeze_others (freeze ps q) nom l' else freeze_others ps nom l'
  end.

Definition scan (a : juice_agent_t) : option scan_t :=
  let controlling := bool_decide (a_mode a = AGENT_MODE_CONTROLLING) in
  s ← scan_loop controlling
        {| scan_pairs := candidate_pairs a; pending_count := 0; nominated_pair := None; scan_selected := None |}
        (ordered_pairs a);
  match nominated_pair s with
  | Some nom =>
      if controlling then
        ps ← freeze_others (scan_pairs s) nom (ordered_pairs a);
        Some {| scan_pairs := ps; pending_count := 0; nominated_pair := Some nom;
                scan_selected := scan_selected s |}
      else Some s
  | None => Some s
  end.

(** The entry of a frozen pair is cancelled. *)
Definition cancel_entry (ps : list agent_pair) (x : agent_stun_entry_t) : option agent_stun_entry_t :=
  match e_pair x with
  | None => Some x
  | Some p =>
      p ← ps !! p;
      Some (if bool_decide (state p = ICE_CANDIDATE_PAIR_STATE_FROZEN) &&
               negb (bool_decide (e_state x = AGENT_STUN_ENTRY_STATE_IDLE)) &&
               negb (bool_decide (e_state x = AGENT_STUN_ENTRY_STATE_CANCELLED))
            then set_e_next_transmission (set_e_state x AGENT_STUN_ENTRY_STATE_CANCELLED) 0 else x)
  end.

Definition connection_failed : M unit :=
  _ ← agent_change_state JUICE_STATE_FAILED;
  modify (fun a => set_selected_entry a None).

(** A new selected pair. *)
Definition select_pair (p : nat) : M unit :=
  a ← get;
  if bool_decide (selected_pair a = Some p) then mret tt
  else
    let a := set_selected_pair a (Some p) in
    let a := if bool_decide (a_mode a = AGENT_MODE_CONTROLLING)
             then set_nomination_timestamp a (now + NOMINATION_TIMEOUT) else a in
    put (match entry_of_pair a p with Some i => set_selected_entry a (Some i) | None => a end).

(** Turns on the keepalives of an entry: whether they were off. *)
Definition enable_keepalive (i : nat) : M bool :=
  x ← get_entry i;
  if bool_decide (e_state x = AGENT_STUN_ENTRY_STATE_SUCCEEDED_KEEPALIVE) then mret false
  else
    _ ← set_entry_state i AGENT_STUN_ENTRY_STATE_SUCCEEDED_KEEPALIVE;
    _ ← agent_arm_keepalive i;
    mret true.

Definition disable_keepalives (keep1 keep2 : option nat) : M unit :=
  modify (fun a => set_entries a
    (imap (fun i x =>
       if negb (bool_decide (keep1 = Some i)) && negb (bool_decide (keep2 = Some i)) &&
          bool_decide (e_state x = AGENT_STUN_ENTRY_STATE_SUCCEEDED_KEEPALIVE)
       then set_e_state x AGENT_STUN_ENTRY_STATE_SUCCEEDED else x) (entries a))).

(** A pair is nominated. *)
Definition complete (nom : nat) : M unit :=
  a ← get;
  _ ← (if bool_decide (a_state a = JUICE_STATE_CONNECTING) then agent_change_state JUICE_STATE_CONNECTED
       else mret tt);
  _ ← agent_change_state JUICE_STATE_COMPLETED;
  a ← get;
  let nominated_entry := entry_of_pair a nom in
  relay_entry ← match nominated_entry with
                | Some i => x ← get_entry i; mret (e_relay_entry x)
                | None => mret None
                end;
  _ ← match nominated_entry with
      | Some i => on ← enable_keepalive i;
                  if (on : bool) then modify (fun a => set_selected_entry a (Some i)) else mret tt
      | None => mret tt
      end;
  _ ← match relay_entry with
      | Some i => _ ← enable_keepalive i; mret tt
      | None => mret tt
      end;
  disable_keepalives nominated_entry relay_entry.

(** A pair is selected and none nominated; the timestamp of the next update. *)
Definition connect (sel : nat) (pending : Z) (next : Z) : M Z :=
  _ ← agent_change_state JUICE_STATE_CONNECTED;
  a ← get;
  p ← get_pair sel;
  if bool_decide (a_mode a = AGENT_MODE_CONTROLLING) && negb (nomination_requested p) then
    let timer := nomination_timestamp a in
    if (pending =? 0) || (negb (timer =? 0) && (timer <=? now)) then
      _ ← update_pair sel (fun p => set_pair_nomination_requested p true);
      _ ← match entry_of_pair a sel with
          | Some i =>
              _ ← update_entry i (fun x =>
                    set_e_transaction_id_expired (set_e_state x AGENT_STUN_ENTRY_STATE_PENDING) true);
              agent_arm_transmission i 0
          | None => mret tt
          end;
      mret next
    else mret (if negb (timer =? 0) && (timer <? next) then timer else next)
  else mret next.

(** The round of the last loop for an entry. *)
Definition next_round (ps : list agent_pair) (sel : option nat) (next : Z) (x : agent_stun_entry_t) : option Z :=
  let next := if negb (e_next_transmission x =? 0) && (e_next_transmission x <? next)
              then e_next_transmission x else next in
  match e_state x, e_pair x with
  | AGENT_STUN_ENTRY_STATE_SUCCEEDED_KEEPALIVE, Some p =>
      p ← ps !! p;
      if consent_expiry p <? next then s ← sel; s ← ps !! s; Some (consent_expiry s) else Some next
  | _, _ => Some next
  end.

Fixpoint next_rounds (ps : list agent_pair) (sel : option nat) (next : Z) (l : list agent_stun_entry_t)
  : option Z :=
  match l with
  | [] => Some next
  | x :: l' => next ← next_round ps sel next x; next_rounds ps sel next l'
  end.

Definition next_timestamp (sel : option nat) (next : Z) : M Z :=
  a ← get; defined (next_rounds (candidate_pairs a) sel next (entries a)).

(** The selection of a pair and the state of the agent; [None] ends the update. *)
Definition update_selection (s : scan_t) (next : Z) : M (option Z) :=
  lost ← match nominated_pair s with
         | Some nom => p ← get_pair nom; mret (bool_decide (state p = ICE_CANDIDATE_PAIR_STATE_FAILED))
         | None => mret false
         end;
  if (lost : bool) then _ ← connection_failed; mret None
  else
    match scan_selected s with
    | Some sel =>
        _ ← select_pair sel;
        match nominated_pair s with
        | Some nom => _ ← complete nom; mret (Some next)
        | None => next ← connect sel (pending_count s) next; mret (Some next)
        end
    | None =>
        a ← get;
        if (pending_count s =? 0) && negb (pac_timestamp a =? 0) then
          if pac_timestamp a <=? now then _ ← connection_failed; mret None
          else mret (Some (if pac_timestamp a <? next then pac_timestamp a else next))
        else mret (Some next)
    end.

(** The result is the time of the next update. *)
Definition agent_bookkeeping : M Z :=
  let next := now + 6000000 in
  a ← get;
  if bool_decide (a_state a = JUICE_STATE_DISCONNECTED) || bool_decide (a_state a = JUICE_STATE_GATHERING)
  then mret next
  else
    _ ← update_entries (length (entries a)) 0;
    a ← get;
    s ← defined (scan a);
    xs ← defined (mapM (cancel_entry (scan_pairs s)) (entries a));
    _ ← put (set_entries (set_candidate_pairs a (scan_pairs s)) xs);
    r ← update_selection s next;
    match r with
    | None => mret next
    | Some next => next_timestamp (scan_selected s) next
    end.

Definition agent_conn_update : M Z := agent_bookkeeping.

End Agent.
