(* ===== verification/AgentCalls.v ===== *)
(** * The ICE agent: the calls of the application (src/agent.c)

    Creation, gathering of candidates, descriptions and sending of data. *)

From S2P Require Import Prelude Effects CText Addr Turn Ice IceSdp StunTypes StunWrite StunRead AgentTypes Agent AgentMessages.

Section Agent.
Context `{Crypto} `{System}.

(** ** The application's calls *)

Definition assume_controlling : M unit :=
  a ← get;
  if bool_decide (a_mode a = AGENT_MODE_UNKNOWN) then set_mode AGENT_MODE_CONTROLLING else mret tt.

(** The loop of [agent_gather_candidates] over the addresses of the host. *)
Fixpoint add_host_candidates (records : list addr_record_t) (d : ice_description_t) : ice_description_t :=
  match records with
  | [] => d
  | r :: records' =>
      let '(ret, c) := ice_create_local_candidate getnameinfo ICE_CANDIDATE_TYPE_HOST 1 (candidates_count d) r
                         ICE_CANDIDATE_TRANSPORT_UDP in
      if negb (ret =? 0) then add_host_candidates records' d
      else if MAX_HOST_CANDIDATES_COUNT <=? candidates_count d then d
      else let '(_, _, d) := ice_add_candidate c d in add_host_candidates records' d
  end.

(** The TCP candidate for the first address of a family. *)
Definition add_tcp_candidate (records : list addr_record_t) (family : Z) : M unit :=
  match List.find (fun r => sa_family (addr r) =? family) records with
  | None => mret tt
  | Some r =>
      _ ← agent_add_local_tcp_active_candidate
            {| addr := snd (addr_set_port (addr r) 9); len := len r; socktype := SOCK_STREAM |};
      mret tt
  end.

(** The callbacks for the host candidates. *)
Fixpoint announce_host_candidates (cs : list ice_candidate_t) : M unit :=
  match cs with
  | [] => mret tt
  | c :: cs' =>
      _ ← (if bool_decide (type c = ICE_CANDIDATE_TYPE_HOST)
           then match candidate_sdp c with Some sdp => emit (NewCandidate sdp) | None => mret tt end
           else mret tt);
      announce_host_candidates cs'
  end.

Definition is_numeric (host : option (list Z)) : bool :=
  match host with
  | None => true
  | Some h => addr_is_numeric_hostname (fun h s t => getaddrinfo h s t true) h
  end.

Definition has_nonnumeric_server_hostnames (c : juice_config_t) : bool :=
  negb (is_numeric (stun_server_host c)) || existsb (fun t => negb (is_numeric (host t))) (turn_servers c).

(** The record used among those of a TURN server: IPv4 is preferred. *)
Fixpoint prefer_ipv4 (records : list addr_record_t) (found : option addr_record_t) : option addr_record_t :=
  match records with
  | [] => found
  | r :: records' =>
      if sa_family (addr r) =? AF_INET then Some r
      else if (sa_family (addr r) =? AF_INET6) && negb (bool_decide (is_Some found))
      then prefer_ipv4 records' (Some r) else prefer_ipv4 records' found
  end.

(** [port] printed by [%hu], and the first records that [addr_resolve] returns. *)
Definition resolve_server (host : list Z) (port : Z) (max : Z) : Z * list addr_record_t :=
  let '(n, records) := addr_resolve (fun h s t => getaddrinfo h s t false)
                         (default [] (snd (snprintf 256 host))) (default [] (snd (snprintf 8 (fmt_u (u16 port)))))
                         SOCK_DGRAM (Z.to_nat max) in
  (n, take (Z.to_nat max) records).

Definition new_request_entry (t : agent_stun_entry_type_t) (r : addr_record_t) (tid : list Z)
    (turn : option agent_turn_state_t) : agent_stun_entry_t :=
  {| e_type := t; e_state := AGENT_STUN_ENTRY_STATE_PENDING; e_mode := e_mode entry_zero; e_pair := None;
     e_record := r; e_relayed := e_relayed entry_zero; e_transaction_id := tid;
     e_next_transmission := e_next_transmission entry_zero;
     e_retransmission_timeout := e_retransmission_timeout entry_zero;
     e_retransmissions := e_retransmissions entry_zero; e_transaction_id_expired := false;
     e_tcp_state := e_tcp_state entry_zero; e_turn := turn; e_turn_redirections := 0;
     e_relay_entry := e_relay_entry entry_zero |}.

Definition set_port (k : nat) (p : Z) : M unit :=
  modify (fun a => let c := a_config a in
    set_a_config a {| concurrency_mode := concurrency_mode c; stun_server_host := stun_server_host c;
                      stun_server_port := stun_server_port c;
                      turn_servers := alter (fun t => {| host := host t; ts_username := ts_username t;
                                                         ts_password := ts_password t; port := p |}) k (turn_servers c) |}).

(** An entry for a TURN server, unless there is one for the same address:
    whether it was added. *)
Definition add_relay_entry (t : juice_turn_server_t) (k : nat) (r : addr_record_t) : M bool :=
  a ← get;
  if existsb (fun x => bool_decide (e_type x = AGENT_STUN_ENTRY_TYPE_RELAY) &&
                       addr_record_is_equal (e_record x) r true) (entries a) then mret false
  else
    tid ← juice_random 12;
    i ← push_entry (new_request_entry AGENT_STUN_ENTRY_TYPE_RELAY r tid
          (Some {| turn_map := turn_init_map AGENT_TURN_MAP_SIZE;
                   turn_credentials := set_username stun_credentials_zero
                     (default [] (snd (snprintf STUN_MAX_USERNAME_LEN (ts_username t))));
                   turn_password := ts_password t |}));
    _ ← agent_arm_transmission i (STUN_PACING_TIME * Z.of_nat k);
    mret true.

(** The loop over the TURN servers, from server [k], with [count] in use. *)
Fixpoint resolve_turn_servers (n k : nat) (count : Z) : M unit :=
  match n with
  | O => mret tt
  | S n' =>
      if MAX_RELAY_ENTRIES_COUNT <=? count then mret tt
      else
        a ← get;
        t ← defined (turn_servers (a_config a) !! k);
        match host t with
        | None => resolve_turn_servers n' (S k) count
        | Some h =>
            let p := if port t =? 0 then 3478 else port t in
            _ ← set_port k p;
            let '(found, records) := resolve_server h p DEFAULT_MAX_RECORDS_COUNT in
            if 0 <? found then
              match prefer_ipv4 records None with
              | None => resolve_turn_servers n' (S k) count
              | Some r =>
                  added ← add_relay_entry t k r;
                  resolve_turn_servers n' (S k) (if (added : bool) then count + 1 else count)
              end
            else resolve_turn_servers n' (S k) count
        end
  end.

(** The entries for the addresses of the STUN server, from address [k]. *)
Fixpoint add_server_entries (records : list addr_record_t) (k : nat) : M unit :=
  match records with
  | [] => mret tt
  | r :: records' =>
      if MAX_SERVER_ENTRIES_COUNT <=? Z.of_nat k then mret tt
      else
        tid ← juice_random 12;
        i ← push_entry (new_request_entry AGENT_STUN_ENTRY_TYPE_SERVER r tid (e_turn entry_zero));
        _ ← agent_arm_transmission i (STUN_PACING_TIME * Z.of_nat k);
        add_server_entries records' (S k)
  end.

Definition resolve_stun_server : M unit :=
  a ← get;
  let c := a_config a in
  match stun_server_host c with
  | None => mret tt
  | Some h =>
      let p := if stun_server_port c =? 0 then 3478 else stun_server_port c in
      _ ← put (set_a_config a {| concurrency_mode := concurrency_mode c; stun_server_host := stun_server_host c;
                                 stun_server_port := p; turn_servers := turn_servers c |});
      let '(found, records) := resolve_server h p MAX_STUN_SERVER_RECORDS_COUNT in
      if 0 <? found then add_server_entries records 0 else mret tt
  end.

Definition agent_resolve_servers : M Z :=
  a ← get;
  _ ← (if bool_decide (concurrency_mode (a_config a) = JUICE_CONCURRENCY_MODE_MUX) then mret tt
       else resolve_turn_servers (length (turn_servers (a_config a))) 0 0);
  _ ← resolve_stun_server;
  _ ← agent_update_gathering_done;
  _ ← conn_interrupt;
  mret 0.

(** The part of [agent_gather_candidates] under the lock. *)
Definition gather_local (records : list addr_record_t) : M unit :=
  _ ← modify (fun a => set_a_local a (add_host_candidates records (a_local a)));
  a ← get;
  _ ← (if bool_decide (a_ice_tcp_mode a = JUICE_ICE_TCP_MODE_ACTIVE) && negb (bool_decide (records = [])) then
         _ ← add_tcp_candidate records AF_INET6; add_tcp_candidate records AF_INET
       else mret tt);
  _ ← modify (fun a => set_a_local a (ice_sort_candidates (a_local a)));
  a ← get;
  _ ← announce_host_candidates (candidates (a_local a));
  _ ← agent_change_state JUICE_STATE_CONNECTING;
  conn_interrupt.

Definition agent_gather_candidates : M Z :=
  a ← get;
  if conn_started a then mret 0
  else
    _ ← assume_controlling;
    _ ← agent_change_state JUICE_STATE_GATHERING;
    if negb (conn_create =? 0) then mret (-1)
    else
      _ ← modify (fun a => set_conn_started a true);
      _ ← conn_interrupt;
      let '(n, records) := conn_addrs in
      _ ← gather_local (take (Z.to_nat (Z.min n (ICE_MAX_CANDIDATES_COUNT - 1))) records);
      a ← get;
      if has_nonnumeric_server_hostnames (a_config a) then
        if negb (thread_init =? 0) then _ ← agent_update_gathering_done; mret (-1)
        else _ ← emit ResolverStarted; mret 0
      else agent_resolve_servers.

(** The result and the text. *)
Definition agent_get_local_description (size : Z) : M (Z * list Z) :=
  a ← get;
  let '(n, sdp) := ice_generate_sdp (a_local a) size in
  if n <? 0 then mret (-1, sdp) else _ ← assume_controlling; mret (0, sdp).

Fixpoint unfreeze_all (n p : nat) : M unit :=
  match n with
  | O => mret tt
  | S n' => _ ← agent_unfreeze_candidate_pair p; unfreeze_all n' (S p)
  end.

Fixpoint add_remotes (n k : nat) : M unit :=
  match n with
  | O => mret tt
  | S n' => _ ← agent_add_candidate_pairs_for_remote (Remote k); add_remotes n' (S k)
  end.

Definition agent_set_remote_description (sdp : list Z) : M Z :=
  let '(ret, d) := ice_parse_sdp getaddrinfo sdp in
  if ret <? 0 then mret JUICE_ERR_INVALID
  else
    a ← get;
    let old := a_remote a in
    if negb (bool_decide (ice_ufrag old = [])) then
      mret (if bool_decide (ice_ufrag old = ice_ufrag d) && bool_decide (ice_pwd old = ice_pwd d)
            then JUICE_ERR_SUCCESS else JUICE_ERR_FAILED)
    else
      _ ← set_remote d;
      _ ← agent_update_pac_timer;
      _ ← (if ice_lite d && negb (bool_decide (a_mode a = AGENT_MODE_CONTROLLING))
           then set_mode AGENT_MODE_CONTROLLING
           else if bool_decide (a_mode a = AGENT_MODE_UNKNOWN) then set_mode AGENT_MODE_CONTROLLED else mret tt);
      _ ← unfreeze_all (length (candidate_pairs a)) 0;
      _ ← add_remotes (length (candidates d)) 0;
      _ ← conn_interrupt;
      mret JUICE_ERR_SUCCESS.

Definition agent_add_remote_candidate (sdp : list Z) : M Z :=
  a ← get;
  if finished (a_remote a) then mret JUICE_ERR_FAILED
  else
    match ice_parse_candidate_sdp getaddrinfo sdp with
    | inl ret => mret (if ret =? ICE_PARSE_IGNORED then JUICE_ERR_IGNORED else JUICE_ERR_INVALID)
    | inr c =>
        let '(ret, _, d) := ice_add_candidate c (a_remote a) in
        if negb (ret =? 0) then mret JUICE_ERR_FAILED
        else
          _ ← set_remote d;
          ret ← agent_add_candidate_pairs_for_remote (Remote (length (candidates d) - 1));
          if negb (ret =? 0) then mret JUICE_ERR_FAILED
          else _ ← conn_interrupt; mret JUICE_ERR_SUCCESS
    end.

(** The size of the arrays for the user fragment and the password. *)
Definition ICE_FIELD_SIZE : Z := 256 + 1.

Definition agent_set_local_ice_attributes (ufrag pwd : list Z) : M Z :=
  a ← get;
  if conn_started a then mret JUICE_ERR_FAILED
  else if (zlen ufrag <? 4) || (256 <? zlen ufrag) || (zlen pwd <? 22) || (256 <? zlen pwd) ||
          negb (ice_is_valid_string (Some ufrag)) || negb (ice_is_valid_string (Some pwd))
  then mret JUICE_ERR_INVALID
  else
    let d := a_local a in
    _ ← set_local {| ice_ufrag := default [] (snd (snprintf ICE_FIELD_SIZE ufrag));
                     ice_pwd := default [] (snd (snprintf ICE_FIELD_SIZE pwd));
                     ice_lite := ice_lite d; candidates := candidates d; finished := finished d |};
    mret JUICE_ERR_SUCCESS.

Definition agent_add_turn_server (t : juice_turn_server_t) : M Z :=
  a ← get;
  if conn_started a then mret (-1)
  else
    let c := a_config a in
    _ ← put (set_a_config a {| concurrency_mode := concurrency_mode c; stun_server_host := stun_server_host c;
                               stun_server_port := stun_server_port c; turn_servers := turn_servers c ++ [t] |});
    mret 0.

Definition agent_set_remote_gathering_done : M Z :=
  _ ← modify (fun a => set_a_remote a (with_finished (a_remote a)));
  _ ← conn_interrupt;
  mret 0.

Definition agent_set_ice_tcp_mode (m : juice_ice_tcp_mode_t) : M Z :=
  a ← get;
  if conn_started a then mret JUICE_ERR_FAILED
  else _ ← put (set_a_ice_tcp_mode a m); mret JUICE_ERR_SUCCESS.

Definition agent_send (data : list Z) (ds : Z) : M Z :=
  a ← get;
  match selected_entry a with
  | None => mret (-1)
  | Some i =>
      x ← get_entry i;
      match e_relay_entry x with
      | Some r => agent_channel_send r (e_record x) data ds
      | None => agent_direct_send (e_record x) data ds
      end
  end.

Definition agent_get_state : M juice_state_t := a ← get; mret (a_state a).

(** The local and remote candidates, [None] if no pair is selected. *)
Definition agent_get_selected_candidate_pair : M (option (ice_candidate_t * ice_candidate_t)) :=
  a ← get;
  match selected_pair a with
  | None => mret None
  | Some p =>
      pr ← get_pair p;
      r ← defined (remote pr);
      mret (Some (candidate_at a (default (Local 0) (local pr)), candidate_at a r))
  end.

End Agent.

(** A new agent: [rnd_ufrag] and [rnd_pwd] are the draws for its credentials and
    [tiebreaker] its random number. *)
Definition agent_create (c : juice_config_t) (rnd_ufrag rnd_pwd : nat -> Z) (tiebreaker : Z) : juice_agent_t :=
  {| a_config := c; a_state := JUICE_STATE_DISCONNECTED; a_mode := AGENT_MODE_UNKNOWN;
     a_ice_tcp_mode := JUICE_ICE_TCP_MODE_NONE; a_local := ice_create_local_description rnd_ufrag rnd_pwd;
     a_remote := ice_description_zero; candidate_pairs := []; ordered_pairs := []; selected_pair := None;
     entries := []; selected_entry := None; ice_tiebreaker := tiebreaker; pac_timestamp := 0;
     nomination_timestamp := 0; gathering_done := false; conn_started := false; draws := 0 |}.
