(* ===== verification/AgentNet.v ===== *)
(** * Two ICE agents on a network

    Two agents that exchange descriptions, check their pair and send data, run
    step by step: the agents are composed with a network that carries their
    datagrams, and the states reached are used as examples elsewhere. *)

From S2P Require Import Prelude Effects CText Addr Turn Ice IceSdp StunTypes StunWrite StunRead AgentTypes Agent AgentMessages.
From S2P Require Import AgentUpdate AgentCalls.
#[local] Open Scope Z_scope.

(** ** The systems *)

Definition endpoint (host port : Z) : addr_record_t :=
  {| addr := Sin port [192; 0; 2; host]; len := 16; socktype := SOCK_DGRAM |}.

Definition dotted (l : list Z) : list Z :=
  match l with
  | [] => []
  | b :: l => fmt_u b ++ concat ((fun b => 46 :: fmt_u b) <$> l)
  end.

Definition name_of (sa : sockaddr) : option (list Z * list Z) :=
  match sa with Sin p a => Some (dotted a, fmt_u p) | _ => None end.

(** The hosts of the network. *)
Definition hosts : list addr_record_t := [endpoint 1 1000; endpoint 2 2000; endpoint 9 9000].

Definition lookup_name : getaddrinfo_t := fun h s t _ =>
  match List.find (fun r => bool_decide (name_of (addr r) = Some (h, s))) hosts with
  | Some r => Some [ {| ai_socktype := t; ai_addr := addr r; ai_addrlen := len r |} ]
  | None => None
  end.

(** A host at [me]: draws differ between hosts and between draws. *)
Definition host_system (me : addr_record_t) (t : Z) : System :=
  {| getnameinfo := name_of; getaddrinfo := lookup_name; uninit := [0; 0]; stack := replicate 4096 0; now := t;
     random_bytes := fun n => be 4 (Z.of_nat n + 1) ++ be 8 (addr_get_port (addr me)) ++ replicate 4 7;
     conn_send := fun _ data => zlen data; conn_create := 0; conn_addrs := (1, [me]); thread_init := 0 |}.

Definition plain_config : juice_config_t :=
  {| concurrency_mode := JUICE_CONCURRENCY_MODE_POLL; stun_server_host := None; stun_server_port := 0;
     turn_servers := [] |}.

(** ** A network of two agents *)

(** Each agent with its address and the datagrams on their way to it. *)
Record peer_t := { peer_addr : addr_record_t; peer_agent : juice_agent_t; peer_inbox : list (addr_record_t * list Z) }.

Definition run_peer {A} (t : Z) (c : Crypto -> System -> M A) (p : peer_t) : option (A * peer_t * list event) :=
  '(x, a, tr) ← c sum_crypto (host_system (peer_addr p) t) (peer_agent p);
  Some (x, {| peer_addr := peer_addr p; peer_agent := a; peer_inbox := peer_inbox p |}, tr).

(** The datagrams of a trace that are for [dst], from [src]. *)
Definition carried (src dst : addr_record_t) (tr : list event) : list (addr_record_t * list Z) :=
  omap (fun ev => match ev with
                  | Sent d data _ => if bool_decide (d = dst) then Some (src, data) else None
                  | _ => None
                  end) tr.

Definition post (p : peer_t) (l : list (addr_record_t * list Z)) : peer_t :=
  {| peer_addr := peer_addr p; peer_agent := peer_agent p; peer_inbox := peer_inbox p ++ l |}.

(** [p] runs a step, the datagrams it sends go to [q]. *)
Definition net_step {A} (t : Z) (c : Crypto -> System -> M A) (p q : peer_t) : option (A * peer_t * peer_t * list event) :=
  '(x, p, tr) ← run_peer t c p;
  Some (x, p, post q (carried (peer_addr p) (peer_addr q) tr), tr).

(** [p] receives what is on its way to it. *)
Fixpoint receive_all (n : nat) (t : Z) (p q : peer_t) (seen : list event) : option (peer_t * peer_t * list event) :=
  match n, peer_inbox p with
  | S n', (src, data) :: inbox =>
      let p := {| peer_addr := peer_addr p; peer_agent := peer_agent p; peer_inbox := inbox |} in
      '(_, p, q, tr) ← net_step t (fun _ _ => agent_conn_recv data src) p q;
      receive_all n' t p q (seen ++ tr)
  | _, _ => Some (p, q, seen)
  end.

(** A round: both agents update and receive, twice. *)
Definition half_round (t : Z) (p q : peer_t) : option (peer_t * peer_t) :=
  '(_, p, q, _) ← net_step t (fun _ _ => agent_bookkeeping) p q;
  '(q, p, _) ← receive_all 8 t q p [];
  '(p, q, _) ← receive_all 8 t p q [];
  Some (p, q).

Definition net_round (t : Z) (p q : peer_t) : option (peer_t * peer_t) :=
  '(p, q) ← half_round t p q;
  '(q, p) ← half_round t q p;
  Some (p, q).

Fixpoint net_rounds (ts : list Z) (p q : peer_t) : option (peer_t * peer_t) :=
  match ts with
  | [] => Some (p, q)
  | t :: ts' => '(p, q) ← net_round t p q; net_rounds ts' p q
  end.

(** ** A session *)

Definition new_peer (me : addr_record_t) (tiebreaker : Z) : peer_t :=
  {| peer_addr := me;
     peer_agent := agent_create plain_config (fun n => Z.of_nat n + addr_get_port (addr me))
                     (fun n => Z.of_nat n + addr_get_port (addr me) + 5) tiebreaker;
     peer_inbox := [] |}.

(** Alice offers, Bob answers. *)
Definition alice_addr := endpoint 1 1000.
Definition bob_addr := endpoint 2 2000.

Definition session_start : option (peer_t * peer_t) :=
  '(_, alice, bob, _) ← net_step 1000 (fun _ _ => agent_gather_candidates) (new_peer alice_addr 70) (new_peer bob_addr 50);
  '(offer, alice, bob, _) ← net_step 1000 (fun _ _ => agent_get_local_description 4096) alice bob;
  '(_, bob, alice, _) ← net_step 1000 (fun _ _ => agent_set_remote_description (snd offer)) bob alice;
  '(_, bob, alice, _) ← net_step 1000 (fun _ _ => agent_gather_candidates) bob alice;
  '(answer, bob, alice, _) ← net_step 1000 (fun _ _ => agent_get_local_description 4096) bob alice;
  '(_, alice, bob, _) ← net_step 1000 (fun _ _ => agent_set_remote_description (snd answer)) alice bob;
  Some (alice, bob).

Definition session : option (peer_t * peer_t) :=
  '(alice, bob) ← session_start; net_rounds [1100; 1200; 1300; 1400; 1500] alice bob.

(** What [p] sends to [q] as data, and what [q] does with it. *)
Definition exchange (t : Z) (data : list Z) (p q : peer_t) : option (Z * list event) :=
  '(ret, p, q, _) ← net_step t (fun _ _ => agent_send data 0) p q;
  '(_, _, tr) ← receive_all 8 t q p [];
  Some (ret, tr).

(** In this session, where nothing is lost, the two agents connect: after the checks of
    half a second both are in the completed state, with the one pair valid and nominated
    on both sides, and the data sent by either arrives at the other. *)
Example agents_connect :
  match session with
  | Some (alice, bob) =>
      a_state (peer_agent alice) = JUICE_STATE_COMPLETED /\ a_state (peer_agent bob) = JUICE_STATE_COMPLETED /\
      a_mode (peer_agent alice) = AGENT_MODE_CONTROLLING /\ a_mode (peer_agent bob) = AGENT_MODE_CONTROLLED /\
      (nominated <$> candidate_pairs (peer_agent alice)) = [true] /\
      (nominated <$> candidate_pairs (peer_agent bob)) = [true] /\
      exchange 1600 (str "hello") alice bob = Some (5, [Received (str "hello")]) /\
      exchange 1600 (str "hi!") bob alice = Some (3, [Received (str "hi!")])
  | None => False
  end.
Proof. vm_compute. split_and!; reflexivity. Qed.
