(* ===== verification/AgentPacing.v ===== *)
(** * The ICE agent: pacing and order of the checks

    Transmissions of an agent are spaced, and its pairs are kept in the order of their
    priorities. *)

From Stdlib Require Import Permutation Sorted.
From S2P Require Import Prelude Effects CText Addr Turn Ice IceSdp StunTypes StunWrite StunRead AgentTypes Agent AgentMessages.
From S2P Require Import AgentUpdate AgentCalls AgentNet.
From stdpp Require Import list sorting.
#[local] Open Scope Z_scope.

(** ** Counting *)

Lemma filter_length_le {A} (f g : A -> bool) l :
  (forall x, f x = true -> g x = true) -> (length (List.filter f l) <= length (List.filter g l))%nat.
Proof.
  intros Hi. induction l as [|x l IH]; [done|]. cbn.
  destruct (f x) eqn:Hf; [rewrite (Hi _ Hf); cbn; lia|]. destruct (g x); cbn; lia.
Qed.

Lemma filter_length_lt {A} (f g : A -> bool) l x : In x l -> g x = true -> f x = false ->
  (forall x, f x = true -> g x = true) -> (length (List.filter f l) < length (List.filter g l))%nat.
Proof.
  intros Hin Hg Hf Hi. induction l as [|y l IH]; [done|].
  destruct Hin as [->|Hin]; cbn.
  - rewrite Hg, Hf. cbn. pose proof (filter_length_le f g l Hi). lia.
  - specialize (IH Hin). destruct (f y) eqn:Hy; [rewrite (Hi _ Hy); cbn; lia|]. destruct (g y); cbn; lia.
Qed.

Lemma filter_length_all {A} (f : A -> bool) l : (length (List.filter f l) <= length l)%nat.
Proof. induction l as [|x l IH]; [done|]. cbn. destruct (f x); cbn; lia. Qed.

(** ** Pacing *)

Lemma abs_int_small d : - 2 ^ 31 < d < 2 ^ 31 -> abs_int d = Some (Z.abs d).
Proof.
  intros Hd. unfold abs_int, s32. rewrite Z.mod_small by lia.
  destruct (_ =? _) eqn:E; [apply Z.eqb_eq in E; lia|]. f_equal. lia.
Qed.

Section Slot.
Context (i : nat) (l : list Z).

(** The transmission of entry [j] is [o]. *)
Definition other_time (j : nat) (o : Z) : Prop := l !! j = Some o /\ j <> i /\ o <> 0.

(** The time of entry [j] may still move [t]. *)
Definition ahead (t : Z) (j : nat) : bool :=
  negb (bool_decide (j = i)) &&
  match l !! j with Some o => negb (o =? 0) && (t <? o + STUN_PACING_TIME) | None => false end.

Definition ahead_count (t : Z) : nat := length (List.filter (ahead t) (seq 0 (length l))).

Lemma ahead_true t j : ahead t j = true <-> exists o, other_time j o /\ t < o + STUN_PACING_TIME.
Proof.
  unfold ahead, other_time. destruct (bool_decide (j = i)) eqn:Ej; cbn.
  { apply bool_decide_eq_true in Ej. split; [done|]. by intros (o & (_ & Hj & _) & _). }
  apply bool_decide_eq_false in Ej. destruct (l !! j) as [o|] eqn:Ho.
  - rewrite andb_true_iff, negb_true_iff, Z.eqb_neq, Z.ltb_lt. split.
    + intros [Hz Ht]. by exists o.
    + intros (o' & ([= <-] & _ & Hz) & Ht). done.
  - split; [done|]. by intros (o & (? & _) & _).
Qed.

Lemma ahead_count_jump t j o : other_time j o -> t < o + STUN_PACING_TIME ->
  (ahead_count (o + STUN_PACING_TIME) < ahead_count t)%nat.
Proof.
  intros Hj Ht. apply (filter_length_lt _ _ _ j).
  - apply in_seq. destruct Hj as [Hj _]. apply lookup_lt_Some in Hj. lia.
  - apply ahead_true. by exists o.
  - apply not_true_is_false. intros (o' & (Ho' & _) & Hlt)%ahead_true.
    destruct Hj as [Hj _]. rewrite Hj in Ho'. injection Ho' as <-. lia.
  - intros k (o' & Hk & Hlt)%ahead_true. apply ahead_true. exists o'. split; [done|lia].
Qed.

Lemma ahead_count_le t : (ahead_count t <= length l)%nat.
Proof. unfold ahead_count. etransitivity; [apply filter_length_all|]. by rewrite length_seq. Qed.

(** Enough fuel finds a slot, at most 99 ms later per entry, away from all others. *)
Lemma find_slot_spec fuel pos t :
  (forall j o, other_time j o -> Z.abs (t - o) + 99 * Z.of_nat (ahead_count t) < 2 ^ 31) ->
  (forall j o, (j < pos)%nat -> other_time j o -> STUN_PACING_TIME <= Z.abs (t - o)) ->
  (pos <= length l)%nat -> (ahead_count t * S (length l) + (length l - pos) < fuel)%nat ->
  exists t', find_slot fuel i l pos t = Some t' /\ t <= t' <= t + 99 * Z.of_nat (ahead_count t) /\
    forall j o, other_time j o -> STUN_PACING_TIME <= Z.abs (t' - o).
Proof.
  revert pos t. induction fuel as [|fuel IH]; intros pos t Hb Hs Hp Hf; [lia|]. cbn [find_slot].
  destruct (l !! pos) as [o|] eqn:Ho.
  2:{ apply lookup_ge_None in Ho. exists t. split; [done|]. split; [lia|]. intros j o Hj.
      apply (Hs j); [|done]. destruct Hj as [Hj _]. apply lookup_lt_Some in Hj. lia. }
  pose proof (lookup_lt_Some _ _ _ Ho) as Hlt.
  assert (Hskip : (forall o', other_time pos o' -> STUN_PACING_TIME <= Z.abs (t - o')) ->
    exists t', find_slot fuel i l (S pos) t = Some t' /\ t <= t' <= t + 99 * Z.of_nat (ahead_count t) /\
      forall j o, other_time j o -> STUN_PACING_TIME <= Z.abs (t' - o)).
  { intros Hpos. apply IH; [done| |lia|lia]. intros j o' Hj. destruct (decide (j = pos)) as [->|]; [apply Hpos|].
    apply Hs. lia. }
  case_bool_decide as Hi; [apply Hskip; by intros o' (_ & ? & _)|].
  destruct (o =? 0) eqn:Hz.
  { apply Z.eqb_eq in Hz. apply Hskip. intros o' (Ho' & _ & Hn). rewrite Ho in Ho'. by injection Ho' as <-. }
  apply Z.eqb_neq in Hz. assert (Hj : other_time pos o) by done.
  pose proof (Hb _ _ Hj) as Hd. rewrite abs_int_small by lia. cbn.
  destruct (Z.abs (t - o) <? STUN_PACING_TIME) eqn:Hclose.
  - apply Z.ltb_lt in Hclose. change STUN_PACING_TIME with 50 in *.
    pose proof (ahead_count_jump t pos o Hj ltac:(change STUN_PACING_TIME with 50; lia)) as Hc.
    change STUN_PACING_TIME with 50 in *.
    destruct (IH 0%nat (o + 50)) as (t' & Ht & Hr & Hall); [|lia|lia|nia|].
    + intros j o' Hj'. specialize (Hb _ _ Hj'). lia.
    + exists t'. split; [done|]. split; [lia|done].
  - apply Z.ltb_ge in Hclose. apply Hskip. intros o' (Ho' & _). rewrite Ho in Ho'. by injection Ho' as <-.
Qed.
End Slot.

(** The pair of an entry exists and has a remote candidate. *)
Definition pair_known (a : juice_agent_t) (x : agent_stun_entry_t) : Prop :=
  forall p, e_pair x = Some p -> exists pr, candidate_pairs a !! p = Some pr /\ is_Some (remote pr).

Lemma entry_is_tcp_known a x : pair_known a x -> exists b, entry_is_tcp x a = Some (b, a, []).
Proof.
  intros Hp. unfold entry_is_tcp. destruct (e_pair x) as [p|] eqn:He; [|by exists false].
  destruct (Hp p He) as (pr & Hpr & r & Hr). rewrite bind_get. unfold get_pair.
  erewrite bind_quiet; [|rewrite bind_get; by rewrite Hpr]. rewrite (bind_defined _ _ _ _ Hr). by eexists.
Qed.

(** The state of an armed entry. *)
Definition armed_state (st : agent_stun_entry_state_t) : agent_stun_entry_state_t :=
  if bool_decide (st = AGENT_STUN_ENTRY_STATE_SUCCEEDED_KEEPALIVE)
  then AGENT_STUN_ENTRY_STATE_SUCCEEDED_KEEPALIVE else AGENT_STUN_ENTRY_STATE_PENDING.

(** An armed entry keeps all that is not about its transmissions. *)
Definition same_target (x y : agent_stun_entry_t) : Prop :=
  e_type y = e_type x /\ e_pair y = e_pair x /\ e_record y = e_record x /\ e_relayed y = e_relayed x /\
  e_turn y = e_turn x /\ e_relay_entry y = e_relay_entry x /\ e_transaction_id y = e_transaction_id x.

Lemma arm_entry_run `{System} a x delay : pair_known a x -> exists y, arm_entry x delay a = Some (y, a, []) /\
  e_next_transmission y = now + delay /\ e_state y = armed_state (e_state x) /\ same_target x y.
Proof.
  intros Hp. unfold arm_entry. set (y := set_e_next_transmission _ _).
  assert (Hy : e_next_transmission y = now + delay /\ e_state y = armed_state (e_state x) /\ same_target x y).
  { unfold y, armed_state. case_bool_decide; by destruct x. }
  assert (Hk : pair_known a y).
  { intros p Hyp. apply Hp. destruct Hy as (_ & _ & _ & <- & _). done. }
  clearbody y.
  destruct (decide (e_state y = AGENT_STUN_ENTRY_STATE_PENDING)) as [Hst|Hst];
    [rewrite (bool_decide_eq_true_2 _ Hst)|rewrite (bool_decide_eq_false_2 _ Hst); by exists y].
  destruct (entry_is_tcp_known a y Hk) as [b Hb]. erewrite bind_quiet; [|exact Hb].
  eexists. split; [done|]. by destruct b.
Qed.

(** The times of all entries are within 12 days of [t], which [int] can hold. *)
Definition times_near (a : juice_agent_t) (t : Z) : Prop :=
  forall j y, entries a !! j = Some y -> e_next_transmission y <> 0 -> Z.abs (t - e_next_transmission y) <= 2 ^ 30.

(** ** The order of the pairs *)

Lemma ordered_round_spec prio (pre : list nat) s post :
  exists p1 p2, pre = p1 ++ p2 /\ Forall (fun x => prio x < prio (length pre)) p2 /\
    (forall y, last p1 = Some y -> prio (length pre) <= prio y) /\
    ordered_round prio (pre ++ s :: post) (length pre) = p1 ++ length pre :: p2 ++ post.
Proof.
  unfold ordered_round.
  destruct (shift_hole_spec prio (prio (length pre)) pre s post) as (p1 & p2 & s' & He & Hp2 & Hl & _ & Hsh).
  exists p1, p2. split_and!; try done. rewrite Hsh, insert_app_r_alt by lia. by rewrite Nat.sub_diag.
Qed.

Lemma ordered_rounds_spec prio n : forall pre post, sorted_desc prio pre ->
  Permutation pre (seq 0 (length pre)) -> length post = n ->
  let l := ordered_rounds prio (pre ++ post) (length pre) n in
  sorted_desc prio l /\ Permutation l (seq 0 (length pre + n)).
Proof.
  induction n as [|n IH]; intros pre post Hs Hp Hn; cbn [ordered_rounds].
  { apply length_zero_iff_nil in Hn as ->. by rewrite app_nil_r, Nat.add_0_r. }
  destruct post as [|s post]; [done|]. injection Hn as Hn.
  destruct (ordered_round_spec prio pre s post) as (p1 & p2 & He & Hp2 & Hl & ->).
  assert (Hlen : length (p1 ++ length pre :: p2) = S (length pre))
    by (rewrite He, !length_app; cbn; lia).
  destruct (IH (p1 ++ length pre :: p2) post) as [Hs' Hp']; [| |done|].
  - apply sorted_desc_insert; [by rewrite <- He|done|done].
  - rewrite Hlen, seq_S. cbn. rewrite <- Permutation_middle, <- He, <- Permutation_cons_append. by constructor.
  - rewrite Hlen, <- app_assoc in Hs', Hp'. cbn [app] in Hs', Hp'.
    rewrite Nat.add_succ_r. exact (conj Hs' Hp').
Qed.

Lemma agent_update_ordered_pairs_run a : exists l, agent_update_ordered_pairs a = Some (tt, set_ordered_pairs a l, []) /\
  sorted_desc (priority_of (candidate_pairs a)) l /\ Permutation l (seq 0 (length (candidate_pairs a))).
Proof.
  unfold agent_update_ordered_pairs. rewrite bind_get. eexists. split; [done|].
  refine (ordered_rounds_spec _ _ [] (take _ _) _ _ _); [constructor|done|].
  rewrite length_take, length_app, length_replicate. lia.
Qed.

(** ** Theorems *)

Section Theorems.
Context `{System}.

(** Arming an entry. *)
Lemma arm_transmission_run a i x delay :
  entries a !! i = Some x -> pair_known a x -> times_near a (now + delay) -> (length (entries a) <= 92)%nat ->
  exists y, agent_arm_transmission i delay a = Some (tt, set_entries a (<[i := y]> (entries a)), []) /\
    now + delay <= e_next_transmission y <= now + delay + 99 * zlen (entries a) /\
    (forall j z, j <> i -> entries a !! j = Some z -> e_next_transmission z <> 0 ->
       STUN_PACING_TIME <= Z.abs (e_next_transmission y - e_next_transmission z)) /\
    e_state y = armed_state (e_state x) /\ same_target x y.
Proof.
  intros Hx Hp Hn Hlen. set (l := e_next_transmission <$> entries a).
  assert (Hl : length l = length (entries a)) by apply length_fmap.
  assert (Hot : forall j o, other_time i l j o -> j <> i /\
            exists z, entries a !! j = Some z /\ e_next_transmission z = o /\ o <> 0).
  { intros j o (Hj & Hi & Hz). split; [done|]. unfold l in Hj. rewrite list_lookup_fmap in Hj.
    destruct (entries a !! j) as [z|]; [|done]. injection Hj as Hj. by exists z. }
  pose proof (ahead_count_le i l (now + delay)) as Hc. rewrite Hl in Hc.
  destruct (find_slot_spec i l (slot_fuel (length (entries a))) 0 (now + delay)) as (t & Ht & Hb & Hs).
  - intros j o Hj. apply Hot in Hj as (_ & z & Hz & <- & Hnz). specialize (Hn j z Hz Hnz).
    change (2 ^ 30) with 1073741824 in *. lia.
  - lia.
  - lia.
  - unfold slot_fuel. rewrite Hl. nia.
  - unfold agent_arm_transmission, get_entry.
    erewrite bind_quiet; [|rewrite bind_get; by rewrite Hx].
    destruct (arm_entry_run a x delay Hp) as (y & Hy & Hy1 & Hy2 & Hy3). erewrite bind_quiet; [|exact Hy].
    rewrite bind_get. fold l. rewrite Hy1, (bind_defined _ _ _ _ Ht).
    unfold update_entry. rewrite bind_get, (bind_defined _ _ _ _ Hx).
    exists (set_e_next_transmission y t). split; [done|]. split; [cbn; unfold zlen; lia|].
    split; [|split; [done|exact Hy3]].
    intros j z Hj Hz Hnz. apply (Hs j). split; [|done]. unfold l. by rewrite list_lookup_fmap, Hz.
Qed.

(** C29: arming an entry always finds a time slot, however many of the at most 92
    entries compete for it, as long as their times are within 2^30 ms, 12 days, of the
    time asked for ([times_near]) and the pair of the entry has its remote candidate
    ([pair_known]): the new transmission is not before the delay asked for, later by
    less than 100 ms per entry of the agent, and at least 50 ms away from the
    transmission of every other entry; no other entry and nothing else of the agent
    changes. *)
Theorem agent_arm_transmission_paced a i x delay :
  entries a !! i = Some x -> pair_known a x -> times_near a (now + delay) -> (length (entries a) <= 92)%nat ->
  exists y, agent_arm_transmission i delay a = Some (tt, set_entries a (<[i := y]> (entries a)), []) /\
    now + delay <= e_next_transmission y <= now + delay + 99 * zlen (entries a) /\
    (forall j z, j <> i -> entries a !! j = Some z -> e_next_transmission z <> 0 ->
       STUN_PACING_TIME <= Z.abs (e_next_transmission y - e_next_transmission z)) /\
    e_state y = armed_state (e_state x) /\ same_target x y.
Proof. apply arm_transmission_run. Qed.

(** The table of pairs by priority holds every pair of the agent once, the
    higher priorities first, whatever it held before. *)
Theorem agent_update_ordered_pairs_correct a : exists l,
  agent_update_ordered_pairs a = Some (tt, set_ordered_pairs a l, []) /\
  Permutation l (seq 0 (length (candidate_pairs a))) /\
  sorted_desc (priority_of (candidate_pairs a)) l.
Proof. destruct (agent_update_ordered_pairs_run a) as (l & Hr & Hs & Hp). by exists l. Qed.

End Theorems.

(** ** Changes of timers only *)

#[global] Instance same_target_preorder : PreOrder same_target.
Proof.
  split; [by intros x|]. intros x y z (? & ? & ? & ? & ? & ? & ?) (? & ? & ? & ? & ? & ? & ?).
  split_and!; congruence.
Qed.

(** Only the timers and states of entries differ, and the draws made. *)
Definition tuned (a a' : juice_agent_t) : Prop :=
  exists es n, Forall2 same_target (entries a) es /\ a' = set_draws (set_entries a es) n.

#[global] Instance tuned_preorder : PreOrder tuned.
Proof.
  split.
  - intros a. exists (entries a), (draws a). split; [reflexivity|by destruct a].
  - intros a b c (es & n & H1 & ->) (es' & n' & H2 & ->). exists es', n'. split; [|done].
    by transitivity es.
Qed.

Abbreviation keeps_tuned c := (forall a, keeps_at (on_states tuned) a c).

Lemma tuned_update a i x y : entries a !! i = Some x -> same_target x y ->
  tuned a (set_entries a (<[i := y]> (entries a))).
Proof.
  intros Hx Hy. exists (<[i := y]> (entries a)), (draws a). split; [|by destruct a].
  rewrite <- (list_insert_id (entries a) i x Hx) at 1. apply Forall2_insert; [|done].
  reflexivity.
Qed.

Lemma update_entry_tuned i f : (forall x, same_target x (f x)) -> keeps_tuned (update_entry i f).
Proof. intros Hf a. unfold update_entry. keeps. by eapply tuned_update. Qed.
Lemma get_entry_tuned i : keeps_tuned (get_entry i).
Proof. intros a. unfold get_entry. keeps. Qed.
#[export] Hint Resolve get_entry_tuned : keeps.

Lemma entry_is_tcp_pure x a b a' tr : entry_is_tcp x a = Some (b, a', tr) -> a' = a /\ tr = [].
Proof. unfold entry_is_tcp, get_pair. intros Hr. by run_cases. Qed.

Section Tuned.
Context `{System}.

Lemma arm_entry_target x d a y a' tr : arm_entry x d a = Some (y, a', tr) ->
  same_target x y /\ e_state y = armed_state (e_state x) /\ a' = a /\ tr = [].
Proof.
  unfold arm_entry, armed_state. intros Hr.
  destruct (decide (e_state x = AGENT_STUN_ENTRY_STATE_SUCCEEDED_KEEPALIVE)) as [Hk|Hk].
  - rewrite !(bool_decide_eq_true_2 _ Hk) in *. cbn [negb] in Hr. cbn in Hr. rewrite Hk in Hr.
    rewrite bool_decide_eq_false_2 in Hr by done. run_inv. by destruct x.
  - rewrite !(bool_decide_eq_false_2 _ Hk) in *. cbn [negb] in Hr.
    rewrite bool_decide_eq_true_2 in Hr by done. run_inv.
    match goal with Ht : entry_is_tcp _ _ = _ |- _ => apply entry_is_tcp_pure in Ht as [-> ->] end.
    case_match; by destruct x.
Qed.

Lemma agent_arm_transmission_tuned i d : keeps_tuned (agent_arm_transmission i d).
Proof.
  intros a x a' tr Hr. unfold agent_arm_transmission, get_entry, update_entry in Hr. run_inv.
  match goal with Ha : arm_entry _ _ _ = _ |- _ => apply arm_entry_target in Ha as (Ht & _ & -> & _) end.
  eapply tuned_update; [done|]. simplify_eq. exact Ht.
Qed.

Lemma juice_random_tuned n : keeps_tuned (juice_random n).
Proof. intros a. unfold juice_random. keeps. exists (entries a), (S (draws a)). split; [reflexivity|by destruct a]. Qed.
#[local] Hint Resolve agent_arm_transmission_tuned juice_random_tuned : keeps.
Lemma juice_rand32_tuned : keeps_tuned juice_rand32.
Proof. intros a. unfold juice_rand32. keeps. Qed.
#[local] Hint Resolve juice_rand32_tuned : keeps.

Lemma agent_arm_keepalive_tuned i : keeps_tuned (agent_arm_keepalive i).
Proof.
  intros a. unfold agent_arm_keepalive, get_entry. keeps.
  all: apply update_entry_tuned; intros ?; by repeat case_bool_decide.
Qed.
End Tuned.

(** ** Examples *)

(** An agent with its first check. *)
Definition example_agent : juice_agent_t :=
  match session_start with Some (alice, _) => peer_agent alice | None => agent_create plain_config Z.of_nat Z.of_nat 0 end.

Definition example_entry : agent_stun_entry_t := nth 0 (entries example_agent) entry_zero.

#[local] Abbreviation at_alice t := (host_system alice_addr t).

Lemma example_entry_known : entries example_agent !! 0%nat = Some example_entry /\ pair_known example_agent example_entry /\
  times_near example_agent 1100 /\ (length (entries example_agent) <= 92)%nat.
Proof.
  split; [by vm_compute|]. split; [|split; [|by vm_compute; lia] ].
  - intros p Hp. vm_compute in Hp. injection Hp as <-. eexists. split; [by vm_compute|by eexists].
  - intros j y Hy _. assert (Hj : (j < 1)%nat) by (apply lookup_lt_Some in Hy; exact Hy).
    destruct j; [|lia]. vm_compute in Hy. injection Hy as <-. vm_compute. done.
Qed.

Lemma agent_arm_transmission_paced_witness : exists y,
  @agent_arm_transmission (at_alice 1000) 0 100 example_agent
  = Some (tt, set_entries example_agent (<[0%nat := y]> (entries example_agent)), []) /\ 1100 <= e_next_transmission y.
Proof.
  destruct example_entry_known as (Hx & Hp & Hn & Hl).
  destruct (@agent_arm_transmission_paced (at_alice 1000) example_agent 0 example_entry 100 Hx Hp Hn Hl)
    as (y & Hr & Hb & _).
  exists y. split; [exact Hr|exact (proj1 Hb)].
Defined.
