(* ===== verification/AgentRetry.v ===== *)
(** * The ICE agent: retransmissions (src/agent.c)

    A request that is not answered, from the moment its entry is armed: the rounds of
    the loop of [agent_bookkeeping] for the entry, at the times when it is due, send
    the request again with doubling delays and give the entry up in the end. *)

From S2P Require Import ServerTotal.
From S2P Require Import Prelude Effects CText Addr Turn Ice IceSdp StunTypes StunWrite StunRead AgentTypes Agent AgentMessages.
From S2P Require Import AgentUpdate AgentCalls AgentNet AgentPacing.
#[local] Open Scope Z_scope.

(** ** The rounds of an entry *)

(** The same system at another time. *)
Definition at_time (sys : System) (t : Z) : System :=
  {| getnameinfo := getnameinfo; getaddrinfo := getaddrinfo; uninit := uninit; stack := stack; now := t;
     random_bytes := random_bytes; conn_send := conn_send; conn_create := conn_create; conn_addrs := conn_addrs;
     thread_init := thread_init |}.

Abbreviation round_at sys t i := (@update_one _ (at_time sys t) i).

(** The rounds of the loop for entry [i], each when the entry is due, until it is no
    longer pending: their times and what they do; [n] bounds their number. *)
Fixpoint unanswered `{Crypto} (sys : System) (n i : nat) (a : juice_agent_t) : option (list (Z * list event) * juice_agent_t) :=
  match n with
  | O => None
  | S n' =>
      x ← entries a !! i;
      if bool_decide (e_state x = AGENT_STUN_ENTRY_STATE_PENDING) then
        '(_, a1, tr) ← round_at sys (e_next_transmission x) i a;
        '(log, a2) ← unanswered sys n' i a1;
        Some ((e_next_transmission x, tr) :: log, a2)
      else Some ([], a)
  end.

(** The times of the rounds, from the numbers of the entry alone. *)
Fixpoint schedule (left_ : nat) (timeout t : Z) : list Z :=
  t :: match left_ with
       | O => []
       | S O => [t + LAST_STUN_RETRANSMISSION_TIMEOUT]
       | S l => schedule l (timeout * 2) (t + timeout)
       end.

(** The system takes datagrams and fills its buffers and draws with bytes. *)
Record sending_system (sys : System) : Prop := {
  ss_uninit : bytes uninit /\ zlen uninit = 2;
  ss_stack : zlen stack = BUFFER_SIZE;
  ss_random k : bytes (random_bytes k) /\ 12 <= zlen (random_bytes k);
  ss_send dst d : 0 <= conn_send dst d
}.

Lemma sending_at_time sys t : sending_system sys -> sending_system (at_time sys t).
Proof. by intros [? ? ? ?]. Qed.

(** What the request of an entry takes from the agent: the connection is open, the
    entry is not behind a relay and its connection over TCP is made; a check needs
    the credentials of the peer, a request to a TURN server its credentials. *)
Record requestable (a : juice_agent_t) (x : agent_stun_entry_t) : Prop := {
  rq_started : conn_started a = true;
  rq_direct : e_relay_entry x = None;
  rq_tid : bytes (e_transaction_id x) /\ zlen (e_transaction_id x) = 12;
  rq_pair : pair_known a x;
  rq_tcp : entry_is_tcp x a = Some (true, a, []) -> e_tcp_state x = TCP_STATE_CONNECTED;
  rq_check : e_type x = AGENT_STUN_ENTRY_TYPE_CHECK ->
    ice_ufrag (a_remote a) <> [] /\ ice_pwd (a_remote a) <> [] /\ bytes (ice_ufrag (a_remote a)) /\ bytes (ice_ufrag (a_local a));
  rq_relay : e_type x = AGENT_STUN_ENTRY_TYPE_RELAY -> exists t, e_turn x = Some t /\
    message_wf (set_credentials stun_message_zero (turn_credentials t))
}.

(** The changes of an entry that a round makes before its request is sent. *)
Definition same_request (x y : agent_stun_entry_t) : Prop :=
  e_type y = e_type x /\ e_pair y = e_pair x /\ e_record y = e_record x /\ e_turn y = e_turn x /\
  e_relay_entry y = e_relay_entry x /\ e_tcp_state y = e_tcp_state x /\ bytes (e_transaction_id y) /\ zlen (e_transaction_id y) = 12.
(** With its timers and state. *)
Definition same_timers (x y : agent_stun_entry_t) : Prop :=
  e_next_transmission y = e_next_transmission x /\ e_retransmission_timeout y = e_retransmission_timeout x /\
  e_retransmissions y = e_retransmissions x /\ e_state y = e_state x.

(** Entry [i] is [y] now, and nothing else has changed but for the draws. *)
Definition entry_set (a : juice_agent_t) (i : nat) (y : agent_stun_entry_t) (a' : juice_agent_t) : Prop :=
  exists n, a' = set_draws (set_entries a (<[i := y]> (entries a))) n.

Lemma entry_set_lookup a i x y a' : entries a !! i = Some x -> entry_set a i y a' -> entries a' !! i = Some y.
Proof. intros Hx [n ->]. cbn. apply list_lookup_insert_eq. by eapply lookup_lt_Some. Qed.

Lemma entry_set_set a i y a1 z a2 : entry_set a i y a1 -> entry_set a1 i z a2 -> entry_set a i z a2.
Proof. intros [n ->] [n' ->]. exists n'. cbn. by rewrite list_insert_insert_eq. Qed.

Lemma entry_set_id a i x : entries a !! i = Some x -> entry_set a i x a.
Proof. intros Hx. exists (draws a). rewrite list_insert_id by done. by destruct a. Qed.

Lemma entry_is_tcp_at x a a' y b : e_pair y = e_pair x -> candidate_pairs a' = candidate_pairs a -> a_local a' = a_local a ->
  a_remote a' = a_remote a -> entry_is_tcp x a = Some (b, a, []) -> entry_is_tcp y a' = Some (b, a', []).
Proof.
  unfold entry_is_tcp, get_pair. intros -> Hp Hl Hr. destruct (e_pair x) as [p|]; [|by intros [= ->] ].
  rewrite !bind_get. intros Hb. apply bind_run in Hb as (pr & a1 & tr1 & tr2 & H1 & H2 & Htr). rewrite bind_get in H1.
  apply defined_run in H1 as (Hpr & -> & ->). apply bind_run in H2 as (r & a1 & tr3 & tr4 & H2 & H3 & ->). apply defined_run in H2 as (Hrem & -> & ->).
  apply ret_run in H3 as (-> & _ & _). erewrite bind_quiet; [|rewrite bind_get, Hp; by rewrite Hpr]. rewrite (bind_defined _ _ _ _ Hrem).
  unfold candidate_at. rewrite Hl, Hr. done.
Qed.

Lemma requestable_kept a i x y a' : requestable a x -> same_request x y -> entry_set a i y a' -> requestable a' y.
Proof.
  intros [Hst Hd Ht Hp Htcp Hc Hr] (Ety & Ep & _ & Etu & Erl & Etc & Hb & Hl) [n ->].
  assert (Hpy : pair_known a y) by (intros p; rewrite Ep; apply Hp).
  split; try done; [congruence| |by rewrite Ety|by rewrite Ety, Etu].
  intros Hy. rewrite Etc. apply Htcp. by eapply entry_is_tcp_at; [..|exact Hy].
Qed.

Section Round.
Context `{CryptoLaws} (sys : System) (Hsys : sending_system sys).

(** ** Requests *)

Lemma update_entry_run i f a x : entries a !! i = Some x -> update_entry i f a = Some (tt, set_entries a (<[i := f x]> (entries a)), []).
Proof. intros Hx. unfold update_entry. by rewrite bind_get, (bind_defined _ _ _ _ Hx). Qed.

Lemma get_entry_run i a x : entries a !! i = Some x -> get_entry i a = Some (x, a, []).
Proof. intros Hx. unfold get_entry. by rewrite bind_get, Hx. Qed.

Lemma write_message_run msg password a : message_wf msg -> peers msg = [] -> data msg = None ->
  exists size d, write_message msg password a = Some ((size, d), a, []) /\ 0 < size.
Proof.
  intros Hw Hp Hd. destruct Hsys as [Hu Hs _ _]. pose proof (encode_message_size uninit msg password Hw (proj2 Hu) Hp Hd) as Hsize.
  unfold BUFFER_SIZE, Server.BUFFER_SIZE in *. destruct (stun_write_spec uninit Hu msg Hw password stack) as (rest & Hr & _); [lia..|].
  rewrite Hs in Hr. unfold write_message. rewrite (bind_defined _ _ _ _ Hr). eexists _, _. split; [done|].
  rewrite zlen_encode_message by done. unfold sizeof_stun_header. pose proof (zlen_nonneg (encode_attrs (all_attributes uninit msg password))). lia.
Qed.

(** A request to the address of the entry. *)
Lemma send_binding_run i msg password a x : entries a !! i = Some x -> e_relay_entry x = None -> conn_started a = true ->
  message_wf msg -> peers msg = [] -> data msg = None ->
  exists d, send_binding i msg password a = Some (0, a, [Sent (e_record x) d 0]).
Proof.
  intros Hx Hr Hst Hw Hp Hd. destruct (write_message_run msg password a Hw Hp Hd) as (size & d & Hwr & Hs). exists d.
  unfold send_binding. rewrite (bind_quiet _ _ _ _ _ Hwr). rewrite (proj2 (Z.leb_gt _ _)) by done.
  rewrite (bind_quiet _ _ _ _ _ (get_entry_run _ _ _ Hx)), Hr. unfold agent_direct_send.
  erewrite bind_some; [|rewrite bind_get, Hst; by rewrite (bind_some _ _ _ tt a [Sent (e_record x) d 0])].
  rewrite (proj2 (Z.ltb_ge _ _)) by (apply Hsys). done.
Qed.

Lemma binding_request_wf tid : bytes tid /\ zlen tid = 12 ->
  message_wf (StunTypes.set_transaction_id (set_msg_method (set_msg_class stun_message_zero STUN_CLASS_REQUEST) STUN_METHOD_BINDING) tid).
Proof. intros Ht. split; try done; by vm_compute; repeat constructor. Qed.

Lemma check_request_wf a x p msg msg' : message_wf msg -> bytes (ice_ufrag (a_remote a)) -> bytes (ice_ufrag (a_local a)) ->
  check_request a x p msg = Some msg' -> message_wf msg' /\ peers msg' = peers msg /\ data msg' = data msg.
Proof.
  intros Hw Hr Hl Hc. unfold check_request in Hc. destruct (_ || _); [done|]. injection Hc as <-. split; [|done].
  destruct Hw. split; try done.
  apply (small_copy STUN_MAX_USERNAME_LEN (ice_ufrag (a_remote a) ++ [58] ++ ice_ufrag (a_local a))); [done|].
  apply Forall_app; split; [done|]. apply Forall_app; split; [by repeat constructor|done].
Qed.

(** The transaction id that a round sends the request with. *)
Lemma renew_run i a x : entries a !! i = Some x -> requestable a x ->
  exists y a1, renew_transaction_id i a = Some (tt, a1, []) /\ entry_set a i y a1 /\ same_request x y /\ same_timers x y.
Proof.
  intros Hx Hq. unfold renew_transaction_id. rewrite (bind_quiet _ _ _ _ _ (get_entry_run _ _ _ Hx)).
  destruct (e_transaction_id_expired x); [|exists x, a; split; [done|]; split; [by apply entry_set_id|]; by destruct (rq_tid _ _ Hq)].
  unfold juice_random. rewrite (bind_quiet _ _ _ (take 12 (random_bytes (draws a))) (set_draws a (S (draws a)))) by done.
  rewrite (update_entry_run _ _ _ x) by done. eexists _, _. split; [done|]. split; [by exists (S (draws a))|].
  destruct (ss_random _ Hsys (draws a)) as [Hb Hl]. split; [|done]. repeat split; [by apply Forall_take|]. cbn. rewrite zlen_take. lia.
Qed.

(** The request of an entry. *)
Definition request (i : nat) (x : agent_stun_entry_t) : M Z :=
  match e_type x with
  | AGENT_STUN_ENTRY_TYPE_RELAY => agent_send_turn_allocate_request i STUN_METHOD_ALLOCATE
  | _ => agent_send_stun_binding i STUN_CLASS_REQUEST 0 None None
  end.

Lemma binding_run i a x : entries a !! i = Some x -> requestable a x ->
  exists y a1 d, agent_send_stun_binding i STUN_CLASS_REQUEST 0 None None a = Some (0, a1, [Sent (e_record x) d 0]) /\
    entry_set a i y a1 /\ same_request x y /\ same_timers x y.
Proof.
  intros Hx [Hst Hd Ht Hp _ Hc _]. unfold agent_send_stun_binding. rewrite (bind_quiet _ _ _ _ _ (get_entry_run _ _ _ Hx)).
  cbn [is_resp]. change (is_resp STUN_CLASS_REQUEST) with false. cbn [andb]. rewrite (bind_quiet _ _ a (e_transaction_id x) a) by done. rewrite bind_get.
  pose proof (binding_request_wf _ Ht) as Hwf. destruct (decide (e_type x = AGENT_STUN_ENTRY_TYPE_CHECK)) as [He|He].
  2: { rewrite bool_decide_eq_false_2 by done. cbn [negb]. destruct (send_binding_run i _ None a x Hx Hd Hst Hwf eq_refl eq_refl) as [d Hr].
       exists x, a, d. split; [exact Hr|]. split; [by apply entry_set_id|]. by destruct Ht. }
  rewrite bool_decide_eq_true_2 by done. cbn [negb]. destruct (Hc He) as (Hu & Hpw & Hb & Hb').
  assert (Hpo : exists po, pair_of a x = Some po).
  { unfold pair_of. destruct (e_pair x) as [p|] eqn:Hep; [|by eexists]. destruct (Hp p Hep) as (pr & Hpr & _). rewrite Hpr. by eexists. }
  destruct Hpo as [po Hpo]. rewrite (bind_defined _ _ _ _ Hpo). destruct (check_request a x po _) as [msg|] eqn:Hcr.
  2: { unfold check_request in Hcr. by rewrite !bool_decide_eq_false_2 in Hcr. }
  destruct (check_request_wf _ _ _ _ _ Hwf Hb Hb' Hcr) as (Hwm & Hpe & Hda). rewrite (bind_quiet _ _ _ _ _ (update_entry_run _ _ _ _ Hx)).
  set (a1 := set_entries _ _). set (y := set_e_mode x (a_mode a)). assert (Hs : entry_set a i y a1) by (exists (draws a); by destruct a).
  edestruct (send_binding_run i msg (Some (ice_pwd (a_remote a))) a1 y) as [d Hr]; [by eapply entry_set_lookup|done..|].
  exists y, a1, d. split; [exact Hr|]. split; [done|]. by destruct Ht.
Qed.

Lemma allocate_run i a x : entries a !! i = Some x -> requestable a x -> e_type x = AGENT_STUN_ENTRY_TYPE_RELAY ->
  exists d, agent_send_turn_allocate_request i STUN_METHOD_ALLOCATE a = Some (0, a, [Sent (e_record x) d 0]).
Proof.
  intros Hx [Hst _ Ht _ _ _ Hr] He. destruct (Hr He) as (t & Htu & Hw). unfold agent_send_turn_allocate_request. cbn [negb andb].
  change (STUN_METHOD_ALLOCATE =? STUN_METHOD_ALLOCATE) with true. cbn [negb andb]. rewrite (bind_quiet _ _ _ _ _ (get_entry_run _ _ _ Hx)).
  rewrite (bool_decide_eq_true_2 _ He). cbn [negb]. rewrite Htu. cbv zeta. unfold send_message.
  match goal with |- context [write_message ?m ?p] => destruct (write_message_run m p a) as (size & d & Hwr & Hs) end.
  - destruct (bool_decide _); cbn [negb]; destruct Hw; split; try done; by vm_compute; repeat constructor.
  - by destruct (bool_decide _).
  - by destruct (bool_decide _).
  - exists d. rewrite (bind_quiet _ _ _ _ _ Hwr), (proj2 (Z.leb_gt _ _)) by done. unfold agent_direct_send.
    erewrite bind_some; [|rewrite bind_get, Hst; by rewrite (bind_some _ _ _ tt a [Sent (e_record x) d 0])].
    rewrite (proj2 (Z.ltb_ge _ _)) by (apply Hsys). done.
Qed.

Lemma request_run i a x : entries a !! i = Some x -> requestable a x ->
  exists y a1 d, request i x a = Some (0, a1, [Sent (e_record x) d 0]) /\ entry_set a i y a1 /\ same_request x y /\ same_timers x y.
Proof.
  intros Hx Hq. unfold request. destruct (e_type x) eqn:He; try by apply binding_run.
  destruct (allocate_run i a x Hx Hq He) as [d Hr]. exists x, a, d. split; [exact Hr|]. split; [by apply entry_set_id|].
  by destruct (rq_tid _ _ Hq).
Qed.

(** ** Rounds *)

Lemma same_request_trans x y z : same_request x y -> same_request y z -> same_request x z.
Proof. intros (? & ? & ? & ? & ? & ? & _) (? & ? & ? & ? & ? & ? & ?). repeat split; try congruence; tauto. Qed.
Lemma same_timers_trans x y z : same_timers x y -> same_timers y z -> same_timers x z.
Proof. intros (? & ? & ? & ?) (? & ? & ? & ?). repeat split; congruence. Qed.

(** The timers after a request. *)
Definition rescheduled (x y : agent_stun_entry_t) : Prop :=
  e_state y = e_state x /\ e_retransmissions y = e_retransmissions x - 1 /\
  (if e_retransmissions x =? 0 then e_next_transmission y = now + LAST_STUN_RETRANSMISSION_TIMEOUT
   else e_next_transmission y = now + e_retransmission_timeout x /\ e_retransmission_timeout y = e_retransmission_timeout x * 2).

Lemma schedule_spec x : 0 <= e_retransmissions x -> rescheduled x (schedule_retransmission x).
Proof.
  intros Hx. unfold rescheduled, schedule_retransmission. cbn [e_retransmissions set_e_retransmissions].
  destruct (Z.eqb_spec (e_retransmissions x) 0) as [He|He].
  - by rewrite (proj2 (Z.ltb_lt _ _)) by lia.
  - by rewrite (proj2 (Z.ltb_ge _ _)) by lia.
Qed.

Lemma transmit_run i a x : entries a !! i = Some x -> requestable a x -> 0 <= e_retransmissions x ->
  exists y a1 d, transmit i a = Some (true, a1, [Sent (e_record x) d 0]) /\ entry_set a i y a1 /\ same_request x y /\ rescheduled x y.
Proof.
  intros Hx Hq Hn. unfold transmit. rewrite (bind_quiet _ _ _ _ _ (get_entry_run _ _ _ Hx)), (proj2 (Z.leb_le _ _)) by done.
  destruct (renew_run i a x Hx Hq) as (y & a1 & Hr & Hs & Hy & Ht). rewrite (bind_quiet _ _ _ _ _ Hr).
  pose proof (entry_set_lookup _ _ _ _ _ Hx Hs) as Hy1. pose proof (requestable_kept _ _ _ _ _ Hq Hy Hs) as Hq1.
  destruct (request_run i a1 y Hy1 Hq1) as (z & a2 & d & Hr2 & Hs2 & Hz & Ht2). unfold request in Hr2.
  replace (e_type y) with (e_type x) in Hr2 by (symmetry; apply Hy). rewrite (bind_some _ _ _ _ _ _ Hr2). cbn [Z.leb Z.compare].
  pose proof (entry_set_lookup _ _ _ _ _ Hy1 Hs2) as Hz2. rewrite (bind_quiet _ _ _ _ _ (update_entry_run _ _ _ _ Hz2)).
  exists (schedule_retransmission z), (set_entries a2 (<[i := schedule_retransmission z]> (entries a2))), d. split_and!.
  - replace (e_record x) with (e_record y) by apply Hy. done.
  - eapply entry_set_set; [exact Hs|]. eapply entry_set_set; [exact Hs2|]. exists (draws a2). by destruct a2.
  - eapply same_request_trans; [exact Hy|]. eapply same_request_trans; [exact Hz|]. destruct Hz as (_ & _ & _ & _ & _ & _ & ?).
    unfold schedule_retransmission. by destruct (_ <? _).
  - pose proof (same_timers_trans _ _ _ Ht Ht2) as (E1 & E2 & E3 & E4). pose proof (schedule_spec z ltac:(lia)) as Hz'.
    unfold rescheduled in *. by rewrite E2, E3, E4 in Hz'.
Qed.

(** What keeps the rest of [update_pending] from an entry: it is over TCP and not connected. *)
Lemma pending_ready i a x : entries a !! i = Some x -> requestable a x -> e_state x = AGENT_STUN_ENTRY_STATE_PENDING ->
  e_next_transmission x <= now ->
  update_one i a = (sent ← transmit i; if (sent : bool) then mret tt else pending_failed i) a.
Proof.
  intros Hx Hq Hs Hn. unfold update_one. rewrite (bind_quiet _ _ _ _ _ (get_entry_run _ _ _ Hx)), Hs. unfold update_pending.
  rewrite (bind_quiet _ _ _ _ _ (get_entry_run _ _ _ Hx)), (proj2 (Z.ltb_ge _ _)) by done.
  destruct (entry_is_tcp_known a x (rq_pair _ _ Hq)) as [b Hb]. rewrite (bind_quiet _ _ _ _ _ Hb), bind_get.
  destruct b; [|by rewrite (bind_quiet _ _ a tt a)]. pose proof (rq_tcp _ _ Hq Hb) as Hc.
  rewrite Hc. by rewrite (bind_quiet _ _ a tt a).
Qed.

(** Before its time, the round of an entry does nothing. *)
Lemma round_early i a x : entries a !! i = Some x -> e_state x = AGENT_STUN_ENTRY_STATE_PENDING -> now < e_next_transmission x ->
  update_one i a = Some (tt, a, []).
Proof.
  intros Hx Hs Hn. unfold update_one. rewrite (bind_quiet _ _ _ _ _ (get_entry_run _ _ _ Hx)), Hs. unfold update_pending.
  by rewrite (bind_quiet _ _ _ _ _ (get_entry_run _ _ _ Hx)), (proj2 (Z.ltb_lt _ _)).
Qed.

Lemma round_sends i a x : entries a !! i = Some x -> requestable a x -> e_state x = AGENT_STUN_ENTRY_STATE_PENDING ->
  e_next_transmission x <= now -> 0 <= e_retransmissions x ->
  exists y a1 d, update_one i a = Some (tt, a1, [Sent (e_record x) d 0]) /\ entry_set a i y a1 /\ same_request x y /\ rescheduled x y.
Proof.
  intros Hx Hq Hs Hn Hr. rewrite (pending_ready i a x) by done. destruct (transmit_run i a x Hx Hq Hr) as (y & a1 & d & Ht & Hy).
  exists y, a1, d. split; [|done]. by rewrite (bind_some _ _ _ _ _ _ Ht).
Qed.

Definition is_sent (ev : event) : Prop := match ev with Sent _ _ _ => True | _ => False end.

Lemma failed_run i a x : entries a !! i = Some x -> pair_known a x ->
  exists a1 tr, pending_failed i a = Some (tt, a1, tr) /\ Forall (fun ev => ~ is_sent ev) tr /\
    exists y, entries a1 !! i = Some y /\ e_state y = AGENT_STUN_ENTRY_STATE_FAILED.
Proof.
  intros Hx Hp. unfold pending_failed. rewrite (bind_quiet _ _ _ _ _ (get_entry_run _ _ _ Hx)).
  set (y := set_e_next_transmission (set_e_state x AGENT_STUN_ENTRY_STATE_FAILED) 0). set (a1 := set_entries a (<[i := y]> (entries a))).
  assert (Hy : entries a1 !! i = Some y) by (apply list_lookup_insert_eq; by eapply lookup_lt_Some).
  assert (Hg : exists a2 tr, agent_update_gathering_done a1 = Some (tt, a2, tr) /\ Forall (fun ev => ~ is_sent ev) tr /\ entries a2 !! i = Some y).
  { unfold agent_update_gathering_done. rewrite bind_get. destruct (existsb _ _); [by exists a1, []|]. destruct (gathering_done a1); [by exists a1, []|].
    rewrite bind_put. set (a2 := set_gathering_done _ _).
    assert (Hpac : exists a3, agent_update_pac_timer a2 = Some (tt, a3, []) /\ entries a3 = entries a1).
    { unfold agent_update_pac_timer. rewrite bind_get. destruct (negb _); [by exists a2|]. destruct (_ && _); by eexists. }
    destruct Hpac as (a3 & Hpac & He). rewrite (bind_quiet _ _ _ _ _ Hpac). exists a3, [GatheringDone]. split; [done|].
    split; [by repeat constructor; intros []|by rewrite He]. }
  assert (Hf : exists a2, fail_entry i a = Some (tt, a2, []) /\ entries a2 !! i = Some y).
  { unfold fail_entry. rewrite (bind_quiet _ _ _ _ _ (update_entry_run _ _ _ _ Hx)). fold y a1. rewrite (bind_quiet _ _ _ _ _ (get_entry_run _ _ _ Hy)).
    change (e_pair y) with (e_pair x). destruct (e_pair x) as [p|] eqn:He; [|by exists a1]. destruct (Hp p He) as (pr & Hpr & _).
    unfold update_pair. rewrite bind_get, (bind_defined _ _ _ _ Hpr). by eexists. }
  destruct Hg as (a2 & tr & Hg & Htr & Hg2). destruct Hf as (a3 & Hf & Hf2).
  destruct (e_type x); [exists a3, []| | |exists a3, []]; try (split; [done|]; split; [done|]; by exists y).
  all: exists a2, tr; split; [by rewrite (bind_quiet _ _ _ _ _ (update_entry_run _ _ _ _ Hx))|]; split; [done|]; by exists y.
Qed.

End Round.

(** ** The schedule *)

Section Schedule.
Context `{CryptoLaws} (sys : System) (Hsys : sending_system sys).

(** A log of rounds at [times]: one request to [dst] in each but the last, and none there. *)
Definition requests_at (dst : addr_record_t) (times : list Z) (log : list (Z * list event)) : Prop :=
  log.*1 = times /\
  exists datas last, log.*2 = ((fun d => [Sent dst d 0]) <$> datas) ++ [last] /\ Forall (fun ev => ~ is_sent ev) last.

(** Entry [i] has failed. *)
Definition has_failed (a : juice_agent_t) (i : nat) : Prop :=
  exists y, entries a !! i = Some y /\ e_state y = AGENT_STUN_ENTRY_STATE_FAILED.

Lemma round_gives_up t i a x : entries a !! i = Some x -> requestable a x -> e_state x = AGENT_STUN_ENTRY_STATE_PENDING ->
  e_next_transmission x <= t -> e_retransmissions x < 0 ->
  exists a1 tr, round_at sys t i a = Some (tt, a1, tr) /\ Forall (fun ev => ~ is_sent ev) tr /\ has_failed a1 i.
Proof.
  intros Hx Hq Hs Hn Hr. destruct (failed_run (at_time sys t) i a x Hx (rq_pair _ _ Hq)) as (a1 & tr & Hf & Hrest).
  exists a1, tr. split; [|done]. rewrite (pending_ready _ i a x) by done.
  unfold transmit. rewrite (bind_quiet _ _ a false a); [done|].
  by rewrite (bind_quiet _ _ _ _ _ (get_entry_run _ _ _ Hx)), (proj2 (Z.leb_gt _ _)).
Qed.

Lemma unanswered_run left_ : forall n i a x, (left_ + 2 <= n)%nat -> entries a !! i = Some x -> requestable a x ->
  e_state x = AGENT_STUN_ENTRY_STATE_PENDING -> e_retransmissions x = Z.of_nat left_ - 1 ->
  exists log a', unanswered sys n i a = Some (log, a') /\
    requests_at (e_record x) (schedule left_ (e_retransmission_timeout x) (e_next_transmission x)) log /\ has_failed a' i.
Proof.
  induction left_ as [|l IH]; intros n i a x Hn Hx Hq Hs Hr; (destruct n as [|n]; [lia|]); cbn [unanswered];
    rewrite Hx; cbn [mbind option_bind]; rewrite bool_decide_eq_true_2 by done.
  - destruct (round_gives_up (e_next_transmission x) i a x) as (a1 & tr & Hru & Htr & y & Hy & Hf); [done..|lia|]. rewrite Hru.
    destruct n as [|n]; [lia|]. cbn [unanswered mbind option_bind]. rewrite Hy. cbn [mbind option_bind]. rewrite bool_decide_eq_false_2 by congruence.
    cbn. eexists _, _. split; [done|]. split; [|by exists y]. split; [done|]. by exists [], tr.
  - destruct (round_sends (at_time sys (e_next_transmission x)) (sending_at_time _ _ Hsys) i a x) as (y & a1 & d & Hru & Hset & Hsame & Hy0 & Hy1 & Hy2);
      [done..|lia|]. rewrite Hru. cbn [mbind option_bind].
    destruct (IH n i a1 y) as (log & a2 & Hl & (Ht & datas & last & Hev & Hlast) & Hf); [lia|by eapply entry_set_lookup|by eapply requestable_kept|congruence|lia|].
    rewrite Hl. cbn [mbind option_bind]. eexists _, _. split; [done|]. split; [|done]. split.
    + rewrite fmap_cons. cbn [fst schedule]. f_equal. rewrite Ht. destruct l as [|l].
      * rewrite (proj2 (Z.eqb_eq _ _)) in Hy2 by lia. cbn. by rewrite Hy2.
      * rewrite (proj2 (Z.eqb_neq _ _)) in Hy2 by lia. destruct Hy2 as [-> ->]. done.
    + exists (d :: datas), last. split; [|done]. rewrite fmap_cons. cbn. f_equal. rewrite Hev. destruct Hsame as (_ & _ & -> & _). done.
Qed.

Lemma schedule_shift left_ : forall timeout t, schedule left_ timeout t = Z.add t <$> schedule left_ timeout 0.
Proof.
  induction left_ as [|l IH]; intros timeout t; cbn [schedule]; rewrite fmap_cons; [by rewrite Z.add_0_r|].
  f_equal; [lia|]. destruct l as [|l]; [cbn; f_equal; lia|]. rewrite (IH _ (t + timeout)), (IH _ (0 + timeout)), <- list_fmap_compose.
  apply list_fmap_ext. cbn. lia.
Qed.

(** An entry that has just been armed, at time [t]. *)
Definition armed (x y : agent_stun_entry_t) (tcp : bool) (t : Z) : Prop :=
  e_state y = AGENT_STUN_ENTRY_STATE_PENDING /\ e_next_transmission y = t /\ e_record y = e_record x /\
  e_retransmission_timeout y = (if tcp then STUN_TCP_TIMEOUT else MIN_STUN_RETRANSMISSION_TIMEOUT) /\
  e_retransmissions y =
    (if tcp then 0 else if bool_decide (e_type x = AGENT_STUN_ENTRY_TYPE_CHECK) then MAX_STUN_CHECK_RETRANSMISSION_COUNT
     else MAX_STUN_SERVER_RETRANSMISSION_COUNT).

Lemma arm_run i delay a x : entries a !! i = Some x -> requestable a x -> times_near a (now + delay) -> (length (entries a) <= 92)%nat ->
  e_state x <> AGENT_STUN_ENTRY_STATE_SUCCEEDED_KEEPALIVE ->
  exists tcp y a1 t, entry_is_tcp x a = Some (tcp, a, []) /\ agent_arm_transmission i delay a = Some (tt, a1, []) /\
    entries a1 !! i = Some y /\ requestable a1 y /\ now + delay <= t /\ armed x y tcp t.
Proof.
  intros Hx Hq Hn Hl Hk. destruct (arm_transmission_run a i x delay Hx (rq_pair _ _ Hq) Hn Hl) as (y & Hr & [Hb _] & _ & Hst & _).
  destruct (entry_is_tcp_known a x (rq_pair _ _ Hq)) as [tcp Htcp].
  assert (Hy : exists z t, y = set_e_next_transmission z t /\ arm_entry x delay a = Some (z, a, [])).
  { pose proof Hr as Hr'. unfold agent_arm_transmission in Hr'. rewrite (bind_quiet _ _ _ _ _ (get_entry_run _ _ _ Hx)) in Hr'.
    apply bind_run in Hr' as (z & a2 & tr1 & tr2 & Ha & Hr' & _). pose proof Ha as Ha'. apply arm_entry_target in Ha' as (_ & _ & -> & ->).
    rewrite bind_get in Hr'. apply bind_run in Hr' as (t & a2 & tr3 & tr4 & Hd & Hr' & _). apply defined_run in Hd as (_ & -> & _).
    rewrite (update_entry_run _ _ _ _ Hx) in Hr'. injection Hr' as Hr' _. exists z, t. split; [|done].
    apply (f_equal (fun l => l !! i)) in Hr'. rewrite !list_lookup_insert_eq in Hr' by (by eapply lookup_lt_Some). by injection Hr'. }
  destruct Hy as (z & t & -> & Ha). exists tcp, (set_e_next_transmission z t), (set_entries a (<[i := set_e_next_transmission z t]> (entries a))), t.
  split; [done|]. split; [exact Hr|]. split; [apply list_lookup_insert_eq; by eapply lookup_lt_Some|].
  unfold arm_entry in Ha. rewrite (bool_decide_eq_false_2 _ Hk) in Ha. cbn [negb] in Ha. rewrite bool_decide_eq_true_2 in Ha by done.
  rewrite (bind_quiet _ _ a tcp a) in Ha by (by eapply entry_is_tcp_at; [..|exact Htcp]). apply ret_run in Ha as (-> & _ & _).
  split; [|split; [exact Hb|by destruct tcp] ]. eapply (requestable_kept a i x); [done|by destruct (rq_tid _ _ Hq), tcp|].
  exists (draws a). by destruct a.
Qed.

(** C28: a request that is not answered, from the time when [agent_arm_transmission]
    gives it to its entry: in the rounds of the loop of [agent_bookkeeping] when the
    entry is due, a check over UDP is sent 7 times with doubling delays and given up,
    its entry failed, 39.5 s after the first, the timer that ends the search for a
    pair; a request to a server is sent 6 times and given up after 23.5 s; a check
    over TCP is sent once and given up after 8 s.  Each of these rounds sends one
    datagram, to the address of the entry, and the last one none; a round before the
    entry is due does nothing.  The system takes the datagrams, the request does not go
    through a relay and can be written ([requestable]), and the times of the agent's at
    most 92 entries are within 12 days ([times_near]). *)
Theorem agent_retransmission_schedule a i x delay n :
  entries a !! i = Some x -> requestable a x -> times_near a (now + delay) -> (length (entries a) <= 92)%nat ->
  e_state x <> AGENT_STUN_ENTRY_STATE_SUCCEEDED_KEEPALIVE -> (9 <= n)%nat ->
  exists tcp a1 t log a2, entry_is_tcp x a = Some (tcp, a, []) /\ agent_arm_transmission i delay a = Some (tt, a1, []) /\ now + delay <= t /\
    (forall s, s < t -> round_at sys s i a1 = Some (tt, a1, [])) /\
    unanswered sys n i a1 = Some (log, a2) /\ has_failed a2 i /\
    requests_at (e_record x) (Z.add t <$>
      (if tcp then [0; 8000]
       else if bool_decide (e_type x = AGENT_STUN_ENTRY_TYPE_CHECK)
       then [0; 500; 1500; 3500; 7500; 15500; 31500; ICE_PAC_TIMEOUT]
       else [0; 500; 1500; 3500; 7500; 15500; 23500])) log.
Proof.
  intros Hx Hq Hn Hl Hk Hfuel. destruct (arm_run i delay a x Hx Hq Hn Hl Hk) as (tcp & y & a1 & t & Htcp & Hr & Hy & Hqy & Hd & Hst & Ht & Hrec & Hto & Hre).
  set (k := if tcp then 1%nat else if bool_decide (e_type x = AGENT_STUN_ENTRY_TYPE_CHECK) then 7%nat else 6%nat).
  destruct (unanswered_run k n i a1 y) as (log & a2 & Hu & Hlog & Hf); [unfold k; by repeat case_match; lia|done..| |].
  { rewrite Hre. unfold k. by repeat case_match. }
  exists tcp, a1, t, log, a2. split_and!; try done.
  - intros s Hs. apply (round_early (at_time sys s) i a1 y); [done..|]. cbn. lia.
  - rewrite <- Hrec. rewrite Ht, Hto, schedule_shift in Hlog. unfold k in Hlog.
    destruct tcp; [done|]. by case_bool_decide.
Qed.
End Schedule.

(** ** Examples *)

Lemma example_system_sends t : sending_system (host_system alice_addr t).
Proof.
  split; [by split; [apply bytes_forallb|]|by vm_compute| |intros; apply zlen_nonneg].
  intros k. split.
  - apply Forall_app; split; [apply be_bytes|]. apply Forall_app; split; [apply be_bytes|by repeat constructor].
  - cbn [random_bytes host_system]. rewrite !zlen_app, !zlen_be. done.
Qed.

Lemma example_requestable : requestable example_agent example_entry /\ e_state example_entry = AGENT_STUN_ENTRY_STATE_PENDING /\
  e_type example_entry = AGENT_STUN_ENTRY_TYPE_CHECK /\ entry_is_tcp example_entry example_agent = Some (false, example_agent, []) /\
  e_record example_entry = bob_addr.
Proof.
  split; [|split_and!; by vm_compute]. split; try by vm_compute.
  - split; [apply bytes_forallb|]; by vm_compute.
  - apply example_entry_known.
  - intros _. split_and!; [by vm_compute..| |]; apply bytes_forallb; by vm_compute.
Qed.

Lemma result_inj {A B C} (x y : A) (s s' : B) (t t' : C) : Some (x, s, t) = Some (y, s', t') -> x = y.
Proof. congruence. Qed.

(** Alice's first check, when Bob does not answer. *)
Lemma agent_retransmission_schedule_witness : exists a1 t log a2,
  @agent_arm_transmission (host_system alice_addr 1000) 0 100 example_agent = Some (tt, a1, []) /\ 1100 <= t /\
  @unanswered sum_crypto (host_system alice_addr 1000) 9 0 a1 = Some (log, a2) /\
  requests_at bob_addr (Z.add t <$> [0; 500; 1500; 3500; 7500; 15500; 31500; 39500]) log.
Proof.
  destruct example_entry_known as (Hx & _ & Hn & Hl). destruct example_requestable as (Hq & Hst & Hty & Htcp & Hrec).
  destruct (@agent_retransmission_schedule sum_crypto sum_crypto_laws (host_system alice_addr 1000) (example_system_sends 1000)
              example_agent 0 example_entry 100 9 Hx Hq Hn Hl) as (tcp & a1 & t & log & a2 & Ht & Ha & Hle & _ & Hu & _ & Hlog);
    [rewrite Hst; discriminate|lia|].
  rewrite Htcp in Ht. apply result_inj in Ht as <-. rewrite Hty, Hrec, bool_decide_eq_true_2 in Hlog by done.
  exists a1, t, log, a2. split; [exact Ha|]. split; [exact Hle|]. split; [exact Hu|exact Hlog].
Defined.
