(* ===== verification/AgentFrame.v ===== *)
(** * The ICE agent: what its steps leave alone

    Most steps of an agent neither change its state nor bring a pair into use.  The
    relations that such steps keep are a class, and the steps are shown once to keep
    every relation of the class. *)

From S2P Require Import Prelude Effects CText Addr Turn Ice IceSdp StunTypes StunWrite StunRead AgentTypes Agent AgentMessages.
From S2P Require Import AgentUpdate AgentCalls AgentNet AgentPacing.
#[local] Open Scope Z_scope.

(** ** Pairs do not gain trust *)

(** Whether a pair is valid, is nominated, or will be when its check succeeds. *)
Definition trust (p : agent_pair) : bool * bool * bool :=
  (bool_decide (state p = ICE_CANDIDATE_PAIR_STATE_SUCCEEDED), nominated p, nomination_requested p).

Definition trust_le (t u : bool * bool * bool) : Prop :=
  let '(t1, t2, t3) := t in let '(u1, u2, u3) := u in (t1 -> u1) /\ (t2 -> u2) /\ (t3 -> u3).

#[global] Instance trust_le_preorder : PreOrder trust_le.
Proof.
  split; [intros [ [ ] ]; cbn; tauto|]. intros [ [t1 t2] t3] [ [u1 u2] u3] [ [v1 v2] v3]. cbn. tauto.
Qed.

(** The trust in pair [k]: none if there is no such pair. *)
Definition trust_at (a : juice_agent_t) (k : nat) : bool * bool * bool :=
  match candidate_pairs a !! k with Some p => trust p | None => (false, false, false) end.

(** No pair of [a'] is trusted more than in [a]. *)
Definition no_more_trust (a a' : juice_agent_t) : Prop := forall k, trust_le (trust_at a' k) (trust_at a k).

#[global] Instance no_more_trust_preorder : PreOrder no_more_trust.
Proof.
  split; [intros a k; reflexivity|]. intros a b c Hab Hbc k. etransitivity; [apply Hbc|apply Hab].
Qed.

Lemma no_more_trust_pairs a a' : candidate_pairs a' = candidate_pairs a -> no_more_trust a a'.
Proof. intros He k. unfold trust_at. rewrite He. reflexivity. Qed.

(** ** What every step keeps *)

(** The state of the agent and whether it has a connection. *)
Definition core (a : juice_agent_t) : juice_state_t * bool := (a_state a, conn_started a).

(** A pair is for the same remote candidate, and nominated if it was. *)
Definition pair_kept (p p' : agent_pair) : Prop := remote p' = remote p /\ (nominated p -> nominated p').

#[global] Instance pair_kept_preorder : PreOrder pair_kept.
Proof.
  split; [by intros p|]. intros p q r [H1 H2] [H3 H4]. split; [congruence|auto].
Qed.

(** Pairs are kept, also in the order of the pairs. *)
Record kept (a a' : juice_agent_t) : Prop := {
  kept_core : core a' = core a;
  kept_pairs k p : candidate_pairs a !! k = Some p -> exists p', candidate_pairs a' !! k = Some p' /\ pair_kept p p';
  kept_ordered k : (k < length (candidate_pairs a))%nat -> k ∈ ordered_pairs a -> k ∈ ordered_pairs a'
}.

Lemma kept_same a a' : core a' = core a -> candidate_pairs a' = candidate_pairs a ->
  ordered_pairs a' = ordered_pairs a -> kept a a'.
Proof. intros Hc Hp Ho. split; [done| |by rewrite Ho]. intros k p Hk. exists p. by rewrite Hp. Qed.

#[global] Instance kept_preorder : PreOrder kept.
Proof.
  split; [intros a; by apply kept_same|]. intros a b c [C1 P1 O1] [C2 P2 O2]. split; [congruence| |].
  - intros k p (q & Hq & Hpq)%P1. apply P2 in Hq as (r & Hr & Hqr). exists r. split; [done|by etransitivity].
  - intros k Hk Ho. apply O2; [|by apply O1]. destruct (lookup_lt_is_Some_2 _ _ Hk) as [p Hp].
    apply P1 in Hp as (q & Hq & _). by eapply lookup_lt_Some.
Qed.

Lemma kept_update a i p p' : candidate_pairs a !! i = Some p -> pair_kept p p' ->
  kept a (set_candidate_pairs a (<[i := p']> (candidate_pairs a))).
Proof.
  intros Hp Hk. split; [done| |done]. cbn. intros k q Hq.
  destruct (decide (k = i)) as [->|Hne].
  - exists p'. rewrite list_lookup_insert_eq by (by apply lookup_lt_Some in Hp). split; [done|].
    by replace q with p by congruence.
  - exists q. by rewrite list_lookup_insert_ne.
Qed.

(** ** Frames *)

(** Relations kept by what keeps all pairs and brings none into use, and by what is
    not a change of state. *)
Class Frame (R : juice_agent_t -> list event -> juice_agent_t -> Prop) : Prop := {
  frame_composes :: Composes R;
  frame_put a a' : kept a a' -> no_more_trust a a' -> R a [] a';
  frame_emit a ev : (forall st, ev <> StateChanged st) -> R a [ev] a
}.

#[global] Instance frame_trust : Frame (on_states no_more_trust).
Proof. split; [typeclasses eauto|by intros|]. intros. apply on_states_refl. typeclasses eauto. Qed.

Lemma frame_put_same R `{!Frame R} a a' : core a' = core a -> candidate_pairs a' = candidate_pairs a ->
  ordered_pairs a' = ordered_pairs a -> R a [] a'.
Proof. intros Hc Hp Ho. apply frame_put; [by apply kept_same|by apply no_more_trust_pairs]. Qed.

Abbreviation keeps_frame c := (forall R, Frame R -> forall a, keeps_at R a c).

(** The primitive steps. *)
Ltac frame_step :=
  match goal with
  | |- ?R _ [] _ => apply (frame_put_same R); reflexivity
  | |- ?R _ [_] _ => apply (frame_emit (R := R)); discriminate
  end.
#[export] Hint Extern 3 => frame_step : keeps.
#[export] Hint Extern 0 (Frame _) => typeclasses eauto : keeps.

Lemma modify_frame f : (forall a, core (f a) = core a /\ candidate_pairs (f a) = candidate_pairs a /\
  ordered_pairs (f a) = ordered_pairs a) -> keeps_frame (modify f).
Proof. intros Hf R HR a. unfold modify. keeps. apply (frame_put_same R); apply Hf. Qed.
Lemma get_entry_frame i : keeps_frame (get_entry i).
Proof. intros R HR a. unfold get_entry. keeps. Qed.
Lemma update_entry_frame i f : keeps_frame (update_entry i f).
Proof. intros R HR a. unfold update_entry. keeps. Qed.
Lemma get_pair_frame i : keeps_frame (get_pair i).
Proof. intros R HR a. unfold get_pair. keeps. Qed.

Lemma update_pair_frame i f : (forall p, pair_kept p (f p) /\ trust_le (trust (f p)) (trust p)) ->
  keeps_frame (update_pair i f).
Proof.
  intros Hf R HR a. unfold update_pair. keeps.
  match goal with Hp : candidate_pairs a !! i = Some ?p |- _ =>
    apply frame_put; [eapply kept_update; [exact Hp|apply Hf] |];
    intros k; unfold trust_at; cbn; destruct (decide (k = i)) as [->|Hk];
      [rewrite list_lookup_insert_eq by (by apply lookup_lt_Some in Hp); rewrite Hp; apply Hf
      |rewrite list_lookup_insert_ne by done; reflexivity] end.
Qed.
#[export] Hint Resolve get_entry_frame update_entry_frame get_pair_frame : keeps.
#[export] Hint Extern 2 (keeps_at _ _ (modify _)) =>
  (apply modify_frame; [intros; split_and!; reflexivity|typeclasses eauto]) : keeps.

Section Steps.
Context `{Crypto} `{System}.

Lemma push_entry_frame x : keeps_frame (push_entry x).
Proof. intros R HR a. unfold push_entry. keeps. Qed.
Lemma juice_random_frame n : keeps_frame (juice_random n).
Proof. intros R HR a. unfold juice_random. keeps. Qed.
Lemma draw_many_frame n : keeps_frame (draw_many n).
Proof. intros R HR a. unfold draw_many. keeps. Qed.
#[local] Hint Resolve push_entry_frame juice_random_frame draw_many_frame : keeps.
Lemma entry_is_tcp_frame x : keeps_frame (entry_is_tcp x).
Proof. intros R HR a. unfold entry_is_tcp. keeps. Qed.
#[local] Hint Resolve entry_is_tcp_frame : keeps.
Lemma agent_arm_transmission_frame i d : keeps_frame (agent_arm_transmission i d).
Proof. intros R HR a. unfold agent_arm_transmission, arm_entry. keeps. Qed.
#[local] Hint Resolve agent_arm_transmission_frame : keeps.
Lemma agent_arm_keepalive_frame i : keeps_frame (agent_arm_keepalive i).
Proof. intros R HR a. unfold agent_arm_keepalive, juice_rand32. keeps. Qed.
Lemma agent_update_gathering_done_frame : keeps_frame agent_update_gathering_done.
Proof. intros R HR a. unfold agent_update_gathering_done, agent_update_pac_timer. keeps. Qed.
#[local] Hint Resolve agent_arm_keepalive_frame agent_update_gathering_done_frame : keeps.

(** ** Operations of the agent *)

Lemma trust_le_none t : trust_le (false, false, false) t.
Proof. destruct t as [ [ ] ]. cbn. tauto. Qed.

Lemma set_pair_state_trust p st : st <> ICE_CANDIDATE_PAIR_STATE_SUCCEEDED ->
  trust_le (trust (set_pair_state p st)) (trust p).
Proof. intros Hst. unfold trust. cbn. rewrite bool_decide_eq_false_2 by done. cbn. tauto. Qed.
#[local] Hint Extern 2 (keeps_at _ _ (update_pair _ (fun p => set_pair_state p _))) =>
  (apply update_pair_frame; [intros; split; [done|by apply set_pair_state_trust]|typeclasses eauto]) : keeps.

Lemma agent_update_ordered_pairs_frame : keeps_frame agent_update_ordered_pairs.
Proof.
  intros R HR a x a' tr Hr. destruct (agent_update_ordered_pairs_run a) as (l & Hl & _ & Hp).
  rewrite Hl in Hr. injection Hr as <- <- <-. apply frame_put; [|by apply no_more_trust_pairs].
  split; [done|by intros k p; exists p|]. intros k Hk _. cbn. rewrite Hp. apply elem_of_seq. lia.
Qed.
#[local] Hint Resolve agent_update_ordered_pairs_frame : keeps.

Lemma ice_update_candidate_pair_trust a p b : trust (ice_update_candidate_pair (candidate_at a) p b) = trust p.
Proof. destruct p as [l r]. unfold ice_update_candidate_pair. by destruct l, r. Qed.

Lemma agent_update_candidate_pairs_frame : keeps_frame agent_update_candidate_pairs.
Proof.
  intros R HR a. unfold agent_update_candidate_pairs. keeps. apply frame_put.
  { split; [done| |done]. intros k p Hp. cbn. eexists. split; [by rewrite list_lookup_fmap, Hp|].
    unfold ice_update_candidate_pair. by destruct p as [ [] [] ]. }
  intros k. unfold trust_at. cbn.
  rewrite list_lookup_fmap. destruct (candidate_pairs a !! k); [|reflexivity].
  cbn [fmap option_fmap option_map]. rewrite ice_update_candidate_pair_trust. reflexivity.
Qed.

Lemma agent_unfreeze_candidate_pair_frame p : keeps_frame (agent_unfreeze_candidate_pair p).
Proof. intros R HR a. unfold agent_unfreeze_candidate_pair. keeps. Qed.
Lemma agent_register_entry_frame p r : keeps_frame (agent_register_entry_for_candidate_pair p r).
Proof. intros R HR a. unfold agent_register_entry_for_candidate_pair. keeps. Qed.
#[local] Hint Resolve agent_update_candidate_pairs_frame agent_unfreeze_candidate_pair_frame
  agent_register_entry_frame : keeps.
Lemma unfreeze_new_pair_frame p : keeps_frame (unfreeze_new_pair p).
Proof. intros R HR a. unfold unfreeze_new_pair. keeps. Qed.
#[local] Hint Resolve unfreeze_new_pair_frame : keeps.

Lemma ice_create_candidate_pair_trust a l r b pr :
  ice_create_candidate_pair (candidate_at a) l r b = Some pr -> trust pr = (false, false, false).
Proof. unfold ice_create_candidate_pair. case_match; [done|]. intros [= <-]. by rewrite ice_update_candidate_pair_trust. Qed.

Lemma add_pair_trust a pr : trust pr = (false, false, false) ->
  no_more_trust a (set_candidate_pairs a (candidate_pairs a ++ [pr])).
Proof.
  intros Hpr k. unfold trust_at. cbn. destruct (candidate_pairs a !! k) as [p|] eqn:Hp.
  - by rewrite (lookup_app_l_Some _ _ _ _ Hp).
  - destruct ((_ ++ _) !! k) eqn:Hk; [|reflexivity].
    rewrite lookup_app_r in Hk by (by apply lookup_ge_None). apply list_lookup_singleton_Some in Hk as [_ <-].
    by rewrite Hpr.
Qed.

Lemma agent_add_candidate_pair_frame l r : keeps_frame (agent_add_candidate_pair l r).
Proof.
  intros R HR a. unfold agent_add_candidate_pair. keeps.
  all: apply frame_put; [|by eapply add_pair_trust, ice_create_candidate_pair_trust].
  all: split; [done| |done]; intros k p Hp; exists p; split; [|reflexivity]; cbn; by apply lookup_app_l_Some.
Qed.
#[local] Hint Resolve agent_add_candidate_pair_frame : keeps.
Lemma pair_relayed_frame r n : forall i, keeps_frame (pair_relayed n i r).
Proof. induction n as [|n IH]; intros i R HR a; cbn [pair_relayed]; keeps. Qed.
#[local] Hint Resolve pair_relayed_frame : keeps.
Lemma agent_add_candidate_pairs_for_remote_frame r : keeps_frame (agent_add_candidate_pairs_for_remote r).
Proof. intros R HR a. unfold agent_add_candidate_pairs_for_remote. keeps. Qed.
#[local] Hint Resolve agent_add_candidate_pairs_for_remote_frame : keeps.

Lemma retrieve_transaction_id_frame i tid : keeps_frame (retrieve_transaction_id i tid).
Proof. intros R HR a. unfold retrieve_transaction_id. keeps. Qed.
#[local] Hint Resolve retrieve_transaction_id_frame : keeps.
Lemma find_entry_loop_frame tid n : forall i, keeps_frame (find_entry_loop n i tid).
Proof. induction n as [|n IH]; intros i R HR a; cbn [find_entry_loop]; keeps. Qed.
#[local] Hint Resolve find_entry_loop_frame : keeps.
Lemma agent_find_entry_from_transaction_id_frame tid : keeps_frame (agent_find_entry_from_transaction_id tid).
Proof. intros R HR a. unfold agent_find_entry_from_transaction_id. keeps. Qed.
Lemma agent_find_entry_from_record_frame r rl : keeps_frame (agent_find_entry_from_record r rl).
Proof. intros R HR a. unfold agent_find_entry_from_record. keeps. Qed.

Lemma agent_direct_send_frame r d ds : keeps_frame (agent_direct_send r d ds).
Proof. intros R HR a. unfold agent_direct_send. keeps. Qed.
Lemma write_message_frame m p : keeps_frame (write_message m p).
Proof. intros R HR a. unfold write_message. keeps. Qed.
#[local] Hint Resolve agent_direct_send_frame write_message_frame agent_find_entry_from_transaction_id_frame
  agent_find_entry_from_record_frame : keeps.
Lemma send_message_frame r m p ds : keeps_frame (send_message r m p ds).
Proof. intros R HR a. unfold send_message. keeps. Qed.
#[local] Hint Resolve send_message_frame : keeps.
Lemma create_permission_request_frame i r ds : keeps_frame (agent_send_turn_create_permission_request i r ds).
Proof. intros R HR a. unfold agent_send_turn_create_permission_request. keeps. Qed.
Lemma channel_bind_request_frame i r ds : keeps_frame (agent_send_turn_channel_bind_request i r ds).
Proof. intros R HR a. unfold agent_send_turn_channel_bind_request. keeps. Qed.
#[local] Hint Resolve create_permission_request_frame channel_bind_request_frame : keeps.
Lemma agent_relay_send_frame i r d ds : keeps_frame (agent_relay_send i r d ds).
Proof. intros R HR a. unfold agent_relay_send. keeps. Qed.
Lemma agent_channel_send_frame i r d ds : keeps_frame (agent_channel_send i r d ds).
Proof. intros R HR a. unfold agent_channel_send. keeps. Qed.
#[local] Hint Resolve agent_relay_send_frame agent_channel_send_frame : keeps.
Lemma send_binding_frame i m p : keeps_frame (send_binding i m p).
Proof. intros R HR a. unfold send_binding. keeps. Qed.
#[local] Hint Resolve send_binding_frame : keeps.
Lemma agent_send_stun_binding_frame i c e t m : keeps_frame (agent_send_stun_binding i c e t m).
Proof. intros R HR a. unfold agent_send_stun_binding. keeps. Qed.
#[local] Hint Resolve agent_send_stun_binding_frame : keeps.

(** ** Handlers *)

Lemma pair_with_remotes_frame l n : forall k, keeps_frame (pair_with_remotes n k l).
Proof. induction n as [|n IH]; intros k R HR a; cbn [pair_with_remotes]; keeps. Qed.
#[local] Hint Resolve pair_with_remotes_frame : keeps.
#[local] Hint Unfold set_local set_remote set_mode : keeps.
Lemma set_local_frame d : keeps_frame (set_local d).
Proof. intros R HR a. unfold set_local. keeps. Qed.
Lemma set_remote_frame d : keeps_frame (set_remote d).
Proof. intros R HR a. unfold set_remote. keeps. Qed.
Lemma set_mode_frame m : keeps_frame (set_mode m).
Proof. intros R HR a. unfold set_mode. keeps. Qed.
Lemma set_entry_state_frame i st : keeps_frame (set_entry_state i st).
Proof. intros R HR a. unfold set_entry_state. keeps. Qed.
#[local] Hint Resolve set_local_frame set_remote_frame set_mode_frame set_entry_state_frame : keeps.
Lemma agent_add_local_relayed_candidate_frame r : keeps_frame (agent_add_local_relayed_candidate r).
Proof. intros R HR a. unfold agent_add_local_relayed_candidate. keeps. Qed.
Lemma agent_add_local_reflexive_candidate_frame t r : keeps_frame (agent_add_local_reflexive_candidate t r).
Proof. intros R HR a. unfold agent_add_local_reflexive_candidate. keeps. Qed.
Lemma agent_add_remote_reflexive_candidate_frame t p r : keeps_frame (agent_add_remote_reflexive_candidate t p r).
Proof. intros R HR a. unfold agent_add_remote_reflexive_candidate. keeps. Qed.
#[local] Hint Resolve agent_add_local_relayed_candidate_frame agent_add_local_reflexive_candidate_frame
  agent_add_remote_reflexive_candidate_frame : keeps.

Lemma fail_entry_frame i : keeps_frame (fail_entry i).
Proof. intros R HR a. unfold fail_entry. keeps. Qed.
Lemma entry_succeeded_frame i : keeps_frame (entry_succeeded i).
Proof. intros R HR a. unfold entry_succeeded. keeps. Qed.
Lemma fail_relay_frame i : keeps_frame (fail_relay i).
Proof. intros R HR a. unfold fail_relay. keeps. Qed.
Lemma set_turn_credentials_frame i m : keeps_frame (set_turn_credentials i m).
Proof. intros R HR a. unfold set_turn_credentials. keeps. Qed.
#[local] Hint Resolve fail_entry_frame entry_succeeded_frame fail_relay_frame set_turn_credentials_frame : keeps.

Lemma process_binding_error_frame i m : keeps_frame (process_binding_error i m).
Proof. intros R HR a. unfold process_binding_error. keeps. Qed.
Lemma agent_process_turn_allocate_frame m i : keeps_frame (agent_process_turn_allocate m i).
Proof. intros R HR a. unfold agent_process_turn_allocate, process_allocate_success, process_allocate_error. keeps. Qed.
Lemma agent_process_turn_create_permission_frame m i : keeps_frame (agent_process_turn_create_permission m i).
Proof. intros R HR a. unfold agent_process_turn_create_permission, process_turn_response. keeps. Qed.
Lemma agent_process_turn_channel_bind_frame m i : keeps_frame (agent_process_turn_channel_bind m i).
Proof. intros R HR a. unfold agent_process_turn_channel_bind, process_turn_response. keeps. Qed.
Lemma agent_verify_credentials_frame i b m : keeps_frame (agent_verify_credentials i b m).
Proof. intros R HR a. unfold agent_verify_credentials. keeps. Qed.
#[local] Hint Resolve process_binding_error_frame agent_process_turn_allocate_frame
  agent_process_turn_create_permission_frame agent_process_turn_channel_bind_frame
  agent_verify_credentials_frame : keeps.


(** ** Updates *)

Lemma conn_interrupt_frame : keeps_frame conn_interrupt.
Proof. intros R HR a. unfold conn_interrupt. keeps. Qed.
#[local] Hint Resolve conn_interrupt_frame : keeps.
Lemma tcp_state_loop_frame dst st n : forall i, keeps_frame (tcp_state_loop n i dst st).
Proof. induction n as [|n IH]; intros i R HR a; cbn [tcp_state_loop]; keeps. Qed.
Lemma renew_transaction_id_frame i : keeps_frame (renew_transaction_id i).
Proof. intros R HR a. unfold renew_transaction_id. keeps. Qed.
Lemma agent_send_turn_allocate_request_frame i m : keeps_frame (agent_send_turn_allocate_request i m).
Proof. intros R HR a. unfold agent_send_turn_allocate_request. keeps. Qed.
#[local] Hint Resolve renew_transaction_id_frame agent_send_turn_allocate_request_frame : keeps.
Lemma transmit_frame i : keeps_frame (transmit i).
Proof. intros R HR a. unfold transmit. keeps. Qed.
Lemma pending_failed_frame i : keeps_frame (pending_failed i).
Proof. intros R HR a. unfold pending_failed. keeps. Qed.
#[local] Hint Resolve transmit_frame pending_failed_frame : keeps.
Lemma update_one_frame i : keeps_frame (update_one i).
Proof. intros R HR a. unfold update_one, update_pending, update_keepalive. keeps. Qed.
#[local] Hint Resolve update_one_frame : keeps.
Lemma update_entries_frame n : forall i, keeps_frame (update_entries n i).
Proof. induction n as [|n IH]; intros i R HR a; cbn [update_entries]; keeps. Qed.
Lemma enable_keepalive_frame i : keeps_frame (enable_keepalive i).
Proof. intros R HR a. unfold enable_keepalive. keeps. Qed.
Lemma disable_keepalives_frame k1 k2 : keeps_frame (disable_keepalives k1 k2).
Proof. intros R HR a. unfold disable_keepalives. keeps. Qed.
Lemma select_pair_frame p : keeps_frame (select_pair p).
Proof. intros R HR a. unfold select_pair. keeps. all: apply (frame_put_same R); by repeat case_match. Qed.

(** ** The calls of the application *)

Lemma agent_update_pac_timer_frame : keeps_frame agent_update_pac_timer.
Proof. intros R HR a. unfold agent_update_pac_timer. keeps. Qed.
#[local] Hint Resolve agent_update_pac_timer_frame : keeps.
Lemma assume_controlling_frame : keeps_frame assume_controlling.
Proof. intros R HR a. unfold assume_controlling. keeps. Qed.
Lemma add_relay_entry_frame t k r : keeps_frame (add_relay_entry t k r).
Proof. intros R HR a. unfold add_relay_entry. keeps. Qed.
Lemma set_port_frame k p : keeps_frame (set_port k p).
Proof. intros R HR a. unfold set_port. keeps. Qed.
#[local] Hint Resolve assume_controlling_frame add_relay_entry_frame set_port_frame : keeps.
Lemma resolve_turn_servers_frame n : forall k c, keeps_frame (resolve_turn_servers n k c).
Proof. induction n as [|n IH]; intros k c R HR a; cbn [resolve_turn_servers]; keeps. Qed.
Lemma add_server_entries_frame rs : forall k, keeps_frame (add_server_entries rs k).
Proof. induction rs as [|r rs IH]; intros k R HR a; cbn [add_server_entries]; keeps. Qed.
#[local] Hint Resolve resolve_turn_servers_frame add_server_entries_frame : keeps.
Lemma agent_resolve_servers_frame : keeps_frame agent_resolve_servers.
Proof. intros R HR a. unfold agent_resolve_servers, resolve_stun_server. keeps. Qed.
Lemma announce_host_candidates_frame cs : keeps_frame (announce_host_candidates cs).
Proof. induction cs as [|c cs IH]; intros R HR a; cbn [announce_host_candidates]; keeps. Qed.
Lemma agent_add_local_tcp_active_candidate_frame r : keeps_frame (agent_add_local_tcp_active_candidate r).
Proof. intros R HR a. unfold agent_add_local_tcp_active_candidate. keeps. Qed.
#[local] Hint Resolve agent_resolve_servers_frame announce_host_candidates_frame
  agent_add_local_tcp_active_candidate_frame : keeps.
Lemma add_tcp_candidate_frame rs f : keeps_frame (add_tcp_candidate rs f).
Proof. intros R HR a. unfold add_tcp_candidate. keeps. Qed.
Lemma unfreeze_all_frame n : forall p, keeps_frame (unfreeze_all n p).
Proof. induction n as [|n IH]; intros p R HR a; cbn [unfreeze_all]; keeps. Qed.
Lemma add_remotes_frame n : forall p, keeps_frame (add_remotes n p).
Proof. induction n as [|n IH]; intros p R HR a; cbn [add_remotes]; keeps. Qed.
#[local] Hint Resolve add_tcp_candidate_frame unfreeze_all_frame add_remotes_frame : keeps.
Lemma agent_set_remote_description_frame sdp : keeps_frame (agent_set_remote_description sdp).
Proof. intros R HR a. unfold agent_set_remote_description. keeps. Qed.
Lemma agent_add_remote_candidate_frame sdp : keeps_frame (agent_add_remote_candidate sdp).
Proof. intros R HR a. unfold agent_add_remote_candidate. keeps. Qed.
#[local] Hint Resolve agent_set_remote_description_frame agent_add_remote_candidate_frame : keeps.

(** ** Handlers of checks *)

Lemma answer_request_frame i p tid src : keeps_frame (answer_request i p tid src).
Proof. intros R HR a. unfold answer_request. keeps. Qed.
#[local] Hint Resolve answer_request_frame : keeps.
End Steps.

#[export] Hint Resolve push_entry_frame juice_random_frame draw_many_frame entry_is_tcp_frame
  agent_arm_transmission_frame agent_arm_keepalive_frame agent_update_gathering_done_frame
  agent_update_candidate_pairs_frame agent_unfreeze_candidate_pair_frame agent_add_candidate_pair_frame
  agent_add_candidate_pairs_for_remote_frame agent_find_entry_from_transaction_id_frame
  agent_find_entry_from_record_frame agent_send_stun_binding_frame agent_channel_send_frame
  agent_direct_send_frame agent_add_local_relayed_candidate_frame agent_add_local_reflexive_candidate_frame
  agent_add_remote_reflexive_candidate_frame set_mode_frame set_entry_state_frame fail_entry_frame
  entry_succeeded_frame process_binding_error_frame agent_process_turn_allocate_frame
  agent_process_turn_create_permission_frame agent_process_turn_channel_bind_frame
  agent_verify_credentials_frame conn_interrupt_frame tcp_state_loop_frame update_entries_frame
  enable_keepalive_frame disable_keepalives_frame select_pair_frame answer_request_frame assume_controlling_frame
  agent_resolve_servers_frame announce_host_candidates_frame add_tcp_candidate_frame
  agent_set_remote_description_frame agent_add_remote_candidate_frame set_local_frame set_remote_frame : keeps.

(** ** Frames of all handlers *)

(** Relations that only a change of state, or a lost pair, can break. *)
Class Loose (R : juice_agent_t -> list event -> juice_agent_t -> Prop) : Prop := {
  loose_frame :: Frame R;
  loose_put a a' : kept a a' -> R a [] a'
}.

#[export] Hint Extern 0 (Loose _) => typeclasses eauto : keeps.

Abbreviation keeps_loose c := (forall R, Loose R -> forall a, keeps_at R a c).

Section Handlers.
Context `{Crypto} `{System}.

Lemma update_pair_loose i f : (forall p, pair_kept p (f p)) -> keeps_loose (update_pair i f).
Proof. intros Hf R HR a. unfold update_pair. keeps. apply loose_put. by eapply kept_update. Qed.
#[local] Hint Extern 3 (keeps_at _ _ (update_pair _ _)) =>
  (apply update_pair_loose; [intros ?; repeat case_match; done|typeclasses eauto]) : keeps.
Lemma request_nomination_loose p : keeps_loose (request_nomination p).
Proof. intros R HR a. unfold request_nomination. keeps. Qed.
Lemma check_succeeded_loose p m : keeps_loose (check_succeeded p m).
Proof. intros R HR a. unfold check_succeeded. keeps. Qed.
#[local] Hint Resolve request_nomination_loose check_succeeded_loose : keeps.
Lemma agent_process_stun_binding_loose m i src rl : keeps_loose (agent_process_stun_binding m i src rl).
Proof.
  intros R HR a. unfold agent_process_stun_binding, process_binding_request, process_binding_success. keeps.
Qed.
#[local] Hint Resolve agent_process_stun_binding_loose : keeps.

Lemma input_body_loose input buf src rl :
  (forall d s r, keeps_loose (input d s r)) -> keeps_loose (input_body input buf src rl).
Proof.
  intros Hi R HR a. unfold input_body, agent_dispatch_stun, dispatch_peer, agent_verify_stun_binding,
    dispatch_method, agent_process_turn_data, agent_process_channel_data. keeps.
Qed.

Lemma agent_input_loose fuel : forall buf src rl, keeps_loose (agent_input fuel buf src rl).
Proof.
  induction fuel as [|fuel IH]; intros buf src rl R HR a; cbn [agent_input]; [keeps|].
  apply input_body_loose; [|done]. intros d s r. apply IH.
Qed.
End Handlers.
#[export] Hint Resolve agent_input_loose : keeps.
