(* ===== verification/AgentAuth.v ===== *)
(** * The ICE agent: authentication of the checks

    A datagram makes a pair succeed, or moves it towards its nomination, only if it
    is, or carries, a Binding message signed with the password of this agent or of
    its peer. *)

From S2P Require Import Prelude Effects CText Addr Turn Ice IceSdp StunTypes StunWrite StunRead AgentTypes Agent AgentMessages.
From S2P Require Import AgentUpdate AgentCalls AgentNet AgentPacing AgentFrame.
#[local] Open Scope Z_scope.

(** ** Messages that do not raise the trust in a pair *)

Section Trust.
Context `{Crypto} `{System}.

(** What keeps every frame does not raise the trust in a pair. *)
Lemma frame_no_more_trust {A} (c : M A) a x a' tr :
  keeps_at (on_states no_more_trust) a c -> c a = Some (x, a', tr) -> no_more_trust a a'.
Proof. intros Hk Hc. exact (Hk x a' tr Hc). Qed.

(** The type of an entry is as before. *)
Lemma tuned_type a a' i x' : tuned a a' -> entries a' !! i = Some x' ->
  exists x, entries a !! i = Some x /\ e_type x' = e_type x.
Proof.
  intros (es & n & Hes & ->) Hx. cbn in Hx.
  destruct (Forall2_lookup_r _ _ _ _ _ Hes Hx) as (x & Hx0 & Ht & _). by exists x.
Qed.

Lemma entry_succeeded_tuned i : keeps_tuned (entry_succeeded i).
Proof.
  intros a. unfold entry_succeeded, set_entry_state. keeps.
  all: first [apply agent_arm_keepalive_tuned | apply update_entry_tuned; intros; by repeat case_bool_decide].
Qed.

(** A response to an entry that is not a check. *)
Lemma process_binding_success_trust i msg src rl a r a' tr :
  process_binding_success i msg src rl a = Some (r, a', tr) ->
  no_more_trust a a' \/ exists x, entries a !! i = Some x /\ e_type x = AGENT_STUN_ENTRY_TYPE_CHECK.
Proof.
  unfold process_binding_success. intros (u & a1 & tr1 & tr2 & H1 & H2 & _)%bind_run.
  apply bind_run in H2 as (x & a2 & tr3 & tr4 & Hx & H2 & _).
  assert (Hx' : a2 = a1 /\ entries a1 !! i = Some x) by (unfold get_entry in Hx; by run_inv).
  destruct Hx' as [-> Hx'].
  destruct (decide (e_type x = AGENT_STUN_ENTRY_TYPE_CHECK)) as [Hc|Hc].
  { right. destruct (tuned_type a a1 i x) as (x0 & Hx0 & Ht); [by eapply entry_succeeded_tuned|done|].
    exists x0. by rewrite <- Ht. }
  left. transitivity a1; [by eapply frame_no_more_trust; [apply entry_succeeded_frame; typeclasses eauto|]|].
  cbv zeta in H2. rewrite (bool_decide_eq_false_2 _ Hc) in H2.
  match type of H2 with ?c a1 = _ => assert (Hk : keeps_at (on_states no_more_trust) a1 c) by keeps end. by eapply Hk.
Qed.

Lemma process_binding_request_trust i msg src a r a' tr :
  process_binding_request i msg src a = Some (r, a', tr) ->
  no_more_trust a a' \/ exists x, entries a !! i = Some x /\ e_type x = AGENT_STUN_ENTRY_TYPE_CHECK.
Proof.
  unfold process_binding_request, get_entry. intros Hr. run_inv.
  match goal with Hx : entries a !! i = Some ?x |- _ =>
    destruct (decide (e_type x = AGENT_STUN_ENTRY_TYPE_CHECK)) as [Hc|Hc]; [right; by exists x|left] end.
  rewrite (bool_decide_eq_false_2 _ Hc) in Hr. cbn [negb] in Hr. run_inv. reflexivity.
Qed.

(** A Binding message trusted for a check is signed: it was verified before. *)
Definition signed_check (msg : stun_message_t) : Prop :=
  msg_method msg = STUN_METHOD_BINDING /\ has_integrity msg = true /\
  (msg_class msg = STUN_CLASS_REQUEST \/ msg_class msg = STUN_CLASS_RESP_SUCCESS).

Lemma dispatch_binding_trust input buf msg i src rl a r a' tr : msg_method msg = STUN_METHOD_BINDING ->
  dispatch_method input buf msg i src rl a = Some (r, a', tr) -> no_more_trust a a' \/ signed_check msg.
Proof.
  intros Hm Hr. unfold dispatch_method in Hr. rewrite Hm in Hr. cbn in Hr.
  apply bind_run in Hr as (x & a1 & tr1 & tr2 & Hx & Hr & _).
  assert (Hx' : a1 = a /\ entries a !! i = Some x) by (unfold get_entry in Hx; by run_inv).
  destruct Hx' as [-> Hx'].
  destruct (_ && _) eqn:Hguard in Hr; [left; run_inv; reflexivity|].
  assert (Hsig : msg_class msg = STUN_CLASS_REQUEST \/ msg_class msg = STUN_CLASS_RESP_SUCCESS ->
    e_type x = AGENT_STUN_ENTRY_TYPE_CHECK -> signed_check msg).
  { intros Hc Ht. split; [done|]. split; [|done]. destruct (has_integrity msg); [done|].
    rewrite (bool_decide_eq_true_2 _ Ht) in Hguard. destruct Hc as [Hc|Hc]; rewrite Hc in Hguard; done. }
  unfold agent_process_stun_binding in Hr. destruct (msg_class msg) eqn:Hc.
  - apply process_binding_request_trust in Hr as [?|(y & Hy & Ht)]; [by left|right].
    apply Hsig; [by left|congruence].
  - left. run_inv. reflexivity.
  - apply process_binding_success_trust in Hr as [?|(y & Hy & Ht)]; [by left|right].
    apply Hsig; [by right|congruence].
  - left. by eapply frame_no_more_trust; [apply process_binding_error_frame; typeclasses eauto|].
Qed.

(** The other methods, but for the data of a relay. *)
Lemma dispatch_turn_trust input buf msg i src rl a r a' tr : msg_method msg <> STUN_METHOD_BINDING ->
  dispatch_method input buf msg i src rl a = Some (r, a', tr) ->
  no_more_trust a a' \/ (msg_class msg = STUN_CLASS_INDICATION /\
    exists d src' rl', data msg = Some d /\ input d src' rl' a = Some (r, a', tr)).
Proof.
  intros Hm Hr. unfold dispatch_method in Hr. cbv zeta in Hr.
  rewrite (proj2 (Z.eqb_neq _ _) Hm) in Hr.
  repeat match type of Hr with
  | (if ?b then _ else _) _ = _ => destruct b eqn:?
  end.
  4: { unfold agent_process_turn_data, get_entry in Hr. run_inv.
       repeat match type of Hr with
       | (if negb (bool_decide (msg_class msg = _)) then _ else _) _ = _ =>
           destruct (decide (msg_class msg = STUN_CLASS_INDICATION)) as [Hc|Hc];
             [rewrite (bool_decide_eq_true_2 _ Hc) in Hr|rewrite (bool_decide_eq_false_2 _ Hc) in Hr];
             cbn [negb] in Hr
       | (match ?b with _ => _ end) _ = _ => destruct b eqn:?
       end; try (left; run_inv; reflexivity).
       right. split; [done|]. eauto 10. }
  all: left; match type of Hr with ?c ?s = _ => assert (Hk : keeps_at (on_states no_more_trust) s c) by keeps end; by eapply Hk.
Qed.
End Trust.

(** ** Authentic messages *)

(** [user] is for the agent, from the peer it knows if it knows one. *)
Definition addressed_to (a : juice_agent_t) (user : list Z) : Prop :=
  exists r, user = ice_ufrag (a_local a) ++ 58 :: r /\ (ice_ufrag (a_remote a) = [] \/ r = ice_ufrag (a_remote a)).

Lemma split_username_spec s l r : split_username s = Some (l, r) -> s = l ++ 58 :: r.
Proof.
  revert l. induction s as [|c s IH]; intros l; cbn; [done|]. case_match eqn:Hc.
  - apply Z.eqb_eq in Hc as ->. by intros [= <- <-].
  - destruct (split_username s) as [ [l' r']|]; [|done]. intros [= <- <-]. cbn. by rewrite (IH l' eq_refl).
Qed.

Lemma username_accepted_spec a user : username_accepted a user = true -> addressed_to a user.
Proof.
  unfold username_accepted. destruct (split_username user) as [ [l r]|] eqn:Hs; [|done].
  intros [Hl Hr]%andb_prop. apply bool_decide_eq_true in Hl as ->. exists r.
  split; [by apply split_username_spec|]. apply orb_prop in Hr as [Hr|Hr]; apply bool_decide_eq_true in Hr; auto.
Qed.

(** A Binding request with a user name for this agent, signed with its password, or
    a response signed with the password of the peer. *)
Definition authentic_check `{Crypto} (a : juice_agent_t) (d : list Z) : Prop :=
  exists ret msg, stun_read d (zlen d) = Some (ret, d, msg) /\ msg_method msg = STUN_METHOD_BINDING /\
    ((msg_class msg = STUN_CLASS_REQUEST /\ addressed_to a (username (credentials msg)) /\
      ice_pwd (a_local a) <> [] /\
      authentic (generate_hmac_key msg (Some (ice_pwd (a_local a)))) d ret) \/
     (msg_class msg = STUN_CLASS_RESP_SUCCESS /\ ice_pwd (a_remote a) <> [] /\
      authentic (generate_hmac_key msg (Some (ice_pwd (a_remote a)))) d ret)).

(** A datagram, and what it carries as the data of a relay or of a channel. *)
Inductive within (buf : list Z) : list Z -> Prop :=
| within_self : within buf buf
| within_data ret b msg d d' :
    stun_read buf (zlen buf) = Some (ret, b, msg) -> data msg = Some d -> within d d' -> within buf d'
| within_channel n d' : within (take n (drop 4 buf)) d' -> within buf d'.

Section Authentic.
Context `{CryptoLaws} `{System}.

Lemma verify_stun_binding_authentic a buf ret msg buf' :
  bytes buf -> stun_read buf (zlen buf) = Some (ret, buf, msg) -> 0 <= ret -> signed_check msg ->
  verify_stun_binding a buf msg = Some (0, buf') -> authentic_check a buf.
Proof.
  intros Hb Hread Hret (Hm & Hi & Hc) Hv. unfold verify_stun_binding in Hv.
  rewrite Hm, Hi, Z.eqb_refl in Hv. cbn [negb] in Hv. exists ret, msg. split; [done|]. split; [done|].
  destruct (stun_check_integrity_spec buf (zlen buf) ret msg msg
              (Some (if bool_decide (msg_class msg = STUN_CLASS_REQUEST) then ice_pwd (a_local a)
                     else ice_pwd (a_remote a)))) as (ok & Hck & Hok); [done|unfold zlen; lia|done..|].
  rewrite Hck in Hv. clear Hck. destruct Hc as [Hc|Hc]; rewrite Hc in Hv, Hok |- *.
  - change (bool_decide (STUN_CLASS_REQUEST = STUN_CLASS_REQUEST)) with true in Hv, Hok.
    change (_ || _) with false in Hv at 1. cbn [andb] in Hv. cbv iota in Hv, Hok.
    left. destruct (username_accepted a _) eqn:Hu; [|done]. cbn [negb] in Hv.
    case_bool_decide as Hp; [done|]. destruct ok; [|done].
    split_and!; [done|by apply username_accepted_spec|done|by apply Hok].
  - change (bool_decide (STUN_CLASS_RESP_SUCCESS = STUN_CLASS_REQUEST)) with false in Hv, Hok.
    change (_ || _) with false in Hv at 1. cbn [andb] in Hv. cbv iota in Hv, Hok.
    right. case_bool_decide as Hp; [done|]. destruct ok; [|done]. split_and!; [done|done|by apply Hok].
Qed.

(** The first part of a dispatch: a signed check was verified, and no other message
    changes the agent. *)
Lemma dispatch_peer_run buf msg src a ret b a' tr : dispatch_peer buf msg src a = Some (ret, b, a', tr) ->
  no_more_trust a a' /\ (msg_method msg <> STUN_METHOD_BINDING -> a' = a) /\
  (ret = 0 -> signed_check msg -> exists b', verify_stun_binding a buf msg = Some (0, b')).
Proof.
  unfold dispatch_peer, agent_verify_stun_binding. intros Hr.
  destruct (_ && _) eqn:Hc in Hr.
  - apply andb_prop in Hc as [Hm _]. apply Z.eqb_eq in Hm. run_inv. case_match. run_inv.
    destruct (_ =? 0) eqn:Hret in Hr.
    + apply Z.eqb_eq in Hret as ->. cbn [negb] in Hr. run_inv.
      split; [by eapply frame_no_more_trust; [apply agent_add_remote_reflexive_candidate_frame; typeclasses eauto|]|]. split; [done|]. intros _ _. by eexists.
    + cbn [negb] in Hr. run_inv. split; [reflexivity|]. split; [done|]. intros ->. done.
  - run_inv. split; [reflexivity|]. split; [done|]. intros _ (Hm & Hi & _). by rewrite Hm, Hi in Hc.
Qed.

(** What a run of an input makes of a datagram: no pair is trusted more, or the
    datagram is authentic, or its data is the input. *)
Definition harmless (input : list Z -> addr_record_t -> addr_record_t -> M Z) (a a' : juice_agent_t) (buf : list Z) :=
  no_more_trust a a' \/ authentic_check a buf \/
  exists d src rl r tr, ((exists ret b msg, stun_read buf (zlen buf) = Some (ret, b, msg) /\ 0 <= ret /\
                           data msg = Some d) \/
                         exists n, d = take n (drop 4 buf)) /\ input d src rl a = Some (r, a', tr).

Lemma agent_dispatch_stun_trust input buf ret msg src rl a r a' tr :
  bytes buf -> stun_read buf (zlen buf) = Some (ret, buf, msg) -> 0 <= ret ->
  agent_dispatch_stun input buf msg src rl a = Some (r, a', tr) -> harmless input a a' buf.
Proof.
  intros Hb Hread Hret Hr. unfold agent_dispatch_stun in Hr.
  apply bind_run in Hr as ([ok b] & a1 & tr1 & tr2 & Hpeer & Hr & ->).
  destruct (dispatch_peer_run _ _ _ _ _ _ _ _ Hpeer) as (Ht & Hsame & Hv).
  destruct (ok =? 0) eqn:Hok; cbn [negb] in Hr; [|left; run_inv; done].
  apply Z.eqb_eq in Hok as ->. specialize (Hv eq_refl).
  assert (Hmeth : forall i a2 tr3, no_more_trust a a2 ->
    (msg_method msg <> STUN_METHOD_BINDING -> msg_class msg = STUN_CLASS_INDICATION -> a2 = a) ->
    dispatch_method input b msg i src rl a2 = Some (r, a', tr3) -> harmless input a a' buf).
  { intros i a2 tr3 Ha2 Hind Hrun. destruct (decide (msg_method msg = STUN_METHOD_BINDING)) as [Hm|Hm].
    - apply dispatch_binding_trust in Hrun as [Hq|Hs]; [left; by etransitivity| |done].
      right; left. destruct (Hv Hs) as [b' Hb']. by eapply verify_stun_binding_authentic.
    - apply dispatch_turn_trust in Hrun as [Hq|(Hc & d & src' & rl' & Hd & Hi)]; [left; by etransitivity| |done].
      rewrite (Hind Hm Hc) in Hi. right; right. exists d, src', rl', r, tr3. split; [left; eauto 6|done]. }
  destruct (STUN_IS_RESPONSE _) eqn:Hresp.
  - apply bind_run in Hr as (found & a2 & tr3 & tr4 & Hf & Hr & _).
    assert (Ha2 : no_more_trust a a2)
      by (transitivity a1; [done|]; by eapply frame_no_more_trust; [apply agent_find_entry_from_transaction_id_frame; typeclasses eauto|]).
    destruct found as [i|]; [|left; run_inv; done]. apply (Hmeth i a2 tr4); [done| |done].
    intros _ Hc. by rewrite Hc in Hresp.
  - unfold agent_find_entry_from_record in Hr. run_inv.
    destruct (_ : option nat) as [i|] in Hr; [|left; run_inv; done]. eapply Hmeth; [exact Ht| |exact Hr].
    intros Hm _. by apply Hsame.
Qed.

Lemma input_body_trust input buf src rl a r a' tr : bytes buf ->
  input_body input buf src rl a = Some (r, a', tr) -> harmless input a a' buf.
Proof.
  intros Hb Hr. unfold input_body in Hr. rewrite bind_get in Hr.
  destruct (_ || _); [left; run_inv; reflexivity|].
  apply bind_run in Hr as (stun & a1 & tr1 & tr2 & Hs & Hr & _). apply defined_run in Hs as (_ & -> & _).
  destruct stun.
  - destruct (stun_read_ok buf (zlen buf)) as (ret & msg & Hread & _); [done|unfold zlen; lia|].
    rewrite Hread in Hr. rewrite (bind_defined _ _ (ret, buf, msg)) in Hr by done.
    destruct (ret <? 0) eqn:Hret; [left; run_inv; reflexivity|]. apply Z.ltb_ge in Hret.
    by eapply agent_dispatch_stun_trust.
  - unfold agent_find_entry_from_record in Hr. run_inv.
    destruct (_ : option nat) as [i|] in Hr; [|left; run_inv; reflexivity].
    unfold get_entry in Hr. run_inv. destruct (e_type _); try (left; run_inv; reflexivity). run_inv.
    destruct (_ : bool) in Hr; [|left; run_inv; reflexivity].
    unfold agent_process_channel_data, get_entry in Hr.
    destruct (_ <? _) in Hr; [left; run_inv; reflexivity|]. run_inv.
    destruct (_ <? _) in Hr; [left; run_inv; reflexivity|]. run_inv.
    destruct (_ : option addr_record_t) as [s|] in Hr; [|left; run_inv; reflexivity].
    right; right. eexists _, _, _, _, _. split; [right; by eexists|]. change 4%nat with (Z.to_nat 4). exact Hr.
Qed.
End Authentic.

(** ** Theorems *)

(** C6: no datagram that an attacker can make without the ICE passwords brings a
    pair into use: if after a datagram some pair has succeeded, is nominated or
    will be nominated when its check succeeds and was not before, then the
    datagram is, or carries as the data of a relay or of a channel, a Binding
    request with the user name of the agent and an HMAC valid under its password,
    or a Binding response with an HMAC valid under the password of the peer. *)
Theorem agent_input_authenticates `{CryptoLaws} `{System} fuel buf src rl a r a' tr :
  bytes buf -> agent_input fuel buf src rl a = Some (r, a', tr) ->
  no_more_trust a a' \/ exists d, within buf d /\ authentic_check a d.
Proof.
  revert buf src rl r tr. induction fuel as [|fuel IH]; intros buf src rl r tr Hb Hr; [done|].
  cbn [agent_input] in Hr.
  destruct (input_body_trust _ _ _ _ _ _ _ _ Hb Hr) as [Hq|[Hc|(d & src' & rl' & r' & tr' & Hd & Hi)] ].
  - by left.
  - right. exists buf. split; [apply within_self|done].
  - assert (Hbd : bytes d).
    { destruct Hd as [(ret & b & msg & Hread & Hret & Hdata)|(n & ->)]; [|by apply Forall_take, Forall_drop].
      destruct (stun_read_ok buf (zlen buf)) as (ret' & msg' & Hread' & Hwf & _); [done|unfold zlen; lia|].
      rewrite Hread in Hread'. injection Hread' as <- -> <-.
      pose proof (wf_data _ (rwf_message _ (Hwf Hret))) as Hw. rewrite Hdata in Hw. apply Hw. }
    destruct (IH d src' (Some rl') r' tr' Hbd Hi) as [Hq|(d' & Hw & Hc)]; [by left|right].
    exists d'. split; [|done]. destruct Hd as [(ret & b & msg & Hread & _ & Hdata)|(n & ->)].
    + by eapply within_data.
    + by eapply within_channel.
Qed.

(** ** Messages that are not verified *)

(** The description of the peer is as before. *)
Definition same_remote (a a' : juice_agent_t) : Prop := a_remote a' = a_remote a.
#[global] Instance same_remote_preorder : PreOrder same_remote.
Proof. split; [done|]. unfold same_remote. congruence. Qed.
Abbreviation keeps_remote c := (forall a, keeps_at (on_states same_remote) a c).

#[local] Hint Extern 1 (on_states same_remote _ _ _) => reflexivity : keeps.

Section Remote.
Context `{Crypto} `{System}.

Lemma get_entry_remote i : keeps_remote (get_entry i).
Proof. intros a. unfold get_entry. keeps. Qed.
Lemma update_entry_remote i f : keeps_remote (update_entry i f).
Proof. intros a. unfold update_entry. keeps. Qed.
Lemma get_pair_remote i : keeps_remote (get_pair i).
Proof. intros a. unfold get_pair. keeps. Qed.
Lemma update_pair_remote i f : keeps_remote (update_pair i f).
Proof. intros a. unfold update_pair. keeps. Qed.
Lemma push_entry_remote x : keeps_remote (push_entry x).
Proof. intros a. unfold push_entry. keeps. Qed.
Lemma juice_random_remote n : keeps_remote (juice_random n).
Proof. intros a. unfold juice_random. keeps. Qed.
#[local] Hint Resolve get_entry_remote update_entry_remote get_pair_remote update_pair_remote push_entry_remote juice_random_remote : keeps.
Lemma agent_arm_transmission_remote i d : keeps_remote (agent_arm_transmission i d).
Proof. intros a. unfold agent_arm_transmission, arm_entry, entry_is_tcp. keeps. Qed.
Lemma agent_update_ordered_pairs_remote : keeps_remote agent_update_ordered_pairs.
Proof. intros a. unfold agent_update_ordered_pairs. keeps. Qed.
#[local] Hint Resolve agent_arm_transmission_remote agent_update_ordered_pairs_remote : keeps.
Lemma agent_add_candidate_pair_remote l r : keeps_remote (agent_add_candidate_pair l r).
Proof.
  intros a. unfold agent_add_candidate_pair, agent_register_entry_for_candidate_pair, unfreeze_new_pair, agent_unfreeze_candidate_pair. keeps.
Qed.
#[local] Hint Resolve agent_add_candidate_pair_remote : keeps.
Lemma pair_relayed_remote r n : forall i, keeps_remote (pair_relayed n i r).
Proof. induction n as [|n IH]; intros i a; cbn [pair_relayed]; keeps. Qed.
#[local] Hint Resolve pair_relayed_remote : keeps.
Lemma agent_add_candidate_pairs_for_remote_remote r : keeps_remote (agent_add_candidate_pairs_for_remote r).
Proof. intros a. unfold agent_add_candidate_pairs_for_remote. keeps. Qed.
Lemma find_entry_loop_remote tid n : forall i, keeps_remote (find_entry_loop n i tid).
Proof. induction n as [|n IH]; intros i a; cbn [find_entry_loop]; unfold retrieve_transaction_id; keeps. Qed.
#[local] Hint Resolve find_entry_loop_remote : keeps.
Lemma agent_find_entry_from_transaction_id_remote tid : keeps_remote (agent_find_entry_from_transaction_id tid).
Proof. intros a. unfold agent_find_entry_from_transaction_id. keeps. Qed.
Lemma process_binding_error_remote i m : keeps_remote (process_binding_error i m).
Proof.
  intros a. unfold process_binding_error, fail_entry, set_entry_state, set_mode, modify, agent_update_gathering_done, agent_update_pac_timer,
    agent_update_candidate_pairs, modify. keeps.
Qed.
End Remote.

(** The relation that all frames have. *)
#[global] Instance frame_kept : Frame (on_states kept).
Proof. split; [typeclasses eauto|by intros|]. intros. apply on_states_refl. typeclasses eauto. Qed.

Section Unverified.
Context `{Crypto} `{System}.

(** The source is not known to the agent, it has a name, and there is room for it. *)
Record new_source (a : juice_agent_t) (src : addr_record_t) : Prop := {
  ns_unknown : ice_find_candidate_from_addr (a_remote a) src ICE_CANDIDATE_TYPE_UNKNOWN = None;
  ns_name : is_Some (getnameinfo (addr src));
  ns_few : ice_candidates_count (a_remote a) ICE_CANDIDATE_TYPE_PEER_REFLEXIVE < MAX_PEER_REFLEXIVE_CANDIDATES_COUNT;
  ns_room : candidates_count (a_remote a) < ICE_MAX_CANDIDATES_COUNT;
  ns_pairs : candidate_pairs_count a < MAX_CANDIDATE_PAIRS_COUNT
}.

(** The agent has got a candidate for [src], with priority [prio], and a pair for it. *)
Definition candidate_added (a a' : juice_agent_t) (src : addr_record_t) (prio : Z) : Prop :=
  (exists c, candidates (a_remote a') = candidates (a_remote a) ++ [c] /\ type c = ICE_CANDIDATE_TYPE_PEER_REFLEXIVE /\
     addr (resolved c) = addr src /\ Ice.priority c = prio) /\
  (exists p, candidate_pairs a' !! length (candidate_pairs a) = Some p /\ remote p = Some (Remote (length (candidates (a_remote a))))).

Lemma candidate_added_kept a a1 a' src prio : candidate_added a a1 src prio -> kept a1 a' -> a_remote a' = a_remote a1 -> candidate_added a a' src prio.
Proof.
  intros [Hc (p & Hp & Hr)] Hk He. split; [by rewrite He|]. destruct (kept_pairs _ _ Hk _ _ Hp) as (p' & Hp' & Hr' & _).
  exists p'. split; [done|congruence].
Qed.

#[local] Hint Resolve agent_update_ordered_pairs_frame agent_register_entry_frame unfreeze_new_pair_frame pair_relayed_frame : keeps.

(** A pair without a local candidate, for a candidate over UDP. *)
Lemma add_remote_pair a k r a' tr : agent_add_candidate_pair None (Remote k) a = Some (r, a', tr) ->
  is_udp (transport (candidate_at a (Remote k))) = true -> candidate_pairs_count a < MAX_CANDIDATE_PAIRS_COUNT ->
  exists p, candidate_pairs a' !! length (candidate_pairs a) = Some p /\ remote p = Some (Remote k).
Proof.
  intros Hr Hudp Hn. unfold agent_add_candidate_pair in Hr. rewrite bind_get in Hr. cbn [ice_create_candidate_pair] in Hr.
  rewrite (proj2 (Z.leb_gt _ _)), Hudp in Hr by done. rewrite (bind_quiet _ _ a false a) in Hr by done. rewrite bind_put in Hr.
  match type of Hr with ?c ?s = _ => assert (Hk : keeps_at (on_states kept) s c) by keeps end.
  specialize (Hk _ _ _ Hr). cbn in Hk. edestruct (kept_pairs _ _ Hk (length (candidate_pairs a))) as (p' & Hp' & Hrem & _).
  { cbn. by rewrite lookup_app_r, Nat.sub_diag by done. }
  exists p'. split; [done|]. by rewrite Hrem.
Qed.

Lemma local_candidate_created name ty record ret c index comp tp : is_Some (name (addr record)) ->
  ice_create_local_candidate name ty comp index record tp = (ret, c) ->
  ret = 0 /\ type c = ty /\ addr (resolved c) = addr record /\ transport c = tp.
Proof. intros [ [host serv] Hn] Hc. unfold ice_create_local_candidate in Hc. rewrite Hn in Hc. by injection Hc as <- <-. Qed.

Lemma candidate_appended c d ret c' d' : type c <> ICE_CANDIDATE_TYPE_UNKNOWN -> candidates_count d < ICE_MAX_CANDIDATES_COUNT ->
  ice_add_candidate c d = (ret, c', d') ->
  ret = 0 /\ d' = with_candidates d (candidates d ++ [c']) /\ type c' = type c /\ resolved c' = resolved c /\ transport c' = transport c.
Proof.
  intros Ht Hn Ha. unfold ice_add_candidate in Ha. rewrite (bool_decide_eq_false_2 _ Ht), (proj2 (Z.leb_gt _ _)) in Ha by done.
  case_bool_decide; by injection Ha as <- <- <-.
Qed.

Lemma last_priority d c prio : candidates (set_last_priority (with_candidates d (candidates d ++ [c])) prio) = candidates d ++ [set_priority_of c prio].
Proof. unfold set_last_priority. cbn. rewrite length_app. cbn. rewrite Nat.add_sub, alter_app_r_alt, Nat.sub_diag by lia. done. Qed.

Lemma add_reflexive_run a src prio r a' tr : new_source a src ->
  agent_add_remote_reflexive_candidate ICE_CANDIDATE_TYPE_PEER_REFLEXIVE prio src a = Some (r, a', tr) -> candidate_added a a' src prio.
Proof.
  intros [Hu Hname Hfew Hroom Hpairs] Hr. unfold agent_add_remote_reflexive_candidate in Hr.
  rewrite (bool_decide_eq_true_2 (ICE_CANDIDATE_TYPE_PEER_REFLEXIVE = _)) in Hr by done. cbn [negb] in Hr. rewrite bind_get, Hu in Hr.
  rewrite bool_decide_eq_false_2 in Hr by (by intros []). destruct (ice_create_local_candidate _ _ _ _ _ _) as [ret c] eqn:Hc.
  destruct (local_candidate_created _ _ _ _ _ _ _ _ Hname Hc) as (-> & Hty & Hra & Htp). cbn [Z.eqb negb] in Hr.
  rewrite (proj2 (Z.leb_gt _ _)) in Hr by done. destruct (ice_add_candidate c (a_remote a)) as [ [ret c'] d] eqn:Ha.
  destruct (candidate_appended _ _ _ _ _ ltac:(by rewrite Hty) Hroom Ha) as (-> & -> & Hty' & Hres & Htp'). cbn [Z.eqb negb] in Hr.
  apply bind_run in Hr as (u & a1 & tr1 & tr2 & Hs & Hr & _). unfold set_remote, modify in Hs. rewrite bind_get in Hs. apply put_run in Hs as [-> _].
  replace (length (candidates (with_candidates (a_remote a) (candidates (a_remote a) ++ [c']))) - 1)%nat with (length (candidates (a_remote a))) in Hr
    by (cbn; rewrite length_app; cbn; lia).
  unfold agent_add_candidate_pairs_for_remote in Hr. apply bind_run in Hr as (x & a2 & tr3 & tr4 & Hadd & Hr & _).
  pose proof (agent_add_candidate_pair_remote _ _ _ _ _ _ Hadd) as Hsame. unfold on_states, same_remote in Hsame.
  pose proof (last_priority (a_remote a) c' prio) as Hlast.
  assert (Hdone : candidate_added a a2 src prio).
  { split.
    - exists (set_priority_of c' prio). rewrite Hsame. cbn [a_remote set_a_remote]. rewrite Hlast. split_and!; try done; cbn; congruence.
    - destruct (add_remote_pair _ _ _ _ _ Hadd) as (p & Hp & Hrem); [|done|by exists p]. cbn [candidate_at a_remote set_a_remote].
      rewrite Hlast, app_nth2, Nat.sub_diag by lia. cbn. by rewrite Htp', Htp. }
  destruct (negb (x =? 0)); [apply ret_run in Hr as (_ & -> & _); done|]. rewrite bind_get in Hr.
  eapply candidate_added_kept; [exact Hdone|by eapply (pair_relayed_frame _ _ _ (on_states kept)); [typeclasses eauto|]|by eapply pair_relayed_remote].
Qed.

(** C39: a Binding indication or error response that has a MESSAGE-INTEGRITY attribute is
    never verified: whatever its HMAC, and whatever the passwords, it makes its source a
    candidate of the peer, with the priority it asks for, and the agent makes a pair for
    it, as if the peer had sent a valid check from there.  So does every such datagram
    from an address that the agent does not know, in every state in which the agent
    takes datagrams, as long as there is room. *)
Theorem agent_trusts_unverified_address (a : juice_agent_t) (buf : list Z) (ret : Z) (msg : stun_message_t) (src : addr_record_t) r a' tr
    (Hst : a_state a <> JUICE_STATE_DISCONNECTED /\ a_state a <> JUICE_STATE_GATHERING)
    (Hd : is_stun_datagram buf (zlen buf) = Some true) (Hread : stun_read buf (zlen buf) = Some (ret, buf, msg)) (Hret : 0 <= ret)
    (Hm : msg_method msg = STUN_METHOD_BINDING) (Hi : has_integrity msg = true)
    (Hc : msg_class msg = STUN_CLASS_INDICATION \/ msg_class msg = STUN_CLASS_RESP_ERROR)
    (Hnew : new_source a src) (Hr : agent_conn_recv buf src a = Some (r, a', tr)) :
  candidate_added a a' src (StunTypes.priority msg).
Proof.
  unfold agent_conn_recv in Hr. apply bind_run in Hr as (x & a0 & tr1 & tr2 & Hr & Hret' & _). apply ret_run in Hret' as (_ & -> & _).
  unfold INPUT_DEPTH in Hr. cbn [agent_input] in Hr. unfold input_body in Hr at 1. rewrite bind_get in Hr.
  rewrite !bool_decide_eq_false_2 in Hr by tauto. cbn [orb] in Hr. rewrite (bind_defined _ _ _ _ Hd), (bind_defined _ _ _ _ Hread) in Hr.
  rewrite (proj2 (Z.ltb_ge _ _)) in Hr by done. unfold agent_dispatch_stun in Hr.
  apply bind_run in Hr as ([ok b] & a1 & tr3 & tr4 & Hp & Hr & _). unfold dispatch_peer in Hp. rewrite Hm, Hi in Hp. cbn [Z.eqb andb] in Hp.
  assert (Hv : verify_stun_binding a buf msg = Some (0, buf)) by (unfold verify_stun_binding; rewrite Hm; destruct Hc as [->| ->]; reflexivity).
  assert (Hadd : ok = 0 /\ candidate_added a a1 src (StunTypes.priority msg)).
  { change (STUN_METHOD_BINDING =? STUN_METHOD_BINDING) with true in Hp. cbn [andb] in Hp. unfold agent_verify_stun_binding in Hp.
    rewrite (bind_quiet _ _ a (0, buf) a) in Hp by (rewrite bind_get; by rewrite Hv). cbn [Z.eqb negb] in Hp.
    apply bind_run in Hp as (y & a2 & tr5 & tr6 & Hy & Hp & _). apply ret_run in Hp as ([= -> _] & -> & _). split; [done|].
    by eapply add_reflexive_run. }
  destruct Hadd as [-> Hadd]. cbn [Z.eqb negb] in Hr.
  assert (Hmeth : forall i a2 tr5, candidate_added a a2 src (StunTypes.priority msg) ->
    dispatch_method (fun b s r => agent_input 1 b s (Some r)) b msg i src None a2 = Some (x, a0, tr5) -> candidate_added a a0 src (StunTypes.priority msg)).
  { intros i a2 tr5 Ha2 Hrun. unfold dispatch_method in Hrun. rewrite Hm in Hrun. cbn in Hrun.
    apply bind_run in Hrun as (e & a3 & tr6 & tr7 & He & Hrun & _). unfold get_entry in He. rewrite bind_get in He. apply defined_run in He as (_ & -> & _).
    rewrite Hi, andb_false_r in Hrun. cbn [andb] in Hrun. unfold agent_process_stun_binding in Hrun. destruct Hc as [Hc|Hc]; rewrite Hc in Hrun.
    - by apply ret_run in Hrun as (_ & -> & _).
    - eapply candidate_added_kept; [exact Ha2|by eapply (process_binding_error_frame _ _ (on_states kept)); [typeclasses eauto|]|by eapply process_binding_error_remote]. }
  destruct (STUN_IS_RESPONSE (msg_class msg)).
  - apply bind_run in Hr as (found & a2 & tr5 & tr6 & Hf & Hr & _).
    assert (Ha2 : candidate_added a a2 src (StunTypes.priority msg)).
    { eapply candidate_added_kept; [exact Hadd| |by eapply agent_find_entry_from_transaction_id_remote].
      by eapply (agent_find_entry_from_transaction_id_frame _ (on_states kept)); [typeclasses eauto|]. }
    destruct found as [i|]; [by eapply Hmeth|]. by apply ret_run in Hr as (_ & -> & _).
  - apply bind_run in Hr as (found & a2 & tr5 & tr6 & Hf & Hr & _). unfold agent_find_entry_from_record in Hf. rewrite bind_get in Hf.
    apply defined_run in Hf as (_ & -> & _). destruct found as [i|]; [by eapply Hmeth|]. by apply ret_run in Hr as (_ & -> & _).
Qed.
End Unverified.

(** ** Examples *)

Definition no_peer : peer_t := new_peer alice_addr 0.

(** Alice and Bob when the answer to Alice's first check is on its way. *)
Definition answered : peer_t * peer_t :=
  match ('(alice, bob) ← session_start;
         '(_, alice, bob, _) ← net_step 1100 (fun _ _ => agent_bookkeeping) alice bob;
         '(bob, alice, _) ← receive_all 8 1100 bob alice [];
         Some (alice, bob)) with
  | Some x => x
  | None => (no_peer, no_peer)
  end.
Definition example_alice : juice_agent_t := peer_agent (fst answered).
Definition example_answer : list Z := match peer_inbox (fst answered) with (_, d) :: _ => d | [] => [] end.

#[local] Abbreviation alice_input d src a :=
  (@agent_input sum_crypto (host_system alice_addr 1100) 2 d src None a) (only parsing).

Definition example_alice' : juice_agent_t :=
  match alice_input example_answer bob_addr example_alice with Some (_, a, _) => a | None => example_alice end.

Lemma example_answer_run : bytes example_answer /\ (exists r tr,
  alice_input example_answer bob_addr example_alice = Some (r, example_alice', tr)) /\
  trust_at example_alice 0 = (false, false, false) /\ trust_at example_alice' 0 = (true, false, false).
Proof.
  split; [apply bytes_forallb; by vm_compute|]. split; [vm_compute; by do 2 eexists|by vm_compute].
Qed.

Lemma agent_input_authenticates_witness :
  exists d, within example_answer d /\ @authentic_check sum_crypto example_alice d.
Proof.
  destruct example_answer_run as (Hb & (r & tr & Hr) & Ht & Ht').
  destruct (@agent_input_authenticates sum_crypto sum_crypto_laws (host_system alice_addr 1100) 2 example_answer
              bob_addr None example_alice r example_alice' tr Hb Hr) as [Hq|Hd]; [|exact Hd].
  specialize (Hq 0%nat). rewrite Ht, Ht' in Hq. destruct Hq as [Hq _]. destruct (Hq I).
Defined.

(** A stranger who knows nothing of the session, and a Binding indication with a
    wrong MESSAGE-INTEGRITY attribute. *)
Definition stranger : addr_record_t := endpoint 9 9000.
Definition forged : list Z :=
  be 2 0x0011 ++ be 2 24 ++ be 4 STUN_MAGIC ++ replicate 12 3 ++ be 2 STUN_ATTR_MESSAGE_INTEGRITY ++ be 2 20 ++
  replicate 20 0.

Definition example_forged : juice_agent_t :=
  match @agent_conn_recv sum_crypto (host_system alice_addr 1100) forged stranger example_alice with
  | Some (_, a, _) => a
  | None => example_alice
  end.
Definition forged_message : stun_message_t :=
  match stun_read forged (zlen forged) with Some (_, _, m) => m | None => stun_message_zero end.

Lemma example_forged_run : (exists r tr,
    @agent_conn_recv sum_crypto (host_system alice_addr 1100) forged stranger example_alice = Some (r, example_forged, tr)) /\
  stun_read forged (zlen forged) = Some (44, forged, forged_message).
Proof. split; [vm_compute; by do 2 eexists|by vm_compute]. Qed.

Lemma example_new_source : @new_source (host_system alice_addr 1100) example_alice stranger.
Proof. split; [by vm_compute|eexists; by vm_compute|by vm_compute|by vm_compute|by vm_compute]. Qed.

(** The HMAC of the forged indication is valid under neither password. *)
Lemma agent_trusts_unverified_address_witness :
  @stun_check_integrity sum_crypto forged (zlen forged) forged_message (Some (ice_pwd (a_local example_alice))) = Some (forged, false) /\
  @stun_check_integrity sum_crypto forged (zlen forged) forged_message (Some (ice_pwd (a_remote example_alice))) = Some (forged, false) /\
  candidate_added example_alice example_forged stranger (StunTypes.priority forged_message).
Proof.
  destruct example_forged_run as ((r & tr & Hr) & Hread).
  split; [by vm_compute|]. split; [by vm_compute|].
  assert (Hst : a_state example_alice <> JUICE_STATE_DISCONNECTED /\ a_state example_alice <> JUICE_STATE_GATHERING) by (split; by vm_compute).
  assert (Hd : is_stun_datagram forged (zlen forged) = Some true) by by vm_compute.
  assert (Hm : msg_method forged_message = STUN_METHOD_BINDING) by by vm_compute.
  assert (Hi : has_integrity forged_message = true) by by vm_compute.
  assert (Hc : msg_class forged_message = STUN_CLASS_INDICATION) by by vm_compute.
  exact (@agent_trusts_unverified_address sum_crypto (host_system alice_addr 1100) example_alice forged 44 forged_message stranger
           r example_forged tr Hst Hd Hread ltac:(lia) Hm Hi (or_introl Hc) example_new_source Hr).
Defined.
