(* ===== verification/AgentState.v ===== *)
(** * The ICE agent: its states

    The states that an agent reports follow one state machine, whatever the
    application, the network and the clock do; an agent that has failed sends no
    data. *)

From S2P Require Import Prelude Effects CText Addr Turn Ice IceSdp StunTypes StunWrite StunRead AgentTypes Agent AgentMessages.
From S2P Require Import AgentUpdate AgentCalls AgentNet AgentPacing AgentFrame.
#[local] Open Scope Z_scope.

(** ** The state machine *)

Inductive transition : juice_state_t -> juice_state_t -> Prop :=
| gathering_starts : transition JUICE_STATE_DISCONNECTED JUICE_STATE_GATHERING
| checks_start : transition JUICE_STATE_GATHERING JUICE_STATE_CONNECTING
| pair_selected : transition JUICE_STATE_CONNECTING JUICE_STATE_CONNECTED
| pair_nominated : transition JUICE_STATE_CONNECTED JUICE_STATE_COMPLETED
| connecting_fails : transition JUICE_STATE_CONNECTING JUICE_STATE_FAILED
| connected_fails : transition JUICE_STATE_CONNECTED JUICE_STATE_FAILED
| completed_fails : transition JUICE_STATE_COMPLETED JUICE_STATE_FAILED
| selected_again : transition JUICE_STATE_FAILED JUICE_STATE_CONNECTED
| nominated_again : transition JUICE_STATE_FAILED JUICE_STATE_COMPLETED.

(** The states reported. *)
Definition state_events (tr : list event) : list juice_state_t :=
  omap (fun ev => match ev with StateChanged s => Some s | _ => None end) tr.

(** [l] leads from [s] to [s'] by transitions. *)
Fixpoint path (s : juice_state_t) (l : list juice_state_t) (s' : juice_state_t) : Prop :=
  match l with
  | [] => s' = s
  | t :: l' => transition s t /\ path t l' s'
  end.

Lemma path_app s l1 s1 l2 s2 : path s l1 s1 -> path s1 l2 s2 -> path s (l1 ++ l2) s2.
Proof. revert s. induction l1 as [|t l1 IH]; cbn; [by intros s ->|]. intros s [Ht Hp] H2. auto. Qed.

(** A pair that the order knows is nominated. *)
Definition has_nominated (a : juice_agent_t) : Prop :=
  exists k p, k ∈ ordered_pairs a /\ candidate_pairs a !! k = Some p /\ nominated p = true.

Definition active (s : juice_state_t) : Prop := s <> JUICE_STATE_DISCONNECTED /\ s <> JUICE_STATE_GATHERING.

(** The state fits the connection and the pairs. *)
Record legal (a : juice_agent_t) : Prop := {
  legal_active : active (a_state a) <-> conn_started a = true;
  legal_completed : a_state a = JUICE_STATE_COMPLETED -> has_nominated a
}.

(** What is done from a state with [P] follows the state machine and ends with [P]. *)
Definition follows (P : juice_agent_t -> Prop) (a : juice_agent_t) (tr : list event) (a' : juice_agent_t) : Prop :=
  P a -> path (a_state a) (state_events tr) (a_state a') /\ P a'.

#[global] Instance follows_composes P : Composes (follows P).
Proof.
  split; [by intros a|]. intros a tr1 a1 tr2 a2 H1 H2 Ha. destruct (H1 Ha) as [P1 L1].
  destruct (H2 L1) as [P2 L2]. split; [|done]. unfold state_events. rewrite omap_app. by eapply path_app.
Qed.

Lemma kept_nominated a a' : kept a a' -> has_nominated a -> has_nominated a'.
Proof.
  intros [_ Hp Ho] (k & p & Hk & Hpk & Hn). destruct (Hp k p Hpk) as (p' & Hp' & _ & Hn').
  exists k, p'. split_and!; [apply Ho; [by eapply lookup_lt_Some|done]|done|]. apply Is_true_true, Hn'. by apply Is_true_true.
Qed.

Lemma kept_legal a a' : kept a a' -> legal a -> legal a'.
Proof.
  intros Hk [Ha Hc]. pose proof (kept_core _ _ Hk) as Hcore. unfold core in Hcore. injection Hcore as Hs Hst.
  split; [by rewrite Hs, Hst|]. rewrite Hs. intros Hcomp. eapply kept_nominated; [exact Hk|by apply Hc].
Qed.

(** A property that all steps but changes of state keep. *)
Class KeptProp (P : juice_agent_t -> Prop) : Prop := kept_prop a a' : kept a a' -> P a -> P a'.

#[global] Instance follows_loose P `{!KeptProp P} : Loose (follows P).
Proof.
  split.
  - split; [typeclasses eauto| |].
    + intros a a' Hk _ Ha. split; [|by eapply kept_prop]. cbn. by injection (kept_core _ _ Hk).
    + intros a ev Hev Ha. split; [|done]. destruct ev; try done. by destruct (Hev s).
  - intros a a' Hk Ha. split; [|by eapply kept_prop]. cbn. by injection (kept_core _ _ Hk).
Qed.

(** An agent whose checks run, one with a nominated pair, and one not completed. *)
Definition live (a : juice_agent_t) : Prop := legal a /\ active (a_state a).
Definition nominated_live (a : juice_agent_t) : Prop := live a /\ has_nominated a.
Definition unfinished_live (a : juice_agent_t) : Prop := live a /\ a_state a <> JUICE_STATE_COMPLETED.

#[global] Instance legal_kept : KeptProp legal.
Proof. exact kept_legal. Qed.
#[global] Instance live_kept : KeptProp live.
Proof.
  intros a a' Hk [Hl Ha]. split; [by eapply kept_legal|]. injection (kept_core _ _ Hk) as Hs _. by rewrite Hs.
Qed.
#[global] Instance nominated_live_kept : KeptProp nominated_live.
Proof. intros a a' Hk [Hl Hn]. split; [by eapply live_kept|by eapply kept_nominated]. Qed.
#[global] Instance unfinished_live_kept : KeptProp unfinished_live.
Proof.
  intros a a' Hk [Hl Hn]. split; [by eapply live_kept|]. injection (kept_core _ _ Hk) as Hs _. by rewrite Hs.
Qed.

Lemma follows_weaken P Q a {A} (c : M A) : (P a -> Q a) -> (forall a', Q a' -> P a') ->
  keeps_at (follows Q) a c -> keeps_at (follows P) a c.
Proof. intros H1 H2 Hk x a' tr Hr Ha. destruct (Hk x a' tr Hr (H1 Ha)) as [Hp Hq]. auto. Qed.

(** ** Changes of state *)

Lemma set_a_state_id a : set_a_state a (a_state a) = a.
Proof. by destruct a. Qed.

Lemma agent_change_state_run st a : agent_change_state st a =
  Some (tt, set_a_state a st, if bool_decide (st = a_state a) then [] else [StateChanged st]).
Proof.
  unfold agent_change_state. rewrite bind_get. case_bool_decide as Hs; cbn [negb].
  - by rewrite Hs, set_a_state_id.
  - by rewrite bind_put.
Qed.

(** A change along a transition, or to the same state. *)
Lemma change_follows P a st : (P a -> a_state a = st \/ transition (a_state a) st) ->
  (P a -> P (set_a_state a st)) -> keeps_at (follows P) a (agent_change_state st).
Proof.
  intros Ht HP x a' tr Hr Ha. rewrite agent_change_state_run in Hr. injection Hr as <- <- <-.
  split; [|auto]. case_bool_decide as He; [done|]. cbn. destruct (Ht Ha) as [Hs|Hs]; [done|auto].
Qed.

Lemma live_change a st : live a -> active st -> (st = JUICE_STATE_COMPLETED -> has_nominated a) ->
  live (set_a_state a st).
Proof. intros [ [Ha Hc] Hact] Hst Hcomp. split; [|done]. split; [|done]. cbn. split; [intros _; by apply Ha|done]. Qed.

(** ** The scan of the pairs *)

(** Some pairs are frozen. *)
Definition frozen_from : list agent_pair -> list agent_pair -> Prop :=
  Forall2 (fun p p' => p' = p \/ p' = set_pair_state p ICE_CANDIDATE_PAIR_STATE_FROZEN).

Lemma frozen_from_refl ps : frozen_from ps ps.
Proof. induction ps; constructor; auto. Qed.

Lemma frozen_from_freeze ps ps' q : frozen_from ps ps' -> frozen_from ps (freeze ps' q).
Proof.
  intros Hf. apply Forall2_alter_r; [done|]. intros p p' _ _ [->| ->]; [by right|right; by destruct p].
Qed.

Lemma frozen_from_lookup ps ps' k p : frozen_from ps ps' -> ps !! k = Some p ->
  exists p', ps' !! k = Some p' /\ pair_kept p p' /\ nominated p' = nominated p /\ trust_le (trust p') (trust p).
Proof.
  intros Hf Hp. destruct (Forall2_lookup_l _ _ _ _ _ Hf Hp) as (p' & Hp' & Hr). exists p'. split; [done|].
  destruct Hr as [->| ->]; [split_and!; done|]. split; [done|]. split; [done|].
  unfold trust. cbn. rewrite bool_decide_eq_false_2 by done. done.
Qed.

(** What the scan knows after the pairs [l]. *)
Record scanned (ps : list agent_pair) (l : list nat) (s : scan_t) : Prop := {
  scanned_pairs : frozen_from ps (scan_pairs s);
  scanned_some n : nominated_pair s = Some n -> n ∈ l /\ exists p, ps !! n = Some p /\ nominated p = true;
  scanned_none k p : nominated_pair s = None -> k ∈ l -> ps !! k = Some p -> nominated p = false
}.

Lemma scan_step_spec ps l s q s' c : scanned ps l s -> scan_step c s q = Some s' -> scanned ps (l ++ [q]) s'.
Proof.
  intros [Hf Hs Hn] Hstep. unfold scan_step in Hstep. destruct (scan_pairs s !! q) as [p'|] eqn:Hq; [|done].
  cbn in Hstep. injection Hstep as <-.
  destruct (Forall2_lookup_r _ _ _ _ _ Hf Hq) as (p & Hp & _).
  destruct (frozen_from_lookup _ _ _ _ Hf Hp) as (p1 & Hp1 & _ & Hnom & _).
  replace p1 with p' in Hnom by congruence.
  assert (Hold : nominated p' = false -> forall st, frozen_from ps (scan_pairs st) ->
            nominated_pair st = nominated_pair s -> scanned ps (l ++ [q]) st).
  { intros Hnp st Hfs He. split; [done| |]; rewrite He.
    - intros n Hs'. destruct (Hs n Hs') as [? ?]. split; [apply elem_of_app; by left|done].
    - intros k pk Hnone [Hk|Hk]%elem_of_app Hpk; [by eapply Hn|].
      apply list_elem_of_singleton in Hk as ->. congruence. }
  destruct (nominated p') eqn:Hnp.
  - destruct (nominated_pair s) as [n|] eqn:Hns.
    + split; [done| |by rewrite Hns]. rewrite Hns. intros m [= <-]. destruct (Hs n eq_refl).
      split; [apply elem_of_app; by left|done].
    + split; [done| |done]. cbn. intros m [= <-]. split; [apply elem_of_app; right; by apply list_elem_of_singleton|].
      exists p. split; [done|congruence].
  - apply Hold; [done| |]; repeat case_match; try done. by apply frozen_from_freeze.
Qed.

Lemma scan_loop_spec c ps l' : forall l s s', scanned ps l s -> scan_loop c s l' = Some s' -> scanned ps (l ++ l') s'.
Proof.
  induction l' as [|q l' IH]; intros l s s' Hs; cbn [scan_loop]; [intros [= <-]; by rewrite app_nil_r|].
  destruct (scan_step c s q) as [s1|] eqn:Hstep; [|done]. cbn. intros Hl.
  rewrite cons_middle, app_assoc. eapply IH; [by eapply scan_step_spec|done].
Qed.

Lemma freeze_others_spec ps nom l : forall ps0 ps', frozen_from ps ps0 -> freeze_others ps0 nom l = Some ps' ->
  frozen_from ps ps'.
Proof.
  induction l as [|q l IH]; intros ps0 ps' Hf; cbn [freeze_others]; [by intros [= <-]|].
  destruct (ps0 !! q) as [p|]; [|done]. cbn. case_match; intros Hr; (eapply IH; [|exact Hr]); [by apply frozen_from_freeze|done].
Qed.

Lemma scan_spec a s : scan a = Some s -> scanned (candidate_pairs a) (ordered_pairs a) s.
Proof.
  unfold scan. destruct (scan_loop _ _ _) as [s1|] eqn:Hl; [|done]. cbn.
  apply (scan_loop_spec _ (candidate_pairs a) _ []) in Hl; [|split; [apply frozen_from_refl|done|by intros k p _ ?%elem_of_nil] ].
  cbn [app] in Hl. destruct (nominated_pair s1) as [n|] eqn:Hn; [|by intros [= <-] ].
  case_match; [|by intros [= <-] ]. destruct (freeze_others _ _ _) as [ps|] eqn:Hf; [|done]. intros [= <-].
  destruct Hl as [H1 H2 H3]. split; cbn; [by eapply freeze_others_spec|by rewrite <- Hn|done].
Qed.

Lemma frozen_kept a ps xs : frozen_from (candidate_pairs a) ps ->
  kept a (set_entries (set_candidate_pairs a ps) xs) /\ no_more_trust a (set_entries (set_candidate_pairs a ps) xs).
Proof.
  intros Hf. split.
  - split; [done| |done]. intros k p Hp. destruct (frozen_from_lookup _ _ _ _ Hf Hp) as (p' & Hp' & Hk & _).
    by exists p'.
  - intros k. unfold trust_at. cbn. destruct (candidate_pairs a !! k) as [p|] eqn:Hp.
    + destruct (frozen_from_lookup _ _ _ _ Hf Hp) as (p' & -> & _ & _ & Ht). done.
    + apply lookup_ge_None in Hp. rewrite (proj2 (lookup_ge_None ps k)); [reflexivity|].
      apply Forall2_length in Hf. lia.
Qed.

(** ** The update *)

Section Update.
Context `{Crypto} `{System}.

Lemma connection_failed_follows a : keeps_at (follows live) a connection_failed.
Proof.
  unfold connection_failed. apply keeps_bind; [typeclasses eauto| |intros; keeps].
  apply change_follows.
  - intros [_ [H1 H2] ]. destruct (a_state a); try done; auto using transition.
  - intros Hl. by apply live_change.
Qed.

Lemma complete_follows nom a : keeps_at (follows nominated_live) a (complete nom).
Proof.
  unfold complete. apply keeps_bind_get.
  apply (keeps_bind_post _ (fun a => a_state a <> JUICE_STATE_CONNECTING)).
  - intros x a1 tr Hr. case_bool_decide as Hc.
    + rewrite agent_change_state_run in Hr. injection Hr as <- <- <-. rewrite Hc. split; [|done].
      intros [Hl Hn]. cbn. split; [split; [rewrite Hc; constructor|done]|]. split; [by apply live_change|done].
    + run_inv. split; [|done]. by intros Hl.
  - intros _ a1 Hnc. apply keeps_bind; [typeclasses eauto| |intros; keeps].
    apply change_follows.
    + intros [ [_ [H1 H2] ] _]. destruct (a_state a1); try done; auto using transition.
    + intros [Hl Hn]. split; [by apply live_change|done].
Qed.

Lemma connect_follows sel n next a : keeps_at (follows unfinished_live) a (connect sel n next).
Proof.
  unfold connect. apply keeps_bind; [typeclasses eauto| |intros; keeps].
  - apply change_follows.
    + intros [ [_ [H1 H2] ] H3]. destruct (a_state a); try done; auto using transition.
    + intros [Hl Hn]. split; [by apply live_change|done].
  - apply update_pair_loose; [by intros|typeclasses eauto].
Qed.

#[local] Hint Resolve connection_failed_follows complete_follows connect_follows : keeps.

(** The scan decides which of the two is used. *)
Lemma update_selection_follows s next a :
  (live a -> match nominated_pair s with
             | Some _ => has_nominated a
             | None => a_state a <> JUICE_STATE_COMPLETED
             end) -> keeps_at (follows live) a (update_selection s next).
Proof.
  intros Hs. unfold update_selection, get_pair.
  apply (keeps_bind_post _ (fun a1 => a1 = a)).
  { intros x a1 tr Hr. case_match; run_inv; (split; [by apply composes_nil|done]). }
  intros lost a1 ->. destruct lost; [keeps|].
  destruct (scan_selected s) as [sel|]; [|keeps].
  destruct (nominated_pair s) as [nom|].
  - apply (follows_weaken _ nominated_live); [by split; auto|by intros a' [? _]|keeps].
  - apply (follows_weaken _ unfinished_live); [by split; auto|by intros a' [? _]|keeps].
Qed.

Lemma agent_bookkeeping_follows a : keeps_at (follows legal) a agent_bookkeeping.
Proof.
  unfold agent_bookkeeping. cbv zeta. apply keeps_bind_get.
  destruct (_ || _) eqn:Hact; [keeps|]. apply orb_false_elim in Hact as [H1 H2].
  apply bool_decide_eq_false in H1, H2.
  apply (follows_weaken _ live); [by split|by intros a' [? _]|].
  apply keeps_bind; [typeclasses eauto|keeps|]. intros _ a1. apply keeps_bind_get.
  apply keeps_bind_defined. intros s Hs. apply keeps_bind_defined. intros xs _.
  destruct (scan_spec _ _ Hs) as [Hf Hsome Hnone]. destruct (frozen_kept a1 _ xs Hf) as [Hk Ht].
  apply keeps_bind_put; [typeclasses eauto|by apply loose_put|].
  apply keeps_bind; [typeclasses eauto| |intros; unfold next_timestamp; keeps].
  apply update_selection_follows. intros [ [_ Hl] _]. destruct (nominated_pair s) as [n|] eqn:Hn.
  - destruct (Hsome n eq_refl) as [Hin (p & Hp & Hnom)]. eapply kept_nominated; [exact Hk|]. by exists n, p.
  - cbn. intros Hc. destruct (Hl Hc) as (k & p' & Hin & Hp' & Hnom). cbn in Hin, Hp'.
    destruct (Forall2_lookup_r _ _ _ _ _ Hf Hp') as (p & Hp & _).
    destruct (frozen_from_lookup _ _ _ _ Hf Hp) as (q & Hq & _ & Heq & _).
    specialize (Hnone k p eq_refl Hin Hp). congruence.
Qed.

(** ** Gathering *)

(** From [P] to [Q]. *)
Definition leads (P Q : juice_agent_t -> Prop) (a : juice_agent_t) (tr : list event) (a' : juice_agent_t) : Prop :=
  P a -> path (a_state a) (state_events tr) (a_state a') /\ Q a'.

Lemma leads_bind P Q T {A B} (c : M A) (k : A -> M B) a : keeps_at (leads P Q) a c ->
  (forall x a1, keeps_at (leads Q T) a1 (k x)) -> keeps_at (leads P T) a (x ← c; k x).
Proof.
  intros Hc Hk y a' tr (x & a1 & tr1 & tr2 & H1 & H2 & ->)%bind_run Ha.
  destruct (Hc _ _ _ H1 Ha) as [P1 Q1]. destruct (Hk _ _ _ _ _ H2 Q1) as [P2 Q2]. split; [|done].
  unfold state_events. rewrite omap_app. by eapply path_app.
Qed.

Definition gathering (a : juice_agent_t) : Prop := a_state a = JUICE_STATE_GATHERING /\ conn_started a = true.

#[local] Instance gathering_kept : KeptProp gathering.
Proof. intros a a' Hk [H1 H2]. injection (kept_core _ _ Hk) as Hs Hc. split; congruence. Qed.

Lemma gather_local_leads rs a : keeps_at (leads gathering legal) a (gather_local rs).
Proof.
  assert (Hg : forall {A B} (c : M A) (k : A -> M B) s, keeps_at (follows gathering) s c ->
    (forall x s1, keeps_at (leads gathering legal) s1 (k x)) -> keeps_at (leads gathering legal) s (x ← c; k x)).
  { intros A B c k s. apply leads_bind. }
  unfold gather_local. apply Hg; [keeps|]. intros _ a1. apply keeps_bind_get. apply Hg; [keeps|]. intros _ a2.
  apply Hg; [keeps|]. intros _ a3. apply keeps_bind_get. apply Hg; [keeps|]. intros _ a4.
  apply (leads_bind _ legal).
  - intros x a' tr Hr [Hs Hc]. rewrite agent_change_state_run in Hr. injection Hr as <- <- <-. rewrite Hs.
    split; [split; [constructor|done]|]. split; [|done]. split; [done|]. split; done.
  - intros _ a5. change (keeps_at (follows legal) a5 conn_interrupt). keeps.
Qed.

Lemma agent_gather_candidates_follows a : keeps_at (follows legal) a agent_gather_candidates.
Proof.
  unfold agent_gather_candidates. apply keeps_bind_get. destruct (conn_started a) eqn:Hc; [keeps|].
  apply (keeps_bind_post _ (fun a => conn_started a = false)).
  { intros x a1 tr Hr. split; [by eapply assume_controlling_frame; [typeclasses eauto|]|].
    unfold assume_controlling, set_mode, modify in Hr. by run_cases. }
  intros _ a1 Hc1.
  apply (keeps_bind_post _ (fun a => conn_started a = false /\ a_state a = JUICE_STATE_GATHERING)).
  { intros x a2 tr Hr. split; [|rewrite agent_change_state_run in Hr; by injection Hr as <- <- <-].
    revert Hr. apply change_follows.
    - intros [Ha _]. rewrite Hc1 in Ha. unfold active in Ha.
      destruct (a_state a1); auto using transition; by (assert (false = true) by (apply Ha; split; discriminate)).
    - intros [Ha _]. split; [|done]. cbn. rewrite Hc1. split; [by intros [_ ?]|done]. }
  intros _ a2 [Hc2 Hs2]. case_match; [keeps|].
  apply (leads_bind legal gathering).
  { intros x a' tr Hr _. unfold modify in Hr. run_inv. by split. }
  intros _ a3. apply (leads_bind gathering gathering).
  { change (keeps_at (follows gathering) a3 conn_interrupt). keeps. }
  intros _ a4. destruct conn_addrs as [n rs]. apply (leads_bind gathering legal); [apply gather_local_leads|].
  intros _ a5. match goal with |- keeps_at _ _ ?c => change (keeps_at (follows legal) a5 c) end. keeps.
Qed.
End Update.

(** ** Sessions *)

(** What happens to an agent: datagrams, timers, failures and TCP states that its
    connection reports, and the calls of the application. *)
Inductive operation :=
| Recv (buf : list Z) (src : addr_record_t)
| Update
| Fail
| TcpState (dst : addr_record_t) (st : tcp_state_t)
| ResolveServers
| GatherCandidates
| GetLocalDescription (size : Z)
| SetRemoteDescription (sdp : list Z)
| AddRemoteCandidate (sdp : list Z)
| SetRemoteGatheringDone
| SetLocalIceAttributes (ufrag pwd : list Z)
| AddTurnServer (t : juice_turn_server_t)
| SetIceTcpMode (m : juice_ice_tcp_mode_t)
| Send (data : list Z) (ds : Z).

(** The connection calls the agent only while it exists. *)
Definition by_connection (c : M unit) : M unit := a ← get; if conn_started a then c else mret tt.

Definition perform `{Crypto} `{System} (o : operation) : M unit :=
  match o with
  | Recv buf src => by_connection (_ ← agent_conn_recv buf src; mret tt)
  | Update => by_connection (_ ← agent_conn_update; mret tt)
  | Fail => by_connection (_ ← agent_conn_fail; mret tt)
  | TcpState dst st => by_connection (_ ← agent_conn_tcp_state dst st; mret tt)
  | ResolveServers => by_connection (_ ← agent_resolve_servers; mret tt)
  | GatherCandidates => _ ← agent_gather_candidates; mret tt
  | GetLocalDescription size => _ ← agent_get_local_description size; mret tt
  | SetRemoteDescription sdp => _ ← agent_set_remote_description sdp; mret tt
  | AddRemoteCandidate sdp => _ ← agent_add_remote_candidate sdp; mret tt
  | SetRemoteGatheringDone => _ ← agent_set_remote_gathering_done; mret tt
  | SetLocalIceAttributes ufrag pwd => _ ← agent_set_local_ice_attributes ufrag pwd; mret tt
  | AddTurnServer t => _ ← agent_add_turn_server t; mret tt
  | SetIceTcpMode m => _ ← agent_set_ice_tcp_mode m; mret tt
  | Send data ds => _ ← agent_send data ds; mret tt
  end.

(** Operations in order, each with what the system does meanwhile. *)
Fixpoint perform_all `{Crypto} (l : list (System * operation)) : M unit :=
  match l with
  | [] => mret tt
  | (sys, o) :: l' => _ ← @perform _ sys o; perform_all l'
  end.

Lemma agent_conn_fail_follows a : conn_started a = true -> keeps_at (follows legal) a agent_conn_fail.
Proof.
  intros Hc. apply (follows_weaken _ live).
  - intros Hl. split; [done|]. by apply Hl.
  - by intros a' [? _].
  - unfold agent_conn_fail. apply keeps_bind; [typeclasses eauto| |intros; keeps]. apply change_follows.
    + intros [_ [H1 H2] ]. destruct (a_state a); try done; auto using transition.
    + intros Hl. by apply live_change.
Qed.

Lemma perform_follows `{Crypto} `{System} o a : keeps_at (follows legal) a (perform o).
Proof.
  destruct o; unfold perform, by_connection, agent_conn_recv, agent_conn_update, agent_conn_tcp_state,
    agent_get_local_description, agent_set_remote_gathering_done, agent_set_local_ice_attributes,
    agent_add_turn_server, agent_set_ice_tcp_mode, agent_send; keeps.
  all: first [apply agent_bookkeeping_follows | by apply agent_conn_fail_follows | apply agent_gather_candidates_follows | idtac].
Qed.

Lemma perform_all_follows `{Crypto} l : forall a, keeps_at (follows legal) a (perform_all l).
Proof.
  induction l as [|[sys o] l IH]; intros a; cbn [perform_all]; [keeps|].
  apply keeps_bind; [typeclasses eauto|apply perform_follows|intros; apply IH].
Qed.

(** C7: whatever datagrams, timers, failures and calls an agent sees from its
    creation on, in any order, the states it reports are a path of the state
    machine: it gathers, then connects; it never reports that it is completed
    without having reported that it is connected or failed before, and once
    completed it can only fail; and its state is the last one it reported. *)
Theorem agent_states_follow_machine `{Crypto} config rnd_ufrag rnd_pwd tiebreaker l u a tr :
  perform_all l (agent_create config rnd_ufrag rnd_pwd tiebreaker) = Some (u, a, tr) ->
  path JUICE_STATE_DISCONNECTED (state_events tr) (a_state a).
Proof.
  intros Hr. destruct (perform_all_follows l _ _ _ _ Hr) as [Hp _]; [|exact Hp].
  split; [|done]. cbn. split; [by intros [? _]|done].
Qed.

(** ** Sending after a failure *)

(** The events by which an agent tells that it has failed. *)
Definition reports_failure (tr : list event) : Prop := JUICE_STATE_FAILED ∈ state_events tr.

(** No failure is reported. *)
Definition no_failure (a : juice_agent_t) (tr : list event) (a' : juice_agent_t) : Prop := ~ reports_failure tr.

#[global] Instance no_failure_loose : Loose no_failure.
Proof.
  assert (Hnil : forall a a', no_failure a [] a') by (intros a a'; apply not_elem_of_nil).
  split; [split; [split|..]|]; try by intros.
  - intros a tr1 a1 tr2 a2 H1 H2. unfold no_failure, reports_failure, state_events. rewrite omap_app.
    by intros [?|?]%elem_of_app.
  - intros a ev Hev. destruct ev; try apply not_elem_of_nil. by destruct (Hev s).
Qed.

Lemma change_no_failure st a : st <> JUICE_STATE_FAILED -> keeps_at no_failure a (agent_change_state st).
Proof.
  intros Hst x a' tr Hr. rewrite agent_change_state_run in Hr. injection Hr as <- <- <-.
  unfold no_failure, reports_failure. case_bool_decide; cbn; [apply not_elem_of_nil|].
  by intros ?%list_elem_of_singleton.
Qed.
#[local] Hint Extern 1 (keeps_at no_failure _ (agent_change_state _)) => (by apply change_no_failure) : keeps.

Lemma modify_no_failure f a : keeps_at no_failure a (modify f).
Proof. unfold modify. keeps. apply not_elem_of_nil. Qed.
#[local] Hint Resolve modify_no_failure : keeps.

(** The agent has failed and disallows sending. *)
Definition closed (a : juice_agent_t) (tr : list event) (a' : juice_agent_t) : Prop :=
  reports_failure tr -> selected_entry a' = None.

Lemma no_failure_closed a tr a' : no_failure a tr a' -> closed a tr a'.
Proof. by intros Hn Hf. Qed.

(** What runs without a failure before what closes. *)
Lemma closed_bind {A B} (c : M A) (k : A -> M B) a : keeps_at no_failure a c ->
  (forall x a1, keeps_at closed a1 (k x)) -> keeps_at closed a (x ← c; k x).
Proof.
  intros Hc Hk y a' tr (x & a1 & tr1 & tr2 & H1 & H2 & ->)%bind_run Hf.
  apply (Hk x a1 y a' tr2 H2). unfold reports_failure, state_events in *. rewrite omap_app in Hf.
  apply elem_of_app in Hf as [Hf|Hf]; [by destruct (Hc _ _ _ H1)|done].
Qed.

(** The agent is closed in the end, whatever was reported. *)
Lemma connection_failed_run a u a' tr : connection_failed a = Some (u, a', tr) -> selected_entry a' = None.
Proof. unfold connection_failed, modify. intros Hr. by run_inv. Qed.

Section Closed.
Context `{Crypto} `{System}.

(** An update goes on only without a failure. *)
Lemma update_selection_closed s next a r a' tr : update_selection s next a = Some (r, a', tr) ->
  no_failure a tr a' \/ (r = None /\ selected_entry a' = None).
Proof.
  unfold update_selection. intros (lost & a1 & tr1 & tr2 & H1 & H2 & ->)%bind_run.
  assert (Hq : no_failure a tr1 a1).
  { destruct (nominated_pair s); unfold get_pair in H1; run_inv; apply not_elem_of_nil. }
  assert (Hcases : no_failure a1 tr2 a' \/ (r = None /\ selected_entry a' = None)).
  { destruct lost.
    { right. run_inv. split; [done|]. by eapply connection_failed_run. }
    destruct (scan_selected s) as [sel|].
    - left. revert H2. generalize r, a', tr2.
      match goal with |- forall r a' tr, ?c a1 = _ -> _ => assert (Hk : keeps_at no_failure a1 c); [|exact Hk] end.
      unfold complete, connect. keeps. apply update_pair_loose; [by intros|typeclasses eauto].
    - rewrite bind_get in H2. destruct (_ && _); [destruct (_ <=? _)|]; run_inv.
      + right. split; [done|]. by eapply connection_failed_run.
      + left. apply not_elem_of_nil.
      + left. apply not_elem_of_nil. }
  destruct Hcases as [Hn|?]; [left|by right]. by apply (composes_app _ _ a1).
Qed.

Lemma agent_bookkeeping_closed a : keeps_at closed a agent_bookkeeping.
Proof.
  unfold agent_bookkeeping. cbv zeta. apply keeps_bind_get.
  case_match; [intros x a' tr Hr; run_inv; by intros ?%not_elem_of_nil|].
  apply closed_bind; [keeps|]. intros _ a1. apply keeps_bind_get.
  apply closed_bind; [keeps|]. intros s a2. apply closed_bind; [keeps|]. intros xs a3.
  intros y a' tr Hr. rewrite bind_put in Hr. revert Hr. generalize (set_entries (set_candidate_pairs a1 (scan_pairs s)) xs).
  intros a4 (r & a5 & tr1 & tr2 & Hsel & Hrest & ->)%bind_run.
  destruct (update_selection_closed _ _ _ _ _ _ Hsel) as [Hn|[-> Hc] ].
  - apply (no_failure_closed a4 _ a'), (composes_app (R := no_failure) a4 tr1 a5 tr2 a'); [done|].
    destruct r; [unfold next_timestamp in Hrest|]; run_inv; apply not_elem_of_nil.
  - run_inv. by intros _.
Qed.

(** C9: once an operation makes an agent report that it has failed, because its
    nominated pair lost its consent or its connection, or because no pair was
    found in time, the agent sends no data: sending is an error and emits
    nothing. *)
Theorem agent_failed_sends_nothing o a u a' tr : perform o a = Some (u, a', tr) -> reports_failure tr ->
  forall (later : System) data ds, @agent_send _ later data ds a' = Some (-1, a', []).
Proof.
  intros Hr Hf later data ds. unfold agent_send. rewrite bind_get.
  enough (selected_entry a' = None) as -> by done. clear later. revert u a' tr Hr Hf.
  change (keeps_at closed a (perform o)). destruct o.
  all: try by (intros x a' tr Hr; apply no_failure_closed; revert x a' tr Hr;
    match goal with |- forall x a' tr, ?c ?s = _ -> _ => assert (Hk : keeps_at no_failure s c); [|exact Hk] end;
    unfold perform, by_connection, agent_conn_recv, agent_conn_tcp_state, agent_gather_candidates, gather_local,
      agent_get_local_description, agent_set_remote_gathering_done, agent_set_local_ice_attributes,
      agent_add_turn_server, agent_set_ice_tcp_mode, agent_send; keeps).
  all: unfold perform, by_connection; apply keeps_bind_get; case_match;
    [|intros x a' tr Hr; run_inv; by intros ?%not_elem_of_nil].
  all: intros x a' tr Hr; run_inv; rewrite app_nil_r.
  - by eapply agent_bookkeeping_closed.
  - unfold agent_conn_fail, modify in *. run_inv. by intros _.
Qed.
End Closed.

(** ** Examples *)

#[local] Abbreviation alice_at t := (host_system alice_addr t) (only parsing).

Definition example_operations : list (System * operation) :=
  [(alice_at 1000, GatherCandidates); (alice_at 1000, Update); (alice_at 2000, Fail)].

Lemma example_operations_run : exists u a tr,
  @perform_all sum_crypto example_operations (peer_agent (new_peer alice_addr 70)) = Some (u, a, tr) /\
  state_events tr = [JUICE_STATE_GATHERING; JUICE_STATE_CONNECTING; JUICE_STATE_FAILED] /\
  a_state a = JUICE_STATE_FAILED.
Proof. vm_compute. by do 3 eexists. Qed.

Lemma agent_states_follow_machine_witness : path JUICE_STATE_DISCONNECTED
  [JUICE_STATE_GATHERING; JUICE_STATE_CONNECTING; JUICE_STATE_FAILED] JUICE_STATE_FAILED.
Proof.
  destruct example_operations_run as (u & a & tr & Hr & <- & <-).
  exact (@agent_states_follow_machine sum_crypto _ _ _ _ _ u a tr Hr).
Defined.

(** Alice is connected, and then hears nothing for 30 seconds. *)
Definition example_completed : juice_agent_t :=
  match session with Some (alice, _) => peer_agent alice | None => peer_agent (new_peer alice_addr 0) end.

Lemma example_consent_lost : exists u a tr,
  @perform sum_crypto (alice_at 40000) Update example_completed = Some (u, a, tr) /\ reports_failure tr.
Proof.
  destruct (@perform sum_crypto (alice_at 40000) Update example_completed) as [ [ [u a] tr]|] eqn:Hr; [|by vm_compute in Hr].
  exists u, a, tr. split; [done|]. unfold reports_failure.
  replace (state_events tr) with [JUICE_STATE_FAILED]; [by left|].
  assert (He : (fun r => match r with Some (_, _, tr) => state_events tr | None => [] end)
    (@perform sum_crypto (alice_at 40000) Update example_completed) = [JUICE_STATE_FAILED]) by by vm_compute.
  by rewrite Hr in He.
Qed.

Lemma agent_failed_sends_nothing_witness : exists a,
  @agent_send sum_crypto (alice_at 40001) (str "hello") 0 a = Some (-1, a, []).
Proof.
  destruct example_consent_lost as (u & a & tr & Hr & Hf). exists a.
  exact (@agent_failed_sends_nothing sum_crypto (alice_at 40000) Update example_completed u a tr Hr Hf
    (alice_at 40001) (str "hello") 0).
Defined.
