(* ===== verification/AgentRoles.v ===== *)
(** * The ICE agent: roles and the remote description

    How conflicts of roles are resolved, and what setting the remote description
    does to pairs that exist already. *)

From S2P Require Import Prelude Effects CText Addr Turn Ice IceSdp StunTypes StunWrite StunRead AgentTypes Agent AgentMessages.
From S2P Require Import AgentUpdate AgentCalls AgentNet AgentPacing AgentFrame.
#[local] Open Scope Z_scope.

(** ** Sending *)

(** Only the entries differ, and the draws made. *)
Definition entries_only (a a' : juice_agent_t) : Prop := exists es n, a' = set_draws (set_entries a es) n.

#[global] Instance entries_only_preorder : PreOrder entries_only.
Proof.
  split; [intros a; exists (entries a), (draws a); by destruct a|].
  intros a b c (es & n & ->) (es' & n' & ->). by exists es', n'.
Qed.

Abbreviation keeps_rest c := (forall a, keeps_at (on_states entries_only) a c).

Lemma tuned_rest {A} (c : M A) a : keeps_at (on_states tuned) a c -> keeps_at (on_states entries_only) a c.
Proof. intros Hc x a' tr (es & n & _ & ->)%Hc. by exists es, n. Qed.

#[local] Hint Extern 2 (on_states entries_only ?a _ (set_entries ?a ?es)) =>
  (exists es, (draws a); by destruct a) : keeps.
#[local] Hint Extern 2 (on_states entries_only ?a _ (set_draws ?a ?n)) =>
  (exists (entries a), n; by destruct a) : keeps.

Section Sending.
Context `{Crypto} `{System}.

Lemma get_entry_rest i : keeps_rest (get_entry i).
Proof. intros a. unfold get_entry. keeps. Qed.
Lemma update_entry_rest i f : keeps_rest (update_entry i f).
Proof. intros a. unfold update_entry. keeps. Qed.
Lemma juice_random_rest n : keeps_rest (juice_random n).
Proof. intros a. unfold juice_random. keeps. Qed.
Lemma draw_many_rest n : keeps_rest (draw_many n).
Proof. intros a. unfold draw_many. keeps. Qed.
Lemma agent_direct_send_rest r d ds : keeps_rest (agent_direct_send r d ds).
Proof. intros a. unfold agent_direct_send. keeps. Qed.
Lemma write_message_rest m p : keeps_rest (write_message m p).
Proof. intros a. unfold write_message. keeps. Qed.
#[local] Hint Resolve get_entry_rest update_entry_rest juice_random_rest draw_many_rest agent_direct_send_rest
  write_message_rest : keeps.
Lemma create_permission_request_rest i r ds : keeps_rest (agent_send_turn_create_permission_request i r ds).
Proof. intros a. unfold agent_send_turn_create_permission_request, send_message. keeps. Qed.
Lemma channel_bind_request_rest i r ds : keeps_rest (agent_send_turn_channel_bind_request i r ds).
Proof. intros a. unfold agent_send_turn_channel_bind_request, send_message. keeps. Qed.
#[local] Hint Resolve create_permission_request_rest channel_bind_request_rest : keeps.
Lemma agent_relay_send_rest i r d ds : keeps_rest (agent_relay_send i r d ds).
Proof. intros a. unfold agent_relay_send. keeps. Qed.
Lemma agent_channel_send_rest i r d ds : keeps_rest (agent_channel_send i r d ds).
Proof. intros a. unfold agent_channel_send. keeps. Qed.
#[local] Hint Resolve agent_relay_send_rest agent_channel_send_rest : keeps.
Lemma agent_send_stun_binding_rest i c code t m : keeps_rest (agent_send_stun_binding i c code t m).
Proof. intros a. unfold agent_send_stun_binding, send_binding. keeps. Qed.

(** ** Role conflicts *)

(** Recomputing the priorities always returns and changes no role, tiebreaker or nomination. *)
Lemma agent_update_candidate_pairs_run a : exists a', agent_update_candidate_pairs a = Some (tt, a', []) /\
  a_mode a' = a_mode a /\ ice_tiebreaker a' = ice_tiebreaker a /\
  (nominated <$> candidate_pairs a') = (nominated <$> candidate_pairs a).
Proof.
  eexists. split; [reflexivity|]. split_and!; [done|done|]. cbn. rewrite <- list_fmap_compose. apply list_fmap_ext.
  intros k p _. unfold ice_update_candidate_pair. cbn. by destruct (local p), (remote p).
Qed.

(** Taking another role. *)
Lemma switch_mode m a : exists a', (_ ← set_mode m; agent_update_candidate_pairs) a = Some (tt, a', []) /\
  a_mode a' = m /\ ice_tiebreaker a' = ice_tiebreaker a /\
  (nominated <$> candidate_pairs a') = (nominated <$> candidate_pairs a).
Proof.
  destruct (agent_update_candidate_pairs_run (set_a_mode a m)) as (a' & Hr & Hm & Ht & Hn).
  exists a'. unfold set_mode, modify. rewrite (bind_quiet _ _ _ tt (set_a_mode a m)) by done. by split_and!.
Qed.

(** The conflict branch: the request is refused and nothing but entries changes. *)
Lemma refuse_mode i tid a u a' tr :
  (_ ← agent_send_stun_binding i STUN_CLASS_RESP_ERROR 487 tid None; mret tt) a = Some (u, a', tr) ->
  a_mode a' = a_mode a /\ ice_tiebreaker a' = ice_tiebreaker a /\
  (nominated <$> candidate_pairs a') = (nominated <$> candidate_pairs a).
Proof.
  intros Hr. run_inv. match goal with Hs : agent_send_stun_binding _ _ _ _ _ _ = _ |- _ =>
    apply agent_send_stun_binding_rest in Hs as (es & n & ->) end. done.
Qed.

(** A request on the check of a pair, up to the conflicts of roles. *)
Lemma process_binding_request_conflict i msg src a x p :
  entries a !! i = Some x -> e_type x = AGENT_STUN_ENTRY_TYPE_CHECK -> e_pair x = Some p ->
  let refuse := _ ← agent_send_stun_binding i STUN_CLASS_RESP_ERROR 487 (Some (transaction_id msg)) None; mret tt in
  (a_mode a = AGENT_MODE_CONTROLLING -> ice_controlling msg <> 0 -> ice_controlled msg = 0 ->
   process_binding_request i msg src a
   = (_ ← (if ice_controlling msg <=? ice_tiebreaker a then refuse
           else _ ← set_mode AGENT_MODE_CONTROLLED; agent_update_candidate_pairs); mret 0) a) /\
  (a_mode a = AGENT_MODE_CONTROLLED -> ice_controlling msg = 0 -> ice_controlled msg <> 0 ->
   process_binding_request i msg src a
   = (_ ← (if 0 <=? ice_tiebreaker a then _ ← set_mode AGENT_MODE_CONTROLLING; agent_update_candidate_pairs
           else refuse); mret 0) a).
Proof.
  intros Hx Ht Hp. split; intros Hm Hg Hd; unfold process_binding_request, get_entry;
    rewrite (bind_quiet _ _ _ x a) by (rewrite bind_get; by rewrite Hx);
    rewrite (bool_decide_eq_true_2 _ Ht); cbn [negb]; rewrite (bind_defined _ _ _ _ Hp).
  - rewrite Hd, (proj2 (Z.eqb_neq _ _) Hg), bind_get, (bool_decide_eq_true_2 _ Hm). done.
  - rewrite Hg, (proj2 (Z.eqb_neq 0 _)), bind_get, (bool_decide_eq_false_2 (a_mode a = _)) by congruence.
    rewrite (bool_decide_eq_true_2 _ Hm), (proj2 (Z.eqb_neq _ _) Hd). done.
Qed.

(** C30: a request of a peer that also takes the controlling role is a conflict
    that the larger tiebreaker wins: the agent keeps its role if its tiebreaker is
    at least the peer's, and otherwise takes the controlled role and sends
    nothing; its tiebreaker does not change, and no pair gains or loses its
    nomination. *)
Theorem agent_both_controlling_resolved i msg src a x p :
  entries a !! i = Some x -> e_type x = AGENT_STUN_ENTRY_TYPE_CHECK -> e_pair x = Some p ->
  a_mode a = AGENT_MODE_CONTROLLING -> ice_controlling msg <> 0 -> ice_controlled msg = 0 ->
  (ice_tiebreaker a < ice_controlling msg -> exists a', process_binding_request i msg src a = Some (0, a', [])) /\
  forall r a' tr, process_binding_request i msg src a = Some (r, a', tr) ->
    r = 0 /\ ice_tiebreaker a' = ice_tiebreaker a /\
    a_mode a' = (if ice_controlling msg <=? ice_tiebreaker a then AGENT_MODE_CONTROLLING else AGENT_MODE_CONTROLLED) /\
    (nominated <$> candidate_pairs a') = (nominated <$> candidate_pairs a).
Proof.
  intros Hx Ht Hp Hm Hg Hd.
  rewrite (proj1 (process_binding_request_conflict i msg src a x p Hx Ht Hp) Hm Hg Hd).
  destruct (switch_mode AGENT_MODE_CONTROLLED a) as (a1 & Hr1 & Hs). split.
  - intros Hlt. rewrite (proj2 (Z.leb_gt _ _) Hlt), (bind_quiet _ _ _ _ _ Hr1). by eexists.
  - intros r a' tr. destruct (ice_controlling msg <=? ice_tiebreaker a); intros Hr.
    + apply bind_run in Hr as (u & a2 & t1 & t2 & Hr & He & _). apply ret_run in He as (-> & -> & _).
      apply refuse_mode in Hr as (Hm' & Ht' & Hn'). by rewrite Hm'.
    + rewrite (bind_quiet _ _ _ _ _ Hr1) in Hr. apply ret_run in Hr as (-> & -> & _).
      destruct Hs as (? & ? & ?). by split_and!.
Qed.

(** A request of a peer that also takes the controlled role makes the agent
    controlling, whatever the two tiebreakers are: the code compares the agent's
    tiebreaker with the ICE-CONTROLLING attribute, which such a request does not
    have, where the ICE-CONTROLLED attribute is meant. *)
Theorem agent_both_controlled_switches i msg src a x p :
  entries a !! i = Some x -> e_type x = AGENT_STUN_ENTRY_TYPE_CHECK -> e_pair x = Some p ->
  a_mode a = AGENT_MODE_CONTROLLED -> ice_controlling msg = 0 -> ice_controlled msg <> 0 -> 0 <= ice_tiebreaker a ->
  exists a', process_binding_request i msg src a = Some (0, a', []) /\ a_mode a' = AGENT_MODE_CONTROLLING /\
    ice_tiebreaker a' = ice_tiebreaker a.
Proof.
  intros Hx Ht Hp Hm Hg Hd Hb.
  rewrite (proj2 (process_binding_request_conflict i msg src a x p Hx Ht Hp) Hm Hg Hd).
  destruct (switch_mode AGENT_MODE_CONTROLLING a) as (a1 & Hr1 & Hs).
  rewrite (proj2 (Z.leb_le _ _) Hb), (bind_quiet _ _ _ _ _ Hr1).
  destruct Hs as (? & ? & _). exists a1. by split_and!.
Qed.
End Sending.

(** ** Examples *)

(** Alice after the descriptions are exchanged, a request of a peer that is
    controlling too, and one of a peer that is controlled too. *)
Definition controlling_request : stun_message_t := set_ice_controlling stun_message_zero 100.
Definition controlled_request : stun_message_t := set_ice_controlled stun_message_zero 100.

(** Bob after the descriptions are exchanged. *)
Definition example_bob : juice_agent_t :=
  match session_start with Some (_, bob) => peer_agent bob | None => agent_create plain_config Z.of_nat Z.of_nat 0 end.
Definition bob_entry : agent_stun_entry_t := nth 0 (entries example_bob) entry_zero.

Lemma example_check : entries example_agent !! 0%nat = Some example_entry /\
  e_type example_entry = AGENT_STUN_ENTRY_TYPE_CHECK /\ e_pair example_entry = Some 0%nat /\
  a_mode example_agent = AGENT_MODE_CONTROLLING /\ ice_tiebreaker example_agent < ice_controlling controlling_request.
Proof. by vm_compute. Qed.

Lemma bob_check : entries example_bob !! 0%nat = Some bob_entry /\
  e_type bob_entry = AGENT_STUN_ENTRY_TYPE_CHECK /\ e_pair bob_entry = Some 0%nat /\
  a_mode example_bob = AGENT_MODE_CONTROLLED /\ 0 <= ice_tiebreaker example_bob < ice_controlled controlled_request.
Proof. by vm_compute. Qed.

Lemma agent_both_controlling_resolved_witness : exists a',
  @process_binding_request sum_crypto (host_system alice_addr 1100) 0 controlling_request bob_addr example_agent
  = Some (0, a', []) /\ a_mode a' <> AGENT_MODE_CONTROLLING.
Proof.
  destruct example_check as (Hx & Ht & Hp & Hm & Hlt).
  destruct (@agent_both_controlling_resolved sum_crypto (host_system alice_addr 1100) 0 controlling_request bob_addr
              example_agent example_entry 0%nat Hx Ht Hp Hm) as [Hr Hall]; [discriminate|reflexivity|].
  destruct (Hr Hlt) as (a' & Hr'). exists a'. split; [exact Hr'|].
  destruct (Hall _ _ _ Hr') as (_ & _ & Hm' & _). rewrite (proj2 (Z.leb_gt _ _) Hlt) in Hm'. congruence.
Defined.

(** The agent switches though the tiebreaker of the request is the larger one. *)
Lemma agent_both_controlled_switches_witness : exists a',
  @process_binding_request sum_crypto (host_system bob_addr 1100) 0 controlled_request alice_addr example_bob
  = Some (0, a', []) /\ a_mode a' = AGENT_MODE_CONTROLLING /\ ice_tiebreaker a' < ice_controlled controlled_request.
Proof.
  destruct bob_check as (Hx & Ht & Hp & Hm & Hlt).
  destruct (@agent_both_controlled_switches sum_crypto (host_system bob_addr 1100) 0 controlled_request alice_addr
              example_bob bob_entry 0%nat Hx Ht Hp Hm) as (a' & Hr & Hm' & Hk); [reflexivity|discriminate|lia|].
  exists a'. split; [exact Hr|split; [exact Hm'|rewrite Hk; lia] ].
Defined.

(** ** The remote description *)

(** Bob is behind a translator. He answers and checks at once, so that his check
    reaches Alice from the translator's address before his answer does. *)
Definition nat_addr : addr_record_t := endpoint 9 9000.

Definition early_check : option (peer_t * peer_t) :=
  '(_, alice, bob, _) ← net_step 1000 (fun _ _ => agent_gather_candidates) (new_peer alice_addr 70) (new_peer bob_addr 50);
  '(offer, alice, bob, _) ← net_step 1000 (fun _ _ => agent_get_local_description 4096) alice bob;
  '(_, bob, alice, _) ← net_step 1000 (fun _ _ => agent_set_remote_description (snd offer)) bob alice;
  '(_, bob, alice, _) ← net_step 1000 (fun _ _ => agent_gather_candidates) bob alice;
  '(answer, bob, alice, _) ← net_step 1000 (fun _ _ => agent_get_local_description 4096) bob alice;
  '(_, bob, alice, _) ← net_step 1100 (fun _ _ => agent_bookkeeping) bob alice;
  let check := match peer_inbox alice with (_, d) :: _ => d | [] => [] end in
  '(_, alice, bob, _) ← net_step 1100 (fun _ _ => agent_conn_recv check nat_addr) alice bob;
  '(_, early, bob, _) ← net_step 1200 (fun _ _ => agent_set_remote_description (snd answer)) alice bob;
  Some (alice, early).

(** The address of the remote candidate of the first pair, and the address its
    checks are sent to. *)
Definition first_pair (p : peer_t) : option addr_record_t * option addr_record_t :=
  let a := peer_agent p in
  (match candidate_pairs a with
   | q :: _ => option_map (fun r => resolved (candidate_at a r)) (remote q)
   | [] => None
   end, option_map e_record (entries a !! 0%nat)).

(** Setting the remote description overwrites the remote candidates that
    were learnt before from checks, while the pairs of these candidates stay: a
    check that reaches the agent before the remote description makes a pair with
    the address it came from, and after the description is set the candidate of
    that pair is the first one of the description, another address than the one
    the pair's checks go to. *)
Theorem agent_remote_description_replaces_candidate : exists alice early, early_check = Some (alice, early) /\
  first_pair alice = (Some nat_addr, Some nat_addr) /\ first_pair early = (Some bob_addr, Some nat_addr).
Proof. vm_compute. by do 2 eexists. Qed.
