(* ===== verification/Udp.v ===== *)
(** * UDP sockets (src/udp.c)

    Creation and binding of sockets, receiving, sending and the addresses of a socket,
    for the build on Linux (with [getifaddrs] and [IPV6_TCLASS], without the address of
    the local host among the candidates).  The system calls are a parameter (class
    [UdpCalls]); the counter of [get_next_port_in_range] is the state. *)

From S2P Require Import Prelude CText Addr Effects.
From stdpp Require Import list.
#[local] Open Scope Z_scope.

Definition SEADDRINUSE : Z := 98.
Definition SEACCES : Z := 13.
Definition SECONNRESET : Z := 104.
Definition SENETRESET : Z := 102.
Definition SECONNREFUSED : Z := 111.

(** A null [bind_address] is [None]. *)
Record udp_socket_config_t := { bind_address : option (list Z); port_begin : Z; port_end : Z }.

(** An interface of the list that [getifaddrs] gives. *)
Record ifaddrs := { ifa_name : list Z; ifa_up : bool; ifa_loopback : bool; ifa_addr : option sockaddr }.

Inductive sockopt := IPV6_V6ONLY | IP_MTU_DISCOVER | IPV6_MTU_DISCOVER | SO_RCVBUF | SO_SNDBUF | IP_TOS | IPV6_TCLASS.
Definition IP_PMTUDISC_DO : Z := 2.

Inductive udp_event :=
| SetOption (sock : Z) (opt : sockopt) (value : Z)
| TryBind (sock : Z) (sa : sockaddr)
| SendTo (sock : Z) (data : list Z) (dst : sockaddr)
| CloseSocket (sock : Z).

(** The counter and how many random numbers were drawn. *)
Record udp_t := { count : Z; draws : nat }.
Abbreviation UdpM := (eff udp_t udp_event).

(** The system calls: the addresses to bind to, a socket of a family, the results of
    [ioctlsocket], [bind] (with its error number), [getsockname], [setsockopt] and
    [sendto], the interfaces and the random numbers. *)
Class UdpCalls := {
  bind_addresses : option (list Z) -> option (list addrinfo);
  open_socket : Z -> option Z;
  set_nonblocking : Z -> Z;
  try_bind : Z -> sockaddr -> Z * Z;
  getsockname : Z -> option (sockaddr * Z);
  setsockopt : Z -> sockopt -> Z -> Z;
  sendto : Z -> list Z -> sockaddr -> Z;
  interfaces : option (list ifaddrs);
  juice_rand32 : nat -> Z
}.

Section Udp.
Context `{UdpCalls}.

(** ** Binding *)

Definition find_family (ai_list : list addrinfo) (family : Z) : option addrinfo :=
  List.find (fun ai => sa_family (ai_addr ai) =? family) ai_list.

Definition get_next_port_in_range (begin_ end_ : Z) : UdpM Z :=
  let begin_ := if begin_ =? 0 then 1024 else begin_ in
  let end_ := if end_ =? 0 then 0xFFFF else end_ in
  if begin_ =? end_ then mret begin_
  else
    s ← get;
    let s := if count s =? 0 then {| count := u32 (juice_rand32 (draws s)); draws := S (draws s) |} else s in
    let diff := if begin_ <? end_ then end_ - begin_ else 0 in
    let next := u16 (u32 (begin_ + count s mod (diff + 1))) in
    _ ← put {| count := u32 (count s + 1); draws := draws s |};
    mret next.

(** [bind], with its error number. *)
Definition bind_to (sock : Z) (sa : sockaddr) : UdpM (Z * Z) := _ ← emit (TryBind sock sa); mret (try_bind sock sa).

(** The loop over the ports: the number of tries left after this one. *)
Fixpoint bind_loop (retries : nat) (sock : Z) (sa : sockaddr) (begin_ end_ : Z) : UdpM bool :=
  port ← get_next_port_in_range begin_ end_;
  '(ret, err) ← bind_to sock (addr_set_port sa port).2;
  if ret =? 0 then mret true
  else if (err =? SEADDRINUSE) || (err =? SEACCES) then
    match retries with O => mret false | S retries => bind_loop retries sock sa begin_ end_ end
  else mret false.

Definition bind_socket (config : udp_socket_config_t) (sock : Z) (ai : addrinfo) : UdpM bool :=
  if (port_begin config =? 0) && (port_end config =? 0) then
    '(ret, _) ← bind_to sock (ai_addr ai); mret (ret =? 0)
  else if port_begin config =? port_end config then
    '(ret, _) ← bind_to sock (addr_set_port (ai_addr ai) (port_begin config)).2; mret (ret =? 0)
  else bind_loop (Z.to_nat (port_end config - port_begin config)) sock (ai_addr ai) (port_begin config) (port_end config).

Definition create_socket_for_addrinfo (config : udp_socket_config_t) (ai : addrinfo) : UdpM (option Z) :=
  let inet6 := sa_family (ai_addr ai) =? AF_INET6 in
  match open_socket (sa_family (ai_addr ai)) with
  | None => mret None
  | Some sock =>
      _ ← (if inet6 then emit (SetOption sock IPV6_V6ONLY 0) else mret tt);
      _ ← emit (SetOption sock IP_MTU_DISCOVER IP_PMTUDISC_DO);
      _ ← (if inet6 then emit (SetOption sock IPV6_MTU_DISCOVER IP_PMTUDISC_DO) else mret tt);
      _ ← emit (SetOption sock SO_RCVBUF (1024 * 1024));
      _ ← emit (SetOption sock SO_SNDBUF (1024 * 1024));
      bound ← (if set_nonblocking sock =? 0 then bind_socket config sock ai else mret false);
      if (bound : bool) then mret (Some sock) else _ ← emit (CloseSocket sock); mret None
  end.

(** The loop over the families. *)
Fixpoint create_loop (config : udp_socket_config_t) (ai_list : list addrinfo) (families : list Z) : UdpM (option Z) :=
  match families with
  | [] => mret None
  | f :: families =>
      match find_family ai_list f with
      | None => create_loop config ai_list families
      | Some ai =>
          sock ← create_socket_for_addrinfo config ai;
          match sock with Some _ => mret sock | None => create_loop config ai_list families end
      end
  end.

Definition udp_create_socket (config : udp_socket_config_t) : UdpM (option Z) :=
  match bind_addresses (bind_address config) with
  | None => mret None
  | Some ai_list => create_loop config ai_list [AF_INET6; AF_INET]
  end.

(** ** Receiving *)

(** What successive calls of [recvfrom] give: a datagram with its source or an error
    number.  The datagram (its length is the result) or the error number (the result is
    -1), and the calls that are left; they must not run out. *)
Definition recv_call := (list Z * addr_record_t + Z)%type.
Fixpoint udp_recvfrom (size : nat) (calls : list recv_call) : option (recv_call * list recv_call) :=
  match calls with
  | [] => None
  | inl (data, src) :: calls =>
      let '(_, sa, l) := addr_unmap_inet6_v4mapped (addr src) (len src) in
      Some (inl (take size data, {| addr := sa; len := l; socktype := SOCK_DGRAM |}), calls)
  | inr err :: calls =>
      if (err =? SECONNRESET) || (err =? SENETRESET) || (err =? SECONNREFUSED) then udp_recvfrom size calls
      else Some (inr err, calls)
  end.

(** ** Addresses of a socket *)

Definition udp_get_bound_addr (sock : Z) : option addr_record_t :=
  '(sa, l) ← getsockname sock; Some {| addr := sa; len := l; socktype := SOCK_DGRAM |}.

Definition udp_get_port (sock : Z) : Z :=
  match udp_get_bound_addr sock with None => 0 | Some r => addr_get_port (addr r) end.

(** The conversion both ends of [udp_get_local_addr] make. *)
Definition map_for (family_hint : Z) (r : addr_record_t) : addr_record_t :=
  if (sa_family (addr r) =? AF_INET) && (family_hint =? AF_INET6) then
    let '(_, sa, l) := addr_map_inet6_v4mapped (addr r) (len r) in {| addr := sa; len := l; socktype := socktype r |}
  else r.

(** The address of the local host instead of that of any host. *)
Definition localhost (sa : sockaddr) : sockaddr :=
  match sa with
  | Sin port _ => Sin port [127; 0; 0; 1]
  | Sin6 port _ => Sin6 port (replicate 15 0 ++ [1])
  | SaOther _ => sa
  end.

Definition udp_get_local_addr (sock family_hint : Z) : option addr_record_t :=
  r ← udp_get_bound_addr sock;
  if negb (addr_is_any (addr r)) then Some (map_for family_hint r)
  else
    r ← (if (sa_family (addr r) =? AF_INET6) && (family_hint =? AF_INET) then
           let port := addr_get_port (addr r) in
           if port =? 0 then None
           else Some {| addr := Sin (bswap16 port) [0; 0; 0; 0]; len := sizeof_sockaddr_in; socktype := SOCK_DGRAM |}
         else Some r);
    Some (map_for family_hint {| addr := localhost (addr r); len := len r; socktype := socktype r |}).

(** ** Sending *)

Definition udp_sendto (sock : Z) (data : list Z) (dst : addr_record_t) : UdpM Z :=
  _ ← emit (SendTo sock data (addr dst)); mret (sendto sock data (addr dst)).

Definition udp_sendto_self (sock : Z) (data : list Z) : UdpM Z :=
  match udp_get_local_addr sock AF_UNSPEC with
  | None => mret (-1)
  | Some l =>
      ret ← udp_sendto sock data l;
      if (0 <=? ret) || negb (sa_family (addr l) =? AF_INET6) then mret ret
      else match udp_get_local_addr sock AF_INET with None => mret (-1) | Some l => udp_sendto sock data l end
  end.

Definition set_option (sock : Z) (opt : sockopt) (v : Z) : UdpM Z :=
  _ ← emit (SetOption sock opt v); mret (setsockopt sock opt v).

Definition udp_set_diffserv (sock ds : Z) : UdpM Z :=
  match getsockname sock with
  | None => mret (-1)
  | Some (sa, _) =>
      if sa_family sa =? AF_INET then
        ret ← set_option sock IP_TOS ds; mret (if ret <? 0 then -1 else 0)
      else if sa_family sa =? AF_INET6 then
        ret ← set_option sock IPV6_TCLASS ds;
        if ret <? 0 then mret (-1) else _ ← set_option sock IP_TOS ds; mret 0
      else mret (-1)
  end.

(** ** The addresses of the host *)

(** Whether two addresses are similar: the same address, or the same network. *)
Definition similar (a b : sockaddr) : bool :=
  match a, b with
  | Sin _ x, Sin _ y => bool_decide (take 4 x = take 4 y)
  | Sin6 _ x, Sin6 _ y => bool_decide (take 8 x = take 8 y)
  | _, _ => false
  end.
Definition has_duplicate_addr (sa : sockaddr) (records : list addr_record_t) : bool :=
  existsb (fun r => similar (addr r) sa) records.

(** The tests on an interface: its address, if it can be a candidate of a socket bound
    to an address of the family [family]. *)
Definition interface_addr (family : Z) (i : ifaddrs) : option sockaddr :=
  if negb (ifa_up i) || ifa_loopback i then None
  else if bool_decide (ifa_name i = str "docker0") then None
  else
    sa ← ifa_addr i;
    if ((sa_family sa =? AF_INET) || (sa_family sa =? AF_INET6) && (family =? AF_INET6)) &&
       negb (addr_is_local sa) && (0 <? addr_get_len sa)
    then Some sa else None.

Definition host_record (port : Z) (sa : sockaddr) : addr_record_t :=
  {| addr := (addr_set_port sa port).2; len := addr_get_len sa; socktype := SOCK_DGRAM |}.

(** The loop over the interfaces: the records written so far, within [size], and the
    count. *)
Fixpoint addrs_loop (l : list ifaddrs) (family port : Z) (size : nat) (records : list addr_record_t) (ret : Z)
  : Z * list addr_record_t :=
  match l with
  | [] => (ret, records)
  | i :: l =>
      match interface_addr family i with
      | None => addrs_loop l family port size records ret
      | Some sa =>
          if has_duplicate_addr sa records then addrs_loop l family port size records ret
          else
            addrs_loop l family port size
              (if (length records <? size)%nat then records ++ [host_record port sa] else records) (ret + 1)
      end
  end.

(** The result and the records that are written. *)
Definition udp_get_addrs (sock : Z) (size : nat) : Z * list addr_record_t :=
  match udp_get_bound_addr sock with
  | None => (-1, [])
  | Some bound =>
      if negb (addr_is_any (addr bound)) then (1, if (0 <? size)%nat then [bound] else [])
      else
        match interfaces with
        | None => (-1, [])
        | Some ifas => addrs_loop ifas (sa_family (addr bound)) (addr_get_port (addr bound)) size [] 0
        end
  end.

(** ** The addresses that are gathered *)

(** An address that may be a candidate of a socket bound to an address of [family]: of an
    interface that is up and is neither a loopback interface nor docker0; not a local
    address; IPv4, or IPv6 if the socket is. *)
Definition eligible (family : Z) (i : ifaddrs) (sa : sockaddr) : Prop :=
  ifa_up i = true /\ ifa_loopback i = false /\ ifa_name i <> str "docker0" /\ addr_is_local sa = false /\
  match sa with Sin _ _ => True | Sin6 _ _ => family = AF_INET6 | SaOther _ => False end.
#[global] Instance eligible_dec family i sa : Decision (eligible family i sa).
Proof. unfold eligible. destruct sa; apply _. Defined.

Definition candidate_hosts (family : Z) (ifas : list ifaddrs) : list sockaddr :=
  omap (fun i => sa ← ifa_addr i; if decide (eligible family i sa) then Some sa else None) ifas.

(** The same IPv4 address, or IPv6 addresses with the same 64 bits of network. *)
Definition same_host (a b : sockaddr) : Prop :=
  match a, b with
  | Sin _ x, Sin _ y => take 4 x = take 4 y
  | Sin6 _ x, Sin6 _ y => take 8 x = take 8 y
  | _, _ => False
  end.
#[global] Instance same_host_dec a b : Decision (same_host a b).
Proof. unfold same_host. destruct a, b; apply _. Defined.

(** The first address of each host. *)
Fixpoint first_of_each (l : list sockaddr) : list sockaddr :=
  match l with
  | [] => []
  | sa :: l => sa :: filter (fun x => ~ same_host sa x) (first_of_each l)
  end.

(** The record for an address, with the port of the socket. *)
Definition record_for (port : Z) (sa : sockaddr) : addr_record_t :=
  match sa with
  | Sin _ x => {| addr := Sin (bswap16 port) x; len := sizeof_sockaddr_in; socktype := SOCK_DGRAM |}
  | Sin6 _ x => {| addr := Sin6 (bswap16 port) x; len := sizeof_sockaddr_in6; socktype := SOCK_DGRAM |}
  | SaOther _ => addr_record_zero
  end.

(** The records and the count for these addresses. *)
Record gathered (port : Z) (size : nat) (kept : list sockaddr) (records : list addr_record_t) (ret : Z) : Prop := {
  gathered_records : records = take size (host_record port <$> kept);
  gathered_all : (length kept <= size)%nat -> ret = Z.of_nat (length kept);
  gathered_more : (size < length kept)%nat -> Z.of_nat size < ret
}.

Lemma similar_host a b : similar a b = bool_decide (same_host a b).
Proof. destruct a, b; try done; cbn. all: by rewrite bool_decide_eq_false_2 by (by intros []). Qed.

Lemma same_host_sym a b : same_host a b -> same_host b a.
Proof. destruct a, b; cbn; done. Qed.
Lemma same_host_trans a b c : same_host a b -> same_host b c -> same_host a c.
Proof. destruct a, b, c; cbn; try done; by intros -> ->. Qed.

Lemma host_port a b port : same_host (addr (host_record port a)) b <-> same_host a b.
Proof. by destruct a, b. Qed.

Lemma interface_candidate family i : interface_addr family i = (sa ← ifa_addr i; if decide (eligible family i sa) then Some sa else None).
Proof.
  unfold interface_addr. destruct (ifa_addr i) as [sa|]; cbn [mbind option_bind]; [|by repeat case_match]. case_decide as He; unfold eligible in He.
  - destruct He as (-> & -> & Hd & -> & Hf). cbn. rewrite bool_decide_eq_false_2 by done. destruct sa; [done| |done]. by subst family.
  - destruct (ifa_up i), (ifa_loopback i); try done. cbn. case_bool_decide; [done|]. destruct (addr_is_local sa); [by rewrite andb_false_r|].
    destruct sa as [p x|p x|f]; [by destruct He| |by rewrite andb_false_r]. cbn. destruct (Z.eqb_spec family AF_INET6); [by destruct He|done].
Qed.

(** Adding an address at the end. *)
Lemma first_of_each_snoc l sa : first_of_each (l ++ [sa]) =
  first_of_each l ++ (if decide (Exists (fun x => same_host x sa) l) then [] else [sa]).
Proof.
  induction l as [|x l IH]; cbn [app first_of_each]; [by rewrite decide_False by (by intros ?%Exists_nil)|].
  rewrite IH, filter_app. f_equal. f_equal. destruct (decide (Exists (fun y => same_host y sa) l)) as [Hl|Hl].
  - by rewrite decide_True by (by right).
  - cbn. destruct (decide (~ same_host x sa)) as [Hx|Hx].
    + by rewrite decide_False by (intros [?|?]%Exists_cons; done).
    + rewrite decide_True; [done|]. left. destruct (decide (same_host x sa)); tauto.
Qed.

Lemma first_of_each_host l sa : Exists (fun x => same_host x sa) (first_of_each l) <-> Exists (fun x => same_host x sa) l.
Proof.
  induction l as [|x l IH]; [done|]. cbn [first_of_each]. rewrite !Exists_cons. rewrite <- IH. destruct (decide (same_host x sa)) as [Hx|Hx]; [tauto|].
  split; (intros [?|He]; [by left|right]); rewrite Exists_exists in *.
  - destruct He as (y & [_ Hy]%list_elem_of_filter & Hs). by exists y.
  - destruct He as (y & Hy & Hs). exists y. split; [|done]. apply list_elem_of_filter. split; [|done]. intros Hxy. apply Hx. by eapply same_host_trans.
Qed.

Lemma duplicate_host port size kept sa : has_duplicate_addr sa (take size (host_record port <$> kept)) = true <->
  Exists (fun x => same_host x sa) (take size kept).
Proof.
  rewrite <- fmap_take. unfold has_duplicate_addr. rewrite existsb_exists, Exists_exists. split.
  - intros (r & Hr & Hs). apply list_elem_of_In, list_elem_of_fmap in Hr as (x & -> & Hx). exists x. split; [done|].
    rewrite similar_host in Hs. by apply bool_decide_eq_true, host_port in Hs.
  - intros (x & Hx & Hs). exists (host_record port x). split; [apply list_elem_of_In, list_elem_of_fmap; by exists x|].
    rewrite similar_host. by apply bool_decide_eq_true, host_port.
Qed.

Lemma gathered_skip port size kept records ret : gathered port size kept records ret -> (size < length kept)%nat -> gathered port size kept records (ret + 1).
Proof. intros [H1 H2 H3] Hs. split; [done|lia|]. intros _. specialize (H3 Hs). lia. Qed.

Lemma gathered_keep port size kept records ret sa : gathered port size kept records ret ->
  gathered port size (kept ++ [sa]) (if (length records <? size)%nat then records ++ [host_record port sa] else records) (ret + 1).
Proof.
  intros [-> H2 H3]. rewrite length_take, length_fmap. split; rewrite ?length_app.
  - rewrite fmap_app. destruct (Nat.ltb_spec (size `min` length kept) size).
    + rewrite !take_ge by (rewrite ?length_app, ?length_fmap; cbn; lia). done.
    + rewrite take_app_le by (rewrite length_fmap; lia). done.
  - cbn. intros Hs. rewrite H2 by lia. lia.
  - cbn. intros Hs. destruct (decide (size < length kept)%nat) as [Hk|Hk]; [specialize (H3 Hk); lia|]. rewrite H2 by lia. lia.
Qed.

(** A round of the loop with an address that is not in the records. *)
Lemma gathered_round port size hosts records ret sa : gathered port size (first_of_each hosts) records ret -> has_duplicate_addr sa records = false ->
  gathered port size (first_of_each (hosts ++ [sa])) (if (length records <? size)%nat then records ++ [host_record port sa] else records) (ret + 1).
Proof.
  intros Hg Hd. rewrite first_of_each_snoc. destruct (decide _) as [He|_]; [|by apply gathered_keep]. rewrite app_nil_r.
  rewrite <- first_of_each_host in He. assert (Hs : (size < length (first_of_each hosts))%nat).
  { apply Nat.nle_gt. intros Hle. apply not_true_iff_false in Hd. apply Hd. rewrite (gathered_records _ _ _ _ _ Hg).
    apply duplicate_host. by rewrite take_ge. }
  rewrite (proj2 (Nat.ltb_ge _ _)); [by apply gathered_skip|]. rewrite (gathered_records _ _ _ _ _ Hg), length_take, length_fmap. lia.
Qed.

Lemma addrs_loop_spec family port size l : forall hosts records ret, gathered port size (first_of_each hosts) records ret ->
  gathered port size (first_of_each (hosts ++ candidate_hosts family l)) (addrs_loop l family port size records ret).2 (addrs_loop l family port size records ret).1.
Proof.
  induction l as [|i l IH]; intros hosts records ret Hg; cbn [addrs_loop]; [by rewrite app_nil_r|].
  unfold candidate_hosts. cbn [omap list_omap]. rewrite <- (interface_candidate family i).
  destruct (interface_addr family i) as [sa|]; [|by apply (IH hosts)]. fold (candidate_hosts family l). rewrite cons_middle, app_assoc.
  destruct (has_duplicate_addr sa records) eqn:Hd; apply IH; [|by apply gathered_round].
  rewrite (gathered_records _ _ _ _ _ Hg), duplicate_host in Hd. rewrite first_of_each_snoc, decide_True, app_nil_r; [done|].
  rewrite <- first_of_each_host. rewrite Exists_exists in *. destruct Hd as (x & Hx & Hs). exists x. split; [by eapply subseteq_take|done].
Qed.

Lemma candidate_hosts_inet family ifas sa : sa ∈ candidate_hosts family ifas -> forall port, host_record port sa = record_for port sa.
Proof.
  intros (i & _ & Hsa)%list_elem_of_omap port. destruct (ifa_addr i) as [x|]; [|done]. cbn in Hsa. case_decide as He; [|done]. injection Hsa as ->.
  destruct He as (_ & _ & _ & _ & He). by destruct sa.
Qed.

Lemma first_of_each_elem l x : x ∈ first_of_each l -> x ∈ l.
Proof.
  induction l as [|y l IH]; [done|]. cbn [first_of_each]. intros [->|[_ Hx]%list_elem_of_filter]%elem_of_cons; [by left|right; by apply IH].
Qed.

(** C37: the addresses of a socket that is bound to no particular address are those of
    the interfaces that are up, without the loopback interfaces, docker0 and the local
    addresses, IPv6 ones only for an IPv6 socket: of each IPv4 address and each IPv6
    network of 64 bits the first one, in order, with the port of the socket, as many as
    there is room for.  The result is their number if there is room for all of them, and
    else it is greater than the room. *)
Theorem udp_get_addrs_correct (sock : Z) (size : nat) (sa : sockaddr) (l : Z) (ifas : list ifaddrs)
    (Hb : getsockname sock = Some (sa, l)) (Ha : addr_is_any sa = true) (Hi : interfaces = Some ifas) :
  let kept := first_of_each (candidate_hosts (sa_family sa) ifas) in
  exists ret, udp_get_addrs sock size = (ret, take size (record_for (addr_get_port sa) <$> kept)) /\
    ((length kept <= size)%nat -> ret = Z.of_nat (length kept)) /\ ((size < length kept)%nat -> Z.of_nat size < ret).
Proof.
  intros kept. unfold udp_get_addrs, udp_get_bound_addr. rewrite Hb. cbn. rewrite Ha, Hi. cbn [negb].
  destruct (addrs_loop_spec (sa_family sa) (addr_get_port sa) size ifas [] [] 0) as [G1 G2 G3].
  { split; cbn; [by rewrite take_nil|done|lia]. }
  cbn [app] in G1, G2, G3. exists (addrs_loop ifas (sa_family sa) (addr_get_port sa) size [] 0).1. split; [|done].
  rewrite (surjective_pairing (addrs_loop _ _ _ _ _ _)) at 1. f_equal. rewrite G1. f_equal. unfold kept. apply list_fmap_ext.
  intros k x Hx. apply list_elem_of_lookup_2, first_of_each_elem in Hx. by eapply candidate_hosts_inet.
Qed.

(** ** The ports that are tried *)

Section Ports.
Context (b e : Z) (Hrange : 0 < b /\ b < e /\ e < 65536) (sock : Z) (sa : sockaddr).

(** The port for a value of the counter. *)
Definition port_of (c : Z) : Z := b + c mod (e - b + 1).
Definition free_port (p : Z) : Prop := (try_bind sock (addr_set_port sa p).2).1 = 0.
Definition busy_port (p : Z) : Prop :=
  (try_bind sock (addr_set_port sa p).2).1 <> 0 /\
  ((try_bind sock (addr_set_port sa p).2).2 = SEADDRINUSE \/ (try_bind sock (addr_set_port sa p).2).2 = SEACCES).
Definition tried (ports : list Z) : list udp_event := (fun p => TryBind sock (addr_set_port sa p).2) <$> ports.
Definition ports_from (c : Z) (n : nat) : list Z := (fun k => port_of (c + Z.of_nat k)) <$> seq 0 n.

Lemma port_of_range c : b <= port_of c <= e.
Proof using Hrange. unfold port_of. pose proof (Z.mod_pos_bound c (e - b + 1)). lia. Qed.

(** Where the counter stands: it is drawn when it is 0. *)
Definition counter (s : udp_t) : Z := if count s =? 0 then u32 (juice_rand32 (draws s)) else count s.
Definition counted (s : udp_t) : udp_t :=
  {| count := u32 (counter s + 1); draws := if count s =? 0 then S (draws s) else draws s |}.

Lemma next_port_run s : 0 <= counter s < 2 ^ 32 -> get_next_port_in_range b e s = Some (port_of (counter s), counted s, []).
Proof using Hrange.
  intros Hc. unfold get_next_port_in_range. rewrite (proj2 (Z.eqb_neq b 0)), (proj2 (Z.eqb_neq e 0)), (proj2 (Z.eqb_neq b e)) by lia.
  rewrite bind_get, bind_put. pose proof (port_of_range (counter s)) as Hp. rewrite (proj2 (Z.ltb_lt b e)) by lia.
  assert (Hu : u16 (u32 (port_of (counter s))) = port_of (counter s)).
  { revert Hp. generalize (port_of (counter s)). intros p Hp. unfold u16, u32. rewrite (Z.mod_small p 4294967296), Z.mod_small; lia. }
  unfold counter, counted, counter in *. cbv zeta. unfold port_of in *. destruct (count s =? 0); cbn [count draws] in *.
  all: by rewrite Hu.
Qed.

Lemma counter_next s : 0 <= counter s -> counter s + 1 < 2 ^ 32 -> counter (counted s) = counter s + 1.
Proof.
  intros H0 H1. unfold counter at 1, counted. cbn [count]. assert (Hu : u32 (counter s + 1) = counter s + 1) by (unfold u32; rewrite Z.mod_small; lia).
  rewrite Hu. by rewrite (proj2 (Z.eqb_neq _ 0)) by lia.
Qed.

Lemma ports_from_S c n : ports_from c (S n) = port_of c :: ports_from (c + 1) n.
Proof.
  unfold ports_from. cbn [seq fmap list_fmap]. rewrite Z.add_0_r. f_equal. rewrite <- fmap_S_seq, <- list_fmap_compose.
  apply list_fmap_ext. intros i k _. cbn. f_equal. lia.
Qed.

Lemma bind_to_run x a s : bind_to x a s = Some (try_bind x a, s, [TryBind x a]).
Proof. reflexivity. Qed.

(** What [bind] says of a port: it is free, in use or forbidden, or it fails otherwise. *)
Lemma port_cases p : free_port p \/ busy_port p \/ ~ free_port p /\ ~ busy_port p.
Proof. unfold free_port, busy_port. destruct (try_bind _ _) as [ret err]; cbn. lia. Qed.

(** The loop tries the ports in turn until one is free, or fails otherwise. *)
Lemma bind_loop_spec r : forall s, 0 <= counter s -> counter s + Z.of_nat r < 2 ^ 32 ->
  exists ok s' n, bind_loop r sock sa b e s = Some (ok, s', tried (ports_from (counter s) n)) /\ (0 < n <= S r)%nat /\
    (forall k, (S k < n)%nat -> busy_port (port_of (counter s + Z.of_nat k))) /\
    let last_port := port_of (counter s + Z.of_nat (n - 1)) in
    if ok : bool then free_port last_port
    else n = S r /\ busy_port last_port \/ ~ free_port last_port /\ ~ busy_port last_port.
Proof using Hrange.
  induction r as [|r IH]; intros s Hc Hw; cbn [bind_loop].
  all: rewrite (bind_quiet _ _ _ _ _ (next_port_run s ltac:(lia))), (bind_some _ _ _ _ _ _ (bind_to_run _ _ _)).
  all: assert (Hone : ports_from (counter s) 1 = [port_of (counter s)]) by (unfold ports_from; cbn; by rewrite Z.add_0_r).
  all: destruct (port_cases (port_of (counter s))) as [Hfree|[Hbusy|Hfail] ];
    [ assert (Hf := Hfree); unfold free_port in Hf; destruct (try_bind _ _) as [ret err]; cbn in Hf; subst ret; cbn;
      exists true, (counted s), 1%nat; rewrite Hone; cbn; rewrite Z.add_0_r; (split; [done|]); (split; [lia|]); (split; [lia|done]) | |].
  2,4: assert (Hf := Hfail); unfold free_port, busy_port in Hf; destruct (try_bind _ _) as [ret err]; cbn in Hf |- *;
    rewrite (proj2 (Z.eqb_neq ret 0)), (proj2 (Z.eqb_neq err SEADDRINUSE)), (proj2 (Z.eqb_neq err SEACCES)) by lia; cbn;
    exists false, (counted s), 1%nat; rewrite Hone; cbn; rewrite Z.add_0_r; (split; [done|]); (split; [lia|]); (split; [lia|by right]).
  - assert (Hf := Hbusy); unfold busy_port in Hf; destruct (try_bind _ _) as [ret err]; cbn in Hf |- *. destruct Hf as [Hne Herr].
    rewrite (proj2 (Z.eqb_neq ret 0)) by done. replace ((err =? SEADDRINUSE) || (err =? SEACCES)) with true by (destruct Herr as [->| ->]; done).
    exists false, (counted s), 1%nat. rewrite Hone. cbn. rewrite Z.add_0_r. split; [done|]. split; [lia|]. split; [lia|by left].
  - assert (Hf := Hbusy); unfold busy_port in Hf; destruct (try_bind _ _) as [ret err]; cbn in Hf |- *. destruct Hf as [Hne Herr].
    rewrite (proj2 (Z.eqb_neq ret 0)) by done. replace ((err =? SEADDRINUSE) || (err =? SEACCES)) with true by (destruct Herr as [->| ->]; done).
    pose proof (counter_next s Hc ltac:(lia)) as Hn. destruct (IH (counted s)) as (ok & s' & n & Hr & Hl & Hb & Hok); [lia|lia|].
    rewrite Hr, Hn in *. exists ok, s', (S n). rewrite ports_from_S. cbn zeta in *. split; [done|]. split; [lia|].
    replace (Z.of_nat (S n - 1)) with (1 + Z.of_nat (n - 1)) by lia. rewrite Z.add_assoc. split.
    + intros [|k] Hk; [by rewrite Z.add_0_r|]. replace (counter s + Z.of_nat (S k)) with (counter s + 1 + Z.of_nat k) by lia. apply Hb. lia.
    + destruct ok; [done|]. destruct Hok as [ [-> ?]|?]; [by left|by right].
Qed.

Lemma ports_distinct c n : Z.of_nat n <= e - b + 1 -> NoDup (ports_from c n).
Proof using Hrange.
  intros Hn. unfold ports_from. apply NoDup_fmap_2_strong; [|apply NoDup_seq]. intros x y Hx Hy Heq.
  apply elem_of_seq in Hx, Hy. unfold port_of in Heq. assert (Hd : (c + Z.of_nat x) mod (e - b + 1) = (c + Z.of_nat y) mod (e - b + 1)) by lia.
  rewrite (Z.mod_eq (c + Z.of_nat x)), (Z.mod_eq (c + Z.of_nat y)) in Hd by lia.
  set (q1 := (c + Z.of_nat x) / (e - b + 1)) in *. set (q2 := (c + Z.of_nat y) / (e - b + 1)) in *.
  assert (q1 = q2) by nia. nia.
Qed.

Lemma ports_complete c n : Z.of_nat n = e - b + 1 -> ports_from c n ≡ₚ seqZ b (e - b + 1).
Proof using Hrange.
  intros Hn. apply submseteq_length_Permutation.
  - apply NoDup_submseteq; [apply ports_distinct; lia|]. intros p. unfold ports_from. intros (k & -> & _)%list_elem_of_fmap.
    apply elem_of_seqZ. pose proof (port_of_range (c + Z.of_nat k)). lia.
  - unfold ports_from. rewrite length_seqZ, length_fmap, length_seq. lia.
Qed.
End Ports.

(** The options of a new socket. *)
Definition options (sock family : Z) : list udp_event :=
  (if family =? AF_INET6 then [SetOption sock IPV6_V6ONLY 0] else []) ++ [SetOption sock IP_MTU_DISCOVER IP_PMTUDISC_DO] ++
  (if family =? AF_INET6 then [SetOption sock IPV6_MTU_DISCOVER IP_PMTUDISC_DO] else []) ++
  [SetOption sock SO_RCVBUF (1024 * 1024); SetOption sock SO_SNDBUF (1024 * 1024)].

Lemma create_run config ai s sock ok s' tr : open_socket (sa_family (ai_addr ai)) = Some sock -> set_nonblocking sock = 0 ->
  bind_socket config sock ai s = Some (ok, s', tr) ->
  create_socket_for_addrinfo config ai s =
    Some (if ok then Some sock else None, s', options sock (sa_family (ai_addr ai)) ++ tr ++ if ok then [] else [CloseSocket sock]).
Proof.
  intros Ho Hn Hr. unfold create_socket_for_addrinfo, options. rewrite Ho, Hn.
  change (if 0 =? 0 then bind_socket config sock ai else mret false) with (bind_socket config sock ai).
  destruct (sa_family (ai_addr ai) =? AF_INET6); unfold mbind, eff_bind; cbn; rewrite Hr; by destruct ok; cbn; rewrite ?app_nil_r.
Qed.


(** A range that is open at its end is tried once only. *)
Lemma open_range_tried_once config sock ai s : 0 < port_begin config -> port_end config = 0 ->
  exists ok s' p, bind_socket config sock ai s = Some (ok, s', [TryBind sock (addr_set_port (ai_addr ai) p).2]).
Proof.
  intros Hb He. unfold bind_socket. rewrite He, (proj2 (Z.eqb_neq (port_begin config) 0)) by lia. cbn [andb].
  replace (Z.to_nat (0 - port_begin config)) with O by lia. cbn [bind_loop].
  assert (Hn : exists p s1, get_next_port_in_range (port_begin config) 0 s = Some (p, s1, [])).
  { unfold get_next_port_in_range. cbv zeta. destruct (_ =? _); [by eexists _, _|]. rewrite bind_get, bind_put. by eexists _, _. }
  destruct Hn as (p & s1 & Hp). rewrite (bind_quiet _ _ _ _ _ Hp), (bind_some _ _ _ _ _ _ (bind_to_run _ _ _)).
  destruct (try_bind _ _) as [ret err]. destruct (ret =? 0); [by eexists _, _, p|]. destruct (_ || _); by eexists _, _, p.
Qed.
End Udp.

(** ** A host *)

Definition host_calls : UdpCalls := {|
  bind_addresses := fun _ => Some [ {| ai_socktype := SOCK_DGRAM; ai_addr := Sin 0 [0; 0; 0; 0]; ai_addrlen := 16 |}];
  open_socket := fun _ => Some 5; set_nonblocking := fun _ => 0;
  try_bind := fun _ sa => if addr_get_port sa =? 5003 then (0, 0) else (-1, SEADDRINUSE);
  getsockname := fun _ => Some (Sin6 (bswap16 5003) (replicate 16 0), 28);
  setsockopt := fun _ _ _ => 0; sendto := fun _ data _ => zlen data;
  interfaces := Some [
    {| ifa_name := str "lo"; ifa_up := true; ifa_loopback := true; ifa_addr := Some (Sin 0 [127; 0; 0; 1]) |};
    {| ifa_name := str "eth0"; ifa_up := true; ifa_loopback := false; ifa_addr := Some (Sin 0 [192; 0; 2; 1]) |};
    {| ifa_name := str "eth0"; ifa_up := true; ifa_loopback := false; ifa_addr := Some (Sin6 0 ([32; 1; 13; 184; 0; 0; 0; 1] ++ replicate 8 1)) |};
    {| ifa_name := str "eth0"; ifa_up := true; ifa_loopback := false; ifa_addr := Some (Sin6 0 ([32; 1; 13; 184; 0; 0; 0; 1] ++ replicate 8 2)) |};
    {| ifa_name := str "docker0"; ifa_up := true; ifa_loopback := false; ifa_addr := Some (Sin 0 [172; 17; 0; 1]) |};
    {| ifa_name := str "eth1"; ifa_up := false; ifa_loopback := false; ifa_addr := Some (Sin 0 [192; 0; 2; 2]) |}];
  juice_rand32 := fun _ => 7 |}.
Definition host_config : udp_socket_config_t := {| bind_address := None; port_begin := 5000; port_end := 5004 |}.
Definition host_ai : addrinfo := {| ai_socktype := SOCK_DGRAM; ai_addr := Sin 0 [0; 0; 0; 0]; ai_addrlen := 16 |}.

Lemma udp_get_addrs_correct_witness : exists ret,
  @udp_get_addrs host_calls 5 8 = (ret, [record_for 5003 (Sin 0 [192; 0; 2; 1]); record_for 5003 (Sin6 0 ([32; 1; 13; 184; 0; 0; 0; 1] ++ replicate 8 1))]) /\ ret = 2.
Proof.
  destruct (@udp_get_addrs_correct host_calls 5 8 (Sin6 (bswap16 5003) (replicate 16 0)) 28 _ (eq_refl _) (eq_refl _) (eq_refl _)) as (ret & Hr & Hn & _).
  exists ret. split; [exact Hr|]. apply Hn. vm_compute. lia.
Defined.

