(* ===== verification/Tcp.v ===== *)
(** * ICE-TCP framing (src/tcp.c)

    Datagrams on a stream with the framing of RFC 4571: a length of two bytes and the
    data.  Reading and writing resume where the socket stopped; the context of the
    connection keeps what was read or written.  The stream sockets are given by what
    has arrived and by what the peer's window takes. *)

From S2P Require Import Prelude.
From stdpp Require Import list.
#[local] Open Scope Z_scope.

Definition TCP_ICE_BUFFER_SIZE : Z := 2048.
Definition BUFFER_SIZE : Z := 1024.
Definition SEAGAIN : Z := 11.
Definition SEWOULDBLOCK : Z := 11.
Definition SEMSGSIZE : Z := 90.

Record tcp_ice_write_context_t := {
  w_buffer : list Z;
  w_length : Z;
  bytes_written : Z;
  w_pending : bool
}.

(** [header] is kept as the two bytes it was read as. *)
Record tcp_ice_read_context_t := {
  r_buffer : list Z;
  r_length : Z;
  bytes_read : Z;
  header : list Z;
  r_pending : bool
}.

Definition write_context_zero : tcp_ice_write_context_t :=
  {| w_buffer := replicate 2048 0; w_length := 0; bytes_written := 0; w_pending := false |}.
Definition read_context_zero : tcp_ice_read_context_t :=
  {| r_buffer := replicate 2048 0; r_length := 0; bytes_read := 0; header := [0; 0]; r_pending := false |}.

(** ** Stream sockets *)

(** What a socket has to be read: the bytes that arrived, and then either the end of
    the stream (0) or an error number, [SEAGAIN] when more may come. *)
Record source_t := { arrived : list Z; ending : Z }.

(** [recv] of at most [n] bytes: its result, the bytes, and the error number. *)
Definition recv (n : Z) (s : source_t) : Z * list Z * Z * source_t :=
  match arrived s with
  | [] => if ending s =? 0 then (0, [], 0, s) else (-1, [], ending s, s)
  | _ =>
      let d := take (Z.to_nat n) (arrived s) in
      (zlen d, d, 0, {| arrived := drop (Z.to_nat n) (arrived s); ending := ending s |})
  end.

(** What a socket takes: the number of bytes of each call of [send] to come, none
    when its buffer is full; and what it took. *)
Record sink_t := { window : list nat; sent : list Z }.

Definition send (data : list Z) (s : sink_t) : Z * sink_t :=
  match window s with
  | [] => (-1, s)
  | n :: w =>
      if (n =? 0)%nat then (-1, {| window := w; sent := sent s |})
      else let d := take n data in (zlen d, {| window := w; sent := sent s ++ d |})
  end.

(** Bytes written into an array, within its bounds. *)
Definition store_bytes (buf : list Z) (pos : Z) (d : list Z) : option (list Z) :=
  if (0 <=? pos) && (pos + zlen d <=? zlen buf)
  then Some (take (Z.to_nat pos) buf ++ d ++ drop (Z.to_nat (pos + zlen d)) buf)
  else None.

(** Bytes of an array, within its bounds. *)
Definition load_bytes (buf : list Z) (pos n : Z) : option (list Z) :=
  if (0 <=? pos) && (0 <=? n) && (pos + n <=? zlen buf)
  then Some (take (Z.to_nat n) (drop (Z.to_nat pos) buf))
  else None.

(** ** Writing *)

Definition advance_write (c : tcp_ice_write_context_t) (n : Z) : tcp_ice_write_context_t :=
  {| w_buffer := w_buffer c; w_length := w_length c; bytes_written := u16 (bytes_written c + n);
     w_pending := w_pending c |}.
Definition end_write (c : tcp_ice_write_context_t) : tcp_ice_write_context_t :=
  {| w_buffer := w_buffer c; w_length := w_length c; bytes_written := bytes_written c; w_pending := false |}.

(** The bytes that the next call of [send] is given. *)
Definition next_write (c : tcp_ice_write_context_t) : option (list Z) :=
  if bytes_written c <? 2 then load_bytes (be 2 (w_length c)) (bytes_written c) (2 - bytes_written c)
  else load_bytes (w_buffer c) (bytes_written c - 2) (w_length c - (bytes_written c - 2)).

(** The loop; every round sends a byte at least, so [fuel] need not exceed the length
    of the frame. *)
Fixpoint write_loop (fuel : nat) (c : tcp_ice_write_context_t) (s : sink_t)
  : option (Z * tcp_ice_write_context_t * sink_t) :=
  if w_pending c && (bytes_written c <? 2 + w_length c) then
    match fuel with
    | O => None
    | S fuel' =>
        d ← next_write c;
        let '(len, s) := send d s in
        if len <? 0 then Some (len, c, s) else write_loop fuel' (advance_write c len) s
    end
  else Some (w_length c, end_write c, s).

Definition tcp_ice_write (data : option (list Z)) (c : tcp_ice_write_context_t) (s : sink_t)
  : option (Z * tcp_ice_write_context_t * sink_t) :=
  match data with
  | Some d =>
      if w_pending c then Some (- SEAGAIN, c, s)
      else if TCP_ICE_BUFFER_SIZE <? zlen d then Some (- SEMSGSIZE, c, s)
      else
        buf ← store_bytes (w_buffer c) 0 d;
        let c := {| w_buffer := buf; w_length := u16 (zlen d); bytes_written := 0; w_pending := true |} in
        write_loop (Z.to_nat (3 + w_length c)) c s
  | None => write_loop (Z.to_nat (3 + w_length c)) c s
  end.

(** ** Reading *)

Definition advance_read (c : tcp_ice_read_context_t) (n : Z) : tcp_ice_read_context_t :=
  let read := u16 (bytes_read c + n) in
  let len := if read =? 2 then unbe (header c) else r_length c in
  {| r_buffer := r_buffer c; r_length := len; bytes_read := if len =? 0 then 0 else read; header := header c;
     r_pending := r_pending c |}.
Definition set_header (c : tcp_ice_read_context_t) (h : list Z) : tcp_ice_read_context_t :=
  {| r_buffer := r_buffer c; r_length := r_length c; bytes_read := bytes_read c; header := h; r_pending := r_pending c |}.
Definition set_r_buffer (c : tcp_ice_read_context_t) (b : list Z) : tcp_ice_read_context_t :=
  {| r_buffer := b; r_length := r_length c; bytes_read := bytes_read c; header := header c; r_pending := r_pending c |}.
Definition set_r_pending (c : tcp_ice_read_context_t) (b : bool) : tcp_ice_read_context_t :=
  {| r_buffer := r_buffer c; r_length := r_length c; bytes_read := bytes_read c; header := header c; r_pending := b |}.

(** One call of [recv]: into the header, into the buffer, or into bytes that are
    dropped when the datagram is longer than the buffer. *)
Definition read_step (c : tcp_ice_read_context_t) (s : source_t) : option (Z * Z * tcp_ice_read_context_t * source_t) :=
  if bytes_read c <? 2 then
    let '(len, d, err, s) := recv (2 - bytes_read c) s in
    h ← store_bytes (header c) (bytes_read c) d;
    Some (len, err, set_header c h, s)
  else if bytes_read c <? 2 + TCP_ICE_BUFFER_SIZE then
    let length := if TCP_ICE_BUFFER_SIZE <? r_length c then TCP_ICE_BUFFER_SIZE else r_length c in
    let '(len, d, err, s) := recv (length - (bytes_read c - 2)) s in
    b ← store_bytes (r_buffer c) (bytes_read c - 2) d;
    Some (len, err, set_r_buffer c b, s)
  else
    let size := r_length c - (bytes_read c - 2) in
    let '(len, _, err, s) := recv (if BUFFER_SIZE <? size then BUFFER_SIZE else size) s in
    Some (len, err, c, s).

(** The loop; every round but the last takes a byte that arrived, which bounds
    [fuel]. *)
Fixpoint read_loop (fuel : nat) (c : tcp_ice_read_context_t) (s : source_t)
  : option (Z * tcp_ice_read_context_t * source_t) :=
  if bytes_read c <? 2 + r_length c then
    match fuel with
    | O => None
    | S fuel' =>
        '(len, err, c, s) ← read_step c s;
        if len <? 0 then Some (- err, c, s)
        else if len =? 0 then Some (0, c, s)
        else read_loop fuel' (advance_read c len) s
    end
  else if 0 <? r_length c then Some (r_length c, set_r_pending c false, s)
  else None.

Definition tcp_ice_read (c : tcp_ice_read_context_t) (s : source_t)
  : option (Z * tcp_ice_read_context_t * source_t) :=
  let c := if r_pending c then c
           else {| r_buffer := r_buffer c; r_length := 0; bytes_read := 0; header := header c; r_pending := true |} in
  read_loop (S (length (arrived s))) c s.

(** ** Arrays *)

Lemma store_bytes_ok buf pos d : 0 <= pos -> pos + zlen d <= zlen buf ->
  exists buf', store_bytes buf pos d = Some buf' /\ zlen buf' = zlen buf /\
    take (Z.to_nat pos) buf' = take (Z.to_nat pos) buf /\
    take (Z.to_nat (pos + zlen d)) buf' = take (Z.to_nat pos) buf ++ d.
Proof.
  intros Hp Hl. unfold store_bytes. rewrite (proj2 (Z.leb_le _ _)), (proj2 (Z.leb_le _ _)) by lia. cbn [andb].
  pose proof (zlen_nonneg d). assert (Hn : length (take (Z.to_nat pos) buf) = Z.to_nat pos).
  { rewrite length_take. unfold zlen in *. lia. }
  eexists. split; [done|]. split; [|split].
  - rewrite !zlen_app, zlen_take, zlen_drop. lia.
  - by rewrite take_app_length'.
  - rewrite app_assoc. apply take_app_length'. rewrite length_app, Hn. unfold zlen. lia.
Qed.

Lemma load_bytes_ok buf pos n : 0 <= pos -> 0 <= n -> pos + n <= zlen buf ->
  load_bytes buf pos n = Some (take (Z.to_nat n) (drop (Z.to_nat pos) buf)).
Proof. intros Hp Hn Hl. unfold load_bytes. by rewrite !(proj2 (Z.leb_le _ _)) by lia. Qed.

(** ** Frames *)

(** A datagram on the stream. *)
Definition frame (d : list Z) : list Z := be 2 (zlen d) ++ d.

Lemma be2_length v : length (be 2 v) = 2%nat.
Proof. done. Qed.
Lemma frame_length d : length (frame d) = (2 + length d)%nat.
Proof. unfold frame. by rewrite length_app. Qed.
Lemma frame_zlen d : zlen (frame d) = 2 + zlen d.
Proof. unfold zlen. rewrite frame_length. lia. Qed.

(** ** Writing *)

(** The frame of [d] is being written, and its first [k] bytes are. *)
Record writing (c : tcp_ice_write_context_t) (d : list Z) (k : nat) : Prop := {
  wr_pending : w_pending c = true;
  wr_length : w_length c = zlen d;
  wr_written : bytes_written c = Z.of_nat k;
  wr_room : zlen (w_buffer c) = TCP_ICE_BUFFER_SIZE;
  wr_data : take (length d) (w_buffer c) = d;
  wr_size : zlen d <= TCP_ICE_BUFFER_SIZE;
  wr_within : (k <= length (frame d))%nat
}.

Lemma next_write_spec c d k : writing c d k -> (k < length (frame d))%nat ->
  exists n, next_write c = Some (take n (drop k (frame d))) /\ (0 < n)%nat /\ (k + n <= length (frame d))%nat.
Proof.
  intros [Hp Hl Hw Hr Hd Hs _] Hk. rewrite frame_length in Hk. unfold next_write. rewrite Hl, Hw. unfold TCP_ICE_BUFFER_SIZE in *.
  destruct (Z.of_nat k <? 2) eqn:E; [apply Z.ltb_lt in E|apply Z.ltb_ge in E].
  - exists (2 - k)%nat. rewrite load_bytes_ok by (unfold zlen; rewrite ?be2_length; lia). split; [|rewrite frame_length; lia].
    f_equal. unfold frame. rewrite drop_app_le by (rewrite be2_length; lia).
    rewrite take_app_le by (rewrite length_drop, be2_length; lia). f_equal; [lia|f_equal; lia].
  - exists (2 + length d - k)%nat. rewrite load_bytes_ok by (unfold zlen in *; lia). split; [|rewrite frame_length; lia].
    f_equal. unfold frame. rewrite drop_app_ge by (rewrite be2_length; lia). rewrite be2_length.
    assert (Hdd : drop (k - 2) d = take (2 + length d - k) (drop (k - 2) (w_buffer c))).
    { rewrite take_drop_commute. replace (k - 2 + (2 + length d - k))%nat with (length d) by lia. by rewrite Hd. }
    rewrite Hdd, take_take, Nat.min_id. f_equal; [unfold zlen; lia|f_equal; lia].
Qed.

Lemma advance_writing c d k n : writing c d k -> (k + n <= length (frame d))%nat -> writing (advance_write c (Z.of_nat n)) d (k + n).
Proof.
  intros [Hp Hl Hw Hr Hd Hs _] Hk. pose proof (frame_length d). split; cbn; try done.
  rewrite Hw. unfold u16, TCP_ICE_BUFFER_SIZE, zlen in *. rewrite Z.mod_small; lia.
Qed.

(** The loop sends the frame from where it is, in order and without gaps, until it is
    complete or the socket takes no more. *)
Lemma write_loop_spec d : forall (fuel k : nat) c s, writing c d k -> (length (frame d) < k + fuel)%nat ->
  exists ret c' s' k', write_loop fuel c s = Some (ret, c', s') /\ (k <= k' <= length (frame d))%nat /\
    sent s' = sent s ++ take (k' - k) (drop k (frame d)) /\
    ((ret = zlen d /\ k' = length (frame d) /\ c' = end_write c' /\ zlen (w_buffer c') = TCP_ICE_BUFFER_SIZE) \/
     (ret = -1 /\ writing c' d k' /\ (k' < length (frame d))%nat)).
Proof.
  induction fuel as [|fuel IH]; intros k c s Hc Hf; [pose proof (wr_within _ _ _ Hc); lia|].
  cbn [write_loop]. rewrite (wr_pending _ _ _ Hc), (wr_length _ _ _ Hc), (wr_written _ _ _ Hc). cbn [andb].
  pose proof (frame_length d) as Hfl. destruct (Z.of_nat k <? 2 + zlen d) eqn:E.
  2: { apply Z.ltb_ge in E. pose proof (wr_within _ _ _ Hc). assert (k = length (frame d)) by (unfold zlen in *; lia).
       exists (zlen d), (end_write c), s, k. split; [done|]. split; [lia|]. rewrite Nat.sub_diag, app_nil_r. split; [done|].
       left. split; [done|]. split; [done|]. split; [done|apply Hc]. }
  apply Z.ltb_lt in E. assert (Hk : (k < length (frame d))%nat) by (unfold zlen in *; lia).
  destruct (next_write_spec c d k Hc Hk) as (n & -> & Hn & Hkn). cbn [mbind option_bind].
  unfold send. destruct (window s) as [|m w].
  { exists (-1), c, s, k. split; [done|]. split; [lia|]. rewrite Nat.sub_diag, app_nil_r. split; [done|]. by right. }
  destruct (m =? 0)%nat eqn:Em.
  { exists (-1), c, {| window := w; sent := sent s |}, k. split; [done|]. split; [lia|]. rewrite Nat.sub_diag, app_nil_r. split; [done|]. by right. }
  apply Nat.eqb_neq in Em. rewrite take_take. set (j := Nat.min m n).
  assert (Hj : length (take j (drop k (frame d))) = j) by (rewrite length_take, length_drop; lia).
  unfold zlen. rewrite Hj, (proj2 (Z.ltb_ge _ _)) by lia.
  destruct (IH (k + j)%nat (advance_write c (Z.of_nat j)) {| window := w; sent := sent s ++ take j (drop k (frame d)) |})
    as (ret & c' & s' & k' & Hr & Hk' & Hs & Hcase); [apply advance_writing; [done|lia]|lia|].
  exists ret, c', s', k'. split; [exact Hr|]. split; [lia|]. split; [|done]. rewrite Hs. cbn [sent]. rewrite <- app_assoc. f_equal.
  rewrite <- (take_drop j (take (k' - k) (drop k (frame d)))), take_take, Nat.min_l by lia. f_equal.
  rewrite skipn_firstn_comm, drop_drop. f_equal. lia.
Qed.

(** C25: a datagram goes out as one RFC 4571 frame, however little the socket takes at a
    time.  [tcp_ice_write] with a datagram of at most 2048 bytes and no datagram
    pending starts its frame; each call, with or without data, sends a piece that
    continues the frame exactly, and either completes it and returns its length, or
    returns -1 with the rest kept for the next call; it never fails otherwise.  While
    a datagram is pending a new one is refused and nothing is sent, as is one that is
    longer than the buffer. *)
Theorem tcp_ice_write_frames :
  (forall c d s, w_pending c = false -> zlen (w_buffer c) = TCP_ICE_BUFFER_SIZE -> zlen d <= TCP_ICE_BUFFER_SIZE ->
    exists ret c' s' k, tcp_ice_write (Some d) c s = Some (ret, c', s') /\ sent s' = sent s ++ take k (frame d) /\
      (ret = zlen d /\ k = length (frame d) /\ w_pending c' = false /\ zlen (w_buffer c') = TCP_ICE_BUFFER_SIZE \/
       ret = -1 /\ writing c' d k)) /\
  (forall c d k s, writing c d k ->
    exists ret c' s' k', tcp_ice_write None c s = Some (ret, c', s') /\ (k <= k')%nat /\
      sent s' = sent s ++ take (k' - k) (drop k (frame d)) /\
      (ret = zlen d /\ k' = length (frame d) /\ w_pending c' = false /\ zlen (w_buffer c') = TCP_ICE_BUFFER_SIZE \/
       ret = -1 /\ writing c' d k')) /\
  (forall c d k d' s, writing c d k -> tcp_ice_write (Some d') c s = Some (- SEAGAIN, c, s)) /\
  (forall c d s, w_pending c = false -> TCP_ICE_BUFFER_SIZE < zlen d -> tcp_ice_write (Some d) c s = Some (- SEMSGSIZE, c, s)).
Proof.
  split; [|split; [|split] ].
  - intros c d s Hp Hb Hd. unfold tcp_ice_write. rewrite Hp, (proj2 (Z.ltb_ge _ _)) by lia.
    destruct (store_bytes_ok (w_buffer c) 0 d) as (buf & -> & Hl & _ & Ht); [lia|lia|]. cbn [mbind option_bind].
    pose proof (zlen_nonneg d). assert (Hu : u16 (zlen d) = zlen d) by (unfold u16, TCP_ICE_BUFFER_SIZE in *; rewrite Z.mod_small; lia).
    rewrite Hu. cbn [w_length]. destruct (write_loop_spec d (Z.to_nat (3 + zlen d)) 0
      {| w_buffer := buf; w_length := zlen d; bytes_written := 0; w_pending := true |} s) as (ret & c' & s' & k & Hr & Hk & Hs & Hcase).
    + split; cbn; try done; [congruence|unfold zlen in Ht; replace (Z.to_nat (0 + Z.of_nat (length d))) with (length d) in Ht by lia; done|lia].
    + rewrite frame_length. unfold zlen. lia.
    + exists ret, c', s', k. split; [exact Hr|]. rewrite Nat.sub_0_r, drop_0 in Hs. split; [done|].
      destruct Hcase as [(-> & -> & Hc & ?)|(-> & ? & _)]; [left|by right]. split; [done|]. split; [done|]. split; [by rewrite Hc|done].
  - intros c d k s Hc. unfold tcp_ice_write. rewrite (wr_length _ _ _ Hc).
    destruct (write_loop_spec d (Z.to_nat (3 + zlen d)) k c s Hc) as (ret & c' & s' & k' & Hr & Hk & Hs & Hcase);
      [rewrite frame_length; unfold zlen; lia|].
    exists ret, c', s', k'. split; [exact Hr|]. split; [lia|]. split; [done|].
    destruct Hcase as [(-> & -> & Hc' & ?)|(-> & ? & _)]; [left|by right]. split; [done|]. split; [done|]. split; [by rewrite Hc'|done].
  - intros c d k d' s Hc. unfold tcp_ice_write. by rewrite (wr_pending _ _ _ Hc).
  - intros c d s Hp Hd. unfold tcp_ice_write. rewrite Hp. by rewrite (proj2 (Z.ltb_lt _ _)).
Qed.

(** A datagram that the socket takes in pieces, over two calls. *)
Definition slow_sink : sink_t := {| window := [1; 2; 0]%nat; sent := [] |}.
Lemma slow_write : (fun x => x.1.1) <$> tcp_ice_write (Some [7; 8; 9]) write_context_zero slow_sink = Some (-1).
Proof. vm_compute. reflexivity. Qed.

Lemma tcp_ice_write_frames_witness : exists c' s' k,
  tcp_ice_write (Some [7; 8; 9]) write_context_zero slow_sink = Some (-1, c', s') /\ sent s' = take k [0; 3; 7; 8; 9] /\
  exists ret c2 s2 k2, tcp_ice_write None c' {| window := [2; 9]%nat; sent := sent s' |} = Some (ret, c2, s2) /\
    sent s2 = sent s' ++ take (k2 - k) (drop k [0; 3; 7; 8; 9]).
Proof.
  destruct tcp_ice_write_frames as (H1 & H2 & _).
  destruct (H1 write_context_zero [7; 8; 9] slow_sink) as (ret & c' & s' & k & Hr & Hs & Hc); [reflexivity|reflexivity|discriminate|].
  pose proof slow_write as Hw. rewrite Hr in Hw. injection Hw as ->. destruct Hc as [(Hc & _)|[_ Hw] ]; [discriminate|].
  destruct (H2 _ _ _ {| window := [2; 9]%nat; sent := sent s' |} Hw) as (ret2 & c2 & s2 & k2 & Hr2 & _ & Hs2 & _).
  exists c', s', k. split; [exact Hr|]. split; [exact Hs|]. exists ret2, c2, s2, k2. split; [exact Hr2|exact Hs2].
Defined.

(** ** Reading *)

(** A context between datagrams. *)
Record fresh (c : tcp_ice_read_context_t) : Prop := {
  fr_state : r_pending c = false \/ (bytes_read c = 0 /\ r_length c = 0);
  fr_room : zlen (r_buffer c) = TCP_ICE_BUFFER_SIZE;
  fr_header : length (header c) = 2%nat
}.

(** The first [k] bytes of the frame of [d] were read. *)
Definition reading (c : tcp_ice_read_context_t) (d : list Z) (k : nat) : Prop :=
  match k with
  | O => fresh c
  | _ => (2 <= k < length (frame d))%nat /\ r_pending c = true /\ r_length c = zlen d /\ bytes_read c = Z.of_nat k /\
         take (k - 2) (r_buffer c) = take (k - 2) d /\ zlen (r_buffer c) = TCP_ICE_BUFFER_SIZE /\ length (header c) = 2%nat
  end.

Definition datagram (d : list Z) : Prop := 0 < zlen d <= TCP_ICE_BUFFER_SIZE.

(** What is kept of the data, when [n] bytes of it were read. *)
Definition holds (c : tcp_ice_read_context_t) (d : list Z) (n : nat) : Prop :=
  r_pending c = true /\ r_length c = zlen d /\ bytes_read c = 2 + Z.of_nat n /\
  take n (r_buffer c) = take n d /\ zlen (r_buffer c) = TCP_ICE_BUFFER_SIZE /\ length (header c) = 2%nat.

Lemma reading_holds c d n : reading c d (S (S n)) <-> (n < length d)%nat /\ holds c d n.
Proof.
  unfold reading, holds. rewrite frame_length. replace (S (S n) - 2)%nat with n by lia. replace (Z.of_nat (S (S n))) with (2 + Z.of_nat n) by lia.
  split; [intros (? & H); split; [lia|done]|intros (? & H); split; [lia|done] ].
Qed.

(** One call of [recv] for the data. *)
Lemma data_step d c n got more e : datagram d -> holds c d n -> (n < length d)%nat -> got <> [] ->
  (more = [] \/ n + length got = length d)%nat -> (exists rest, drop n d = got ++ rest) ->
  exists c1, read_step c {| arrived := got ++ more; ending := e |} = Some (zlen got, 0, c1, {| arrived := more; ending := e |}) /\
    holds (advance_read c1 (zlen got)) d (n + length got).
Proof.
  intros [Hd1 Hd2] (Hp & Hl & Hb & Ht & Hr & Hh) Hn Hg Hm [rest Hrest]. unfold TCP_ICE_BUFFER_SIZE in *.
  assert (Hlen : (n + length got <= length d)%nat) by (apply (f_equal length) in Hrest; rewrite length_drop, length_app in Hrest; lia).
  assert (Hg0 : (0 < length got)%nat) by (destruct got; [done|cbn; lia]).
  unfold read_step. rewrite Hb, Hl. unfold TCP_ICE_BUFFER_SIZE. rewrite (proj2 (Z.ltb_ge _ 2)) by lia.
  rewrite (proj2 (Z.ltb_lt _ (2 + 2048))), (proj2 (Z.ltb_ge 2048 _)) by (unfold zlen in *; lia).
  replace (2 + Z.of_nat n - 2) with (Z.of_nat n) by lia. unfold recv. cbn [arrived ending].
  assert (Htk : take (Z.to_nat (zlen d - Z.of_nat n)) (got ++ more) = got /\ drop (Z.to_nat (zlen d - Z.of_nat n)) (got ++ more) = more).
  { unfold zlen. destruct Hm as [-> |Hm]; [rewrite app_nil_r, take_ge, drop_ge by lia; done|].
    replace (Z.to_nat (Z.of_nat (length d) - Z.of_nat n)) with (length got) by lia. by rewrite take_app_length, drop_app_length. }
  destruct Htk as [-> ->]. destruct (got ++ more) as [|b l] eqn:E; [apply app_eq_nil in E as [? _]; done|]. clear E b l.
  destruct (store_bytes_ok (r_buffer c) (Z.of_nat n) got) as (buf & -> & Hbl & _ & Hbt); [lia|unfold zlen in *; lia|].
  cbn [mbind option_bind]. eexists. split; [done|]. unfold holds, advance_read. cbn [set_r_buffer r_buffer r_length bytes_read header r_pending].
  rewrite Hb, Hl. assert (Hu : u16 (2 + Z.of_nat n + zlen got) = 2 + Z.of_nat (n + length got)) by (unfold u16, zlen in *; rewrite Z.mod_small; lia).
  rewrite Hu, (proj2 (Z.eqb_neq _ 2)), (proj2 (Z.eqb_neq (zlen d) 0)) by lia. do 3 (split; [done|]). split; [|split; [rewrite Hbl; assumption|done] ].
  replace (Z.to_nat (Z.of_nat n + zlen got)) with (n + length got)%nat in Hbt by (unfold zlen; lia).
  by rewrite Hbt, Nat2Z.id, Ht, <- take_take_drop, Hrest, take_app_length.
Qed.

(** The data is there as far as it goes: the call stops for want of it ... *)
Lemma read_blocks d c n got rest fuel : datagram d -> reading c d (S (S n)) -> drop n d = got ++ rest -> rest <> [] ->
  (length got < fuel)%nat ->
  exists c', read_loop fuel c {| arrived := got; ending := SEAGAIN |} = Some (- SEAGAIN, c', {| arrived := []; ending := SEAGAIN |}) /\
    reading c' d (S (S (n + length got))).
Proof.
  intros Hd Hc Hdr Hr Hf. apply reading_holds in Hc as [Hn Hc].
  assert (Hlen : (n + length got < length d)%nat).
  { apply (f_equal length) in Hdr. rewrite length_drop, length_app in Hdr. destruct rest; [done|cbn in Hdr; lia]. }
  assert (Hstop : forall c1 m fuel, holds c1 d m -> (m < length d)%nat -> exists c', reading c' d (S (S m)) /\
    read_loop (S fuel) c1 {| arrived := []; ending := SEAGAIN |} = Some (- SEAGAIN, c', {| arrived := []; ending := SEAGAIN |})).
  { intros c1 m fuel' H1 Hm. pose proof H1 as (Hp & Hl & Hb & Ht & Hrm & Hh). destruct Hd as [Hd1 Hd2]. unfold TCP_ICE_BUFFER_SIZE in *.
    cbn [read_loop]. unfold read_step. rewrite Hb, Hl, (proj2 (Z.ltb_lt _ _)), (proj2 (Z.ltb_ge _ 2)) by (unfold zlen; lia).
    unfold TCP_ICE_BUFFER_SIZE. rewrite (proj2 (Z.ltb_lt _ (2 + 2048))) by (unfold zlen in *; lia). cbn [recv arrived ending].
    destruct (store_bytes_ok (r_buffer c1) (2 + Z.of_nat m - 2) []) as (buf & Hs & Hbl & _ & Hbt); [lia|change (zlen []) with 0; unfold zlen in *; lia|].
    unfold recv. cbn [arrived ending]. change (SEAGAIN =? 0) with false. cbn iota. rewrite Hs. cbn [mbind option_bind].
    eexists. split; [|done]. apply reading_holds. split; [done|]. unfold holds. cbn [set_r_buffer r_buffer r_length bytes_read header r_pending].
    do 3 (split; [done|]). split; [|split; [rewrite Hbl; assumption|done] ]. change (zlen []) with 0 in Hbt.
    replace (Z.to_nat (2 + Z.of_nat m - 2 + 0)) with m in Hbt by lia. rewrite Hbt, app_nil_r. replace (Z.to_nat (2 + Z.of_nat m - 2)) with m by lia. done. }
  destruct fuel as [|fuel]; [lia|]. destruct got as [|b l] eqn:E.
  { rewrite Nat.add_0_r. destruct (Hstop c n fuel Hc Hn) as (c' & H1 & H2). by exists c'. }
  rewrite <- E in *. destruct (data_step d c n got [] SEAGAIN Hd Hc Hn) as (c1 & Hs & Hh); [by rewrite E|by left|by exists rest|].
  rewrite app_nil_r in Hs. cbn [read_loop]. destruct Hc as (Hp & Hl & Hb & _). rewrite Hb, Hl, (proj2 (Z.ltb_lt _ _)) by (unfold zlen; lia).
  rewrite Hs. cbn [mbind option_bind]. assert (0 < zlen got) by (rewrite E, zlen_cons; pose proof (zlen_nonneg l); lia).
  rewrite (proj2 (Z.ltb_ge _ 0)), (proj2 (Z.eqb_neq _ 0)) by lia.
  destruct fuel as [|fuel]; [rewrite E in Hf; cbn in Hf; lia|]. destruct (Hstop _ _ fuel Hh Hlen) as (c' & H1 & H2). by exists c'.
Qed.

(** ... or it is complete. *)
Lemma read_completes d c n more fuel e : datagram d -> reading c d (S (S n)) -> (1 < fuel)%nat ->
  exists c', read_loop fuel c {| arrived := drop n d ++ more; ending := e |} = Some (zlen d, c', {| arrived := more; ending := e |}) /\
    fresh c' /\ load_bytes (r_buffer c') 0 (zlen d) = Some d.
Proof.
  intros Hd Hc Hf. apply reading_holds in Hc as [Hn Hc].
  assert (Hl : length (drop n d) = (length d - n)%nat) by apply length_drop.
  destruct (data_step d c n (drop n d) more e Hd Hc Hn) as (c1 & Hs & Hh);
    [intros E; rewrite E in Hl; cbn in Hl; lia|right; lia|exists []; by rewrite app_nil_r|].
  destruct fuel as [|[|fuel] ]; [lia|lia|]. cbn [read_loop]. destruct Hc as (_ & Hlc & Hb & _).
  rewrite Hb, Hlc, (proj2 (Z.ltb_lt _ _)) by (unfold zlen; lia). rewrite Hs. cbn [mbind option_bind].
  assert (0 < zlen (drop n d)) by (unfold zlen; lia). rewrite (proj2 (Z.ltb_ge _ 0)), (proj2 (Z.eqb_neq _ 0)) by lia.
  destruct Hh as (Hp & Hl2 & Hb2 & Ht2 & Hr2 & Hh2). rewrite Hb2, Hl2, (proj2 (Z.ltb_ge _ _)) by (unfold zlen; lia).
  destruct Hd as [Hd1 Hd2]. rewrite (proj2 (Z.ltb_lt 0 _)) by lia. eexists. split; [done|]. split; [by split; [left| |]|].
  cbn [set_r_pending r_buffer]. rewrite load_bytes_ok by lia. f_equal. change (Z.to_nat 0) with 0%nat. rewrite drop_0.
  replace (n + length (drop n d))%nat with (length d) in Ht2 by lia. unfold zlen. rewrite Nat2Z.id. transitivity (take (length d) d); [exact Ht2|by apply take_ge].
Qed.

(** A call begins. *)
Definition begin_read (c : tcp_ice_read_context_t) : tcp_ice_read_context_t :=
  if r_pending c then c
  else {| r_buffer := r_buffer c; r_length := 0; bytes_read := 0; header := header c; r_pending := true |}.

Lemma begin_fresh c : fresh c -> r_pending (begin_read c) = true /\ bytes_read (begin_read c) = 0 /\ r_length (begin_read c) = 0 /\
  zlen (r_buffer (begin_read c)) = TCP_ICE_BUFFER_SIZE /\ length (header (begin_read c)) = 2%nat.
Proof.
  intros [Hs Hr Hh]. unfold begin_read. destruct (r_pending c) eqn:E; [destruct Hs as [?|[? ?] ]; [done|]|]; by split_and!.
Qed.

(** The header of a datagram, when both of its bytes are there. *)
Lemma header_step c d l e fuel : datagram d -> fresh c ->
  exists c1, read_loop (S fuel) (begin_read c) {| arrived := be 2 (zlen d) ++ l; ending := e |} =
    read_loop fuel c1 {| arrived := l; ending := e |} /\ reading c1 d 2.
Proof.
  intros [Hd1 Hd2] Hc. destruct (begin_fresh c Hc) as (Hp & Hb & Hl & Hr & Hh). unfold TCP_ICE_BUFFER_SIZE in *.
  destruct (store_bytes_ok (header (begin_read c)) 0 (be 2 (zlen d))) as (h & Hs & Hhl & _ & Hht);
    [lia|unfold zlen; rewrite Hh, be2_length; lia|].
  assert (Hh2 : h = be 2 (zlen d)).
  { change (zlen (be 2 (zlen d))) with 2 in Hht. change (Z.to_nat (0 + 2)) with 2%nat in Hht. rewrite take_ge in Hht; [exact Hht|].
    unfold zlen in Hhl. lia. }
  cbn [read_loop]. unfold read_step. rewrite Hb, Hl. cbn [Z.ltb Z.compare Z.add Z.sub]. unfold recv. cbn [arrived ending].
  assert (Htk : take (Z.to_nat (2 - 0)) (be 2 (zlen d) ++ l) = be 2 (zlen d) /\ drop (Z.to_nat (2 - 0)) (be 2 (zlen d) ++ l) = l) by done.
  destruct (be 2 (zlen d) ++ l) as [|b l0] eqn:E; [done|]. destruct Htk as [-> ->]. rewrite Hs, Hh2. cbn [mbind option_bind].
  change (zlen (be 2 (zlen d))) with 2. cbn [Z.ltb Z.eqb Z.compare]. eexists. split; [done|].
  apply (reading_holds _ d 0). split; [unfold zlen in Hd1; lia|]. unfold holds, advance_read. cbn [set_header r_buffer r_length bytes_read header r_pending].
  rewrite Hb, Hl. change (u16 (0 + 2)) with 2. cbn [Z.eqb Pos.eqb]. rewrite unbe_be_small by (change (256 ^ Z.of_nat 2) with 65536; lia).
  rewrite (proj2 (Z.eqb_neq (zlen d) 0)) by lia. by split_and!.
Qed.

(** A call of [tcp_ice_read] on the rest of a frame. *)
Lemma read_call_completes c d k more e : datagram d -> reading c d k -> (k < length (frame d))%nat ->
  exists c', tcp_ice_read c {| arrived := drop k (frame d) ++ more; ending := e |} = Some (zlen d, c', {| arrived := more; ending := e |}) /\
    fresh c' /\ load_bytes (r_buffer c') 0 (zlen d) = Some d.
Proof.
  intros Hd Hc Hk. unfold tcp_ice_read. fold (begin_read c). cbn [arrived]. destruct k as [|[|k] ].
  - rewrite drop_0. unfold frame. rewrite <- app_assoc.
    destruct (header_step c d (d ++ more) e (length (be 2 (zlen d) ++ d ++ more)) Hd Hc) as (c1 & -> & H1).
    apply (read_completes d c1 0 more); [done|done|]. rewrite length_app, be2_length. lia.
  - destruct Hc as [? _]. lia.
  - assert (begin_read c = c) as -> by (unfold begin_read; destruct Hc as (_ & -> & _); done).
    replace (drop (S (S k)) (frame d)) with (drop k d) by done.
    apply (read_completes d c k more); [done|done|]. apply reading_holds in Hc as [Hn _]. rewrite length_app, length_drop. lia.
Qed.

Lemma read_call_blocks c d k got rest : datagram d -> reading c d k -> drop k (frame d) = got ++ rest -> rest <> [] ->
  (k + length got <> 1)%nat ->
  exists c', tcp_ice_read c {| arrived := got; ending := SEAGAIN |} = Some (- SEAGAIN, c', {| arrived := []; ending := SEAGAIN |}) /\
    reading c' d (k + length got).
Proof.
  intros Hd Hc Hdr Hr H1. unfold tcp_ice_read. fold (begin_read c). cbn [arrived]. destruct k as [|[|k] ].
  - rewrite drop_0 in Hdr. destruct got as [|a [|b got] ]; [|cbn in H1; lia|].
    + destruct (begin_fresh c Hc) as (Hp & Hb & Hl & Hrm & Hh). cbn [length read_loop]. unfold read_step. rewrite Hb, Hl.
      cbn [Z.ltb Z.compare Z.add Z.sub]. unfold recv. cbn [arrived ending]. change (SEAGAIN =? 0) with false. cbn iota.
      destruct (store_bytes_ok (header (begin_read c)) 0 []) as (h & -> & Hhl & _); [lia|change (zlen []) with 0; unfold zlen; lia|].
      cbn [mbind option_bind]. eexists. split; [done|]. split; [right; done|done|]. cbn [set_header header]. unfold zlen in Hhl. lia.
    + unfold frame in Hdr. assert (Hab : [a; b] = be 2 (zlen d) /\ d = got ++ rest).
      { change (a :: b :: got) with ([a; b] ++ got) in Hdr. rewrite <- app_assoc in Hdr. apply app_inj_1 in Hdr as [-> ->]; done. }
      destruct Hab as [Hab Hd']. change (a :: b :: got) with ([a; b] ++ got). rewrite Hab.
      destruct (header_step c d got SEAGAIN (length (be 2 (zlen d) ++ got)) Hd Hc) as (c1 & -> & Hc1).
      rewrite length_app, be2_length. apply (read_blocks d c1 0 got rest); [done|done|by rewrite drop_0|done|lia].
  - destruct Hc as [? _]. lia.
  - assert (begin_read c = c) as -> by (unfold begin_read; destruct Hc as (_ & -> & _); done).
    replace (drop (S (S k)) (frame d)) with (drop k d) in Hdr by done.
    destruct (read_blocks d c k got rest (S (length got)) Hd Hc Hdr Hr) as (c' & Hrun & Hc'); [lia|]. by exists c'.
Qed.

(** ** Datagrams over a stream *)

(** The calls until one does not give a datagram. *)
Fixpoint read_all (fuel : nat) (c : tcp_ice_read_context_t) (s : source_t)
  : option (list (list Z) * Z * tcp_ice_read_context_t * source_t) :=
  match fuel with
  | O => None
  | S fuel' =>
      '(ret, c, s) ← tcp_ice_read c s;
      if ret <=? 0 then Some ([], ret, c, s)
      else
        d ← load_bytes (r_buffer c) 0 ret;
        '(ds, ret, c, s) ← read_all fuel' c s;
        Some (d :: ds, ret, c, s)
  end.

(** The bytes arrive in chunks; after each, what is there is read. *)
Fixpoint deliver (c : tcp_ice_read_context_t) (chunks : list (list Z)) : option (list (list Z) * tcp_ice_read_context_t) :=
  match chunks with
  | [] => Some ([], c)
  | l :: chunks =>
      '(ds, _, c, _) ← read_all (S (length l)) c {| arrived := l; ending := SEAGAIN |};
      '(ds', c) ← deliver c chunks;
      Some (ds ++ ds', c)
  end.

Definition stream (ds : list (list Z)) : list Z := concat (frame <$> ds).

(** The place of byte [n] of the stream: the datagrams before it, the offset in the
    frame it is in, and the datagrams from there on. *)
Fixpoint locate (ds : list (list Z)) (n : nat) : list (list Z) * nat * list (list Z) :=
  match ds with
  | [] => ([], O, [])
  | d :: ds' =>
      if (n <? length (frame d))%nat then ([], n, ds)
      else let '(done, k, rest) := locate ds' (n - length (frame d)) in (d :: done, k, rest)
  end.

(** A chunk ends inside a header when one byte of it was read. *)
Definition splits_header (ds : list (list Z)) (n : nat) : bool := ((locate ds n).1.2 =? 1)%nat.

Fixpoint ends (n : nat) (chunks : list (list Z)) : list nat :=
  match chunks with [] => [] | l :: chunks => (n + length l)%nat :: ends (n + length l) chunks end.

Definition position (c : tcp_ice_read_context_t) (ds : list (list Z)) (k : nat) : Prop :=
  match ds with [] => k = O /\ fresh c | d :: _ => reading c d k /\ (k < length (frame d))%nat end.

Lemma fresh_position c ds : fresh c -> position c ds 0.
Proof. intros Hc. destruct ds as [|d ds]; [done|]. split; [done|]. rewrite frame_length. lia. Qed.

Lemma read_nothing c : fresh c -> exists c', tcp_ice_read c {| arrived := []; ending := SEAGAIN |} =
  Some (- SEAGAIN, c', {| arrived := []; ending := SEAGAIN |}) /\ fresh c'.
Proof.
  intros Hc. destruct (read_call_blocks c [0] 0 [] (frame [0])) as (c' & Hr & Hc'); [by vm_compute|done|done|done|done|]. by exists c'.
Qed.

Lemma read_all_spec ds : Forall datagram ds -> forall k c l fuel, position c ds k -> (length l < fuel)%nat ->
  (exists rest, drop k (stream ds) = l ++ rest) -> splits_header ds (k + length l) = false ->
  exists c', read_all fuel c {| arrived := l; ending := SEAGAIN |} =
      Some ((locate ds (k + length l)).1.1, - SEAGAIN, c', {| arrived := []; ending := SEAGAIN |}) /\
    position c' (locate ds (k + length l)).2 (locate ds (k + length l)).1.2.
Proof.
  induction 1 as [|d ds Hd Hds IH]; intros k c l fuel Hp Hf [rest Hrest] Hs; (destruct fuel as [|fuel]; [lia|]); cbn [read_all].
  { change (stream []) with (@nil Z) in Hrest. rewrite drop_nil in Hrest. symmetry in Hrest. apply app_eq_nil in Hrest as [-> ->]. destruct Hp as [-> Hc].
    destruct (read_nothing c Hc) as (c' & -> & Hc'). by exists c'. }
  destruct Hp as [Hc Hk]. unfold splits_header in Hs. cbn [locate] in *. unfold stream in Hrest. cbn [fmap list_fmap concat] in Hrest. fold (stream ds) in Hrest.
  rewrite drop_app_le in Hrest by lia. assert (Hlen : length (drop k (frame d)) = (length (frame d) - k)%nat) by apply length_drop.
  destruct (k + length l <? length (frame d))%nat eqn:E; cbn [fst snd] in *.
  - apply Nat.ltb_lt in E. apply Nat.eqb_neq in Hs.
    assert (Hpre : drop k (frame d) = l ++ drop (length l) (drop k (frame d))).
    { rewrite <- (take_drop (length l) (drop k (frame d))) at 1. f_equal. apply (f_equal (take (length l))) in Hrest.
      rewrite take_app_le in Hrest by lia. by rewrite take_app_length in Hrest. }
    destruct (read_call_blocks c d k l _ Hd Hc Hpre) as (c' & -> & Hc'); [|lia|].
    { intros Hn. apply (f_equal length) in Hn. rewrite length_drop, Hlen in Hn. change (length (@nil Z)) with 0%nat in Hn. lia. }
    cbn [mbind option_bind]. exists c'. split; [done|]. split; [done|lia].
  - apply Nat.ltb_ge in E.
    assert (Hl : l = drop k (frame d) ++ drop (length (drop k (frame d))) l).
    { rewrite <- (take_drop (length (drop k (frame d))) l) at 1. f_equal. apply (f_equal (take (length (drop k (frame d))))) in Hrest.
      rewrite take_app_length in Hrest. rewrite take_app_le in Hrest by lia. done. }
    set (l' := drop (length (drop k (frame d))) l) in *. assert (Hl' : length l' = (length l - (length (frame d) - k))%nat) by (unfold l'; rewrite length_drop; lia).
    rewrite Hl. destruct (read_call_completes c d k l' SEAGAIN Hd Hc Hk) as (c' & -> & Hc' & Hload). cbn [mbind option_bind].
    pose proof (proj1 Hd). rewrite (proj2 (Z.leb_gt _ _)), Hload by lia. cbn [mbind option_bind].
    replace (k + length (drop k (frame d) ++ l') - length (frame d))%nat with (length l') by (rewrite length_app; lia).
    replace (k + length l - length (frame d))%nat with (length l') in Hs by lia.
    destruct (IH 0%nat c' l' fuel) as (c2 & -> & Hp2).
    + by apply fresh_position.
    + rewrite frame_length in *. lia.
    + exists rest. rewrite drop_0. rewrite Hl, <- app_assoc in Hrest. by apply app_inv_head in Hrest.
    + cbn [Nat.add]. unfold splits_header. by destruct (locate ds (length l')) as [ [? ?] ?].
    + cbn [Nat.add mbind option_bind] in *. destruct (locate ds (length l')) as [ [done k'] ds'] eqn:El. exists c2. cbn [fst snd] in *.
      done.
Qed.

Lemma locate_add ds : forall n m, locate ds (n + m) =
  ((locate ds n).1.1 ++ (locate (locate ds n).2 ((locate ds n).1.2 + m)).1.1,
   (locate (locate ds n).2 ((locate ds n).1.2 + m)).1.2, (locate (locate ds n).2 ((locate ds n).1.2 + m)).2).
Proof.
  induction ds as [|d ds IH]; intros n m; [done|]. cbn [locate]. destruct (n <? length (frame d))%nat eqn:E; cbn [fst snd app].
  - cbn [locate]. destruct (n + m <? length (frame d))%nat; [done|]. by destruct (locate ds _) as [ [? ?] ?].
  - apply Nat.ltb_ge in E. rewrite (proj2 (Nat.ltb_ge _ _)) by lia. replace (n + m - length (frame d))%nat with (n - length (frame d) + m)%nat by lia.
    rewrite IH. by destruct (locate ds (n - length (frame d))) as [ [done k] rest].
Qed.

Lemma locate_all ds : forall n, (locate ds n).1.1 ++ (locate ds n).2 = ds.
Proof.
  induction ds as [|d ds IH]; intros n; [done|]. cbn [locate]. destruct (n <? length (frame d))%nat; [done|].
  specialize (IH (n - length (frame d))%nat). destruct (locate ds _) as [ [done k] rest]. cbn in *. by f_equal.
Qed.

Lemma locate_stream ds : forall n, drop (locate ds n).1.2 (stream (locate ds n).2) = drop n (stream ds).
Proof.
  induction ds as [|d ds IH]; intros n; [unfold stream; cbn; by rewrite drop_nil|]. cbn [locate]. destruct (n <? length (frame d))%nat eqn:E; [done|].
  apply Nat.ltb_ge in E. specialize (IH (n - length (frame d))%nat). destruct (locate ds _) as [ [done k] rest]. cbn [fst snd] in *.
  rewrite IH. unfold stream at 2. cbn [fmap list_fmap concat]. rewrite drop_app_ge by done. done.
Qed.

Lemma ends_shift ds n chunks : forall a, Forall (fun e => splits_header ds e = false) (ends (n + a) chunks) ->
  Forall (fun e => splits_header (locate ds n).2 e = false) (ends ((locate ds n).1.2 + a) chunks).
Proof.
  induction chunks as [|l chunks IH]; intros a He; [done|]. cbn [ends] in *. apply Forall_cons in He as [He Hes].
  rewrite <- Nat.add_assoc in He, Hes |- *. constructor; [|by apply IH]. unfold splits_header in *. by rewrite locate_add in He.
Qed.

Lemma deliver_spec chunks : forall ds k c, Forall datagram ds -> position c ds k -> drop k (stream ds) = concat chunks ->
  Forall (fun e => splits_header ds e = false) (ends k chunks) -> exists c', deliver c chunks = Some (ds, c').
Proof.
  induction chunks as [|l chunks IH]; intros ds k c Hds Hp Hst He; cbn [deliver].
  - exists c. destruct ds as [|d ds]; [done|]. destruct Hp as [_ Hk]. apply (f_equal length) in Hst.
    unfold stream in Hst. cbn [fmap list_fmap concat] in Hst. rewrite length_drop, length_app in Hst. change (length (@nil Z)) with 0%nat in Hst. lia.
  - cbn [ends concat] in *. apply Forall_cons in He as [He Hes].
    destruct (read_all_spec ds Hds k c l (S (length l)) Hp) as (c' & -> & Hp'); [lia|by exists (concat chunks)|done|]. cbn [mbind option_bind].
    destruct (IH (locate ds (k + length l)).2 (locate ds (k + length l)).1.2 c') as (c2 & ->).
    + rewrite <- (locate_all ds (k + length l)) in Hds. by apply Forall_app in Hds as [_ ?].
    + exact Hp'.
    + rewrite locate_stream, <- drop_drop, Hst. by rewrite drop_app_length.
    + rewrite <- (Nat.add_0_r (locate ds (k + length l)).1.2). apply ends_shift. by rewrite Nat.add_0_r.
    + cbn [mbind option_bind]. exists c2. by rewrite locate_all.
Qed.

(** C16: datagrams cross a stream unchanged and in order: whatever the chunks in which
    the frames of datagrams of 1 to 2048 bytes arrive, the calls of [tcp_ice_read]
    after each chunk give exactly these datagrams, provided that no chunk ends between
    the two bytes of a length. *)
Theorem tcp_ice_roundtrip ds chunks : Forall datagram ds -> concat chunks = concat (frame <$> ds) ->
  Forall (fun e => splits_header ds e = false) (ends 0 chunks) ->
  exists c, deliver read_context_zero chunks = Some (ds, c).
Proof.
  intros Hds Hc He. apply (deliver_spec chunks ds 0); [done| |by rewrite drop_0|done].
  apply fresh_position. split; [by left|by vm_compute|done].
Qed.

Lemma tcp_ice_roundtrip_witness : exists c, deliver read_context_zero [[0; 2; 5]; [6; 0]  ++ [3; 7]; []; [8; 9]] = Some ([[5; 6]; [7; 8; 9]], c).
Proof.
  apply (tcp_ice_roundtrip [[5; 6]; [7; 8; 9]]).
  - repeat constructor; by vm_compute.
  - reflexivity.
  - repeat constructor.
Defined.

(** A round of the loop. *)
Lemma read_loop_step fuel c s len err c1 s1 : bytes_read c < 2 + r_length c -> read_step c s = Some (len, err, c1, s1) ->
  read_loop (S fuel) c s = if len <? 0 then Some (- err, c1, s1) else if len =? 0 then Some (0, c1, s1)
                           else read_loop fuel (advance_read c1 len) s1.
Proof. intros Hb Hs. cbn [read_loop]. rewrite (proj2 (Z.ltb_lt _ _) Hb), Hs. done. Qed.

(** [recv] for a header of which nothing was read. *)
Lemma header_recv c s : bytes_read c = 0 -> read_step c s =
  (let '(len, d, err, s) := recv 2 s in h ← store_bytes (header c) 0 d; Some (len, err, set_header c h, s)).
Proof. intros Hb. unfold read_step. by rewrite Hb. Qed.

(** The first byte of a length that arrives alone is dropped. *)
Lemma split_header_dropped c b : fresh c -> exists c', fresh c' /\
  tcp_ice_read c {| arrived := [b]; ending := SEAGAIN |} = Some (- SEAGAIN, c', {| arrived := []; ending := SEAGAIN |}).
Proof.
  intros Hc. destruct (begin_fresh c Hc) as (Hp & Hb & Hl & Hr & Hh). unfold tcp_ice_read. fold (begin_read c). cbn [arrived length].
  destruct (store_bytes_ok (header (begin_read c)) 0 [b]) as (h & Hs & Hhl & _ & _); [lia|change (zlen [b]) with 1; unfold zlen; lia|].
  rewrite (read_loop_step 1 _ _ 1 0 (set_header (begin_read c) h) {| arrived := []; ending := SEAGAIN |});
    [|lia|rewrite header_recv by done;
     change (recv 2 _) with (1, [b], 0, {| arrived := []; ending := SEAGAIN |}); cbv iota beta; by rewrite Hs].
  cbn [Z.ltb Z.eqb Z.compare]. set (c1 := advance_read _ 1).
  assert (H1 : bytes_read c1 = 0 /\ r_length c1 = 0 /\ r_buffer c1 = r_buffer (begin_read c) /\ header c1 = h).
  { unfold c1, advance_read. cbn [set_header r_buffer r_length bytes_read header r_pending]. by rewrite Hb, Hl. }
  destruct H1 as (Hb1 & Hl1 & Hr1 & Hh1).
  destruct (store_bytes_ok (header c1) 0 []) as (h2 & Hs2 & Hhl2 & _); [lia|change (zlen []) with 0; pose proof (zlen_nonneg (header c1)); lia|].
  rewrite (read_loop_step 0 _ _ (-1) SEAGAIN (set_header c1 h2) {| arrived := []; ending := SEAGAIN |});
    [|lia|rewrite header_recv by done;
     change (recv 2 _) with (-1, @nil Z, SEAGAIN, {| arrived := []; ending := SEAGAIN |}); cbv iota beta; by rewrite Hs2].
  eexists. split; [|done]. split; [right; split; [exact Hb1|exact Hl1]|rewrite <- Hr; cbn [set_header r_buffer]; by rewrite Hr1|].
  cbn [set_header header]. rewrite Hh1 in Hhl2. unfold zlen in *. lia.
Qed.

(** The reader loses step with the stream when the two bytes of a length arrive one
    after the other: the first byte of a frame that arrives alone is thrown away, and
    the context is as before it.  Two datagrams that are read correctly from one chunk
    are lost when the chunk is cut after its first byte. *)
Theorem tcp_ice_read_loses_split_header :
  (forall c b, fresh c -> exists c', fresh c' /\
     tcp_ice_read c {| arrived := [b]; ending := SEAGAIN |} = Some (- SEAGAIN, c', {| arrived := []; ending := SEAGAIN |})) /\
  fst <$> deliver read_context_zero [[0; 3; 1; 2; 3; 0; 1; 4]] = Some [[1; 2; 3]; [4]] /\
  fst <$> deliver read_context_zero [[0]; [3; 1; 2; 3; 0; 1; 4]] = Some [].
Proof. split; [intros; by apply split_header_dropped|]. split; vm_compute; reflexivity. Qed.

Lemma tcp_ice_read_loses_split_header_witness : exists c', fresh c' /\
  tcp_ice_read read_context_zero {| arrived := [5]; ending := SEAGAIN |} = Some (- SEAGAIN, c', {| arrived := []; ending := SEAGAIN |}).
Proof.
  apply (proj1 tcp_ice_read_loses_split_header read_context_zero 5).
  split; [left; reflexivity|vm_compute; reflexivity|reflexivity].
Defined.

(** ** Any stream *)

(** What a context is, whatever was read. *)
Record read_ok (c : tcp_ice_read_context_t) : Prop := {
  rk_room : zlen (r_buffer c) = TCP_ICE_BUFFER_SIZE;
  rk_header : length (header c) = 2%nat /\ bytes (header c);
  rk_length : 0 <= r_length c < 65536;
  rk_read : 0 <= bytes_read c < 65536;
  rk_empty : r_length c = 0 -> bytes_read c = 0
}.

Lemma bytes_store buf pos d buf' : bytes buf -> bytes d -> store_bytes buf pos d = Some buf' -> bytes buf'.
Proof.
  intros Hb Hd. unfold store_bytes. destruct (_ && _); [|done]. intros [= <-].
  apply Forall_app. split; [by apply Forall_take|]. apply Forall_app. split; [done|by apply Forall_drop].
Qed.

(** What [recv] returns, when something is asked for. *)
Lemma recv_cases n s : 0 < n -> 0 <= ending s ->
  (exists err, recv n s = (if ending s =? 0 then 0 else -1, [], err, s) /\ arrived s = [] /\ err = ending s) \/
  (exists d rest, recv n s = (zlen d, d, 0, {| arrived := rest; ending := ending s |}) /\ arrived s = d ++ rest /\ 0 < zlen d <= n).
Proof.
  intros Hn He. unfold recv. destruct (arrived s) as [|b l] eqn:E.
  - left. exists (ending s). split; [|done]. destruct (ending s =? 0) eqn:E0; [apply Z.eqb_eq in E0; by rewrite E0|done].
  - right. exists (take (Z.to_nat n) (b :: l)), (drop (Z.to_nat n) (b :: l)). split; [done|]. split; [by rewrite take_drop|].
    rewrite zlen_take, zlen_cons. pose proof (zlen_nonneg l). lia.
Qed.

Lemma read_ok_header c h : read_ok c -> length h = 2%nat -> bytes h -> read_ok (set_header c h).
Proof. intros [] ? ?. by split. Qed.
Lemma read_ok_buffer c b : read_ok c -> zlen b = TCP_ICE_BUFFER_SIZE -> read_ok (set_r_buffer c b).
Proof. intros [] ?. by split. Qed.
Lemma read_ok_advance c n : read_ok c -> read_ok (advance_read c n).
Proof.
  intros [H1 [H2 H2'] H3 H4 H5]. pose proof (unbe_bound (header c) H2') as Hu. unfold zlen in Hu. rewrite H2 in Hu. change (256 ^ Z.of_nat 2) with 65536 in Hu.
  assert (0 <= u16 (bytes_read c + n) < 65536) by (unfold u16; apply Z.mod_pos_bound; lia).
  split; cbn; try done; [destruct (_ =? 2); lia| |by intros ->]. destruct (_ =? 0); lia.
Qed.

(** One call of [recv] is within the bounds of what it writes to. *)
Lemma read_step_ok c s : read_ok c -> bytes (arrived s) -> 0 <= ending s -> bytes_read c < 2 + r_length c ->
  exists len err c1 s1, read_step c s = Some (len, err, c1, s1) /\ read_ok c1 /\ bytes (arrived s1) /\ ending s1 = ending s /\ 0 <= err /\
    (len <= 0 \/ (length (arrived s1) < length (arrived s))%nat).
Proof.
  intros Hc Hb He Hlt. pose proof Hc as [H1 [H2 H2'] H3 H4 H5]. unfold read_step. unfold TCP_ICE_BUFFER_SIZE, BUFFER_SIZE in *.
  assert (Hrest : forall d rest, arrived s = d ++ rest -> 0 < zlen d -> bytes d /\ bytes rest /\ (length rest < length (arrived s))%nat).
  { intros d rest Ha Hz. rewrite Ha in Hb. apply Forall_app in Hb as [Hd Hr]. do 2 (split; [done|]). rewrite Ha, length_app. unfold zlen in Hz. lia. }
  assert (Hnil : (if ending s =? 0 then 0 else -1) <= 0) by (destruct (_ =? 0); lia).
  destruct (bytes_read c <? 2) eqn:E1; [apply Z.ltb_lt in E1|apply Z.ltb_ge in E1].
  - destruct (recv_cases (2 - bytes_read c) s) as [(err & -> & _ & ->)|(d & rest & -> & Ha & Hd)]; [lia|done|..].
    + destruct (store_bytes_ok (header c) (bytes_read c) []) as (h & Hs & Hl & _); [lia|change (zlen []) with 0; unfold zlen; lia|].
      rewrite Hs. cbn [mbind option_bind]. eexists _, _, _, _. split; [done|]. split; [|do 3 (split; [done|]); by left].
      apply read_ok_header; [done|unfold zlen in Hl; lia|eapply bytes_store; [exact H2'|constructor|exact Hs] ].
    + destruct (Hrest d rest Ha) as (Hbd & Hbr & Hlen); [lia|].
      destruct (store_bytes_ok (header c) (bytes_read c) d) as (h & Hs & Hl & _); [lia|unfold zlen in *; lia|].
      rewrite Hs. cbn [mbind option_bind]. eexists _, _, _, _. split; [done|]. split; [|do 3 (split; [done|]); by right].
      apply read_ok_header; [done|unfold zlen in Hl; lia|eapply bytes_store; [exact H2'|exact Hbd|exact Hs] ].
  - destruct (bytes_read c <? 2 + 2048) eqn:E2; [apply Z.ltb_lt in E2|].
    + set (room := if 2048 <? r_length c then 2048 else r_length c).
      assert (Hroom : bytes_read c - 2 < room <= 2048) by (unfold room; destruct (2048 <? r_length c) eqn:E3; lia).
      destruct (recv_cases (room - (bytes_read c - 2)) s) as [(err & -> & _ & ->)|(d & rest & -> & Ha & Hd)]; [lia|done|..].
      * destruct (store_bytes_ok (r_buffer c) (bytes_read c - 2) []) as (b & Hs & Hl & _); [lia|change (zlen []) with 0; lia|].
        rewrite Hs. cbn [mbind option_bind]. eexists _, _, _, _. split; [done|]. split; [|do 3 (split; [done|]); by left].
        apply read_ok_buffer; [done|unfold TCP_ICE_BUFFER_SIZE; lia].
      * destruct (Hrest d rest Ha) as (Hbd & Hbr & Hlen); [lia|].
        destruct (store_bytes_ok (r_buffer c) (bytes_read c - 2) d) as (b & Hs & Hl & _); [lia|lia|].
        rewrite Hs. cbn [mbind option_bind]. eexists _, _, _, _. split; [done|]. split; [|do 3 (split; [done|]); by right].
        apply read_ok_buffer; [done|unfold TCP_ICE_BUFFER_SIZE; lia].
    + set (size := r_length c - (bytes_read c - 2)). assert (Hsize : 0 < size) by (unfold size; lia).
      destruct (recv_cases (if 1024 <? size then 1024 else size) s) as [(err & -> & _ & ->)|(d & rest & -> & Ha & Hd)];
        [destruct (1024 <? size); lia|done|..].
      * eexists _, _, _, _. split; [done|]. do 4 (split; [done|]). by left.
      * destruct (Hrest d rest Ha) as (Hbd & Hbr & Hlen); [lia|]. eexists _, _, _, _. split; [done|]. do 4 (split; [done|]). by right.
Qed.

Lemma tcp_read_loop_ok : forall fuel c s, read_ok c -> bytes (arrived s) -> 0 <= ending s -> (length (arrived s) < fuel)%nat ->
  exists ret c' s', read_loop fuel c s = Some (ret, c', s') /\ read_ok c' /\ (ret <= 0 \/ ret = r_length c').
Proof.
  induction fuel as [|fuel IH]; intros c s Hc Hb He Hf; [lia|].
  destruct (Z.lt_ge_cases (bytes_read c) (2 + r_length c)) as [Hlt|Hge].
  - destruct (read_step_ok c s Hc Hb He Hlt) as (len & err & c1 & s1 & Hs & Hc1 & Hb1 & He1 & Hlen).
    rewrite (read_loop_step _ _ _ _ _ _ _ Hlt Hs). destruct (len <? 0) eqn:E1.
    { eexists _, _, _. split; [done|]. split; [done|]. left. lia. }
    apply Z.ltb_ge in E1. destruct (len =? 0) eqn:E2; [by eexists _, _, _; split; [done|]; split; [done|left]|]. apply Z.eqb_neq in E2.
    apply IH; [by apply read_ok_advance|done|lia|lia].
  - cbn [read_loop]. rewrite (proj2 (Z.ltb_ge _ _) Hge). pose proof Hc as [H1 H2 H3 H4 H5].
    assert (0 < r_length c) by (destruct (Z.eq_dec (r_length c) 0) as [Hz|]; [specialize (H5 Hz); lia|lia]).
    rewrite (proj2 (Z.ltb_lt _ _)) by done. eexists _, _, _. split; [done|]. split; [by split|by right].
Qed.

(** C26: whatever arrives on the stream, in whatever pieces, [tcp_ice_read] writes only
    within its header and its buffer, never fails its assertion and always ends, with a
    context it can go on from. *)
Theorem tcp_ice_read_safe c s : read_ok c -> bytes (arrived s) -> 0 <= ending s ->
  exists ret c' s', tcp_ice_read c s = Some (ret, c', s') /\ read_ok c' /\ (ret <= 0 \/ ret = r_length c').
Proof.
  intros Hc Hb He. unfold tcp_ice_read. apply tcp_read_loop_ok; [|done|done|lia].
  destruct (r_pending c); [done|]. destruct Hc as [H1 H2 H3 H4 H5]. by split.
Qed.

Lemma tcp_ice_read_safe_witness :
  exists ret c' s', tcp_ice_read read_context_zero {| arrived := [255; 255; 1; 2]; ending := 0 |} = Some (ret, c', s') /\ read_ok c'.
Proof.
  destruct (tcp_ice_read_safe read_context_zero {| arrived := [255; 255; 1; 2]; ending := 0 |}) as (ret & c' & s' & Hr & Hc & _).
  - split; [vm_compute; reflexivity|split; [reflexivity|apply bytes_forallb; reflexivity]|vm_compute; split; [discriminate|reflexivity]|
      vm_compute; split; [discriminate|reflexivity]|reflexivity].
  - apply bytes_forallb. reflexivity.
  - vm_compute. discriminate.
  - exists ret, c', s'. split; [exact Hr|exact Hc].
Defined.

(** A frame that is longer than the buffer is reported with its full length. *)
Definition long_frame : list Z := be 2 3000 ++ replicate 3000 7.
Lemma long_frame_read :
  match tcp_ice_read read_context_zero {| arrived := long_frame; ending := SEAGAIN |} with
  | Some (ret, c, _) => ret = 3000 /\ zlen (r_buffer c) = 2048 /\ load_bytes (r_buffer c) 0 ret = None
  | None => False
  end.
Proof. vm_compute. by split_and!. Qed.
