(* ===== verification/MuxMap.v ===== *)
(** * The address map of the mux mode (src/conn_mux.c)

    One socket serves many agents: the map tells which agent the datagrams of a
    remote address belong to.  It is an open-addressing table with deleted marks.
    The file has the table as the code has it, the invariant of its probe
    sequences, and its specification: a partial function from addresses to agents. *)

From S2P Require Import Prelude Addr.

Definition INITIAL_MAP_SIZE : nat := 16.

(** A pointer to an agent. *)
Definition agent_ptr := positive.

Inductive map_entry_type_t :=
| MAP_ENTRY_TYPE_EMPTY
| MAP_ENTRY_TYPE_DELETED
| MAP_ENTRY_TYPE_FULL.

#[global] Instance map_entry_type_eq_dec : EqDecision map_entry_type_t.
Proof. solve_decision. Defined.

Record map_entry_t := {
  me_type : map_entry_type_t;
  me_agent : option agent_ptr;
  me_record : addr_record_t
}.

(** An entry of an array that [calloc] returns. *)
Definition map_entry_zero : map_entry_t :=
  {| me_type := MAP_ENTRY_TYPE_EMPTY; me_agent := None; me_record := addr_record_zero |}.

(** The fields [map] and [map_count] of the registry; [map_size] is the length of
    the array. *)
Record addr_map_t := { map : list map_entry_t; map_count : Z }.

Definition map_size (m : addr_map_t) : Z := zlen (map m).

Definition new_map (size : nat) : addr_map_t := {| map := replicate size map_entry_zero; map_count := 0 |}.

(** ** Operations *)

(** The loop of [find_map_entry] from [pos]; [Some None] is NULL. *)
Fixpoint find_map_loop (fuel : nat) (entries : list map_entry_t) (record : addr_record_t) (allow_deleted : bool)
    (key pos : Z) : option (option nat) :=
  match fuel with
  | O => None
  | S fuel' =>
      entry ← entries !! Z.to_nat pos;
      if bool_decide (me_type entry = MAP_ENTRY_TYPE_EMPTY) ||
         addr_record_is_equal (me_record entry) record true
      then Some (Some (Z.to_nat pos))
      else if bool_decide (me_type entry = MAP_ENTRY_TYPE_DELETED) && allow_deleted
      then Some (Some (Z.to_nat pos))
      else
        let pos := (pos + 1) mod zlen entries in
        if pos =? key then Some None else find_map_loop fuel' entries record allow_deleted key pos
  end.

Definition find_map_entry (m : addr_map_t) (record : addr_record_t) (allow_deleted : bool) : option (option nat) :=
  if map_size m =? 0 then None
  else
    let key := addr_record_hash record false mod map_size m in
    find_map_loop (length (map m)) (map m) record allow_deleted key key.

Definition is_full (e : map_entry_t) : bool := bool_decide (me_type e = MAP_ENTRY_TYPE_FULL).

(** The loop of [grow_map] over the old array. *)
Fixpoint insert_all (insert : addr_map_t -> addr_record_t -> option agent_ptr -> option (Z * addr_map_t))
    (old : list map_entry_t) (m : addr_map_t) : option addr_map_t :=
  match old with
  | [] => Some m
  | e :: old =>
      if is_full e then '(_, m) ← insert m (me_record e) (me_agent e); insert_all insert old m
      else insert_all insert old m
  end.

Definition grow_map (insert : addr_map_t -> addr_record_t -> option agent_ptr -> option (Z * addr_map_t))
    (m : addr_map_t) (new_size : Z) : option (Z * addr_map_t) :=
  if new_size <=? map_size m then Some (0, m)
  else m ← insert_all insert (map m) (new_map (Z.to_nat new_size)); Some (0, m).

(** [insert_map_entry] and [grow_map] call each other: [fuel] is the depth of
    the calls.  The product of two [int] must not overflow. *)
Fixpoint insert_map_loop (fuel : nat) (m : addr_map_t) (record : addr_record_t) (agent : option agent_ptr)
    : option (Z * addr_map_t) :=
  match fuel with
  | O => None
  | S fuel' =>
      found ← find_map_entry m record true;
      entry ← (match found with Some i => e ← map m !! i; Some (Some (i, e)) | None => Some None end);
      let grow :=
        if map_size m * 2 <=? INT_MAX then
          '(ret, m) ← grow_map (insert_map_loop fuel') m (map_size m * 2);
          if ret =? 0 then insert_map_loop fuel' m record agent else Some (-1, m)
        else None in
      match entry with
      | None => grow
      | Some (i, e) =>
          if negb (is_full e) && (map_size m <=? map_count m * 2) then grow
          else
            Some (0, {| map := <[i := {| me_type := MAP_ENTRY_TYPE_FULL; me_agent := agent; me_record := record |}]>
                               (map m);
                        map_count := if is_full e then map_count m else map_count m + 1 |})
      end
  end.

Definition INSERT_DEPTH : nat := 2.
Definition insert_map_entry (m : addr_map_t) (record : addr_record_t) (agent : agent_ptr) : option (Z * addr_map_t) :=
  insert_map_loop INSERT_DEPTH m record (Some agent).

Definition has_agent (agent : agent_ptr) (e : map_entry_t) : bool :=
  is_full e && bool_decide (me_agent e = Some agent).

Definition remove_entry (agent : agent_ptr) (e : map_entry_t) : map_entry_t :=
  if has_agent agent e
  then {| me_type := MAP_ENTRY_TYPE_DELETED; me_agent := None; me_record := me_record e |}
  else e.

(** The assertion that [map_count] is not below the number of removed entries. *)
Definition remove_map_entries (m : addr_map_t) (agent : agent_ptr) : option (Z * addr_map_t) :=
  let count := zlen (filter (fun e => has_agent agent e = true) (map m)) in
  if count <=? map_count m
  then Some (0, {| map := remove_entry agent <$> map m; map_count := map_count m - count |})
  else None.

(** The agent of an address, as its users read it from the entry. *)
Definition find_agent (m : addr_map_t) (record : addr_record_t) : option (option agent_ptr) :=
  found ← find_map_entry m record false;
  match found with
  | None => Some None
  | Some i => e ← map m !! i; Some (if is_full e then me_agent e else None)
  end.

(** ** Probe sequences *)

(** Where the search for [r] is after [d] steps in a table of [n] slots. *)
Definition map_probe (n : Z) (r : addr_record_t) (d : Z) : nat :=
  Z.to_nat ((addr_record_hash r false mod n + d) mod n).

(** The tests of the search: it stops at an entry, or passes it. *)
Definition stops_at (r : addr_record_t) (allow_deleted : bool) (e : map_entry_t) : bool :=
  bool_decide (me_type e = MAP_ENTRY_TYPE_EMPTY) || addr_record_is_equal (me_record e) r true ||
  (bool_decide (me_type e = MAP_ENTRY_TYPE_DELETED) && allow_deleted).

(** The first [d] slots are passed. *)
Definition passes_by (l : list map_entry_t) (r : addr_record_t) (allow_deleted : bool) (d : Z) : Prop :=
  forall k e, 0 <= k < d -> l !! map_probe (zlen l) r k = Some e -> stops_at r allow_deleted e = false.

Lemma map_probe_bound (l : list map_entry_t) r d : 0 < zlen l -> (map_probe (zlen l) r d < length l)%nat.
Proof.
  intros H. unfold map_probe.
  pose proof (Z.mod_pos_bound (addr_record_hash r false mod zlen l + d) (zlen l) H). unfold zlen in *. lia.
Qed.

Lemma map_probe_surj n r (i : nat) : Z.of_nat i < n -> exists d, 0 <= d < n /\ i = map_probe n r d.
Proof.
  intros H. unfold map_probe. set (k := addr_record_hash r false mod n).
  exists ((Z.of_nat i - k) mod n). split; [apply Z.mod_pos_bound; lia|].
  rewrite Z.add_mod_idemp_r by lia. replace (k + (Z.of_nat i - k)) with (Z.of_nat i) by lia.
  rewrite Z.mod_small by lia. lia.
Qed.

Lemma map_probe_proper n r r' d : same_record true r r' -> map_probe n r d = map_probe n r' d.
Proof.
  intros H. apply same_record_weaken in H. unfold map_probe. by rewrite (addr_record_hash_proper _ _ _ H).
Qed.

(** The [find_map_loop] gives the first slot that the search stops at. *)
Lemma find_map_loop_spec (l : list map_entry_t) r allow_deleted (fuel : nat) : forall d,
  0 < zlen l ->
  let key := addr_record_hash r false mod zlen l in
  0 <= d < zlen l -> zlen l - d <= Z.of_nat fuel -> passes_by l r allow_deleted d ->
  exists res, find_map_loop fuel l r allow_deleted key ((key + d) mod zlen l) = Some res /\
    match res with
    | Some i => exists d' e, 0 <= d' < zlen l /\ i = map_probe (zlen l) r d' /\ l !! i = Some e /\
                             stops_at r allow_deleted e = true /\ passes_by l r allow_deleted d'
    | None => passes_by l r allow_deleted (zlen l)
    end.
Proof.
  induction fuel as [|fuel IH]; intros d Hs key Hd Hf Hp; [lia|]. cbn [find_map_loop].
  change (Z.to_nat ((key + d) mod zlen l)) with (map_probe (zlen l) r d).
  destruct (lookup_lt_is_Some_2 l (map_probe (zlen l) r d)) as [e He]; [by apply map_probe_bound|].
  rewrite He. cbn [mbind option_bind].
  destruct (stops_at r allow_deleted e) eqn:E.
  { exists (Some (map_probe (zlen l) r d)). split; [|by exists d, e].
    unfold stops_at in E. apply orb_true_iff in E as [->| ->]; [done|]. by case_if. }
  assert (Hp' : passes_by l r allow_deleted (d + 1)).
  { intros k e' Hk He'. destruct (Z.eq_dec k d) as [->|]; [|apply (Hp k); [lia|done]]. congruence. }
  unfold stops_at in E. apply orb_false_iff in E as [-> ->].
  rewrite Z.add_mod_idemp_l, <- Z.add_assoc by lia.
  assert (Hk : 0 <= key < zlen l) by (apply Z.mod_pos_bound; lia).
  destruct ((key + (d + 1)) mod zlen l =? key) eqn:E0; [apply Z.eqb_eq in E0|apply Z.eqb_neq in E0].
  - exists None. split; [done|]. replace (zlen l) with (d + 1); [done|].
    assert (Hcong : (d + 1) mod zlen l = 0).
    { replace (d + 1) with (key + (d + 1) - key) by lia. rewrite Zminus_mod, E0.
      rewrite (Z.mod_small key), Z.sub_diag by lia. apply Z.mod_0_l. lia. }
    apply Z.mod_divide in Hcong; [|lia]. destruct Hcong as [q Hq].
    assert (q = 1) by nia. lia.
  - apply IH; try done; [|lia]. split; [lia|]. destruct (Z.eq_dec (d + 1) (zlen l)) as [E1|]; [|lia].
    exfalso. apply E0. rewrite E1, <- Z.add_mod_idemp_r, Z_mod_same_full, Z.add_0_r by lia.
    by apply Z.mod_small.
Qed.

Lemma find_map_entry_spec (m : addr_map_t) r allow_deleted : 0 < map_size m ->
  exists res, find_map_entry m r allow_deleted = Some res /\
    match res with
    | Some i => exists d e, 0 <= d < map_size m /\ i = map_probe (map_size m) r d /\ map m !! i = Some e /\
                            stops_at r allow_deleted e = true /\ passes_by (map m) r allow_deleted d
    | None => passes_by (map m) r allow_deleted (map_size m)
    end.
Proof.
  intros Hs. unfold find_map_entry. rewrite (proj2 (Z.eqb_neq _ _)) by lia.
  destruct (find_map_loop_spec (map m) r allow_deleted (length (map m)) 0) as (res & Hres & Hspec);
    [done|unfold map_size in *; lia|unfold zlen; lia|intros k e Hk; lia|].
  rewrite Z.add_0_r, Z.mod_mod in Hres by (unfold map_size in *; lia). by exists res.
Qed.

(** ** The invariant *)

(** A record whose family the comparison knows. *)
Definition known (r : addr_record_t) : Prop := same_record true r r.

#[global] Instance known_dec r : Decision (known r).
Proof. unfold known. apply _. Defined.

Definition full_count (l : list map_entry_t) : Z := zlen (filter (fun e => is_full e = true) l).

(** Every live entry has an agent and is the first of its address on its probe
    sequence, on which no slot before it is empty; [map_count] counts the live
    entries and at most half of the slots are live. *)
Record map_ok (m : addr_map_t) : Prop := {
  mok_size : 0 < map_size m /\ map_size m mod 2 = 0;
  mok_count : map_count m = full_count (map m);
  mok_load : map_count m * 2 <= map_size m;
  mok_live : forall i e, map m !! i = Some e -> is_full e = true -> is_Some (me_agent e) /\ known (me_record e);
  mok_probe : forall i e, map m !! i = Some e -> is_full e = true ->
    exists d, 0 <= d < map_size m /\ i = map_probe (map_size m) (me_record e) d /\
              passes_by (map m) (me_record e) false d
}.

(** A live entry of [r]. *)
Definition live (m : addr_map_t) (r : addr_record_t) (i : nat) (e : map_entry_t) : Prop :=
  map m !! i = Some e /\ is_full e = true /\ same_record true (me_record e) r.

Lemma is_full_spec e : is_full e = true <-> me_type e = MAP_ENTRY_TYPE_FULL.
Proof. unfold is_full. by rewrite bool_decide_eq_true. Qed.

Lemma stops_at_proper r r' ad e : same_record true r r' -> stops_at r ad e = stops_at r' ad e.
Proof.
  intros H. unfold stops_at. do 2 f_equal. apply eq_true_iff_eq. split; intros He.
  - exact (same_record_trans true _ _ _ He H).
  - exact (same_record_trans true _ _ _ He (same_record_sym true _ _ H)).
Qed.

Lemma passes_by_proper l r r' ad d : same_record true r r' -> passes_by l r ad d -> passes_by l r' ad d.
Proof.
  intros H Hp k e Hk He. rewrite <- (stops_at_proper r r' ad e H). apply (Hp k e Hk).
  by rewrite (map_probe_proper _ r r' k H).
Qed.

(** A search that passes deleted entries passes less than one that stops there. *)
Lemma passes_by_weaken l r ad d : passes_by l r true d -> passes_by l r ad d.
Proof.
  intros Hp k e Hk He. specialize (Hp k e Hk He). unfold stops_at in *.
  rewrite andb_true_r in Hp. apply orb_false_iff in Hp as [-> ->]. done.
Qed.

(** The search for an address with a live entry finds it. *)
Lemma find_live m r i e : map_ok m -> live m r i e -> find_map_entry m r false = Some (Some i).
Proof.
  intros Hok (He & Hf & Hr). pose proof (mok_size _ Hok) as [Hs _].
  destruct (mok_probe _ Hok i e He Hf) as (d & Hd & -> & Hp).
  rewrite (map_probe_proper _ _ _ _ Hr) in *. apply (passes_by_proper _ _ _ _ _ Hr) in Hp.
  assert (Hstop : stops_at r false e = true).
  { unfold stops_at. rewrite (Hr : addr_record_is_equal _ _ _ = true). by rewrite orb_true_r. }
  destruct (find_map_entry_spec m r false Hs) as ([j|] & -> & Hj).
  - destruct Hj as (d' & e' & Hd' & -> & He' & Hst & Hp'). do 2 f_equal.
    destruct (Z.lt_trichotomy d d') as [Hlt|[->|Hlt]]; [|done|].
    + specialize (Hp' d e ltac:(lia) He). congruence.
    + specialize (Hp d' e' ltac:(lia) He'). congruence.
  - specialize (Hj d e Hd He). congruence.
Qed.

Lemma find_agent_live m r i e : map_ok m -> live m r i e -> find_agent m r = Some (me_agent e).
Proof.
  intros Hok Hl. unfold find_agent. rewrite (find_live m r i e Hok Hl). cbn [mbind option_bind].
  destruct Hl as (-> & Hf & _). cbn. by rewrite Hf.
Qed.

Lemma find_agent_absent m r : map_ok m -> (forall i e, ~ live m r i e) -> find_agent m r = Some None.
Proof.
  intros Hok Ha. pose proof (mok_size _ Hok) as [Hs _]. unfold find_agent.
  destruct (find_map_entry_spec m r false Hs) as ([j|] & -> & Hj); [|done].
  destruct Hj as (d & e & Hd & -> & He & Hst & _). cbn [mbind option_bind]. rewrite He. cbn.
  destruct (is_full e) eqn:Hf; [|done]. exfalso. apply (Ha (map_probe (map_size m) r d) e). split; [done|]. split; [done|].
  apply is_full_spec in Hf. unfold stops_at in Hst. rewrite Hf in Hst. cbn in Hst. by rewrite orb_false_r in Hst.
Qed.

Lemma live_dec m r : (exists i e, live m r i e) \/ (forall i e, ~ live m r i e).
Proof.
  destruct (decide (Exists (fun e => is_full e = true /\ same_record true (me_record e) r) (map m))) as [H|H].
  - left. apply Exists_exists in H as (e & Hin & Hf & Hr). apply list_elem_of_In, list_elem_of_lookup in Hin as [i Hi].
    by exists i, e.
  - right. intros i e (He & Hf & Hr). apply H. apply Exists_exists. exists e.
    split; [by eapply list_elem_of_In, list_elem_of_lookup_2|done].
Qed.

Lemma live_unique m r i e i' e' : map_ok m -> live m r i e -> live m r i' e' -> i = i' /\ e = e'.
Proof.
  intros Hok H H'. pose proof (find_live m r i e Hok H). pose proof (find_live m r i' e' Hok H').
  destruct H as (? & _), H' as (? & _). split; congruence.
Qed.

(** The search never fails, and its answer is the live entry of the address. *)
Lemma find_agent_spec m r : map_ok m ->
  exists o, find_agent m r = Some o /\
    forall a, o = Some a <-> exists i e, live m r i e /\ me_agent e = Some a.
Proof.
  intros Hok. destruct (live_dec m r) as [(i & e & Hl)|Ha].
  - exists (me_agent e). split; [by apply (find_agent_live m r i)|]. intros a. split.
    + intros Ho. by exists i, e.
    + intros (i' & e' & Hl' & <-). by destruct (live_unique m r _ _ _ _ Hok Hl Hl') as [_ ->].
  - exists None. split; [by apply find_agent_absent|]. intros a. split; [done|].
    intros (i & e & Hl & _). by destruct (Ha i e).
Qed.

(** ** Insertion *)

(** The agent of the live entry of an address. *)
Definition assoc (m : addr_map_t) (r : addr_record_t) (a : agent_ptr) : Prop :=
  exists i e, live m r i e /\ me_agent e = Some a.

Definition absent (m : addr_map_t) (r : addr_record_t) : Prop := forall i e, ~ live m r i e.

Lemma full_count_insert l i e e' : l !! i = Some e ->
  full_count (<[i := e']> l) =
  full_count l - (if is_full e then 1 else 0) + (if is_full e' then 1 else 0).
Proof.
  unfold full_count. intros He. rewrite <- (take_drop_middle l i e He) at 2.
  rewrite insert_take_drop by (by eapply lookup_lt_Some).
  rewrite !list.filter_app, !filter_cons, !zlen_app.
  repeat case_decide; destruct (is_full e), (is_full e'); try done; rewrite ?zlen_cons; lia.
Qed.

Lemma full_count_bound l : 0 <= full_count l <= zlen l.
Proof. unfold full_count, zlen. pose proof (length_filter (fun e => is_full e = true) l). lia. Qed.

Lemma full_count_all l : (forall i e, l !! i = Some e -> is_full e = true) -> full_count l = zlen l.
Proof.
  intros H. unfold full_count, zlen. do 2 f_equal. induction l as [|e l IH]; [done|].
  rewrite filter_cons, decide_True by (by apply (H 0%nat)). f_equal. apply IH. intros i. apply (H (S i)).
Qed.

(** The slot for a new address is found, and it is not a live one. *)
Lemma find_slot_absent m r : map_ok m -> absent m r ->
  exists d e, find_map_entry m r true = Some (Some (map_probe (map_size m) r d)) /\ 0 <= d < map_size m /\
    map m !! map_probe (map_size m) r d = Some e /\ is_full e = false /\ passes_by (map m) r true d.
Proof.
  intros Hok Ha. pose proof (mok_size _ Hok) as [Hs _].
  destruct (find_map_entry_spec m r true Hs) as ([i|] & -> & Hi).
  - destruct Hi as (d & e & Hd & -> & He & Hst & Hp). exists d, e. do 3 (split; [done|]).
    split; [|done]. destruct (is_full e) eqn:Hf; [|done]. exfalso.
    apply (Ha (map_probe (map_size m) r d) e). split; [done|]. split; [done|].
    apply is_full_spec in Hf. unfold stops_at in Hst. rewrite Hf in Hst. cbn in Hst. by rewrite orb_false_r in Hst.
  - exfalso. pose proof (mok_load _ Hok). pose proof (mok_count _ Hok) as Hc.
    rewrite full_count_all in Hc; [unfold map_size in *; lia|].
    intros i e He. destruct (map_probe_surj (map_size m) r i) as (d & Hd & ->).
    { apply lookup_lt_Some in He. unfold map_size, zlen. lia. }
    specialize (Hi d e Hd He). unfold stops_at in Hi. rewrite andb_true_r in Hi.
    apply orb_false_iff in Hi as [Hi H2]. apply orb_false_iff in Hi as [H1 _].
    apply bool_decide_eq_false in H1, H2. apply is_full_spec. by destruct (me_type e).
Qed.

(** Writing a record to a slot keeps the probe sequences of the other addresses. *)
Lemma passes_by_insert l i e' r d : passes_by l r false d ->
  me_type e' <> MAP_ENTRY_TYPE_EMPTY -> ~ same_record true (me_record e') r ->
  passes_by (<[i := e']> l) r false d.
Proof.
  intros Hp Ht Hr k e Hk He. unfold zlen in He. rewrite length_insert in He. change (Z.of_nat (length l)) with (zlen l) in He.
  destruct (decide (map_probe (zlen l) r k = i)) as [Hi|Hi].
  - rewrite Hi in He. apply list_lookup_insert_Some in He as [(_ & <- & _)|(? & _)]; [|done].
    unfold stops_at. rewrite andb_false_r, orb_false_r. apply orb_false_iff.
    split; [by apply bool_decide_eq_false|by apply not_true_is_false].
  - rewrite list_lookup_insert_ne in He by done. by apply (Hp k e Hk).
Qed.

Section Insert.
Context (m : addr_map_t) (r : addr_record_t) (a : agent_ptr) (d : Z) (e0 : map_entry_t).
Context (Hok : map_ok m) (Hr : known r) (Ha : absent m r) (Hroom : map_count m * 2 < map_size m).
#[local] Abbreviation i0 := (map_probe (map_size m) r d).
Context (Hd : 0 <= d < map_size m) (He0 : map m !! i0 = Some e0) (Hf0 : is_full e0 = false).
Context (Hp0 : passes_by (map m) r true d).

#[local] Abbreviation new := {| me_type := MAP_ENTRY_TYPE_FULL; me_agent := Some a; me_record := r |}.
#[local] Abbreviation m' := {| map := <[i0 := new]> (map m); map_count := map_count m + 1 |}.

Lemma insert_size : map_size m' = map_size m.
Proof. unfold map_size, zlen. cbn. by rewrite length_insert. Qed.

Lemma insert_lookup i e : map m' !! i = Some e -> (i = i0 /\ e = new) \/ (i <> i0 /\ map m !! i = Some e).
Proof. cbn. intros H. apply list_lookup_insert_Some in H as [(-> & <- & _)|(Hne & H)]; [by left|right; auto]. Qed.

Lemma insert_ok : map_ok m'.
Proof using Hok Hr Ha Hroom Hd He0 Hf0 Hp0.
  destruct Hok as [ [Hs Hev] Hc Hl Hlive Hpr]. split.
  - by rewrite insert_size.
  - cbn [map map_count]. rewrite (full_count_insert _ _ _ _ He0), Hf0, Hc. by rewrite Z.sub_0_r.
  - rewrite insert_size. cbn [map_count]. Z.div_mod_to_equations. lia.
  - intros i e He Hf. apply insert_lookup in He as [(-> & ->)|(_ & He)]; [done|by apply (Hlive i)].
  - intros i e He Hf. rewrite insert_size. apply insert_lookup in He as [(-> & ->)|(Hne & He)].
    + exists d. do 2 (split; [done|]). cbn [me_record]. intros k e Hk He.
      change (zlen (map m')) with (map_size m') in He. rewrite insert_size in He.
      apply insert_lookup in He as [(Hi & _)|(_ & He)].
      * exfalso. assert (Hst : stops_at r true e0 = false).
        { apply (Hp0 k e0 Hk). change (zlen (map m)) with (map_size m). by rewrite Hi. }
        unfold stops_at in Hst. apply orb_false_iff in Hst as [Hst H3]. apply orb_false_iff in Hst as [H1 _].
        rewrite andb_true_r in H3. apply bool_decide_eq_false in H1, H3. unfold is_full in Hf0.
        apply bool_decide_eq_false in Hf0. by destruct (me_type e0).
      * apply (passes_by_weaken _ _ _ _ Hp0 k e Hk He).
    + destruct (Hpr i e He Hf) as (d' & Hd' & -> & Hp'). exists d'. do 2 (split; [done|]).
      apply passes_by_insert; [done|done|]. cbn [me_record]. intros Hsame. apply (Ha (map_probe (map_size m) (me_record e) d') e).
      split; [done|]. split; [done|]. by apply same_record_sym.
Qed.

Lemma insert_assoc r' b : assoc m' r' b <-> (if decide (same_record true r r') then b = a else assoc m r' b).
Proof using Hok Hr Ha Hd He0 Hf0.
  split.
  - intros (i & e & (He & Hf & Hs) & Hb). apply insert_lookup in He as [(-> & ->)|(Hne & He)].
    + rewrite decide_True by done. cbn in Hb. congruence.
    + rewrite decide_False; [by exists i, e|]. intros Hsame. apply (Ha i e). split; [done|]. split; [done|].
      exact (same_record_trans true _ _ _ Hs (same_record_sym true _ _ Hsame)).
  - case_decide as Hs.
    + intros ->. exists i0, new. split; [|done]. split; [|done]. cbn.
      apply list_lookup_insert_eq. by eapply lookup_lt_Some.
    + intros (i & e & (He & Hf & Hsame) & Hb). exists i, e. split; [|done]. split; [|done]. cbn.
      rewrite list_lookup_insert_ne; [done|]. intros <-. congruence.
Qed.
End Insert.

(** Insertion of an absent address when there is room. *)
Lemma insert_room fuel m r a : map_ok m -> known r -> absent m r -> map_count m * 2 < map_size m ->
  exists m', insert_map_loop (S fuel) m r (Some a) = Some (0, m') /\ map_ok m' /\ map_size m' = map_size m /\
    map_count m' = map_count m + 1 /\
    forall r' b, assoc m' r' b <-> (if decide (same_record true r r') then b = a else assoc m r' b).
Proof.
  intros Hok Hr Ha Hroom. destruct (find_slot_absent m r Hok Ha) as (d & e & Hfind & Hd & He & Hf & Hp).
  eexists. cbn [insert_map_loop]. rewrite Hfind. cbn [mbind option_bind]. rewrite He. cbn [mbind option_bind].
  rewrite Hf. cbn [negb andb]. rewrite (proj2 (Z.leb_gt _ _)) by done. split; [done|].
  split; [by apply (insert_ok m r a d e)|]. split; [apply insert_size|]. split; [done|].
  by apply (insert_assoc m r a d e).
Qed.

(** ** Growth *)

(** The live entries of an array have pairwise different addresses. *)
Definition distinct_live (l : list map_entry_t) : Prop :=
  forall i j e e', l !! i = Some e -> l !! j = Some e' -> is_full e = true -> is_full e' = true ->
    same_record true (me_record e) (me_record e') -> i = j.

Lemma map_ok_distinct m : map_ok m -> distinct_live (map m).
Proof.
  intros Hok i j e e' He He' Hf Hf' Hs.
  assert (known (me_record e')) by (by eapply (mok_live _ Hok j)).
  by destruct (live_unique m (me_record e') i e j e' Hok).
Qed.

(** What a list of entries associates with an address. *)
Definition listed (l : list map_entry_t) (r : addr_record_t) (a : agent_ptr) : Prop :=
  exists i e, l !! i = Some e /\ is_full e = true /\ same_record true (me_record e) r /\ me_agent e = Some a.

Lemma listed_cons e l r a :
  listed (e :: l) r a <-> (is_full e = true /\ same_record true (me_record e) r /\ me_agent e = Some a) \/ listed l r a.
Proof.
  split.
  - intros ([|i] & e' & He & H); [left; cbn in He; injection He as <-; done|right; by exists i, e'].
  - intros [H|(i & e' & H)]; [by exists 0%nat, e|by exists (S i), e'].
Qed.

Lemma absent_assoc m r : map_ok m -> (forall a, ~ assoc m r a) -> absent m r.
Proof.
  intros Hok H i e Hl. destruct Hl as (He & Hf & Hs) eqn:E. clear E.
  destruct (mok_live _ Hok i e He Hf) as [ [a Ha] _]. apply (H a). by exists i, e.
Qed.

Lemma insert_all_spec fuel (l : list map_entry_t) : forall m,
  map_ok m -> distinct_live l -> (map_count m + full_count l) * 2 <= map_size m ->
  (forall i e, l !! i = Some e -> is_full e = true -> is_Some (me_agent e) /\ known (me_record e)) ->
  (forall i e, l !! i = Some e -> is_full e = true -> absent m (me_record e)) ->
  exists m', insert_all (insert_map_loop (S fuel)) l m = Some m' /\ map_ok m' /\ map_size m' = map_size m /\
    map_count m' = map_count m + full_count l /\
    forall r a, assoc m' r a <-> assoc m r a \/ listed l r a.
Proof.
  induction l as [|e l IH]; intros m Hok Hdis Hroom Hlive Habs.
  { exists m. do 3 (split; [done|]). split; [change (full_count []) with 0; lia|].
    intros r a. split; [by left|]. by intros [H|(i & e & H & _)]. }
  assert (Hdis' : distinct_live l).
  { intros i j x y Hx Hy Hfx Hfy Hs. by injection (Hdis (S i) (S j) x y Hx Hy Hfx Hfy Hs). }
  cbn [insert_all]. destruct (is_full e) eqn:Hf.
  - assert (Hc : full_count (e :: l) = 1 + full_count l).
    { unfold full_count. by rewrite filter_cons, decide_True, zlen_cons by done. }
    pose proof (full_count_bound l).
    destruct (Hlive 0%nat e eq_refl Hf) as [ [a Ha] Hk]. rewrite Ha.
    destruct (insert_room fuel m (me_record e) a) as (m1 & -> & Hok1 & Hs1 & Hc1 & Has1);
      [done|done|by apply (Habs 0%nat)|lia|]. cbn [mbind option_bind].
    destruct (IH m1) as (m' & -> & Hok' & Hs' & Hc' & Has'); [done|done|lia|intros i; apply (Hlive (S i))| |].
    { intros i x Hx Hfx. apply absent_assoc; [done|]. intros b Hb. apply Has1 in Hb.
      case_decide as Hsame; [|by destruct Hb as (j & y & Hy & _); apply (Habs (S i) x Hx Hfx j y)].
      by discriminate (Hdis 0%nat (S i) e x eq_refl Hx Hf Hfx Hsame). }
    exists m'. split; [done|]. split; [done|]. split; [congruence|]. split; [lia|]. intros r b.
    rewrite Has', Has1, listed_cons. case_decide as Hsame.
    + split; [intros [->|?]; [right; left; done|by right; right]|].
      intros [Hb|[(_ & _ & ?)|?] ]; [|left; congruence|by right]. exfalso.
      destruct Hb as (j & y & (Hy & Hfy & Hsy) & _). apply (Habs 0%nat e eq_refl Hf j y).
      split; [done|]. split; [done|]. exact (same_record_trans true _ _ _ Hsy (same_record_sym true _ _ Hsame)).
    + split; [intros [?|?]; [by left|by right; right]|]. intros [?|[(_ & ? & _)|?] ]; [by left|done|by right].
  - assert (Hc : full_count (e :: l) = full_count l).
    { unfold full_count. rewrite filter_cons, decide_False by congruence. done. }
    destruct (IH m) as (m' & -> & Hok' & Hs' & Hc' & Has');
      [done|done|lia|intros i; apply (Hlive (S i))|intros i; apply (Habs (S i))|].
    exists m'. do 3 (split; [done|]). split; [lia|]. intros r a. rewrite Has', listed_cons.
    split; [intros [?|?]; [by left|by right; right]|]. intros [?|[(? & _)|?] ]; [by left|congruence|by right].
Qed.

Lemma full_count_new n : full_count (replicate n map_entry_zero) = 0.
Proof. unfold full_count. induction n as [|n IH]; [done|exact IH]. Qed.

Lemma new_map_lookup n i e : map (new_map n) !! i = Some e -> e = map_entry_zero.
Proof. cbn. intros H. by apply lookup_replicate in H as [-> _]. Qed.

Lemma new_map_ok n : (0 < n)%nat -> Z.of_nat n mod 2 = 0 -> map_ok (new_map n).
Proof.
  intros Hn Hev. split.
  - unfold map_size, zlen. cbn. rewrite length_replicate. lia.
  - cbn. by rewrite full_count_new.
  - unfold map_size, zlen. cbn. lia.
  - intros i e He Hf. apply new_map_lookup in He as ->. done.
  - intros i e He Hf. apply new_map_lookup in He as ->. done.
Qed.

Lemma new_map_absent n r : absent (new_map n) r.
Proof. intros i e (He & Hf & _). by apply new_map_lookup in He as ->. Qed.

(** [grow_map] keeps the associations. *)
Lemma grow_map_spec fuel m : map_ok m ->
  exists m', grow_map (insert_map_loop (S fuel)) m (map_size m * 2) = Some (0, m') /\ map_ok m' /\
    map_size m' = map_size m * 2 /\ map_count m' = map_count m /\
    forall r a, assoc m' r a <-> assoc m r a.
Proof.
  intros Hok. pose proof (mok_size _ Hok) as [Hs Hev]. pose proof (mok_load _ Hok). pose proof (mok_count _ Hok) as Hc.
  unfold grow_map. rewrite (proj2 (Z.leb_gt _ _)) by lia.
  assert (Hsz : map_size (new_map (Z.to_nat (map_size m * 2))) = map_size m * 2).
  { unfold map_size at 1, zlen. cbn. rewrite length_replicate. lia. }
  destruct (insert_all_spec fuel (map m) (new_map (Z.to_nat (map_size m * 2)))) as (m' & -> & Hok' & Hs' & Hc' & Has).
  - apply new_map_ok; [lia|]. rewrite Z2Nat.id by lia. apply Z_mod_mult.
  - by apply map_ok_distinct.
  - rewrite Hsz. cbn [map_count new_map]. lia.
  - apply (mok_live _ Hok).
  - intros i e _ _. apply new_map_absent.
  - exists m'. split; [done|]. split; [done|]. split; [congruence|]. split; [cbn in Hc'; lia|].
    intros r a. rewrite Has. split.
    + intros [(i & e & Hl & _)|(i & e & ? & ? & ? & ?)]; [by apply new_map_absent in Hl|by exists i, e].
    + intros (i & e & (? & ? & ?) & ?). right. by exists i, e.
Qed.

(** The size of the table after an insertion: twice the size if half of it is in use. *)
Definition size_with_one_more (m : addr_map_t) : Z :=
  if map_size m <=? map_count m * 2 then map_size m * 2 else map_size m.

(** An absent address is inserted, in a larger table if need be. *)
Lemma insert_map_entry_run m r a : map_ok m -> known r -> absent m r -> map_size m * 2 <= INT_MAX ->
  exists m', insert_map_entry m r a = Some (0, m') /\ map_ok m' /\
    map_size m' = size_with_one_more m /\ map_count m' = map_count m + 1 /\
    forall r' b, assoc m' r' b <-> (if decide (same_record true r r') then b = a else assoc m r' b).
Proof.
  intros Hok Hr Ha Hmax. pose proof (mok_load _ Hok). pose proof (mok_size _ Hok) as [Hs _].
  unfold insert_map_entry, INSERT_DEPTH, size_with_one_more.
  destruct (Z.lt_ge_cases (map_count m * 2) (map_size m)) as [Hroom|Hfull].
  { destruct (insert_room 1 m r a Hok Hr Ha Hroom) as (m' & H1 & H2 & H3 & H4 & H5). exists m'.
    rewrite (proj2 (Z.leb_gt _ _)) by done. done. }
  destruct (find_slot_absent m r Hok Ha) as (d & e & Hfind & Hd & He & Hf & Hp).
  change (insert_map_loop 2 m r (Some a)) with
    (found ← find_map_entry m r true;
     entry ← (match found with Some i => e ← map m !! i; Some (Some (i, e)) | None => Some None end);
     let grow :=
       if map_size m * 2 <=? INT_MAX then
         '(ret, m) ← grow_map (insert_map_loop 1) m (map_size m * 2);
         if ret =? 0 then insert_map_loop 1 m r (Some a) else Some (-1, m)
       else None in
     match entry with
     | None => grow
     | Some (i, e) =>
         if negb (is_full e) && (map_size m <=? map_count m * 2) then grow
         else Some (0, {| map := <[i := {| me_type := MAP_ENTRY_TYPE_FULL; me_agent := Some a; me_record := r |}]> (map m);
                          map_count := if is_full e then map_count m else map_count m + 1 |})
     end).
  rewrite Hfind. cbn [mbind option_bind]. rewrite He. cbn [mbind option_bind]. cbn zeta.
  rewrite Hf, (proj2 (Z.leb_le (map_size m) _)), (proj2 (Z.leb_le _ INT_MAX)) by lia. cbn [negb andb].
  destruct (grow_map_spec 0 m Hok) as (m1 & -> & Hok1 & Hs1 & Hc1 & Has1). cbn [mbind option_bind Z.eqb].
  destruct (insert_room 0 m1 r a) as (m' & -> & Hok' & Hs' & Hc' & Has'); [done|done| |lia|].
  - apply absent_assoc; [done|]. intros b Hb. apply Has1 in Hb as (i & e' & Hl & _). by apply (Ha i e').
  - exists m'. split; [done|]. split; [done|]. split; [lia|]. split; [lia|].
    intros r' b. rewrite Has'. case_decide; [done|apply Has1].
Qed.

Lemma insert_map_entry_spec m r a : map_ok m -> known r -> absent m r -> map_size m * 2 <= INT_MAX ->
  exists m', insert_map_entry m r a = Some (0, m') /\ map_ok m' /\
    (map_size m' = map_size m \/ map_size m' = map_size m * 2 /\ map_size m <= map_count m * 2) /\ map_count m' = map_count m + 1 /\
    forall r' b, assoc m' r' b <-> (if decide (same_record true r r') then b = a else assoc m r' b).
Proof.
  intros Hok Hr Ha Hmax. destruct (insert_map_entry_run m r a Hok Hr Ha Hmax) as (m' & Hins & Hok' & Hsz & Hct & Has).
  exists m'. do 2 (split; [done|]). split; [|done]. unfold size_with_one_more in Hsz. destruct (Z.leb_spec (map_size m) (map_count m * 2)); lia.
Qed.

(** ** Removal *)

Lemma remove_full a e : is_full (remove_entry a e) = true <-> is_full e = true /\ me_agent e <> Some a.
Proof.
  unfold remove_entry, has_agent. destruct (is_full e) eqn:Hf; cbn [andb].
  - case_bool_decide; [split; [done|tauto]|tauto].
  - rewrite Hf. split; [done|tauto].
Qed.

Lemma remove_stops a e r : stops_at r false (remove_entry a e) = stops_at r false e.
Proof.
  unfold remove_entry. case_if; [|done]. unfold has_agent in E. bool_to_prop. apply is_full_spec in H.
  unfold stops_at. cbn. by rewrite H.
Qed.

Lemma remove_live_same a e : is_full (remove_entry a e) = true -> remove_entry a e = e.
Proof.
  intros H. apply remove_full in H as [Hf Hn]. unfold remove_entry, has_agent. rewrite Hf.
  by rewrite bool_decide_eq_false_2.
Qed.

Lemma full_count_remove a l :
  full_count (remove_entry a <$> l) = full_count l - zlen (filter (fun e => has_agent a e = true) l).
Proof.
  unfold full_count. induction l as [|e l IH]; [done|].
  rewrite fmap_cons, !filter_cons. pose proof (remove_full a e) as Hr. unfold has_agent in *.
  destruct (is_full e) eqn:Hf; cbn [andb] in *.
  - destruct (bool_decide (me_agent e = Some a)) eqn:Hb.
    + apply bool_decide_eq_true in Hb. rewrite decide_False by tauto. rewrite !decide_True by done.
      rewrite !zlen_cons. lia.
    + apply bool_decide_eq_false in Hb. rewrite decide_True by tauto. rewrite decide_True by done.
      rewrite decide_False by done. rewrite !zlen_cons. lia.
  - rewrite decide_False by (intros H; apply Hr in H; destruct H; congruence). by rewrite !decide_False.
Qed.

Lemma remove_map_entries_spec m a : map_ok m ->
  exists m', remove_map_entries m a = Some (0, m') /\ map_ok m' /\ map_size m' = map_size m /\
    map_count m' <= map_count m /\
    forall r b, assoc m' r b <-> assoc m r b /\ b <> a.
Proof.
  intros Hok. pose proof (mok_count _ Hok) as Hc. pose proof (full_count_remove a (map m)) as Hrm.
  pose proof (full_count_bound (remove_entry a <$> map m)). pose proof (zlen_nonneg (filter (fun e => has_agent a e = true) (map m))).
  pose proof (mok_load _ Hok).
  unfold remove_map_entries. rewrite (proj2 (Z.leb_le _ _)) by lia. eexists. split; [done|].
  assert (Hsz : forall c, map_size {| map := remove_entry a <$> map m; map_count := c |} = map_size m).
  { intros c. unfold map_size, zlen. cbn. by rewrite length_fmap. }
  assert (Hback : forall i e, (remove_entry a <$> map m) !! i = Some e -> is_full e = true ->
      map m !! i = Some e /\ is_full e = true /\ me_agent e <> Some a).
  { intros i e He Hf. apply list_lookup_fmap_Some in He as (e1 & -> & He1).
    pose proof (remove_full a e1) as [Hr _]. specialize (Hr Hf). rewrite (remove_live_same a e1 Hf) in *. tauto. }
  split.
  { split.
    - rewrite Hsz. apply (mok_size _ Hok).
    - cbn. lia.
    - rewrite Hsz. cbn. lia.
    - intros i e He Hf. destruct (Hback i e He Hf) as (He1 & Hf1 & _). by apply (mok_live _ Hok i).
    - intros i e He Hf. rewrite Hsz. destruct (Hback i e He Hf) as (He1 & Hf1 & _).
      destruct (mok_probe _ Hok i e He1 Hf1) as (d & Hd & -> & Hp). exists d. do 2 (split; [done|]).
      intros k x Hk Hx. unfold zlen in Hx. cbn [map] in Hx. rewrite length_fmap in Hx.
      apply list_lookup_fmap_Some in Hx as (x1 & -> & Hx1). rewrite remove_stops. by apply (Hp k x1 Hk). }
  split; [apply Hsz|]. split; [cbn; lia|]. intros r b. split.
  - intros (i & e & (He & Hf & Hs) & Hb). destruct (Hback i e He Hf) as (He1 & Hf1 & Hn).
    split; [by exists i, e|congruence].
  - intros ((i & e & (He & Hf & Hs) & Hb) & Hn). exists i, e. split; [|done]. split; [|done]. cbn.
    rewrite list_lookup_fmap, He. cbn. f_equal. apply remove_live_same, remove_full. split; [done|congruence].
Qed.

(** ** Specification *)

(** What the map promises: a partial function from addresses to agents. *)
Definition represents (m : addr_map_t) (f : addr_record_t -> option agent_ptr) : Prop :=
  map_ok m /\ forall r, find_agent m r = Some (f r).

Lemma represents_assoc m f : represents m f -> forall r a, f r = Some a <-> assoc m r a.
Proof.
  intros [Hok Hf] r a. destruct (find_agent_spec m r Hok) as (o & Ho & Hs).
  rewrite Hf in Ho. injection Ho as ->. apply Hs.
Qed.

Lemma represents_absent m f r : represents m f -> f r = None -> absent m r.
Proof.
  intros Hrep Hn. apply absent_assoc; [apply Hrep|]. intros a Ha.
  apply (represents_assoc m f Hrep) in Ha. congruence.
Qed.

Lemma assoc_represents m f : map_ok m -> (forall r a, assoc m r a <-> f r = Some a) -> represents m f.
Proof.
  intros Hok Has. split; [done|]. intros r. destruct (find_agent_spec m r Hok) as (o & -> & Hs). f_equal.
  destruct (f r) as [a|] eqn:E.
  - apply Hs, Has, E.
  - destruct o as [a|]; [|done]. assert (Ha : f r = Some a) by (by apply Has, Hs). congruence.
Qed.

(** C22: the address map is a partial function from addresses to agents, and no operation fails or
    loses an entry, however many entries were deleted before.  The map of a new registry is empty;
    [insert_map_entry] of an IPv4 or IPv6 address without an agent sets that address alone, and
    the table has then twice its size if half of it was in use and the same size if not;
    [remove_map_entries] removes the addresses of one agent and no others, and the table keeps its
    size; [map_count] is the number of entries in use.  Twice the size of the table must fit the
    type [int]. *)
Theorem mux_map_correct :
  represents (new_map INITIAL_MAP_SIZE) (fun _ => None) /\
  (forall m f r a, represents m f -> known r -> f r = None -> map_size m * 2 <= INT_MAX ->
    exists m', insert_map_entry m r a = Some (0, m') /\ map_count m' = map_count m + 1 /\
      map_size m' = (if map_size m <=? map_count m * 2 then map_size m * 2 else map_size m) /\
      represents m' (fun r' => if decide (same_record true r r') then Some a else f r')) /\
  (forall m f a, represents m f ->
    exists m', remove_map_entries m a = Some (0, m') /\ map_size m' = map_size m /\
      map_count m' = map_count m - zlen (filter (fun e => has_agent a e = true) (map m)) /\
      represents m' (fun r => if decide (f r = Some a) then None else f r)) /\
  (forall m f, represents m f -> map_count m = full_count (map m) /\ map_count m * 2 <= map_size m).
Proof.
  split; [|split; [|split] ].
  - apply assoc_represents; [by apply new_map_ok; vm_compute; try lia|].
    intros r a. split; [|done]. intros (i & e & Hl & _). by apply new_map_absent in Hl.
  - intros m f r a Hrep Hr Hn Hmax. pose proof (represents_absent m f r Hrep Hn) as Ha.
    destruct (insert_map_entry_run m r a (proj1 Hrep) Hr Ha Hmax) as (m' & -> & Hok & Hsz & Hc & Has).
    exists m'. do 3 (split; [done|]). apply assoc_represents; [done|]. intros r' b.
    rewrite Has. case_decide; [split; congruence|]. by rewrite (represents_assoc m f Hrep).
  - intros m f a Hrep. destruct (remove_map_entries_spec m a (proj1 Hrep)) as (m' & Hm' & Hok & Hs & _ & Has).
    exists m'. split; [done|]. split; [done|]. split.
    { unfold remove_map_entries in Hm'. case_match; [|done]. by injection Hm' as <-. }
    apply assoc_represents; [done|]. intros r b.
    rewrite Has, <- (represents_assoc m f Hrep). case_decide; split; [intros [? ?]; congruence|done|tauto|].
    intros ?. split; [done|congruence].
  - intros m f [Hok _]. split; [apply (mok_count _ Hok)|apply (mok_load _ Hok)].
Qed.

(** A new map takes the address of an agent, finds it, and loses it with the agent. *)
Lemma mux_map_correct_witness :
  let r := {| addr := Sin 1000 [10; 0; 0; 1]; len := 16; socktype := SOCK_DGRAM |} in
  exists m m', insert_map_entry (new_map INITIAL_MAP_SIZE) r 1%positive = Some (0, m) /\
    find_agent m r = Some (Some 1%positive) /\
    remove_map_entries m 1%positive = Some (0, m') /\ find_agent m' r = Some None.
Proof.
  intros r. destruct mux_map_correct as (H0 & H1 & H2 & _).
  destruct (H1 _ _ r 1%positive H0) as (m & Hm & _ & _ & Hrep); [reflexivity|reflexivity|by vm_compute|].
  destruct (H2 _ _ 1%positive Hrep) as (m' & Hm' & _ & _ & Hrep').
  exists m, m'. split; [exact Hm|]. split; [rewrite (proj2 Hrep r); reflexivity|].
  split; [exact Hm'|]. rewrite (proj2 Hrep' r). reflexivity.
Defined.
