(* ===== verification/MuxQueues.v ===== *)
(** * The queues of the mux mode (src/conn_mux.c)

    A listener may ask to decide itself about the peers it does not know: their
    Binding requests are kept until the application accepts or rejects them, or
    their time is over.  A request is a node of five linked structures at once: the
    list of all requests, the list by deadline, one of two work lists, and two hash
    chains.  The nodes are kept in a heap [requests] indexed by pointers; an access
    to a node that is not there, before its allocation or after its release, is
    undefined behaviour ([None]). *)

From S2P Require Import Prelude Addr MuxMap.
From stdpp Require Import list gmap.
#[local] Open Scope Z_scope.

Definition MAX_PENDING_PACKET_SIZE : Z := 2048.

(** A pointer to a request. *)
Definition ptr := positive.

(** What a request holds; [size] is the length of [pr_data]. *)
Record request_t := {
  pr_id : Z;
  deadline : Z;
  src : addr_record_t;
  local_ufrag : list Z;
  remote_ufrag : list Z;
  password : list Z;
  notified : bool;
  verified : bool;
  pr_agent : option agent_ptr;
  pr_data : list Z
}.

(** The pointers of a request. *)
Record links_t := {
  next : option ptr;
  previous : option ptr;
  hash_next : option ptr;
  id_next : option ptr;
  expiry_next : option ptr;
  expiry_previous : option ptr;
  work_next : option ptr;
  work_previous : option ptr
}.

Record pending_request_t := { links : links_t; content : request_t }.

(** The pointers of a request that [calloc] returns. *)
Definition no_links : links_t := Build_links_t None None None None None None None None.

(** The fields of the doubly linked lists, and of the hash chains. *)
Inductive list_fields := PENDING_LINKS | EXPIRY_LINKS | WORK_LINKS.
Inductive chain_field := HASH_NEXT | ID_NEXT.

#[global] Instance list_fields_eq_dec : EqDecision list_fields.
Proof. solve_decision. Defined.
#[global] Instance chain_field_eq_dec : EqDecision chain_field.
Proof. solve_decision. Defined.

Definition get_next (f : list_fields) (k : links_t) : option ptr :=
  match f with PENDING_LINKS => next k | EXPIRY_LINKS => expiry_next k | WORK_LINKS => work_next k end.
Definition get_previous (f : list_fields) (k : links_t) : option ptr :=
  match f with PENDING_LINKS => previous k | EXPIRY_LINKS => expiry_previous k | WORK_LINKS => work_previous k end.
Definition set_next (f : list_fields) (v : option ptr) (k : links_t) : links_t :=
  match f with
  | PENDING_LINKS => Build_links_t v (previous k) (hash_next k) (id_next k) (expiry_next k) (expiry_previous k)
                       (work_next k) (work_previous k)
  | EXPIRY_LINKS => Build_links_t (next k) (previous k) (hash_next k) (id_next k) v (expiry_previous k)
                      (work_next k) (work_previous k)
  | WORK_LINKS => Build_links_t (next k) (previous k) (hash_next k) (id_next k) (expiry_next k) (expiry_previous k)
                    v (work_previous k)
  end.
Definition set_previous (f : list_fields) (v : option ptr) (k : links_t) : links_t :=
  match f with
  | PENDING_LINKS => Build_links_t (next k) v (hash_next k) (id_next k) (expiry_next k) (expiry_previous k)
                       (work_next k) (work_previous k)
  | EXPIRY_LINKS => Build_links_t (next k) (previous k) (hash_next k) (id_next k) (expiry_next k) v
                      (work_next k) (work_previous k)
  | WORK_LINKS => Build_links_t (next k) (previous k) (hash_next k) (id_next k) (expiry_next k) (expiry_previous k)
                    (work_next k) v
  end.
Definition get_chain (f : chain_field) (k : links_t) : option ptr :=
  match f with HASH_NEXT => hash_next k | ID_NEXT => id_next k end.
Definition set_chain (f : chain_field) (v : option ptr) (k : links_t) : links_t :=
  match f with
  | HASH_NEXT => Build_links_t (next k) (previous k) v (id_next k) (expiry_next k) (expiry_previous k)
                   (work_next k) (work_previous k)
  | ID_NEXT => Build_links_t (next k) (previous k) (hash_next k) v (expiry_next k) (expiry_previous k)
                 (work_next k) (work_previous k)
  end.

(** The head and the tail of a list, and the lists of a registry. *)
Record ends_t := { first_of : option ptr; last_of : option ptr }.
Inductive list_name := PENDING | EXPIRY | NOTIFY | READY.

#[global] Instance list_name_eq_dec : EqDecision list_name.
Proof. solve_decision. Defined.

Definition fields_of (l : list_name) : list_fields :=
  match l with PENDING => PENDING_LINKS | EXPIRY => EXPIRY_LINKS | NOTIFY => WORK_LINKS | READY => WORK_LINKS end.

(** The part of [registry_impl_t] that holds the requests; the arrays of the hash
    chains are [None] before the first listener, and their length is
    [pending_bucket_count]. *)
Record queues_t := {
  requests : gmap ptr pending_request_t;
  pending_buckets : option (list (option ptr));
  pending_ids : option (list (option ptr));
  pending_ends : ends_t;
  expiry_ends : ends_t;
  notify_ends : ends_t;
  ready_ends : ends_t;
  pending_count : Z
}.

Definition no_ends : ends_t := {| first_of := None; last_of := None |}.
Definition no_queues : queues_t := Build_queues_t ∅ None None no_ends no_ends no_ends no_ends 0.

Definition set_requests (p : queues_t) (v : gmap ptr pending_request_t) : queues_t :=
  Build_queues_t v (pending_buckets p) (pending_ids p) (pending_ends p) (expiry_ends p) (notify_ends p)
    (ready_ends p) (pending_count p).
Definition get_ends (l : list_name) (p : queues_t) : ends_t :=
  match l with PENDING => pending_ends p | EXPIRY => expiry_ends p | NOTIFY => notify_ends p | READY => ready_ends p end.
Definition set_ends (l : list_name) (v : ends_t) (p : queues_t) : queues_t :=
  match l with
  | PENDING => Build_queues_t (requests p) (pending_buckets p) (pending_ids p) v (expiry_ends p) (notify_ends p)
                 (ready_ends p) (pending_count p)
  | EXPIRY => Build_queues_t (requests p) (pending_buckets p) (pending_ids p) (pending_ends p) v (notify_ends p)
                (ready_ends p) (pending_count p)
  | NOTIFY => Build_queues_t (requests p) (pending_buckets p) (pending_ids p) (pending_ends p) (expiry_ends p) v
                (ready_ends p) (pending_count p)
  | READY => Build_queues_t (requests p) (pending_buckets p) (pending_ids p) (pending_ends p) (expiry_ends p)
               (notify_ends p) v (pending_count p)
  end.
Definition get_table (f : chain_field) (p : queues_t) : option (list (option ptr)) :=
  match f with HASH_NEXT => pending_buckets p | ID_NEXT => pending_ids p end.
Definition set_table (f : chain_field) (v : option (list (option ptr))) (p : queues_t) : queues_t :=
  match f with
  | HASH_NEXT => Build_queues_t (requests p) v (pending_ids p) (pending_ends p) (expiry_ends p) (notify_ends p)
                   (ready_ends p) (pending_count p)
  | ID_NEXT => Build_queues_t (requests p) (pending_buckets p) v (pending_ends p) (expiry_ends p) (notify_ends p)
                 (ready_ends p) (pending_count p)
  end.
Definition set_pending_count (p : queues_t) (v : Z) : queues_t :=
  Build_queues_t (requests p) (pending_buckets p) (pending_ids p) (pending_ends p) (expiry_ends p) (notify_ends p)
    (ready_ends p) v.

Definition pending_bucket_count (p : queues_t) : Z :=
  match pending_buckets p with Some l => zlen l | None => 0 end.

(** ** Reads and writes of nodes *)

Definition update_links (x : ptr) (f : links_t -> links_t) (p : queues_t) : option queues_t :=
  q ← requests p !! x;
  Some (set_requests p (<[x := {| links := f (links q); content := content q |}]> (requests p))).
Definition update_content (x : ptr) (f : request_t -> request_t) (p : queues_t) : option queues_t :=
  q ← requests p !! x;
  Some (set_requests p (<[x := {| links := links q; content := f (content q) |}]> (requests p))).

Definition set_first (l : list_name) (v : option ptr) (p : queues_t) : queues_t :=
  set_ends l {| first_of := v; last_of := last_of (get_ends l p) |} p.
Definition set_last (l : list_name) (v : option ptr) (p : queues_t) : queues_t :=
  set_ends l {| first_of := first_of (get_ends l p); last_of := v |} p.

(** ** Doubly linked lists *)

(** Takes a node out of a list; its own pointers are left. *)
Definition unlink (l : list_name) (x : ptr) (p : queues_t) : option queues_t :=
  let f := fields_of l in
  q ← requests p !! x;
  p ← (match get_previous f (links q) with
       | Some y => update_links y (set_next f (get_next f (links q))) p
       | None => Some (set_first l (get_next f (links q)) p)
       end);
  q ← requests p !! x;
  match get_next f (links q) with
  | Some y => update_links y (set_previous f (get_previous f (links q))) p
  | None => Some (set_last l (get_previous f (links q)) p)
  end.

Definition unlink_clear (l : list_name) (x : ptr) (p : queues_t) : option queues_t :=
  p ← unlink l x p;
  update_links x (fun k => set_next (fields_of l) None (set_previous (fields_of l) None k)) p.

Definition remove_expiry (x : ptr) (p : queues_t) : option queues_t := unlink_clear EXPIRY x p.
Definition remove_work (l : list_name) (x : ptr) (p : queues_t) : option queues_t := unlink_clear l x p.

(** Puts a node at the end of a list; its next pointer must be NULL. *)
Definition append (l : list_name) (x : ptr) (p : queues_t) : option queues_t :=
  let f := fields_of l in
  p ← update_links x (set_previous f (last_of (get_ends l p))) p;
  p ← (match last_of (get_ends l p) with
       | Some y => update_links y (set_next f (Some x)) p
       | None => Some (set_first l (Some x) p)
       end);
  Some (set_last l (Some x) p).

Definition append_work (l : list_name) (x : ptr) (p : queues_t) : option queues_t := append l x p.

(** ** Hash chains *)

Definition COLON : Z := 58.

(** The hash is an [unsigned long]. *)
Definition hash_string (hash : Z) (s : list Z) : Z := fold_left (fun h c => u64 (h * 33 + c)) s hash.
Definition pending_hash (src : addr_record_t) (local remote : list Z) : Z :=
  hash_string (u64 (hash_string (addr_record_hash src true) local * 33 + COLON)) remote.

(** What a hash chain is about. *)
Definition chain_key (f : chain_field) (r : request_t) : Z :=
  match f with HASH_NEXT => pending_hash (src r) (local_ufrag r) (remote_ufrag r) | ID_NEXT => pr_id r end.

Definition bucket_of (f : chain_field) (r : request_t) (n : Z) : option nat :=
  if n =? 0 then None else Some (Z.to_nat (chain_key f r mod n)).

(** A pointer to a link: a slot of the array, or the field of a node. *)
Inductive link_t := Slot (i : nat) | Field (x : ptr).

Definition load_link (f : chain_field) (k : link_t) (p : queues_t) : option (option ptr) :=
  match k with
  | Slot i => t ← get_table f p; t !! i
  | Field x => q ← requests p !! x; Some (get_chain f (links q))
  end.
Definition store_link (f : chain_field) (k : link_t) (v : option ptr) (p : queues_t) : option queues_t :=
  match k with
  | Slot i => t ← get_table f p; _ ← t !! i; Some (set_table f (Some (<[i := v]> t)) p)
  | Field x => update_links x (set_chain f v) p
  end.

(** [while ( *link != request) link = &( *link)->next; *link = request->next]; [fuel] is the number of nodes. *)
Fixpoint unchain_loop (fuel : nat) (f : chain_field) (k : link_t) (x : ptr) (p : queues_t) : option queues_t :=
  match fuel with
  | O => None
  | S fuel' =>
      cur ← load_link f k p;
      match cur with
      | None => None
      | Some y =>
          if decide (y = x) then q ← requests p !! x; store_link f k (get_chain f (links q)) p
          else unchain_loop fuel' f (Field y) x p
      end
  end.

Definition unchain (f : chain_field) (x : ptr) (p : queues_t) : option queues_t :=
  q ← requests p !! x;
  b ← bucket_of f (content q) (pending_bucket_count p);
  unchain_loop (S (size (requests p))) f (Slot b) x p.

(** Puts a node in front of its chain. *)
Definition push_chain (f : chain_field) (x : ptr) (p : queues_t) : option queues_t :=
  q ← requests p !! x;
  b ← bucket_of f (content q) (pending_bucket_count p);
  first ← load_link f (Slot b) p;
  p ← update_links x (set_chain f first) p;
  store_link f (Slot b) (Some x) p.

(** ** Removal *)

Definition remove_pending (x : ptr) (p : queues_t) : option queues_t :=
  p ← unchain HASH_NEXT x p;
  p ← unchain ID_NEXT x p;
  q ← requests p !! x;
  p ← (match pr_agent (content q) with
       | Some _ => remove_work READY x p
       | None =>
           p ← remove_expiry x p;
           if notified (content q) then Some p else remove_work NOTIFY x p
       end);
  p ← unlink PENDING x p;
  Some (set_requests (set_pending_count p (u32 (pending_count p - 1))) (delete x (requests p))).

(** [clear_pending]; [fuel] is the number of nodes. *)
Fixpoint clear_loop (fuel : nat) (p : queues_t) : option queues_t :=
  match first_of (pending_ends p) with
  | None => Some p
  | Some x =>
      match fuel with
      | O => None
      | S fuel' => p ← remove_pending x p; clear_loop fuel' p
      end
  end.
Definition clear_pending (p : queues_t) : option queues_t := clear_loop (size (requests p)) p.

(** The loops over all requests that remove some: the next one is read first. *)
Fixpoint remove_where (fuel : nat) (which : request_t -> bool) (x : option ptr) (p : queues_t) : option queues_t :=
  match x with
  | None => Some p
  | Some x =>
      match fuel with
      | O => None
      | S fuel' =>
          q ← requests p !! x;
          p' ← (if which (content q) then remove_pending x p else Some p);
          remove_where fuel' which (next (links q)) p'
      end
  end.

(** [pending_by_id] *)
Fixpoint find_chain (fuel : nat) (f : chain_field) (which : request_t -> bool) (x : option ptr) (p : queues_t)
    : option (option ptr) :=
  match x with
  | None => Some None
  | Some x =>
      match fuel with
      | O => None
      | S fuel' =>
          q ← requests p !! x;
          if which (content q) then Some (Some x) else find_chain fuel' f which (get_chain f (links q)) p
      end
  end.

Definition pending_by_id (p : queues_t) (id : Z) : option (option ptr) :=
  match pending_ids p with
  | None => Some None
  | Some t =>
      if zlen t =? 0 then None
      else x ← t !! Z.to_nat (id mod zlen t); find_chain (size (requests p)) ID_NEXT (fun r => pr_id r =? id) x p
  end.

(** ** Expiry *)

(** The loop of [expire_pending], with the number of requests it removed; [fuel]
    is the number of nodes. *)
Fixpoint expire_loop (fuel : nat) (now : Z) (removed : Z) (p : queues_t) : option (Z * queues_t) :=
  match first_of (expiry_ends p) with
  | None => Some (removed, p)
  | Some x =>
      q ← requests p !! x;
      if deadline (content q) <=? now then
        match fuel with
        | O => None
        | S fuel' => p ← remove_pending x p; expire_loop fuel' now (removed + 1) p
        end
      else Some (removed, p)
  end.
Definition expire_queues (now : Z) (p : queues_t) : option (Z * queues_t) :=
  expire_loop (size (requests p)) now 0 p.

(** ** Changes of a request *)

Definition set_notified (r : request_t) : request_t :=
  Build_request_t (pr_id r) (deadline r) (src r) (local_ufrag r) (remote_ufrag r) (password r) true (verified r)
    (pr_agent r) (pr_data r).
Definition set_verified (pwd : list Z) (r : request_t) : request_t :=
  Build_request_t (pr_id r) (deadline r) (src r) (local_ufrag r) (remote_ufrag r) pwd (notified r) true
    (pr_agent r) (pr_data r).
Definition set_agent (a : agent_ptr) (r : request_t) : request_t :=
  Build_request_t (pr_id r) (deadline r) (src r) (local_ufrag r) (remote_ufrag r) (password r) (notified r) (verified r)
    (Some a) (pr_data r).

(** A request as [defer_request] fills it. *)
Definition make_request (id deadline : Z) (src : addr_record_t) (local remote data : list Z) : request_t :=
  Build_request_t id deadline src local remote [] false false None data.

(** The node that [calloc] returns is a new one, and it is put into all the lists. *)
Definition link_request (x : ptr) (r : request_t) (p : queues_t) : option queues_t :=
  let p := set_requests p (<[x := {| links := no_links; content := r |}]> (requests p)) in
  p ← push_chain HASH_NEXT x p;
  p ← append PENDING x p;
  p ← push_chain ID_NEXT x p;
  p ← append EXPIRY x p;
  p ← append_work NOTIFY x p;
  Some (set_pending_count p (u32 (pending_count p + 1))).

Definition new_node (p : queues_t) : ptr := fresh (dom (requests p)).

(** A notification takes a request from its work list. *)
Definition notify_request (x : ptr) (p : queues_t) : option queues_t :=
  p ← remove_work NOTIFY x p; update_content x set_notified p.

(** An accepted request does not expire any more. *)
Definition accept_request (x : ptr) (a : agent_ptr) (p : queues_t) : option queues_t :=
  p ← remove_expiry x p;
  p ← update_content x (set_agent a) p;
  append_work READY x p.

(** The loop of [conn_mux_listen_pending] that fills new arrays of [n] buckets. *)
Fixpoint fill_tables (fuel : nat) (x : option ptr) (p : queues_t) : option queues_t :=
  match x with
  | None => Some p
  | Some x =>
      match fuel with
      | O => None
      | S fuel' =>
          p ← push_chain HASH_NEXT x p;
          p ← push_chain ID_NEXT x p;
          q ← requests p !! x;
          fill_tables fuel' (next (links q)) p
      end
  end.
Definition new_tables (n : nat) (p : queues_t) : option queues_t :=
  let p := set_table HASH_NEXT (Some (replicate n None)) (set_table ID_NEXT (Some (replicate n None)) p) in
  fill_tables (size (requests p)) (first_of (pending_ends p)) p.

(** ** Lists in the heap *)

Abbreviation heap := (gmap ptr pending_request_t).

(** The nodes of [l] in order, between [before] and [after]. *)
Fixpoint seg (h : heap) (f : list_fields) (before : option ptr) (l : list ptr) (after : option ptr) : Prop :=
  match l with
  | [] => True
  | x :: l' =>
      (exists q, h !! x = Some q /\ get_previous f (links q) = before /\
                 get_next f (links q) = match l' with [] => after | y :: _ => Some y end) /\
      seg h f (Some x) l' after
  end.

(** A list with its head and tail. *)
Definition dlist (h : heap) (f : list_fields) (l : list ptr) (e : ends_t) : Prop :=
  seg h f None l None /\ first_of e = head l /\ last_of e = last l.

(** The nodes of a hash chain. *)
Fixpoint chain (h : heap) (f : chain_field) (x : option ptr) (l : list ptr) : Prop :=
  match l with
  | [] => x = None
  | y :: l' => x = Some y /\ exists q, h !! y = Some q /\ chain h f (get_chain f (links q)) l'
  end.

(** The fields of two nodes that a list, or a chain, looks at. *)
Definition same_fields (f : list_fields) (k k' : links_t) : Prop :=
  get_next f k = get_next f k' /\ get_previous f k = get_previous f k'.

(** Reading after writing. *)
Lemma get_set_next f v k : get_next f (set_next f v k) = v.
Proof. by destruct f. Qed.
Lemma get_set_previous f v k : get_previous f (set_previous f v k) = v.
Proof. by destruct f. Qed.
Lemma get_next_set_previous f g v k : get_next f (set_previous g v k) = get_next f k.
Proof. by destruct f, g. Qed.
Lemma get_previous_set_next f g v k : get_previous f (set_next g v k) = get_previous f k.
Proof. by destruct f, g. Qed.
Lemma get_next_other f g v k : f <> g -> get_next f (set_next g v k) = get_next f k.
Proof. by destruct f, g. Qed.
Lemma get_previous_other f g v k : f <> g -> get_previous f (set_previous g v k) = get_previous f k.
Proof. by destruct f, g. Qed.
Lemma get_chain_set_next f g v k : get_chain f (set_next g v k) = get_chain f k.
Proof. by destruct f, g. Qed.
Lemma get_chain_set_previous f g v k : get_chain f (set_previous g v k) = get_chain f k.
Proof. by destruct f, g. Qed.
Lemma get_set_chain f v k : get_chain f (set_chain f v k) = v.
Proof. by destruct f. Qed.
Lemma get_chain_other f g v k : f <> g -> get_chain f (set_chain g v k) = get_chain f k.
Proof. by destruct f, g. Qed.
Lemma get_next_set_chain f g v k : get_next f (set_chain g v k) = get_next f k.
Proof. by destruct f, g. Qed.
Lemma get_previous_set_chain f g v k : get_previous f (set_chain g v k) = get_previous f k.
Proof. by destruct f, g. Qed.
Create Rewrite HintDb links.
#[export] Hint Rewrite get_set_next get_set_previous get_next_set_previous get_previous_set_next
  get_chain_set_next get_chain_set_previous get_set_chain get_next_set_chain get_previous_set_chain : links.

Lemma seg_app h f before l1 l2 after :
  seg h f before (l1 ++ l2) after <->
  seg h f before l1 (match l2 with [] => after | y :: _ => Some y end) /\
  seg h f (match last l1 with Some x => Some x | None => before end) l2 after.
Proof.
  revert before. induction l1 as [|x l1 IH]; intros before; [cbn; tauto|].
  cbn [app seg]. rewrite IH. destruct l1 as [|y l1].
  - cbn. destruct l2; tauto.
  - assert (Hl : exists z, last (y :: l1) = Some z).
    { destruct (last (y :: l1)) as [z|] eqn:E; [by exists z|]. by apply last_None in E. }
    destruct Hl as [z Hz]. rewrite last_cons_cons, Hz. cbn [app]. tauto.
Qed.

(** A list depends on its own nodes only. *)
Lemma seg_frame h h' f before l after : seg h f before l after ->
  (forall x q, x ∈ l -> h !! x = Some q ->
    exists q', h' !! x = Some q' /\ same_fields f (links q) (links q')) ->
  seg h' f before l after.
Proof.
  revert before. induction l as [|x l IH]; intros before Hs Hh; [done|].
  destruct Hs as [(q & Hq & Hp & Hn) Hs]. split.
  - destruct (Hh x q) as (q' & Hq' & Hn' & Hp'); [by left|done|]. exists q'. split; [done|].
    by rewrite <- Hp', <- Hn'.
  - apply IH; [done|]. intros y q' Hy. apply Hh. by right.
Qed.

Lemma chain_frame h h' f x l : chain h f x l ->
  (forall y q, y ∈ l -> h !! y = Some q ->
    exists q', h' !! y = Some q' /\ get_chain f (links q) = get_chain f (links q')) ->
  chain h' f x l.
Proof.
  revert x. induction l as [|y l IH]; intros x Hc Hh; [done|].
  destruct Hc as [-> (q & Hq & Hc)]. split; [done|].
  destruct (Hh y q) as (q' & Hq' & Hn); [by left|done|]. exists q'. split; [done|].
  rewrite <- Hn. apply IH; [done|]. intros z q2 Hz. apply Hh. by right.
Qed.

Lemma seg_present h f before l after x : seg h f before l after -> x ∈ l -> is_Some (h !! x).
Proof.
  revert before. induction l as [|y l IH]; intros before Hs Hx; [by apply not_elem_of_nil in Hx|].
  destruct Hs as [(q & Hq & _) Hs]. apply elem_of_cons in Hx as [->|Hx]; [by exists q|by eapply IH].
Qed.

Definition with_links (f : links_t -> links_t) (q : pending_request_t) : pending_request_t :=
  {| links := f (links q); content := content q |}.

(** The first and the last node of a segment get new neighbours. *)
Lemma seg_set_previous h f before v x l after q : h !! x = Some q -> x ∉ l ->
  seg h f before (x :: l) after -> seg (<[x := with_links (set_previous f v) q]> h) f v (x :: l) after.
Proof.
  intros Hq Hx [(q' & Hq' & Hp & Hn) Hs]. rewrite Hq in Hq'. injection Hq' as <-. split.
  - exists (with_links (set_previous f v) q). rewrite lookup_insert_eq. split; [done|]. cbn [with_links links].
    by autorewrite with links.
  - apply (seg_frame h); [done|]. intros y q' Hy Hq'. exists q'. rewrite lookup_insert_ne by set_solver. done.
Qed.

Lemma seg_set_next h f before v x l after q : h !! x = Some q -> x ∉ l ->
  seg h f before (l ++ [x]) after -> seg (<[x := with_links (set_next f v) q]> h) f before (l ++ [x]) v.
Proof.
  intros Hq Hx Hs. apply seg_app in Hs as [Hs1 Hs2]. apply seg_app. split.
  - apply (seg_frame h); [done|]. intros y q' Hy Hq'. exists q'. rewrite lookup_insert_ne by set_solver. done.
  - cbn [seg] in Hs2. destruct Hs2 as [(q' & Hq' & Hp & Hn) _]. rewrite Hq in Hq'. injection Hq' as <-. split; [|done].
    exists (with_links (set_next f v) q). rewrite lookup_insert_eq. split; [done|]. cbn [with_links links].
    by autorewrite with links.
Qed.

(** Segments that avoid the written node. *)
Lemma seg_insert_other h f before l after x q : x ∉ l ->
  seg h f before l after -> seg (<[x := q]> h) f before l after.
Proof.
  intros Hx Hs. apply (seg_frame h); [done|]. intros y q' Hy Hq'. exists q'.
  rewrite lookup_insert_ne by set_solver. done.
Qed.

(** ** What an operation may change *)

(** The fields of one list or of one chain. *)
Inductive fields_t := Links (f : list_fields) | Chain (c : chain_field).

(** Every node is kept with its content, and the nodes outside [l] and the fields
    other than [F] are as before. *)
Definition touches (F : fields_t) (l : list ptr) (h h' : heap) : Prop :=
  (forall x, (x ∉ l) -> h' !! x = h !! x) /\ (forall x, h !! x = None -> h' !! x = None) /\
  forall x q, h !! x = Some q -> exists q', h' !! x = Some q' /\ content q' = content q /\
    (forall g, Links g <> F -> same_fields g (links q) (links q')) /\
    forall c, Chain c <> F -> get_chain c (links q) = get_chain c (links q').

Lemma touches_refl F l h : touches F l h h.
Proof. split; [done|]. split; [done|]. intros x q Hq. exists q. repeat (split; [done|]). done. Qed.

Lemma touches_trans F l h1 h2 h3 : touches F l h1 h2 -> touches F l h2 h3 -> touches F l h1 h3.
Proof.
  intros (Ho1 & Hn1 & Hk1) (Ho2 & Hn2 & Hk2). split; [|split; [auto|]].
  - intros x Hx. by rewrite Ho2, Ho1.
  - intros x q Hq. destruct (Hk1 x q Hq) as (q1 & Hq1 & Hc1 & Hf1 & Hh1).
    destruct (Hk2 x q1 Hq1) as (q2 & Hq2 & Hc2 & Hf2 & Hh2). exists q2. split; [done|]. split; [congruence|].
    split; [|intros c Hc; rewrite Hh1 by done; auto].
    intros g Hg. destruct (Hf1 g Hg), (Hf2 g Hg). split; congruence.
Qed.

Lemma touches_weaken F l l' h h' : l ⊆ l' -> touches F l h h' -> touches F l' h h'.
Proof. intros Hl (Ho & Hk). split; [|done]. intros x Hx. apply Ho. intros Hx'. by apply Hx, Hl. Qed.

(** One write to a node. *)
Lemma touches_write F l h x q (f : links_t -> links_t) : h !! x = Some q -> x ∈ l ->
  (forall g, Links g <> F -> same_fields g (links q) (f (links q))) ->
  (forall c, Chain c <> F -> get_chain c (links q) = get_chain c (f (links q))) ->
  touches F l h (<[x := with_links f q]> h).
Proof.
  intros Hq Hx Hg Hc. split; [|split].
  - intros y Hy. apply lookup_insert_ne. intros ->. by apply Hy.
  - intros y Hy. rewrite lookup_insert_ne by congruence. done.
  - intros y q' Hq'. destruct (decide (y = x)) as [->|Hne].
    + rewrite Hq in Hq'. injection Hq' as <-. eexists. rewrite lookup_insert_eq. done.
    + exists q'. rewrite lookup_insert_ne by done. repeat (split; [done|]). done.
Qed.

Lemma touches_next f l h x v q : h !! x = Some q -> x ∈ l ->
  touches (Links f) l h (<[x := with_links (set_next f v) q]> h).
Proof.
  intros Hq Hx. apply touches_write; [done|done| |intros c _; by rewrite get_chain_set_next].
  intros g Hg. split; [rewrite get_next_other by congruence|rewrite get_previous_set_next]; done.
Qed.

Lemma touches_previous f l h x v q : h !! x = Some q -> x ∈ l ->
  touches (Links f) l h (<[x := with_links (set_previous f v) q]> h).
Proof.
  intros Hq Hx. apply touches_write; [done|done| |intros c _; by rewrite get_chain_set_previous].
  intros g Hg. split; [rewrite get_next_set_previous|rewrite get_previous_other by congruence]; done.
Qed.

Lemma touches_chain f l h x v q : h !! x = Some q -> x ∈ l ->
  touches (Chain f) l h (<[x := with_links (set_chain f v) q]> h).
Proof.
  intros Hq Hx. apply touches_write; [done|done| |].
  - intros g _. split; [by rewrite get_next_set_chain|by rewrite get_previous_set_chain].
  - intros c Hc. by rewrite get_chain_other by congruence.
Qed.

(** Lists and chains of other fields, or of other nodes, are kept. *)
Lemma touches_seg F l h h' g before k after : touches F l h h' ->
  (Links g <> F \/ (forall x, x ∈ k -> x ∉ l)) -> seg h g before k after -> seg h' g before k after.
Proof.
  intros (Ho & _ & Hk) Hor Hs. apply (seg_frame h); [done|]. intros x q Hx Hq.
  destruct Hor as [Hne|Hd].
  - destruct (Hk x q Hq) as (q' & Hq' & _ & Hf & _). exists q'. auto.
  - exists q. rewrite Ho by auto. done.
Qed.

Lemma touches_chain_kept F l h h' g x k : touches F l h h' ->
  (Chain g <> F \/ (forall x, x ∈ k -> x ∉ l)) -> chain h g x k -> chain h' g x k.
Proof.
  intros (Ho & _ & Hk) Hor Hs. apply (chain_frame h); [done|]. intros y q Hy Hq.
  destruct Hor as [Hne|Hd].
  - destruct (Hk y q Hq) as (q' & Hq' & _ & _ & Hc). exists q'. auto.
  - exists q. rewrite Ho by auto. done.
Qed.

Lemma touches_content F l h h' x : touches F l h h' -> content <$> h !! x = content <$> h' !! x.
Proof.
  intros (_ & Hn & Hk). destruct (h !! x) as [q|] eqn:Hq; [|by rewrite Hn].
  destruct (Hk x q Hq) as (q' & -> & Hc & _). cbn. by rewrite Hc.
Qed.

(** ** The operations on lists *)

(** What an operation on the list [l] leaves of the rest of the registry. *)
Definition keeps_other_lists (l : list_name) (p p' : queues_t) : Prop :=
  (forall l', l' <> l -> get_ends l' p' = get_ends l' p) /\
  (forall f, get_table f p' = get_table f p) /\ pending_count p' = pending_count p.

Lemma keeps_refl l p : keeps_other_lists l p p.
Proof. done. Qed.
Lemma keeps_trans l p1 p2 p3 : keeps_other_lists l p1 p2 -> keeps_other_lists l p2 p3 -> keeps_other_lists l p1 p3.
Proof.
  intros (H1 & H2 & H3) (H1' & H2' & H3'). split; [intros l' Hl; by rewrite H1', H1|].
  split; [intros f; by rewrite H2'|congruence].
Qed.

Lemma get_ends_set_requests l p h : get_ends l (set_requests p h) = get_ends l p.
Proof. by destruct l. Qed.
Lemma get_table_set_requests f p h : get_table f (set_requests p h) = get_table f p.
Proof. by destruct f. Qed.
Lemma get_ends_set_ends l v p : get_ends l (set_ends l v p) = v.
Proof. by destruct l. Qed.
Lemma get_ends_other l l' v p : l <> l' -> get_ends l (set_ends l' v p) = get_ends l p.
Proof. by destruct l, l'. Qed.
Lemma get_table_set_ends f l v p : get_table f (set_ends l v p) = get_table f p.
Proof. by destruct f, l. Qed.
Lemma requests_set_ends l v p : requests (set_ends l v p) = requests p.
Proof. by destruct l. Qed.
Lemma pending_count_set_ends l v p : pending_count (set_ends l v p) = pending_count p.
Proof. by destruct l. Qed.
Lemma get_ends_set_table l f t p : get_ends l (set_table f t p) = get_ends l p.
Proof. by destruct l, f. Qed.
Lemma requests_set_table f t p : requests (set_table f t p) = requests p.
Proof. by destruct f. Qed.
Lemma pending_count_set_table f t p : pending_count (set_table f t p) = pending_count p.
Proof. by destruct f. Qed.
#[export] Hint Rewrite get_ends_set_requests get_table_set_requests get_ends_set_ends get_table_set_ends
  requests_set_ends pending_count_set_ends get_ends_set_table requests_set_table pending_count_set_table : links.

Lemma keeps_requests l p h : keeps_other_lists l p (set_requests p h).
Proof. split; [intros l' _; by destruct l'|]. split; [intros f; by destruct f|done]. Qed.
Lemma keeps_ends l p v : keeps_other_lists l p (set_ends l v p).
Proof. split; [intros l' Hl; by apply get_ends_other|]. split; [intros f; by destruct f, l|by destruct l]. Qed.

Lemma update_links_run x f p q : requests p !! x = Some q ->
  update_links x f p = Some (set_requests p (<[x := with_links f q]> (requests p))).
Proof. intros Hq. unfold update_links. by rewrite Hq. Qed.

(** The first half of [unlink]: the predecessor, or the head, skips the node. *)
Lemma unlink_before l x l1 l2 p q : let f := fields_of l in
  NoDup (l1 ++ x :: l2) -> dlist (requests p) f (l1 ++ x :: l2) (get_ends l p) -> requests p !! x = Some q ->
  exists p', (match get_previous f (links q) with
              | Some y => update_links y (set_next f (get_next f (links q))) p
              | None => Some (set_first l (get_next f (links q)) p)
              end) = Some p' /\
    keeps_other_lists l p p' /\ touches (Links f) (l1 ++ l2) (requests p) (requests p') /\
    seg (requests p') f None l1 (head l2) /\ seg (requests p') f (Some x) l2 None /\
    first_of (get_ends l p') = head (l1 ++ l2) /\ last_of (get_ends l p') = last_of (get_ends l p).
Proof.
  intros f Hnd (Hs & Hf & Hl) Hq. apply seg_app in Hs as [Hs1 Hs2].
  destruct Hs2 as [(q' & Hq' & Hp & Hn) Hs2]. rewrite Hq in Hq'. injection Hq' as <-.
  rewrite Hp, Hn. destruct l1 as [|y l1 _] using rev_ind; cbn [last].
  - eexists. split; [done|]. unfold set_first. split; [apply keeps_ends|]. autorewrite with links.
    split; [apply touches_refl|]. split; [done|]. split; [done|]. cbn. by destruct l2.
  - rewrite last_snoc. assert (Hy : (y ∉ l1) /\ (y ∉ l2) /\ x <> y).
    { rewrite <- app_assoc in Hnd. apply NoDup_app in Hnd as (_ & Hd & Hnd). cbn in Hnd.
      apply NoDup_cons in Hnd as [Hn1 _]. split; [intros Hy; apply (Hd y Hy); by left|set_solver]. }
    destruct Hy as (Hy1 & Hy2 & Hxy).
    destruct (seg_present _ _ _ _ _ y Hs1) as [qy Hqy]; [set_solver|].
    rewrite (update_links_run _ _ _ _ Hqy). eexists. split; [done|]. split; [apply keeps_requests|].
    autorewrite with links. cbn [requests set_requests]. split; [apply touches_next; [done|set_solver]|].
    split; [|split; [by apply seg_insert_other|split; [|done]]].
    + replace (head l2) with (match l2 with [] => None | y :: _ => Some y end) by (by destruct l2).
      by eapply seg_set_next.
    + rewrite Hf. rewrite <- !app_assoc. by destruct l1.
Qed.

(** [unlink] takes exactly one node out of its list. *)
Lemma unlink_spec l x l1 l2 p : let f := fields_of l in
  NoDup (l1 ++ x :: l2) -> dlist (requests p) f (l1 ++ x :: l2) (get_ends l p) ->
  exists p', unlink l x p = Some p' /\ keeps_other_lists l p p' /\
    touches (Links f) (l1 ++ l2) (requests p) (requests p') /\ dlist (requests p') f (l1 ++ l2) (get_ends l p').
Proof.
  intros f Hnd Hd. destruct (seg_present _ _ _ _ _ x (proj1 Hd)) as [q Hq]; [set_solver|].
  destruct (unlink_before l x l1 l2 p q Hnd Hd Hq) as (p1 & Hp1 & Hk1 & Ht1 & Hs1 & Hs2 & Hf1 & Hl1).
  unfold unlink. fold f. rewrite Hq. cbn [mbind option_bind]. fold f in Hp1. rewrite Hp1. cbn [mbind option_bind].
  assert (Hx : x ∉ l1 ++ l2).
  { apply NoDup_app in Hnd as (_ & Hd' & Hnd'). apply NoDup_cons in Hnd' as [Hx2 _].
    rewrite elem_of_app. intros [Hx1|?]; [by apply (Hd' x Hx1); left|done]. }
  rewrite (proj1 Ht1 x Hx), Hq. cbn [mbind option_bind].
  destruct Hd as (Hs & _ & Hlast). apply seg_app in Hs as [_ Hs]. destruct Hs as [(q' & Hq' & Hp & Hn) _].
  rewrite Hq in Hq'. injection Hq' as <-. fold f in Hp, Hn. rewrite Hp, Hn. destruct l2 as [|z l2].
  - eexists. split; [done|]. unfold set_last. split; [by eapply keeps_trans, keeps_ends|].
    autorewrite with links. split; [done|]. rewrite app_nil_r in *. split; [done|]. cbn. split; [done|].
    by destruct (last l1).
  - assert (Hz : (z ∉ l1) /\ (z ∉ l2)).
    { apply NoDup_app in Hnd as (_ & Hd' & Hnd'). do 2 (apply NoDup_cons in Hnd' as [? Hnd']).
      split; [intros Hz; apply (Hd' z Hz); by right; left|done]. }
    destruct Hz as [Hz1 Hz2]. destruct (seg_present _ _ _ _ _ z Hs2) as [qz Hqz]; [by left|].
    rewrite (update_links_run _ _ _ _ Hqz). eexists. split; [done|]. split; [by eapply keeps_trans, keeps_requests|].
    autorewrite with links. cbn [requests set_requests].
    split; [eapply touches_trans; [done|apply touches_previous; [done|set_solver]]|].
    split; [|split].
    + apply seg_app. split; [by apply seg_insert_other|]. replace (match last l1 with Some x0 => Some x0 | None => None end)
        with (last l1) by (by destruct (last l1)). by eapply seg_set_previous.
    + by rewrite Hf1.
    + rewrite Hl1, Hlast. rewrite !last_app. by rewrite last_cons_cons.
Qed.

Lemma NoDup_middle {A} (l1 l2 : list A) x : NoDup (l1 ++ x :: l2) -> NoDup (l1 ++ l2) /\ x ∉ (l1 ++ l2).
Proof.
  intros H. rewrite <- Permutation_middle in H. apply NoDup_cons in H. tauto.
Qed.

(** With the pointers of the node cleared. *)
Lemma unlink_clear_spec l x l1 l2 p : let f := fields_of l in
  NoDup (l1 ++ x :: l2) -> dlist (requests p) f (l1 ++ x :: l2) (get_ends l p) ->
  exists p', unlink_clear l x p = Some p' /\ keeps_other_lists l p p' /\
    touches (Links f) (l1 ++ x :: l2) (requests p) (requests p') /\
    dlist (requests p') f (l1 ++ l2) (get_ends l p') /\
    exists q, requests p' !! x = Some q /\ get_next f (links q) = None /\ get_previous f (links q) = None.
Proof.
  intros f Hnd Hd. destruct (unlink_spec l x l1 l2 p Hnd Hd) as (p1 & Hp1 & Hk1 & Ht1 & Hd1).
  destruct (seg_present _ _ _ _ _ x (proj1 Hd)) as [q Hq]; [set_solver|].
  destruct (NoDup_middle _ _ _ Hnd) as [_ Hx].
  assert (Hq1 : requests p1 !! x = Some q) by (by rewrite (proj1 Ht1 x Hx)).
  unfold unlink_clear. rewrite Hp1. cbn [mbind option_bind]. rewrite (update_links_run _ _ _ _ Hq1). fold f.
  eexists. split; [done|]. split; [by eapply keeps_trans, keeps_requests|]. autorewrite with links.
  cbn [requests set_requests]. split; [|split].
  - eapply touches_trans; [apply (touches_weaken _ (l1 ++ l2)); [set_solver|exact Ht1]|].
    apply touches_write; [done|set_solver| |intros c _; by autorewrite with links].
    intros g Hg. split; [rewrite get_next_other by congruence|rewrite get_previous_set_next];
      [by rewrite get_next_set_previous|by rewrite get_previous_other by congruence].
  - destruct Hd1 as (Hs1 & Hf1 & Hl1). split; [by apply seg_insert_other|]. autorewrite with links. done.
  - eexists. rewrite lookup_insert_eq. split; [done|]. cbn [with_links links]. by autorewrite with links.
Qed.

Lemma append_spec l x k p q : let f := fields_of l in
  x ∉ k -> requests p !! x = Some q -> get_next f (links q) = None ->
  NoDup k -> dlist (requests p) f k (get_ends l p) ->
  exists p', append l x p = Some p' /\ keeps_other_lists l p p' /\
    touches (Links f) (k ++ [x]) (requests p) (requests p') /\ dlist (requests p') f (k ++ [x]) (get_ends l p').
Proof.
  intros f Hx Hq Hn Hnd (Hs & Hf & Hl). unfold append. fold f. rewrite (update_links_run _ _ _ _ Hq).
  cbn [mbind option_bind]. autorewrite with links. rewrite Hl.
  set (q1 := with_links (set_previous f (last k)) q). set (h1 := <[x := q1]> (requests p)).
  assert (Ht1 : touches (Links f) (k ++ [x]) (requests p) h1) by (apply touches_previous; [done|set_solver]).
  assert (Hx1 : seg h1 f (last k) [x] None).
  { split; [|done]. exists q1. unfold h1, q1. rewrite lookup_insert_eq. cbn [with_links links].
    autorewrite with links. done. }
  destruct k as [|y k _] using rev_ind.
  - cbn [mbind option_bind last]. eexists. split; [done|]. unfold set_first, set_last.
    split; [eapply keeps_trans; [|apply keeps_ends]; eapply keeps_trans; [|apply keeps_ends]; apply keeps_requests|].
    autorewrite with links. cbn [requests set_requests]. split; [done|]. split; [done|]. done.
  - rewrite last_snoc in *. assert (Hy : (y ∉ k) /\ y <> x).
    { apply NoDup_app in Hnd as (_ & Hd & _). split; [|set_solver]. intros Hy. apply (Hd y Hy). by left. }
    destruct Hy as [Hy Hyx]. destruct (seg_present _ _ _ _ _ y Hs) as [qy Hqy]; [set_solver|].
    assert (Hqy1 : h1 !! y = Some qy) by (unfold h1; by rewrite lookup_insert_ne).
    rewrite (update_links_run y _ (set_requests p h1) qy Hqy1). cbn [mbind option_bind requests set_requests].
    eexists. split; [done|]. unfold set_last. autorewrite with links. cbn [requests set_requests].
    split; [eapply keeps_trans; [|apply keeps_ends]; eapply keeps_trans; apply keeps_requests|].
    split; [eapply touches_trans; [exact Ht1|]; apply touches_next; [done|set_solver]|].
    assert (Hs1 : seg h1 f None (k ++ [y]) None) by (apply seg_insert_other; [set_solver|done]).
    split; [|split].
    + apply seg_app. rewrite last_snoc. split; [by eapply seg_set_next|].
      apply seg_insert_other; [set_solver|done].
    + cbn [first_of]. rewrite Hf. by destruct k.
    + cbn [last_of]. by rewrite last_snoc.
Qed.

(** ** The operations on chains *)

Definition keeps_other_chains (f : chain_field) (p p' : queues_t) : Prop :=
  (forall l, get_ends l p' = get_ends l p) /\
  (forall g, g <> f -> get_table g p' = get_table g p) /\ pending_count p' = pending_count p.

Lemma get_table_set_table f v p : get_table f (set_table f v p) = v.
Proof. by destruct f. Qed.
Lemma get_table_other f g v p : g <> f -> get_table g (set_table f v p) = get_table g p.
Proof. by destruct f, g. Qed.
#[export] Hint Rewrite get_table_set_table : links.

Lemma keeps_chains_requests f p h : keeps_other_chains f p (set_requests p h).
Proof. split; [intros l; by destruct l|]. split; [intros g _; by destruct g|done]. Qed.
Lemma keeps_chains_table f p v : keeps_other_chains f p (set_table f v p).
Proof. split; [intros l; by destruct l, f|]. split; [intros g Hg; by apply get_table_other|by destruct f]. Qed.
Lemma keeps_chains_trans f p1 p2 p3 :
  keeps_other_chains f p1 p2 -> keeps_other_chains f p2 p3 -> keeps_other_chains f p1 p3.
Proof.
  intros (H1 & H2 & H3) (H1' & H2' & H3'). split; [intros l; by rewrite H1', H1|].
  split; [intros g Hg; by rewrite H2', H2|congruence].
Qed.

(** The nodes that are written when a link is. *)
Definition link_nodes (k : link_t) : list ptr := match k with Slot _ => [] | Field y => [y] end.

(** The effect of a store to a link on the array. *)
Definition link_table (f : chain_field) (k : link_t) (v : option ptr) (p p' : queues_t) : Prop :=
  match k with
  | Slot i => exists t, get_table f p = Some t /\ get_table f p' = Some (<[i := v]> t)
  | Field _ => get_table f p' = get_table f p
  end.

Lemma store_link_spec f k v cur p l : load_link f k p = Some cur ->
  chain (requests p) f v l -> (forall y, y ∈ link_nodes k -> y ∉ l) ->
  exists p', store_link f k v p = Some p' /\ load_link f k p' = Some v /\ chain (requests p') f v l /\
    touches (Chain f) (link_nodes k) (requests p) (requests p') /\ keeps_other_chains f p p' /\ link_table f k v p p'.
Proof.
  intros Hl Hc Hd. destruct k as [i|y]; cbn [load_link store_link link_nodes link_table] in *.
  - destruct (get_table f p) as [t|]; [|done]. cbn [mbind option_bind] in *. rewrite Hl. cbn [mbind option_bind].
    eexists. split; [done|]. autorewrite with links. cbn [mbind option_bind].
    split; [apply list_lookup_insert_eq; by eapply lookup_lt_Some|]. split; [done|].
    split; [apply touches_refl|]. split; [apply keeps_chains_table|]. by exists t.
  - destruct (requests p !! y) as [q|] eqn:Hq; [|done]. rewrite (update_links_run _ _ _ _ Hq).
    eexists. split; [done|]. cbn [requests set_requests]. rewrite lookup_insert_eq. cbn [mbind option_bind with_links links].
    autorewrite with links. split; [done|].
    assert (Ht : touches (Chain f) [y] (requests p) (<[y := with_links (set_chain f v) q]> (requests p)))
      by (apply touches_chain; [done|by left]).
    split; [apply (touches_chain_kept _ _ _ _ _ _ _ Ht); [right; set_solver|done]|].
    split; [exact Ht|]. split; [apply keeps_chains_requests|done].
Qed.

Lemma unchain_loop_spec f x l2 (fuel : nat) : forall k l1 p cur,
  load_link f k p = Some cur -> chain (requests p) f cur (l1 ++ x :: l2) -> NoDup (l1 ++ x :: l2) ->
  (forall y, y ∈ link_nodes k -> y ∉ (l1 ++ x :: l2)) -> (length l1 < fuel)%nat ->
  exists p' cur', unchain_loop fuel f k x p = Some p' /\ load_link f k p' = Some cur' /\
    chain (requests p') f cur' (l1 ++ l2) /\
    touches (Chain f) (link_nodes k ++ l1) (requests p) (requests p') /\
    keeps_other_chains f p p' /\ link_table f k cur' p p'.
Proof.
  induction fuel as [|fuel IH]; intros k l1 p cur Hl Hc Hnd Hk Hlen; [lia|].
  cbn [unchain_loop]. rewrite Hl. cbn [mbind option_bind]. destruct l1 as [|z l1].
  - destruct Hc as [-> (q & Hq & Hc)]. rewrite decide_True by done. rewrite Hq. cbn [mbind option_bind].
    destruct (store_link_spec f k (get_chain f (links q)) (Some x) p l2 Hl Hc) as (p' & H1 & H2 & H3 & H4 & H5 & H6).
    { intros y Hy Hy2. apply (Hk y Hy). by right. }
    exists p', (get_chain f (links q)). rewrite app_nil_r. done.
  - destruct Hc as [-> (q & Hq & Hc)]. cbn in Hnd. apply NoDup_cons in Hnd as [Hz Hnd].
    rewrite decide_False by set_solver.
    destruct (IH (Field z) l1 p (get_chain f (links q))) as (p' & cur' & H1 & H2 & H3 & H4 & H5 & H6);
      [cbn; by rewrite Hq|done|done|cbn; set_solver|cbn in Hlen; lia|]. cbn [link_table link_nodes] in H4, H6.
    exists p', (Some z). split; [done|].
    assert (Hload : load_link f k p' = Some (Some z)).
    { destruct k as [i|y]; cbn in *; [by rewrite H6|]. rewrite (proj1 H4 y); [done|]. set_solver. }
    split; [done|]. split.
    { split; [done|]. cbn in H2. destruct (requests p' !! z) as [q'|]; [|done]. exists q'. cbn in H2.
      split; [done|]. by injection H2 as ->. }
    split; [apply (touches_weaken _ ([z] ++ l1)); [set_solver|exact H4]|]. split; [done|].
    destruct k as [i|y]; cbn in *; [|done]. destruct (get_table f p) as [t|]; [|done]. exists t.
    split; [done|]. rewrite H6. f_equal. cbn in Hl. by rewrite list_insert_id.
Qed.

(** The array of a chain, with the nodes of its buckets. *)
Definition table_ok (p : queues_t) (f : chain_field) (bk : nat -> list ptr) : Prop :=
  exists t, get_table f p = Some t /\ zlen t = pending_bucket_count p /\
    forall b o, t !! b = Some o -> chain (requests p) f o (bk b).

Lemma chain_present h f x l y : chain h f x l -> y ∈ l -> is_Some (h !! y).
Proof.
  revert x. induction l as [|z l IH]; intros x Hc Hy; [by apply not_elem_of_nil in Hy|].
  destruct Hc as [_ (q & Hq & Hc)]. apply elem_of_cons in Hy as [->|Hy]; [by exists q|by eapply IH].
Qed.

Lemma nodes_bound (h : heap) (l : list ptr) : NoDup l -> (forall y, y ∈ l -> is_Some (h !! y)) -> (length l <= size h)%nat.
Proof.
  intros Hnd Hl. rewrite <- size_dom. rewrite <- (size_list_to_set (C := gset ptr) l Hnd).
  apply subseteq_size. intros y Hy. apply elem_of_list_to_set in Hy. apply elem_of_dom. auto.
Qed.

Lemma bucket_lookup f p r b bk : table_ok p f bk -> bucket_of f r (pending_bucket_count p) = Some b ->
  exists t o, get_table f p = Some t /\ t !! b = Some o.
Proof.
  intros (t & Ht & Hn & Hc) Hb. unfold bucket_of in Hb. case_if_in Hb; [done|]. injection Hb as <-.
  pose proof (zlen_nonneg t). rewrite <- Hn in *.
  destruct (lookup_lt_is_Some_2 t (Z.to_nat (chain_key f r mod zlen t))) as [o Ho]; [|by exists t, o].
  pose proof (Z.mod_pos_bound (chain_key f r) (zlen t)). unfold zlen in *. lia.
Qed.

(** The number of buckets is the length of one array. *)
Lemma bucket_count_hash p t : pending_buckets p = Some t -> pending_bucket_count p = zlen t.
Proof. unfold pending_bucket_count. by intros ->. Qed.

Lemma bucket_count_kept f p p' : keeps_other_chains f p p' ->
  (f = HASH_NEXT -> exists t t', get_table f p = Some t /\ get_table f p' = Some t' /\ length t = length t') ->
  pending_bucket_count p' = pending_bucket_count p.
Proof.
  intros (_ & Ht & _) Hh. unfold pending_bucket_count. destruct f.
  - destruct (Hh eq_refl) as (t & t' & H1 & H2 & Hl). cbn in H1, H2. rewrite H1, H2. unfold zlen. by rewrite Hl.
  - specialize (Ht HASH_NEXT). cbn in Ht. by rewrite Ht.
Qed.

Lemma link_table_count f i v p p' : keeps_other_chains f p p' -> link_table f (Slot i) v p p' ->
  pending_bucket_count p' = pending_bucket_count p.
Proof.
  intros Hk (t & H1 & H2). apply (bucket_count_kept f); [done|]. intros _. exists t, (<[i := v]> t).
  by rewrite length_insert.
Qed.

(** A store to a slot changes that bucket alone. *)
Lemma table_ok_slot f i v p p' bk l k : table_ok p f bk -> keeps_other_chains f p p' -> link_table f (Slot i) v p p' ->
  touches (Chain f) l (requests p) (requests p') -> (forall b y, b <> i -> y ∈ bk b -> y ∉ l) ->
  chain (requests p') f v k -> table_ok p' f (fun b => if decide (b = i) then k else bk b).
Proof.
  intros (t & Ht & Hn & Hc) Hk Hlt Hto Hd Hv. pose proof (link_table_count _ _ _ _ _ Hk Hlt) as Hcnt.
  destruct Hlt as (t' & Ht' & H2). rewrite Ht in Ht'. injection Ht' as <-.
  exists (<[i := v]> t). split; [done|]. split; [unfold zlen; rewrite length_insert; rewrite Hcnt; exact Hn|].
  intros b o Ho. case_decide as Hb.
  - subst b. apply list_lookup_insert_Some in Ho as [(_ & <- & _)|(? & _)]; done.
  - rewrite list_lookup_insert_ne in Ho by done. apply (touches_chain_kept _ _ _ _ _ _ _ Hto); [right|by apply Hc].
    intros y. by apply Hd.
Qed.

Lemma unchain_spec f x l1 l2 p q b bk : table_ok p f bk -> requests p !! x = Some q ->
  bucket_of f (content q) (pending_bucket_count p) = Some b -> bk b = l1 ++ x :: l2 -> NoDup (bk b) ->
  (forall b' y, b' <> b -> y ∈ bk b' -> y ∉ bk b) ->
  exists p', unchain f x p = Some p' /\ keeps_other_chains f p p' /\
    touches (Chain f) (l1 ++ l2) (requests p) (requests p') /\
    pending_bucket_count p' = pending_bucket_count p /\
    table_ok p' f (fun b' => if decide (b' = b) then l1 ++ l2 else bk b').
Proof.
  intros Hok Hq Hb Hbk Hnd Hd. unfold unchain. rewrite Hq. cbn [mbind option_bind]. rewrite Hb. cbn [mbind option_bind].
  destruct (bucket_lookup f p _ b bk Hok Hb) as (t & o & Ht & Ho).
  assert (Hc : chain (requests p) f o (bk b)).
  { destruct Hok as (t' & Ht' & _ & Hc). rewrite Ht in Ht'. injection Ht' as <-. by apply Hc. }
  rewrite Hbk in Hc, Hnd.
  assert (Hlen : (length (l1 ++ x :: l2) <= size (requests p))%nat).
  { apply nodes_bound; [done|]. intros y. by eapply chain_present. }
  rewrite length_app in Hlen. cbn in Hlen.
  destruct (unchain_loop_spec f x l2 (S (size (requests p))) (Slot b) l1 p o) as (p' & cur & H1 & H2 & H3 & H4 & H5 & H6);
    [cbn; by rewrite Ht|done|done|cbn; set_solver|lia|].
  exists p'. split; [done|]. split; [done|]. cbn [link_nodes app] in H4.
  split; [apply (touches_weaken _ l1); [set_solver|done]|]. split; [by eapply link_table_count|].
  apply (table_ok_slot f b cur p p' bk l1); [done|done|done|done| |done].
  intros b' y Hb' Hy Hy1. apply (Hd b' y Hb' Hy). rewrite Hbk. set_solver.
Qed.

Lemma push_chain_spec f x p q b bk : table_ok p f bk -> requests p !! x = Some q ->
  bucket_of f (content q) (pending_bucket_count p) = Some b -> (forall b', x ∉ bk b') ->
  exists p', push_chain f x p = Some p' /\ keeps_other_chains f p p' /\
    touches (Chain f) [x] (requests p) (requests p') /\
    pending_bucket_count p' = pending_bucket_count p /\
    table_ok p' f (fun b' => if decide (b' = b) then x :: bk b else bk b').
Proof.
  intros Hok Hq Hb Hx. unfold push_chain. rewrite Hq. cbn [mbind option_bind]. rewrite Hb. cbn [mbind option_bind].
  destruct (bucket_lookup f p _ b bk Hok Hb) as (t & o & Ht & Ho).
  assert (Hc : chain (requests p) f o (bk b)).
  { destruct Hok as (t' & Ht' & _ & Hc). rewrite Ht in Ht'. injection Ht' as <-. by apply Hc. }
  cbn [load_link]. rewrite Ht. cbn [mbind option_bind]. rewrite Ho. cbn [mbind option_bind].
  rewrite (update_links_run _ _ _ _ Hq). cbn [mbind option_bind].
  set (p1 := set_requests p (<[x := with_links (set_chain f o) q]> (requests p))).
  assert (Ht1 : touches (Chain f) [x] (requests p) (requests p1)) by (apply touches_chain; [done|by left]).
  assert (Hc1 : chain (requests p1) f (Some x) (x :: bk b)).
  { split; [done|]. exists (with_links (set_chain f o) q). unfold p1. cbn [requests set_requests]. rewrite lookup_insert_eq.
    split; [done|]. cbn [with_links links]. autorewrite with links.
    apply (touches_chain_kept _ _ _ _ _ _ _ Ht1); [right|done]. intros y Hy Hyx. apply (Hx b). set_solver. }
  destruct (store_link_spec f (Slot b) (Some x) o p1 (x :: bk b)) as (p' & H1 & H2 & H3 & H4 & H5 & H6);
    [unfold p1; cbn; autorewrite with links; by rewrite Ht|done|cbn; set_solver|].
  assert (Hk : keeps_other_chains f p p') by (eapply keeps_chains_trans; [apply keeps_chains_requests|exact H5]).
  assert (Hlt : link_table f (Slot b) (Some x) p p').
  { destruct H6 as (t' & H6 & H7). exists t'. split; [|done]. revert H6. unfold p1. by autorewrite with links. }
  assert (Hto : touches (Chain f) [x] (requests p) (requests p')).
  { eapply touches_trans; [exact Ht1|]. apply (touches_weaken _ []); [set_solver|exact H4]. }
  exists p'. split; [done|]. split; [done|]. split; [done|]. split; [by eapply link_table_count|].
  eapply (table_ok_slot f b (Some x) p p' bk [x]); [done|done|done|done| |done].
  intros b' y _ Hy Hyx. apply (Hx b'). set_solver.
Qed.

Lemma find_chain_spec f which p l (fuel : nat) : forall x, chain (requests p) f x l -> (length l <= fuel)%nat ->
  exists res, find_chain fuel f which x p = Some res /\
    match res with
    | Some y => y ∈ l /\ exists q, requests p !! y = Some q /\ which (content q) = true
    | None => forall y q, y ∈ l -> requests p !! y = Some q -> which (content q) = false
    end.
Proof.
  revert fuel. induction l as [|y l IH]; intros fuel x Hc Hf.
  - cbn in Hc. subst x. exists None. split; [by destruct fuel|]. intros y q Hy. by apply not_elem_of_nil in Hy.
  - destruct Hc as [-> (q & Hq & Hc)]. destruct fuel as [|fuel]; [cbn in Hf; lia|]. cbn [find_chain]. rewrite Hq.
    cbn [mbind option_bind]. destruct (which (content q)) eqn:Hw.
    + exists (Some y). split; [done|]. split; [by left|by exists q].
    + destruct (IH fuel _ Hc) as ([z|] & -> & Hres); [cbn in Hf; lia| |].
      * exists (Some z). split; [done|]. split; [by right; apply Hres|by apply Hres].
      * exists None. split; [done|]. intros z qz Hz Hqz. apply elem_of_cons in Hz as [->|Hz]; [congruence|by eapply Hres].
Qed.

(** ** The shape of the heap *)

(** A function changed at one point. *)
Definition upd {A B} `{EqDecision A} (a : A) (v : B) (f : A -> B) : A -> B := fun a' => if decide (a' = a) then v else f a'.

Lemma upd_eq {A B} `{EqDecision A} (a : A) (v : B) f : upd a v f a = v.
Proof. unfold upd. by rewrite decide_True. Qed.
Lemma upd_ne {A B} `{EqDecision A} (a a' : A) (v : B) f : a' <> a -> upd a v f a' = f a'.
Proof. intros H. unfold upd. by rewrite decide_False. Qed.

(** The nodes of every list; a node in no work list has no successor there. *)
Record shape (p : queues_t) (ls : list_name -> list ptr) : Prop := {
  sh_nodup : forall l, NoDup (ls l);
  sh_list : forall l, dlist (requests p) (fields_of l) (ls l) (get_ends l p);
  sh_disjoint : forall x, x ∈ ls NOTIFY -> x ∉ ls READY;
  sh_idle : forall x q, requests p !! x = Some q -> (x ∉ ls NOTIFY) -> (x ∉ ls READY) ->
    get_next WORK_LINKS (links q) = None
}.

Definition tables_ok (p : queues_t) (bk : chain_field -> nat -> list ptr) : Prop :=
  forall f, table_ok p f (bk f).

(** Lists with other fields, or with the same fields and other nodes. *)
Lemma shape_apart p ls l l' : shape p ls -> l' <> l -> Links (fields_of l') <> Links (fields_of l) \/
  forall x, x ∈ ls l' -> x ∉ ls l.
Proof.
  intros Hs Hne. destruct (decide (fields_of l' = fields_of l)) as [Hf|Hf]; [|left; congruence].
  right. destruct l, l'; try done; intros x Hx Hx'; [|]; by apply (sh_disjoint _ _ Hs x).
Qed.

Lemma dlist_kept F l h h' g k e : touches F l h h' -> (Links g <> F \/ forall x, x ∈ k -> x ∉ l) ->
  dlist h g k e -> dlist h' g k e.
Proof. intros Ht Hor (Hs & Hf & Hl). split; [|done]. by apply (touches_seg _ _ _ _ _ _ _ _ Ht). Qed.

(** The other lists are kept when one list and its nodes change. *)
Lemma shape_upd p p' ls l k k' : shape p ls -> keeps_other_lists l p p' ->
  touches (Links (fields_of l)) k' (requests p) (requests p') ->
  (forall l' x, l' <> l -> fields_of l' = fields_of l -> x ∈ ls l' -> x ∉ k') ->
  NoDup k -> dlist (requests p') (fields_of l) k (get_ends l p') -> (forall x, x ∈ k -> x ∈ k') ->
  (forall x q, requests p' !! x = Some q -> (x ∉ upd l k ls NOTIFY) -> (x ∉ upd l k ls READY) ->
    get_next WORK_LINKS (links q) = None) ->
  shape p' (upd l k ls).
Proof.
  intros Hs (He & _ & _) Ht Hap Hnd Hd Hkk Hidle. split.
  - intros l'. destruct (decide (l' = l)) as [->|Hl]; [by rewrite upd_eq|rewrite upd_ne by done; apply (sh_nodup _ _ Hs)].
  - intros l'. destruct (decide (l' = l)) as [->|Hl]; [by rewrite upd_eq|]. rewrite upd_ne, He by done.
    apply (dlist_kept _ _ _ _ _ _ _ Ht); [|apply (sh_list _ _ Hs)].
    destruct (decide (fields_of l' = fields_of l)); [right; intros x; by apply Hap|left; congruence].
  - intros x. destruct (decide (l = NOTIFY)) as [->|Hn].
    + rewrite upd_eq, upd_ne by done. intros Hx Hx'. by apply (Hap READY x ltac:(done) eq_refl Hx'), Hkk.
    + destruct (decide (l = READY)) as [->|Hr].
      * rewrite upd_eq, upd_ne by done. intros Hx Hx'. by apply (Hap NOTIFY x ltac:(done) eq_refl Hx), Hkk.
      * rewrite !upd_ne by congruence. apply (sh_disjoint _ _ Hs).
  - exact Hidle.
Qed.

Lemma shape_same_fields p ls l l' x : shape p ls -> l' <> l -> fields_of l' = fields_of l -> x ∈ ls l' -> x ∉ ls l.
Proof. intros Hs Hne Hf Hx. destruct (shape_apart p ls l l' Hs Hne) as [H|H]; [congruence|by apply H]. Qed.

(** The idle nodes of a list that is not a work list. *)
Lemma idle_kept p p' ls l k : shape p ls -> fields_of l <> WORK_LINKS ->
  touches (Links (fields_of l)) k (requests p) (requests p') ->
  forall k0 x q, requests p' !! x = Some q -> (x ∉ upd l k0 ls NOTIFY) -> (x ∉ upd l k0 ls READY) ->
    get_next WORK_LINKS (links q) = None.
Proof.
  intros Hs Hf (_ & Hn & Hk) k0 x q Hq. assert (Hl : NOTIFY <> l /\ READY <> l) by (by destruct l).
  rewrite !upd_ne by tauto. intros H1 H2. destruct (requests p !! x) as [q0|] eqn:Hq0; [|rewrite Hn in Hq; done].
  destruct (Hk x q0 Hq0) as (q' & Hq' & _ & Hsf & _). rewrite Hq in Hq'. injection Hq' as <-.
  destruct (Hsf WORK_LINKS) as [<- _]; [congruence|]. by apply (sh_idle _ _ Hs x).
Qed.

Lemma shape_unlink p ls l x l1 l2 : shape p ls -> fields_of l <> WORK_LINKS -> ls l = l1 ++ x :: l2 ->
  exists p', unlink l x p = Some p' /\ keeps_other_lists l p p' /\
    touches (Links (fields_of l)) (ls l) (requests p) (requests p') /\ shape p' (upd l (l1 ++ l2) ls).
Proof.
  intros Hs Hf Hl. pose proof (sh_nodup _ _ Hs l) as Hnd. pose proof (sh_list _ _ Hs l) as Hd. rewrite Hl in Hnd, Hd.
  destruct (unlink_spec l x l1 l2 p Hnd Hd) as (p' & Hp & Hk & Ht & Hd').
  assert (Ht' : touches (Links (fields_of l)) (ls l) (requests p) (requests p')).
  { rewrite Hl. apply (touches_weaken _ (l1 ++ l2)); [set_solver|done]. }
  exists p'. split; [done|]. split; [done|]. split; [done|].
  apply (shape_upd p p' ls l (l1 ++ l2) (ls l)); [done|done|done| |apply (NoDup_middle _ _ _ Hnd)|done| |].
  - intros l' y. by apply shape_same_fields with p.
  - rewrite Hl. set_solver.
  - by eapply idle_kept.
Qed.

Lemma shape_unlink_clear p ls l x l1 l2 : shape p ls -> ls l = l1 ++ x :: l2 ->
  exists p', unlink_clear l x p = Some p' /\ keeps_other_lists l p p' /\
    touches (Links (fields_of l)) (ls l) (requests p) (requests p') /\ shape p' (upd l (l1 ++ l2) ls).
Proof.
  intros Hs Hl. pose proof (sh_nodup _ _ Hs l) as Hnd. pose proof (sh_list _ _ Hs l) as Hd. rewrite Hl in Hnd, Hd.
  destruct (unlink_clear_spec l x l1 l2 p Hnd Hd) as (p' & Hp & Hk & Ht & Hd' & q0 & Hq0 & Hn0 & _).
  rewrite <- Hl in Ht. exists p'. split; [done|]. split; [done|]. split; [done|].
  apply (shape_upd p p' ls l (l1 ++ l2) (ls l)); [done|done|done| |apply (NoDup_middle _ _ _ Hnd)|done| |].
  - intros l' y. by apply shape_same_fields with p.
  - rewrite Hl. set_solver.
  - destruct (decide (fields_of l = WORK_LINKS)) as [Hw|Hw]; [|by eapply idle_kept].
    intros y q Hq Hy1 Hy2. destruct (decide (y = x)) as [->|Hyx]; [rewrite Hq0 in Hq; injection Hq as <-; by rewrite <- Hw|].
    assert (Hy : (y ∉ ls l) /\ (y ∉ ls NOTIFY) /\ y ∉ ls READY).
    { destruct l; try done; rewrite upd_eq, upd_ne in * by done; rewrite Hl in *; set_solver. }
    destruct Hy as (Hy & Hyn & Hyr). destruct Ht as (Ho & _). rewrite Ho in Hq by done. by apply (sh_idle _ _ Hs y).
Qed.

Lemma shape_append p ls l x q : shape p ls -> (x ∉ ls l) -> requests p !! x = Some q ->
  get_next (fields_of l) (links q) = None ->
  (forall l', l' <> l -> fields_of l' = fields_of l -> x ∉ ls l') ->
  exists p', append l x p = Some p' /\ keeps_other_lists l p p' /\
    touches (Links (fields_of l)) (ls l ++ [x]) (requests p) (requests p') /\ shape p' (upd l (ls l ++ [x]) ls).
Proof.
  intros Hs Hx Hq Hn Hap. destruct (append_spec l x (ls l) p q Hx Hq Hn (sh_nodup _ _ Hs l) (sh_list _ _ Hs l))
    as (p' & Hp & Hk & Ht & Hd').
  exists p'. split; [done|]. split; [done|]. split; [done|].
  apply (shape_upd p p' ls l (ls l ++ [x]) (ls l ++ [x])); [done|done|done| | |done|done|].
  - intros l' y Hl' Hf Hy. rewrite elem_of_app, list_elem_of_singleton. intros [Hy0| ->]; [|by apply (Hap l')].
    by apply (shape_same_fields p ls l l' y).
  - apply NoDup_app. split; [apply (sh_nodup _ _ Hs)|]. split; [set_solver|apply NoDup_singleton].
  - destruct (decide (fields_of l = WORK_LINKS)) as [Hw|Hw]; [|by eapply idle_kept].
    intros y qy Hqy Hy1 Hy2.
    assert (Hy : (y ∉ ls l ++ [x]) /\ (y ∉ ls NOTIFY) /\ y ∉ ls READY).
    { destruct l; try done; rewrite upd_eq, upd_ne in * by done; set_solver. }
    destruct Hy as (Hy & Hyn & Hyr). destruct Ht as (Ho & _). rewrite Ho in Hqy by done. by apply (sh_idle _ _ Hs y).
Qed.

(** The operations on lists keep the chains, and the other way round. *)
Lemma tables_kept l p p' f k bk : keeps_other_lists l p p' ->
  touches (Links f) k (requests p) (requests p') -> tables_ok p bk -> tables_ok p' bk.
Proof.
  intros (_ & Hk & _) Ht Hok g. destruct (Hok g) as (t & Htb & Hn & Hc). exists t. rewrite Hk. split; [done|].
  split; [|intros b o Ho; apply (touches_chain_kept _ _ _ _ _ _ _ Ht); [by left|by apply Hc]].
  rewrite Hn. unfold pending_bucket_count. specialize (Hk HASH_NEXT). cbn in Hk. by rewrite Hk.
Qed.

Lemma shape_kept f p p' k ls : keeps_other_chains f p p' ->
  touches (Chain f) k (requests p) (requests p') -> shape p ls -> shape p' ls.
Proof.
  intros (Hk & _ & _) Ht Hs. split.
  - apply (sh_nodup _ _ Hs).
  - intros l. rewrite Hk. apply (dlist_kept _ _ _ _ _ _ _ Ht); [by left|apply (sh_list _ _ Hs)].
  - apply (sh_disjoint _ _ Hs).
  - intros x q Hq H1 H2. destruct Ht as (_ & Hn & Hc). destruct (requests p !! x) as [q0|] eqn:Hq0; [|rewrite Hn in Hq; done].
    destruct (Hc x q0 Hq0) as (q' & Hq' & _ & Hsf & _). rewrite Hq in Hq'. injection Hq' as <-.
    destruct (Hsf WORK_LINKS) as [<- _]; [done|]. by apply (sh_idle _ _ Hs x).
Qed.

Lemma tables_upd f p p' k bk bk' : keeps_other_chains f p p' -> pending_bucket_count p' = pending_bucket_count p ->
  touches (Chain f) k (requests p) (requests p') -> tables_ok p bk -> table_ok p' f bk' -> tables_ok p' (upd f bk' bk).
Proof.
  intros (_ & Hk & _) Hcnt Ht Hok Hf g. destruct (decide (g = f)) as [->|Hg]; [by rewrite upd_eq|].
  rewrite upd_ne by done. destruct (Hok g) as (t & Htb & Hn & Hc). exists t. rewrite Hk, Hcnt by done.
  split; [done|]. split; [done|]. intros b o Ho. apply (touches_chain_kept _ _ _ _ _ _ _ Ht); [left; congruence|by apply Hc].
Qed.
