(* ===== verification/MuxPending.v ===== *)
(** * The pending requests of the mux mode: correctness (src/conn_mux.c)

    The linked structures of MuxQueues.v hold a sequence of requests: an abstract
    state, of which every operation of the code is shown to be a simple change. *)

From S2P Require Import Prelude Addr MuxMap MuxQueues.
From stdpp Require Import list gmap sorting.
#[local] Open Scope Z_scope.

Lemma shape_ext p ls ls' : (forall l, ls l = ls' l) -> shape p ls -> shape p ls'.
Proof.
  intros H [H1 H2 H3 H4].
  split; [intros l|intros l|intros x|intros x q]; rewrite <- !H; [apply H1|apply H2|apply H3|apply H4].
Qed.

Lemma tables_ext p bk bk' : (forall f b, bk f b = bk' f b) -> tables_ok p bk -> tables_ok p bk'.
Proof.
  intros H Hok f. destruct (Hok f) as (t & Ht & Hn & Hc). exists t. split; [done|]. split; [done|].
  intros b o. rewrite <- H. apply Hc.
Qed.

(** ** The abstract state *)

(** The requests in the order of their arrival, each with its node. *)
Abbreviation entries_t := (list (ptr * request_t)).

(** The nodes of the requests selected by [P]. *)
Definition nodes (P : request_t -> bool) (L : entries_t) : list ptr := (filter (fun e => P e.2 = true) L).*1.

Definition unattached (r : request_t) : bool := bool_decide (pr_agent r = None).
Definition attached (r : request_t) : bool := negb (unattached r).
Definition unnotified (r : request_t) : bool := negb (notified r).

Definition lists_of (L : entries_t) (R : list ptr) (l : list_name) : list ptr :=
  match l with PENDING => L.*1 | EXPIRY => nodes unattached L | NOTIFY => nodes unnotified L | READY => R end.

Definition in_bucket (f : chain_field) (n : Z) (b : nat) (r : request_t) : bool := bool_decide (bucket_of f r n = Some b).
Definition buckets_of (n : Z) (L : entries_t) (f : chain_field) (b : nat) : list ptr := reverse (nodes (in_bucket f n b) L).

(** The heap holds the requests [L], of which those in [R] are accepted, in this
    order.  All the lists and chains are determined by [L] and [R]. *)
Record rep (p : queues_t) (L : entries_t) (R : list ptr) : Prop := {
  rep_shape : shape p (lists_of L R);
  rep_tables : (pending_buckets p = None /\ pending_ids p = None /\ L = []) \/
    (0 < pending_bucket_count p /\ tables_ok p (buckets_of (pending_bucket_count p) L));
  rep_content : forall x r, (x, r) ∈ L <-> content <$> requests p !! x = Some r;
  rep_ready : R ≡ₚ nodes attached L;
  rep_verified : forall x r, (x, r) ∈ L -> attached r = true -> verified r = true;
  rep_notified : forall x r, (x, r) ∈ L -> verified r = true -> notified r = true;
  rep_count : pending_count p = zlen L /\ zlen L < 2 ^ 32
}.

Lemma nodes_app P L1 L2 : nodes P (L1 ++ L2) = nodes P L1 ++ nodes P L2.
Proof. unfold nodes. by rewrite filter_app, fmap_app. Qed.
Lemma nodes_cons P x r L : nodes P ((x, r) :: L) = (if P r then [x] else []) ++ nodes P L.
Proof. unfold nodes. rewrite filter_cons. cbn. destruct (P r); by case_decide. Qed.

Lemma elem_of_nodes P L x : x ∈ nodes P L <-> exists r, (x, r) ∈ L /\ P r = true.
Proof.
  unfold nodes. rewrite list_elem_of_fmap. split.
  - intros ([y r] & -> & H). apply list_elem_of_filter in H as [HP Hin]. by exists r.
  - intros (r & Hin & HP). exists (x, r). split; [done|]. by apply list_elem_of_filter.
Qed.

Lemma NoDup_nodes P L : NoDup L.*1 -> NoDup (nodes P L).
Proof.
  induction L as [|[x r] L IH]; intros H; [constructor|]. rewrite nodes_cons. cbn in H.
  apply NoDup_cons in H as [Hx H]. destruct (P r); [|by apply IH]. apply NoDup_cons. split; [|by apply IH].
  rewrite elem_of_nodes. intros (r' & Hin & _). apply Hx. apply list_elem_of_fmap. by exists (x, r').
Qed.

Lemma entries_unique (L : entries_t) x r r' : NoDup L.*1 -> (x, r) ∈ L -> (x, r') ∈ L -> r = r'.
Proof.
  intros Hnd H H'. induction L as [|[y s] L IH]; [by apply not_elem_of_nil in H|].
  cbn in Hnd. apply NoDup_cons in Hnd as [Hy Hnd].
  assert (Hno : forall r, (y, r) ∉ L) by (intros r0 Hr; apply Hy, list_elem_of_fmap; by exists (y, r0)).
  apply elem_of_cons in H as [H|H], H' as [H'|H']; [congruence| | |by apply IH].
  - injection H as -> ->. by apply Hno in H'.
  - injection H' as -> ->. by apply Hno in H.
Qed.

Section Rep.
Context (p : queues_t) (L : entries_t) (R : list ptr) (Hrep : rep p L R).

Lemma rep_nodup : NoDup L.*1.
Proof using Hrep. exact (sh_nodup _ _ (rep_shape _ _ _ Hrep) PENDING). Qed.

Lemma rep_lookup x r : (x, r) ∈ L -> exists q, requests p !! x = Some q /\ content q = r.
Proof using Hrep.
  intros H. apply (rep_content _ _ _ Hrep) in H. destruct (requests p !! x) as [q|]; [|done].
  exists q. split; [done|]. by injection H.
Qed.

Lemma rep_in x q : requests p !! x = Some q -> (x, content q) ∈ L.
Proof using Hrep. intros H. apply (rep_content _ _ _ Hrep). by rewrite H. Qed.

Lemma rep_first : first_of (pending_ends p) = head L.*1.
Proof using Hrep. exact (proj1 (proj2 (sh_list _ _ (rep_shape _ _ _ Hrep) PENDING))). Qed.

Lemma rep_bucket f r : L <> [] -> exists b, bucket_of f r (pending_bucket_count p) = Some b.
Proof using Hrep.
  intros HL. destruct (rep_tables _ _ _ Hrep) as [(_ & _ & ?)|[Hn _] ]; [done|].
  unfold bucket_of. rewrite (proj2 (Z.eqb_neq _ _)) by lia. eauto.
Qed.

Lemma rep_ready_elem x : x ∈ R <-> exists r, (x, r) ∈ L /\ attached r = true.
Proof using Hrep. rewrite (rep_ready _ _ _ Hrep). apply elem_of_nodes. Qed.
End Rep.

(** Removal of one entry from the lists of an abstract state. *)
Lemma nodes_middle P L1 L2 x r : P r = true -> nodes P (L1 ++ (x, r) :: L2) = nodes P L1 ++ x :: nodes P L2.
Proof. intros H. by rewrite nodes_app, nodes_cons, H. Qed.
Lemma nodes_skip P L1 L2 x r : P r = false -> nodes P (L1 ++ (x, r) :: L2) = nodes P (L1 ++ L2).
Proof. intros H. by rewrite !nodes_app, nodes_cons, H. Qed.

(** The chain of a request without it. *)
Lemma buckets_remove n L1 L2 x r f b : NoDup (L1 ++ (x, r) :: L2).*1 -> bucket_of f r n = Some b ->
  buckets_of n (L1 ++ (x, r) :: L2) f b =
    reverse (nodes (in_bucket f n b) L2) ++ x :: reverse (nodes (in_bucket f n b) L1) /\
  forall b', (if decide (b' = b) then reverse (nodes (in_bucket f n b) L2) ++ reverse (nodes (in_bucket f n b) L1)
              else buckets_of n (L1 ++ (x, r) :: L2) f b') = buckets_of n (L1 ++ L2) f b'.
Proof.
  intros Hnd Hb. unfold buckets_of. split.
  - rewrite nodes_middle by (unfold in_bucket; by apply bool_decide_eq_true).
    by rewrite reverse_app, reverse_cons, <- app_assoc.
  - intros b'. case_decide as Hbb; [subst b'; by rewrite nodes_app, reverse_app|].
    rewrite nodes_skip; [done|]. unfold in_bucket. apply bool_decide_eq_false. congruence.
Qed.

(** One chain loses the node [x]. *)
Lemma rep_unchain p L1 L2 x r f b bk ls q : let n := pending_bucket_count p in
  let L := L1 ++ (x, r) :: L2 in
  NoDup L.*1 -> shape p ls -> tables_ok p bk -> (forall b, bk f b = buckets_of n L f b) ->
  requests p !! x = Some q -> content q = r -> bucket_of f r n = Some b ->
  exists p', unchain f x p = Some p' /\ keeps_other_chains f p p' /\ pending_bucket_count p' = n /\
    touches (Chain f) (L.*1) (requests p) (requests p') /\ shape p' ls /\
    tables_ok p' (upd f (buckets_of n (L1 ++ L2) f) bk).
Proof.
  intros n L Hnd Hs Ht Hbk Hq Hr Hb. destruct (buckets_remove n L1 L2 x r f b Hnd Hb) as [Hsplit Hrest].
  assert (Hin : forall b y, y ∈ buckets_of n L f b -> exists s, (y, s) ∈ L /\ bucket_of f s n = Some b).
  { intros b0 y Hy. unfold buckets_of in Hy. rewrite elem_of_reverse, elem_of_nodes in Hy.
    destruct Hy as (s & Hin & Hs'). exists s. split; [done|]. unfold in_bucket in Hs'. by apply bool_decide_eq_true in Hs'. }
  destruct (unchain_spec f x (reverse (nodes (in_bucket f n b) L2)) (reverse (nodes (in_bucket f n b) L1)) p q b (bk f))
    as (p' & Hp & Hk & Hto & Hc & Htab); [apply Ht|done|by rewrite Hr|by rewrite Hbk| | |].
  - rewrite Hbk. unfold buckets_of. rewrite reverse_Permutation. apply NoDup_nodes, Hnd.
  - intros b' y Hb' Hy Hy'. rewrite Hbk in Hy, Hy'. apply Hin in Hy as (s & Hy & Hbs), Hy' as (s' & Hy' & Hbs').
    pose proof (entries_unique L y s s' Hnd Hy Hy'). subst s'. congruence.
  - exists p'. split; [done|]. split; [done|]. split; [done|].
    assert (Hto' : touches (Chain f) (L.*1) (requests p) (requests p')).
    { apply (touches_weaken _ (reverse (nodes (in_bucket f n b) L2) ++ reverse (nodes (in_bucket f n b) L1))); [|done].
      intros y. rewrite elem_of_app, !elem_of_reverse, !elem_of_nodes, list_elem_of_fmap.
      intros [(s & Hy & _)|(s & Hy & _)]; exists (y, s); (split; [done|]); unfold L; set_solver. }
    split; [done|]. split; [by eapply shape_kept|].
    apply (tables_ext p' (upd f (fun b' => if decide (b' = b) then
      reverse (nodes (in_bucket f n b) L2) ++ reverse (nodes (in_bucket f n b) L1) else bk f b') bk)).
    + intros g b'. destruct (decide (g = f)) as [->|Hg]; [|by rewrite !upd_ne]. rewrite !upd_eq, <- Hrest.
      case_decide; [done|apply Hbk].
    + by eapply tables_upd.
Qed.

(** ** Removal of a request *)

Definition without (x : ptr) (R : list ptr) : list ptr := filter (fun y => y <> x) R.

Lemma without_notin x R : x ∉ R -> without x R = R.
Proof.
  intros H. unfold without. induction R as [|y R IH]; [done|]. rewrite filter_cons, decide_True by set_solver.
  rewrite IH by set_solver. done.
Qed.
Lemma without_middle x R1 R2 : NoDup (R1 ++ x :: R2) -> without x (R1 ++ x :: R2) = R1 ++ R2.
Proof.
  intros H. apply NoDup_middle in H as [_ H]. unfold without. rewrite filter_app, filter_cons, decide_False by tauto.
  rewrite <- filter_app. by apply (without_notin x).
Qed.

(** The heap keeps its nodes with what they hold. *)
Definition same_content (h h' : heap) : Prop := forall x, content <$> h' !! x = content <$> h !! x.

Lemma same_content_trans h1 h2 h3 : same_content h1 h2 -> same_content h2 h3 -> same_content h1 h3.
Proof. intros H H' x. by rewrite H', H. Qed.
Lemma touches_same_content F l h h' : touches F l h h' -> same_content h h'.
Proof. intros H x. symmetry. by eapply touches_content. Qed.
Lemma same_content_lookup h h' x q : same_content h h' -> h !! x = Some q ->
  exists q', h' !! x = Some q' /\ content q' = content q.
Proof.
  intros H Hq. specialize (H x). rewrite Hq in H. destruct (h' !! x) as [q'|]; [|done]. exists q'.
  split; [done|]. by injection H.
Qed.

Lemma lists_count l p p' : keeps_other_lists l p p' ->
  pending_bucket_count p' = pending_bucket_count p /\ pending_count p' = pending_count p.
Proof. intros (_ & H & ?). split; [|done]. unfold pending_bucket_count. specialize (H HASH_NEXT). cbn in H. by rewrite H. Qed.

(** A step on one list in the middle of a removal. *)
Lemma leave_list p ls bk l x l1 l2 : shape p ls -> tables_ok p bk -> ls l = l1 ++ x :: l2 ->
  exists p', unlink_clear l x p = Some p' /\ shape p' (upd l (l1 ++ l2) ls) /\ tables_ok p' bk /\
    same_content (requests p) (requests p') /\
    pending_bucket_count p' = pending_bucket_count p /\ pending_count p' = pending_count p.
Proof.
  intros Hs Ht Hl. destruct (shape_unlink_clear p ls l x l1 l2 Hs Hl) as (p' & Hp & Hk & Hto & Hs').
  exists p'. split; [done|]. split; [done|]. split; [by eapply tables_kept|].
  split; [by eapply touches_same_content|by eapply lists_count].
Qed.

Section Remove.
Context (p : queues_t) (L1 L2 : entries_t) (R : list ptr) (x : ptr) (r : request_t).
#[local] Abbreviation L := (L1 ++ (x, r) :: L2).
Context (Hrep : rep p L R).

(** The two chains lose the node. *)
Lemma remove_chains : exists p1 p2 q,
  unchain HASH_NEXT x p = Some p1 /\ unchain ID_NEXT x p1 = Some p2 /\
  requests p2 !! x = Some q /\ content q = r /\ same_content (requests p) (requests p2) /\
  shape p2 (lists_of L R) /\ tables_ok p2 (buckets_of (pending_bucket_count p) (L1 ++ L2)) /\
  pending_bucket_count p2 = pending_bucket_count p /\ pending_count p2 = pending_count p.
Proof using Hrep.
  pose proof (rep_nodup _ _ _ Hrep) as Hnd. assert (HL : L <> []) by (by destruct L1).
  destruct (rep_tables _ _ _ Hrep) as [(_ & _ & ?)|[Hn Ht] ]; [done|].
  destruct (rep_lookup _ _ _ Hrep x r) as (q & Hq & Hqr); [set_solver|].
  destruct (rep_bucket _ _ _ Hrep HASH_NEXT r HL) as [b1 Hb1], (rep_bucket _ _ _ Hrep ID_NEXT r HL) as [b2 Hb2].
  destruct (rep_unchain p L1 L2 x r HASH_NEXT b1 (buckets_of (pending_bucket_count p) L) (lists_of L R) q)
    as (p1 & Hp1 & Hk1 & Hc1 & Ht1 & Hs1 & Htab1); [done|apply (rep_shape _ _ _ Hrep)|done|done|done|done|done|].
  destruct (same_content_lookup _ _ x q (touches_same_content _ _ _ _ Ht1) Hq) as (q1 & Hq1 & Hc).
  destruct (rep_unchain p1 L1 L2 x r ID_NEXT b2
    (upd HASH_NEXT (buckets_of (pending_bucket_count p) (L1 ++ L2) HASH_NEXT) (buckets_of (pending_bucket_count p) L))
    (lists_of L R) q1) as (p2 & Hp2 & Hk2 & Hc2 & Ht2 & Hs2 & Htab2); try rewrite Hc1; try done; [congruence|].
  destruct (same_content_lookup _ _ x q1 (touches_same_content _ _ _ _ Ht2) Hq1) as (q2 & Hq2 & Hc').
  exists p1, p2, q2. split; [done|]. split; [done|]. split; [done|]. split; [congruence|].
  split; [eapply same_content_trans; by eapply touches_same_content|]. split; [done|].
  split; [|split; [congruence|destruct Hk1 as (_ & _ & ?), Hk2 as (_ & _ & ?); congruence]].
  apply (tables_ext p2 (upd ID_NEXT (buckets_of (pending_bucket_count p1) (L1 ++ L2) ID_NEXT)
    (upd HASH_NEXT (buckets_of (pending_bucket_count p) (L1 ++ L2) HASH_NEXT) (buckets_of (pending_bucket_count p) L))));
    [|done]. rewrite Hc1. intros [|] b; done.
Qed.

(** The work lists and the list by deadline lose it. *)
Lemma remove_lists p2 q bk : shape p2 (lists_of L R) -> tables_ok p2 bk -> content q = r ->
  exists p3, (match pr_agent (content q) with
              | Some _ => remove_work READY x p2
              | None => p ← remove_expiry x p2; if notified (content q) then Some p else remove_work NOTIFY x p
              end) = Some p3 /\
    shape p3 (upd PENDING L.*1 (lists_of (L1 ++ L2) (without x R))) /\ tables_ok p3 bk /\
    same_content (requests p2) (requests p3) /\
    pending_bucket_count p3 = pending_bucket_count p2 /\ pending_count p3 = pending_count p2.
Proof using Hrep.
  intros Hs Ht ->. pose proof (rep_ready_elem _ _ _ Hrep x) as HR. pose proof (rep_nodup _ _ _ Hrep) as Hnd.
  assert (Hin : (x, r) ∈ L) by set_solver.
  pose proof (sh_nodup _ _ Hs READY) as HndR. cbn in HndR.
  unfold remove_work, remove_expiry. destruct (pr_agent r) as [a|] eqn:Ha.
  - assert (Hat : attached r = true) by (unfold attached, unattached; by rewrite Ha).
    assert (Hun : unattached r = false) by (by destruct (unattached r) eqn:E; unfold attached in Hat; rewrite ?E in *).
    assert (Hno : unnotified r = false).
    { unfold unnotified. rewrite (rep_notified _ _ _ Hrep x r Hin); [done|]. by apply (rep_verified _ _ _ Hrep x r Hin). }
    assert (HxR : x ∈ R) by (apply HR; by exists r). apply list_elem_of_split in HxR as (R1 & R2 & ER). subst R.
    destruct (leave_list p2 _ bk READY x R1 R2 Hs Ht eq_refl) as (p3 & Hp & Hs3 & Hrest). exists p3. split; [done|].
    split; [|done]. eapply shape_ext; [|exact Hs3]. intros [| | |]; repeat first [rewrite upd_eq|rewrite upd_ne by done]; cbn [lists_of]; try done.
    + by rewrite nodes_skip.
    + by rewrite nodes_skip.
    + by rewrite without_middle.
  - assert (Hun : unattached r = true) by (unfold unattached; by rewrite Ha).
    assert (HxR : x ∉ R).
    { rewrite HR. intros (s & Hs' & Hat). pose proof (entries_unique L x r s Hnd Hin Hs'). subst s.
      unfold attached in Hat. by rewrite Hun in Hat. }
    destruct (leave_list p2 _ bk EXPIRY x (nodes unattached L1) (nodes unattached L2) Hs Ht (nodes_middle _ _ _ _ _ Hun))
      as (p3 & Hp & Hs3 & Ht3 & Hc3 & Hb3 & Hn3). rewrite Hp. cbn [mbind option_bind].
    destruct (notified r) eqn:En.
    + exists p3. split; [done|]. split; [|done]. eapply shape_ext; [|exact Hs3]. intros [| | |]; repeat first [rewrite upd_eq|rewrite upd_ne by done]; cbn [lists_of]; try done.
      * by rewrite nodes_app.
      * rewrite nodes_skip; [done|]. unfold unnotified. by rewrite En.
      * by rewrite without_notin.
    + assert (Hnot : unnotified r = true) by (unfold unnotified; by rewrite En).
      destruct (leave_list p3 _ bk NOTIFY x (nodes unnotified L1) (nodes unnotified L2) Hs3 Ht3)
        as (p4 & Hp4 & Hs4 & Ht4 & Hc4 & Hb4 & Hn4); [rewrite upd_ne by done; cbn; by apply nodes_middle|].
      exists p4. split; [done|]. split.
      { eapply shape_ext; [|exact Hs4]. intros [| | |]; repeat first [rewrite upd_eq|rewrite upd_ne by done]; cbn [lists_of]; try done; by rewrite ?nodes_app, ?without_notin. }
      split; [done|]. split; [by eapply same_content_trans|]. split; congruence.
Qed.
End Remove.

(** A node that is in no list is freed. *)
Lemma shape_delete p ls x n : shape p ls -> (forall l, x ∉ ls l) ->
  shape (set_requests (set_pending_count p n) (delete x (requests p))) ls.
Proof.
  intros Hs Hx. split.
  - apply (sh_nodup _ _ Hs).
  - intros l. destruct (sh_list _ _ Hs l) as (Hseg & Hf & Hl). split; [|by destruct l].
    apply (seg_frame (requests p)); [done|]. intros y q Hy Hq. exists q. cbn [requests set_requests].
    rewrite lookup_delete_ne by (intros ->; by apply (Hx l)). done.
  - apply (sh_disjoint _ _ Hs).
  - intros y q Hq. cbn [requests set_requests] in Hq. apply lookup_delete_Some in Hq as [_ Hq]. by apply (sh_idle _ _ Hs y).
Qed.

Lemma tables_delete p bk x n : tables_ok p bk -> (forall f b, x ∉ bk f b) ->
  tables_ok (set_requests (set_pending_count p n) (delete x (requests p))) bk.
Proof.
  intros Ht Hx f. destruct (Ht f) as (t & Htb & Hn & Hc). exists t. split; [by destruct f|]. split; [done|].
  intros b o Ho. apply (chain_frame (requests p)); [by apply Hc|]. intros y q Hy Hq. exists q. cbn [requests set_requests].
  rewrite lookup_delete_ne by (intros ->; by apply (Hx f b)). done.
Qed.

(** [remove_pending] removes exactly one request. *)
Lemma remove_pending_spec p L1 L2 R x r : rep p (L1 ++ (x, r) :: L2) R ->
  exists p', remove_pending x p = Some p' /\ rep p' (L1 ++ L2) (without x R) /\
    pending_bucket_count p' = pending_bucket_count p.
Proof.
  intros Hrep. pose proof (rep_nodup _ _ _ Hrep) as Hnd.
  destruct (remove_chains p L1 L2 R x r Hrep) as (p1 & p2 & q & Hp1 & Hp2 & Hq & Hqr & Hc2 & Hs2 & Ht2 & Hb2 & Hn2).
  destruct (remove_lists p L1 L2 R x r Hrep p2 q _ Hs2 Ht2 Hqr) as (p3 & Hp3 & Hs3 & Ht3 & Hc3 & Hb3 & Hn3).
  destruct (shape_unlink p3 _ PENDING x L1.*1 L2.*1 Hs3) as (p4 & Hp4 & Hk4 & Hto4 & Hs4);
    [done|rewrite upd_eq; by rewrite fmap_app|].
  unfold remove_pending. rewrite Hp1. cbn [mbind option_bind]. rewrite Hp2. cbn [mbind option_bind]. rewrite Hq.
  cbn [mbind option_bind]. rewrite Hp3. cbn [mbind option_bind]. rewrite Hp4. cbn [mbind option_bind].
  eexists. split; [done|]. destruct (lists_count _ _ _ Hk4) as [Hb4 Hn4].
  assert (Hx : forall s, (x, s) ∉ (L1 ++ L2)).
  { intros s Hs. rewrite fmap_app in Hnd. cbn in Hnd. apply NoDup_middle in Hnd as [_ Hnd]. apply Hnd.
    rewrite <- fmap_app. apply list_elem_of_fmap. by exists (x, s). }
  assert (Hcon : same_content (requests p) (requests p4)).
  { eapply same_content_trans; [exact Hc2|]. eapply same_content_trans; [exact Hc3|]. by eapply touches_same_content. }
  assert (Hs : shape p4 (lists_of (L1 ++ L2) (without x R))).
  { eapply shape_ext; [|exact Hs4]. intros [| | |]; [rewrite upd_eq; cbn; by rewrite fmap_app|done|done|done]. }
  destruct (rep_count _ _ _ Hrep) as [Hcnt Hlt]. rewrite zlen_app, zlen_cons in Hcnt, Hlt.
  pose proof (zlen_nonneg L1). pose proof (zlen_nonneg L2).
  split; [|change (pending_bucket_count p4 = pending_bucket_count p); congruence]. split.
  - apply shape_delete; [done|]. intros [| | |]; cbn.
    + rewrite list_elem_of_fmap. intros ([y s] & -> & Hy). by apply (Hx s).
    + rewrite elem_of_nodes. intros (s & Hy & _). by apply (Hx s).
    + rewrite elem_of_nodes. intros (s & Hy & _). by apply (Hx s).
    + unfold without. rewrite list_elem_of_filter. tauto.
  - right. destruct (rep_tables _ _ _ Hrep) as [(_ & _ & HL)|[Hpos _] ]; [by destruct L1|].
    change (pending_bucket_count (set_requests _ _)) with (pending_bucket_count p4). split; [lia|].
    apply tables_delete; [rewrite Hb4, Hb3, Hb2; by eapply tables_kept|].
    intros f b. unfold buckets_of. rewrite elem_of_reverse, elem_of_nodes. intros (s & Hy & _). by apply (Hx s).
  - intros y s. cbn [requests set_requests]. destruct (decide (y = x)) as [->|Hy].
    + rewrite lookup_delete_eq. split; [intros H'; by apply Hx in H'|done].
    + rewrite lookup_delete_ne, Hcon, <- (rep_content _ _ _ Hrep) by done.
      rewrite !elem_of_app, elem_of_cons. split; [tauto|]. intros [?|[ [= ? ?]|?] ]; [tauto|done|tauto].
  - unfold without. rewrite (rep_ready _ _ _ Hrep). rewrite nodes_app, nodes_cons, filter_app, filter_app.
    assert (Hf : forall l, (forall s, (x, s) ∉ l) -> filter (fun y => y <> x) (nodes attached l) = nodes attached l).
    { intros l Hl. apply (without_notin x). rewrite elem_of_nodes. intros (s & Hs' & _). by apply (Hl s). }
    rewrite !Hf by (intros s ?; apply (Hx s); set_solver). rewrite nodes_app.
    destruct (attached r); [rewrite filter_cons, decide_False by tauto|]; done.
  - intros y s Hy. apply (rep_verified _ _ _ Hrep y s). set_solver.
  - intros y s Hy. apply (rep_notified _ _ _ Hrep y s). set_solver.
  - cbn [pending_count set_requests set_pending_count]. rewrite zlen_app. split; [|lia].
    rewrite Hn4, Hn3, Hn2, Hcnt. unfold u32. rewrite Z.mod_small by lia. lia.
Qed.

(** ** Changes of the content *)

Lemma update_content_spec x g p ls bk q : shape p ls -> tables_ok p bk -> requests p !! x = Some q ->
  exists p', update_content x g p = Some p' /\ shape p' ls /\ tables_ok p' bk /\
    requests p' !! x = Some {| links := links q; content := g (content q) |} /\
    (forall y, y <> x -> requests p' !! y = requests p !! y) /\
    pending_bucket_count p' = pending_bucket_count p /\ pending_count p' = pending_count p.
Proof.
  intros Hs Ht Hq. unfold update_content. rewrite Hq. cbn [mbind option_bind]. eexists. split; [done|].
  cbn [requests set_requests].
  assert (Hfr : forall y qy, requests p !! y = Some qy -> exists qy',
    <[x := {| links := links q; content := g (content q) |}]> (requests p) !! y = Some qy' /\ links qy' = links qy).
  { intros y qy Hy. destruct (decide (y = x)) as [->|Hne].
    - rewrite lookup_insert_eq. rewrite Hq in Hy. injection Hy as <-. by eexists.
    - rewrite lookup_insert_ne by done. by exists qy. }
  split; [|split; [|split; [apply lookup_insert_eq|split; [intros y Hy; by apply lookup_insert_ne|done]]]].
  - split.
    + apply (sh_nodup _ _ Hs).
    + intros l. rewrite get_ends_set_requests. destruct (sh_list _ _ Hs l) as (Hseg & ? & ?). split; [|done].
      apply (seg_frame (requests p)); [done|]. intros y qy _ Hy. destruct (Hfr y qy Hy) as (qy' & ? & Hl).
      exists qy'. split; [done|]. by rewrite Hl.
    + apply (sh_disjoint _ _ Hs).
    + intros y qy Hy. cbn [requests set_requests] in Hy. destruct (decide (y = x)) as [->|Hne].
      * rewrite lookup_insert_eq in Hy. injection Hy as <-. by apply (sh_idle _ _ Hs x q).
      * rewrite lookup_insert_ne in Hy by done. by apply (sh_idle _ _ Hs y).
  - intros f. destruct (Ht f) as (t & Htb & Hn & Hc). exists t. rewrite get_table_set_requests. split; [done|].
    split; [done|]. intros b o Ho. apply (chain_frame (requests p)); [by apply Hc|].
    intros y qy _ Hy. destruct (Hfr y qy Hy) as (qy' & ? & Hl). exists qy'. split; [done|]. by rewrite Hl.
Qed.

(** Two requests that every chain treats alike. *)
Definition same_keys (r r' : request_t) : Prop := forall f, chain_key f r = chain_key f r'.

Lemma buckets_replace n L1 L2 x r r' f b : same_keys r r' ->
  buckets_of n (L1 ++ (x, r) :: L2) f b = buckets_of n (L1 ++ (x, r') :: L2) f b.
Proof.
  intros H. unfold buckets_of. rewrite !nodes_app, !nodes_cons. unfold in_bucket, bucket_of. by rewrite H.
Qed.

Lemma elem_replace (L1 L2 : entries_t) x r r' y s : NoDup (L1 ++ (x, r) :: L2).*1 ->
  (y, s) ∈ (L1 ++ (x, r') :: L2) <-> if decide (y = x) then s = r' else (y, s) ∈ (L1 ++ (x, r) :: L2).
Proof.
  intros Hnd. rewrite fmap_app in Hnd. cbn in Hnd. apply NoDup_middle in Hnd as [_ Hx].
  rewrite <- fmap_app in Hx. rewrite !elem_of_app, !elem_of_cons. case_decide as Hy.
  - subst y. split; [|intros ->; by right; left].
    intros H. destruct H as [H|[ [= ->]|H] ]; [|done|]; exfalso; apply Hx, list_elem_of_fmap; exists (x, s); set_solver.
  - rewrite !elem_of_app, !elem_of_cons. split; (intros [?|[ [= ? ?]|?] ]; [by left|done|by right; right]).
Qed.

(** A request is replaced, and the lists of the heap with it. *)
Lemma rep_replace p p' L1 L2 R R' x r r' :
  rep p (L1 ++ (x, r) :: L2) R -> same_keys r r' ->
  shape p' (lists_of (L1 ++ (x, r') :: L2) R') ->
  tables_ok p' (buckets_of (pending_bucket_count p) (L1 ++ (x, r) :: L2)) ->
  content <$> requests p' !! x = Some r' ->
  (forall y, y <> x -> content <$> requests p' !! y = content <$> requests p !! y) ->
  pending_bucket_count p' = pending_bucket_count p -> pending_count p' = pending_count p ->
  R' ≡ₚ nodes attached (L1 ++ (x, r') :: L2) ->
  (attached r' = true -> verified r' = true) -> (verified r' = true -> notified r' = true) ->
  rep p' (L1 ++ (x, r') :: L2) R'.
Proof.
  intros Hrep Hkeys Hs Ht Hq Hoth Hb Hc HR Hver Hnot. pose proof (rep_nodup _ _ _ Hrep) as Hnd. split.
  - done.
  - right. rewrite Hb. destruct (rep_tables _ _ _ Hrep) as [(_ & _ & HL)|[Hpos _] ]; [by destruct L1|]. split; [done|].
    eapply tables_ext; [|exact Ht]. intros f b. by apply buckets_replace.
  - intros y s. rewrite (elem_replace _ _ _ r) by done. case_decide as Hy.
    + subst y. rewrite Hq. split; congruence.
    + rewrite Hoth by done. apply (rep_content _ _ _ Hrep).
  - done.
  - intros y s Hy. apply (elem_replace _ _ _ r) in Hy; [|done]. case_decide; [by subst s|by apply (rep_verified _ _ _ Hrep y)].
  - intros y s Hy. apply (elem_replace _ _ _ r) in Hy; [|done]. case_decide; [by subst s|by apply (rep_notified _ _ _ Hrep y)].
  - rewrite Hc. destruct (rep_count _ _ _ Hrep) as [-> ?]. rewrite zlen_app, zlen_cons in *. by rewrite zlen_app, zlen_cons.
Qed.

Lemma nodes_replace P L1 L2 x r r' : P r = P r' -> nodes P (L1 ++ (x, r) :: L2) = nodes P (L1 ++ (x, r') :: L2).
Proof. intros H. by rewrite !nodes_app, !nodes_cons, H. Qed.

Lemma pending_replace (L1 L2 : entries_t) x r r' : (L1 ++ (x, r) :: L2).*1 = (L1 ++ (x, r') :: L2).*1.
Proof. by rewrite !fmap_app. Qed.

(** A change that no list looks at: the password of a notified request. *)
Lemma verify_spec p L1 L2 R x r pwd : rep p (L1 ++ (x, r) :: L2) R -> notified r = true ->
  exists p', update_content x (set_verified pwd) p = Some p' /\ rep p' (L1 ++ (x, set_verified pwd r) :: L2) R /\
    pending_bucket_count p' = pending_bucket_count p.
Proof.
  intros Hrep Hnot. destruct (rep_lookup _ _ _ Hrep x r) as (q & Hq & Hqr); [set_solver|].
  destruct (rep_tables _ _ _ Hrep) as [(_ & _ & HL)|[_ Ht] ]; [by destruct L1|].
  destruct (update_content_spec x (set_verified pwd) p _ _ q (rep_shape _ _ _ Hrep) Ht Hq)
    as (p' & Hp & Hs' & Ht' & Hq' & Ho & Hb & Hc).
  exists p'. split; [done|]. split; [|done].
  apply (rep_replace p p' L1 L2 R R x r (set_verified pwd r) Hrep); [by intros [|]| |done| | |done|done| |done|done].
  - eapply shape_ext; [|exact Hs']. intros [| | |]; cbn [lists_of]; [apply pending_replace| | |done];
      by apply nodes_replace.
  - rewrite Hq'. cbn. by rewrite Hqr.
  - intros y Hy. by rewrite Ho.
  - rewrite (rep_ready _ _ _ Hrep). by rewrite (nodes_replace _ _ _ _ r (set_verified pwd r)).
Qed.

Lemma same_content_other h h' x : same_content h h' -> content <$> h' !! x = content <$> h !! x.
Proof. auto. Qed.

(** A notification. *)
Lemma notify_spec p L1 L2 R x r : rep p (L1 ++ (x, r) :: L2) R -> notified r = false ->
  exists p', notify_request x p = Some p' /\ rep p' (L1 ++ (x, set_notified r) :: L2) R /\
    pending_bucket_count p' = pending_bucket_count p.
Proof.
  intros Hrep Hnot. pose proof (rep_nodup _ _ _ Hrep) as Hnd. assert (Hin : (x, r) ∈ (L1 ++ (x, r) :: L2)) by set_solver.
  destruct (rep_lookup _ _ _ Hrep x r Hin) as (q & Hq & Hqr).
  destruct (rep_tables _ _ _ Hrep) as [(_ & _ & HL)|[_ Ht] ]; [by destruct L1|].
  assert (Hun : unnotified r = true) by (unfold unnotified; by rewrite Hnot).
  destruct (leave_list p _ _ NOTIFY x (nodes unnotified L1) (nodes unnotified L2) (rep_shape _ _ _ Hrep) Ht)
    as (p1 & Hp1 & Hs1 & Ht1 & Hc1 & Hb1 & Hn1); [by apply nodes_middle|].
  destruct (same_content_lookup _ _ x q Hc1 Hq) as (q1 & Hq1 & Hqc).
  destruct (update_content_spec x set_notified p1 _ _ q1 Hs1 Ht1 Hq1) as (p' & Hp & Hs' & Ht' & Hq' & Ho & Hb & Hc).
  unfold notify_request, remove_work. rewrite Hp1. cbn [mbind option_bind]. exists p'. split; [done|]. split; [|congruence].
  apply (rep_replace p p' L1 L2 R R x r (set_notified r) Hrep);
    [by intros [|]| |done| | |congruence|congruence| | |done].
  - eapply shape_ext; [|exact Hs']. intros [| | |]; repeat first [rewrite upd_eq|rewrite upd_ne by done]; cbn [lists_of].
    + apply pending_replace.
    + by apply nodes_replace.
    + by rewrite nodes_app, nodes_cons.
    + done.
  - rewrite Hq'. cbn. congruence.
  - intros y Hy. rewrite Ho by done. apply Hc1.
  - rewrite (rep_ready _ _ _ Hrep). by rewrite (nodes_replace _ _ _ _ r (set_notified r)).
  - intros Hat. exact (rep_verified _ _ _ Hrep x r Hin Hat).
Qed.

(** A request is accepted. *)
Lemma accept_spec p L1 L2 R x r a : rep p (L1 ++ (x, r) :: L2) R -> pr_agent r = None -> verified r = true ->
  exists p', accept_request x a p = Some p' /\ rep p' (L1 ++ (x, set_agent a r) :: L2) (R ++ [x]) /\
    pending_bucket_count p' = pending_bucket_count p.
Proof.
  intros Hrep Hag Hver. pose proof (rep_nodup _ _ _ Hrep) as Hnd. assert (Hin : (x, r) ∈ (L1 ++ (x, r) :: L2)) by set_solver.
  destruct (rep_lookup _ _ _ Hrep x r Hin) as (q & Hq & Hqr).
  destruct (rep_tables _ _ _ Hrep) as [(_ & _ & HL)|[_ Ht] ]; [by destruct L1|].
  assert (Hun : unattached r = true) by (unfold unattached; by rewrite Hag).
  assert (Hnot : notified r = true) by (by apply (rep_notified _ _ _ Hrep x)).
  assert (HxN : x ∉ nodes unnotified (L1 ++ (x, r) :: L2)).
  { rewrite elem_of_nodes. intros (s & Hs & Hsn). pose proof (entries_unique _ x r s Hnd Hin Hs). subst s.
    unfold unnotified in Hsn. by rewrite Hnot in Hsn. }
  assert (HxR : x ∉ R).
  { rewrite (rep_ready_elem _ _ _ Hrep). intros (s & Hs & Hat). pose proof (entries_unique _ x r s Hnd Hin Hs). subst s.
    unfold attached in Hat. by rewrite Hun in Hat. }
  destruct (leave_list p _ _ EXPIRY x (nodes unattached L1) (nodes unattached L2) (rep_shape _ _ _ Hrep) Ht)
    as (p1 & Hp1 & Hs1 & Ht1 & Hc1 & Hb1 & Hn1); [by apply nodes_middle|].
  destruct (same_content_lookup _ _ x q Hc1 Hq) as (q1 & Hq1 & Hqc).
  destruct (update_content_spec x (set_agent a) p1 _ _ q1 Hs1 Ht1 Hq1) as (p2 & Hp2 & Hs2 & Ht2 & Hq2 & Ho2 & Hb2 & Hn2).
  destruct (shape_append p2 _ READY x {| links := links q1; content := set_agent a (content q1) |} Hs2) as (p3 & Hp3 & Hk3 & Hto3 & Hs3); [done|exact Hq2| | |].
  { by apply (sh_idle _ _ Hs2 x _ Hq2). }
  { by intros [| | |] Hl Hf; try done. }
  destruct (same_content_lookup _ _ x _ (touches_same_content _ _ _ _ Hto3) Hq2) as (q3 & Hq3 & Hqc3).
  destruct (lists_count _ _ _ Hk3) as [Hb3 Hn3].
  unfold accept_request, remove_expiry. rewrite Hp1. cbn [mbind option_bind]. rewrite Hp2. cbn [mbind option_bind].
  exists p3. split; [done|]. split; [|congruence].
  apply (rep_replace p p3 L1 L2 R (R ++ [x]) x r (set_agent a r) Hrep);
    [by intros [|]| | | | |congruence|congruence| |done|done].
  - eapply shape_ext; [|exact Hs3]. intros [| | |]; repeat first [rewrite upd_eq|rewrite upd_ne by done]; cbn [lists_of].
    + apply pending_replace.
    + by rewrite nodes_app, nodes_cons.
    + by apply nodes_replace.
    + done.
  - by eapply tables_kept.
  - rewrite Hq3. cbn in *. congruence.
  - intros y Hy. rewrite (touches_same_content _ _ _ _ Hto3 y), Ho2 by done. apply Hc1.
  - rewrite (rep_ready _ _ _ Hrep). rewrite !nodes_app, !nodes_cons. unfold attached at 2. rewrite Hun. cbn.
    rewrite <- Permutation_cons_append. apply Permutation_middle.
Qed.

(** ** A new request *)

Lemma new_node_fresh p : requests p !! new_node p = None.
Proof. unfold new_node. apply not_elem_of_dom, is_fresh. Qed.

(** A node that is in no list yet. *)
Lemma shape_new p ls x r : shape p ls -> requests p !! x = None ->
  shape (set_requests p (<[x := {| links := no_links; content := r |}]> (requests p))) ls.
Proof.
  intros Hs Hx. split.
  - apply (sh_nodup _ _ Hs).
  - intros l. rewrite get_ends_set_requests. destruct (sh_list _ _ Hs l) as (Hseg & ? & ?). split; [|done].
    apply (seg_frame (requests p)); [done|]. intros y q _ Hq. exists q. cbn [requests set_requests].
    rewrite lookup_insert_ne by congruence. done.
  - apply (sh_disjoint _ _ Hs).
  - intros y q Hq. cbn [requests set_requests] in Hq. destruct (decide (y = x)) as [->|Hne].
    + rewrite lookup_insert_eq in Hq. injection Hq as <-. done.
    + rewrite lookup_insert_ne in Hq by done. by apply (sh_idle _ _ Hs y).
Qed.

Lemma tables_new p bk x r : tables_ok p bk -> requests p !! x = None ->
  tables_ok (set_requests p (<[x := {| links := no_links; content := r |}]> (requests p))) bk.
Proof.
  intros Ht Hx f. destruct (Ht f) as (t & Htb & Hn & Hc). exists t. rewrite get_table_set_requests.
  split; [done|]. split; [done|]. intros b o Ho. apply (chain_frame (requests p)); [by apply Hc|].
  intros y q _ Hq. exists q. cbn [requests set_requests]. rewrite lookup_insert_ne by congruence. done.
Qed.

(** One step of the insertion: a list or a chain gets the node, which keeps what
    it holds and its other fields. *)
Definition node_with (h : heap) (x : ptr) (r : request_t) (fs : list list_fields) : Prop :=
  exists q, h !! x = Some q /\ content q = r /\ forall f, f ∈ fs -> get_next f (links q) = None.

Lemma node_with_touched F l h h' x r fs fs' : touches F l h h' -> node_with h x r fs ->
  (forall f, f ∈ fs' -> f ∈ fs /\ Links f <> F) -> node_with h' x r fs'.
Proof.
  intros (_ & _ & Hk) (q & Hq & Hr & Hn) Hfs. destruct (Hk x q Hq) as (q' & Hq' & Hc & Hsf & _).
  exists q'. split; [done|]. split; [congruence|]. intros f Hf. destruct (Hfs f Hf) as [Hin HF].
  destruct (Hsf f HF) as [<- _]. by apply Hn.
Qed.

Lemma join_list p ls bk l x r fs : shape p ls -> tables_ok p bk -> node_with (requests p) x r (fields_of l :: fs) ->
  (forall l', fields_of l' = fields_of l -> x ∉ ls l') -> fields_of l ∉ fs ->
  exists p', append l x p = Some p' /\ shape p' (upd l (ls l ++ [x]) ls) /\ tables_ok p' bk /\
    node_with (requests p') x r fs /\ same_content (requests p) (requests p') /\
    pending_bucket_count p' = pending_bucket_count p /\ pending_count p' = pending_count p.
Proof.
  intros Hs Ht Hnw Hx Hfs. destruct Hnw as (q & Hq & Hr & Hn) eqn:E. clear E.
  destruct (shape_append p ls l x q Hs (Hx l eq_refl) Hq (Hn _ ltac:(by left))) as (p' & Hp & Hk & Hto & Hs').
  { intros l' _. apply Hx. }
  exists p'. split; [done|]. split; [done|]. split; [by eapply tables_kept|].
  split; [|split; [by eapply touches_same_content|by eapply lists_count]].
  eapply node_with_touched; [done| |]; [by exists q|].
  intros f Hf. split; [by right|]. intros [= ->]. done.
Qed.

Lemma join_chain p ls L bk f x r fs : let n := pending_bucket_count p in
  shape p ls -> tables_ok p bk -> (forall b, bk f b = buckets_of n L f b) ->
  node_with (requests p) x r fs -> 0 < n -> (forall s, (x, s) ∉ L) ->
  exists p', push_chain f x p = Some p' /\ shape p' ls /\ tables_ok p' (upd f (buckets_of n (L ++ [(x, r)]) f) bk) /\
    node_with (requests p') x r fs /\ same_content (requests p) (requests p') /\
    pending_bucket_count p' = n /\ pending_count p' = pending_count p.
Proof.
  intros n Hs Ht Hbk (q & Hq & Hr & Hn) Hpos Hx.
  assert (Hb : exists b, bucket_of f (content q) n = Some b).
  { unfold bucket_of. rewrite (proj2 (Z.eqb_neq _ _)) by lia. eauto. }
  destruct Hb as [b Hb]. assert (Hxb : forall b', x ∉ bk f b').
  { intros b'. rewrite Hbk. unfold buckets_of. rewrite elem_of_reverse, elem_of_nodes. intros (s & Hin & _). by apply (Hx s). }
  destruct (push_chain_spec f x p q b (bk f) (Ht f) Hq Hb Hxb) as (p' & Hp & Hk & Hto & Hc & Htab).
  exists p'. split; [done|]. split; [by eapply shape_kept|]. split.
  { apply (tables_ext p' (upd f (fun b' => if decide (b' = b) then x :: bk f b else bk f b') bk)); [|by eapply tables_upd].
    intros g b'. destruct (decide (g = f)) as [->|Hg]; [|by rewrite !upd_ne]. rewrite !upd_eq. unfold buckets_of.
    rewrite nodes_app, nodes_cons. unfold in_bucket at 2. rewrite <- Hr. case_decide as Hbb.
    - subst b'. rewrite bool_decide_eq_true_2 by done. cbn. rewrite reverse_app, Hbk. done.
    - rewrite bool_decide_eq_false_2 by congruence. cbn. rewrite app_nil_r, Hbk. done. }
  split; [eapply node_with_touched; [exact Hto|by exists q|]; done|].
  split; [by eapply touches_same_content|]. split; [done|]. by destruct Hk as (_ & _ & ?).
Qed.

(** [link_request] puts a request at the end. *)
Lemma link_request_spec p L R x r : rep p L R -> 0 < pending_bucket_count p -> requests p !! x = None ->
  notified r = false -> verified r = false -> pr_agent r = None -> zlen L + 1 < 2 ^ 32 ->
  exists p', link_request x r p = Some p' /\ rep p' (L ++ [(x, r)]) R /\
    pending_bucket_count p' = pending_bucket_count p.
Proof.
  intros Hrep Hpos Hx Hnot Hver Hag Hmax.
  destruct (rep_tables _ _ _ Hrep) as [(Hnone & _)|[_ Ht] ]; [unfold pending_bucket_count in Hpos; rewrite Hnone in Hpos; lia|].
  assert (HxL : forall s, (x, s) ∉ L).
  { intros s Hs. apply (rep_content _ _ _ Hrep) in Hs. by rewrite Hx in Hs. }
  assert (Hxl : forall l, x ∉ lists_of L R l).
  { intros [| | |]; cbn [lists_of]; [rewrite list_elem_of_fmap; intros ([y s] & -> & Hs); by apply (HxL s)| | |];
      [rewrite elem_of_nodes|rewrite elem_of_nodes|rewrite (rep_ready_elem _ _ _ Hrep)]; intros (s & Hs & _); by apply (HxL s). }
  set (p0 := set_requests p (<[x := {| links := no_links; content := r |}]> (requests p))).
  pose proof (shape_new p _ x r (rep_shape _ _ _ Hrep) Hx) as Hs0. pose proof (tables_new p _ x r Ht Hx) as Ht0. fold p0 in Hs0, Ht0.
  assert (Hn0 : node_with (requests p0) x r [PENDING_LINKS; EXPIRY_LINKS; WORK_LINKS]).
  { eexists. unfold p0. cbn [requests set_requests]. rewrite lookup_insert_eq. split; [done|]. split; [done|].
    intros [| |] _; done. }
  unfold link_request. fold p0.
  destruct (join_chain p0 _ L _ HASH_NEXT x r _ Hs0 Ht0 ltac:(done) Hn0 Hpos HxL) as (p1 & -> & Hs1 & Ht1 & Hn1 & Hc1 & Hb1 & Hz1).
  cbn [mbind option_bind].
  destruct (join_list p1 _ _ PENDING x r [EXPIRY_LINKS; WORK_LINKS] Hs1 Ht1 Hn1) as (p2 & -> & Hs2 & Ht2 & Hn2 & Hc2 & Hb2 & Hz2);
    [intros l _; apply Hxl|set_solver|]. cbn [mbind option_bind].
  assert (Hbp : pending_bucket_count p2 = pending_bucket_count p) by (rewrite Hb2, Hb1; done).
  destruct (join_chain p2 _ L _ ID_NEXT x r [EXPIRY_LINKS; WORK_LINKS] Hs2 Ht2) as (p3 & -> & Hs3 & Ht3 & Hn3 & Hc3 & Hb3 & Hz3);
    [rewrite Hbp; done|done|lia|done|]. cbn [mbind option_bind].
  destruct (join_list p3 _ _ EXPIRY x r [WORK_LINKS] Hs3 Ht3 Hn3) as (p4 & -> & Hs4 & Ht4 & Hn4 & Hc4 & Hb4 & Hz4);
    [intros [| | |] Hf; try done; rewrite upd_ne by done; apply (Hxl EXPIRY)|set_solver|]. cbn [mbind option_bind].
  unfold append_work.
  destruct (join_list p4 _ _ NOTIFY x r [] Hs4 Ht4 Hn4) as (p5 & -> & Hs5 & Ht5 & Hn5 & Hc5 & Hb5 & Hz5);
    [intros [| | |] Hf; try done; rewrite !upd_ne by done; [apply (Hxl NOTIFY)|apply (Hxl READY)]|set_solver|].
  cbn [mbind option_bind]. eexists. split; [done|].
  assert (Hb : pending_bucket_count p5 = pending_bucket_count p) by congruence.
  assert (Hcon : same_content (requests p0) (requests p5)).
  { do 4 (eapply same_content_trans; [eassumption|]). eassumption. }
  destruct (rep_count _ _ _ Hrep) as [Hcnt _]. pose proof (zlen_nonneg L).
  assert (Hun : unattached r = true) by (unfold unattached; by rewrite Hag).
  split; [|exact Hb]. split.
  - eapply (shape_ext (set_pending_count p5 _)); [|destruct Hs5 as [H1 H2 H3 H4]; split; [exact H1|intros l; specialize (H2 l); by destruct l|exact H3|exact H4]].
    intros [| | |]; repeat first [rewrite upd_eq|rewrite upd_ne by done]; cbn [lists_of].
    + by rewrite fmap_app.
    + rewrite nodes_app, nodes_cons, Hun. done.
    + rewrite nodes_app, nodes_cons. unfold unnotified at 3. by rewrite Hnot.
    + done.
  - right. change (pending_bucket_count (set_pending_count p5 _)) with (pending_bucket_count p5). rewrite Hb. split; [done|].
    apply (tables_ext _ (upd ID_NEXT (buckets_of (pending_bucket_count p2) (L ++ [(x, r)]) ID_NEXT)
      (upd HASH_NEXT (buckets_of (pending_bucket_count p0) (L ++ [(x, r)]) HASH_NEXT) (buckets_of (pending_bucket_count p) L)))).
    + rewrite Hbp. intros [|] b; done.
    + intros f. destruct (Ht5 f) as (t & Htb & Hn & Hc). exists t. split; [by destruct f|]. split; [done|]. done.
  - intros y s. cbn [requests set_pending_count]. rewrite (Hcon y). unfold p0. cbn [requests set_requests].
    rewrite elem_of_app, list_elem_of_singleton. destruct (decide (y = x)) as [->|Hy].
    + rewrite lookup_insert_eq. cbn. split; [intros [Hs|[= ->] ]; [by apply HxL in Hs|done]|intros [= ->]; by right].
    + rewrite lookup_insert_ne by done. rewrite <- (rep_content _ _ _ Hrep). split; [intros [?|[= ? ?] ]; done|by left].
  - rewrite (rep_ready _ _ _ Hrep), nodes_app, nodes_cons. unfold attached at 3. rewrite Hun. cbn. by rewrite app_nil_r.
  - intros y s Hy. rewrite elem_of_app, list_elem_of_singleton in Hy. destruct Hy as [Hy|[= -> ->] ];
      [by apply (rep_verified _ _ _ Hrep y)|]. unfold attached. by rewrite Hun.
  - intros y s Hy. rewrite elem_of_app, list_elem_of_singleton in Hy. destruct Hy as [Hy|[= -> ->] ];
      [by apply (rep_notified _ _ _ Hrep y)|]. by rewrite Hver.
  - cbn [pending_count set_pending_count]. rewrite zlen_app. change (zlen [(x, r)]) with 1. split; [|lia].
    rewrite Hz5, Hz4, Hz3, Hz2, Hz1. change (pending_count p0) with (pending_count p). rewrite Hcnt. unfold u32.
    by rewrite Z.mod_small by lia.
Qed.

(** ** Searches *)

Lemma rep_size p L R : rep p L R -> (length L <= size (requests p))%nat.
Proof.
  intros Hrep. rewrite <- (length_fmap fst L). apply nodes_bound; [by eapply rep_nodup|].
  intros y Hy. apply list_elem_of_fmap in Hy as ([z s] & -> & Hz). destruct (rep_lookup _ _ _ Hrep z s Hz) as (q & Hq & _).
  by exists q.
Qed.

Lemma length_nodes P L : (length (nodes P L) <= length L)%nat.
Proof. unfold nodes. rewrite length_fmap. apply length_filter. Qed.

(** The search of one bucket finds what a search of all requests would find, when
    what is searched for determines the bucket. *)
Lemma find_bucket p L R f which b o t : rep p L R -> get_table f p = Some t -> t !! b = Some o ->
  (forall r, which r = true -> bucket_of f r (pending_bucket_count p) = Some b) ->
  exists res, find_chain (size (requests p)) f which o p = Some res /\
    match res with
    | Some x => exists r, (x, r) ∈ L /\ which r = true
    | None => forall x r, (x, r) ∈ L -> which r = false
    end.
Proof.
  intros Hrep Ht Ho Hw.
  destruct (rep_tables _ _ _ Hrep) as [(Hn & Hi & _)|[Hpos Htab] ]; [destruct f; cbn in Ht; congruence|].
  destruct (Htab f) as (t' & Ht' & _ & Hc). rewrite Ht in Ht'. injection Ht' as <-. specialize (Hc b o Ho).
  destruct (find_chain_spec f which p _ (size (requests p)) o Hc) as ([x|] & -> & Hres).
  - unfold buckets_of. rewrite length_reverse. pose proof (length_nodes (in_bucket f (pending_bucket_count p) b) L).
    pose proof (rep_size p L R Hrep). lia.
  - exists (Some x). split; [done|]. destruct Hres as (_ & q & Hq & Hwq). exists (content q).
    split; [by eapply rep_in|done].
  - exists None. split; [done|]. intros x r Hx. destruct (which r) eqn:E; [|done]. exfalso.
    destruct (rep_lookup _ _ _ Hrep x r Hx) as (q & Hq & Hqr).
    assert (Hf : which (content q) = false); [|congruence]. apply (Hres x q); [|done]. unfold buckets_of.
    rewrite elem_of_reverse, elem_of_nodes. exists r. split; [done|]. unfold in_bucket. apply bool_decide_eq_true. auto.
Qed.

(** [pending_by_id] finds the request with the number, if there is one. *)
Lemma pending_by_id_spec p L R id : rep p L R ->
  exists res, pending_by_id p id = Some res /\
    match res with
    | Some x => exists r, (x, r) ∈ L /\ pr_id r = id
    | None => forall x r, (x, r) ∈ L -> pr_id r <> id
    end.
Proof.
  intros Hrep. unfold pending_by_id.
  destruct (rep_tables _ _ _ Hrep) as [(_ & -> & ->)|[Hpos Htab] ].
  { exists None. split; [done|]. intros x r Hx. by apply not_elem_of_nil in Hx. }
  destruct (Htab ID_NEXT) as (t & Ht & Hn & _). cbn in Ht. rewrite Ht, Hn. rewrite (proj2 (Z.eqb_neq _ _)) by lia.
  destruct (lookup_lt_is_Some_2 t (Z.to_nat (id mod pending_bucket_count p))) as [o Ho].
  { rewrite <- Hn in *. pose proof (Z.mod_pos_bound id (zlen t)). unfold zlen in *. lia. }
  rewrite Ho. cbn [mbind option_bind].
  destruct (find_bucket p L R ID_NEXT (fun r => pr_id r =? id) _ o t Hrep Ht Ho) as ([x|] & -> & Hres).
  - intros r Hr. apply Z.eqb_eq in Hr. unfold bucket_of, chain_key. rewrite (proj2 (Z.eqb_neq _ _)) by lia. by rewrite Hr.
  - exists (Some x). split; [done|]. destruct Hres as (r & Hx & Hr). exists r. split; [done|lia].
  - exists None. split; [done|]. intros x r Hx. specialize (Hres x r Hx). lia.
Qed.

(** ** Removal of several requests *)

(** The successor of an entry in the list of all requests. *)
Lemma rep_next p L1 L2 R x r : rep p (L1 ++ (x, r) :: L2) R ->
  exists q, requests p !! x = Some q /\ content q = r /\ next (links q) = head L2.*1.
Proof.
  intros Hrep. destruct (rep_lookup _ _ _ Hrep x r) as (q & Hq & Hr); [set_solver|]. exists q.
  split; [done|]. split; [done|]. destruct (sh_list _ _ (rep_shape _ _ _ Hrep) PENDING) as (Hs & _).
  cbn [lists_of fields_of] in Hs. rewrite fmap_app in Hs. apply seg_app in Hs as [_ Hs].
  cbn in Hs. destruct Hs as [(q' & Hq' & _ & Hn) _]. rewrite Hq in Hq'. injection Hq' as <-. rewrite Hn. by destruct L2.
Qed.

(** The loops that remove the requests with a property leave the others. *)
Lemma remove_where_spec which (L2 : entries_t) : forall fuel p L1 R, rep p (L1 ++ L2) R -> (length L2 <= fuel)%nat ->
  exists p' R', remove_where fuel which (head L2.*1) p = Some p' /\ R' `sublist_of` R /\
    rep p' (L1 ++ filter (fun e => which e.2 = false) L2) R' /\ pending_bucket_count p' = pending_bucket_count p.
Proof.
  induction L2 as [|[x r] L2 IH]; intros fuel p L1 R Hrep Hf.
  { exists p, R. split; [by destruct fuel|]. split; [done|]. split; [|done]. by rewrite app_nil_r in *. }
  destruct fuel as [|fuel]; [cbn in Hf; lia|]. cbn [fmap list_fmap head remove_where fst].
  destruct (rep_next p L1 L2 R x r Hrep) as (q & Hq & Hr & Hn). rewrite Hq. cbn [mbind option_bind]. rewrite Hr, Hn.
  rewrite filter_cons. cbn [snd]. destruct (which r) eqn:Hw.
  - destruct (remove_pending_spec p L1 L2 R x r Hrep) as (p1 & -> & Hrep1 & Hb1). cbn [mbind option_bind].
    destruct (IH fuel p1 L1 _ Hrep1) as (p' & R' & Hp & Hsub & Hrep' & Hb); [cbn in Hf; lia|].
    exists p', R'. split; [done|]. split; [etrans; [done|]; apply sublist_filter|]. rewrite decide_False by done.
    split; [done|congruence].
  - cbn [mbind option_bind]. destruct (IH fuel p (L1 ++ [(x, r)]) R) as (p' & R' & Hp & Hsub & Hrep' & Hb);
      [by rewrite <- app_assoc|cbn in Hf; lia|].
    exists p', R'. split; [done|]. split; [done|]. rewrite decide_True by done. split; [|done].
    by rewrite <- app_assoc in Hrep'.
Qed.

Definition remove_all_where (which : request_t -> bool) (p : queues_t) : option queues_t :=
  remove_where (size (requests p)) which (first_of (pending_ends p)) p.

Lemma remove_all_where_spec which p L R : rep p L R ->
  exists p' R', remove_all_where which p = Some p' /\ R' `sublist_of` R /\
    rep p' (filter (fun e => which e.2 = false) L) R' /\ pending_bucket_count p' = pending_bucket_count p.
Proof.
  intros Hrep. unfold remove_all_where. rewrite (rep_first _ _ _ Hrep).
  destruct (remove_where_spec which L (size (requests p)) p [] R Hrep (rep_size _ _ _ Hrep)) as (p' & R' & H).
  by exists p', R'.
Qed.

(** [clear_pending] removes everything. *)
Lemma clear_loop_spec (L : entries_t) : forall fuel p R, rep p L R -> (length L <= fuel)%nat ->
  exists p', clear_loop fuel p = Some p' /\ rep p' [] [].
Proof.
  induction L as [|[x r] L IH]; intros fuel p R Hrep Hf.
  - exists p. assert (HR : R = []) by (apply Permutation_nil; symmetry; exact (rep_ready _ _ _ Hrep)). subst R.
    split; [|done]. pose proof (rep_first _ _ _ Hrep) as Hh. destruct fuel; cbn; by rewrite Hh.
  - destruct fuel as [|fuel]; [cbn in Hf; lia|]. cbn [clear_loop]. rewrite (rep_first _ _ _ Hrep). cbn [fmap list_fmap head fst].
    destruct (remove_pending_spec p [] L R x r Hrep) as (p1 & -> & Hrep1 & _). cbn [mbind option_bind].
    apply (IH fuel p1 _ Hrep1). cbn in Hf. lia.
Qed.

Lemma clear_pending_spec p L R : rep p L R -> exists p', clear_pending p = Some p' /\ rep p' [] [].
Proof. intros Hrep. apply (clear_loop_spec L _ p R Hrep). by eapply rep_size. Qed.

(** ** Expiry *)

(** The requests that wait for a decision are ordered by deadline. *)
Definition by_deadline (L : entries_t) : Prop :=
  StronglySorted (fun e e' => deadline e.2 <= deadline e'.2) (filter (fun e => unattached e.2 = true) L).

(** Whether a request stays at time [now]. *)
Definition stays (now : Z) (r : request_t) : bool := attached r || (now <? deadline r).

Lemma first_unattached (L : entries_t) x : head (nodes unattached L) = Some x ->
  exists L1 r L2, L = L1 ++ (x, r) :: L2 /\ unattached r = true /\ Forall (fun e => attached e.2 = true) L1.
Proof.
  induction L as [|[y s] L IH]; [done|]. rewrite nodes_cons. destruct (unattached s) eqn:E; cbn.
  - intros [= ->]. by exists [], s, L.
  - intros H. destruct (IH H) as (L1 & r & L2 & -> & Hr & HL). exists ((y, s) :: L1), r, L2. split; [done|].
    split; [done|]. constructor; [|done]. cbn. unfold attached. by rewrite E.
Qed.

Lemma by_deadline_app L1 L2 : by_deadline (L1 ++ L2) -> by_deadline L2.
Proof.
  unfold by_deadline. rewrite filter_app. induction (filter _ L1) as [|e l IH]; [done|].
  intros H. apply IH. by apply StronglySorted_inv in H as [H _].
Qed.

Lemma by_deadline_remove L1 L2 e : by_deadline (L1 ++ e :: L2) -> by_deadline (L1 ++ L2).
Proof.
  unfold by_deadline. rewrite !filter_app, filter_cons. case_decide; [|done].
  induction (filter _ L1) as [|e' l IH]; cbn; intros H'.
  - by apply StronglySorted_inv in H' as [H' _].
  - apply StronglySorted_inv in H' as [H' Hall]. constructor; [by apply IH|].
    apply Forall_app in Hall as [H1 H2]. apply Forall_cons in H2 as [_ H2]. by apply Forall_app.
Qed.

Lemma filter_all {A} (P : A -> Prop) `{!forall x, Decision (P x)} l : Forall P l -> filter P l = l.
Proof. induction 1 as [|x l Hx _ IH]; [done|]. rewrite filter_cons, decide_True by done. by rewrite IH. Qed.

Lemma expire_loop_spec now : forall fuel p L R n, rep p L R -> by_deadline L -> (length L <= fuel)%nat ->
  exists p' m, expire_loop fuel now n p = Some (m, p') /\ rep p' (filter (fun e => stays now e.2 = true) L) R /\
    pending_bucket_count p' = pending_bucket_count p /\
    m = n + (zlen L - zlen (filter (fun e => stays now e.2 = true) L)).
Proof.
  induction fuel as [|fuel IH]; intros p L R n Hrep Hsort Hf.
  { destruct L; [|cbn in Hf; lia]. cbn. pose proof (proj1 (proj2 (sh_list _ _ (rep_shape _ _ _ Hrep) EXPIRY))) as Hh.
    cbn in Hh. rewrite Hh. exists p, n. repeat (split; [done|]). unfold zlen. cbn. lia. }
  pose proof (proj1 (proj2 (sh_list _ _ (rep_shape _ _ _ Hrep) EXPIRY))) as Hh. cbn [get_ends lists_of] in Hh.
  cbn [expire_loop]. rewrite Hh. destruct (head (nodes unattached L)) as [x|] eqn:Hx.
  - destruct (first_unattached L x Hx) as (L1 & r & L2 & -> & Hun & HL1).
    destruct (rep_lookup _ _ _ Hrep x r) as (q & Hq & Hqr); [set_solver|]. rewrite Hq. cbn [mbind option_bind]. rewrite Hqr.
    assert (HL1' : filter (fun e : ptr * request_t => stays now e.2 = true) L1 = L1).
    { apply filter_all. eapply Forall_impl; [exact HL1|]. intros e He. unfold stays. by rewrite He. }
    rewrite filter_app, filter_cons, HL1'. cbn [snd].
    assert (Hst : stays now r = (now <? deadline r)) by (unfold stays, attached; by rewrite Hun). rewrite Hst.
    destruct (deadline r <=? now) eqn:Hd; bool_to_prop.
    + rewrite decide_False by (rewrite (proj2 (Z.ltb_ge _ _)) by lia; done).
      destruct (remove_pending_spec p L1 L2 R x r Hrep) as (p1 & -> & Hrep1 & Hb1). cbn [mbind option_bind].
      assert (HxR : x ∉ R).
      { rewrite (rep_ready_elem _ _ _ Hrep). intros (s & Hs & Hat).
        pose proof (entries_unique _ x r s (rep_nodup _ _ _ Hrep) ltac:(set_solver) Hs). subst s.
        unfold attached in Hat. by rewrite Hun in Hat. }
      rewrite without_notin in Hrep1 by done.
      destruct (IH p1 (L1 ++ L2) R (n + 1) Hrep1) as (p' & m & -> & Hrep' & Hb' & Hm);
        [by eapply by_deadline_remove|rewrite length_app in *; cbn in Hf; lia|].
      rewrite filter_app, HL1' in Hrep', Hm. exists p', m. split; [done|]. split; [done|]. split; [congruence|].
      rewrite Hm, !zlen_app, zlen_cons. lia.
    + rewrite decide_True by (by apply Z.ltb_lt).
      assert (HL2 : filter (fun e : ptr * request_t => stays now e.2 = true) L2 = L2).
      { apply filter_all. apply by_deadline_app in Hsort. unfold by_deadline in Hsort.
        rewrite filter_cons, decide_True in Hsort by done. apply StronglySorted_inv in Hsort as [_ Hall].
        apply Forall_forall. intros [y s] Hy. unfold stays. cbn. destruct (attached s) eqn:Ea; [done|]. cbn.
        rewrite Forall_forall in Hall. specialize (Hall (y, s)). cbn in Hall. apply Z.ltb_lt.
        assert (deadline r <= deadline s); [|lia]. apply Hall. apply list_elem_of_filter. split; [|done].
        cbn. unfold attached in Ea. by apply negb_false_iff in Ea. }
      rewrite HL2. exists p, n. split; [done|]. split; [done|]. split; [done|]. lia.
  - assert (HL : filter (fun e : ptr * request_t => stays now e.2 = true) L = L).
    { apply filter_all, Forall_forall. intros [y s] Hy. cbn. unfold stays.
      destruct (attached s) eqn:Ea; [done|]. exfalso. apply head_None in Hx.
      assert (Hn : y ∈ nodes unattached L) by (apply elem_of_nodes; exists s; unfold attached in Ea; by apply negb_false_iff in Ea).
      rewrite Hx in Hn. by apply not_elem_of_nil in Hn. }
    rewrite HL. exists p, n. split; [done|]. split; [done|]. split; [done|]. lia.
Qed.

Lemma expire_queues_spec now p L R : rep p L R -> by_deadline L ->
  exists p' m, expire_queues now p = Some (m, p') /\ rep p' (filter (fun e => stays now e.2 = true) L) R /\
    pending_bucket_count p' = pending_bucket_count p /\
    m = zlen L - zlen (filter (fun e => stays now e.2 = true) L).
Proof.
  intros Hrep Hsort. unfold expire_queues.
  exact (expire_loop_spec now (size (requests p)) p L R 0 Hrep Hsort (rep_size _ _ _ Hrep)).
Qed.

(** ** New arrays *)

Lemma fill_tables_spec (R : list ptr) (L2 : entries_t) : forall fuel p L1, let n := pending_bucket_count p in
  let L := L1 ++ L2 in
  0 < n -> NoDup L.*1 -> shape p (lists_of L R) -> tables_ok p (buckets_of n L1) ->
  (forall x r, (x, r) ∈ L -> content <$> requests p !! x = Some r) -> (length L2 <= fuel)%nat ->
  exists p', fill_tables fuel (head L2.*1) p = Some p' /\ shape p' (lists_of L R) /\ tables_ok p' (buckets_of n L) /\
    same_content (requests p) (requests p') /\ pending_bucket_count p' = n /\ pending_count p' = pending_count p.
Proof.
  induction L2 as [|[x r] L2 IH]; intros fuel p L1 n L Hpos Hnd Hs Ht Hc Hf.
  { exists p. assert (HL : L = L1) by apply app_nil_r. rewrite HL in *. split; [by destruct fuel|].
    repeat (split; [done|]). done. }
  destruct fuel as [|fuel]; [cbn in Hf; lia|]. cbn [fmap list_fmap head fill_tables fst].
  assert (Hx : forall s, (x, s) ∉ L1).
  { intros s Hin. unfold L in Hnd. rewrite fmap_app in Hnd. apply NoDup_app in Hnd as (_ & Hd & _).
    apply (Hd x); [apply list_elem_of_fmap; by exists (x, s)|]. by left. }
  assert (Hnw : node_with (requests p) x r []).
  { assert (Hcx : content <$> requests p !! x = Some r) by (apply Hc; unfold L; set_solver).
    destruct (requests p !! x) as [q|] eqn:Hq; [|done]. exists q. injection Hcx as ->. split; [done|]. split; [done|].
    intros f Hf'. by apply not_elem_of_nil in Hf'. }
  destruct (join_chain p _ L1 _ HASH_NEXT x r [] Hs Ht ltac:(done) Hnw Hpos Hx) as (p1 & -> & Hs1 & Ht1 & Hn1 & Hc1 & Hb1 & Hz1).
  cbn [mbind option_bind].
  destruct (join_chain p1 _ L1 _ ID_NEXT x r [] Hs1 Ht1) as (p2 & -> & Hs2 & Ht2 & Hn2 & Hc2 & Hb2 & Hz2);
    [rewrite Hb1; done|done|lia|done|]. cbn [mbind option_bind].
  destruct Hn2 as (q & Hq & Hqr & _). rewrite Hq. cbn [mbind option_bind].
  assert (Hnext : next (links q) = head L2.*1).
  { destruct (sh_list _ _ Hs2 PENDING) as (Hseg & _). cbn [lists_of fields_of] in Hseg. unfold L in Hseg.
    rewrite fmap_app in Hseg. apply seg_app in Hseg as [_ Hseg]. cbn in Hseg. destruct Hseg as [(q' & Hq' & _ & Hn) _].
    rewrite Hq in Hq'. injection Hq' as <-. rewrite Hn. by destruct L2. }
  assert (HL : L = (L1 ++ [(x, r)]) ++ L2) by (unfold L; by rewrite <- app_assoc).
  assert (Hbb : pending_bucket_count p2 = n) by (rewrite Hb2, Hb1; done).
  rewrite Hnext. destruct (IH fuel p2 (L1 ++ [(x, r)])) as (p' & Hp & Hs' & Ht' & Hc' & Hb' & Hz').
  - lia.
  - by rewrite <- HL.
  - by rewrite <- HL.
  - rewrite Hbb. eapply tables_ext; [|exact Ht2]. rewrite Hb1. intros [|] b; done.
  - rewrite <- HL. intros y s Hy. rewrite (Hc2 y), (Hc1 y). by apply Hc.
  - cbn in Hf. lia.
  - rewrite <- HL in Hs', Ht'. rewrite Hbb in Ht', Hb'. exists p'. split; [done|]. split; [done|]. split; [done|].
    split; [|split; [done|congruence]]. eapply same_content_trans; [exact Hc1|]. by eapply same_content_trans.
Qed.

(** [new_tables] keeps the requests. *)
Lemma new_tables_spec (n : nat) p L R : rep p L R -> (0 < n)%nat ->
  exists p', new_tables n p = Some p' /\ rep p' L R /\ pending_bucket_count p' = Z.of_nat n.
Proof.
  intros Hrep Hn. unfold new_tables.
  set (p0 := set_table HASH_NEXT (Some (replicate n None)) (set_table ID_NEXT (Some (replicate n None)) p)).
  assert (Hb0 : pending_bucket_count p0 = Z.of_nat n).
  { unfold pending_bucket_count, p0. cbn. unfold zlen. by rewrite length_replicate. }
  destruct (fill_tables_spec R L (size (requests p0)) p0 []) as (p' & Hp & Hs & Ht & Hc & Hb & Hz).
  - rewrite Hb0. lia.
  - exact (rep_nodup _ _ _ Hrep).
  - destruct (rep_shape _ _ _ Hrep) as [H1 H2 H3 H4]. split; [exact H1| |exact H3|exact H4].
    intros l. specialize (H2 l). by destruct l.
  - intros f. exists (replicate n None). split; [by destruct f|]. rewrite Hb0. unfold zlen. rewrite length_replicate.
    split; [done|]. intros b o Ho. apply lookup_replicate in Ho as [-> _]. done.
  - intros x r Hx. by apply (rep_content _ _ _ Hrep).
  - exact (rep_size _ _ _ Hrep).
  - exists p'. rewrite (rep_first _ _ _ Hrep : first_of (pending_ends p0) = head L.*1). split; [done|].
    split; [|congruence]. rewrite Hb0 in Ht, Hb. split.
    + done.
    + right. rewrite Hb. split; [lia|done].
    + intros x r. rewrite (Hc x). apply (rep_content _ _ _ Hrep).
    + apply (rep_ready _ _ _ Hrep).
    + apply (rep_verified _ _ _ Hrep).
    + apply (rep_notified _ _ _ Hrep).
    + rewrite Hz. apply (rep_count _ _ _ Hrep).
Qed.

Lemma no_queues_rep : rep no_queues [] [].
Proof.
  split.
  - split; [by intros [| | |]; constructor|by intros [| | |]|intros x Hx; by apply not_elem_of_nil in Hx|].
    intros x q Hq. done.
  - by left.
  - intros x r. split; [intros Hx; by apply not_elem_of_nil in Hx|done].
  - done.
  - intros x r Hx. by apply not_elem_of_nil in Hx.
  - intros x r Hx. by apply not_elem_of_nil in Hx.
  - done.
Qed.
