(* ===== verification/Mux.v ===== *)
(** * The mux mode (src/conn_mux.c)

    A registry of the mux mode: one socket and one thread for many agents.  The
    handlers run with the mutex of the registry, so each is a step on its state,
    with the agents it serves.  The state is the registry, the agents and the number
    of the next request; what the socket gives and returns is a parameter (class
    [Socket]).  Time does not pass within a step. *)

From S2P Require Import Prelude Effects CText Addr Turn Ice IceSdp StunTypes StunWrite StunRead.
From S2P Require Import AgentTypes Agent AgentMessages AgentUpdate MuxMap MuxQueues MuxPending.
From stdpp Require Import list gmap.
#[local] Open Scope Z_scope.

Definition MAX_NOTIFICATIONS_PER_TICK : nat := 64.
Definition RECV_LIMIT : nat := 1000.
Definition ICE_CHARACTERS : list Z := str "ABCDEFGHIJKLMNOPQRSTUVWXYZabcdefghijklmnopqrstuvwxyz0123456789+/".

(** ** State *)

(** A callback of the application, with the pointer it is given. *)
Definition callback := (Z * Z)%type.

Record registry_impl_t := {
  conn_mux_registries_index : Z;
  port : Z;
  bind_address : list Z;
  send_ds : Z;
  amap : addr_map_t;
  cb_mux_incoming : option callback;
  cb_mux_pending : option callback;
  pending_required : bool;
  pending_closing : bool;
  max_pending : Z;
  pending_timeout_ms : Z;
  queues : queues_t;
  received : Z;
  rejected : Z;
  notifications : Z;
  duplicates : Z
}.

(** The registry as [calloc] and [conn_mux_registry_init] leave it. *)
Definition registry_impl_zero : registry_impl_t :=
  {| conn_mux_registries_index := 0; port := 0; bind_address := []; send_ds := 0; amap := new_map INITIAL_MAP_SIZE;
     cb_mux_incoming := None; cb_mux_pending := None; pending_required := false; pending_closing := false;
     max_pending := 0; pending_timeout_ms := 0; queues := no_queues; received := 0; rejected := 0;
     notifications := 0; duplicates := 0 |}.

Definition set_index (m : registry_impl_t) (v : Z) : registry_impl_t :=
  Build_registry_impl_t v (port m) (bind_address m) (send_ds m) (amap m) (cb_mux_incoming m) (cb_mux_pending m)
    (pending_required m) (pending_closing m) (max_pending m) (pending_timeout_ms m) (queues m) (received m)
    (rejected m) (notifications m) (duplicates m).
Definition set_send_ds (m : registry_impl_t) (v : Z) : registry_impl_t :=
  Build_registry_impl_t (conn_mux_registries_index m) (port m) (bind_address m) v (amap m) (cb_mux_incoming m)
    (cb_mux_pending m) (pending_required m) (pending_closing m) (max_pending m) (pending_timeout_ms m) (queues m)
    (received m) (rejected m) (notifications m) (duplicates m).
Definition set_amap (m : registry_impl_t) (v : addr_map_t) : registry_impl_t :=
  Build_registry_impl_t (conn_mux_registries_index m) (port m) (bind_address m) (send_ds m) v (cb_mux_incoming m)
    (cb_mux_pending m) (pending_required m) (pending_closing m) (max_pending m) (pending_timeout_ms m) (queues m)
    (received m) (rejected m) (notifications m) (duplicates m).
Definition set_incoming (m : registry_impl_t) (v : option callback) : registry_impl_t :=
  Build_registry_impl_t (conn_mux_registries_index m) (port m) (bind_address m) (send_ds m) (amap m) v
    (cb_mux_pending m) (pending_required m) (pending_closing m) (max_pending m) (pending_timeout_ms m) (queues m)
    (received m) (rejected m) (notifications m) (duplicates m).
(** The fields that a listener for pending requests sets. *)
Definition set_listener (m : registry_impl_t) (cb : option callback) (required closing : bool) (limit timeout : Z)
    (q : queues_t) : registry_impl_t :=
  Build_registry_impl_t (conn_mux_registries_index m) (port m) (bind_address m) (send_ds m) (amap m)
    (cb_mux_incoming m) cb required closing limit timeout q (received m) (rejected m) (notifications m) (duplicates m).
Definition set_queues (m : registry_impl_t) (v : queues_t) : registry_impl_t :=
  set_listener m (cb_mux_pending m) (pending_required m) (pending_closing m) (max_pending m) (pending_timeout_ms m) v.
(** The counters are 64 bits wide. *)
Definition count_received (m : registry_impl_t) : registry_impl_t :=
  Build_registry_impl_t (conn_mux_registries_index m) (port m) (bind_address m) (send_ds m) (amap m)
    (cb_mux_incoming m) (cb_mux_pending m) (pending_required m) (pending_closing m) (max_pending m)
    (pending_timeout_ms m) (queues m) (u64 (received m + 1)) (rejected m) (notifications m) (duplicates m).
Definition count_rejected (n : Z) (m : registry_impl_t) : registry_impl_t :=
  Build_registry_impl_t (conn_mux_registries_index m) (port m) (bind_address m) (send_ds m) (amap m)
    (cb_mux_incoming m) (cb_mux_pending m) (pending_required m) (pending_closing m) (max_pending m)
    (pending_timeout_ms m) (queues m) (received m) (u64 (rejected m + n)) (notifications m) (duplicates m).
Definition count_notification (m : registry_impl_t) : registry_impl_t :=
  Build_registry_impl_t (conn_mux_registries_index m) (port m) (bind_address m) (send_ds m) (amap m)
    (cb_mux_incoming m) (cb_mux_pending m) (pending_required m) (pending_closing m) (max_pending m)
    (pending_timeout_ms m) (queues m) (received m) (rejected m) (u64 (notifications m + 1)) (duplicates m).
Definition count_duplicate (m : registry_impl_t) : registry_impl_t :=
  Build_registry_impl_t (conn_mux_registries_index m) (port m) (bind_address m) (send_ds m) (amap m)
    (cb_mux_incoming m) (cb_mux_pending m) (pending_required m) (pending_closing m) (max_pending m)
    (pending_timeout_ms m) (queues m) (received m) (rejected m) (notifications m) (u64 (duplicates m + 1)).

(** [conn_registry_t]; [agents_size] is the length of [agents]. *)
Record conn_registry_t := {
  r_impl : registry_impl_t;
  agents : list (option agent_ptr);
  agents_count : Z
}.

Record conn_impl_t := { next_timestamp : Z; conn_finished : bool }.

(** An agent with its connection: [conn_impl], whether [registry] is this one, and [conn_index]. *)
Record mux_agent_t := {
  ma_agent : juice_agent_t;
  ma_conn : option conn_impl_t;
  ma_registered : bool;
  conn_index : Z
}.

Record mux_t := {
  reg : conn_registry_t;
  store : gmap agent_ptr mux_agent_t;
  next_request_id : Z
}.

Definition with_impl (s : mux_t) (m : registry_impl_t) : mux_t :=
  {| reg := {| r_impl := m; agents := agents (reg s); agents_count := agents_count (reg s) |};
     store := store s; next_request_id := next_request_id s |}.
Definition with_store (s : mux_t) (st : gmap agent_ptr mux_agent_t) : mux_t :=
  {| reg := reg s; store := st; next_request_id := next_request_id s |}.
Definition with_next_id (s : mux_t) (v : Z) : mux_t :=
  {| reg := reg s; store := store s; next_request_id := v |}.

Definition with_agent (g : mux_agent_t) (a : juice_agent_t) : mux_agent_t :=
  {| ma_agent := a; ma_conn := ma_conn g; ma_registered := ma_registered g; conn_index := conn_index g |}.
Definition with_conn (g : mux_agent_t) (c : option conn_impl_t) : mux_agent_t :=
  {| ma_agent := ma_agent g; ma_conn := c; ma_registered := ma_registered g; conn_index := conn_index g |}.

(** ** Effects *)

(** What the application is told of a request. *)
Record binding_info_t := { bi_local : list Z; bi_remote : list Z; bi_address : list Z; bi_port : Z }.

Inductive mux_event :=
| AgentDid (a : agent_ptr) (e : event)
| IncomingRequest (cb : callback) (info : binding_info_t)
| PendingRequest (cb : callback) (id : Z) (info : binding_info_t)
| Datagram (dst : addr_record_t) (data : list Z) (ds : Z)
| Woken.

Abbreviation MuxM := (eff mux_t mux_event).

(** The socket of a registry: the datagrams that wait (an empty one only wakes the
    thread), whether receiving fails after them, the results of sending and of
    setting the Differentiated Services field, the error number, the addresses, and
    whether the caller is the thread of the registry. *)
Class Socket := {
  inbox : list (list Z * addr_record_t);
  recv_fails : bool;
  sendto : addr_record_t -> list Z -> Z;
  sockerrno : Z;
  set_diffserv : Z -> Z;
  sendto_self : Z;
  socket_addrs : Z * list addr_record_t;
  on_thread : bool
}.

Section Mux.
Context `{Crypto} `{System} `{Socket}.

Definition get_impl : MuxM registry_impl_t := s ← get; mret (r_impl (reg s)).
Definition set_impl (m : registry_impl_t) : MuxM unit := s ← get; put (with_impl s m).
Definition modify_impl (f : registry_impl_t -> registry_impl_t) : MuxM unit := m ← get_impl; set_impl (f m).

(** A step of the queues. *)
Definition on_queues (f : queues_t -> option queues_t) : MuxM unit :=
  m ← get_impl; q ← defined (f (queues m)); set_impl (set_queues m q).

(** A step of an agent. *)
Definition on_agent {A} (a : agent_ptr) (c : M A) : MuxM A := fun s =>
  match store s !! a with
  | None => None
  | Some g =>
      match c (ma_agent g) with
      | None => None
      | Some (x, a', tr) => Some (x, with_store s (<[a := with_agent g a']> (store s)), AgentDid a <$> tr)
      end
  end.

Definition get_agent (a : agent_ptr) : MuxM mux_agent_t := s ← get; defined (store s !! a).

(** A write to the connection of an agent. *)
Definition set_conn (a : agent_ptr) (f : conn_impl_t -> conn_impl_t) : MuxM unit :=
  s ← get;
  g ← defined (store s !! a);
  c ← defined (ma_conn g);
  put (with_store s (<[a := with_conn g (Some (f c))]> (store s))).

Definition finish (c : conn_impl_t) : conn_impl_t := {| next_timestamp := next_timestamp c; conn_finished := true |}.
Definition wake_at (t : Z) (c : conn_impl_t) : conn_impl_t := {| next_timestamp := t; conn_finished := conn_finished c |}.

(** [is_ready] for a pointer that may be NULL. *)
Definition is_ready (g : mux_agent_t) : bool :=
  match ma_conn g with Some c => negb (conn_finished c) | None => false end.
Definition agent_ready (a : option agent_ptr) : MuxM bool :=
  match a with None => mret false | Some a => g ← get_agent a; mret (is_ready g) end.

(** ** Pending requests *)

Definition expire_pending : MuxM unit :=
  m ← get_impl;
  '(n, q) ← defined (expire_queues now (queues m));
  set_impl (count_rejected n (set_queues m q)).

(** The request is of this source and these user names. *)
Definition same_request (r : addr_record_t) (local remote : list Z) (x : request_t) : bool :=
  addr_record_is_equal r (src x) true && bool_decide (local = local_ufrag x) && bool_decide (remote = remote_ufrag x).

(** The loop of [defer_request] over the bucket. *)
Definition find_duplicate (p : queues_t) (r : addr_record_t) (local remote : list Z) : option (option ptr) :=
  let n := pending_bucket_count p in
  if n =? 0 then None
  else
    t ← pending_buckets p;
    x ← t !! Z.to_nat (pending_hash r local remote mod n);
    find_chain (size (requests p)) HASH_NEXT (same_request r local remote) x p.

Definition defer_request (r : addr_record_t) (local remote data : list Z) : MuxM unit :=
  m ← get_impl;
  if negb (bool_decide (is_Some (cb_mux_pending m))) || (MAX_PENDING_PACKET_SIZE <? zlen data)
  then modify_impl (count_rejected 1)
  else
    found ← defined (find_duplicate (queues m) r local remote);
    if bool_decide (is_Some found) then modify_impl count_duplicate
    else if max_pending m <=? pending_count (queues m) then modify_impl (count_rejected 1)
    else
      s ← get;
      let id := next_request_id s in
      _ ← put (with_next_id s (if id =? 0 then 0 else u64 (id + 1)));
      if id =? 0 then modify_impl (count_rejected 1)
      else
        on_queues (fun p => link_request (new_node p)
                              (make_request id (now + pending_timeout_ms m) r local remote data) p).

(** One round of [dispatch_pending], up to the call of the application; whether the
    loop goes on. *)
Definition dispatch_one : MuxM bool :=
  _ ← expire_pending;
  m ← get_impl;
  match cb_mux_pending m, first_of (notify_ends (queues m)) with
  | Some cb, Some x =>
      q ← defined (requests (queues m) !! x);
      let r := content q in
      match getnameinfo (addr (src r)) with
      | None =>
          _ ← modify_impl (count_rejected 1);
          _ ← on_queues (remove_pending x);
          mret true
      | Some (host, _) =>
          _ ← on_queues (notify_request x);
          _ ← modify_impl count_notification;
          _ ← emit (PendingRequest cb (pr_id r)
                      {| bi_local := local_ufrag r; bi_remote := remote_ufrag r; bi_address := host;
                         bi_port := addr_get_port (addr (src r)) |});
          mret true
      end
  | _, _ => mret false
  end.

(** [dispatch_pending]: between two rounds the application may act, [app]. *)
Fixpoint dispatch_pending (app : MuxM unit) (n : nat) : MuxM unit :=
  match n with
  | O => mret tt
  | S n' =>
      again ← dispatch_one;
      if (again : bool) then _ ← app; dispatch_pending app n' else mret tt
  end.

(** ** Datagrams *)

(** The two tests of a user name fragment. *)
Definition valid_ufrag (u : list Z) : bool :=
  (4 <=? zlen u) && (zlen u <=? 256) && forallb (fun c => bool_decide (c ∈ ICE_CHARACTERS)) u.

(** The loop over the agents for a request: the first ready one with the user name
    fragment.  The result is [Some] of what [lookup_agent] returns then. *)
Fixpoint find_by_ufrag (l : list (option agent_ptr)) (local : list Z) (buf : list Z) (msg : stun_message_t)
    (r : addr_record_t) : MuxM (option (option agent_ptr * list Z)) :=
  match l with
  | [] => mret None
  | a :: l =>
      ready ← agent_ready a;
      match a, (ready : bool) with
      | Some a, true =>
          g ← get_agent a;
          if bool_decide (local = ice_ufrag (a_local (ma_agent g))) then
            '(ret, buf) ← on_agent a (agent_verify_stun_binding buf msg);
            if negb (ret =? 0) then _ ← modify_impl (count_rejected 1); mret (Some (None, buf))
            else
              m ← get_impl;
              '(ret, am) ← defined (insert_map_entry (amap m) r a);
              _ ← set_impl (set_amap m am);
              mret (Some (if ret =? 0 then Some a else None, buf))
          else find_by_ufrag l local buf msg r
      | _, _ => find_by_ufrag l local buf msg r
      end
  end.

(** The loop over the agents for a response. *)
Fixpoint find_by_transaction (l : list (option agent_ptr)) (tid : list Z) : MuxM (option agent_ptr) :=
  match l with
  | [] => mret None
  | a :: l =>
      ready ← agent_ready a;
      match a, (ready : bool) with
      | Some a, true =>
          found ← on_agent a (agent_find_entry_from_transaction_id tid);
          if bool_decide (is_Some found) then mret (Some a) else find_by_transaction l tid
      | _, _ => find_by_transaction l tid
      end
  end.

(** A Binding request of an unknown address, with the user name split. *)
Definition lookup_request (local remote buf : list Z) (msg : stun_message_t) (r : addr_record_t)
  : MuxM (option agent_ptr * list Z) :=
  m ← get_impl;
  if pending_required m then _ ← defer_request r local remote buf; mret (None, buf)
  else
    s ← get;
    res ← find_by_ufrag (agents (reg s)) local buf msg r;
    match res with
    | Some res => mret res
    | None =>
        match cb_mux_incoming m with
        | None => mret (None, buf)
        | Some cb =>
            match getnameinfo (addr r) with
            | None => mret (None, buf)
            | Some (host, _) =>
                _ ← emit (IncomingRequest cb {| bi_local := local; bi_remote := remote; bi_address := host;
                                                bi_port := addr_get_port (addr r) |});
                mret (None, buf)
            end
        end
    end.

(** The agent of a datagram, and the buffer, which is written to when a message is
    read or verified. *)
Definition lookup_agent (buf : list Z) (r : addr_record_t) : MuxM (option agent_ptr * list Z) :=
  m ← get_impl;
  known ← defined (find_agent (amap m) r);
  match known with
  | Some a => mret (Some a, buf)
  | None =>
      stun ← defined (is_stun_datagram buf (zlen buf));
      if negb (stun : bool) then _ ← modify_impl (count_rejected 1); mret (None, buf)
      else
        '(ret, buf, msg) ← defined (stun_read buf (zlen buf));
        if ret <? 0 then _ ← modify_impl (count_rejected 1); mret (None, buf)
        else if bool_decide (msg_class msg = STUN_CLASS_REQUEST) && (msg_method msg =? STUN_METHOD_BINDING) &&
                has_integrity msg
        then
          match split_username (username (credentials msg)) with
          | None => _ ← modify_impl (count_rejected 1); mret (None, buf)
          | Some (local, remote) =>
              if negb (valid_ufrag local && valid_ufrag remote)
              then _ ← modify_impl (count_rejected 1); mret (None, buf)
              else lookup_request local remote buf msg r
          end
        else if negb (STUN_IS_RESPONSE (msg_class msg))
        then _ ← modify_impl (count_rejected 1); mret (None, buf)
        else
          s ← get;
          a ← find_by_transaction (agents (reg s)) (transaction_id msg);
          mret (a, buf)
  end.

Definition process_datagram (buf : list Z) (r : addr_record_t) : MuxM unit :=
  '(a, buf) ← lookup_agent buf r;
  ready ← agent_ready a;
  match a, (ready : bool) with
  | Some a, true =>
      ret ← on_agent a (agent_conn_recv buf r);
      if negb (ret =? 0) then set_conn a finish else set_conn a (wake_at now)
  | _, _ => mret tt
  end.

(** [conn_mux_recv]: the next datagram that is not empty; a longer one is cut. *)
Fixpoint conn_mux_recv (l : list (list Z * addr_record_t))
  : Z * option (list Z * addr_record_t) * list (list Z * addr_record_t) :=
  match l with
  | [] => (if recv_fails then -1 else 0, None, [])
  | (data, src) :: l =>
      let data := take (Z.to_nat BUFFER_SIZE) data in
      if zlen data =? 0 then conn_mux_recv l
      else
        let '(_, sa, sa_len) := addr_unmap_inet6_v4mapped (addr src) (len src) in
        (zlen data, Some (data, {| addr := sa; len := sa_len; socktype := SOCK_DGRAM |}), l)
  end.

(** The loop that receives; the last result of [conn_mux_recv]. *)
Fixpoint receive_loop (left : nat) (l : list (list Z * addr_record_t)) (last : Z) : MuxM Z :=
  match left with
  | O => mret last
  | S left' =>
      match conn_mux_recv l with
      | (ret, Some (data, r), l) =>
          _ ← modify_impl count_received;
          _ ← process_datagram data r;
          receive_loop left' l ret
      | (ret, None, _) => mret ret
      end
  end.

(** ** The thread *)

Fixpoint fail_loop (l : list (option agent_ptr)) : MuxM unit :=
  match l with
  | [] => mret tt
  | a :: l =>
      ready ← agent_ready a;
      match a, (ready : bool) with
      | Some a, true => _ ← on_agent a agent_conn_fail; _ ← set_conn a finish; fail_loop l
      | _, _ => fail_loop l
      end
  end.
Definition conn_mux_fail : MuxM unit := s ← get; fail_loop (agents (reg s)).

(** An accepted request is handed to its agent. *)
Definition ready_one (x : ptr) : MuxM unit :=
  m ← get_impl;
  q ← defined (requests (queues m) !! x);
  let r := content q in
  ready ← agent_ready (pr_agent r);
  _ ← (match pr_agent r, (ready : bool) with
       | Some a, true =>
           '(ret, am) ← defined (insert_map_entry (amap m) (src r) a);
           _ ← set_impl (set_amap m am);
           if negb (ret =? 0) then mret tt
           else
             ret ← on_agent a (agent_conn_recv (pr_data r) (src r));
             _ ← (if negb (ret =? 0) then set_conn a finish else mret tt);
             set_conn a (wake_at now)
       | _, _ => mret tt
       end);
  on_queues (remove_pending x).

(** All of them; [fuel] is the number of requests. *)
Fixpoint ready_loop (fuel : nat) : MuxM unit :=
  m ← get_impl;
  match first_of (ready_ends (queues m)), fuel with
  | None, _ => mret tt
  | Some _, O => defined None
  | Some x, S fuel' => _ ← ready_one x; ready_loop fuel'
  end.
Definition process_ready : MuxM unit := m ← get_impl; ready_loop (size (requests (queues m))).

Fixpoint update_loop (l : list (option agent_ptr)) : MuxM unit :=
  match l with
  | [] => mret tt
  | a :: l =>
      ready ← agent_ready a;
      match a, (ready : bool) with
      | Some a, true =>
          g ← get_agent a;
          c ← defined (ma_conn g);
          _ ← (if next_timestamp c <=? now
               then t ← on_agent a agent_conn_update; set_conn a (wake_at t)
               else mret tt);
          update_loop l
      | _, _ => update_loop l
      end
  end.

(** What the poll reported: an error, or datagrams to read. *)
Record revents_t := { poll_error : bool; poll_in : bool }.

(** [conn_mux_process] with the mutex held; then, without it, [dispatch_pending]. *)
Definition process_locked (ev : revents_t) : MuxM Z :=
  if poll_error ev then _ ← conn_mux_fail; mret (-1)
  else
    _ ← expire_pending;
    _ ← process_ready;
    ret ← (if poll_in ev then receive_loop RECV_LIMIT inbox 0 else mret 0);
    if ret <? 0 then _ ← conn_mux_fail; mret (-1)
    else
      s ← get;
      _ ← update_loop (agents (reg s));
      mret 0.
Definition conn_mux_process (app : MuxM unit) (ev : revents_t) : MuxM Z :=
  ret ← process_locked ev;
  if ret <? 0 then mret ret
  else _ ← app; _ ← dispatch_pending app MAX_NOTIFICATIONS_PER_TICK; mret 0.

(** The earliest time an agent has something to do. *)
Fixpoint earliest (l : list (option agent_ptr)) (t : Z) : MuxM Z :=
  match l with
  | [] => mret t
  | a :: l =>
      ready ← agent_ready a;
      match a, (ready : bool) with
      | Some a, true =>
          g ← get_agent a;
          c ← defined (ma_conn g);
          earliest l (if next_timestamp c <? t then next_timestamp c else t)
      | _, _ => earliest l t
      end
  end.

(** The number of users and the time of the next event. *)
Definition conn_mux_prepare : MuxM (Z * Z) :=
  s ← get;
  t ← earliest (agents (reg s)) (now + 60000);
  m ← get_impl;
  let used := bool_decide (is_Some (cb_mux_incoming m)) || bool_decide (is_Some (cb_mux_pending m)) ||
              pending_closing m in
  let count := if used then agents_count (reg s) + 1 else agents_count (reg s) in
  if bool_decide (is_Some (first_of (notify_ends (queues m)))) ||
     bool_decide (is_Some (first_of (ready_ends (queues m))))
  then mret (count, now)
  else
    match first_of (expiry_ends (queues m)) with
    | Some x =>
        q ← defined (requests (queues m) !! x);
        mret (count, if deadline (content q) <? t then deadline (content q) else t)
    | None => mret (count, t)
    end.

(** ** The connection of an agent *)

Definition conn_mux_init (a : agent_ptr) : MuxM Z :=
  s ← get;
  g ← defined (store s !! a);
  _ ← put (with_store s (<[a := with_conn g (Some {| next_timestamp := 0; conn_finished := false |})]> (store s)));
  mret 0.

(** A datagram of the registry to itself wakes its thread. *)
Definition conn_mux_interrupt_registry : MuxM Z :=
  _ ← emit Woken; mret (if sendto_self <? 0 then -1 else 0).

Definition conn_mux_interrupt (a : agent_ptr) : MuxM Z :=
  _ ← set_conn a (wake_at now); conn_mux_interrupt_registry.

Definition conn_mux_cleanup (a : agent_ptr) : MuxM unit :=
  m ← get_impl;
  '(_, am) ← defined (remove_map_entries (amap m) a);
  _ ← set_impl (set_amap m am);
  _ ← on_queues (remove_all_where (fun r => bool_decide (pr_agent r = Some a)));
  _ ← conn_mux_interrupt a;
  s ← get;
  g ← defined (store s !! a);
  put (with_store s (<[a := with_conn g None]> (store s))).

Definition conn_mux_send (dst : addr_record_t) (data : list Z) (ds : Z) : MuxM Z :=
  m ← get_impl;
  _ ← (if (0 <=? send_ds m) && negb (send_ds m =? ds)
       then set_impl (set_send_ds m (if set_diffserv ds =? 0 then ds else -1))
       else mret tt);
  m ← get_impl;
  _ ← emit (Datagram dst data (send_ds m));
  let ret := sendto dst data in
  mret (if ret <? 0 then - sockerrno else ret).

Definition conn_mux_get_addrs : MuxM (Z * list addr_record_t) := mret socket_addrs.

(** ** Listeners *)

Definition conn_mux_stop_listen : MuxM Z :=
  _ ← modify_impl (fun m => set_incoming m None); conn_mux_interrupt_registry.

Definition conn_mux_listen (cb : option callback) : MuxM Z :=
  match cb with
  | None => conn_mux_stop_listen
  | Some cb =>
      m ← get_impl;
      if bool_decide (is_Some (cb_mux_incoming m)) || pending_required m then mret (-1)
      else _ ← set_impl (set_incoming m (Some cb)); mret 0
  end.

Definition conn_mux_can_release_registry : MuxM bool :=
  m ← get_impl;
  mret (negb (bool_decide (is_Some (cb_mux_incoming m))) && negb (bool_decide (is_Some (cb_mux_pending m))) &&
        negb (pending_closing m)).

(** The configuration of a listener: its limit and its timeout. *)
Record juice_mux_pending_config_t := { pc_max_pending : Z; pc_timeout_ms : Z }.

Definition configured (c : option juice_mux_pending_config_t) (f : juice_mux_pending_config_t -> Z) (default : Z) : Z :=
  match c with Some c => if f c =? 0 then default else f c | None => default end.

(** [while (buckets < limit * 2) buckets *= 2], for a limit of at most 4096. *)
Fixpoint bucket_loop (fuel : nat) (buckets limit : Z) : option Z :=
  if buckets <? limit * 2 then
    match fuel with O => None | S fuel' => bucket_loop fuel' (buckets * 2) limit end
  else Some buckets.
Definition bucket_count_for (limit : Z) : option Z := bucket_loop 13 1 limit.

Definition conn_mux_listen_pending (config : option juice_mux_pending_config_t) (cb : option callback) : MuxM Z :=
  m ← get_impl;
  if negb (bool_decide (is_Some cb)) || bool_decide (is_Some (cb_mux_incoming m)) ||
     bool_decide (is_Some (cb_mux_pending m)) || pending_closing m
  then mret JUICE_ERR_NOT_AVAIL
  else
    let limit := configured config pc_max_pending 256 in
    let timeout := configured config pc_timeout_ms 5000 in
    if (4096 <? limit) || (30000 <? timeout) then mret JUICE_ERR_INVALID
    else
      buckets ← defined (bucket_count_for limit);
      q ← defined (new_tables (Z.to_nat buckets) (queues m));
      _ ← set_impl (set_listener m cb true (pending_closing m) limit timeout q);
      mret 0.

Definition conn_mux_begin_stop_pending : MuxM Z :=
  if on_thread then mret JUICE_ERR_INVALID
  else
    m ← get_impl;
    if negb (bool_decide (is_Some (cb_mux_pending m))) || pending_closing m then mret JUICE_ERR_NOT_AVAIL
    else
      _ ← set_impl (set_listener m None (pending_required m) true (max_pending m) (pending_timeout_ms m) (queues m));
      _ ← on_queues (remove_all_where (fun r => bool_decide (pr_agent r = None)));
      mret 0.

Definition conn_mux_finish_stop_pending : MuxM unit :=
  _ ← modify_impl (fun m => set_listener m (cb_mux_pending m) (pending_required m) false (max_pending m)
                              (pending_timeout_ms m) (queues m));
  _ ← conn_mux_interrupt_registry;
  mret tt.

(** ** The decisions of the application *)

(** The request is not kept. *)
Definition refuse_request (x : ptr) : MuxM Z :=
  _ ← modify_impl (count_rejected 1);
  _ ← on_queues (remove_pending x);
  mret JUICE_ERR_FAILED.

(** The data of the request after [stun_read] and [stun_check_integrity]. *)
Definition set_data (data : list Z) (r : request_t) : request_t :=
  Build_request_t (pr_id r) (deadline r) (src r) (local_ufrag r) (remote_ufrag r) (password r) (notified r) (verified r)
    (pr_agent r) data.

(** The check of the request at [x]. *)
Definition verify_at (x : ptr) (r : request_t) (pwd : list Z) (m : registry_impl_t) : MuxM Z :=
  taken ← defined (find_agent (amap m) (src r));
  if bool_decide (is_Some taken) then refuse_request x
  else
    '(ret, data, msg) ← defined (stun_read (pr_data r) (zlen (pr_data r)));
    _ ← on_queues (update_content x (set_data data));
    if ret <? 0 then refuse_request x
    else
      '(data, ok) ← defined (stun_check_integrity data (zlen data) msg (Some pwd));
      _ ← on_queues (update_content x (set_data data));
      if negb (ok : bool) then refuse_request x
      else _ ← on_queues (update_content x (set_verified pwd)); mret 0.

Definition conn_mux_verify_request (id : Z) (pwd : list Z) : MuxM Z :=
  _ ← expire_pending;
  m ← get_impl;
  found ← defined (pending_by_id (queues m) id);
  match found with
  | None => mret JUICE_ERR_NOT_AVAIL
  | Some x =>
      q ← defined (requests (queues m) !! x);
      if verified (content q) || negb (notified (content q)) then mret JUICE_ERR_NOT_AVAIL
      else verify_at x (content q) pwd m
  end.

(** The loop over the accepted requests; [fuel] is their number. *)
Fixpoint ready_source (fuel : nat) (r : addr_record_t) (x : option ptr) (p : queues_t) : option bool :=
  match x with
  | None => Some false
  | Some x =>
      match fuel with
      | O => None
      | S fuel' =>
          q ← requests p !! x;
          if addr_record_is_equal r (src (content q)) true then Some true
          else ready_source fuel' r (work_next (links q)) p
      end
  end.

(** The agent of a request must have its user names and its password. *)
Definition agent_fits (g : mux_agent_t) (r : request_t) : bool :=
  ma_registered g && is_ready g && bool_decide (ice_ufrag (a_local (ma_agent g)) = local_ufrag r) &&
  bool_decide (ice_ufrag (a_remote (ma_agent g)) = remote_ufrag r) &&
  bool_decide (ice_pwd (a_local (ma_agent g)) = password r).

(** The request at [x] is accepted for an agent that fits. *)
Definition attach_at (x : ptr) (r : request_t) (a : agent_ptr) (m : registry_impl_t) : MuxM Z :=
  taken ← defined (find_agent (amap m) (src r));
  if bool_decide (is_Some taken) then mret JUICE_ERR_NOT_AVAIL
  else
    other ← defined (ready_source (size (requests (queues m))) (src r) (first_of (ready_ends (queues m))) (queues m));
    if (other : bool) then mret JUICE_ERR_NOT_AVAIL
    else
      ret ← conn_mux_interrupt_registry;
      if negb (ret =? 0) then mret JUICE_ERR_FAILED
      else _ ← on_queues (accept_request x a); mret 0.

Definition conn_mux_attach_request (id : Z) (a : agent_ptr) : MuxM Z :=
  _ ← expire_pending;
  m ← get_impl;
  found ← defined (pending_by_id (queues m) id);
  match found with
  | None => mret JUICE_ERR_NOT_AVAIL
  | Some x =>
      q ← defined (requests (queues m) !! x);
      if negb (verified (content q)) || bool_decide (is_Some (pr_agent (content q))) then mret JUICE_ERR_NOT_AVAIL
      else
        g ← get_agent a;
        if negb (agent_fits g (content q)) then mret JUICE_ERR_INVALID
        else attach_at x (content q) a m
  end.

Definition conn_mux_reject_request (id : Z) : MuxM Z :=
  m ← get_impl;
  found ← defined (pending_by_id (queues m) id);
  match found with
  | None => mret JUICE_ERR_NOT_AVAIL
  | Some x =>
      q ← defined (requests (queues m) !! x);
      if bool_decide (is_Some (pr_agent (content q))) then mret JUICE_ERR_NOT_AVAIL
      else
        _ ← modify_impl (count_rejected 1);
        _ ← on_queues (remove_pending x);
        mret 0
  end.

Record juice_mux_stats_t := {
  st_received : Z; st_rejected : Z; st_agents : Z; st_mappings : Z; st_pending : Z; st_notifications : Z;
  st_duplicates : Z
}.

Definition conn_mux_get_stats : MuxM juice_mux_stats_t :=
  s ← get;
  let m := r_impl (reg s) in
  mret {| st_received := received m; st_rejected := rejected m; st_agents := agents_count (reg s);
          st_mappings := map_count (amap m); st_pending := pending_count (queues m);
          st_notifications := notifications m; st_duplicates := duplicates m |}.
End Mux.

(** ** The loop of the thread *)

(** What a call of poll gives, and a turn of the loop: its times, what the socket has
    then and what the application does meanwhile. *)
Inductive mux_poll_result := MuxPollFailed (err : Z) | MuxPolled (ev : revents_t).
Record mux_turn_t := {
  mux_prepare_time : System; mux_process_time : System; mux_poll_gives : mux_poll_result; mux_turn_socket : Socket; mux_app : MuxM unit
}.

(** [conn_mux_run]: whether the thread has left the loop when the turns are over; the
    error numbers are EINTR and EAGAIN. *)
Fixpoint conn_mux_run `{Crypto} (turns : list mux_turn_t) : MuxM bool :=
  match turns with
  | [] => mret false
  | t :: turns =>
      '(n, _) ← @conn_mux_prepare (mux_prepare_time t);
      if n <=? 0 then mret true
      else
        match mux_poll_gives t with
        | MuxPollFailed err => if (err =? 4) || (err =? 11) then conn_mux_run turns else mret true
        | MuxPolled ev =>
            ret ← @conn_mux_process _ (mux_process_time t) (mux_turn_socket t) (mux_app t) ev;
            if ret <? 0 then mret true else conn_mux_run turns
        end
  end.
