(* ===== verification/MuxSpec.v ===== *)
(** * The mux mode: pending requests as the application sees them (src/conn_mux.c)

    The invariant of a registry, and what every operation on pending requests does
    to the sequence of requests that the registry holds. *)

From S2P Require Import Prelude Effects CText Addr Turn Ice IceSdp StunTypes StunWrite StunRead.
From S2P Require Import AgentTypes Agent AgentMessages AgentUpdate MuxMap MuxQueues MuxPending Mux.
From stdpp Require Import list gmap sorting.
#[local] Open Scope Z_scope.

(** ** Runs *)

Lemma bind_get_impl {A} (k : registry_impl_t -> MuxM A) s : (m ← get_impl; k m) s = k (r_impl (reg s)) s.
Proof. by apply bind_quiet. Qed.
Lemma bind_set_impl {A} m (k : unit -> MuxM A) s : (x ← set_impl m; k x) s = k tt (with_impl s m).
Proof. by apply bind_quiet. Qed.
Lemma bind_modify_impl {A} f (k : unit -> MuxM A) s :
  (x ← modify_impl f; k x) s = k tt (with_impl s (f (r_impl (reg s)))).
Proof. by apply bind_quiet. Qed.
Lemma bind_on_queues {A} f q (k : unit -> MuxM A) s : f (queues (r_impl (reg s))) = Some q ->
  (x ← on_queues f; k x) s = k tt (with_impl s (set_queues (r_impl (reg s)) q)).
Proof.
  intros Hq. apply bind_quiet. unfold on_queues. rewrite bind_get_impl, (bind_defined _ _ q) by done. done.
Qed.
Lemma on_queues_run f q s : f (queues (r_impl (reg s))) = Some q ->
  on_queues f s = Some (tt, with_impl s (set_queues (r_impl (reg s)) q), []).
Proof. intros Hq. unfold on_queues. rewrite bind_get_impl, (bind_defined _ _ q) by done. done. Qed.

(** ** The invariant *)

Section Spec.
Context `{CryptoLaws}.

(** A request whose integrity was checked with the password. *)
Definition authenticated (data pwd : list Z) : Prop :=
  exists ret msg, stun_read data (zlen data) = Some (ret, data, msg) /\ 0 <= ret /\ has_integrity msg = true /\
    authentic (generate_hmac_key msg (Some pwd)) data ret.

Record request_ok (r : request_t) : Prop := {
  ro_src : known (src r);
  ro_bytes : bytes (pr_data r);
  ro_size : zlen (pr_data r) <= MAX_PENDING_PACKET_SIZE;
  ro_verified : verified r = true -> authenticated (pr_data r) (password r)
}.

(** The registry [m] holds the requests [L] at time [clock]; [nid] is the number of
    the next request. *)
Record pinv (clock nid : Z) (m : registry_impl_t) (L : entries_t) (R : list ptr) : Prop := {
  pi_rep : rep (queues m) L R;
  pi_map : map_ok (amap m);
  pi_nid : 0 <= nid < 2 ^ 64;
  pi_ids : NoDup ((fun e => pr_id e.2) <$> L);
  pi_id : forall x r, (x, r) ∈ L -> 0 < pr_id r /\ (nid = 0 \/ pr_id r < nid);
  pi_distinct : forall x r y r', (x, r) ∈ L -> (y, r') ∈ L ->
    same_request (src r) (local_ufrag r) (remote_ufrag r) r' = true -> x = y;
  pi_sorted : by_deadline L;
  pi_deadline : forall x r, (x, r) ∈ L -> unattached r = true -> deadline r <= clock + pending_timeout_ms m;
  pi_limit : zlen L <= 4096 /\ max_pending m <= 4096;
  pi_listener : is_Some (cb_mux_pending m) -> pending_required m = true /\ 0 < pending_bucket_count (queues m);
  pi_idle : cb_mux_pending m = None -> forall x r, (x, r) ∈ L -> attached r = true;
  pi_required : pending_required m = false -> L = [];
  pi_request : forall x r, (x, r) ∈ L -> request_ok r;
  pi_sources : forall x r y r', (x, r) ∈ L -> (y, r') ∈ L -> attached r = true -> attached r' = true ->
    same_record true (src r) (src r') -> x = y;
  pi_absent : forall x r, (x, r) ∈ L -> attached r = true -> absent (amap m) (src r)
}.

(** What the parts of the invariant depend on. *)
Lemma pinv_same clock nid m m' L R : pinv clock nid m L R -> queues m' = queues m -> amap m' = amap m ->
  cb_mux_pending m' = cb_mux_pending m -> pending_required m' = pending_required m ->
  max_pending m' = max_pending m -> pending_timeout_ms m' = pending_timeout_ms m -> pinv clock nid m' L R.
Proof.
  intros [H1 H2 H3 H4 H5 H6 H7 H8 H9 H10 H11 H12 H13 H14 H15] Hq Ha Hc Hr Hm Ht.
  split; rewrite ?Hq, ?Ha, ?Hc, ?Hr, ?Hm, ?Ht; done.
Qed.

Lemma pinv_clock clock clock' nid m L R : pinv clock nid m L R -> clock <= clock' -> pinv clock' nid m L R.
Proof.
  intros [H1 H2 H3 H4 H5 H6 H7 H8 H9 H10 H11 H12 H13 H14 H15] Hle. split; try done.
  intros x r Hx Hr. specialize (H8 x r Hx Hr). lia.
Qed.

Lemma by_deadline_sublist L L' : L' `sublist_of` L -> by_deadline L -> by_deadline L'.
Proof.
  unfold by_deadline. induction 1 as [|e L1 L2 Hsub IH|e L1 L2 Hsub IH]; [done| |].
  - rewrite !filter_cons. case_decide; [|done]. intros Hs. apply StronglySorted_inv in Hs as [Hs Hall].
    constructor; [by apply IH|]. rewrite Forall_forall in Hall |- *. intros e' He'. apply Hall.
    apply list_elem_of_filter in He' as [HP Hin]. apply list_elem_of_filter. split; [done|]. by eapply elem_of_sublist.
  - rewrite filter_cons. case_decide; [|done]. intros Hs. apply StronglySorted_inv in Hs as [Hs _]. by apply IH.
Qed.

Lemma zlen_sublist {A} (l l' : list A) : l' `sublist_of` l -> zlen l' <= zlen l.
Proof. intros Hs. apply sublist_length in Hs. unfold zlen. lia. Qed.

(** Requests are removed. *)
Lemma pinv_sublist clock nid m q L L' R R' : pinv clock nid m L R -> L' `sublist_of` L -> rep q L' R' ->
  pending_bucket_count q = pending_bucket_count (queues m) -> pinv clock nid (set_queues m q) L' R'.
Proof.
  intros [H1 H2 H3 H4 H5 H6 H7 H8 H9 H10 H11 H12 H13 H14 H15] Hsub Hrep Hb.
  assert (Hin : forall e, e ∈ L' -> e ∈ L) by (intros e He; by eapply elem_of_sublist).
  split; cbn [queues amap set_queues set_listener pending_timeout_ms max_pending cb_mux_pending pending_required].
  - done.
  - done.
  - done.
  - eapply sublist_NoDup; [exact H4|]. by apply fmap_sublist.
  - intros x r Hx. by apply (H5 x), Hin.
  - intros x r y r' Hx Hy. by apply H6; apply Hin.
  - by eapply by_deadline_sublist.
  - intros x r Hx. by apply (H8 x), Hin.
  - apply zlen_sublist in Hsub. lia.
  - by rewrite Hb.
  - intros Hcb x r Hx. by apply (H11 Hcb x), Hin.
  - intros Hr. specialize (H12 Hr). subst L. by apply sublist_nil_r in Hsub.
  - intros x r Hx. by apply (H13 x), Hin.
  - intros x r y r' Hx Hy. by apply H14; apply Hin.
  - intros x r Hx. by apply (H15 x), Hin.
Qed.

(** ** Expiry, arrival and notification *)

Context `{System}.

Definition staying (L : entries_t) : entries_t := filter (fun e => stays now e.2 = true) L.

Lemma expire_pending_run clock s L R : pinv clock (next_request_id s) (r_impl (reg s)) L R -> clock <= now ->
  exists q, expire_pending s = Some (tt, with_impl s (count_rejected (zlen L - zlen (staying L)) (set_queues (r_impl (reg s)) q)), []) /\
    pinv now (next_request_id s) (set_queues (r_impl (reg s)) q) (staying L) R /\ rep q (staying L) R.
Proof.
  intros Hinv Hclock. apply (pinv_clock _ now) in Hinv; [|done].
  destruct (expire_queues_spec now _ L R (pi_rep _ _ _ _ _ Hinv) (pi_sorted _ _ _ _ _ Hinv)) as (q & n & Hq & Hrep & Hb & ->).
  exists q. unfold expire_pending. rewrite bind_get_impl, (bind_defined _ _ (zlen L - zlen (staying L), q)) by done. split; [done|].
  split; [|done]. by eapply pinv_sublist; [exact Hinv|apply sublist_filter| |].
Qed.

Lemma same_request_hash r local remote x : same_request r local remote x = true ->
  chain_key HASH_NEXT x = pending_hash r local remote.
Proof.
  unfold same_request. rewrite !andb_true_iff, !bool_decide_eq_true. intros [ [Hr ->] ->].
  cbn. unfold pending_hash. by rewrite (addr_record_hash_proper true _ _ Hr).
Qed.

Lemma find_duplicate_spec p L R r local remote : rep p L R -> 0 < pending_bucket_count p ->
  exists res, find_duplicate p r local remote = Some res /\
    match res with
    | Some x => exists q, (x, q) ∈ L /\ same_request r local remote q = true
    | None => forall x q, (x, q) ∈ L -> same_request r local remote q = false
    end.
Proof.
  intros Hrep Hpos. unfold find_duplicate. rewrite (proj2 (Z.eqb_neq _ _)) by lia.
  destruct (rep_tables _ _ _ Hrep) as [(Hn & _)|[_ Htab] ]; [unfold pending_bucket_count in Hpos; rewrite Hn in Hpos; lia|].
  destruct (Htab HASH_NEXT) as (t & Ht & Hl & _). cbn in Ht. rewrite Ht. cbn [mbind option_bind].
  destruct (lookup_lt_is_Some_2 t (Z.to_nat (pending_hash r local remote mod pending_bucket_count p))) as [o Ho].
  { rewrite <- Hl in *. pose proof (Z.mod_pos_bound (pending_hash r local remote) (zlen t)). unfold zlen in *. lia. }
  rewrite Ho. cbn [mbind option_bind]. apply (find_bucket p L R HASH_NEXT _ _ o t Hrep Ht Ho).
  intros x Hx. unfold bucket_of. rewrite (proj2 (Z.eqb_neq _ _)) by lia. by rewrite (same_request_hash _ _ _ _ Hx).
Qed.

(** What [defer_request] does with a request. *)
Inductive deferral := Refused | Duplicate | Kept.

Definition deferral_of (s : mux_t) (L : entries_t) (r : addr_record_t) (local remote data : list Z) : deferral :=
  let m := r_impl (reg s) in
  if negb (bool_decide (is_Some (cb_mux_pending m))) || (MAX_PENDING_PACKET_SIZE <? zlen data) then Refused
  else if bool_decide (Exists (fun e => same_request r local remote e.2 = true) L) then Duplicate
  else if (max_pending m <=? zlen L) || (next_request_id s =? 0) then Refused
  else Kept.

Definition new_request (s : mux_t) (r : addr_record_t) (local remote data : list Z) : request_t :=
  make_request (next_request_id s) (now + pending_timeout_ms (r_impl (reg s))) r local remote data.

Lemma pinv_new clock s q L R x r local remote data : pinv clock (next_request_id s) (r_impl (reg s)) L R -> clock <= now ->
  next_request_id s <> 0 -> known r -> bytes data -> zlen data <= MAX_PENDING_PACKET_SIZE ->
  is_Some (cb_mux_pending (r_impl (reg s))) -> max_pending (r_impl (reg s)) > zlen L ->
  (forall y q', (y, q') ∈ L -> same_request r local remote q' = false) ->
  rep q (L ++ [(x, new_request s r local remote data)]) R ->
  pending_bucket_count q = pending_bucket_count (queues (r_impl (reg s))) ->
  pinv now (u64 (next_request_id s + 1)) (set_queues (r_impl (reg s)) q) (L ++ [(x, new_request s r local remote data)]) R.
Proof.
  intros Hinv Hclock Hid Hk Hby Hsz Hcb Hmax Hdup Hrep Hb. pose proof (rep_nodup _ _ _ Hrep) as Hnd.
  rewrite fmap_app in Hnd. apply NoDup_app in Hnd as (_ & Hdisj & _).
  apply (pinv_clock _ now) in Hinv; [|done].
  destruct Hinv as [H1' H2' H3' H4' H5' H6' H7' H8' H9' H10' H11' H12' H13' H14' H15'].
  set (rq := new_request s r local remote data) in *.
  assert (Hin : forall y q', (y, q') ∈ L ++ [(x, rq)] -> (y, q') ∈ L \/ (y = x /\ q' = rq)).
  { intros y q' Hy. rewrite elem_of_app, list_elem_of_singleton in Hy. destruct Hy as [?|[= -> ->] ]; auto. }
  assert (Hsym : forall q', same_request (src q') (local_ufrag q') (remote_ufrag q') rq = true ->
    same_request r local remote q' = true).
  { intros q'. unfold same_request. cbn. rewrite !andb_true_iff, !bool_decide_eq_true. intros [ [Hs ->] ->].
    split; [split; [|done]|done]. by apply same_record_sym. }
  split; cbn [queues amap set_queues set_listener pending_timeout_ms max_pending cb_mux_pending pending_required].
  - done.
  - done.
  - unfold u64. apply Z.mod_pos_bound. lia.
  - rewrite fmap_app. apply NoDup_app. split; [done|]. split; [|apply NoDup_singleton].
    intros i Hi Hi'. cbn in Hi'. apply list_elem_of_singleton in Hi'. apply list_elem_of_fmap in Hi as ([y q'] & -> & Hy).
    destruct (H5' y q' Hy) as [_ [?|Hlt] ]; [done|]. cbn in Hi'. lia.
  - intros y q' Hy. assert (Hu : u64 (next_request_id s + 1) = 0 \/ u64 (next_request_id s + 1) = next_request_id s + 1)
      by (unfold u64; destruct (decide (next_request_id s + 1 < 2 ^ 64)); [right; by apply Z.mod_small; lia|left;
        replace (next_request_id s + 1) with (2 ^ 64) by lia; done]).
    destruct (Hin y q' Hy) as [Hy'|[-> ->] ].
    + destruct (H5' y q' Hy') as [Hp [?|Hlt] ]; [done|]. split; [done|]. lia.
    + cbn. lia.
  - intros y q1 z q2 Hy Hz Hs. destruct (Hin y q1 Hy) as [Hy'|[-> ->] ], (Hin z q2 Hz) as [Hz'|[-> ->] ].
    + by apply (H6' y q1 z q2).
    + apply Hsym in Hs. rewrite (Hdup y q1 Hy') in Hs. done.
    + cbn in Hs. rewrite (Hdup z q2 Hz') in Hs. done.
    + done.
  - unfold by_deadline in *. rewrite filter_app, filter_cons, decide_True by done. apply StronglySorted_app_2; [|done|by constructor; constructor].
    intros [y q'] e Hy He. apply list_elem_of_filter in Hy as [Hu Hy]. apply list_elem_of_singleton in He as ->. cbn.
    by apply (H8' y).
  - intros y q' Hy Hu. destruct (Hin y q' Hy) as [Hy'|[-> ->] ]; [by apply (H8' y)|]. cbn. lia.
  - rewrite zlen_app. change (zlen [(x, rq)]) with 1. lia.
  - by rewrite Hb.
  - intros Hn. destruct Hcb as [? Hcb]. congruence.
  - intros Hr. destruct (H10' Hcb). congruence.
  - intros y q' Hy. destruct (Hin y q' Hy) as [Hy'|[-> ->] ]; [by apply (H13' y)|]. by split.
  - intros y q1 z q2 Hy Hz Ha1 Ha2. destruct (Hin y q1 Hy) as [Hy'|[-> ->] ]; [|done].
    destruct (Hin z q2 Hz) as [Hz'|[-> ->] ]; [|done]. by apply (H14' y q1 z q2).
  - intros y q' Hy Ha. destruct (Hin y q' Hy) as [Hy'|[-> ->] ]; [by apply (H15' y)|done].
Qed.

(** The registry changes, the agents and the array of agents do not. *)
Definition only_impl (s s' : mux_t) : Prop :=
  store s' = store s /\ agents (reg s') = agents (reg s) /\ agents_count (reg s') = agents_count (reg s).

Lemma only_impl_with s m : only_impl s (with_impl s m).
Proof. done. Qed.

(** A request arrives: it is kept at the end of the sequence, once. *)
Lemma defer_request_spec clock s L R r local remote data :
  pinv clock (next_request_id s) (r_impl (reg s)) L R -> clock <= now -> known r -> bytes data ->
  exists s' L', defer_request r local remote data s = Some (tt, s', []) /\ only_impl s s' /\
    pinv now (next_request_id s') (r_impl (reg s')) L' R /\ amap (r_impl (reg s')) = amap (r_impl (reg s)) /\
    (next_request_id s' = next_request_id s \/ next_request_id s <> 0 /\ next_request_id s' = u64 (next_request_id s + 1)) /\
    let m := r_impl (reg s) in let m' := r_impl (reg s') in
    match deferral_of s L r local remote data with
    | Refused => L' = L /\ rejected m' = u64 (rejected m + 1) /\ duplicates m' = duplicates m
    | Duplicate => L' = L /\ rejected m' = rejected m /\ duplicates m' = u64 (duplicates m + 1)
    | Kept => exists x, L' = L ++ [(x, new_request s r local remote data)] /\
                        rejected m' = rejected m /\ duplicates m' = duplicates m
    end.
Proof.
  intros Hinv Hclock Hk Hby. pose proof (pinv_clock _ now _ _ _ _ Hinv Hclock) as Hinv'.
  unfold defer_request. rewrite bind_get_impl. unfold deferral_of. cbn zeta.
  set (m := r_impl (reg s)) in *.
  assert (Hrefuse : pinv now (next_request_id s) (count_rejected 1 m) L R) by (by eapply pinv_same).
  destruct (negb (bool_decide (is_Some (cb_mux_pending m))) || (MAX_PENDING_PACKET_SIZE <? zlen data)) eqn:E1.
  { eexists _, L. split; [done|]. split; [done|]. split; [exact Hrefuse|]. split; [done|]. split; [by left|done]. }
  apply orb_false_iff in E1 as [Hcb Hsz]. apply negb_false_iff, bool_decide_eq_true in Hcb. apply Z.ltb_ge in Hsz.
  destruct (pi_listener _ _ _ _ _ Hinv Hcb) as [_ Hpos].
  destruct (find_duplicate_spec _ L R r local remote (pi_rep _ _ _ _ _ Hinv) Hpos) as (res & Hres & Hspec).
  rewrite (bind_defined _ _ res) by done. destruct res as [x|].
  - rewrite (bool_decide_eq_true_2 (is_Some (Some x))) by done. destruct Hspec as (q & Hx & Hq).
    rewrite bool_decide_eq_true_2 by (apply list.Exists_exists; by exists (x, q)).
    eexists _, L. split; [done|]. split; [done|]. split; [by eapply pinv_same|]. split; [done|]. split; [by left|done].
  - rewrite (bool_decide_eq_false_2 (is_Some None)) by (by intros [? ?]).
    rewrite bool_decide_eq_false_2 by (rewrite list.Exists_exists; intros ([x q] & Hx & Hq); cbn in Hq; by rewrite (Hspec x q Hx) in Hq).
    rewrite (proj1 (rep_count _ _ _ (pi_rep _ _ _ _ _ Hinv))).
    destruct (max_pending m <=? zlen L) eqn:E2; cbn [orb].
    { eexists _, L. split; [done|]. split; [done|]. split; [exact Hrefuse|]. split; [done|]. split; [by left|done]. }
    rewrite bind_get, bind_put. destruct (next_request_id s =? 0) eqn:E3.
    { apply Z.eqb_eq in E3. eexists _, L. split; [done|]. split; [done|]. cbn. rewrite E3 in *. split; [exact Hrefuse|]. split; [done|]. split; [by left|done]. }
    apply Z.leb_gt in E2. apply Z.eqb_neq in E3.
    set (p := queues m) in *.
    destruct (link_request_spec p L R (new_node p) (new_request s r local remote data)) as (q & Hq & Hrep & Hb);
      [apply (pi_rep _ _ _ _ _ Hinv)|done|apply new_node_fresh|done|done|done|pose proof (pi_limit _ _ _ _ _ Hinv); lia|].
    eexists _, _. split; [apply (on_queues_run _ q); exact Hq|]. split; [done|]. cbn [next_request_id with_impl with_next_id r_impl reg].
    split; [apply (pinv_new clock s q L R (new_node p) r local remote data); try done; fold m; lia|]. split; [done|]. split; [|by exists (new_node p)].
    by right.
Qed.

(** One request of the sequence changes. *)
Lemma pinv_replace clock nid m q L1 L2 R R' x r r' : pinv clock nid m (L1 ++ (x, r) :: L2) R ->
  rep q (L1 ++ (x, r') :: L2) R' -> pending_bucket_count q = pending_bucket_count (queues m) ->
  pr_id r' = pr_id r -> src r' = src r -> local_ufrag r' = local_ufrag r -> remote_ufrag r' = remote_ufrag r ->
  deadline r' = deadline r -> request_ok r' -> (attached r = true -> attached r' = true) ->
  (attached r' = true -> attached r = true \/
    (absent (amap m) (src r) /\ forall y s, (y, s) ∈ (L1 ++ (x, r) :: L2) -> attached s = true -> ~ same_record true (src r) (src s))) ->
  pinv clock nid (set_queues m q) (L1 ++ (x, r') :: L2) R'.
Proof.
  intros Hinv Hrep Hb Hid Hsrc Hl Hre Hdl Hok Hatt Hnew. pose proof (rep_nodup _ _ _ (pi_rep _ _ _ _ _ Hinv)) as Hnd.
  destruct Hinv as [H1' H2' H3' H4' H5' H6' H7' H8' H9' H10' H11' H12' H13' H14' H15'].
  assert (Hin : (x, r) ∈ (L1 ++ (x, r) :: L2)) by set_solver.
  assert (Hel : forall y s, (y, s) ∈ (L1 ++ (x, r') :: L2) -> (y = x /\ s = r') \/ (y <> x /\ (y, s) ∈ (L1 ++ (x, r) :: L2))).
  { intros y s Hy. apply (elem_replace _ _ _ r) in Hy; [|done]. case_decide; [left|right]; done. }
  split; cbn [queues amap set_queues set_listener pending_timeout_ms max_pending cb_mux_pending pending_required].
  - done.
  - done.
  - done.
  - rewrite fmap_app in *. cbn in *. by rewrite Hid.
  - intros y s Hy. destruct (Hel y s Hy) as [(-> & ->)|(_ & Hy')]; [rewrite Hid; by apply (H5' x)|by apply (H5' y)].
  - intros y s z t Hy Hz Hs. assert (Hk : forall a, same_request (src a) (local_ufrag a) (remote_ufrag a) r' =
      same_request (src a) (local_ufrag a) (remote_ufrag a) r) by (intros a; unfold same_request; by rewrite Hsrc, Hl, Hre).
    destruct (Hel y s Hy) as [(-> & ->)|(_ & Hy')], (Hel z t Hz) as [(-> & ->)|(_ & Hz')].
    + done.
    + rewrite Hsrc, Hl, Hre in Hs. by apply (H6' x r z t).
    + rewrite Hk in Hs. by apply (H6' y s x r).
    + by apply (H6' y s z t).
  - unfold by_deadline in *. rewrite !filter_app, !filter_cons in *. cbn in *.
    destruct (unattached r') eqn:E'.
    + assert (E : unattached r = true) by (destruct (unattached r) eqn:E; [done|]; unfold attached in Hatt; rewrite E, E' in Hatt; by specialize (Hatt eq_refl)).
      rewrite E in H7'. rewrite decide_True in * by done. revert H7'. clear -Hdl.
      induction (filter _ L1) as [|e l IH]; cbn; intros H'; apply StronglySorted_inv in H' as [H' Hall]; constructor; auto.
      * eapply Forall_impl; [exact Hall|]. cbn. intros e He. by rewrite Hdl.
      * apply Forall_app in Hall as [Ha Hc]. apply Forall_cons in Hc as [Hc Hd]. apply Forall_app. split; [done|].
        constructor; [|done]. cbn in *. by rewrite Hdl.
    + rewrite decide_False by done. case_decide as E; [|done]. revert H7'. clear.
      induction (filter _ L1) as [|e l IH]; cbn; intros H'; apply StronglySorted_inv in H' as [H' Hall]; [done|constructor; auto].
      apply Forall_app in Hall as [Ha Hc]. apply Forall_cons in Hc as [Hc Hd]. by apply Forall_app.
  - intros y s Hy Hu. destruct (Hel y s Hy) as [(-> & ->)|(_ & Hy')]; [|by apply (H8' y)]. rewrite Hdl. apply (H8' x); [done|].
    destruct (unattached r) eqn:E; [done|]. unfold attached in Hatt. rewrite E, Hu in Hatt. by specialize (Hatt eq_refl).
  - rewrite zlen_app, zlen_cons in H9' |- *. done.
  - by rewrite Hb.
  - intros Hn y s Hy. destruct (Hel y s Hy) as [(-> & ->)|(_ & Hy')]; [apply Hatt; by apply (H11' Hn x)|by apply (H11' Hn y)].
  - intros Hr. specialize (H12' Hr). by destruct L1.
  - intros y s Hy. destruct (Hel y s Hy) as [(-> & ->)|(_ & Hy')]; [done|by apply (H13' y)].
  - intros y s z t Hy Hz Hs Ht Hsame.
    destruct (Hel y s Hy) as [(-> & ->)|(Hyx & Hy')], (Hel z t Hz) as [(-> & ->)|(Hzx & Hz')].
    + done.
    + rewrite Hsrc in Hsame. destruct (Hnew Hs) as [Ha|(_ & Ha)]; [by apply (H14' x r z t)|by destruct (Ha z t Hz' Ht)].
    + rewrite Hsrc in Hsame. destruct (Hnew Ht) as [Ha|(_ & Ha)]; [by apply (H14' y s x r)|].
      destruct (Ha y s Hy' Hs). by apply same_record_sym.
    + by apply (H14' y s z t).
  - intros y s Hy Hs. destruct (Hel y s Hy) as [(-> & ->)|(_ & Hy')]; [|by apply (H15' y)]. rewrite Hsrc.
    destruct (Hnew Hs) as [Ha|(Ha & _)]; [by apply (H15' x)|done].
Qed.

(** The request that a search finds, in its place. *)
Lemma entry_split (L : entries_t) x r : (x, r) ∈ L -> exists L1 L2, L = L1 ++ (x, r) :: L2.
Proof. apply list_elem_of_split. Qed.

Lemma first_unnotified (L : entries_t) : match head (nodes unnotified L) with
  | Some x => exists L1 r L2, L = L1 ++ (x, r) :: L2 /\ notified r = false /\ Forall (fun e => notified e.2 = true) L1
  | None => Forall (fun e => notified e.2 = true) L
  end.
Proof.
  induction L as [|[y s] L IH]; [constructor|]. rewrite nodes_cons. unfold unnotified at 1.
  destruct (notified s) eqn:E; cbn.
  - destruct (head (nodes unnotified L)) as [x|].
    + destruct IH as (L1 & r & L2 & -> & Hr & HL). exists ((y, s) :: L1), r, L2. split; [done|]. split; [done|]. by constructor.
    + by constructor.
  - by exists [], s, L.
Qed.

Lemma unnotified_not_ready q L1 x r L2 R : rep q (L1 ++ (x, r) :: L2) R -> notified r = false -> x ∉ R.
Proof.
  intros Hrep Hn Hx. apply (rep_ready_elem _ _ _ Hrep) in Hx as (s & Hs & Ha).
  assert (Hin : (x, r) ∈ (L1 ++ (x, r) :: L2)) by set_solver.
  pose proof (entries_unique _ x r s (rep_nodup _ _ _ Hrep) Hin Hs). subst s.
  rewrite (rep_notified _ _ _ Hrep x r Hin) in Hn; [done|]. by apply (rep_verified _ _ _ Hrep x r Hin).
Qed.

(** A notified request keeps what it is. *)
Lemma notified_ok r : request_ok r -> request_ok (set_notified r).
Proof. intros [H1' H2' H3' H4']. by split. Qed.

(** A round of notifications: the requests that are over time leave, and the first
    one the application does not know of is announced, once. *)
Lemma dispatch_one_spec clock s L R : pinv clock (next_request_id s) (r_impl (reg s)) L R -> clock <= now ->
  exists b s' L' tr, dispatch_one s = Some (b, s', tr) /\ only_impl s s' /\ next_request_id s' = next_request_id s /\
    amap (r_impl (reg s')) = amap (r_impl (reg s)) /\
    pinv now (next_request_id s) (r_impl (reg s')) L' R /\
    ((b = false /\ tr = [] /\ L' = staying L /\
      (cb_mux_pending (r_impl (reg s)) = None \/ Forall (fun e => notified e.2 = true) (staying L))) \/
     exists cb L1 x r L2, b = true /\ cb_mux_pending (r_impl (reg s)) = Some cb /\ staying L = L1 ++ (x, r) :: L2 /\
       notified r = false /\ Forall (fun e => notified e.2 = true) L1 /\
       match getnameinfo (addr (src r)) with
       | None => tr = [] /\ L' = L1 ++ L2
       | Some (host, _) =>
           tr = [PendingRequest cb (pr_id r) {| bi_local := local_ufrag r; bi_remote := remote_ufrag r; bi_address := host;
                                                bi_port := addr_get_port (addr (src r)) |}] /\
           L' = L1 ++ (x, set_notified r) :: L2
       end).
Proof.
  intros Hinv Hclock. destruct (expire_pending_run clock s L R Hinv Hclock) as (q & Hrun & Hinv' & Hrep).
  unfold dispatch_one. rewrite (bind_quiet _ _ _ _ _ Hrun), bind_get_impl. cbn [reg r_impl with_impl].
  set (m := r_impl (reg s)) in *. change (cb_mux_pending (count_rejected _ _)) with (cb_mux_pending m).
  change (queues (count_rejected _ _)) with q. set (s1 := with_impl s _).
  assert (Hinv1 : pinv now (next_request_id s) (r_impl (reg s1)) (staying L) R) by (by eapply pinv_same).
  destruct (cb_mux_pending m) as [cb|] eqn:Hcb.
  2: { exists false, s1, (staying L), []. do 5 (split; [done|]). left. do 3 (split; [done|]). by left. }
  assert (Hhead : first_of (notify_ends q) = head (nodes unnotified (staying L))).
  { exact (proj1 (proj2 (sh_list _ _ (rep_shape _ _ _ Hrep) NOTIFY))). }
  rewrite Hhead. pose proof (first_unnotified (staying L)) as Hfirst.
  destruct (head (nodes unnotified (staying L))) as [x|].
  2: { exists false, s1, (staying L), []. do 5 (split; [done|]). left. do 3 (split; [done|]). by right. }
  destruct Hfirst as (L1 & r & L2 & HL & Hr & HL1). rewrite HL in *.
  destruct (rep_lookup _ _ _ Hrep x r) as (nd & Hnd & Hc); [set_solver|].
  rewrite (bind_defined _ _ nd) by done. rewrite Hc.
  assert (HxR : x ∉ R) by (by eapply unnotified_not_ready).
  destruct (getnameinfo (addr (src r))) as [ [host serv]|] eqn:Hni.
  - destruct (notify_spec q L1 L2 R x r Hrep Hr) as (q' & Hq' & Hrep' & Hb').
    rewrite (bind_on_queues _ q') by done. rewrite bind_modify_impl.
    eexists true, _, (L1 ++ (x, set_notified r) :: L2), _. split; [done|]. split; [done|]. split; [done|]. split; [done|].
    split.
    + eapply pinv_same; [eapply (pinv_replace _ _ (r_impl (reg s1)) q' L1 L2 R R x r (set_notified r)); try done|..]; try done.
      * apply notified_ok. eapply (pi_request _ _ _ _ _ Hinv1 x). set_solver.
      * by left.
    + right. exists cb, L1, x, r, L2. do 5 (split; [done|]). rewrite Hni. done.
  - rewrite bind_modify_impl. destruct (remove_pending_spec q L1 L2 R x r Hrep) as (q' & Hq' & Hrep' & Hb').
    rewrite (bind_on_queues _ q') by done. rewrite without_notin in Hrep' by done.
    eexists true, _, (L1 ++ L2), _. split; [done|]. split; [done|]. split; [done|]. split; [done|]. split.
    + eapply (pinv_sublist _ _ (count_rejected 1 (r_impl (reg s1)))); [by eapply pinv_same| |done|done].
      apply sublist_app; [done|]. by apply sublist_cons.
    + right. exists cb, L1, x, r, L2. do 5 (split; [done|]). rewrite Hni. done.
Qed.

(** ** Decisions *)

(** The request with a number. *)
Definition numbered (id : Z) (L L1 : entries_t) (x : ptr) (r : request_t) (L2 : entries_t) : Prop :=
  L = L1 ++ (x, r) :: L2 /\ pr_id r = id.

(** Rejection removes a request that is not accepted. *)
Lemma reject_spec clock s L R id : pinv clock (next_request_id s) (r_impl (reg s)) L R ->
  exists ret s' L', conn_mux_reject_request id s = Some (ret, s', []) /\ only_impl s s' /\
    next_request_id s' = next_request_id s /\ amap (r_impl (reg s')) = amap (r_impl (reg s)) /\
    pinv clock (next_request_id s) (r_impl (reg s')) L' R /\
    ((ret = JUICE_ERR_NOT_AVAIL /\ L' = L /\ forall x r, (x, r) ∈ L -> pr_id r = id -> attached r = true) \/
     (ret = 0 /\ exists L1 x r L2, numbered id L L1 x r L2 /\ unattached r = true /\ L' = L1 ++ L2)).
Proof.
  intros Hinv. pose proof (pi_rep _ _ _ _ _ Hinv) as Hrep. unfold conn_mux_reject_request. rewrite bind_get_impl.
  destruct (pending_by_id_spec _ L R id Hrep) as ([x|] & Hf & Hspec); rewrite (bind_defined _ _ _ _ Hf).
  - destruct Hspec as (r & Hx & Hid). destruct (entry_split _ _ _ Hx) as (L1 & L2 & ->).
    destruct (rep_lookup _ _ _ Hrep x r Hx) as (nd & Hnd & Hc). rewrite (bind_defined _ _ nd) by done. rewrite Hc.
    destruct (bool_decide (is_Some (pr_agent r))) eqn:Ha.
    + apply bool_decide_eq_true in Ha. eexists _, s, _. split; [done|]. do 3 (split; [done|]). split; [done|]. left.
      do 2 (split; [done|]). intros y t Hy Ht. assert (y = x /\ t = r) as [-> ->].
      { pose proof (pi_ids _ _ _ _ _ Hinv) as Hnd'. apply list_elem_of_lookup in Hx as [i Hi], Hy as [j Hj].
        assert (i = j); [|subst; by simplify_eq]. apply (NoDup_lookup _ _ _ id Hnd'); rewrite list_lookup_fmap, ?Hi, ?Hj; cbn; congruence. }
      unfold attached, unattached. destruct Ha as [a ->]. done.
    + apply bool_decide_eq_false in Ha. rewrite bind_modify_impl.
      assert (Hu : unattached r = true) by (unfold unattached; destruct (pr_agent r); [by destruct Ha|done]).
      assert (HxR : x ∉ R).
      { rewrite (rep_ready_elem _ _ _ Hrep). intros (t & Ht & Hat).
        pose proof (entries_unique _ x r t (rep_nodup _ _ _ Hrep) Hx Ht). subst t. unfold attached in Hat. by rewrite Hu in Hat. }
      destruct (remove_pending_spec _ L1 L2 R x r Hrep) as (q & Hq & Hrep' & Hb). rewrite without_notin in Hrep' by done.
      rewrite (bind_on_queues _ q) by done. eexists 0, _, (L1 ++ L2). split; [done|]. do 3 (split; [done|]). split.
      * eapply (pinv_sublist _ _ (count_rejected 1 (r_impl (reg s)))); [by eapply pinv_same| |done|done].
        apply sublist_app; [done|]. by apply sublist_cons.
      * right. split; [done|]. by exists L1, x, r, L2.
  - eexists _, s, _. split; [done|]. do 3 (split; [done|]). split; [done|]. left. do 2 (split; [done|]).
    intros y t Hy Ht. by destruct (Hspec y t Hy).
Qed.

(** Two requests do not have the same number. *)
Lemma numbered_unique clock nid m L R x r y t : pinv clock nid m L R -> (x, r) ∈ L -> (y, t) ∈ L -> pr_id r = pr_id t ->
  y = x /\ t = r.
Proof.
  intros Hinv Hx Hy Hid. pose proof (pi_ids _ _ _ _ _ Hinv) as Hnd. apply list_elem_of_lookup in Hx as [i Hi], Hy as [j Hj].
  assert (i = j); [|subst; by simplify_eq].
  apply (NoDup_lookup _ _ _ (pr_id r) Hnd); rewrite list_lookup_fmap, ?Hi, ?Hj; cbn; congruence.
Qed.

Lemma unattached_not_ready q L x r R : rep q L R -> (x, r) ∈ L -> unattached r = true -> x ∉ R.
Proof.
  intros Hrep Hx Hu. rewrite (rep_ready_elem _ _ _ Hrep). intros (t & Ht & Hat).
  pose proof (entries_unique _ x r t (rep_nodup _ _ _ Hrep) Hx Ht). subst t. unfold attached in Hat. by rewrite Hu in Hat.
Qed.

(** The map does or does not know an address. *)
Lemma find_agent_cases m r : map_ok m ->
  (exists a, find_agent m r = Some (Some a) /\ ~ absent m r) \/ (find_agent m r = Some None /\ absent m r).
Proof.
  intros Hok. destruct (find_agent_spec m r Hok) as ([a|] & Hf & Hs).
  - left. exists a. split; [done|]. destruct (proj1 (Hs a) eq_refl) as (i & e & Hl & _). intros Ha. by apply (Ha i e).
  - right. split; [done|]. apply absent_assoc; [done|]. intros a Ha. by apply Hs in Ha.
Qed.

(** The check of a kept request with a password: its data is not changed. *)
Lemma check_request_data data pwd : bytes data ->
  exists ret msg, stun_read data (zlen data) = Some (ret, data, msg) /\
    (ret < 0 -> ~ authenticated data pwd) /\
    (0 <= ret -> exists ok, stun_check_integrity data (zlen data) msg (Some pwd) = Some (data, ok) /\
      (ok = true <-> authenticated data pwd)).
Proof.
  intros Hby. pose proof (zlen_nonneg data).
  destruct (stun_read_ok data (zlen data) Hby) as (ret & msg & Hr & _ & Hret); [lia|].
  exists ret, msg. split; [done|]. split.
  - intros Hneg (ret' & msg' & Hr' & Hpos & _). rewrite Hr in Hr'. injection Hr' as <- <-. lia.
  - intros Hpos. destruct (has_integrity msg) eqn:Hi.
    + destruct (stun_check_integrity_spec data (zlen data) ret msg msg (Some pwd)) as (ok & Hok & Hiff); try done.
      exists ok. split; [done|]. rewrite Hiff. split.
      * intros Ha. by exists ret, msg.
      * intros (ret' & msg' & Hr' & _ & _ & Ha). rewrite Hr in Hr'. by injection Hr' as <- <-.
    + exists false. split; [unfold stun_check_integrity; by rewrite Hi|]. split; [done|].
      intros (ret' & msg' & Hr' & _ & Hi' & _). rewrite Hr in Hr'. injection Hr' as <- <-. congruence.
Qed.

(** Writing back the same data does nothing. *)
Lemma set_same_data x q nd : requests q !! x = Some nd -> update_content x (set_data (pr_data (content nd))) q = Some q.
Proof.
  intros Hq. unfold update_content. rewrite Hq. cbn [mbind option_bind].
  replace (set_data (pr_data (content nd)) (content nd)) with (content nd) by (by destruct (content nd)).
  f_equal. rewrite insert_id; [by destruct q|]. rewrite Hq. by destruct nd.
Qed.

Lemma set_queues_id m : set_queues m (queues m) = m.
Proof. by destruct m. Qed.
Lemma with_impl_id s : with_impl s (r_impl (reg s)) = s.
Proof. by destruct s as [ [? ? ?] ? ?]. Qed.

(** A step that changes the registry [s] to [s'], which then holds [L]. *)
Definition moves (s s' : mux_t) (L : entries_t) (R : list ptr) : Prop :=
  only_impl s s' /\ next_request_id s' = next_request_id s /\ amap (r_impl (reg s')) = amap (r_impl (reg s)) /\
  pinv now (next_request_id s) (r_impl (reg s')) L R.

Lemma moves_stay s L R : pinv now (next_request_id s) (r_impl (reg s)) L R -> moves s s L R.
Proof. by repeat (split; [done|]). Qed.
Lemma moves_trans s s1 s2 L1 L2 R1 R2 : moves s s1 L1 R1 -> moves s1 s2 L2 R2 -> moves s s2 L2 R2.
Proof.
  intros ((?&?&?) & Hn & Ham & _) ((?&?&?) & Hn' & Ham' & Hi). split; [split; [congruence|split; congruence]|].
  split; [congruence|]. split; [congruence|]. by rewrite <- Hn.
Qed.

(** Every decision begins with the requests that are over time. *)
Lemma expire_moves clock s L R : pinv clock (next_request_id s) (r_impl (reg s)) L R -> clock <= now ->
  exists s1, expire_pending s = Some (tt, s1, []) /\ moves s s1 (staying L) R.
Proof.
  intros Hinv Hclock. destruct (expire_pending_run clock s L R Hinv Hclock) as (q & Hrun & Hinv' & _).
  eexists. split; [exact Hrun|]. do 3 (split; [done|]). by eapply pinv_same.
Qed.

Lemma refuse_moves s L1 x r L2 R : pinv now (next_request_id s) (r_impl (reg s)) (L1 ++ (x, r) :: L2) R ->
  unattached r = true -> exists s', refuse_request x s = Some (JUICE_ERR_FAILED, s', []) /\ moves s s' (L1 ++ L2) R.
Proof.
  intros Hinv Hu. pose proof (pi_rep _ _ _ _ _ Hinv) as Hrep. unfold refuse_request. rewrite bind_modify_impl.
  destruct (remove_pending_spec _ L1 L2 R x r Hrep) as (q' & Hq' & Hrep' & Hb').
  rewrite without_notin in Hrep' by (eapply unattached_not_ready; [done| |done]; set_solver).
  rewrite (bind_on_queues _ q') by done. eexists. split; [done|]. do 3 (split; [done|]).
  eapply (pinv_sublist _ _ (count_rejected 1 (r_impl (reg s)))); [by eapply pinv_same| |done|done].
  apply sublist_app; [done|]. by apply sublist_cons.
Qed.

(** The outcome of a verification: of a request that is announced and not yet
    verified, the integrity decides. *)
Definition verify_outcome (am : addr_map_t) (L : entries_t) (id : Z) (pwd : list Z) (ret : Z) (L' : entries_t) : Prop :=
  (ret = JUICE_ERR_NOT_AVAIL /\ L' = L /\
   forall x r, (x, r) ∈ L -> pr_id r = id -> verified r = true \/ notified r = false) \/
  exists L1 x r L2, numbered id L L1 x r L2 /\ notified r = true /\ verified r = false /\
    ((ret = JUICE_ERR_FAILED /\ L' = L1 ++ L2 /\ ~ (absent am (src r) /\ authenticated (pr_data r) pwd)) \/
     (ret = 0 /\ L' = L1 ++ (x, set_verified pwd r) :: L2 /\ absent am (src r) /\ authenticated (pr_data r) pwd)).

Lemma verify_at_spec s L1 x r L2 R pwd : pinv now (next_request_id s) (r_impl (reg s)) (L1 ++ (x, r) :: L2) R ->
  notified r = true -> verified r = false ->
  exists ret s' L', verify_at x r pwd (r_impl (reg s)) s = Some (ret, s', []) /\ moves s s' L' R /\
    ((ret = JUICE_ERR_FAILED /\ L' = L1 ++ L2 /\
      ~ (absent (amap (r_impl (reg s))) (src r) /\ authenticated (pr_data r) pwd)) \/
     (ret = 0 /\ L' = L1 ++ (x, set_verified pwd r) :: L2 /\
      absent (amap (r_impl (reg s))) (src r) /\ authenticated (pr_data r) pwd)).
Proof.
  intros Hinv Hnot Hver. pose proof (pi_rep _ _ _ _ _ Hinv) as Hrep. assert (Hx : (x, r) ∈ (L1 ++ (x, r) :: L2)) by set_solver.
  destruct (rep_lookup _ _ _ Hrep x r Hx) as (nd & Hnd & Hc).
  assert (Hu : unattached r = true).
  { destruct (unattached r) eqn:E; [done|]. rewrite (rep_verified _ _ _ Hrep x r Hx) in Hver; [done|]. unfold attached. by rewrite E. }
  destruct (refuse_moves s L1 x r L2 R Hinv Hu) as (sr & Hrefuse & Hmr). unfold verify_at.
  destruct (find_agent_cases (amap (r_impl (reg s))) (src r) (pi_map _ _ _ _ _ Hinv)) as [(a & Hfa & Hna)|(Hfa & Habs)];
    rewrite (bind_defined _ _ _ _ Hfa).
  { rewrite bool_decide_eq_true_2 by done. exists JUICE_ERR_FAILED, sr, (L1 ++ L2). split; [done|]. split; [done|].
    left. do 2 (split; [done|]). by intros [? _]. }
  rewrite bool_decide_eq_false_2 by (by intros [? ?]).
  destruct (check_request_data (pr_data r) pwd) as (ret & msg & Hread & Hneg & Hpos);
    [by apply (ro_bytes _ (pi_request _ _ _ _ _ Hinv x r Hx))|].
  assert (Hsame : forall A (k : unit -> MuxM A), (u ← on_queues (update_content x (set_data (pr_data r))); k u) s = k tt s).
  { intros A k. rewrite (bind_on_queues _ (queues (r_impl (reg s)))) by (rewrite <- Hc; by apply set_same_data).
    by rewrite set_queues_id, with_impl_id. }
  rewrite (bind_defined _ _ _ _ Hread). cbn [fst snd]. rewrite Hsame.
  destruct (ret <? 0) eqn:Er; [apply Z.ltb_lt in Er|apply Z.ltb_ge in Er].
  { exists JUICE_ERR_FAILED, sr, (L1 ++ L2). split; [done|]. split; [done|]. left. do 2 (split; [done|]).
    intros [_ Ha]. by apply (Hneg Er). }
  destruct (Hpos Er) as (ok & Hck & Hiff). rewrite (bind_defined _ _ _ _ Hck). cbn [fst snd]. rewrite Hsame.
  destruct ok; cbn [negb].
  - destruct (verify_spec _ L1 L2 R x r pwd Hrep Hnot) as (q' & Hq' & Hrep' & Hb').
    rewrite (bind_on_queues _ q') by done. pose proof (proj1 Hiff eq_refl) as Hauth.
    eexists 0, _, (L1 ++ (x, set_verified pwd r) :: L2). split; [done|]. split; [|by right]. do 3 (split; [done|]).
    eapply (pinv_replace _ _ (r_impl (reg s)) q' L1 L2 R R x r (set_verified pwd r)); try done; [|by left].
    destruct (pi_request _ _ _ _ _ Hinv x r Hx) as [G1 G2 G3 G4]. by split.
  - exists JUICE_ERR_FAILED, sr, (L1 ++ L2). split; [done|]. split; [done|]. left. do 2 (split; [done|]).
    intros [_ Ha]. by apply Hiff in Ha.
Qed.

Lemma verify_request_spec clock s L R id pwd : pinv clock (next_request_id s) (r_impl (reg s)) L R -> clock <= now ->
  exists ret s' L', conn_mux_verify_request id pwd s = Some (ret, s', []) /\ moves s s' L' R /\
    verify_outcome (amap (r_impl (reg s))) (staying L) id pwd ret L'.
Proof.
  intros Hinv0 Hclock. destruct (expire_moves clock s L R Hinv0 Hclock) as (s1 & Hrun & Hm1).
  unfold conn_mux_verify_request. rewrite (bind_quiet _ _ _ _ _ Hrun), bind_get_impl.
  destruct Hm1 as (Ho & Hn & Ham & Hinv) eqn:E. clear E. rewrite <- Hn in Hinv. pose proof (pi_rep _ _ _ _ _ Hinv) as Hrep.
  destruct (pending_by_id_spec _ _ R id Hrep) as ([x|] & Hf & Hspec); rewrite (bind_defined _ _ _ _ Hf).
  2: { exists JUICE_ERR_NOT_AVAIL, s1, (staying L). split; [done|]. split; [done|]. left. do 2 (split; [done|]).
       intros y t Hy Ht. by destruct (Hspec y t Hy). }
  destruct Hspec as (r & Hx & Hid). destruct (rep_lookup _ _ _ Hrep x r Hx) as (nd & Hnd & Hc).
  rewrite (bind_defined _ _ nd) by done. rewrite Hc.
  destruct (verified r || negb (notified r)) eqn:Hflag.
  { exists JUICE_ERR_NOT_AVAIL, s1, (staying L). split; [done|]. split; [done|]. left. do 2 (split; [done|]).
    intros y t Hy Ht. destruct (numbered_unique _ _ _ _ _ x r y t Hinv Hx Hy) as [-> ->]; [congruence|].
    apply orb_true_iff in Hflag as [?|Hng]; [by left|right; by apply negb_true_iff]. }
  apply orb_false_iff in Hflag as [Hver Hnot]. apply negb_false_iff in Hnot.
  destruct (entry_split _ _ _ Hx) as (L1 & L2 & HL). rewrite HL in Hinv.
  destruct (verify_at_spec s1 L1 x r L2 R pwd Hinv Hnot Hver) as (ret & s' & L' & Hrun' & Hm' & Hout).
  exists ret, s', L'. split; [exact Hrun'|]. split; [by eapply moves_trans|]. right. exists L1, x, r, L2.
  split; [by split|]. split; [done|]. split; [done|]. by rewrite <- Ham.
Qed.

(** ** Acceptance *)

Context `{Socket}.

(** The accepted requests are searched for a source. *)
Lemma ready_source_spec p L R r : rep p L R -> forall fuel R1 R2, R = R1 ++ R2 -> (length R2 <= fuel)%nat ->
  exists b, ready_source fuel r (head R2) p = Some b /\
    (b = true <-> exists x t, x ∈ R2 /\ (x, t) ∈ L /\ same_record true r (src t)).
Proof.
  intros Hrep. induction fuel as [|fuel IH]; intros R1 R2 HR Hf.
  { destruct R2; [|cbn in Hf; lia]. exists false. split; [done|]. split; [done|].
    intros (x & t & Hx & _). by apply not_elem_of_nil in Hx. }
  destruct R2 as [|x R2].
  { exists false. split; [done|]. split; [done|]. intros (x & t & Hx & _). by apply not_elem_of_nil in Hx. }
  destruct (sh_list _ _ (rep_shape _ _ _ Hrep) READY) as (Hs & _). cbn [lists_of fields_of] in Hs. rewrite HR in Hs.
  apply seg_app in Hs as [_ Hs]. cbn in Hs. destruct Hs as [(q & Hq & _ & Hn) _]. cbn [head ready_source]. rewrite Hq. cbn [mbind option_bind].
  pose proof (rep_in _ _ _ Hrep x q Hq) as HxL.
  destruct (addr_record_is_equal r (src (content q)) true) eqn:E.
  - exists true. split; [done|]. split; [|done]. intros _. exists x, (content q). split; [by left|done].
  - cbn in Hn. rewrite Hn. destruct (IH (R1 ++ [x]) R2) as (b & Hb & Hiff); [by rewrite <- app_assoc|cbn in Hf; lia|].
    exists b. split; [destruct R2; exact Hb|]. rewrite Hiff. split.
    + intros (y & t & Hy & Ht). exists y, t. split; [by right|done].
    + intros (y & t & Hy & Ht & Hs). apply elem_of_cons in Hy as [->|Hy]; [|by exists y, t].
      pose proof (entries_unique _ x (content q) t (rep_nodup _ _ _ Hrep) HxL Ht). subst t. unfold same_record in Hs. congruence.
Qed.

(** The outcome of an acceptance. *)
Definition attach_outcome (am : addr_map_t) (g : mux_agent_t) (L : entries_t) (R : list ptr) (id : Z) (a : agent_ptr)
    (ret : Z) (L' : entries_t) (R' : list ptr) : Prop :=
  (ret <> 0 /\ L' = L /\ R' = R) \/
  exists L1 x r L2, numbered id L L1 x r L2 /\ verified r = true /\ unattached r = true /\ agent_fits g r = true /\
    absent am (src r) /\ ret = 0 /\ L' = L1 ++ (x, set_agent a r) :: L2 /\ R' = R ++ [x].

(** An accepted request is one that was verified, for the agent with the password,
    and the only one of its source. *)
Lemma attach_at_spec s L1 x r L2 R a : pinv now (next_request_id s) (r_impl (reg s)) (L1 ++ (x, r) :: L2) R ->
  verified r = true -> unattached r = true ->
  exists ret s' L' R' tr, attach_at x r a (r_impl (reg s)) s = Some (ret, s', tr) /\ moves s s' L' R' /\
    ((ret <> 0 /\ L' = L1 ++ (x, r) :: L2 /\ R' = R) \/
     (ret = 0 /\ L' = L1 ++ (x, set_agent a r) :: L2 /\ R' = R ++ [x] /\ absent (amap (r_impl (reg s))) (src r))).
Proof.
  intros Hinv Hver Hu. pose proof (pi_rep _ _ _ _ _ Hinv) as Hrep. assert (Hx : (x, r) ∈ (L1 ++ (x, r) :: L2)) by set_solver.
  assert (Hstay : forall e, e <> 0 -> exists ret s' L' R' tr, (mret e : MuxM Z) s = Some (ret, s', tr) /\ moves s s' L' R' /\
    ((ret <> 0 /\ L' = L1 ++ (x, r) :: L2 /\ R' = R) \/
     (ret = 0 /\ L' = L1 ++ (x, set_agent a r) :: L2 /\ R' = R ++ [x] /\ absent (amap (r_impl (reg s))) (src r)))).
  { intros e He. exists e, s, (L1 ++ (x, r) :: L2), R, []. split; [done|]. split; [by apply moves_stay|]. by left. }
  unfold attach_at.
  destruct (find_agent_cases (amap (r_impl (reg s))) (src r) (pi_map _ _ _ _ _ Hinv)) as [(b & Hfa & Hna)|(Hfa & Habs)];
    rewrite (bind_defined _ _ _ _ Hfa).
  { rewrite bool_decide_eq_true_2 by done. by apply Hstay. }
  rewrite bool_decide_eq_false_2 by (by intros [? ?]).
  assert (Hfirst : first_of (ready_ends (queues (r_impl (reg s)))) = head R) by exact (proj1 (proj2 (sh_list _ _ (rep_shape _ _ _ Hrep) READY))).
  destruct (ready_source_spec _ _ R (src r) Hrep (size (requests (queues (r_impl (reg s))))) [] R eq_refl) as (b & Hb & Hiff).
  { apply nodes_bound; [exact (sh_nodup _ _ (rep_shape _ _ _ Hrep) READY)|]. intros y Hy.
    by eapply seg_present; [apply (sh_list _ _ (rep_shape _ _ _ Hrep) READY)|]. }
  rewrite Hfirst, (bind_defined _ _ _ _ Hb). destruct b; [by apply Hstay|].
  unfold conn_mux_interrupt_registry. destruct (sendto_self <? 0); cbn [negb Z.eqb].
  { exists JUICE_ERR_FAILED, s, (L1 ++ (x, r) :: L2), R, [Woken]. split; [done|]. split; [by apply moves_stay|]. by left. }
  destruct (accept_spec _ L1 L2 R x r a Hrep) as (q & Hq & Hrep' & Hbq);
    [unfold unattached in Hu; by apply bool_decide_eq_true in Hu|done|].
  eexists 0, _, (L1 ++ (x, set_agent a r) :: L2), (R ++ [x]), [Woken]. split.
  { rewrite (bind_some _ _ s 0 s [Woken]) by done. cbn [Z.eqb negb]. rewrite (bind_on_queues _ q) by done. done. }
  split; [|by right]. do 3 (split; [done|]).
  eapply (pinv_replace _ _ (r_impl (reg s)) q L1 L2 R (R ++ [x]) x r (set_agent a r)); try done.
  - by destruct (pi_request _ _ _ _ _ Hinv x r Hx).
  - intros _. right. split; [done|]. intros y t Hy Hat Hs. assert (false = true); [|done]. apply Hiff. exists y, t.
    split; [apply (rep_ready_elem _ _ _ Hrep); by exists t|done].
Qed.

Lemma attach_request_spec clock s L R id a g : pinv clock (next_request_id s) (r_impl (reg s)) L R -> clock <= now ->
  store s !! a = Some g ->
  exists ret s' L' R' tr, conn_mux_attach_request id a s = Some (ret, s', tr) /\ moves s s' L' R' /\
    attach_outcome (amap (r_impl (reg s))) g (staying L) R id a ret L' R'.
Proof.
  intros Hinv0 Hclock Hg. destruct (expire_moves clock s L R Hinv0 Hclock) as (s1 & Hrun & Hm1).
  unfold conn_mux_attach_request. rewrite (bind_quiet _ _ _ _ _ Hrun), bind_get_impl.
  destruct Hm1 as (Ho & Hn & Ham & Hinv) eqn:E. clear E. rewrite <- Hn in Hinv. pose proof (pi_rep _ _ _ _ _ Hinv) as Hrep.
  assert (Hstay : forall e, e <> 0 -> exists ret s' L' R' tr, (mret e : MuxM Z) s1 = Some (ret, s', tr) /\ moves s s' L' R' /\
    attach_outcome (amap (r_impl (reg s))) g (staying L) R id a ret L' R').
  { intros e He. exists e, s1, (staying L), R, []. split; [done|]. split; [done|]. by left. }
  destruct (pending_by_id_spec _ _ R id Hrep) as ([x|] & Hf & Hspec); rewrite (bind_defined _ _ _ _ Hf); [|by apply Hstay].
  destruct Hspec as (r & Hx & Hid). destruct (rep_lookup _ _ _ Hrep x r Hx) as (nd & Hnd & Hc).
  rewrite (bind_defined _ _ nd) by done. rewrite Hc.
  destruct (negb (verified r) || bool_decide (is_Some (pr_agent r))) eqn:Hflag; [by apply Hstay|].
  apply orb_false_iff in Hflag as [Hver Hag]. apply negb_false_iff in Hver. apply bool_decide_eq_false in Hag.
  assert (Hu : unattached r = true) by (unfold unattached; destruct (pr_agent r); [by destruct Hag|done]).
  unfold get_agent. rewrite (bind_quiet _ _ s1 g s1); [|by rewrite bind_get, (proj1 Ho), Hg].
  destruct (agent_fits g r) eqn:Hfit; cbn [negb]; [|by apply Hstay].
  destruct (entry_split _ _ _ Hx) as (L1 & L2 & HL). rewrite HL in Hinv.
  destruct (attach_at_spec s1 L1 x r L2 R a Hinv Hver Hu) as (ret & s' & L' & R' & tr & Hrun' & Hm' & Hout).
  exists ret, s', L', R', tr. split; [exact Hrun'|]. split; [by eapply moves_trans|].
  destruct Hout as [(? & -> & ->)|(? & -> & -> & Habs)]; [left; by rewrite HL|]. right. exists L1, x, r, L2. rewrite <- Ham. by repeat (split; [done|]).
Qed.

(** ** Listeners *)

Lemma bucket_loop_total (fuel : nat) : forall b limit, 0 < b -> limit * 2 <= b * 2 ^ Z.of_nat fuel ->
  exists n, bucket_loop fuel b limit = Some n /\ 0 < n.
Proof.
  induction fuel as [|fuel IH]; intros b limit Hb Hl; cbn [bucket_loop].
  - rewrite (proj2 (Z.ltb_ge _ _)) by lia. by exists b.
  - destruct (b <? limit * 2); [|by exists b]. apply IH; [lia|]. rewrite Nat2Z.inj_succ, Z.pow_succ_r in Hl by lia. lia.
Qed.

(** A listener is refused, or gets the requests that agents still hold. *)
Lemma listen_pending_spec s L R config cb : pinv now (next_request_id s) (r_impl (reg s)) L R ->
  exists ret s', conn_mux_listen_pending config cb s = Some (ret, s', []) /\ moves s s' L R /\
    ((ret <> 0 /\ s' = s) \/
     (ret = 0 /\ is_Some cb /\ cb_mux_pending (r_impl (reg s')) = cb /\
      max_pending (r_impl (reg s')) = configured config pc_max_pending 256 /\
      pending_timeout_ms (r_impl (reg s')) = configured config pc_timeout_ms 5000 /\
      max_pending (r_impl (reg s')) <= 4096 /\ pending_timeout_ms (r_impl (reg s')) <= 30000)).
Proof.
  intros Hinv. unfold conn_mux_listen_pending. rewrite bind_get_impl. set (m := r_impl (reg s)) in *.
  assert (Hstay : forall e, e <> 0 -> exists ret s', (mret e : MuxM Z) s = Some (ret, s', []) /\ moves s s' L R /\
    ((ret <> 0 /\ s' = s) \/ (ret = 0 /\ is_Some cb /\ cb_mux_pending (r_impl (reg s')) = cb /\
      max_pending (r_impl (reg s')) = configured config pc_max_pending 256 /\
      pending_timeout_ms (r_impl (reg s')) = configured config pc_timeout_ms 5000 /\
      max_pending (r_impl (reg s')) <= 4096 /\ pending_timeout_ms (r_impl (reg s')) <= 30000))).
  { intros e He. exists e, s. split; [done|]. split; [by apply moves_stay|]. by left. }
  destruct (negb (bool_decide (is_Some cb)) || _ || _ || _) eqn:E1; [by apply Hstay|].
  apply orb_false_iff in E1 as [E1 Hcl]. apply orb_false_iff in E1 as [E1 Hnp]. apply orb_false_iff in E1 as [Hcb Hni].
  apply negb_false_iff, bool_decide_eq_true in Hcb. apply bool_decide_eq_false in Hnp.
  set (limit := configured config pc_max_pending 256). set (timeout := configured config pc_timeout_ms 5000).
  destruct ((4096 <? limit) || (30000 <? timeout)) eqn:E2; [by apply Hstay|].
  apply orb_false_iff in E2 as [El Et]. apply Z.ltb_ge in El, Et.
  destruct (bucket_loop_total 13 1 limit) as (n & Hn & Hpos); [lia|change (2 ^ Z.of_nat 13) with 8192; lia|].
  rewrite (bind_defined _ _ n) by exact Hn.
  destruct (new_tables_spec (Z.to_nat n) _ L R (pi_rep _ _ _ _ _ Hinv)) as (q & Hq & Hrep & Hb); [lia|].
  rewrite (bind_defined _ _ q) by done. rewrite bind_set_impl. exists 0. eexists. split; [done|]. split.
  - do 3 (split; [done|]). assert (Hall : forall x r, (x, r) ∈ L -> attached r = true).
    { apply (pi_idle _ _ _ _ _ Hinv). fold m. destruct (cb_mux_pending m); [by destruct Hnp|done]. }
    destruct Hinv as [G1 G2 G3 G4 G5 G6 G7 G8 G9 G10 G11 G12 G13 G14 G15].
    split; cbn [r_impl reg with_impl set_listener queues amap pending_timeout_ms max_pending cb_mux_pending pending_required]; try done.
    + intros x r Hx Hu. specialize (Hall x r Hx). unfold attached in Hall. by rewrite Hu in Hall.
    + lia.
    + intros _. split; [done|]. lia.
  - right. by repeat (split; [done|]).
Qed.

Lemma sublist_all {A} (l l' : list A) : l `sublist_of` l' -> (length l' <= length l)%nat -> l = l'.
Proof.
  induction 1 as [|x l l' Hs IH|x l l' Hs IH]; cbn; intros Hl; [done|f_equal; apply IH; lia|].
  apply sublist_length in Hs. lia.
Qed.

(** A listener that stops gives up the requests that no agent has. *)
Lemma begin_stop_spec s L R : pinv now (next_request_id s) (r_impl (reg s)) L R ->
  exists ret s' L', conn_mux_begin_stop_pending s = Some (ret, s', []) /\ moves s s' L' R /\
    ((ret <> 0 /\ s' = s) \/
     (ret = 0 /\ on_thread = false /\ is_Some (cb_mux_pending (r_impl (reg s))) /\
      cb_mux_pending (r_impl (reg s')) = None /\ pending_closing (r_impl (reg s')) = true /\
      L' = filter (fun e => attached e.2 = true) L)).
Proof.
  intros Hinv. unfold conn_mux_begin_stop_pending. destruct on_thread.
  { exists JUICE_ERR_INVALID, s, L. split; [done|]. split; [by apply moves_stay|]. by left. }
  rewrite bind_get_impl. set (m := r_impl (reg s)) in *.
  destruct (negb (bool_decide (is_Some (cb_mux_pending m))) || pending_closing m) eqn:E1.
  { exists JUICE_ERR_NOT_AVAIL, s, L. split; [done|]. split; [by apply moves_stay|]. by left. }
  apply orb_false_iff in E1 as [Hcb _]. apply negb_false_iff, bool_decide_eq_true in Hcb. rewrite bind_set_impl.
  destruct (remove_all_where_spec (fun r => bool_decide (pr_agent r = None)) _ L R (pi_rep _ _ _ _ _ Hinv))
    as (q & R' & Hq & Hsub & Hrep & Hb). rewrite (bind_on_queues _ q) by exact Hq.
  set (L' := filter (fun e : ptr * request_t => attached e.2 = true) L).
  assert (HL : filter (fun e : ptr * request_t => bool_decide (pr_agent e.2 = None) = false) L = L').
  { apply list_filter_iff. intros e. unfold attached, unattached. by rewrite negb_true_iff. }
  rewrite HL in Hrep.
  assert (HR : R' = R).
  { assert (Hp : R' ≡ₚ R).
    { rewrite (rep_ready _ _ _ Hrep), (rep_ready _ _ _ (pi_rep _ _ _ _ _ Hinv)). unfold nodes, L'. rewrite list_filter_filter_l; [done|]. done. }
    apply (sublist_all _ _ Hsub). by rewrite Hp. }
  subst R'. exists 0. eexists _, L'. split; [done|]. split; [|right; by repeat (split; [done|])].
  do 3 (split; [done|]).
  pose proof (pinv_sublist _ _ m q L L' R R Hinv (sublist_filter _ _) Hrep Hb) as Hinv'.
  destruct Hinv' as [G1 G2 G3 G4 G5 G6 G7 G8 G9 G10 G11 G12 G13 G14 G15].
  split; cbn [r_impl reg with_impl set_queues set_listener queues amap pending_timeout_ms max_pending cb_mux_pending pending_required] in *; try done.
  intros _ x r Hx. by apply list_elem_of_filter in Hx as [? _].
Qed.
End Spec.
