(* ===== verification/MuxSafety.v ===== *)
(** * The mux mode: lookups and accepted requests (src/conn_mux.c)

    A datagram reaches an agent only if its source was authenticated for this agent
    or if it answers one of the agent's own requests; an accepted request gives its
    source to its agent; an agent that leaves loses both. *)

From S2P Require Import Prelude Effects CText Addr Turn Ice IceSdp StunTypes StunWrite StunRead.
From S2P Require Import AgentTypes Agent AgentMessages AgentUpdate MuxMap MuxQueues MuxPending Mux MuxSpec HashCrypto.
From stdpp Require Import list gmap sorting.
#[local] Open Scope Z_scope.

(** ** Runs *)

Section Runs.
Context `{Crypto} `{System}.

Lemma get_impl_run s m s' tr : get_impl s = Some (m, s', tr) <-> m = r_impl (reg s) /\ s' = s /\ tr = [].
Proof. unfold get_impl. rewrite bind_get. apply ret_run. Qed.
Lemma set_impl_run m s u s' tr : set_impl m s = Some (u, s', tr) <-> s' = with_impl s m /\ tr = [].
Proof. unfold set_impl. rewrite bind_get. apply put_run. Qed.
Lemma modify_impl_run f s u s' tr : modify_impl f s = Some (u, s', tr) <-> s' = with_impl s (f (r_impl (reg s))) /\ tr = [].
Proof. unfold modify_impl. rewrite bind_get_impl. apply set_impl_run. Qed.
Lemma get_agent_run a s g s' tr : get_agent a s = Some (g, s', tr) <-> store s !! a = Some g /\ s' = s /\ tr = [].
Proof. unfold get_agent. rewrite bind_get. apply defined_run. Qed.
Lemma agent_ready_run a s b s' tr : agent_ready a s = Some (b, s', tr) -> s' = s /\ tr = [] /\
  (b = true -> exists a' g, a = Some a' /\ store s !! a' = Some g /\ is_ready g = true).
Proof.
  unfold agent_ready. destruct a as [a|]; intros Hr.
  - apply bind_run in Hr as (g & s1 & tr1 & tr2 & Hg & Hr & ->). apply get_agent_run in Hg as (Hg & -> & ->).
    apply ret_run in Hr as (-> & -> & ->). do 2 (split; [done|]). intros Hb. by exists a, g.
  - apply ret_run in Hr as (-> & -> & ->). done.
Qed.
Lemma on_agent_run {A} a (c : M A) s x s' tr : on_agent a c s = Some (x, s', tr) ->
  exists g ag tr', store s !! a = Some g /\ c (ma_agent g) = Some (x, ag, tr') /\
    s' = with_store s (<[a := with_agent g ag]> (store s)) /\ tr = AgentDid a <$> tr'.
Proof.
  unfold on_agent. destruct (store s !! a) as [g|]; [|done].
  destruct (c (ma_agent g)) as [ [ [y ag] tr']|] eqn:E; [|done]. intros [= <- <- <-]. by exists g, ag, tr'.
Qed.

(** A step of an agent that does not change it. *)
Lemma same_agent s a g : store s !! a = Some g -> with_store s (<[a := with_agent g (ma_agent g)]> (store s)) = s.
Proof.
  intros Hg. rewrite insert_id by (rewrite Hg; by destruct g). by destruct s.
Qed.

(** A search for a transaction that finds none changes nothing. *)
Lemma turn_retrieve_none m tid m' : turn_retrieve_transaction_id m tid = Some (None, m') -> m' = m.
Proof.
  unfold turn_retrieve_transaction_id. intros Hr.
  apply bind_Some in Hr as (pos & _ & Hr). case_if_in Hr; [congruence|].
  apply bind_Some in Hr as (i & _ & Hr). apply bind_Some in Hr as (e & _ & Hr). case_if_in Hr; congruence.
Qed.

Lemma retrieve_none i tid ag ag' tr : retrieve_transaction_id i tid ag = Some (None, ag', tr) -> ag' = ag /\ tr = [].
Proof.
  unfold retrieve_transaction_id, get_entry, update_entry. rewrite bind_run.
  intros (x & s1 & tr1 & tr2 & Hx & Hr & ->). rewrite bind_get in Hx. apply defined_run in Hx as (Hx & -> & ->).
  apply bind_run in Hr as (t & s2 & tr3 & tr4 & Ht & Hr & ->). apply defined_run in Ht as (Ht & -> & ->).
  apply bind_run in Hr as ([o m] & s3 & tr5 & tr6 & Hm & Hr & ->). apply defined_run in Hm as (Hm & -> & ->).
  apply bind_run in Hr as ([] & s4 & tr7 & tr8 & Hu & Hr & ->). apply ret_run in Hr as (<- & -> & ->).
  rewrite bind_get, (bind_defined _ _ _ _ Hx) in Hu. apply put_run in Hu as (-> & ->). split; [|done].
  apply turn_retrieve_none in Hm as ->.
  replace (set_e_turn x (Some (with_turn_map t (turn_map t)))) with x.
  - rewrite list_insert_id by done. by destruct ag.
  - destruct x, t. cbn in *. by rewrite Ht.
Qed.

Lemma find_entry_none tid n : forall i ag ag' tr, find_entry_loop n i tid ag = Some (None, ag', tr) -> ag' = ag /\ tr = [].
Proof.
  induction n as [|n IH]; intros i ag ag' tr Hr; cbn [find_entry_loop] in Hr.
  { by apply ret_run in Hr as (_ & -> & ->). }
  unfold get_entry in Hr. apply bind_run in Hr as (x & s1 & tr1 & tr2 & Hx & Hr & ->).
  rewrite bind_get in Hx. apply defined_run in Hx as (Hx & -> & ->).
  case_if_in Hr; [by apply ret_run in Hr as (? & _)|].
  apply bind_run in Hr as (f & s2 & tr3 & tr4 & Hf & Hr & ->). destruct f; [by apply ret_run in Hr as (? & _)|].
  assert (s2 = ag /\ tr3 = []) as [-> ->].
  { destruct (e_turn x); [|by apply ret_run in Hf as (_ & -> & ->)].
    apply bind_run in Hf as (r & s3 & tr5 & tr6 & Hret & Hf & ->). apply ret_run in Hf as (Hd & -> & ->).
    destruct r; [by rewrite bool_decide_eq_true_2 in Hd|]. by apply retrieve_none in Hret as [-> ->]. }
  by apply IH in Hr as [-> ->].
Qed.
End Runs.

(** ** Lookup *)

Section Lookup.
Context `{CryptoLaws} `{System}.

(** The datagram is a Binding request that agent [a] accepts as from its peer: it has
    the user name of the agent and the HMAC under the agent's password. *)
Definition vouches (s : mux_t) (a : agent_ptr) (buf : list Z) : Prop :=
  exists g ret msg local remote, store s !! a = Some g /\ is_ready g = true /\
    stun_read buf (zlen buf) = Some (ret, buf, msg) /\ 0 <= ret /\
    msg_class msg = STUN_CLASS_REQUEST /\ msg_method msg = STUN_METHOD_BINDING /\
    split_username (username (credentials msg)) = Some (local, remote) /\
    local = ice_ufrag (a_local (ma_agent g)) /\
    authentic (generate_hmac_key msg (Some (ice_pwd (a_local (ma_agent g))))) buf ret.

(** The datagram is a response to a request that agent [a] made. *)
Definition answers (s : mux_t) (a : agent_ptr) (buf : list Z) : Prop :=
  exists g ret msg i ag tr, store s !! a = Some g /\ is_ready g = true /\
    stun_read buf (zlen buf) = Some (ret, buf, msg) /\ 0 <= ret /\ STUN_IS_RESPONSE (msg_class msg) = true /\
    agent_find_entry_from_transaction_id (transaction_id msg) (ma_agent g) = Some (Some i, ag, tr).

(** What an agent accepts carries the HMAC under its password. *)
Lemma verify_authentic ag buf ret msg buf' : bytes buf -> stun_read buf (zlen buf) = Some (ret, buf, msg) -> 0 <= ret ->
  has_integrity msg = true -> msg_class msg = STUN_CLASS_REQUEST ->
  verify_stun_binding ag buf msg = Some (0, buf') ->
  buf' = buf /\ authentic (generate_hmac_key msg (Some (ice_pwd (a_local ag)))) buf ret.
Proof.
  intros Hb Hr Hpos Hi Hc Hv. unfold verify_stun_binding in Hv. rewrite Hc, Hi in Hv.
  rewrite (bool_decide_eq_true_2 (STUN_CLASS_REQUEST = STUN_CLASS_REQUEST)) in Hv by done.
  rewrite !bool_decide_eq_false_2 in Hv by done. cbn [orb negb andb] in Hv.
  repeat (case_if_in Hv; [done|]).
  destruct (stun_check_integrity_spec buf (zlen buf) ret msg msg (Some (ice_pwd (a_local ag)))) as (ok & Hok & Hiff); try done.
  { pose proof (zlen_nonneg buf). lia. }
  rewrite Hok in Hv. cbn in Hv. destruct ok; [|done]. injection Hv as <-. split; [done|]. by apply Hiff.
Qed.

Lemma verify_same_buffer ag buf ret msg v buf' : bytes buf -> stun_read buf (zlen buf) = Some (ret, buf, msg) -> 0 <= ret ->
  has_integrity msg = true -> verify_stun_binding ag buf msg = Some (v, buf') -> buf' = buf.
Proof.
  intros Hb Hr Hpos Hi Hv. unfold verify_stun_binding in Hv.
  do 4 (match type of Hv with (if ?b then _ else _) = _ => destruct b; [congruence|] end). cbn zeta in Hv.
  match type of Hv with (if ?b then _ else _) = _ => destruct b; [congruence|] end.
  match type of Hv with context [stun_check_integrity _ _ _ ?p] =>
    destruct (stun_check_integrity_spec buf (zlen buf) ret msg msg p) as (ok & Hok & _); try done end.
  { pose proof (zlen_nonneg buf). lia. }
  rewrite Hok in Hv. cbn in Hv. congruence.
Qed.

(** The loop over the agents: the first that has the user name decides. *)
Lemma find_by_ufrag_run l local buf ret msg r s res s' tr : bytes buf ->
  stun_read buf (zlen buf) = Some (ret, buf, msg) -> 0 <= ret -> has_integrity msg = true ->
  msg_class msg = STUN_CLASS_REQUEST ->
  find_by_ufrag l local buf msg r s = Some (res, s', tr) ->
  store s' = store s /\ next_request_id s' = next_request_id s /\
  match res with
  | None => s' = s
  | Some (None, b) => b = buf /\ exists m, s' = with_impl s m /\ (m = count_rejected 1 (r_impl (reg s)) \/
      exists v am a, insert_map_entry (amap (r_impl (reg s))) r a = Some (v, am) /\ v <> 0 /\ m = set_amap (r_impl (reg s)) am)
  | Some (Some a, b) => b = buf /\ exists g am, store s !! a = Some g /\ is_ready g = true /\
      local = ice_ufrag (a_local (ma_agent g)) /\
      authentic (generate_hmac_key msg (Some (ice_pwd (a_local (ma_agent g))))) buf ret /\
      insert_map_entry (amap (r_impl (reg s))) r a = Some (0, am) /\ s' = with_impl s (set_amap (r_impl (reg s)) am)
  end.
Proof.
  intros Hb Hr Hpos Hi Hc. induction l as [|a l IH]; intros Hrun; cbn [find_by_ufrag] in Hrun.
  { by apply ret_run in Hrun as (-> & -> & _). }
  apply bind_run in Hrun as (rd & s1 & tr1 & tr2 & Hrd & Hrun & ->).
  apply agent_ready_run in Hrd as (-> & -> & Hready).
  destruct a as [a|]; [|by apply IH]. destruct rd; [|by apply IH].
  destruct (Hready eq_refl) as (a' & g & [= <-] & Hg & Hrg).
  apply bind_run in Hrun as (g' & s2 & tr3 & tr4 & Hg' & Hrun & ->). apply get_agent_run in Hg' as (Hg' & -> & ->).
  rewrite Hg in Hg'. injection Hg' as <-. case_bool_decide as Hl; [|by apply IH].
  apply bind_run in Hrun as ([v b] & s3 & tr5 & tr6 & Hv & Hrun & ->).
  apply on_agent_run in Hv as (g' & ag & tr' & Hg' & Hv & -> & ->). rewrite Hg in Hg'. injection Hg' as <-.
  unfold agent_verify_stun_binding in Hv. rewrite bind_get in Hv. apply defined_run in Hv as (Hv & -> & _).
  rewrite (same_agent s a g Hg) in Hrun. pose proof (verify_same_buffer _ _ _ _ _ _ Hb Hr Hpos Hi Hv) as ->.
  case_if_in Hrun.
  - apply bind_run in Hrun as ([] & s4 & tr7 & tr8 & Hm & Hrun & ->). apply modify_impl_run in Hm as (-> & ->).
    apply ret_run in Hrun as (-> & -> & ->). do 2 (split; [done|]). split; [done|]. eexists. split; [done|]. by left.
  - subst v. destruct (verify_authentic _ _ _ _ _ Hb Hr Hpos Hi Hc Hv) as [_ Hauth].
    rewrite bind_get_impl in Hrun. apply bind_run in Hrun as ([v am] & s4 & tr7 & tr8 & Hins & Hrun & ->).
    apply defined_run in Hins as (Hins & -> & ->). rewrite bind_set_impl in Hrun. apply ret_run in Hrun as (-> & -> & ->).
    do 2 (split; [done|]). destruct (v =? 0) eqn:Ev; bool_to_prop.
    + subst v. split; [done|]. by exists g, am.
    + split; [done|]. eexists. split; [done|]. right. by exists v, am, a.
Qed.

Lemma find_by_transaction_run l tid s res s' tr : find_by_transaction l tid s = Some (res, s', tr) ->
  reg s' = reg s /\ next_request_id s' = next_request_id s /\
  match res with
  | None => s' = s
  | Some a => exists g i ag tr', store s !! a = Some g /\ is_ready g = true /\
      agent_find_entry_from_transaction_id tid (ma_agent g) = Some (Some i, ag, tr')
  end.
Proof.
  revert tr. induction l as [|a l IH]; intros tr Hrun; cbn [find_by_transaction] in Hrun.
  { by apply ret_run in Hrun as (-> & -> & _). }
  apply bind_run in Hrun as (rd & s1 & tr1 & tr2 & Hrd & Hrun & ->).
  apply agent_ready_run in Hrd as (-> & -> & Hready).
  destruct a as [a|]; [|by eapply IH]. destruct rd; [|by eapply IH].
  destruct (Hready eq_refl) as (a' & g & [= <-] & Hg & Hrg).
  apply bind_run in Hrun as (f & s2 & tr3 & tr4 & Hf & Hrun & ->).
  apply on_agent_run in Hf as (g' & ag & tr' & Hg' & Hf & -> & ->). rewrite Hg in Hg'. injection Hg' as <-.
  case_bool_decide as Hs.
  - apply ret_run in Hrun as (-> & -> & ->). do 2 (split; [done|]). destruct Hs as [i ->]. by exists g, i, ag, tr'.
  - destruct f; [by destruct Hs|]. unfold agent_find_entry_from_transaction_id in Hf. rewrite bind_get in Hf.
    apply find_entry_none in Hf as [-> ->]. rewrite (same_agent s a g Hg) in Hrun. by eapply IH.
Qed.
(** ** Totality of the lookup *)

(** The agents of the array exist, and the searches of their transactions are defined. *)
Record agents_ok (s : mux_t) : Prop := {
  ago_present : forall a, Some a ∈ agents (reg s) -> is_Some (store s !! a);
  ago_turn : forall a g i x t, store s !! a = Some g -> entries (ma_agent g) !! i = Some x -> e_turn x = Some t ->
    tids_ok (turn_map t)
}.

Lemma verify_binding_total ag buf ret msg : bytes buf -> stun_read buf (zlen buf) = Some (ret, buf, msg) -> 0 <= ret ->
  has_integrity msg = true -> exists v, verify_stun_binding ag buf msg = Some (v, buf).
Proof.
  intros Hb Hr Hpos Hi. unfold verify_stun_binding.
  do 4 (match goal with |- exists v, (if ?b then _ else _) = _ => destruct b; [by eexists|] end). cbn zeta.
  match goal with |- exists v, (if ?b then _ else _) = _ => destruct b; [by eexists|] end.
  match goal with |- context [stun_check_integrity _ _ _ ?p] =>
    destruct (stun_check_integrity_spec buf (zlen buf) ret msg msg p) as (ok & Hok & _); try done end.
  { pose proof (zlen_nonneg buf). lia. }
  rewrite Hok. cbn. by eexists.
Qed.

Lemma agent_ready_total a s : (forall x, a = Some x -> is_Some (store s !! x)) ->
  exists b, agent_ready a s = Some (b, s, []).
Proof.
  intros Ha. destruct a as [a|]; [|by exists false]. destruct (Ha a eq_refl) as [g Hg]. exists (is_ready g).
  unfold agent_ready, get_agent. by rewrite (bind_quiet _ _ s g s); [|rewrite bind_get, Hg].
Qed.

Lemma find_by_ufrag_total l local buf ret msg r s : bytes buf -> stun_read buf (zlen buf) = Some (ret, buf, msg) -> 0 <= ret ->
  has_integrity msg = true -> (forall a, Some a ∈ l -> is_Some (store s !! a)) ->
  (forall a, exists v am, insert_map_entry (amap (r_impl (reg s))) r a = Some (v, am)) ->
  exists res s' tr, find_by_ufrag l local buf msg r s = Some (res, s', tr).
Proof.
  intros Hb Hr Hpos Hi. induction l as [|a l IH]; intros Hl Hins; cbn [find_by_ufrag]; [by do 3 eexists|].
  destruct (agent_ready_total a s) as [rd Hrd]; [intros x ->; apply Hl; by left|].
  rewrite (bind_quiet _ _ _ _ _ Hrd). pose proof (IH (fun x Hx => Hl x (list_elem_of_further _ _ _ Hx)) Hins) as Hrest.
  destruct a as [a|]; [|exact Hrest]. destruct rd; [|exact Hrest].
  destruct (Hl a) as [g Hg]; [by left|]. unfold get_agent. rewrite (bind_quiet _ _ s g s) by (by rewrite bind_get, Hg).
  case_bool_decide; [|exact Hrest]. destruct (verify_binding_total (ma_agent g) buf ret msg Hb Hr Hpos Hi) as [v Hv].
  rewrite (bind_quiet _ _ s (v, buf) s).
  2: { unfold on_agent, agent_verify_stun_binding. rewrite Hg, bind_get, Hv. cbn. by rewrite same_agent. }
  destruct (negb (v =? 0)); [rewrite bind_modify_impl; by do 3 eexists|]. rewrite bind_get_impl.
  destruct (Hins a) as (w & am & Hw). rewrite (bind_defined _ _ _ _ Hw), bind_set_impl. by do 3 eexists.
Qed.

Lemma retrieve_total i tid ag x t : entries ag !! i = Some x -> e_turn x = Some t -> tids_ok (turn_map t) -> is_tid tid ->
  exists o ag' tr, retrieve_transaction_id i tid ag = Some (o, ag', tr).
Proof.
  intros Hx Ht Hok Hid. unfold retrieve_transaction_id, get_entry, update_entry.
  rewrite (bind_quiet _ _ ag x ag) by (by rewrite bind_get, Hx). rewrite (bind_defined _ _ t) by done.
  destruct (turn_retrieve_total _ tid Hok Hid) as (o & m & Hp).
  rewrite (bind_defined _ _ _ _ Hp). eexists _, _, _. erewrite bind_quiet; [done|]. rewrite bind_get, (bind_defined _ _ x) by done. done.
Qed.

Lemma find_entry_total tid n : is_tid tid -> forall i ag, (i + n = length (entries ag))%nat ->
  (forall i x t, entries ag !! i = Some x -> e_turn x = Some t -> tids_ok (turn_map t)) ->
  exists o ag' tr, find_entry_loop n i tid ag = Some (o, ag', tr).
Proof.
  intros Hid. induction n as [|n IH]; intros i ag Hn Hok; cbn [find_entry_loop]; [by do 3 eexists|].
  destruct (lookup_lt_is_Some_2 (entries ag) i) as [x Hx]; [lia|].
  unfold get_entry. rewrite (bind_quiet _ _ ag x ag) by (by rewrite bind_get, Hx).
  case_bool_decide; [by do 3 eexists|]. destruct (IH (S i) ag) as (o & ag' & tr & Hrest); [lia|done|].
  destruct (e_turn x) as [t|] eqn:Ht.
  - destruct (retrieve_total i tid ag x t Hx Ht (Hok i x t Hx Ht) Hid) as ([r|] & ag1 & tr1 & Hret).
    + erewrite bind_some; [|erewrite bind_some; [|exact Hret]; done]. by do 3 eexists.
    + pose proof Hret as Hnone. apply retrieve_none in Hnone as [-> ->].
      erewrite bind_quiet; [|erewrite bind_quiet; [|exact Hret]; done]. by do 3 eexists.
  - erewrite bind_quiet; [|done]. by do 3 eexists.
Qed.

Lemma find_by_transaction_total l tid s : is_tid tid -> (forall a, Some a ∈ l -> is_Some (store s !! a)) -> agents_ok s ->
  exists res s' tr, find_by_transaction l tid s = Some (res, s', tr).
Proof.
  intros Hid Hl Hok. induction l as [|a l IH]; cbn [find_by_transaction]; [by do 3 eexists|].
  destruct (agent_ready_total a s) as [rd Hrd]; [intros x ->; apply Hl; by left|].
  rewrite (bind_quiet _ _ _ _ _ Hrd). pose proof (IH (fun x Hx => Hl x (list_elem_of_further _ _ _ Hx))) as Hrest.
  destruct a as [a|]; [|exact Hrest]. destruct rd; [|exact Hrest].
  destruct (Hl a) as [g Hg]; [by left|].
  destruct (find_entry_total tid (length (entries (ma_agent g))) Hid 0 (ma_agent g)) as (o & ag & tr & Hf);
    [done|intros i x t; by apply (ago_turn _ Hok a g)|].
  assert (Hrun : on_agent a (agent_find_entry_from_transaction_id tid) s =
    Some (o, with_store s (<[a := with_agent g ag]> (store s)), AgentDid a <$> tr)).
  { unfold on_agent, agent_find_entry_from_transaction_id. by rewrite Hg, bind_get, Hf. }
  rewrite (bind_some _ _ _ _ _ _ Hrun). destruct o as [i|]; [rewrite bool_decide_eq_true_2 by done; by do 3 eexists|].
  apply find_entry_none in Hf as [-> ->]. rewrite same_agent by done. rewrite bool_decide_eq_false_2 by (by intros [? ?]).
  destruct Hrest as (res & s' & tr' & ->). by do 3 eexists.
Qed.
(** ** The lookup *)

(** The map got at most one address. *)
Definition grown (am am' : addr_map_t) : Prop :=
  map_count am <= map_count am' <= map_count am + 1 /\
  (MuxMap.map_size am' = MuxMap.map_size am \/
   MuxMap.map_size am' = MuxMap.map_size am * 2 /\ MuxMap.map_size am <= map_count am * 2).
Lemma grown_refl am : grown am am.
Proof. split; [lia|by left]. Qed.

(** What the lookup of a datagram may do: the agents it finds, the associations it
    makes, the requests it keeps. *)
Record lookup_outcome (s : mux_t) (buf : list Z) (r : addr_record_t) (L : entries_t) (res : option agent_ptr)
    (s' : mux_t) (L' : entries_t) : Prop := {
  lo_agent : forall a, res = Some a ->
    MuxMap.assoc (amap (r_impl (reg s))) r a \/
    (pending_required (r_impl (reg s)) = false /\ vouches s a buf /\ MuxMap.assoc (amap (r_impl (reg s'))) r a) \/
    answers s a buf;
  lo_map : forall r' a, MuxMap.assoc (amap (r_impl (reg s'))) r' a -> MuxMap.assoc (amap (r_impl (reg s))) r' a \/
    (same_record true r r' /\ res = Some a /\ pending_required (r_impl (reg s)) = false /\ vouches s a buf);
  lo_kept : forall r' a, MuxMap.assoc (amap (r_impl (reg s))) r' a -> MuxMap.assoc (amap (r_impl (reg s'))) r' a;
  lo_size : grown (amap (r_impl (reg s))) (amap (r_impl (reg s')));
  lo_pending : L' = L \/ exists x local remote, pending_required (r_impl (reg s)) = true /\
    valid_ufrag local = true /\ valid_ufrag remote = true /\
    deferral_of s L r local remote buf = Kept /\ L' = L ++ [(x, new_request s r local remote buf)];
  lo_next : next_request_id s' = next_request_id s \/
    next_request_id s <> 0 /\ next_request_id s' = u64 (next_request_id s + 1);
  lo_array : agents (reg s') = agents (reg s) /\ agents_count (reg s') = agents_count (reg s)
}.

(** A lookup that leaves the map and the requests alone. *)
Lemma lookup_unchanged s buf r L s' : amap (r_impl (reg s')) = amap (r_impl (reg s)) ->
  agents (reg s') = agents (reg s) -> agents_count (reg s') = agents_count (reg s) ->
  (next_request_id s' = next_request_id s \/ next_request_id s <> 0 /\ next_request_id s' = u64 (next_request_id s + 1)) ->
  lookup_outcome s buf r L None s' L.
Proof.
  intros Ham Ha Hc Hn. split; [done|rewrite Ham; by left|by rewrite Ham|rewrite Ham; apply grown_refl|by left|done|done].
Qed.

(** A request of an unknown address when requests need not be announced. *)
Lemma lookup_by_ufrag s R r local remote buf ret msg : pinv now (next_request_id s) (r_impl (reg s)) [] R ->
  agents_ok s -> known r -> bytes buf -> absent (amap (r_impl (reg s))) r -> MuxMap.map_size (amap (r_impl (reg s))) * 2 <= INT_MAX ->
  pending_required (r_impl (reg s)) = false ->
  stun_read buf (zlen buf) = Some (ret, buf, msg) -> 0 <= ret -> has_integrity msg = true ->
  msg_class msg = STUN_CLASS_REQUEST -> msg_method msg = STUN_METHOD_BINDING ->
  split_username (username (credentials msg)) = Some (local, remote) ->
  exists res s' tr, lookup_request local remote buf msg r s = Some ((res, buf), s', tr) /\
    pinv now (next_request_id s') (r_impl (reg s')) [] R /\ lookup_outcome s buf r [] res s' [].
Proof.
  intros Hinv Hag Hk Hb Habs Hmax Hreq Hr Hpos Hi Hc Hm Hsp. pose proof (pi_map _ _ _ _ _ Hinv) as Hok.
  destruct (find_by_ufrag_total (agents (reg s)) local buf ret msg r s Hb Hr Hpos Hi) as (res & s' & tr & Hf).
  { apply (ago_present _ Hag). }
  { intros a. destruct (insert_map_entry_spec _ r a Hok Hk Habs Hmax) as (am & Hins & _). by exists 0, am. }
  unfold lookup_request. rewrite bind_get_impl, Hreq, bind_get, (bind_some _ _ _ _ _ _ Hf).
  destruct (find_by_ufrag_run _ _ _ _ _ _ _ _ _ _ Hb Hr Hpos Hi Hc Hf) as (Hst & Hid & Hres).
  destruct res as [ [ [a|] b]|].
  - destruct Hres as (-> & g & am & Hg & Hrd & Hl & Hauth & Hins & ->).
    destruct (insert_map_entry_spec _ r a Hok Hk Habs Hmax) as (am' & Hins' & Hok' & Hsz & Hct & Has).
    rewrite Hins in Hins'. injection Hins' as <-.
    assert (Hv : vouches s a buf) by (exists g, ret, msg, local, remote; done).
    eexists _, _, _. split; [done|]. split.
    + destruct Hinv as [G1 G2 G3 G4 G5 G6 G7 G8 G9 G10 G11 G12 G13 G14 G15].
      split; try done. intros x t Hx. by apply not_elem_of_nil in Hx.
    + split; cbn [r_impl reg with_impl amap set_amap]; [| | |split; [lia|done]|by left|by left|done].
      * intros b [= <-]. right. left. do 2 (split; [done|]). apply Has. by rewrite decide_True.
      * intros r' b. rewrite Has. case_decide as Hs; [|by left]. intros ->. by right.
      * intros r' b Hb'. apply Has. case_decide as Hs; [|done]. destruct Hb' as (i & e & (He & Hfl & Hsm) & _).
        destruct (Habs i e). split; [done|]. split; [done|]. eapply same_record_trans; [exact Hsm|by apply same_record_sym].
  - destruct Hres as (-> & m & -> & [-> |(v & am & a & Hins & Hv & _)]).
    + eexists _, _, _. split; [done|]. split; [by eapply pinv_same|]. apply lookup_unchanged; try done; by left.
    + destruct (insert_map_entry_spec _ r a Hok Hk Habs Hmax) as (am' & Hins' & _). rewrite Hins in Hins'. by injection Hins' as -> _.
  - subst s'. destruct (cb_mux_incoming _); [|by eexists _, _, _; split; [done|split; [done|apply lookup_unchanged; try done; by left] ] ].
    destruct (getnameinfo _) as [ [? ?]|]; (eexists _, _, _; split; [done|split; [done|apply lookup_unchanged; try done; by left] ]).
Qed.

Lemma lookup_agent_spec clock s L R buf r : pinv clock (next_request_id s) (r_impl (reg s)) L R -> clock <= now ->
  agents_ok s -> known r -> bytes buf -> MuxMap.map_size (amap (r_impl (reg s))) * 2 <= INT_MAX ->
  exists res s' L' tr, lookup_agent buf r s = Some ((res, buf), s', tr) /\
    pinv now (next_request_id s') (r_impl (reg s')) L' R /\ lookup_outcome s buf r L res s' L'.
Proof.
  intros Hinv0 Hclock Hag Hk Hb Hmax. pose proof (pinv_clock _ now _ _ _ _ Hinv0 Hclock) as Hinv.
  unfold lookup_agent. rewrite bind_get_impl. set (m := r_impl (reg s)) in *.
  destruct (find_agent_spec (amap m) r (pi_map _ _ _ _ _ Hinv)) as (o & Hfa & Hfs).
  rewrite (bind_defined _ _ _ _ Hfa). destruct o as [a|].
  { eexists _, s, L, _. split; [done|]. split; [done|]. split; [|by left|done|apply grown_refl|by left|by left|done].
    intros b [= <-]. left. by apply Hfs. }
  assert (Habs : absent (amap m) r).
  { apply absent_assoc; [apply (pi_map _ _ _ _ _ Hinv)|]. intros a Ha. by apply Hfs in Ha. }
  assert (Hrej : exists res s' L' tr, (_ ← modify_impl (count_rejected 1); mret (None, buf)) s = Some ((res, buf), s', tr) /\
    pinv now (next_request_id s') (r_impl (reg s')) L' R /\ lookup_outcome s buf r L res s' L').
  { rewrite bind_modify_impl. eexists _, _, L, _. split; [done|]. split; [by eapply pinv_same|]. apply lookup_unchanged; try done; by left. }
  destruct (is_stun_datagram_total buf Hb) as [st Hst]. rewrite (bind_defined _ _ _ _ Hst).
  destruct st; cbn [negb]; [|exact Hrej].
  destruct (stun_read_ok buf (zlen buf) Hb) as (ret & msg & Hr & Hwf & _); [pose proof (zlen_nonneg buf); lia|].
  rewrite (bind_defined _ _ _ _ Hr). cbn [fst snd]. destruct (ret <? 0) eqn:Er; [exact Hrej|]. apply Z.ltb_ge in Er.
  destruct (bool_decide (msg_class msg = STUN_CLASS_REQUEST) && _ && _) eqn:Erq.
  - apply andb_true_iff in Erq as [Erq Hi]. apply andb_true_iff in Erq as [Hc Hm].
    apply bool_decide_eq_true in Hc. apply Z.eqb_eq in Hm.
    destruct (split_username _) as [ [local remote]|] eqn:Hsp; [|exact Hrej].
    destruct (valid_ufrag local && valid_ufrag remote) eqn:Hu; cbn [negb]; [|exact Hrej]. apply andb_true_iff in Hu as [Hul Hur].
    destruct (pending_required m) eqn:Hreq.
    + unfold lookup_request. rewrite bind_get_impl. fold m. rewrite Hreq.
      destruct (defer_request_spec now s L R r local remote buf Hinv (Z.le_refl _) Hk Hb) as (s' & L' & Hd & (_ & Ha & Hn) & Hi' & Ham & Hnx & Hcase).
      rewrite (bind_quiet _ _ _ _ _ Hd). eexists _, s', L', _. split; [done|]. split; [done|].
      destruct (lookup_unchanged s buf r L s' Ham Ha Hn Hnx) as [G1 G2 G3 G4 G5 G6 G7]. split; [done|done|done|done| |done|done].
      destruct (deferral_of s L r local remote buf) eqn:Ed; [left; apply Hcase..|].
      destruct Hcase as (x & -> & _). right. by exists x, local, remote.
    + assert (L = []) as -> by (by apply (pi_required _ _ _ _ _ Hinv)).
      destruct (lookup_by_ufrag s R r local remote buf ret msg) as (res & s' & tr & Hrun & H1' & H2'); try done. by exists res, s', [], tr.
  - destruct (STUN_IS_RESPONSE (msg_class msg)) eqn:Hresp; cbn [negb]; [|exact Hrej]. rewrite bind_get.
    destruct (find_by_transaction_total (agents (reg s)) (transaction_id msg) s) as (res & s' & tr & Hf);
      [destruct (wf_tid _ (rwf_message _ (Hwf Er))) as [? Hz]; split; [done|unfold zlen in Hz; lia]|apply (ago_present _ Hag)|done|].
    rewrite (bind_some _ _ _ _ _ _ Hf). destruct (find_by_transaction_run _ _ _ _ _ _ Hf) as (Hrg & Hid & Hres).
    eexists res, s', L, _. split; [done|]. rewrite Hrg, Hid. split; [done|].
    split; [|rewrite Hrg; by left|by rewrite Hrg|rewrite Hrg; apply grown_refl|by left|by left|by rewrite Hrg].
    intros a ->. right. right. destruct Hres as (g & i & ag & tr' & ? & ? & ?). by exists g, ret, msg, i, ag, tr'.
Qed.
(** ** Accepted requests *)

Lemma pinv_amap clock nid m L R am : pinv clock nid m L R -> map_ok am ->
  (forall x r, (x, r) ∈ L -> attached r = true -> absent am (src r)) -> pinv clock nid (set_amap m am) L R.
Proof.
  intros [G1 G2 G3 G4 G5 G6 G7 G8 G9 G10 G11 G12 G13 G14 G15] Hok Habs. by split.
Qed.

Lemma set_conn_run a f s u s' tr : set_conn a f s = Some (u, s', tr) -> exists st, s' = with_store s st /\ tr = [].
Proof.
  unfold set_conn. rewrite bind_get. intros Hr. apply bind_run in Hr as (g & s1 & tr1 & tr2 & Hg & Hr & ->).
  apply defined_run in Hg as (Hg & -> & ->). apply bind_run in Hr as (c & s2 & tr3 & tr4 & Hc & Hr & ->).
  apply defined_run in Hc as (Hc & -> & ->). apply put_run in Hr as (-> & ->). by eexists.
Qed.

(** The request [x] is handed over: its source is now the one of its agent, if the
    agent is ready, and nothing else is. *)
Record ready_outcome (s : mux_t) (x : ptr) (L : entries_t) (s' : mux_t) (L' : entries_t) : Prop := {
  ry_removed : exists L1 r L2, L = L1 ++ (x, r) :: L2 /\ L' = L1 ++ L2;
  ry_map : forall r' a, MuxMap.assoc (amap (r_impl (reg s'))) r' a -> MuxMap.assoc (amap (r_impl (reg s))) r' a \/
    exists r g, (x, r) ∈ L /\ same_record true (src r) r' /\ pr_agent r = Some a /\ verified r = true /\
      store s !! a = Some g /\ is_ready g = true;
  ry_kept : forall r' a, MuxMap.assoc (amap (r_impl (reg s))) r' a -> MuxMap.assoc (amap (r_impl (reg s'))) r' a;
  ry_given : forall r a g, (x, r) ∈ L -> pr_agent r = Some a -> store s !! a = Some g -> is_ready g = true ->
    MuxMap.assoc (amap (r_impl (reg s'))) (src r) a;
  ry_size : grown (amap (r_impl (reg s))) (amap (r_impl (reg s')));
  ry_array : agents (reg s') = agents (reg s) /\ agents_count (reg s') = agents_count (reg s) /\
    next_request_id s' = next_request_id s
}.

(** The end of the hand-over: the request leaves. *)
Lemma ready_removed s s1 L1 x r L2 R am st : pinv now (next_request_id s) (r_impl (reg s)) (L1 ++ (x, r) :: L2) (x :: R) ->
  map_ok am -> (forall y t, (y, t) ∈ (L1 ++ L2) -> attached t = true -> absent am (src t)) ->
  s1 = with_store (with_impl s (set_amap (r_impl (reg s)) am)) st ->
  exists q, on_queues (remove_pending x) s1 = Some (tt, with_impl s1 (set_queues (set_amap (r_impl (reg s)) am) q), []) /\
    pinv now (next_request_id s) (set_queues (set_amap (r_impl (reg s)) am) q) (L1 ++ L2) R.
Proof.
  intros Hinv Hok Habs ->. pose proof (pi_rep _ _ _ _ _ Hinv) as Hrep.
  destruct (remove_pending_spec _ L1 L2 (x :: R) x r Hrep) as (q & Hq & Hrep' & Hb).
  pose proof (without_middle x [] R (sh_nodup _ _ (rep_shape _ _ _ Hrep) READY)) as Hw. cbn [app] in Hw. rewrite Hw in Hrep'.
  exists q. split; [by apply on_queues_run|].
  eapply (pinv_same _ _ (set_amap (set_queues (r_impl (reg s)) q) am)); try done. apply pinv_amap; [|done|done].
  eapply pinv_sublist; [exact Hinv| |done|done]. apply sublist_app; [done|]. by apply sublist_cons.
Qed.
(** The agent of a request takes it. *)
Definition takes (s : mux_t) (r : request_t) : Prop :=
  forall a, pr_agent r = Some a -> exists g, store s !! a = Some g /\
    (is_ready g = true -> is_Some (agent_conn_recv (pr_data r) (src r) (ma_agent g))).

(** What an agent does with its request ends in its connection. *)
Lemma hand_over s1 a g r : store s1 !! a = Some g -> is_ready g = true ->
  is_Some (agent_conn_recv (pr_data r) (src r) (ma_agent g)) ->
  exists st tr, (ret ← on_agent a (agent_conn_recv (pr_data r) (src r));
    _ ← (if negb (ret =? 0) then set_conn a finish else mret tt); set_conn a (wake_at now)) s1 =
    Some (tt, with_store s1 st, AgentDid a <$> tr).
Proof.
  intros Hg Hrd [ [ [v ag] tr] Hv]. unfold is_ready in Hrd. destruct (ma_conn g) as [c|] eqn:Hc; [|done].
  rewrite (bind_some _ _ s1 v (with_store s1 (<[a := with_agent g ag]> (store s1))) (AgentDid a <$> tr))
    by (unfold on_agent; by rewrite Hg, Hv).
  assert (Hset : forall s2 f g2, store s2 !! a = Some g2 -> is_Some (ma_conn g2) -> exists c2,
    set_conn a f s2 = Some (tt, with_store s2 (<[a := with_conn g2 (Some (f c2))]> (store s2)), [])).
  { intros s2 f g2 Hg2 [c2 Hc2]. exists c2. unfold set_conn. by rewrite bind_get, (bind_defined _ _ _ _ Hg2), (bind_defined _ _ _ _ Hc2). }
  set (s2 := with_store s1 _). assert (Hg2 : store s2 !! a = Some (with_agent g ag)) by apply lookup_insert_eq.
  destruct (negb (v =? 0)).
  - destruct (Hset s2 finish _ Hg2) as [c2 H2']; [by exists c|]. rewrite (bind_quiet _ _ _ _ _ H2').
    match goal with |- context [set_conn a (wake_at now) ?s3] => destruct (Hset s3 (wake_at now) (with_conn (with_agent g ag) (Some (finish c2)))) as [c3 H3'] end;
      [apply lookup_insert_eq|done|]. rewrite H3'. eexists _, tr. by rewrite app_nil_r.
  - rewrite (bind_quiet _ _ s2 tt s2) by done. destruct (Hset s2 (wake_at now) _ Hg2) as [c2 ->]; [by exists c|].
    eexists _, tr. by rewrite app_nil_r.
Qed.

(** Which addresses have no agent after one is given to a request. *)
Lemma absent_after am am' a L1 x r L2 nid m R : pinv now nid m (L1 ++ (x, r) :: L2) R -> amap m = am -> map_ok am' ->
  attached r = true ->
  (forall r' b, MuxMap.assoc am' r' b <-> (if decide (same_record true (src r) r') then b = a else MuxMap.assoc am r' b)) ->
  forall y t, (y, t) ∈ (L1 ++ L2) -> attached t = true -> absent am' (src t).
Proof.
  intros Hinv <- Hok Hr Has y t Hy Ht. apply absent_assoc; [done|]. intros b Hb. apply Has in Hb.
  assert (Hin : (y, t) ∈ (L1 ++ (x, r) :: L2)) by set_solver. case_decide as Hs.
  - assert (x = y) as <- by (by apply (pi_sources _ _ _ _ _ Hinv x r y t); [set_solver|..]).
    pose proof (rep_nodup _ _ _ (pi_rep _ _ _ _ _ Hinv)) as Hnd. rewrite fmap_app in Hnd. cbn in Hnd.
    apply NoDup_middle in Hnd as [_ Hnd]. apply Hnd. rewrite <- fmap_app. apply list_elem_of_fmap. by exists (x, t).
  - destruct Hb as (i & e & Hl & _). by apply (pi_absent _ _ _ _ _ Hinv y t Hin Ht i e).
Qed.

Lemma ready_one_spec s L x R : pinv now (next_request_id s) (r_impl (reg s)) L (x :: R) ->
  MuxMap.map_size (amap (r_impl (reg s))) * 2 <= INT_MAX -> (forall r, (x, r) ∈ L -> takes s r) ->
  exists s' L' tr, ready_one x s = Some (tt, s', tr) /\ pinv now (next_request_id s') (r_impl (reg s')) L' R /\
    ready_outcome s x L s' L' /\ (tr = [] \/ exists a tr', tr = AgentDid a <$> tr').
Proof.
  intros Hinv Hmax Htake. pose proof (pi_rep _ _ _ _ _ Hinv) as Hrep.
  assert (exists r, (x, r) ∈ L /\ attached r = true) as (r & Hx & Hat) by (apply (rep_ready_elem _ _ _ Hrep); by left).
  destruct (entry_split _ _ _ Hx) as (L1 & L2 & HL). pose proof (pi_map _ _ _ _ _ Hinv) as Hok.
  assert (exists a, pr_agent r = Some a) as [a Ha].
  { unfold attached, unattached in Hat. apply negb_true_iff, bool_decide_eq_false in Hat. destruct (pr_agent r); [by eexists|done]. }
  assert (Huniq : forall t, (x, t) ∈ L -> t = r) by (intros t Ht; exact (entries_unique _ x t r (rep_nodup _ _ _ Hrep) Ht Hx)).
  destruct (Htake r Hx a Ha) as (g & Hg & Hrecv). destruct (rep_lookup _ _ _ Hrep x r Hx) as (nd & Hnd & Hc).
  unfold ready_one. rewrite bind_get_impl, (bind_defined _ _ nd) by done. rewrite Hc, Ha. cbn [agent_ready].
  rewrite (bind_quiet _ _ s (is_ready g) s)
    by (unfold get_agent; rewrite (bind_quiet _ _ s g s); [done|by rewrite bind_get, Hg]).
  rewrite HL in Hinv. destruct (is_ready g) eqn:Hrd.
  - destruct (insert_map_entry_spec _ (src r) a Hok (ro_src _ (pi_request _ _ _ _ _ Hinv x r ltac:(set_solver)))
      (pi_absent _ _ _ _ _ Hinv x r ltac:(set_solver) Hat) Hmax) as (am & Hins & Hok' & Hsz & Hct & Has).
    destruct (hand_over (with_impl s (set_amap (r_impl (reg s)) am)) a g r Hg Hrd (Hrecv eq_refl)) as (st & tr & Hrun).
    erewrite bind_some.
    2: { rewrite (bind_defined _ _ _ _ Hins). cbn [fst snd]. rewrite bind_set_impl. cbn [Z.eqb negb]. exact Hrun. }
    destruct (ready_removed s _ L1 x r L2 R am st Hinv Hok' (absent_after _ _ a _ _ _ _ _ _ _ Hinv eq_refl Hok' Hat Has) eq_refl) as (q & -> & Hinv').
    eexists _, (L1 ++ L2), _. split; [done|]. split; [exact Hinv'|]. rewrite app_nil_r. split; [|right; by exists a, tr].
    split; cbn [r_impl reg with_impl with_store amap set_amap set_queues set_listener]; [by exists L1, r, L2| | | |split; [lia|done]|done].
    + intros r' b. rewrite Has. case_decide; [|by left]. intros ->. right. exists r, g.
      do 3 (split; [done|]). split; [by apply (rep_verified _ _ _ Hrep x)|done].
    + intros r' b Hb. apply Has. case_decide as Hs; [|done]. destruct Hb as (i & e & (He & Hf & Hsm) & _).
      destruct (pi_absent _ _ _ _ _ Hinv x r ltac:(set_solver) Hat i e). split; [done|]. split; [done|].
      eapply same_record_trans; [exact Hsm|by apply same_record_sym].
    + intros t b g' Ht Hb _ _. rewrite (Huniq t Ht) in *. apply Has. rewrite decide_True; [congruence|].
      apply (ro_src _ (pi_request _ _ _ _ _ Hinv x r ltac:(set_solver))).
  - rewrite (bind_quiet _ _ s tt s) by done.
    destruct (ready_removed s s L1 x r L2 R (amap (r_impl (reg s))) (store s) Hinv Hok) as (q & -> & Hinv').
    { intros y t Hy. apply (pi_absent _ _ _ _ _ Hinv y). set_solver. }
    { by destruct s as [ [ [] ? ?] ? ?]. }
    eexists _, (L1 ++ L2), _. split; [done|]. split; [exact Hinv'|]. split; [|by left].
    split; cbn [r_impl reg with_impl amap set_amap set_queues set_listener]; [by exists L1, r, L2|by left|done| |apply grown_refl|done].
    intros t b g' Ht Hb Hg' Hrd'. rewrite (Huniq t Ht) in *. congruence.
Qed.
(** An agent that leaves loses its addresses and its requests. *)
Context `{Socket}.

Lemma cleanup_spec clock s L R a g : pinv clock (next_request_id s) (r_impl (reg s)) L R ->
  store s !! a = Some g -> is_Some (ma_conn g) ->
  exists s' R', conn_mux_cleanup a s = Some (tt, s', [Woken]) /\
    pinv clock (next_request_id s') (r_impl (reg s')) (filter (fun e => bool_decide (pr_agent e.2 = Some a) = false) L) R' /\
    (forall r b, MuxMap.assoc (amap (r_impl (reg s'))) r b <-> MuxMap.assoc (amap (r_impl (reg s))) r b /\ b <> a) /\
    MuxMap.map_size (amap (r_impl (reg s'))) = MuxMap.map_size (amap (r_impl (reg s))) /\
    map_count (amap (r_impl (reg s'))) <= map_count (amap (r_impl (reg s))) /\
    next_request_id s' = next_request_id s /\
    store s' = <[a := with_conn g None]> (store s).
Proof.
  intros Hinv Hg [c Hc]. unfold conn_mux_cleanup. rewrite bind_get_impl.
  destruct (remove_map_entries_spec _ a (pi_map _ _ _ _ _ Hinv)) as (am & Ham & Hok & Hsz & Hct & Has).
  rewrite (bind_defined _ _ _ _ Ham). cbn [fst snd]. rewrite bind_set_impl.
  destruct (remove_all_where_spec (fun r => bool_decide (pr_agent r = Some a)) _ L R (pi_rep _ _ _ _ _ Hinv))
    as (q & R' & Hq & _ & Hrep & Hb).
  rewrite (bind_on_queues _ q) by exact Hq. unfold conn_mux_interrupt, conn_mux_interrupt_registry, set_conn.
  set (s1 := with_impl _ _). rewrite (bind_some _ _ s1 (if sendto_self <? 0 then -1 else 0)
    (with_store s1 (<[a := with_conn g (Some (wake_at now c))]> (store s1))) [Woken]).
  2: { rewrite (bind_quiet _ _ s1 tt (with_store s1 (<[a := with_conn g (Some (wake_at now c))]> (store s1)))); [done|].
       by rewrite bind_get, (bind_defined _ _ g), (bind_defined _ _ c). }
  rewrite bind_get, (bind_defined _ _ (with_conn g (Some (wake_at now c)))) by apply lookup_insert_eq.
  eexists _, R'. split; [done|]. cbn [with_store with_impl reg r_impl next_request_id store]. split; [|split; [exact Has|] ].
  - eapply (pinv_same _ _ (set_amap (set_queues (r_impl (reg s)) q) am)); try done. apply pinv_amap; [|done|].
    + eapply pinv_sublist; [exact Hinv|apply sublist_filter|done|done].
    + intros x r Hx Hr. apply list_elem_of_filter in Hx as [_ Hx]. apply absent_assoc; [done|].
      intros b Hb'. apply Has in Hb' as [(i & e & Hl & _) _]. by apply (pi_absent _ _ _ _ _ Hinv x r Hx Hr i e).
  - do 3 (split; [done|]). by rewrite insert_insert_eq.
Qed.
End Lookup.
