(* ===== verification/MuxCorrect.v ===== *)
(** * The mux mode: correctness (src/conn_mux.c)

    A registry of the mux mode as a state machine: its steps are the operations that
    the thread and the application make, in any order, at times that do not go back,
    while the agents act and other registries take request numbers.  What holds in
    every state it reaches, and what each decision of the application means. *)

From S2P Require Import Prelude Effects CText Addr Turn Ice IceSdp StunTypes StunWrite StunRead HashCrypto.
From S2P Require Import AgentTypes Agent AgentMessages AgentUpdate AgentCalls AgentNet AgentAuth.
From S2P Require Import MuxMap MuxQueues MuxPending Mux MuxSpec MuxSafety.
From stdpp Require Import list gmap sorting.
#[local] Open Scope Z_scope.

(** ** The state machine *)

Inductive mux_op :=
| Arrive (buf : list Z) (r : addr_record_t)
| Ready
| Announce
| VerifyRequest (id : Z) (pwd : list Z)
| AttachRequest (id : Z) (a : agent_ptr)
| RejectRequest (id : Z)
| ListenPending (config : option juice_mux_pending_config_t) (cb : option callback)
| BeginStop
| FinishStop
| Listen (cb : option callback)
| Cleanup (a : agent_ptr).

(** The first accepted request, if there is one. *)
Definition ready_first `{Crypto} `{System} : MuxM unit :=
  m ← get_impl; match first_of (ready_ends (queues m)) with Some x => ready_one x | None => mret tt end.

Definition perform_op `{Crypto} `{System} `{Socket} (o : mux_op) : MuxM unit :=
  match o with
  | Arrive buf r => process_datagram buf r
  | Ready => _ ← expire_pending; ready_first
  | Announce => _ ← dispatch_one; mret tt
  | VerifyRequest id pwd => _ ← conn_mux_verify_request id pwd; mret tt
  | AttachRequest id a => _ ← conn_mux_attach_request id a; mret tt
  | RejectRequest id => _ ← conn_mux_reject_request id; mret tt
  | ListenPending config cb => _ ← conn_mux_listen_pending config cb; mret tt
  | BeginStop => _ ← conn_mux_begin_stop_pending; mret tt
  | FinishStop => conn_mux_finish_stop_pending
  | Listen cb => _ ← conn_mux_listen cb; mret tt
  | Cleanup a => conn_mux_cleanup a
  end.

(** What the agents and the other registries did since the last step. *)
Record world := {
  w_store : gmap agent_ptr mux_agent_t;
  w_agents : list (option agent_ptr);
  w_count : Z;
  w_next : Z
}.

Definition later_id (n n' : Z) : Prop := 0 <= n' < 2 ^ 64 /\ (n' = 0 \/ (n <> 0 /\ n <= n')).

Definition refresh (s : mux_t) (w : world) : mux_t :=
  {| reg := {| r_impl := r_impl (reg s); agents := w_agents w; agents_count := w_count w |};
     store := w_store w; next_request_id := w_next w |}.

(** The agent is in memory and has its connection. *)
Definition has_conn (s : mux_t) (a : agent_ptr) : Prop := exists g, store s !! a = Some g /\ is_Some (ma_conn g).

(** An agent is not freed as long as it has its connection, which only
    [conn_mux_cleanup] takes from it. *)
Definition agents_stay (s : mux_t) (w : world) : Prop := forall a, has_conn s a -> has_conn (refresh s w) a.

(** Agent [a], if it is ready, takes the datagram [buf] from [r]: its own code is defined on it. *)
Definition receives `{Crypto} `{System} (s : mux_t) (a : agent_ptr) (buf : list Z) (r : addr_record_t) : Prop :=
  forall g, store s !! a = Some g -> is_ready g = true -> is_Some (agent_conn_recv buf r (ma_agent g)).

(** What the callers of an operation ensure, and the agents for a datagram they are given. *)
Definition op_ok `{Crypto} `{System} (s : mux_t) (o : mux_op) : Prop :=
  match o with
  | Arrive buf r => bytes buf /\ known r /\
      forall a b s1 tr, lookup_agent buf r s = Some ((Some a, b), s1, tr) -> receives s1 a b r
  | Ready => forall x nd a, requests (queues (r_impl (reg s))) !! x = Some nd -> pr_agent (content nd) = Some a ->
      receives s a (pr_data (content nd)) (src (content nd))
  | AttachRequest _ a => is_Some (store s !! a)
  | Cleanup a => exists g, store s !! a = Some g /\ is_Some (ma_conn g)
  | _ => True
  end.

(** The states a registry reaches in [n] steps, at a time, with what it made known. *)
Inductive reaches `{Crypto} : nat -> Z -> mux_t -> list mux_event -> Prop :=
| reaches_start t s : r_impl (reg s) = registry_impl_zero -> 0 <= next_request_id s < 2 ^ 64 -> reaches 0 t s []
| reaches_step n t s tr (sys : System) (sock : Socket) w o s' tr' : reaches n t s tr -> t <= now ->
    later_id (next_request_id s) (w_next w) -> agents_stay s w -> agents_ok (refresh s w) -> op_ok (refresh s w) o ->
    perform_op o (refresh s w) = Some (tt, s', tr') -> reaches (S n) now s' (tr ++ tr').

(** ** The invariant *)

(** The size of the map is bounded by the number of steps. *)
Definition bounded (n : Z) (am : addr_map_t) : Prop := map_count am <= n /\ MuxMap.map_size am <= 16 + 4 * n.

Lemma bounded_grown n am am' : bounded n am -> grown am am' -> bounded (n + 1) am'.
Proof. unfold bounded, grown. lia. Qed.
Lemma bounded_le n n' am : bounded n am -> n <= n' -> bounded n' am.
Proof. unfold bounded. lia. Qed.

(** The requests that the application was told of. *)
Definition announced (tr : list mux_event) : list Z :=
  omap (fun e => match e with PendingRequest _ id _ => Some id | _ => None end) tr.

(** A request of [L'] is one of [L], perhaps announced since, or new. *)
Definition evolves (nid : Z) (L : entries_t) (nid' : Z) (L' : entries_t) : Prop :=
  later_id nid nid' /\
  forall x r', (x, r') ∈ L' ->
    (exists y r, (y, r) ∈ L /\ pr_id r = pr_id r' /\ (notified r = true -> notified r' = true)) \/
    (nid <> 0 /\ pr_id r' = nid).

(** The agents of the requests of [L'] are agents of requests of [L], or [P] holds of them. *)
Definition agents_within (P : agent_ptr -> Prop) (L L' : entries_t) : Prop :=
  forall x r' a, (x, r') ∈ L' -> pr_agent r' = Some a -> (exists y r, (y, r) ∈ L /\ pr_agent r = Some a) \/ P a.

Lemma within_sublist P L L' : L' `sublist_of` L -> agents_within P L L'.
Proof. intros Hs x r a Hx Ha. left. exists x, r. split; [by eapply elem_of_sublist|done]. Qed.
Lemma within_replace (P : agent_ptr -> Prop) L1 x r r' L2 : (forall a, pr_agent r' = Some a -> pr_agent r = Some a \/ P a) ->
  agents_within P (L1 ++ (x, r) :: L2) (L1 ++ (x, r') :: L2).
Proof.
  intros Hr y q a Hy Ha. rewrite elem_of_app, elem_of_cons in Hy. destruct Hy as [Hy|[ [= -> ->]|Hy] ].
  - left. exists y, q. split; [set_solver|done].
  - destruct (Hr a Ha) as [Ho|Hp]; [left; exists x, r; split; [set_solver|done]|by right].
  - left. exists y, q. split; [set_solver|done].
Qed.
Lemma within_app P L l : (forall x r, (x, r) ∈ l -> pr_agent r = None) -> agents_within P L (L ++ l).
Proof.
  intros Hl x r a Hx Ha. apply elem_of_app in Hx as [Hx|Hx]; [left; by exists x, r|]. specialize (Hl x r Hx). congruence.
Qed.
Lemma within_trans P L1 L2 L3 : agents_within P L1 L2 -> agents_within P L2 L3 -> agents_within P L1 L3.
Proof.
  intros H1 H2 x r a Hx Ha. destruct (H2 x r a Hx Ha) as [(y & q & Hy & Hq)|?]; [|by right]. by apply (H1 y q).
Qed.

(** The agents of the accepted requests and of the addresses are in memory. *)
Record live (s : mux_t) (L : entries_t) : Prop := {
  lv_requests x r a : (x, r) ∈ L -> pr_agent r = Some a -> has_conn s a;
  lv_addresses r a : MuxMap.assoc (amap (r_impl (reg s))) r a -> has_conn s a
}.

(** Agents keep their connections. *)
Definition conns_kept (s s' : mux_t) : Prop := forall a, has_conn s a -> has_conn s' a.
#[global] Instance conns_kept_preorder : PreOrder conns_kept.
Proof. split; [by intros s a|]. intros s1 s2 s3 H1 H2 a Ha. by apply H2, H1. Qed.

Lemma conns_kept_store s s' : store s' = store s -> conns_kept s s'.
Proof. intros He a (g & Hg & Hc). exists g. by rewrite He. Qed.

Lemma live_step s s' L L' : live s L -> conns_kept s s' -> agents_within (has_conn s) L L' ->
  (forall r a, MuxMap.assoc (amap (r_impl (reg s'))) r a -> (exists r', MuxMap.assoc (amap (r_impl (reg s))) r' a) \/ has_conn s a) ->
  live s' L'.
Proof.
  intros [H1 H2] Hk Hw Hm. split.
  - intros x r a Hx Ha. apply Hk. destruct (Hw x r a Hx Ha) as [(y & q & Hy & Hq)|?]; [by eapply H1|done].
  - intros r a Ha. apply Hk. destruct (Hm r a Ha) as [ [r' Hr']|?]; [by eapply H2|done].
Qed.

(** No request is announced twice. *)
Record history_ok (nid : Z) (L : entries_t) (tr : list mux_event) : Prop := {
  ho_nodup : NoDup (announced tr);
  ho_past : forall id, id ∈ announced tr -> 0 < id /\ (nid = 0 \/ id < nid);
  ho_notified : forall id x r, id ∈ announced tr -> (x, r) ∈ L -> pr_id r = id -> notified r = true
}.

Lemma history_quiet nid L nid' L' tr tr' : history_ok nid L tr -> evolves nid L nid' L' -> announced tr' = [] ->
  history_ok nid' L' (tr ++ tr').
Proof.
  intros [H1 H2 H3] [Hn He] Hq. assert (Ha : announced (tr ++ tr') = announced tr)
    by (unfold announced in *; by rewrite omap_app, Hq, app_nil_r).
  split; rewrite Ha; [done| |].
  - intros id Hid. destruct (H2 id Hid). split; [done|]. unfold later_id in Hn. lia.
  - intros id x r' Hid Hx Hr. destruct (He x r' Hx) as [(y & r & Hy & Hi & Hnt)|[Hz Hi] ].
    + apply Hnt. apply (H3 id y r Hid Hy). congruence.
    + destruct (H2 id Hid) as [_ [?|?] ]; lia.
Qed.

Lemma history_announced nid L L' tr cb id info : history_ok nid L tr ->
  (forall x r', (x, r') ∈ L' -> exists y r, (y, r) ∈ L /\ pr_id r = pr_id r' /\ (notified r = true -> notified r' = true)) ->
  (exists x r, (x, r) ∈ L /\ pr_id r = id /\ notified r = false) -> 0 < id -> (nid = 0 \/ id < nid) ->
  (forall x r', (x, r') ∈ L' -> pr_id r' = id -> notified r' = true) ->
  history_ok nid L' (tr ++ [PendingRequest cb id info]).
Proof.
  intros [H1 H2 H3] He (x & r & Hx & Hid & Hn) Hpos Hlt Hnew.
  assert (Ha : announced (tr ++ [PendingRequest cb id info]) = announced tr ++ [id]) by (unfold announced; by rewrite omap_app).
  assert (Hfresh : id ∉ announced tr) by (intros Hin; rewrite (H3 id x r Hin Hx Hid) in Hn; done).
  split; rewrite Ha.
  - apply NoDup_app. split; [done|]. split; [|apply NoDup_singleton]. intros i Hi Hi'. apply list_elem_of_singleton in Hi' as ->. done.
  - intros i Hi. apply elem_of_app in Hi as [Hi| ->%list_elem_of_singleton]; [by apply H2|done].
  - intros i y r' Hi Hy Hr. apply elem_of_app in Hi as [Hi| ->%list_elem_of_singleton]; [|by apply (Hnew y)].
    destruct (He y r' Hy) as (z & r0 & Hz & Hi0 & Hnt). apply Hnt. apply (H3 i z r0 Hi Hz). congruence.
Qed.
Lemma later_refl nid : 0 <= nid < 2 ^ 64 -> later_id nid nid.
Proof. unfold later_id. lia. Qed.
Lemma later_trans n1 n2 n3 : later_id n1 n2 -> later_id n2 n3 -> later_id n1 n3.
Proof. unfold later_id. lia. Qed.
Lemma later_next nid nid' : 0 <= nid < 2 ^ 64 -> nid' = nid \/ nid <> 0 /\ nid' = u64 (nid + 1) -> later_id nid nid'.
Proof.
  intros Hn [-> |[Hz ->] ]; [by apply later_refl|]. unfold later_id, u64.
  destruct (decide (nid + 1 < 2 ^ 64)); [rewrite Z.mod_small by lia; lia|].
  replace (nid + 1) with (2 ^ 64) by lia. rewrite Z_mod_same_full. lia.
Qed.

Lemma evolves_sublist nid L L' : 0 <= nid < 2 ^ 64 -> L' `sublist_of` L -> evolves nid L nid L'.
Proof.
  intros Hn Hs. split; [by apply later_refl|]. intros x r Hx. left. exists x, r. split; [by eapply elem_of_sublist|done].
Qed.
Lemma evolves_app nid nid' L l : later_id nid nid' -> (forall x r, (x, r) ∈ l -> nid <> 0 /\ pr_id r = nid) ->
  evolves nid L nid' (L ++ l).
Proof.
  intros Hn Hl. split; [done|]. intros x r Hx. apply elem_of_app in Hx as [Hx|Hx]; [left; by exists x, r|right; by apply (Hl x)].
Qed.
Lemma evolves_replace nid L1 x r r' L2 : 0 <= nid < 2 ^ 64 -> pr_id r = pr_id r' ->
  (notified r = true -> notified r' = true) -> evolves nid (L1 ++ (x, r) :: L2) nid (L1 ++ (x, r') :: L2).
Proof.
  intros Hn Hid Hnt. split; [by apply later_refl|]. intros y t Hy. left.
  rewrite elem_of_app, elem_of_cons in Hy. destruct Hy as [Hy|[ [= -> ->]|Hy] ].
  - exists y, t. split; [set_solver|done].
  - exists x, r. split; [set_solver|done].
  - exists y, t. split; [set_solver|done].
Qed.
Lemma evolves_trans n1 L1 n2 L2 L3 : 0 <= n1 < 2 ^ 64 -> evolves n1 L1 n1 L2 -> evolves n1 L2 n2 L3 -> evolves n1 L1 n2 L3.
Proof.
  intros Hn [_ H1] [Hl H2]. split; [done|]. intros x r Hx. destruct (H2 x r Hx) as [(y & t & Hy & Hi & Hnt)|?]; [|by right].
  destruct (H1 y t Hy) as [(z & u & Hz & Hi' & Hnt')|[? ?] ]; [|right; split; [done|congruence] ].
  left. exists z, u. split; [done|]. split; [congruence|auto].
Qed.

(** ** Steps that announce nothing *)

Definition quiet {A} (c : MuxM A) : Prop := forall s x s' tr, c s = Some (x, s', tr) -> announced tr = [].

Lemma quiet_ret {A} (x : A) : quiet (mret x).
Proof. intros s y s' tr Hr. by apply ret_run in Hr as (_ & _ & ->). Qed.
Lemma quiet_bind {A B} (c : MuxM A) (k : A -> MuxM B) : quiet c -> (forall x, quiet (k x)) -> quiet (x ← c; k x).
Proof.
  intros Hc Hk s y s' tr Hr. apply bind_run in Hr as (x & s1 & tr1 & tr2 & H1 & H2 & ->).
  unfold announced. rewrite omap_app. fold (announced tr1) (announced tr2). by rewrite (Hc _ _ _ _ H1), (Hk _ _ _ _ _ H2).
Qed.
Lemma quiet_get : quiet get.
Proof. intros s y s' tr Hr. by apply get_run in Hr as (_ & _ & ->). Qed.
Lemma quiet_put s0 : quiet (put s0).
Proof. intros s y s' tr Hr. by apply put_run in Hr as (_ & ->). Qed.
Lemma quiet_defined {A} (o : option A) : quiet (defined o).
Proof. intros s y s' tr Hr. by apply defined_run in Hr as (_ & _ & ->). Qed.
Lemma quiet_agent {A} a (c : M A) : quiet (on_agent a c).
Proof.
  intros s y s' tr Hr. apply on_agent_run in Hr as (g & ag & tr' & _ & _ & _ & ->). unfold announced.
  induction tr' as [|e tr' IH]; [done|exact IH].
Qed.
Create HintDb mux_quiet.
#[export] Hint Resolve quiet_ret quiet_get quiet_put quiet_defined quiet_agent : mux_quiet.

(** By the structure of the step. *)
Ltac quiet_step :=
  repeat first
    [ match goal with |- forall _, _ => intro end
    | solve [eauto with mux_quiet]
    | apply quiet_bind
    | match goal with |- quiet (match ?x with _ => _ end) => destruct x end ].

Lemma quiet_set_impl m : quiet (set_impl m).
Proof. unfold set_impl. quiet_step. Qed.
Lemma quiet_get_impl : quiet get_impl.
Proof. unfold get_impl. quiet_step. Qed.
#[export] Hint Resolve quiet_set_impl quiet_get_impl : mux_quiet.
Lemma quiet_modify_impl f : quiet (modify_impl f).
Proof. unfold modify_impl. quiet_step. Qed.
Lemma quiet_on_queues f : quiet (on_queues f).
Proof. unfold on_queues. quiet_step. Qed.
Lemma quiet_get_agent a : quiet (get_agent a).
Proof. unfold get_agent. quiet_step. Qed.
#[export] Hint Resolve quiet_modify_impl quiet_on_queues quiet_get_agent : mux_quiet.
Lemma quiet_ready a : quiet (agent_ready a).
Proof. unfold agent_ready. quiet_step. Qed.
#[export] Hint Resolve quiet_ready : mux_quiet.

Lemma quiet_lookup `{Crypto} `{System} buf r : quiet (lookup_agent buf r).
Proof.
  assert (Hu : forall l local b msg, quiet (find_by_ufrag l local b msg r)) by (intros l; induction l; cbn [find_by_ufrag]; quiet_step).
  assert (Ht : forall l tid, quiet (find_by_transaction l tid)) by (intros l; induction l; cbn [find_by_transaction]; quiet_step).
  unfold lookup_agent, lookup_request, defer_request. quiet_step.
  intros s1 y s2 tr Hr. by apply emit_run in Hr as (_ & ->).
Qed.

(** ** Steps that keep the connections *)

Abbreviation keeps_conns c := (forall s, keeps_at (on_states conns_kept) s c).

Lemma set_impl_conns m : keeps_conns (set_impl m).
Proof. intros s u s' tr Hr. apply set_impl_run in Hr as [-> _]. by apply conns_kept_store. Qed.
Lemma get_impl_conns : keeps_conns get_impl.
Proof. intros s u s' tr Hr. apply get_impl_run in Hr as (_ & -> & _). by apply conns_kept_store. Qed.
Lemma get_agent_conns a : keeps_conns (get_agent a).
Proof. intros s u s' tr Hr. apply get_agent_run in Hr as (_ & -> & _). by apply conns_kept_store. Qed.
Lemma insert_conns s s' a g g' : store s !! a = Some g -> (is_Some (ma_conn g) -> is_Some (ma_conn g')) ->
  store s' = <[a := g']> (store s) -> conns_kept s s'.
Proof.
  intros Hg Hc He b (h & Hh & Hb). unfold has_conn. rewrite He. destruct (decide (a = b)) as [<-|Hne].
  - exists g'. rewrite lookup_insert_eq. split; [done|]. apply Hc. congruence.
  - exists h. by rewrite lookup_insert_ne.
Qed.
Lemma on_agent_conns {A} a (c : M A) : keeps_conns (on_agent a c).
Proof. intros s u s' tr Hr. apply on_agent_run in Hr as (g & ag & tr' & Hg & _ & -> & _).
  by apply (insert_conns s _ a g (with_agent g ag)). Qed.
Lemma set_conn_conns a f : keeps_conns (set_conn a f).
Proof.
  intros s u s' tr Hr. unfold set_conn in Hr. rewrite bind_get in Hr. apply bind_run in Hr as (g & s1 & tr1 & tr2 & Hg & Hr & _).
  apply defined_run in Hg as (Hg & -> & _). apply bind_run in Hr as (c & s1 & tr3 & tr4 & Hc & Hr & _).
  apply defined_run in Hc as (Hc & -> & _). apply put_run in Hr as (-> & _).
  by apply (insert_conns s _ a g (with_conn g (Some (f c)))).
Qed.
#[local] Hint Resolve set_impl_conns get_impl_conns get_agent_conns on_agent_conns set_conn_conns : keeps.
Lemma modify_impl_conns f : keeps_conns (modify_impl f).
Proof. intros s. unfold modify_impl. keeps. Qed.
Lemma on_queues_conns f : keeps_conns (on_queues f).
Proof. intros s. unfold on_queues. keeps. Qed.
Lemma agent_ready_conns a : keeps_conns (agent_ready a).
Proof. intros s. unfold agent_ready. keeps. Qed.
#[local] Hint Resolve modify_impl_conns on_queues_conns agent_ready_conns : keeps.
Lemma ready_one_conns `{Crypto} `{System} x : keeps_conns (ready_one x).
Proof. intros s. unfold ready_one. keeps. Qed.
Lemma lookup_conns `{Crypto} `{System} buf r : keeps_conns (lookup_agent buf r).
Proof.
  assert (Hu : forall l local b msg, keeps_conns (find_by_ufrag l local b msg r)) by (intros l; induction l; intros local b msg s; cbn [find_by_ufrag]; keeps).
  assert (Ht : forall l tid, keeps_conns (find_by_transaction l tid)) by (intros l; induction l; intros tid s; cbn [find_by_transaction]; keeps).
  intros s. unfold lookup_agent, lookup_request, defer_request. keeps; try by apply conns_kept_store.
Qed.

(** A registry that reached its state in [n] steps. *)
Definition good `{CryptoLaws} (n : nat) (t : Z) (s : mux_t) (tr : list mux_event) : Prop :=
  exists L R, pinv t (next_request_id s) (r_impl (reg s)) L R /\ bounded (Z.of_nat n) (amap (r_impl (reg s))) /\
    history_ok (next_request_id s) L tr /\ live s L.

Lemma pinv_later `{CryptoLaws} clock nid nid' m L R : pinv clock nid m L R -> later_id nid nid' -> pinv clock nid' m L R.
Proof.
  intros [G1 G2 G3 G4 G5 G6 G7 G8 G9 G10 G11 G12 G13 G14 G15] [Hb Hn]. split; try done.
  intros x r Hx. destruct (G5 x r Hx). split; [done|]. lia.
Qed.

Lemma pinv_start `{CryptoLaws} t nid : 0 <= nid < 2 ^ 64 -> pinv t nid registry_impl_zero [] [].
Proof.
  intros Hn. split; try (intros; match goal with Hx : _ ∈ [] |- _ => by apply not_elem_of_nil in Hx end); try done.
  - apply no_queues_rep.
  - by apply new_map_ok; vm_compute; try lia.
  - constructor.
  - constructor.
  - by intros [? ?].
Qed.

Lemma good_start `{CryptoLaws} t s : r_impl (reg s) = registry_impl_zero -> 0 <= next_request_id s < 2 ^ 64 -> good 0 t s [].
Proof.
  intros Hz Hn. exists [], []. rewrite Hz. split; [by apply pinv_start|split; [by vm_compute|split; [split; [constructor|..]|split] ] ].
  - intros id Hid. by apply not_elem_of_nil in Hid.
  - intros id x r Hid. by apply not_elem_of_nil in Hid.
  - intros x r a Hx. by apply not_elem_of_nil in Hx.
  - rewrite Hz. intros r a (i & e & Hl & _). by apply new_map_absent in Hl.
Qed.

Section Steps.
Context `{CryptoLaws} `{System} `{Socket}.

(** A step to [s'] that kept the invariant and announced nothing. *)
Definition steps_to (n : nat) (s : mux_t) (tr : list mux_event) (c : MuxM unit) : Prop :=
  exists s' tr', c s = Some (tt, s', tr') /\ good (S n) now s' (tr ++ tr').

Lemma silent_step n s tr L (c : MuxM unit) s' tr' L' R' :
  bounded (Z.of_nat n) (amap (r_impl (reg s))) -> history_ok (next_request_id s) L tr ->
  c s = Some (tt, s', tr') -> pinv now (next_request_id s') (r_impl (reg s')) L' R' ->
  grown (amap (r_impl (reg s))) (amap (r_impl (reg s'))) ->
  evolves (next_request_id s) L (next_request_id s') L' -> announced tr' = [] -> live s' L' -> steps_to n s tr c.
Proof.
  intros Hb Hh Hr Hi Hg He Ha Hl. exists s', tr'. split; [done|]. exists L', R'. split; [done|]. split; [|split; [|done] ].
  - rewrite Nat2Z.inj_succ. by eapply bounded_grown.
  - by eapply history_quiet.
Qed.

(** A step whose result is not used. *)
Lemma then_ret {A} (c : MuxM A) x s s' tr : c s = Some (x, s', tr) -> (_ ← c; mret tt) s = Some (tt, s', tr).
Proof. intros Hc. rewrite (bind_some _ _ _ _ _ _ Hc). change (Some (tt, s', tr ++ []) = Some (tt, s', tr)). by rewrite app_nil_r. Qed.

Lemma staying_sublist L : staying L `sublist_of` L.
Proof. apply sublist_filter. Qed.

Context (n : nat) (t : Z) (s : mux_t) (tr : list mux_event) (L : entries_t) (R : list ptr).
Context (Hinv : pinv t (next_request_id s) (r_impl (reg s)) L R) (Htime : t <= now).
Context (Hbound : bounded (Z.of_nat n) (amap (r_impl (reg s)))) (Hhist : history_ok (next_request_id s) L tr).
Context (Hmax : Z.of_nat n < 2 ^ 27) (Hlive : live s L).

Lemma nid_bound : 0 <= next_request_id s < 2 ^ 64.
Proof using Hinv. exact (pi_nid _ _ _ _ _ Hinv). Qed.

Lemma small_map : MuxMap.map_size (amap (r_impl (reg s))) * 2 <= INT_MAX.
Proof using Hbound Hmax. unfold bounded in Hbound. unfold INT_MAX. lia. Qed.

(** The agent that a lookup finds is in memory. *)
Lemma found_live buf r res s' L' : lookup_outcome s buf r L res s' L' -> forall a, res = Some a -> has_conn s a.
Proof using Hlive.
  intros Ho a Ha. destruct (lo_agent _ _ _ _ _ _ _ Ho a Ha) as [Hm|[ (_ & (g & ret & msg & l1 & l2 & Hg & Hrd & _) & _)|(g & ret & msg & i & ag & tr0 & Hg & Hrd & _)] ].
  - by eapply (lv_addresses _ _ Hlive).
  - exists g. split; [done|]. unfold is_ready in Hrd. by destruct (ma_conn g).
  - exists g. split; [done|]. unfold is_ready in Hrd. by destruct (ma_conn g).
Qed.

(** What follows the lookup. *)
Definition give (a : option agent_ptr) (buf : list Z) (r : addr_record_t) : MuxM unit :=
  ready ← agent_ready a;
  match a, (ready : bool) with
  | Some a, true =>
      ret ← on_agent a (agent_conn_recv buf r);
      if negb (ret =? 0) then set_conn a finish else set_conn a (wake_at now)
  | _, _ => mret tt
  end.

Lemma set_conn_defined a f s1 : has_conn s1 a -> exists st, set_conn a f s1 = Some (tt, with_store s1 st, []).
Proof.
  intros (g & Hg & c & Hc). unfold set_conn. rewrite bind_get, (bind_defined _ _ _ _ Hg), (bind_defined _ _ _ _ Hc). by eexists.
Qed.

Lemma give_run a buf r s1 : (forall x, a = Some x -> has_conn s1 x /\ receives s1 x buf r) ->
  exists st tr', give a buf r s1 = Some (tt, with_store s1 st, tr').
Proof.
  intros Ha. unfold give. destruct a as [a|].
  2: { exists (store s1), []. rewrite (bind_quiet _ _ s1 false s1) by done. by destruct s1. }
  destruct (Ha a eq_refl) as [ (g & Hg & Hc) Hrecv]. rewrite (bind_quiet _ _ s1 (is_ready g) s1)
    by (unfold agent_ready, get_agent; rewrite (bind_quiet _ _ s1 g s1); [done|by rewrite bind_get, Hg]).
  destruct (is_ready g) eqn:Hrd; [|exists (store s1), []; by destruct s1].
  destruct (Hrecv g Hg Hrd) as [ [ [v ag] tr1] Hv]. set (s2 := with_store s1 (<[a := with_agent g ag]> (store s1))).
  rewrite (bind_some _ _ s1 v s2 (AgentDid a <$> tr1)) by (unfold on_agent; by rewrite Hg, Hv).
  assert (Hc2 : has_conn s2 a) by (exists (with_agent g ag); split; [apply lookup_insert_eq|done]).
  destruct (negb (v =? 0)); (edestruct (set_conn_defined a) as [st ->]; [exact Hc2|]; by eexists _, _).
Qed.

Lemma give_conns a buf r : keeps_conns (give a buf r).
Proof. intros s1. unfold give. keeps. Qed.
Lemma quiet_give a buf r : quiet (give a buf r).
Proof. unfold give, set_conn. quiet_step. Qed.

Lemma arrive_step buf r : agents_ok s -> op_ok s (Arrive buf r) -> steps_to n s tr (perform_op (Arrive buf r)).
Proof using Hinv Htime Hbound Hhist Hmax Hlive.
  intros Hag (Hb & Hk & Hrecv). destruct (lookup_agent_spec t s L R buf r Hinv Htime Hag Hk Hb small_map) as (res & s' & L' & tr' & Hr & Hi & Ho).
  pose proof (later_next _ _ nid_bound (lo_next _ _ _ _ _ _ _ Ho)) as Hl.
  pose proof (lookup_conns buf r s _ _ _ Hr) as Hkept. unfold on_states in Hkept.
  destruct (give_run res buf r s') as (st & tr2 & Hgive).
  { intros a ->. split; [by apply Hkept, (found_live _ _ _ _ _ Ho)|by eapply Hrecv]. }
  pose proof (give_conns res buf r s' _ _ _ Hgive) as Hkept2. unfold on_states in Hkept2.
  assert (Hrun : perform_op (Arrive buf r) s = Some (tt, with_store s' st, tr' ++ tr2)).
  { change (perform_op (Arrive buf r)) with ('(a, b) ← lookup_agent buf r; give a b r). by rewrite (bind_some _ _ _ _ _ _ Hr), Hgive. }
  eapply (silent_step n s tr L); [done|done|exact Hrun|exact Hi|apply (lo_size _ _ _ _ _ _ _ Ho)| | |].
  - destruct (lo_pending _ _ _ _ _ _ _ Ho) as [-> |(x & local & remote & _ & _ & _ & Hd & ->)].
    + rewrite <- (app_nil_r L) at 2. apply evolves_app; [done|]. intros x q Hx. by apply not_elem_of_nil in Hx.
    + apply evolves_app; [done|]. intros y q Hy. apply list_elem_of_singleton in Hy as [= -> ->]. split; [|done].
      unfold deferral_of in Hd. repeat (case_if_in Hd; [done|]). lia.
  - unfold announced. rewrite omap_app. fold (announced tr') (announced tr2). by rewrite (quiet_lookup _ _ _ _ _ _ Hr), (quiet_give _ _ _ _ _ _ _ Hgive).
  - eapply live_step; [exact Hlive|by transitivity s'| |].
    + destruct (lo_pending _ _ _ _ _ _ _ Ho) as [-> |(x & local & remote & _ & _ & _ & _ & ->)]; [by apply within_sublist|].
      apply within_app. intros y q Hy. by apply list_elem_of_singleton in Hy as [= -> ->].
    + intros r' a Ha. destruct (lo_map _ _ _ _ _ _ _ Ho r' a Ha) as [?|(_ & Hres & _)]; [left; by exists r'|right]. by eapply found_live.
Qed.
(** A step that only changes the requests. *)
Lemma moves_step (c : MuxM unit) s' tr' L' R' : c s = Some (tt, s', tr') -> moves s s' L' R' ->
  evolves (next_request_id s) L (next_request_id s) L' -> agents_within (has_conn s) L L' -> announced tr' = [] -> steps_to n s tr c.
Proof using Hbound Hhist Hlive.
  intros Hr (Ho & Hn & Ham & Hi) He Hw Ha. eapply (silent_step n s tr L c s' tr' L' R'); try done.
  - by rewrite Hn.
  - rewrite Ham. apply grown_refl.
  - by rewrite Hn.
  - eapply live_step; [exact Hlive|by apply conns_kept_store, Ho|done|]. rewrite Ham. intros r a Hr'. left. by exists r.
Qed.

Lemma within_staying P L' : agents_within P (staying L) L' -> agents_within P L L'.
Proof. intros Hw. eapply within_trans; [|exact Hw]. apply within_sublist, staying_sublist. Qed.

Lemma evolves_staying L' : evolves (next_request_id s) (staying L) (next_request_id s) L' ->
  evolves (next_request_id s) L (next_request_id s) L'.
Proof using Hinv.
  intros He. eapply evolves_trans; [exact nid_bound| |exact He]. apply evolves_sublist; [exact nid_bound|apply staying_sublist].
Qed.

Lemma sublist_middle {A} (l1 l2 : list A) x : l1 ++ l2 `sublist_of` l1 ++ x :: l2.
Proof. apply sublist_app; [done|]. by apply sublist_cons. Qed.

Lemma ready_step : op_ok s Ready -> steps_to n s tr (perform_op Ready).
Proof using Hinv Htime Hbound Hhist Hmax Hlive.
  intros Htk. destruct (expire_moves t s L R Hinv Htime) as (s1 & Hr1 & Hm1). destruct Hm1 as (Ho & Hn & Ham & Hi) eqn:E. clear E.
  cbn [perform_op]. assert (Hrun : forall s' tr', ready_first s1 = Some (tt, s', tr') ->
    perform_op Ready s = Some (tt, s', tr')) by (intros s' tr' Hr; cbn [perform_op]; by rewrite (bind_quiet _ _ _ _ _ Hr1)).
  pose proof (pi_rep _ _ _ _ _ Hi) as Hrep.
  assert (Hfirst : first_of (ready_ends (queues (r_impl (reg s1)))) = head R) by exact (proj1 (proj2 (sh_list _ _ (rep_shape _ _ _ Hrep) READY))).
  unfold ready_first in Hrun. setoid_rewrite bind_get_impl in Hrun. rewrite Hfirst in Hrun.
  assert (HR : R = [] \/ exists x R', R = x :: R') by (destruct R; [by left|right; by eexists _, _]).
  destruct HR as [HR|(x & R' & HR)]; rewrite HR in Hrun, Hi; cbn [head] in Hrun.
  { eapply (moves_step _ s1 [] (staying L) []); [by apply Hrun|done| | |done]; [|apply within_sublist, staying_sublist].
    apply evolves_staying, evolves_sublist; [exact nid_bound|done]. }
  rewrite <- Hn in Hi. destruct (ready_one_spec s1 (staying L) x R' Hi) as (s' & L' & tr' & Hr & Hi' & Hout & Htr).
  { rewrite Ham. apply small_map. }
  { intros r Hx a Ha. assert (HxL : (x, r) ∈ L) by (by eapply elem_of_sublist, staying_sublist).
    destruct (rep_lookup _ _ _ (pi_rep _ _ _ _ _ Hinv) x r HxL) as (nd & Hnd & Hc).
    destruct (lv_requests _ _ Hlive x r a HxL Ha) as (g & Hg & _). exists g. rewrite (proj1 Ho). split; [done|].
    specialize (Htk x nd a Hnd). rewrite Hc in Htk. by apply Htk. }
  destruct (ry_array _ _ _ _ _ Hout) as (_ & _ & Hn'). destruct (ry_removed _ _ _ _ _ Hout) as (L1 & r & L2 & HL & ->).
  pose proof (ready_one_conns x s1 _ _ _ Hr) as Hkept. unfold on_states in Hkept.
  eapply (silent_step n s tr L); [done|done|by apply Hrun|exact Hi'|rewrite <- Ham; apply (ry_size _ _ _ _ _ Hout)| | |].
  - rewrite Hn', Hn. apply evolves_staying. rewrite HL. apply evolves_sublist; [exact nid_bound|apply sublist_middle].
  - destruct Htr as [-> |(a & tr0 & ->)]; [done|]. clear. unfold announced. induction tr0 as [|e l IH]; [done|exact IH].
  - eapply live_step; [exact Hlive|by transitivity s1; [apply conns_kept_store, Ho|]|apply within_staying; rewrite HL; apply within_sublist, sublist_middle|].
    intros r' a Ha. destruct (ry_map _ _ _ _ _ Hout r' a Ha) as [Hm|(q & g & _ & _ & _ & _ & Hg & Hrd)].
    + left. exists r'. by rewrite <- Ham.
    + right. exists g. rewrite <- (proj1 Ho). split; [done|]. unfold is_ready in Hrd. by destruct (ma_conn g).
Qed.

Lemma announce_step : steps_to n s tr (perform_op Announce).
Proof using Hinv Htime Hbound Hhist Hmax Hlive.
  destruct (dispatch_one_spec t s L R Hinv Htime) as (b & s' & L' & tr' & Hr & Ho & Hn & Ham & Hi & Hcase).
  assert (Hm : moves s s' L' R) by done. pose proof (then_ret _ _ _ _ _ Hr) as Hrun.
  destruct Hcase as [(_ & -> & -> & _)|(cb & L1 & x & r & L2 & _ & _ & HL & Hnt & _ & Hcase)].
  { eapply moves_step; [exact Hrun|exact Hm| |apply within_sublist, staying_sublist|done].
    apply evolves_staying, evolves_sublist; [exact nid_bound|done]. }
  destruct (getnameinfo (addr (src r))) as [ [host serv]|].
  2: { destruct Hcase as [-> ->]. eapply moves_step; [exact Hrun|exact Hm|apply evolves_staying|apply within_staying|done]; rewrite HL;
         [apply evolves_sublist; [exact nid_bound|apply sublist_middle]|apply within_sublist, sublist_middle]. }
  destruct Hcase as [-> ->]. eexists s', _. split; [exact Hrun|]. exists (L1 ++ (x, set_notified r) :: L2), R. rewrite Hn. split; [done|].
  split; [rewrite Ham; by eapply bounded_le; [exact Hbound|lia]|].
  assert (HxL : (x, r) ∈ L) by (eapply elem_of_sublist; [|apply staying_sublist]; rewrite HL; set_solver).
  destruct (pi_id _ _ _ _ _ Hinv x r HxL) as [Hpos Hlt].
  split.
  2: { eapply live_step; [exact Hlive|by apply conns_kept_store, Ho| |rewrite Ham; intros q a Ha; left; by exists q].
       apply within_staying. rewrite HL. apply within_replace. by left. }
  apply (history_announced (next_request_id s) L); [exact Hhist| | |exact Hpos|exact Hlt|].
  - assert (He : evolves (next_request_id s) (staying L) (next_request_id s) (L1 ++ (x, set_notified r) :: L2))
      by (rewrite HL; apply evolves_replace; [exact nid_bound|done|done]).
    apply evolves_staying in He as [_ He]. intros y q Hy. destruct (He y q Hy) as [?|[Hz Hq] ]; [done|].
    destruct (pi_id _ _ _ _ _ Hi y q Hy) as [_ [?|?] ]; lia.
  - by exists x, r.
  - intros y q Hy Hq. destruct (numbered_unique _ _ _ _ _ x (set_notified r) y q Hi) as [_ ->]; [set_solver|done|done|done].
Qed.

Lemma verify_step id pwd : steps_to n s tr (perform_op (VerifyRequest id pwd)).
Proof using Hinv Htime Hbound Hhist Hlive.
  destruct (verify_request_spec t s L R id pwd Hinv Htime) as (ret & s' & L' & Hr & Hm & Hout).
  eapply moves_step; [by eapply then_ret|exact Hm|apply evolves_staying|apply within_staying|done];
    destruct Hout as [(_ & -> & _)|(L1 & x & r & L2 & [-> _] & Hnt & _ & [(_ & -> & _)|(_ & -> & _)])].
  - apply evolves_sublist; [exact nid_bound|done].
  - apply evolves_sublist; [exact nid_bound|apply sublist_middle].
  - apply evolves_replace; [exact nid_bound|done|done].
  - by apply within_sublist.
  - apply within_sublist, sublist_middle.
  - apply within_replace. by left.
Qed.

Lemma attach_step id a : is_Some (store s !! a) -> steps_to n s tr (perform_op (AttachRequest id a)).
Proof using Hinv Htime Hbound Hhist Hlive.
  intros [g Hg]. destruct (attach_request_spec t s L R id a g Hinv Htime Hg) as (ret & s' & L' & R' & tr' & Hr & Hm & Hout).
  eapply moves_step; [by eapply then_ret|exact Hm| | |].
  - apply evolves_staying. destruct Hout as [(_ & -> & _)|(L1 & x & r & L2 & [-> _] & _ & _ & _ & _ & _ & -> & _)];
      [apply evolves_sublist; [exact nid_bound|done]|apply evolves_replace; [exact nid_bound|done|done]].
  - apply within_staying. destruct Hout as [(_ & -> & _)|(L1 & x & r & L2 & [-> _] & _ & _ & Hfit & _ & _ & -> & _)]; [by apply within_sublist|].
    apply within_replace. intros b [= <-]. right. exists g. split; [done|]. unfold agent_fits, is_ready in Hfit.
    destruct (ma_conn g); [done|]. by rewrite andb_false_r in Hfit.
  - assert (Hq : quiet (conn_mux_attach_request id a)); [|by eapply Hq].
    unfold conn_mux_attach_request, expire_pending, attach_at, conn_mux_interrupt_registry. quiet_step.
    intros s1 y s2 tr1 Hr'. by apply emit_run in Hr' as (_ & ->).
Qed.

Lemma reject_step id : steps_to n s tr (perform_op (RejectRequest id)).
Proof using Hinv Htime Hbound Hhist Hlive.
  destruct (reject_spec now s L R id (pinv_clock _ _ _ _ _ _ Hinv Htime)) as (ret & s' & L' & Hr & Ho & Hn & Ham & Hi & Hcase).
  assert (Hsub : L' `sublist_of` L) by (destruct Hcase as [(_ & -> & _)|(_ & L1 & x & r & L2 & [-> _] & _ & ->)]; [done|apply sublist_middle]).
  eapply (moves_step _ s'); [by eapply then_ret|by repeat (split; [done|])|by apply evolves_sublist; [exact nid_bound|]|by apply within_sublist|done].
Qed.

Lemma listener_step o : match o with ListenPending _ _ | BeginStop | FinishStop | Listen _ => True | _ => False end ->
  steps_to n s tr (perform_op o).
Proof using Hinv Htime Hbound Hhist Hlive.
  pose proof (pinv_clock _ _ _ _ _ _ Hinv Htime) as Hinv'.
  assert (Hstay : evolves (next_request_id s) L (next_request_id s) L) by (apply evolves_sublist; [exact nid_bound|done]).
  destruct o as [| | | | | |config cb| | |cb|]; intros Ho; try done.
  - destruct (listen_pending_spec s L R config cb Hinv') as (ret & s' & Hr & Hm & _).
    by eapply moves_step; [by eapply then_ret|exact Hm| |apply within_sublist|].
  - destruct (begin_stop_spec s L R Hinv') as (ret & s' & L' & Hr & Hm & [(_ & ->)|(_ & _ & _ & _ & _ & ->)]).
    + eapply (moves_step _ s _ L R); [by eapply then_ret|by apply moves_stay|done|by apply within_sublist|done].
    + eapply moves_step; [by eapply then_ret|exact Hm|apply evolves_sublist; [exact nid_bound|apply sublist_filter]|apply within_sublist, sublist_filter|done].
  - assert (Hr : exists m, perform_op FinishStop s = Some (tt, with_impl s m, [Woken]) /\ (amap m = amap (r_impl (reg s)) /\ pinv now (next_request_id s) m L R)).
    { cbn [perform_op]. unfold conn_mux_finish_stop_pending. rewrite bind_modify_impl. eexists. split; [done|split; [done|by eapply pinv_same] ]. }
    destruct Hr as (m & Hr & Ham & Hi). eapply (moves_step _ _ [Woken] L R); [exact Hr|done|exact Hstay|by apply within_sublist|done].
  - assert (Hr : exists ret m tr', conn_mux_listen cb s = Some (ret, with_impl s m, tr') /\ (amap m = amap (r_impl (reg s)) /\ pinv now (next_request_id s) m L R) /\ announced tr' = []).
    { unfold conn_mux_listen. destruct cb as [cb|].
      - rewrite bind_get_impl. case_if.
        + eexists _, (r_impl (reg s)), _. by rewrite with_impl_id.
        + eexists _, _, _. split; [done|]. split; [split; [done|by eapply pinv_same]|done].
      - unfold conn_mux_stop_listen. rewrite bind_modify_impl. eexists _, _, _. split; [done|]. split; [split; [done|by eapply pinv_same]|done]. }
    destruct Hr as (ret & m & tr' & Hr & [Ham Hi] & Ha). eapply (moves_step _ _ tr' L R); [by eapply then_ret|done|done|by apply within_sublist|done].
Qed.

Lemma cleanup_step a g : store s !! a = Some g -> is_Some (ma_conn g) -> steps_to n s tr (perform_op (Cleanup a)).
Proof using Hinv Htime Hbound Hhist Hlive.
  intros Hg Hc. destruct (cleanup_spec now s L R a g (pinv_clock _ _ _ _ _ _ Hinv Htime) Hg Hc) as (s' & R' & Hr & Hi & Has & Hsz & Hct & Hn & Hst).
  exists s', [Woken]. split; [exact Hr|]. eexists _, R'. split; [exact Hi|]. split.
  - unfold bounded in *. lia.
  - split; [eapply history_quiet; [exact Hhist| |done]; rewrite Hn; apply evolves_sublist; [exact nid_bound|apply sublist_filter]|].
    assert (Hoth : forall b, b <> a -> has_conn s b -> has_conn s' b)
      by (intros b Hb (h & Hh & Hbc); exists h; rewrite Hst, lookup_insert_ne by congruence; done).
    split.
    + intros x r b Hx Hb. apply list_elem_of_filter in Hx as [Hf Hx]. apply bool_decide_eq_false in Hf. cbn in Hf.
      apply Hoth; [congruence|]. by eapply (lv_requests _ _ Hlive).
    + intros r b Hb. apply Has in Hb as [Hb Hne]. apply Hoth; [done|]. by eapply (lv_addresses _ _ Hlive).
Qed.

Lemma op_step o : agents_ok s -> op_ok s o -> steps_to n s tr (perform_op o).
Proof using Hinv Htime Hbound Hhist Hmax Hlive.
  intros Hag Hop. destruct o; try (by apply listener_step).
  - by apply arrive_step.
  - by apply ready_step.
  - apply announce_step.
  - apply verify_step.
  - by apply attach_step.
  - apply reject_step.
  - destruct Hop as (g & ? & ?). by eapply cleanup_step.
Qed.
End Steps.

Lemma history_refresh nid nid' L tr : history_ok nid L tr -> later_id nid nid' -> history_ok nid' L tr.
Proof.
  intros Hh Hl. rewrite <- (app_nil_r tr). eapply history_quiet; [exact Hh| |done]. rewrite <- (app_nil_r L) at 2.
  apply evolves_app; [done|]. intros x r Hx. by apply not_elem_of_nil in Hx.
Qed.

Lemma live_refresh s w L : live s L -> agents_stay s w -> live (refresh s w) L.
Proof. intros [H1 H2] Hs. split; [intros x r a Hx Ha; by apply Hs, (H1 x r)|intros r a Ha; by apply Hs, (H2 r)]. Qed.

Lemma reaches_good `{CryptoLaws} n t s tr : reaches n t s tr -> Z.of_nat n <= 2 ^ 27 -> good n t s tr.
Proof.
  induction 1 as [t s Hz Hn|n t s tr sys sock w o s' tr' _ IH Ht Hl Hst Hag Hop Hrun]; intros Hb; [by apply good_start|].
  destruct IH as (L & R & Hinv & Hbd & Hh & Hlv); [lia|].
  destruct (op_step n t (refresh s w) tr L R) with (o := o) as (s1 & tr1 & Hrun1 & Hg); try done.
  - by eapply pinv_later.
  - by eapply history_refresh.
  - lia.
  - by apply live_refresh.
  - rewrite Hrun in Hrun1. by injection Hrun1 as <- <-.
Qed.

(** C11: in every state a registry of the mux mode reaches, by datagrams, hand-overs,
    announcements, decisions of the application, listeners that come and go and
    agents that leave, in any order and at times that do not go back: the lists and
    tables of pending requests represent one sequence of at most 4096 requests with
    different numbers; no request was announced to the application twice; the agents
    of accepted requests and of known addresses are in memory and have their
    connections, however agents left before; and every further operation runs to its
    end without undefined behaviour.  Between the operations agents may act, come and
    go, but none is freed while it has its connection, which [conn_mux_cleanup] takes
    ([agents_stay]), and those in the array of the registry are in memory and their
    TURN tables sound ([agents_ok]); what is assumed of an operation is that the
    datagram is of bytes from an IPv4 or IPv6 address, that the application's agent is
    in memory, that the agent that leaves has its connection, and that the code of a
    ready agent is defined on the datagram it is given ([op_ok]).  The number of
    operations is below 2^27. *)
Theorem mux_requests_safe `{CryptoLaws} n t s tr : reaches n t s tr -> Z.of_nat n < 2 ^ 27 ->
  (exists L R, rep (queues (r_impl (reg s))) L R /\ zlen L <= 4096 /\ pending_count (queues (r_impl (reg s))) = zlen L /\
     NoDup ((fun e => pr_id e.2) <$> L) /\
     (forall x r a, (x, r) ∈ L -> pr_agent r = Some a -> has_conn s a) /\
     (forall r a, MuxMap.assoc (amap (r_impl (reg s))) r a -> has_conn s a)) /\
  NoDup (announced tr) /\
  forall (sys : System) (sock : Socket) w o, t <= now -> later_id (next_request_id s) (w_next w) ->
    agents_stay s w -> agents_ok (refresh s w) -> op_ok (refresh s w) o ->
    exists s' tr', perform_op o (refresh s w) = Some (tt, s', tr') /\ reaches (S n) now s' (tr ++ tr').
Proof.
  intros Hr Hn. destruct (reaches_good n t s tr Hr) as (L & R & Hinv & Hbd & Hh & Hlv); [lia|]. split; [|split; [apply Hh|] ].
  - exists L, R. split; [apply (pi_rep _ _ _ _ _ Hinv)|]. split; [apply (pi_limit _ _ _ _ _ Hinv)|].
    split; [apply (rep_count _ _ _ (pi_rep _ _ _ _ _ Hinv))|]. split; [apply (pi_ids _ _ _ _ _ Hinv)|].
    split; [apply (lv_requests _ _ Hlv)|apply (lv_addresses _ _ Hlv)].
  - intros sys sock w o Ht Hl Hst Hag Hop.
    destruct (op_step n t (refresh s w) tr L R) with (o := o) as (s1 & tr1 & Hrun1 & Hg); try done.
    + by eapply pinv_later.
    + by eapply history_refresh.
    + by apply live_refresh.
    + exists s1, tr1. split; [done|]. by eapply reaches_step.
Qed.

(** C12: a datagram is given to an agent only if its source is already one of the
    agent's addresses, or if it is a Binding request with the agent's user name whose
    HMAC is valid under the agent's password, or if it is a response to a request of
    the agent; only the second makes its source an address of the agent, and then only
    when requests need not be announced first.  No address is taken from an agent.
    The lookup always ends, and does not change the datagram. *)
Theorem mux_lookup_authenticates `{CryptoLaws} `{System} n t s tr w buf r :
  reaches n t s tr -> Z.of_nat n < 2 ^ 27 -> t <= now -> later_id (next_request_id s) (w_next w) ->
  agents_ok (refresh s w) -> bytes buf -> known r ->
  let m := r_impl (reg s) in
  exists res s' tr', lookup_agent buf r (refresh s w) = Some ((res, buf), s', tr') /\
    (forall a, res = Some a ->
      MuxMap.assoc (amap m) r a \/
      (pending_required m = false /\ vouches (refresh s w) a buf /\ MuxMap.assoc (amap (r_impl (reg s'))) r a) \/
      answers (refresh s w) a buf) /\
    (forall r' a, MuxMap.assoc (amap (r_impl (reg s'))) r' a -> MuxMap.assoc (amap m) r' a \/
      (same_record true r r' /\ res = Some a /\ pending_required m = false /\ vouches (refresh s w) a buf)) /\
    (forall r' a, MuxMap.assoc (amap m) r' a -> MuxMap.assoc (amap (r_impl (reg s'))) r' a).
Proof.
  intros Hr Hn Ht Hl Hag Hb Hk m. destruct (reaches_good n t s tr Hr) as (L & R & Hinv & Hbd & Hh); [lia|].
  destruct (lookup_agent_spec t (refresh s w) L R buf r) as (res & s' & L' & tr' & Hrun & _ & [G1 G2 G3 _ _ _ _]); try done.
  - by eapply pinv_later.
  - unfold bounded in Hbd. unfold INT_MAX. cbn [reg refresh r_impl]. lia.
  - exists res, s', tr'. split; [done|]. by split_and!.
Qed.

(** C24: the application verifies a pending request with a password.  The result is 0
    exactly when the request was announced, not verified before and not over its
    time, its source belongs to no agent, and the HMAC of the datagram that was kept
    is valid under the password: then the request is kept with this password.  A
    request that fails the check is forgotten.  No other request is touched. *)
Theorem mux_verify_correct `{CryptoLaws} `{System} t s L R id pwd :
  pinv t (next_request_id s) (r_impl (reg s)) L R -> t <= now ->
  exists ret s' L', conn_mux_verify_request id pwd s = Some (ret, s', []) /\
    pinv now (next_request_id s') (r_impl (reg s')) L' R /\
    verify_outcome (amap (r_impl (reg s))) (staying L) id pwd ret L' /\
    (ret = 0 <-> exists x r, (x, r) ∈ L /\ pr_id r = id /\ stays now r = true /\ notified r = true /\ verified r = false /\
       absent (amap (r_impl (reg s))) (src r) /\ authenticated (pr_data r) pwd).
Proof.
  intros Hinv Ht. destruct (verify_request_spec t s L R id pwd Hinv Ht) as (ret & s' & L' & Hrun & (_ & Hn & _ & Hi) & Hout).
  exists ret, s', L'. split; [done|]. split; [by rewrite Hn|]. split; [done|].
  assert (Hst : forall x r, (x, r) ∈ staying L <-> (x, r) ∈ L /\ stays now r = true).
  { intros x r. unfold staying. rewrite list_elem_of_filter. tauto. }
  destruct Hout as [(-> & _ & Hno)|(L1 & x & r & L2 & [HL Hid] & Hnt & Hv & Hc)].
  - split; [done|]. intros (x & r & Hx & Hid & Hs & Hnt & Hv & _). destruct (Hno x r); [by apply Hst|done|congruence|congruence].
  - assert (Hx : (x, r) ∈ L /\ stays now r = true) by (apply Hst; rewrite HL; set_solver). destruct Hx as [Hx Hs].
    destruct Hc as [(-> & _ & Hno)|(-> & _ & Ha & Hau)].
    + split; [done|]. intros (y & q & Hy & Hq & _ & _ & _ & Ha & Hau). destruct Hno.
      destruct (numbered_unique _ _ _ _ _ x r y q Hinv Hx Hy) as [_ ->]; [congruence|done].
    + split; [|done]. intros _. by exists x, r.
Qed.

(** C23: the application gives a pending request to an agent.  When the result is 0,
    the request was verified, its HMAC is valid under the agent's own password and
    its user names are those of the agent and of its peer, its source belonged to no
    agent and to no accepted request, and the request is now the last of the
    accepted ones; otherwise nothing changed but that requests over their time left. *)
Theorem mux_attach_authenticates `{CryptoLaws} `{System} `{Socket} t s L R id a g :
  pinv t (next_request_id s) (r_impl (reg s)) L R -> t <= now -> store s !! a = Some g ->
  exists ret s' L' R' tr, conn_mux_attach_request id a s = Some (ret, s', tr) /\
    pinv now (next_request_id s') (r_impl (reg s')) L' R' /\
    if ret =? 0 then
      exists L1 x r L2, staying L = L1 ++ (x, r) :: L2 /\ pr_id r = id /\ L' = L1 ++ (x, set_agent a r) :: L2 /\ R' = R ++ [x] /\
        pr_agent r = None /\ is_ready g = true /\ absent (amap (r_impl (reg s))) (src r) /\
        (forall y q, (y, q) ∈ L' -> is_Some (pr_agent q) -> same_record true (src r) (src q) -> y = x) /\
        local_ufrag r = ice_ufrag (a_local (ma_agent g)) /\ remote_ufrag r = ice_ufrag (a_remote (ma_agent g)) /\
        authenticated (pr_data r) (ice_pwd (a_local (ma_agent g)))
    else L' = staying L /\ R' = R.
Proof.
  intros Hinv Ht Hg. destruct (attach_request_spec t s L R id a g Hinv Ht Hg) as (ret & s' & L' & R' & tr & Hrun & (_ & Hn & _ & Hi) & Hout).
  exists ret, s', L', R', tr. split; [done|]. split; [by rewrite Hn|].
  destruct Hout as [(Hr & -> & ->)|(L1 & x & r & L2 & [HL Hid] & Hv & Hu & Hfit & Habs & -> & -> & ->)].
  { by rewrite (proj2 (Z.eqb_neq _ _) Hr). }
  cbn [Z.eqb]. exists L1, x, r, L2.
  assert (Hx : (x, r) ∈ L) by (eapply elem_of_sublist; [|apply (staying_sublist L)]; rewrite HL; set_solver).
  unfold agent_fits in Hfit. rewrite !andb_true_iff, !bool_decide_eq_true in Hfit. destruct Hfit as [ [ [ [_ Hrd] Hl] Hre] Hp].
  do 4 (split; [done|]). split; [unfold unattached in Hu; by apply bool_decide_eq_true in Hu|]. do 2 (split; [done|]).
  split; [|rewrite <- Hl, <- Hre, Hp; do 2 (split; [done|]); by apply (ro_verified _ (pi_request _ _ _ _ _ Hinv x r Hx))].
  intros y q Hy [b Hb] Hs. symmetry. apply (pi_sources _ _ _ _ _ Hi x (set_agent a r) y q); [set_solver|done|done| |done].
  unfold attached, unattached. by rewrite Hb.
Qed.

(** ** Examples *)

(** Alice's first check on its way to Bob, who uses the mux mode. *)
Definition mux_session : option (juice_agent_t * list Z) :=
  '(alice, bob) ← session_start;
  '(_, alice, bob, _) ← net_step 1100 (fun _ _ => agent_bookkeeping) alice bob;
  match peer_inbox bob with (_, d) :: _ => Some (peer_agent bob, d) | [] => None end.
Definition mux_bob : juice_agent_t := match mux_session with Some (b, _) => b | None => peer_agent (new_peer bob_addr 50) end.
Definition mux_check : list Z := match mux_session with Some (_, d) => d | None => [] end.

Definition example_socket : Socket :=
  {| inbox := []; recv_fails := false; sendto := fun _ d => zlen d; sockerrno := 0; set_diffserv := fun _ => 0;
     sendto_self := 0; socket_addrs := (1, [bob_addr]); on_thread := false |}.

Definition bob_entry : mux_agent_t :=
  {| ma_agent := mux_bob; ma_conn := Some {| next_timestamp := 0; conn_finished := false |}; ma_registered := true;
     conn_index := 0 |}.
Definition example_world (nid : Z) : world :=
  {| w_store := {[ 1%positive := bob_entry ]}; w_agents := [None; Some 1%positive]; w_count := 1; w_next := nid |}.
Definition example_start : mux_t :=
  {| reg := {| r_impl := registry_impl_zero; agents := []; agents_count := 0 |}; store := ∅; next_request_id := 1 |}.

(** The operations of a list, a millisecond apart. *)
Definition example_run (t : Z) (o : mux_op) (s : mux_t) : option (unit * mux_t * list mux_event) :=
  @perform_op sum_crypto (host_system bob_addr t) example_socket o (refresh s (example_world (next_request_id s))).
Fixpoint example_ops (t : Z) (l : list mux_op) (s : mux_t) (tr : list mux_event) : option (mux_t * list mux_event) :=
  match l with
  | [] => Some (s, tr)
  | o :: l => match example_run (t + 1) o s with Some (_, s', tr') => example_ops (t + 1) l s' (tr ++ tr') | None => None end
  end.

Lemma no_turn_servers (l : list agent_stun_entry_t) : forallb (fun x => negb (bool_decide (is_Some (e_turn x)))) l = true ->
  forall i x t, l !! i = Some x -> e_turn x <> Some t.
Proof.
  intros Hno i x t Hx Ht. rewrite forallb_forall in Hno. apply list_elem_of_lookup_2, list_elem_of_In in Hx.
  specialize (Hno x Hx). rewrite Ht, bool_decide_eq_true_2 in Hno; [discriminate Hno|by eexists].
Qed.

Lemma one_agent_ok (b : mux_agent_t) (s : mux_t) (w : world) :
  forallb (fun x => negb (bool_decide (is_Some (e_turn x)))) (entries (ma_agent b)) = true ->
  w_store w = {[ 1%positive := b ]} -> w_agents w = [None; Some 1%positive] -> agents_ok (refresh s w).
Proof.
  intros Hno Hst Har. split; cbn [refresh reg agents store]; rewrite Hst.
  - intros a Ha. rewrite Har, !elem_of_cons in Ha. destruct Ha as [?|[ [= ->]|Ha] ]; [done| |by apply not_elem_of_nil in Ha].
    exists b. apply lookup_singleton_eq.
  - intros a g i x t Hg Hx Ht. apply lookup_singleton_Some in Hg as [_ <-]. destruct (no_turn_servers _ Hno i x t Hx Ht).
Qed.

Lemma bob_entries : forallb (fun x => negb (bool_decide (is_Some (e_turn x)))) (entries (ma_agent bob_entry)) = true.
Proof. by vm_compute. Qed.

Lemma example_agents (s : mux_t) : agents_ok (refresh s (example_world (next_request_id s))).
Proof. exact (one_agent_ok bob_entry s (example_world (next_request_id s)) bob_entries eq_refl eq_refl). Qed.

(** Bob is the only agent in memory. *)
Definition only_bob (s : mux_t) : bool := forallb (fun e => bool_decide (e.1 = 1%positive)) (map_to_list (store s)).
Lemma bob_stays s : only_bob s = true -> agents_stay s (example_world (next_request_id s)).
Proof.
  intros Hb a (g & Hg & _). unfold only_bob in Hb. rewrite forallb_forall in Hb.
  specialize (Hb (a, g) (proj1 (list_elem_of_In _ _) (proj2 (elem_of_map_to_list _ _ _) Hg))). apply bool_decide_eq_true in Hb. cbn in Hb. subst a.
  exists bob_entry. split; [apply lookup_singleton_eq|by eexists].
Qed.

Lemma example_step n t s tr o x s' tr' : @reaches sum_crypto n t s tr -> 0 <= next_request_id s < 2 ^ 64 -> only_bob s = true ->
  @op_ok sum_crypto (host_system bob_addr (t + 1)) (refresh s (example_world (next_request_id s))) o ->
  example_run (t + 1) o s = Some (x, s', tr') -> @reaches sum_crypto (S n) (t + 1) s' (tr ++ tr').
Proof.
  intros Hr Hn Hbob Hop Hrun. destruct x.
  apply (@reaches_step sum_crypto n t s tr (host_system bob_addr (t + 1)) example_socket (example_world (next_request_id s)) o s' tr' Hr);
    [change (t <= t + 1); lia|by apply later_refl|by apply bob_stays|apply example_agents|exact Hop|exact Hrun].
Qed.

Definition example_history : list mux_op :=
  [ListenPending None (Some (7, 8)); Arrive mux_check alice_addr; Announce; VerifyRequest 1 (ice_pwd (a_local mux_bob));
   AttachRequest 1 1%positive].
Definition example_at (n : nat) : mux_t * list mux_event :=
  match example_ops 1100 (take n example_history) example_start [] with Some x => x | None => (example_start, []) end.

Definition example_ok (n : nat) (o : mux_op) : Prop :=
  example_run (1100 + Z.of_nat n + 1) o (example_at n).1 =
    Some (tt, (example_at (S n)).1, drop (length (example_at n).2) (example_at (S n)).2) /\
  (example_at (S n)).2 = (example_at n).2 ++ drop (length (example_at n).2) (example_at (S n)).2 /\
  (0 <=? next_request_id (example_at n).1) && (next_request_id (example_at n).1 <? 2 ^ 64) = true /\
  only_bob (example_at n).1 = true.

(** The states after each of the operations. *)
Lemma example_listens : example_ok 0 (ListenPending None (Some (7, 8))).
Proof. vm_compute. done. Qed.
Lemma example_arrives : example_ok 1 (Arrive mux_check alice_addr).
Proof. vm_compute. done. Qed.
Lemma example_announces : example_ok 2 Announce.
Proof. vm_compute. done. Qed.
Lemma example_verifies : example_ok 3 (VerifyRequest 1 (ice_pwd (a_local mux_bob))).
Proof. vm_compute. done. Qed.
Lemma example_attaches : example_ok 4 (AttachRequest 1 1%positive).
Proof. vm_compute. done. Qed.

Lemma mux_check_bytes : forallb byteb mux_check = true.
Proof. by vm_compute. Qed.

Lemma example_next n o : @reaches sum_crypto n (1100 + Z.of_nat n) (example_at n).1 (example_at n).2 -> example_ok n o ->
  @op_ok sum_crypto (host_system bob_addr (1100 + Z.of_nat n + 1))
    (refresh (example_at n).1 (example_world (next_request_id (example_at n).1))) o ->
  @reaches sum_crypto (S n) (1100 + Z.of_nat (S n)) (example_at (S n)).1 (example_at (S n)).2.
Proof.
  intros Hr (Hrun & Htr & Hid & Hbob) Hop. rewrite Htr.
  replace (1100 + Z.of_nat (S n)) with (1100 + Z.of_nat n + 1) by lia. eapply example_step; [exact Hr|lia|exact Hbob|exact Hop|exact Hrun].
Qed.

Lemma example_reached1 : @reaches sum_crypto 1 (1100 + Z.of_nat 1) (example_at 1).1 (example_at 1).2.
Proof.
  refine (example_next 0 _ _ example_listens I). apply (reaches_start (1100 + Z.of_nat 0) example_start eq_refl). cbn. lia.
Qed.
(** Two results of the same run. *)
Lemma same_run {A S T} (c : option (A * S * T)) a s t a' s' t' : c = Some (a, s, t) -> c = Some (a', s', t') -> a = a'.
Proof. intros ->. congruence. Qed.
(** The check is not for an agent yet. *)
Lemma example_deferred : exists s1 tr, @lookup_agent sum_crypto (host_system bob_addr (1100 + Z.of_nat 1 + 1)) mux_check alice_addr
  (refresh (example_at 1).1 (example_world (next_request_id (example_at 1).1))) = Some ((None, mux_check), s1, tr).
Proof. vm_compute. by do 2 eexists. Qed.
Lemma example_reached2 : @reaches sum_crypto 2 (1100 + Z.of_nat 2) (example_at 2).1 (example_at 2).2.
Proof.
  apply (example_next 1 _ example_reached1 example_arrives). split; [apply bytes_forallb, mux_check_bytes|]. split; [reflexivity|].
  intros a b s1 tr Hl. destruct example_deferred as (s2 & tr2 & Hl2). pose proof (same_run _ _ _ _ _ _ _ Hl Hl2). congruence.
Qed.
Lemma example_reached3 : @reaches sum_crypto 3 (1100 + Z.of_nat 3) (example_at 3).1 (example_at 3).2.
Proof. exact (example_next 2 _ example_reached2 example_announces I). Qed.
Lemma example_reached4 : @reaches sum_crypto 4 (1100 + Z.of_nat 4) (example_at 4).1 (example_at 4).2.
Proof. exact (example_next 3 _ example_reached3 example_verifies I). Qed.

Lemma example_reached5 : @reaches sum_crypto 5 (1100 + Z.of_nat 5) (example_at 5).1 (example_at 5).2.
Proof. apply (example_next 4 _ example_reached4 example_attaches). exists bob_entry. apply lookup_singleton_eq. Qed.

(** ** Witnesses *)

#[local] Abbreviation bob_at t := (host_system bob_addr t).
#[local] Abbreviation bob_world n := (example_world (next_request_id (example_at n).1)).

(** After a request was accepted for Bob, Bob may leave. *)
Lemma example_bob : only_bob (example_at 5).1 = true /\ 0 <= next_request_id (example_at 5).1 < 2 ^ 64.
Proof. split; [by vm_compute|]. vm_compute. split; [discriminate|reflexivity]. Qed.

Lemma mux_requests_safe_witness :
  NoDup (announced (example_at 5).2) /\ (announced (example_at 5).2) = [1] /\
  exists s' tr', @perform_op sum_crypto (bob_at 1106) example_socket (Cleanup 1%positive) (refresh (example_at 5).1 (bob_world 5)) = Some (tt, s', tr') /\
    @reaches sum_crypto 6 1106 s' ((example_at 5).2 ++ tr').
Proof.
  destruct (@mux_requests_safe sum_crypto sum_crypto_laws 5 _ _ _ example_reached5) as (_ & Hnd & Hstep); [reflexivity|].
  split; [exact Hnd|]. split; [vm_compute; reflexivity|]. destruct example_bob as [Hbob Hid].
  apply (Hstep (bob_at 1106) example_socket (bob_world 5) (Cleanup 1%positive));
    [vm_compute; discriminate|apply later_refl; exact Hid|apply bob_stays; exact Hbob|apply example_agents|].
  exists bob_entry. split; [apply lookup_singleton_eq|eexists; reflexivity].
Defined.

(** Alice's check when no announcements are needed: it is Bob's, and Bob gets it. *)
Lemma mux_lookup_run : exists s' tr',
  @lookup_agent sum_crypto (bob_at 1101) mux_check alice_addr (refresh example_start (example_world 1)) =
  Some ((Some 1%positive, mux_check), s', tr').
Proof. vm_compute. by do 2 eexists. Qed.

Lemma mux_lookup_authenticates_witness :
  @vouches sum_crypto (refresh example_start (example_world 1)) 1%positive mux_check \/
  answers (refresh example_start (example_world 1)) 1%positive mux_check.
Proof.
  destruct (@mux_lookup_authenticates sum_crypto sum_crypto_laws (bob_at 1101) 0 1100 example_start [] (example_world 1)
    mux_check alice_addr) as (res & s' & tr' & Hrun & Ha & _).
  - apply reaches_start; [reflexivity|vm_compute; split; [discriminate|reflexivity] ].
  - reflexivity.
  - vm_compute; discriminate.
  - apply later_refl. vm_compute. split; [discriminate|reflexivity].
  - apply (one_agent_ok bob_entry); [exact bob_entries|reflexivity|reflexivity].
  - apply bytes_forallb, mux_check_bytes.
  - reflexivity.
  - destruct mux_lookup_run as (s1 & tr1 & Hrun1). pose proof (f_equal fst (same_run _ _ _ _ _ _ _ Hrun Hrun1)) as Hres.
    destruct (Ha 1%positive Hres) as [(i & e & Hl & _)|[ (_ & Hv & _)|Hv] ]; [destruct (new_map_absent _ _ _ _ Hl)|left; exact Hv|right; exact Hv].
Defined.

Lemma verify_run : exists s', @conn_mux_verify_request sum_crypto (bob_at 1104) 1 (ice_pwd (a_local mux_bob)) (example_at 3).1 = Some (0, s', []).
Proof. vm_compute. by eexists. Qed.

Lemma mux_verify_correct_witness : exists r, pr_id r = 1 /\ notified r = true /\ verified r = false /\
  @authenticated sum_crypto (pr_data r) (ice_pwd (a_local mux_bob)).
Proof.
  destruct (@reaches_good sum_crypto sum_crypto_laws 3 _ _ _ example_reached3) as (L & R & Hinv & _); [vm_compute; discriminate|].
  destruct (@mux_verify_correct sum_crypto sum_crypto_laws (bob_at 1104) _ _ _ _ 1 (ice_pwd (a_local mux_bob)) Hinv)
    as (ret & s' & L' & Hrun & _ & _ & Hiff); [vm_compute; discriminate|].
  destruct verify_run as [s1 Hrun1]. pose proof (same_run _ _ _ _ _ _ _ Hrun Hrun1) as Hret.
  destruct (proj1 Hiff Hret) as (x & r & _ & Hid & _ & Hn & Hv & _ & Ha). exists r. exact (conj Hid (conj Hn (conj Hv Ha))).
Defined.

Lemma pinv_refreshed `{CryptoLaws} t s L R : pinv t (next_request_id s) (r_impl (reg s)) L R ->
  let s' := refresh s (example_world (next_request_id s)) in pinv t (next_request_id s') (r_impl (reg s')) L R.
Proof. done. Qed.

Lemma attach_run : exists s' tr, @conn_mux_attach_request (bob_at 1105) example_socket 1 1%positive (refresh (example_at 4).1 (bob_world 4)) = Some (0, s', tr).
Proof. vm_compute. by do 2 eexists. Qed.

Lemma mux_attach_authenticates_witness : exists r, pr_id r = 1 /\
  local_ufrag r = ice_ufrag (a_local (ma_agent bob_entry)) /\
  @authenticated sum_crypto (pr_data r) (ice_pwd (a_local (ma_agent bob_entry))).
Proof.
  destruct (@reaches_good sum_crypto sum_crypto_laws 4 _ _ _ example_reached4) as (L & R & Hinv & _); [vm_compute; discriminate|].
  destruct (@mux_attach_authenticates sum_crypto sum_crypto_laws (bob_at 1105) example_socket _ _ L R 1 1%positive bob_entry (@pinv_refreshed sum_crypto sum_crypto_laws _ _ _ _ Hinv))
    as (ret & s' & L' & R' & tr & Hrun & _ & Hres); [vm_compute; discriminate|apply lookup_singleton_eq|].
  destruct attach_run as (s1 & tr1 & Hrun1). rewrite (same_run _ _ _ _ _ _ _ Hrun Hrun1) in Hres.
  destruct Hres as (L1 & x & r & L2 & _ & Hid & _ & _ & _ & _ & _ & _ & Hl & _ & Ha). exists r. exact (conj Hid (conj Hl Ha)).
Defined.
