(* ===== verification/ConnPoll.v ===== *)
(** * The poll mode (src/conn_poll.c)

    A registry of the poll mode: one thread for the sockets of many agents, a UDP
    socket and, for ICE-TCP, a TCP socket each.  Every handler runs with the mutex of
    the registry, so each is a step on the agents and their connections.  What the
    sockets give is a parameter (class [PollSockets]).  What an agent asks of its
    connection while it handles an event (its trace) is carried out when it has done
    so, in order. *)

From S2P Require Import Prelude Effects CText Addr Tcp Turn Ice IceSdp StunTypes StunWrite StunRead.
From S2P Require Import AgentTypes Agent AgentMessages AgentUpdate AgentCalls AgentNet.
From stdpp Require Import list gmap.
#[local] Open Scope Z_scope.

Definition UDP_RECV_LIMIT : nat := 1000.
Definition SEINPROGRESS : Z := 115.

(** ** State *)

Inductive conn_state_t := CONN_STATE_NEW | CONN_STATE_READY | CONN_STATE_FINISHED.
#[global] Instance conn_state_eq_dec : EqDecision conn_state_t.
Proof. solve_decision. Defined.

(** [INVALID_SOCKET] is [None]. *)
Record conn_impl_t := {
  c_state : conn_state_t;
  udp_sock : Z;
  tcp_sock : option Z;
  tcp_ice_write_context : tcp_ice_write_context_t;
  tcp_ice_read_context : tcp_ice_read_context_t;
  tcp_dst : addr_record_t;
  c_tcp_state : tcp_state_t;
  c_send_ds : Z;
  c_next_timestamp : Z
}.

Definition set_c_state (c : conn_impl_t) (v : conn_state_t) : conn_impl_t :=
  Build_conn_impl_t v (udp_sock c) (tcp_sock c) (tcp_ice_write_context c) (tcp_ice_read_context c) (tcp_dst c)
    (c_tcp_state c) (c_send_ds c) (c_next_timestamp c).
Definition set_tcp_sock (c : conn_impl_t) (v : option Z) : conn_impl_t :=
  Build_conn_impl_t (c_state c) (udp_sock c) v (tcp_ice_write_context c) (tcp_ice_read_context c) (tcp_dst c)
    (c_tcp_state c) (c_send_ds c) (c_next_timestamp c).
Definition set_write_context (c : conn_impl_t) (v : tcp_ice_write_context_t) : conn_impl_t :=
  Build_conn_impl_t (c_state c) (udp_sock c) (tcp_sock c) v (tcp_ice_read_context c) (tcp_dst c) (c_tcp_state c)
    (c_send_ds c) (c_next_timestamp c).
Definition set_read_context (c : conn_impl_t) (v : tcp_ice_read_context_t) : conn_impl_t :=
  Build_conn_impl_t (c_state c) (udp_sock c) (tcp_sock c) (tcp_ice_write_context c) v (tcp_dst c) (c_tcp_state c)
    (c_send_ds c) (c_next_timestamp c).
Definition set_tcp_dst (c : conn_impl_t) (v : addr_record_t) : conn_impl_t :=
  Build_conn_impl_t (c_state c) (udp_sock c) (tcp_sock c) (tcp_ice_write_context c) (tcp_ice_read_context c) v
    (c_tcp_state c) (c_send_ds c) (c_next_timestamp c).
Definition set_c_tcp_state (c : conn_impl_t) (v : tcp_state_t) : conn_impl_t :=
  Build_conn_impl_t (c_state c) (udp_sock c) (tcp_sock c) (tcp_ice_write_context c) (tcp_ice_read_context c) (tcp_dst c)
    v (c_send_ds c) (c_next_timestamp c).
Definition set_c_send_ds (c : conn_impl_t) (v : Z) : conn_impl_t :=
  Build_conn_impl_t (c_state c) (udp_sock c) (tcp_sock c) (tcp_ice_write_context c) (tcp_ice_read_context c) (tcp_dst c)
    (c_tcp_state c) v (c_next_timestamp c).
Definition set_c_next_timestamp (c : conn_impl_t) (v : Z) : conn_impl_t :=
  Build_conn_impl_t (c_state c) (udp_sock c) (tcp_sock c) (tcp_ice_write_context c) (tcp_ice_read_context c) (tcp_dst c)
    (c_tcp_state c) (c_send_ds c) v.

(** An agent with its connection. *)
Record poll_agent_t := { pa_agent : juice_agent_t; pa_conn : option conn_impl_t }.

(** The array of agents and the agents it points to. *)
Record poll_t := { p_agents : list (option positive); p_store : gmap positive poll_agent_t }.

Definition with_p_store (s : poll_t) (st : gmap positive poll_agent_t) : poll_t :=
  {| p_agents := p_agents s; p_store := st |}.

(** ** Effects *)

Inductive poll_event :=
| AgentDid (a : positive) (e : event)
| UdpSent (sock : Z) (dst : addr_record_t) (data : list Z) (ds : Z)
| TcpSent (sock : Z) (data : list Z)
| Closed (sock : Z)
| Woken.

Abbreviation PollM := (eff poll_t poll_event).

(** What the sockets give: the datagrams that wait on a UDP socket and the error
    number after them; what a TCP socket has to read and takes; the result of
    [getsockopt] for its error; the results of [socket], [ioctl], [connect] (with its
    error number), [udp_create_socket], [sendto] (with its error number) and
    [udp_set_diffserv]; and the addresses of a UDP socket. *)
Class PollSockets := {
  udp_inbox : Z -> list (list Z * addr_record_t);
  udp_errno : Z -> Z;
  tcp_source : Z -> source_t;
  tcp_sink : Z -> sink_t;
  so_error : Z -> Z * Z;
  sys_socket : option Z;
  sys_ioctl : Z;
  sys_connect : addr_record_t -> Z * Z;
  new_udp_socket : option Z;
  sys_sendto : addr_record_t -> list Z -> Z * Z;
  sys_set_diffserv : Z -> Z;
  udp_addrs : Z -> Z * list addr_record_t
}.

(** What poll reported for a socket. *)
Record revents_t := { ev_nval : bool; ev_err : bool; ev_hup : bool; ev_in : bool; ev_out : bool }.

(** A [struct pollfd]. *)
Record pollfd_t := { fd : Z; want_in : bool; want_out : bool; revents : revents_t }.
Definition no_revents : revents_t :=
  {| ev_nval := false; ev_err := false; ev_hup := false; ev_in := false; ev_out := false |}.

Section Poll.
Context `{Crypto} `{System} `{PollSockets}.

Definition get_poll_agent (a : positive) : PollM poll_agent_t := s ← get; defined (p_store s !! a).

(** The connection of an agent, which must exist. *)
Definition get_conn (a : positive) : PollM conn_impl_t := g ← get_poll_agent a; defined (pa_conn g).
Definition update_conn (a : positive) (f : conn_impl_t -> conn_impl_t) : PollM unit :=
  s ← get;
  g ← defined (p_store s !! a);
  c ← defined (pa_conn g);
  put (with_p_store s (<[a := {| pa_agent := pa_agent g; pa_conn := Some (f c) |}]> (p_store s))).

(** ** Sending *)

Definition conn_poll_interrupt (a : positive) : PollM Z :=
  _ ← update_conn a (fun c => set_c_next_timestamp c now); _ ← emit Woken; mret 0.

(** [tcp_ice_write] on the socket of a connection; its result. *)
Definition write_tcp (a : positive) (sock : Z) (data : option (list Z)) : PollM Z :=
  c ← get_conn a;
  '(ret, w, s) ← defined (tcp_ice_write data (tcp_ice_write_context c) (tcp_sink sock));
  _ ← update_conn a (fun c => set_write_context c w);
  _ ← emit (TcpSent sock (drop (length (sent (tcp_sink sock))) (sent s)));
  mret ret.

(** Without a TCP socket, [send] fails: the datagram stays in the context. *)
Definition write_no_socket (a : positive) (data : list Z) : PollM Z :=
  c ← get_conn a;
  '(ret, w, _) ← defined (tcp_ice_write (Some data) (tcp_ice_write_context c) {| window := []; sent := [] |});
  _ ← update_conn a (fun c => set_write_context c w);
  mret ret.

Definition conn_poll_send (a : positive) (dst : addr_record_t) (data : list Z) (ds : Z) : PollM Z :=
  c ← get_conn a;
  if socktype dst =? SOCK_STREAM then
    if w_pending (tcp_ice_write_context c) then mret (- SEAGAIN)
    else
      ret ← (match tcp_sock c with Some sock => write_tcp a sock (Some data) | None => write_no_socket a data end);
      c ← get_conn a;
      mret (if w_pending (tcp_ice_write_context c) && ((ret =? SEAGAIN) || (ret =? SEWOULDBLOCK)) then zlen data else ret)
  else
    _ ← (if (0 <=? c_send_ds c) && negb (c_send_ds c =? ds)
         then update_conn a (fun c => set_c_send_ds c (if sys_set_diffserv ds =? 0 then ds else -1))
         else mret tt);
    c ← get_conn a;
    _ ← emit (UdpSent (udp_sock c) dst data (c_send_ds c));
    let '(ret, err) := sys_sendto dst data in
    mret (if ret <? 0 then - err else ret).

(** ** The agent's requests *)

(** A step of an agent, with what it asks for. *)
Definition agent_step {A} (a : positive) (c : M A) : PollM (A * list event) := fun s =>
  match p_store s !! a with
  | None => None
  | Some g =>
      match c (pa_agent g) with
      | None => None
      | Some (x, ag, tr) =>
          Some ((x, tr), with_p_store s (<[a := {| pa_agent := ag; pa_conn := pa_conn g |}]> (p_store s)), AgentDid a <$> tr)
      end
  end.

(** What an agent asks for is carried out, given how to connect. *)
Fixpoint carry (connect : addr_record_t -> PollM unit) (a : positive) (tr : list event) : PollM unit :=
  match tr with
  | [] => mret tt
  | e :: tr =>
      _ ← match e with
          | Sent dst data ds => _ ← conn_poll_send a dst data ds; mret tt
          | TcpConnect dst => connect dst
          | Interrupt => _ ← conn_poll_interrupt a; mret tt
          | _ => mret tt
          end;
      carry connect a tr
  end.

(** ** The state of the TCP connection *)

Definition close_tcp (a : positive) : PollM unit :=
  c ← get_conn a;
  match tcp_sock c with
  | Some sock => _ ← emit (Closed sock); update_conn a (fun c => set_tcp_sock c None)
  | None => mret tt
  end.

(** The agent answers to a new state by an interruption at most, it does not connect. *)
Definition conn_poll_change_tcp_state (a : positive) (st : tcp_state_t) : PollM unit :=
  c ← get_conn a;
  if bool_decide (c_tcp_state c = st) then mret tt
  else
    _ ← update_conn a (fun c => set_c_tcp_state c st);
    '(ret, tr) ← agent_step a (agent_conn_tcp_state (tcp_dst c) st);
    _ ← carry (fun _ => defined None) a tr;
    if ret =? 0 then mret tt
    else
      _ ← close_tcp a;
      update_conn a (fun c => set_c_tcp_state c TCP_STATE_DISCONNECTED).

Definition conn_poll_change_tcp_fail (a : positive) : PollM unit :=
  _ ← close_tcp a;
  _ ← update_conn a (fun c => set_read_context (set_write_context c write_context_zero) read_context_zero);
  conn_poll_change_tcp_state a TCP_STATE_FAILED.

(** [tcp_create_socket]. *)
Definition tcp_create_socket (dst : addr_record_t) : PollM (option Z) :=
  match sys_socket with
  | None => mret None
  | Some sock =>
      if negb (sys_ioctl =? 0) then _ ← emit (Closed sock); mret None
      else
        let '(ret, err) := sys_connect dst in
        if negb (ret =? 0) && negb (err =? SEINPROGRESS) && negb (err =? SEWOULDBLOCK)
        then _ ← emit (Closed sock); mret None
        else mret (Some sock)
  end.

Definition conn_poll_tcp_connect (a : positive) (dst : addr_record_t) : PollM unit :=
  c ← get_conn a;
  match tcp_sock c with
  | Some _ => mret tt
  | None =>
      sock ← tcp_create_socket dst;
      _ ← update_conn a (fun c => set_tcp_dst (set_tcp_sock c sock) dst);
      conn_poll_change_tcp_state a TCP_STATE_CONNECTING
  end.

(** A step of an agent and what it asks for. *)
Definition on_agent {A} (a : positive) (c : M A) : PollM A :=
  '(x, tr) ← agent_step a c; _ ← carry (conn_poll_tcp_connect a) a tr; mret x.

(** ** Receiving *)

(** The agent sets the time of the next update, and an interruption meanwhile makes it
    earlier. *)
Definition conn_update (a : positive) : PollM unit :=
  '(t, tr) ← agent_step a agent_conn_update;
  _ ← update_conn a (fun c => set_c_next_timestamp c t);
  _ ← carry (conn_poll_tcp_connect a) a tr;
  update_conn a (fun c => set_c_next_timestamp c (Z.min t (c_next_timestamp c))).
Definition conn_finish (a : positive) : PollM unit := update_conn a (fun c => set_c_state c CONN_STATE_FINISHED).

(** [conn_poll_recv_udp]: the next datagram that is not empty; a longer one is cut. *)
Fixpoint conn_poll_recv_udp (sock : Z) (l : list (list Z * addr_record_t))
  : Z * option (list Z * addr_record_t) * list (list Z * addr_record_t) :=
  match l with
  | [] => (- udp_errno sock, None, [])
  | (data, src) :: l =>
      let data := take (Z.to_nat AgentTypes.BUFFER_SIZE) data in
      if zlen data =? 0 then conn_poll_recv_udp sock l
      else
        let '(_, sa, sa_len) := addr_unmap_inet6_v4mapped (addr src) (len src) in
        (zlen data, Some (data, {| addr := sa; len := sa_len; socktype := SOCK_DGRAM |}), l)
  end.

(** The loop that receives datagrams; the last result. *)
Fixpoint udp_loop (left : nat) (a : positive) (sock : Z) (l : list (list Z * addr_record_t)) (last : Z) : PollM Z :=
  match left with
  | O => mret last
  | S left' =>
      match conn_poll_recv_udp sock l with
      | (ret, Some (data, src), l) =>
          r ← on_agent a (agent_conn_recv data src);
          if negb (r =? 0) then _ ← conn_finish a; mret ret else udp_loop left' a sock l ret
      | (ret, None, _) => mret ret
      end
  end.

(** The connection is over, unless the socket has just nothing more. *)
Definition after_loop (a : positive) (ret : Z) (fail : PollM unit) : PollM unit :=
  c ← get_conn a;
  if bool_decide (c_state c = CONN_STATE_FINISHED) then mret tt
  else if (0 <? ret) || (ret =? - SEAGAIN) || (ret =? - SEWOULDBLOCK) then conn_update a
  else fail.

Definition update_if_due (a : positive) : PollM unit :=
  c ← get_conn a; if c_next_timestamp c <=? now then conn_update a else mret tt.

Definition conn_poll_process_udp (a : positive) (ev : revents_t) : PollM unit :=
  if ev_nval ev then mret tt
  else
    _ ← (if ev_err ev then _ ← on_agent a agent_conn_fail; conn_finish a else mret tt);
    if ev_in ev then
      c ← get_conn a;
      ret ← udp_loop UDP_RECV_LIMIT a (udp_sock c) (udp_inbox (udp_sock c)) 0;
      after_loop a ret (_ ← on_agent a agent_conn_fail; conn_finish a)
    else update_if_due a.

(** Reading from a socket that was closed. *)
Definition no_source : source_t := {| arrived := []; ending := 9 |}.

(** The loop that reads from the TCP socket.  The agent is given as many bytes of the
    buffer as the datagram has. *)
Fixpoint tcp_loop (left : nat) (a : positive) (src : source_t) (last : Z) : PollM Z :=
  match left with
  | O => mret last
  | S left' =>
      c ← get_conn a;
      '(ret, r, src) ← defined (tcp_ice_read (tcp_ice_read_context c) src);
      _ ← update_conn a (fun c => set_read_context c r);
      if ret <=? 0 then mret ret
      else
        data ← defined (load_bytes (r_buffer r) 0 ret);
        x ← on_agent a (agent_conn_recv data (tcp_dst c));
        if negb (x =? 0) then _ ← conn_finish a; mret ret else tcp_loop left' a src ret
  end.

(** The socket can be written to: it is connected, or a datagram is pending.  Whether
    the handler goes on. *)
Definition process_pollout (a : positive) (sock : Z) : PollM bool :=
  c ← get_conn a;
  if bool_decide (c_tcp_state c = TCP_STATE_CONNECTING) then
    let '(ret, err) := so_error sock in
    if negb (ret =? 0) || negb (err =? 0) then _ ← conn_poll_change_tcp_fail a; mret false
    else _ ← conn_poll_change_tcp_state a TCP_STATE_CONNECTED; mret true
  else if w_pending (tcp_ice_write_context c) then
    ret ← write_tcp a sock None;
    if 0 <=? ret then mret true
    else if (ret =? - SEAGAIN) || (ret =? - SEWOULDBLOCK) then _ ← conn_poll_change_tcp_fail a; mret false
    else mret true
  else mret true.

Definition conn_poll_process_tcp (a : positive) (sock : Z) (ev : revents_t) : PollM unit :=
  if ev_nval ev then mret tt
  else if ev_err ev || (ev_hup ev && negb (ev_in ev)) then conn_poll_change_tcp_fail a
  else
    go ← (if ev_out ev then process_pollout a sock else mret true);
    if negb (go : bool) then mret tt
    else if ev_in ev then
      c ← get_conn a;
      ret ← tcp_loop UDP_RECV_LIMIT a (match tcp_sock c with Some sock => tcp_source sock | None => no_source end) 0;
      after_loop a ret (conn_poll_change_tcp_fail a)
    else update_if_due a.

(** ** The thread *)

(** The agents that are polled. *)
Definition polled (g : poll_agent_t) : option conn_impl_t :=
  match pa_conn g with
  | Some c => if bool_decide (c_state c = CONN_STATE_FINISHED) then None else Some c
  | None => None
  end.

(** The number of sockets. *)
Fixpoint count_fds (l : list (option positive)) (n : Z) : PollM Z :=
  match l with
  | [] => mret n
  | None :: l => count_fds l n
  | Some a :: l =>
      g ← get_poll_agent a;
      match polled g with
      | None => count_fds l n
      | Some c => count_fds l (if bool_decide (is_Some (tcp_sock c)) then n + 2 else n + 1)
      end
  end.

Definition tcp_pollfd (c : conn_impl_t) (sock : Z) : pollfd_t :=
  if bool_decide (c_tcp_state c = TCP_STATE_CONNECTING)
  then {| fd := sock; want_in := false; want_out := true; revents := no_revents |}
  else {| fd := sock; want_in := true; want_out := w_pending (tcp_ice_write_context c); revents := no_revents |}.

Definition udp_pollfd (c : conn_impl_t) : pollfd_t :=
  {| fd := udp_sock c; want_in := true; want_out := false; revents := no_revents |}.

(** The descriptors in order, within the size of their array, and the earliest time. *)
Fixpoint fill_fds (l : list (option positive)) (size : Z) (fds : list pollfd_t) (t : Z) : PollM (list pollfd_t * Z) :=
  match l with
  | [] => mret (fds, t)
  | None :: l => fill_fds l size fds t
  | Some a :: l =>
      g ← get_poll_agent a;
      match polled g with
      | None => fill_fds l size fds t
      | Some c =>
          _ ← (if bool_decide (c_state c = CONN_STATE_NEW) then update_conn a (fun c => set_c_state c CONN_STATE_READY) else mret tt);
          let t := if c_next_timestamp c <? t then c_next_timestamp c else t in
          if negb (zlen fds <? size) then defined None
          else
            let fds := fds ++ [udp_pollfd c] in
            match tcp_sock c with
            | None => fill_fds l size fds t
            | Some sock => if negb (zlen fds <? size) then defined None else fill_fds l size (fds ++ [tcp_pollfd c sock]) t
            end
      end
  end.

(** The descriptor of the pipe that interrupts. *)
Definition interrupt_pollfd (pipe : Z) : pollfd_t := {| fd := pipe; want_in := true; want_out := false; revents := no_revents |}.

(** The number of sockets of agents, the array of descriptors (the first is that of
    the pipe) and the time of the next event. *)
Definition conn_poll_prepare (pipe : Z) : PollM (Z * list pollfd_t * Z) :=
  s ← get;
  size ← count_fds (p_agents s) 1;
  '(fds, t) ← fill_fds (p_agents s) size [interrupt_pollfd pipe] (now + 60000);
  mret (size - 1, fds, t).

(** The loop over the agents: [i] is the next descriptor. *)
Fixpoint process_fds (l : list (option positive)) (pfds : list pollfd_t) (i : nat) : PollM unit :=
  match l with
  | [] => mret tt
  | None :: l => process_fds l pfds i
  | Some a :: l =>
      g ← get_poll_agent a;
      match polled g with
      | None => process_fds l pfds i
      | Some c =>
          match pfds !! i with
          | None => mret tt
          | Some p =>
              if negb (fd p =? udp_sock c) then mret tt
              else
                _ ← conn_poll_process_udp a (revents p);
                c ← get_conn a;
                match tcp_sock c with
                | None => process_fds l pfds (S i)
                | Some sock =>
                    q ← defined (pfds !! S i);
                    if negb (fd q =? sock) then mret tt
                    else _ ← conn_poll_process_tcp a sock (revents q); process_fds l pfds (S (S i))
                end
          end
      end
  end.
Definition conn_poll_process (pfds : list pollfd_t) : PollM Z :=
  s ← get; _ ← process_fds (p_agents s) pfds 1; mret 0.

(** ** The connection of an agent *)

(** A connection as [calloc] and [conn_poll_init] leave it. *)
Definition new_conn (sock : Z) : conn_impl_t :=
  {| c_state := CONN_STATE_NEW; udp_sock := sock; tcp_sock := None;
     tcp_ice_write_context := write_context_zero; tcp_ice_read_context := read_context_zero;
     tcp_dst := addr_record_zero; c_tcp_state := TCP_STATE_DISCONNECTED; c_send_ds := 0;
     c_next_timestamp := 0 |}.

Definition conn_poll_init (a : positive) : PollM Z :=
  match new_udp_socket with
  | None => mret (-1)
  | Some sock =>
      s ← get;
      g ← defined (p_store s !! a);
      _ ← put (with_p_store s (<[a := {| pa_agent := pa_agent g; pa_conn := Some (new_conn sock) |}]> (p_store s)));
      mret 0
  end.

Definition conn_poll_cleanup (a : positive) : PollM unit :=
  _ ← conn_poll_interrupt a;
  c ← get_conn a;
  _ ← emit (Closed (udp_sock c));
  _ ← (match tcp_sock c with Some sock => emit (Closed sock) | None => mret tt end);
  s ← get;
  g ← defined (p_store s !! a);
  put (with_p_store s (<[a := {| pa_agent := pa_agent g; pa_conn := None |}]> (p_store s))).

Definition conn_poll_get_addrs (a : positive) : PollM (Z * list addr_record_t) :=
  c ← get_conn a; mret (udp_addrs (udp_sock c)).
End Poll.

(** ** The loop of the thread *)

(** What a call of poll gives: its error number, or what it reports in the places of
    the array. *)
Inductive poll_result := PollFailed (err : Z) | Polled (evs : list revents_t).
Definition SEINTR : Z := 4.

(** A turn of the loop: the time when it prepares and when it processes, what poll gives and
    what the sockets have then. *)
Record turn_t := { prepare_time : System; process_time : System; poll_gives : poll_result; turn_sockets : PollSockets }.

Definition set_revents (p : pollfd_t) (ev : revents_t) : pollfd_t :=
  {| fd := fd p; want_in := want_in p; want_out := want_out p; revents := ev |}.

(** [conn_poll_run]: whether the thread has left the loop when the turns are over. *)
Fixpoint conn_poll_run `{Crypto} (pipe : Z) (turns : list turn_t) : PollM bool :=
  match turns with
  | [] => mret false
  | t :: turns =>
      '(count, fds, _) ← @conn_poll_prepare (prepare_time t) pipe;
      if count <=? 0 then mret true
      else
        match poll_gives t with
        | PollFailed err => if (err =? SEINTR) || (err =? SEAGAIN) then conn_poll_run pipe turns else mret true
        | Polled evs =>
            ret ← @conn_poll_process _ (process_time t) (turn_sockets t) (zip_with set_revents fds evs);
            if ret <? 0 then mret true else conn_poll_run pipe turns
        end
  end.

Section Prepare.
Context `{System}.

(** ** What is polled *)

(** The descriptors of a connection. *)
Definition fds_of (c : conn_impl_t) : list pollfd_t :=
  udp_pollfd c :: match tcp_sock c with Some sock => [tcp_pollfd c sock] | None => [] end.

(** What is polled of an agent: its descriptors and when it wants to be called. *)
Definition watch (g : poll_agent_t) : option (list pollfd_t * Z) :=
  (fun c => (fds_of c, c_next_timestamp c)) <$> polled g.
Definition watch_at (st : gmap positive poll_agent_t) (o : option positive) : option (list pollfd_t * Z) :=
  a ← o; g ← st !! a; watch g.

(** The agents that are polled, in the order of the array. *)
Definition watched (s : poll_t) : list (list pollfd_t * Z) := omap (watch_at (p_store s)) (p_agents s).
Definition all_fds (l : list (list pollfd_t * Z)) : list pollfd_t := concat (fst <$> l).
Definition earliest (l : list (list pollfd_t * Z)) (t : Z) : Z := fold_left (fun t w => Z.min t w.2) l t.

(** The pointers of the array are those of agents. *)
Definition present (st : gmap positive poll_agent_t) (l : list (option positive)) : Prop :=
  forall a, Some a ∈ l -> is_Some (st !! a).

(** A new connection becomes ready: nothing else changes. *)
Definition readied (g : poll_agent_t) : poll_agent_t :=
  match polled g with
  | Some c => {| pa_agent := pa_agent g; pa_conn := Some (set_c_state c CONN_STATE_READY) |}
  | None => g
  end.
Definition ready_one (st : gmap positive poll_agent_t) (o : option positive) : gmap positive poll_agent_t :=
  match o with Some a => alter readied a st | None => st end.

Lemma polled_conn g c : polled g = Some c -> pa_conn g = Some c /\ c_state c <> CONN_STATE_FINISHED.
Proof. unfold polled. destruct (pa_conn g) as [d|]; [|done]. case_bool_decide; [done|]. by intros [= ->]. Qed.

Lemma readied_polled g c : polled g = Some c -> polled (readied g) = Some (set_c_state c CONN_STATE_READY).
Proof. intros Hc. unfold readied. by rewrite Hc. Qed.

Lemma readied_not_polled g : polled g = None -> readied g = g.
Proof. intros Hc. unfold readied. by rewrite Hc. Qed.

Lemma readied_idemp g : readied (readied g) = readied g.
Proof.
  destruct (polled g) as [c|] eqn:Hc; [|by rewrite !(readied_not_polled g Hc)].
  unfold readied at 1. rewrite (readied_polled g c Hc). unfold readied. by rewrite Hc.
Qed.

Lemma readied_ready g c : polled g = Some c -> c_state c <> CONN_STATE_NEW -> readied g = g.
Proof.
  intros Hc Hn. apply polled_conn in Hc as Hc'. destruct Hc' as [Hp Hf]. unfold readied. rewrite Hc.
  destruct g as [ag co], c as [[] ? ? ? ? ? ? ? ?]; cbn in *; by subst.
Qed.

Lemma watch_readied g : watch (readied g) = watch g.
Proof.
  unfold watch. destruct (polled g) as [c|] eqn:Hc; [by rewrite (readied_polled g c Hc)|].
  by rewrite readied_not_polled, Hc.
Qed.

Lemma watch_at_ready st o o' : watch_at (ready_one st o) o' = watch_at st o'.
Proof.
  destruct o as [a|], o' as [b|]; try done. unfold watch_at. cbn. destruct (decide (a = b)) as [<-|Hn].
  - rewrite lookup_alter_eq. destruct (st !! a) as [g|]; [apply watch_readied|done].
  - by rewrite lookup_alter_ne.
Qed.

Lemma watched_ready st o (l : list (option positive)) : omap (watch_at (ready_one st o)) l = omap (watch_at st) l.
Proof. induction l as [|o' l IH]; [done|]. cbn. by rewrite watch_at_ready, IH. Qed.

Lemma present_ready st o l : present st l -> present (ready_one st o) l.
Proof.
  intros Hp a Ha. destruct o as [b|]; [|by apply Hp]. cbn. apply Hp in Ha. destruct (decide (b = a)) as [<-|Hn].
  - rewrite lookup_alter_eq. by apply fmap_is_Some.
  - by rewrite lookup_alter_ne.
Qed.

(** What making connections ready does to an agent. *)
Lemma lookup_ready l : forall st a, fold_left ready_one l st !! a = (if bool_decide (Some a ∈ l) then readied else id) <$> st !! a.
Proof.
  induction l as [|o l IH]; intros st a; cbn [fold_left].
  { rewrite bool_decide_eq_false_2 by (by intros ?%not_elem_of_nil). by rewrite option_fmap_id. }
  rewrite IH. destruct o as [b|]; cbn [ready_one].
  - destruct (decide (b = a)) as [<-|Hn].
    + rewrite lookup_alter_eq, (bool_decide_eq_true_2 (Some b ∈ Some b :: l)) by left. rewrite <- option_fmap_compose.
      apply option_fmap_ext. intros g. cbn. case_bool_decide; [apply readied_idemp|done].
    + rewrite lookup_alter_ne by done. rewrite (bool_decide_ext (Some a ∈ Some b :: l) (Some a ∈ l)); [done|]. set_solver.
  - rewrite (bool_decide_ext (Some a ∈ None :: l) (Some a ∈ l)); [done|]. set_solver.
Qed.

Lemma get_poll_agent_run a s g : p_store s !! a = Some g -> get_poll_agent a s = Some (g, s, []).
Proof. intros Hg. unfold get_poll_agent. by rewrite bind_get, Hg. Qed.

Lemma fds_count c : zlen (fds_of c) = if bool_decide (is_Some (tcp_sock c)) then 2 else 1.
Proof. unfold fds_of. destruct (tcp_sock c); [rewrite bool_decide_eq_true_2 by done|rewrite bool_decide_eq_false_2 by (by intros [])]; done. Qed.

Lemma present_cons st o l : present st (o :: l) -> present st l.
Proof. intros Hp a Ha. apply Hp. by right. Qed.

Lemma watched_cons st a g (l : list (option positive)) : st !! a = Some g ->
  omap (watch_at st) (Some a :: l) = match watch g with Some w => w :: omap (watch_at st) l | None => omap (watch_at st) l end.
Proof. intros Hg. cbn. unfold watch_at at 1. cbn. by rewrite Hg. Qed.

Lemma count_fds_run s l : present (p_store s) l -> forall n,
  count_fds l n s = Some (n + zlen (all_fds (omap (watch_at (p_store s)) l)), s, []).
Proof.
  induction l as [|[a|] l IH]; intros Hp n; cbn [count_fds]; [by rewrite Z.add_0_r| |by apply IH; eapply present_cons].
  destruct (Hp a) as [g Hg]; [by left|]. apply present_cons in Hp.
  rewrite (bind_quiet _ _ _ _ _ (get_poll_agent_run a s g Hg)), (watched_cons _ _ _ _ Hg). unfold watch.
  destruct (polled g) as [c|]; cbn [fmap option_fmap option_map]; [|by apply IH]. rewrite IH by done. do 3 f_equal.
  unfold all_fds. cbn [fmap list_fmap concat fst]. rewrite zlen_app, fds_count. destruct (bool_decide _); lia.
Qed.

(** Making a new connection ready. *)
Lemma set_ready_run s a g c : p_store s !! a = Some g -> polled g = Some c ->
  (if bool_decide (c_state c = CONN_STATE_NEW) then update_conn a (fun c => set_c_state c CONN_STATE_READY) else mret tt) s =
    Some (tt, with_p_store s (ready_one (p_store s) (Some a)), []).
Proof.
  intros Hg Hc. apply polled_conn in Hc as Hc'. destruct Hc' as [Hp _]. case_bool_decide as Hn.
  - unfold update_conn. rewrite bind_get, (bind_defined _ _ _ _ Hg), (bind_defined _ _ _ _ Hp). cbn [put ready_one].
    replace (alter readied a (p_store s)) with (<[a := {| pa_agent := pa_agent g; pa_conn := Some (set_c_state c CONN_STATE_READY) |}]> (p_store s)); [done|].
    apply map_eq. intros b. destruct (decide (a = b)) as [<-|Hb]; [|by rewrite lookup_insert_ne, lookup_alter_ne].
    rewrite lookup_insert_eq, lookup_alter_eq, Hg. cbn. unfold readied. by rewrite Hc.
  - unfold with_p_store. cbn [ready_one]. rewrite alter_id; [by destruct s|]. intros g' Hg'. rewrite Hg in Hg'.
    injection Hg' as <-. by apply (readied_ready g c).
Qed.

(** Placing the descriptors of a connection in the array. *)
Lemma place_fds l size fds t c s : zlen fds + zlen (fds_of c) <= size ->
  (if negb (zlen fds <? size) then defined None
   else
     let fds := fds ++ [udp_pollfd c] in
     match tcp_sock c with
     | None => fill_fds l size fds t
     | Some sock => if negb (zlen fds <? size) then defined None else fill_fds l size (fds ++ [tcp_pollfd c sock]) t
     end) s = fill_fds l size (fds ++ fds_of c) t s.
Proof.
  unfold fds_of. intros Hsz. destruct (tcp_sock c) as [sock|].
  - change (zlen [udp_pollfd c; tcp_pollfd c sock]) with 2 in Hsz. cbv zeta. rewrite zlen_app. change (zlen [udp_pollfd c]) with 1.
    rewrite (proj2 (Z.ltb_lt (zlen fds) size)), (proj2 (Z.ltb_lt (zlen fds + 1) size)) by lia. cbn [negb]. by rewrite <- app_assoc.
  - change (zlen [udp_pollfd c]) with 1 in Hsz. by rewrite (proj2 (Z.ltb_lt (zlen fds) size)) by lia.
Qed.

Lemma fill_fds_run size l : forall s fds t, present (p_store s) l ->
  zlen fds + zlen (all_fds (omap (watch_at (p_store s)) l)) <= size ->
  fill_fds l size fds t s =
    Some ((fds ++ all_fds (omap (watch_at (p_store s)) l), earliest (omap (watch_at (p_store s)) l) t),
          with_p_store s (fold_left ready_one l (p_store s)), []).
Proof.
  induction l as [|[a|] l IH]; intros s fds t Hp Hsz; cbn [fill_fds].
  { cbn. rewrite app_nil_r. by destruct s. }
  2: { by apply IH; [eapply present_cons|]. }
  destruct (Hp a) as [g Hg]; [by left|]. apply present_cons in Hp.
  rewrite (bind_quiet _ _ _ _ _ (get_poll_agent_run a s g Hg)). rewrite (watched_cons _ _ _ _ Hg) in *. unfold watch in *.
  cbn [fold_left]. destruct (polled g) as [c|] eqn:Hc; cbn [fmap option_fmap option_map] in *.
  2: { rewrite IH by done. do 3 f_equal. cbn [ready_one]. rewrite alter_id; [done|]. intros g' Hg'. rewrite Hg in Hg'.
       injection Hg' as <-. by apply readied_not_polled. }
  rewrite (bind_quiet _ _ _ _ _ (set_ready_run s a g c Hg Hc)). cbv zeta. unfold all_fds in Hsz |- *. cbn [fmap list_fmap concat fst] in Hsz |- *.
  rewrite zlen_app in Hsz. pose proof (zlen_nonneg (concat (omap (watch_at (p_store s)) l).*1)).
  rewrite place_fds by lia. rewrite IH; [|by apply present_ready|cbn [p_store with_p_store]; rewrite watched_ready, zlen_app; unfold all_fds; lia].
  cbn [p_store with_p_store]. rewrite watched_ready. do 4 f_equal; [by rewrite app_assoc|].
  cbn [earliest fold_left snd]. unfold earliest. f_equal. destruct (Z.ltb_spec (c_next_timestamp c) t); lia.
Qed.

(** Preparing a poll. *)
Lemma prepare_spec (s : poll_t) (pipe : Z) (Hp : present (p_store s) (p_agents s)) :
  conn_poll_prepare pipe s =
    Some ((zlen (all_fds (watched s)), interrupt_pollfd pipe :: all_fds (watched s), earliest (watched s) (now + 60000)),
          with_p_store s (fold_left ready_one (p_agents s) (p_store s)), []) /\
  (forall w, w ∈ watched s -> earliest (watched s) (now + 60000) <= w.2) /\
  (forall a, fold_left ready_one (p_agents s) (p_store s) !! a =
     (if bool_decide (Some a ∈ p_agents s) then readied else id) <$> p_store s !! a).
Proof.
  split; [|split; [|apply lookup_ready] ].
  - unfold conn_poll_prepare. rewrite bind_get, (bind_quiet _ _ _ _ _ (count_fds_run s _ Hp 1)).
    rewrite (bind_quiet _ _ _ _ _ (fill_fds_run (1 + zlen (all_fds (watched s))) _ s [interrupt_pollfd pipe] (now + 60000) Hp ltac:(done))).
    cbn. do 3 f_equal. rewrite Z.add_simpl_l. done.
  - generalize (now + 60000). induction (watched s) as [|v l IH]; intros t w Hw; [by apply not_elem_of_nil in Hw|].
    cbn [earliest fold_left]. change (fold_left _ l ?t) with (earliest l t). apply elem_of_cons in Hw as [->|Hw]; [|by apply IH].
    clear IH. assert (Hle : forall t, earliest l t <= t).
    { clear. induction l as [|u l IH]; intros t; [cbn; lia|]. cbn [earliest fold_left]. change (fold_left _ l ?t) with (earliest l t). specialize (IH (Z.min t u.2)). lia. }
    specialize (Hle (Z.min t v.2)). lia.
Qed.

(** *** What poll is asked for *)

(** The connections that are not finished, in the order of the array. *)
Definition connections (s : poll_t) : list conn_impl_t :=
  omap (fun o => a ← o; g ← p_store s !! a; c ← pa_conn g; if decide (c_state c = CONN_STATE_FINISHED) then None else Some c) (p_agents s).

(** A descriptor, whether poll is to wait until it can be read and until it can be
    written to. *)
Definition asked (p : pollfd_t) : Z * bool * bool := (fd p, want_in p, want_out p).
Definition interests (c : conn_impl_t) : list (Z * bool * bool) :=
  (udp_sock c, true, false) ::
  match tcp_sock c, c_tcp_state c with
  | None, _ => []
  | Some sock, TCP_STATE_CONNECTING => [(sock, false, true)]
  | Some sock, _ => [(sock, true, w_pending (tcp_ice_write_context c))]
  end.

Lemma fds_interests c : asked <$> fds_of c = interests c.
Proof. unfold fds_of, interests, tcp_pollfd. destruct (tcp_sock c); [|done]. by destruct (c_tcp_state c). Qed.

Lemma watched_connections s : watched s = (fun c => (fds_of c, c_next_timestamp c)) <$> connections s.
Proof.
  unfold watched, connections. induction (p_agents s) as [|o l IH]; [done|]. cbn. unfold watch_at at 1. destruct o as [a|]; cbn; [|exact IH].
  destruct (p_store s !! a) as [g|]; cbn; [|exact IH]. unfold watch, polled. destruct (pa_conn g) as [c|]; cbn; [|exact IH].
  rewrite decide_bool_decide. destruct (bool_decide (c_state c = CONN_STATE_FINISHED)); cbn; [exact IH|]. by rewrite IH.
Qed.

Lemma asked_all l : asked <$> all_fds ((fun c => (fds_of c, c_next_timestamp c)) <$> l) = concat (interests <$> l).
Proof.
  unfold all_fds. induction l as [|c l IH]; [done|]. cbn [fmap list_fmap concat fst]. rewrite fmap_app, fds_interests. by f_equal.
Qed.

Lemma earliest_min l : forall t, let m := earliest ((fun c => (fds_of c, c_next_timestamp c)) <$> l) t in
  m <= t /\ (forall c, c ∈ l -> m <= c_next_timestamp c) /\ (m = t \/ exists c, c ∈ l /\ m = c_next_timestamp c).
Proof.
  induction l as [|c l IH]; intros t m.
  { split; [done|]. split; [by intros c ?%not_elem_of_nil|by left]. }
  destruct (IH (Z.min t (c_next_timestamp c))) as (H1 & H2 & H3).
  change (earliest _ (Z.min t (c_next_timestamp c))) with m in H1, H2, H3. split; [lia|]. split.
  - intros d [->|Hd]%elem_of_cons; [lia|by apply H2].
  - destruct H3 as [H3|(d & Hd & H3)]; [|right; exists d; split; [by right|done] ].
    destruct (Z.min_spec t (c_next_timestamp c)) as [ [_ E]|[_ E] ]; [left; lia|right; exists c; split; [by left|lia] ].
Qed.

(** A new connection becomes ready. *)
Lemma readied_spec g : readied g = {| pa_agent := pa_agent g;
  pa_conn := (fun c => if decide (c_state c = CONN_STATE_NEW) then set_c_state c CONN_STATE_READY else c) <$> pa_conn g |}.
Proof.
  unfold readied, polled. destruct g as [ag [c|] ]; [|done]. cbn. destruct c as [ [] ? ? ? ? ? ? ? ?]; done.
Qed.

(** C35: preparing a poll puts in the array the descriptor of the pipe, for reading, and
    then, in the order of the agents, those of every connection that is not finished:
    its UDP socket, for reading, and its TCP socket if it has one, for writing alone
    while it connects and else for reading, and for writing too if a datagram is
    pending.  The array has exactly as many places (so no assertion fails and nothing
    is written past it) and the count is that of the sockets.  The time is the earliest
    of those the connections ask for and of 60 seconds from now.  New connections of
    agents in the array become ready and nothing else changes.  The array must point to
    agents in memory. *)
Theorem poll_prepare_correct (s : poll_t) (pipe : Z) (Hp : present (p_store s) (p_agents s)) :
  exists n p fds t s', conn_poll_prepare pipe s = Some ((n, p :: fds, t), s', []) /\
    asked p = (pipe, true, false) /\ asked <$> fds = concat (interests <$> connections s) /\ n = zlen fds /\
    (t <= now + 60000 /\ (forall c, c ∈ connections s -> t <= c_next_timestamp c) /\
     (t = now + 60000 \/ exists c, c ∈ connections s /\ t = c_next_timestamp c)) /\
    p_agents s' = p_agents s /\
    forall a, p_store s' !! a = (fun g => {| pa_agent := pa_agent g;
      pa_conn := (fun c => if decide (Some a ∈ p_agents s /\ c_state c = CONN_STATE_NEW) then set_c_state c CONN_STATE_READY else c) <$> pa_conn g |})
      <$> p_store s !! a.
Proof.
  destruct (prepare_spec s pipe Hp) as (Hr & _ & Hst). eexists _, _, _, _, _. split; [exact Hr|]. split; [done|].
  rewrite watched_connections. split; [apply asked_all|]. split; [done|]. split; [apply earliest_min|]. split; [done|].
  intros a. cbn [p_store with_p_store]. rewrite Hst. apply option_fmap_ext. intros g. case_bool_decide as Ha.
  - rewrite readied_spec. f_equal. apply option_fmap_ext. intros c. apply decide_ext. tauto.
  - destruct g as [ag co]. cbn. f_equal. destruct co as [c|]; [|done]. cbn. by rewrite decide_False by tauto.
Qed.
End Prepare.

(** ** The thread serves every connection *)

(** The call of poll succeeds, or is interrupted. *)
Definition poll_survives (t : turn_t) : Prop :=
  match poll_gives t with PollFailed err => err = SEINTR \/ err = SEAGAIN | Polled _ => True end.

Lemma count_fds_present l : forall n s m s' tr, count_fds l n s = Some (m, s', tr) -> present (p_store s) l.
Proof.
  induction l as [|[a|] l IH]; intros n s m s' tr Hr b Hb; [by apply not_elem_of_nil in Hb| |].
  - apply bind_run in Hr as (g & s1 & t1 & t2 & Hg & Hr & _). unfold get_poll_agent in Hg. rewrite bind_get in Hg.
    apply defined_run in Hg as (Hg & -> & _). apply elem_of_cons in Hb as [ [= ->]|Hb]; [by eexists|].
    destruct (polled g); by eapply IH.
  - apply elem_of_cons in Hb as [Hb|Hb]; [done|]. by eapply IH.
Qed.

Lemma watched_fold l l' : forall st, omap (watch_at (fold_left ready_one l' st)) (l : list (option positive)) = omap (watch_at st) l.
Proof. induction l' as [|o l' IH]; intros st; [done|]. cbn [fold_left]. by rewrite IH, watched_ready. Qed.

(** A call of [conn_poll_prepare] that succeeds keeps what is polled and counts it. *)
Lemma prepare_run `{System} pipe s n fds t s' tr : conn_poll_prepare pipe s = Some ((n, fds, t), s', tr) ->
  n = zlen (all_fds (watched s)) /\ watched s' = watched s.
Proof.
  intros Hr. assert (Hp : present (p_store s) (p_agents s)).
  { unfold conn_poll_prepare in Hr. rewrite bind_get in Hr. apply bind_run in Hr as (m & s1 & t1 & t2 & Hc & _ & _). by eapply count_fds_present. }
  rewrite (proj1 (prepare_spec s pipe Hp)) in Hr. injection Hr as <- <- <- <- _. split; [done|]. apply watched_fold.
Qed.

Lemma no_fds l : (forall w, w ∈ l -> w.1 <> []) -> zlen (all_fds l) <= 0 -> l = [].
Proof.
  intros Hne Hz. destruct l as [|w l]; [done|]. exfalso. apply (Hne w); [by left|]. unfold all_fds in Hz. cbn [fmap list_fmap concat] in Hz.
  rewrite zlen_app in Hz. pose proof (zlen_nonneg (concat (fst <$> l))). destruct (w.1) as [|x k]; [done|]. rewrite zlen_cons in Hz.
  pose proof (zlen_nonneg k). lia.
Qed.

Lemma watched_fds s w : w ∈ watched s -> w.1 <> [].
Proof.
  unfold watched. intros (o & _ & Hw)%list_elem_of_omap. destruct o as [a|]; [|done]. unfold watch_at in Hw. cbn in Hw.
  destruct (p_store s !! a) as [g|]; [|done]. cbn in Hw. unfold watch in Hw. destruct (polled g); [|done]. by injection Hw as <-.
Qed.

(** The thread leaves its loop only when no connection is left to serve, as long
    as the calls of poll succeed or are interrupted. *)
Theorem poll_run_serves `{Crypto} (pipe : Z) (turns : list turn_t) (s s' : poll_t) (tr : list poll_event)
    (Hs : Forall poll_survives turns) (Hr : conn_poll_run pipe turns s = Some (true, s', tr)) : watched s' = [].
Proof.
  revert s tr Hr. induction Hs as [|t turns Ht _ IH]; intros s tr Hr; cbn [conn_poll_run] in Hr; [done|].
  apply bind_run in Hr as ([ [n fds] due] & s1 & t1 & t2 & Hp & Hr & _). apply prepare_run in Hp as [-> Hw].
  destruct (Z.leb_spec (zlen (all_fds (watched s))) 0) as [Hz|_].
  - apply ret_run in Hr as (_ & -> & _). rewrite Hw. apply no_fds; [apply watched_fds|done].
  - unfold poll_survives in Ht. destruct (poll_gives t) as [err|evs].
    + replace ((err =? SEINTR) || (err =? SEAGAIN)) with true in Hr by (destruct Ht as [->| ->]; done). by eapply IH.
    + apply bind_run in Hr as (ret & s2 & t3 & t4 & Hc & Hr & _). unfold conn_poll_process in Hc. rewrite bind_get in Hc.
      apply bind_run in Hc as (u & s3 & t5 & t6 & _ & Hc & _). apply ret_run in Hc as (-> & -> & _). by eapply IH.
Qed.

(** ** A socket that is opened while the descriptors are processed *)

Section Opened.
Context `{Crypto} `{PollSockets}.

(** An agent that is not polled. *)
Definition idle (st : gmap positive poll_agent_t) (o : option positive) : Prop :=
  forall b, o = Some b -> exists h, st !! b = Some h /\ polled h = None.

Lemma process_idle `{System} pre l pfds i s : Forall (idle (p_store s)) pre -> process_fds (pre ++ l) pfds i s = process_fds l pfds i s.
Proof.
  induction 1 as [|o pre Ho _ IH]; [done|]. cbn [app process_fds]. destruct o as [b|]; [|exact IH].
  destruct (Ho b eq_refl) as (h & Hh & Hn). rewrite (bind_quiet _ _ _ _ _ (get_poll_agent_run b s h Hh)), Hn. exact IH.
Qed.

Lemma watched_idle st (pre : list (option positive)) : Forall (idle st) pre -> omap (watch_at st) pre = [].
Proof.
  induction 1 as [|o pre Ho _ IH]; [done|]. cbn. destruct o as [b|]; [|exact IH]. destruct (Ho b eq_refl) as (h & Hh & Hn).
  unfold watch_at at 1. cbn. rewrite Hh. cbn. unfold watch. by rewrite Hn.
Qed.

Lemma idle_ready (l : list (option positive)) st o : idle st o -> idle (fold_left ready_one l st) o.
Proof.
  intros Ho b Hb. destruct (Ho b Hb) as (h & Hh & Hn). exists h. split; [|done]. rewrite lookup_ready, Hh. cbn.
  case_bool_decide; [|done]. cbn. by rewrite readied_not_polled.
Qed.

(** C40: the thread reads past the array of descriptors when the update of the last
    agent opens its TCP socket.  Take a registry in which only the last agent of the
    array has a connection to serve, with no TCP socket yet: [conn_poll_prepare] makes an
    array of two places, for the pipe and the UDP socket.  If what the agent does while
    its UDP socket is processed, whatever poll reported for it, leaves it with a TCP
    socket, then [conn_poll_process] goes on to the place after the last one, for it has
    no test of the size: the behaviour is undefined. *)
Theorem poll_process_reads_past_fds (prepare process : System) (s : poll_t) (pre : list (option positive)) (a : positive)
    (g : poll_agent_t) (c : conn_impl_t) (pipe : Z) n fds t s1 (pipe_events events : revents_t) s2 tr h d
    (Hl : p_agents s = pre ++ [Some a]) (Hpre : Forall (idle (p_store s)) pre)
    (Hg : p_store s !! a = Some g) (Hc : pa_conn g = Some c) (Hf : c_state c <> CONN_STATE_FINISHED) (Hno : tcp_sock c = None)
    (Hprep : @conn_poll_prepare prepare pipe s = Some ((n, fds, t), s1, []))
    (Hudp : @conn_poll_process_udp _ process _ a events s1 = Some (tt, s2, tr))
    (Hh : p_store s2 !! a = Some h) (Hd : pa_conn h = Some d) (Hopen : is_Some (tcp_sock d)) :
  zlen fds = 2 /\ @conn_poll_process _ process _ (zip_with set_revents fds [pipe_events; events]) s1 = None.
Proof.
  assert (Hpol : polled g = Some c) by (unfold polled; by rewrite Hc, bool_decide_eq_false_2).
  assert (Hp : present (p_store s) (p_agents s)).
  { intros b Hb. rewrite Hl in Hb. apply elem_of_app in Hb as [Hb|Hb].
    - rewrite Forall_forall in Hpre. destruct (Hpre _ Hb b eq_refl) as (k & Hk & _). by exists k.
    - apply list_elem_of_singleton in Hb as [= ->]. by exists g. }
  rewrite (proj1 (@prepare_spec prepare s pipe Hp)) in Hprep. injection Hprep as _ Hfds _ Hs1.
  assert (Hw : all_fds (watched s) = [udp_pollfd c]).
  { unfold watched. rewrite Hl, omap_app, watched_idle by done. cbn. unfold watch_at. cbn. rewrite Hg. cbn. unfold watch. rewrite Hpol. cbn.
    unfold fds_of. by rewrite Hno. }
  rewrite Hw in Hfds. subst fds. split; [done|]. cbn [zip_with].
  assert (Hs1a : p_store s1 !! a = Some (readied g)).
  { rewrite <- Hs1. cbn [p_store with_p_store]. rewrite lookup_ready, bool_decide_eq_true_2 by (rewrite Hl; set_solver). by rewrite Hg. }
  unfold conn_poll_process. rewrite bind_get. replace (p_agents s1) with (pre ++ [Some a]) by (by rewrite <- Hs1).
  assert (Hnone : process_fds (pre ++ [Some a]) [set_revents (interrupt_pollfd pipe) pipe_events; set_revents (udp_pollfd c) events] 1 s1 = None).
  { rewrite process_idle; [|rewrite <- Hs1; eapply Forall_impl; [exact Hpre|]; intros o; apply idle_ready].
    cbn [process_fds]. rewrite (bind_quiet _ _ _ _ _ (get_poll_agent_run a s1 _ Hs1a)), (readied_polled g c Hpol).
    cbn [lookup list_lookup fd set_revents udp_pollfd udp_sock set_c_state revents]. rewrite Z.eqb_refl. cbn [negb].
    rewrite (bind_some _ _ _ _ _ _ Hudp). destruct Hopen as [sock Hsock].
    assert (Hget : get_conn a s2 = Some (d, s2, [])).
    { unfold get_conn. by rewrite (bind_quiet _ _ _ _ _ (get_poll_agent_run a s2 h Hh)), Hd. }
    by rewrite (bind_quiet _ _ _ _ _ Hget), Hsock. }
  unfold mbind, eff_bind. by rewrite Hnone.
Qed.
End Opened.

(** ** A registry with one agent *)

(** Sockets with nothing to read, on which a TCP connection is in progress. *)
Definition quiet_sockets : PollSockets := {|
  udp_inbox := fun _ => []; udp_errno := fun _ => SEAGAIN;
  tcp_source := fun _ => {| arrived := []; ending := SEAGAIN |};
  tcp_sink := fun _ => {| window := []; sent := [] |};
  so_error := fun _ => (0, 0); sys_socket := Some 7; sys_ioctl := 0; sys_connect := fun _ => (-1, SEINPROGRESS);
  new_udp_socket := Some 5; sys_sendto := fun _ data => (zlen data, 0); sys_set_diffserv := fun _ => 0;
  udp_addrs := fun _ => (0, []) |}.

Definition wake_pipe : Z := 3.

(** An agent of the registry. *)
Definition one_agent (ag : juice_agent_t) : poll_t := {| p_agents := [None; Some 1%positive]; p_store := {[1%positive := {| pa_agent := ag; pa_conn := None |}]} |}.

(** The agent Alice, that has just got its connection. *)
Definition joined (s : poll_t) : option poll_t :=
  (fun r => r.1.2) <$> @conn_poll_init quiet_sockets 1%positive s.

(** The description of a peer that waits for a TCP connection. *)
Definition tcp_sdp : list Z := str "a=ice-ufrag:ABCD
a=ice-pwd:ABCDEFGHIJKLMNOPQRSTUV
a=candidate:1 1 TCP 2122316799 192.0.2.2 2000 typ host tcptype passive
a=end-of-candidates
".

(** Alice, that connects by TCP and has this description. *)
Definition tcp_peer : option juice_agent_t :=
  '(_, alice, bob, _) ← net_step 1000 (fun _ _ => agent_set_ice_tcp_mode JUICE_ICE_TCP_MODE_ACTIVE) (new_peer alice_addr 70) (new_peer bob_addr 50);
  '(_, alice, bob, _) ← net_step 1000 (fun _ _ => agent_gather_candidates) alice bob;
  '(_, alice, bob, _) ← net_step 1000 (fun _ _ => agent_set_remote_description tcp_sdp) alice bob;
  Some (peer_agent alice).

Definition tcp_registry : option poll_t := tcp_peer ≫= fun ag => joined (one_agent ag).


(** One turn of the thread at time [t], with no events and [more] descriptors past
    the array. *)
Definition quiet_turn (t : Z) (more : list pollfd_t) (s : poll_t) : option (Z * list pollfd_t * option poll_t) :=
  '(n, fds, _, s, _) ← @conn_poll_prepare (host_system alice_addr t) wake_pipe s;
  Some (n, fds, (fun r => r.1.2) <$> @conn_poll_process sum_crypto (host_system alice_addr t) quiet_sockets (fds ++ more) s).

(** With one more place in memory the turn in which the TCP socket is opened goes on;
    and while the TCP connection is in progress, the agent asks to be called again at a
    time that has passed, so that the thread does not wait. *)
Lemma tcp_connecting_does_not_wait :
  (s ← tcp_registry;
   '(_, _, s) ← quiet_turn 1100 [interrupt_pollfd wake_pipe] s; s ← s;
   '(n, _, t, _, _) ← @conn_poll_prepare (host_system alice_addr 1110) wake_pipe s;
   Some (n, t <? 1110)) = Some (2, true).
Proof. vm_compute. reflexivity. Qed.

(** Alice in her registry. *)
Definition tcp_ready : poll_t := match tcp_registry with Some s => s | None => one_agent (peer_agent (new_peer alice_addr 70)) end.
Definition tcp_prepared : poll_t :=
  match @conn_poll_prepare (host_system alice_addr 1100) wake_pipe tcp_ready with Some (_, s, _) => s | None => tcp_ready end.

Lemma tcp_ready_agent : exists g c, p_store tcp_ready !! 1%positive = Some g /\ pa_conn g = Some c /\ c_state c <> CONN_STATE_FINISHED /\ tcp_sock c = None.
Proof. vm_compute. do 2 eexists. split; [reflexivity|]. split; [reflexivity|]. by split. Qed.
Lemma tcp_ready_prepared : exists n fds t, @conn_poll_prepare (host_system alice_addr 1100) wake_pipe tcp_ready = Some ((n, fds, t), tcp_prepared, []).
Proof. vm_compute. by do 3 eexists. Qed.
Lemma tcp_ready_opens : exists s2 tr h d, @conn_poll_process_udp sum_crypto (host_system alice_addr 1100) quiet_sockets 1%positive no_revents tcp_prepared = Some (tt, s2, tr) /\
  p_store s2 !! 1%positive = Some h /\ pa_conn h = Some d /\ is_Some (tcp_sock d).
Proof. vm_compute. do 4 eexists. split; [reflexivity|]. split; [reflexivity|]. split; [reflexivity|]. by eexists. Qed.

Lemma poll_process_reads_past_fds_witness : exists n fds t,
  @conn_poll_prepare (host_system alice_addr 1100) wake_pipe tcp_ready = Some ((n, fds, t), tcp_prepared, []) /\ zlen fds = 2 /\
  @conn_poll_process sum_crypto (host_system alice_addr 1100) quiet_sockets (zip_with set_revents fds [no_revents; no_revents]) tcp_prepared = None.
Proof.
  destruct tcp_ready_agent as (g & c & Hg & Hc & Hf & Hno). destruct tcp_ready_prepared as (n & fds & t & Hprep).
  destruct tcp_ready_opens as (s2 & tr & h & d & Hudp & Hh & Hd & Hopen).
  exists n, fds, t. split; [exact Hprep|].
  refine (@poll_process_reads_past_fds sum_crypto quiet_sockets (host_system alice_addr 1100) (host_system alice_addr 1100) tcp_ready [None] 1%positive
    g c wake_pipe n fds t tcp_prepared no_revents no_revents s2 tr h d _ _ Hg Hc Hf Hno Hprep Hudp Hh Hd Hopen).
  - vm_compute. reflexivity.
  - constructor; [|constructor]. intros b [=].
Defined.

Lemma poll_prepare_correct_witness : exists s n p fds t s',
  joined (one_agent (peer_agent (new_peer alice_addr 70))) = Some s /\ present (p_store s) (p_agents s) /\
  @conn_poll_prepare (host_system alice_addr 1000) wake_pipe s = Some ((n, p :: fds, t), s', []) /\
  asked p = (3, true, false) /\ asked <$> fds = [(5, true, false)] /\ t = 0.
Proof.
  eexists _. assert (Hp : forall s, joined (one_agent (peer_agent (new_peer alice_addr 70))) = Some s -> present (p_store s) (p_agents s)).
  { intros s [= <-] a Ha. assert (a = 1%positive) as -> by set_solver. by eexists. }
  destruct (@poll_prepare_correct (host_system alice_addr 1000) _ wake_pipe (Hp _ eq_refl)) as (n & p & fds & t & s' & Hr & Ha & Hf & _ & (Ht & Hc & Hm) & _).
  exists n, p, fds, t, s'. split; [reflexivity|]. split; [by apply Hp|]. split; [exact Hr|]. split; [exact Ha|]. split; [exact Hf|].
  destruct Hm as [->|(c & Hin & ->)].
  - specialize (Hc (new_conn 5) ltac:(by left)). cbn in Hc. vm_compute in Hc. by destruct Hc.
  - apply list_elem_of_singleton in Hin as ->. reflexivity.
Defined.

(** Alice's UDP socket fails, and the thread leaves. *)
Definition udp_error : revents_t := {| ev_nval := false; ev_err := true; ev_hup := false; ev_in := false; ev_out := false |}.
Definition failing_turns : list turn_t :=
  let turn r := {| prepare_time := host_system alice_addr 1000; process_time := host_system alice_addr 1010; poll_gives := r; turn_sockets := quiet_sockets |} in
  [turn (PollFailed SEINTR); turn (Polled [no_revents; udp_error]); turn (PollFailed SEAGAIN)].

Definition alice_registry : poll_t :=
  Eval vm_compute in default (one_agent (peer_agent (new_peer alice_addr 70))) (joined (one_agent (peer_agent (new_peer alice_addr 70)))).

Lemma poll_run_serves_witness : Forall poll_survives failing_turns /\ watched alice_registry <> [] /\
  exists s' tr, @conn_poll_run sum_crypto wake_pipe failing_turns alice_registry = Some (true, s', tr) /\ watched s' = [].
Proof.
  assert (Hs : Forall poll_survives failing_turns) by (repeat constructor; cbn; auto). split; [exact Hs|]. split; [done|].
  assert (Hr : exists s' tr, @conn_poll_run sum_crypto wake_pipe failing_turns alice_registry = Some (true, s', tr)) by (eexists _, _; vm_compute; reflexivity).
  destruct Hr as (s' & tr & Hr). exists s', tr. split; [exact Hr|]. exact (@poll_run_serves sum_crypto wake_pipe failing_turns _ _ _ Hs Hr).
Defined.
