(* ===== verification/ConnThread.v ===== *)
(** * The thread mode (src/conn_thread.c)

    An agent with a thread and a UDP socket of its own.  The handlers run with the
    mutex of the connection: each is a step on the agent and its connection.  The
    socket is a parameter (class [ThreadSocket]); what an agent asks of its connection
    while it handles an event is carried out when it has done so. *)

From S2P Require Import Prelude Effects CText Addr Udp Turn Ice IceSdp StunTypes StunWrite StunRead.
From S2P Require Import AgentTypes Agent AgentMessages AgentUpdate AgentCalls AgentNet.
From stdpp Require Import list.
#[local] Open Scope Z_scope.

Definition SEAGAIN : Z := 11.
Definition SEWOULDBLOCK : Z := 11.
Definition SEINTR : Z := 4.

(** ** State *)

Record conn_impl_t := { sock : Z; send_ds : Z; next_timestamp : Z; stopped : bool }.

Definition with_send_ds (c : conn_impl_t) (v : Z) : conn_impl_t :=
  {| sock := sock c; send_ds := v; next_timestamp := next_timestamp c; stopped := stopped c |}.
Definition with_next_timestamp (c : conn_impl_t) (v : Z) : conn_impl_t :=
  {| sock := sock c; send_ds := send_ds c; next_timestamp := v; stopped := stopped c |}.
Definition with_stopped (c : conn_impl_t) : conn_impl_t :=
  {| sock := sock c; send_ds := send_ds c; next_timestamp := next_timestamp c; stopped := true |}.

Record thread_t := { t_agent : juice_agent_t; t_conn : option conn_impl_t }.

Inductive thread_event :=
| Did (e : event)
| UdpSent (dst : addr_record_t) (data : list Z) (ds : Z)
| Woken
| Joined
| Closed (sock : Z).

Abbreviation ThreadM := (eff thread_t thread_event).

(** What the socket and the thread give: the results of [udp_create_socket],
    [thread_init], [udp_sendto] (with its error number), [udp_set_diffserv] and
    [udp_sendto_self], the addresses, and what successive calls of [recvfrom] give. *)
Class ThreadSocket := {
  new_socket : option Z;
  start_thread : Z;
  send_result : addr_record_t -> list Z -> Z * Z;
  diffserv_result : Z -> Z;
  wake_result : Z;
  socket_addrs : Z * list addr_record_t;
  recv_calls : list recv_call
}.

Section Thread.
Context `{Crypto} `{System} `{ThreadSocket}.

Definition get_conn : ThreadM conn_impl_t := s ← get; defined (t_conn s).
Definition update_conn (f : conn_impl_t -> conn_impl_t) : ThreadM unit :=
  s ← get; c ← defined (t_conn s); put {| t_agent := t_agent s; t_conn := Some (f c) |}.

(** ** Sending *)

Definition conn_thread_interrupt : ThreadM Z :=
  _ ← update_conn (fun c => with_next_timestamp c now);
  _ ← emit Woken;
  mret (if wake_result <? 0 then -1 else 0).

Definition conn_thread_send (dst : addr_record_t) (data : list Z) (ds : Z) : ThreadM Z :=
  c ← get_conn;
  _ ← (if (0 <=? send_ds c) && negb (send_ds c =? ds)
       then update_conn (fun c => with_send_ds c (if diffserv_result ds =? 0 then ds else -1))
       else mret tt);
  c ← get_conn;
  _ ← emit (UdpSent dst data (send_ds c));
  let '(ret, err) := send_result dst data in
  mret (if ret <? 0 then - err else ret).

Definition conn_thread_get_addrs : ThreadM (Z * list addr_record_t) := _ ← get_conn; mret socket_addrs.

(** ** The agent *)

Definition agent_step {A} (c : M A) : ThreadM (A * list event) := fun s =>
  match c (t_agent s) with
  | None => None
  | Some (x, ag, tr) => Some ((x, tr), {| t_agent := ag; t_conn := t_conn s |}, Did <$> tr)
  end.

(** What an agent asks for is carried out; there is no function to connect by TCP. *)
Fixpoint carry (tr : list event) : ThreadM unit :=
  match tr with
  | [] => mret tt
  | e :: tr =>
      _ ← match e with
          | Sent dst data ds => _ ← conn_thread_send dst data ds; mret tt
          | Interrupt => _ ← conn_thread_interrupt; mret tt
          | _ => mret tt
          end;
      carry tr
  end.
Definition on_agent {A} (c : M A) : ThreadM A := '(x, tr) ← agent_step c; _ ← carry tr; mret x.

(** The agent sets the time of the next update, and an interruption meanwhile makes it
    earlier. *)
Definition conn_update : ThreadM unit :=
  '(t, tr) ← agent_step agent_conn_update;
  _ ← update_conn (fun c => with_next_timestamp c t);
  _ ← carry tr;
  update_conn (fun c => with_next_timestamp c (Z.min t (next_timestamp c))).

(** ** The thread *)

(** Whether to poll, the socket and the time of the next event. *)
Definition conn_thread_prepare : ThreadM (option (Z * Z)) :=
  c ← get_conn; mret (if stopped c then None else Some (sock c, next_timestamp c)).

(** The next datagram that is not empty, or its result without one: 0 if there is none
    for now, -1 on an error; [fuel] is the number of calls. *)
Fixpoint conn_thread_recv (fuel : nat) (calls : list recv_call) : option ((list Z * addr_record_t + Z) * list recv_call) :=
  match fuel with
  | O => None
  | S fuel =>
      match udp_recvfrom (Z.to_nat AgentTypes.BUFFER_SIZE) calls with
      | None => None
      | Some (inr err, calls) => Some (inr (if (err =? SEAGAIN) || (err =? SEWOULDBLOCK) then 0 else -1), calls)
      | Some (inl (data, src), calls) =>
          if zlen data =? 0 then conn_thread_recv fuel calls
          else
            let '(_, sa, n) := addr_unmap_inet6_v4mapped (addr src) (len src) in
            Some (inl (data, {| addr := sa; len := n; socktype := socktype src |}), calls)
      end
  end.

(** The loop that receives datagrams: the last result, or [None] if the agent fails. *)
Fixpoint recv_loop (fuel : nat) (calls : list recv_call) : ThreadM (option Z) :=
  match fuel with
  | O => defined None
  | S fuel =>
      '(got, calls) ← defined (conn_thread_recv (S (length calls)) calls);
      match got with
      | inr ret => mret (Some ret)
      | inl (data, src) =>
          r ← on_agent (agent_conn_recv data src);
          if negb (r =? 0) then mret None else recv_loop fuel calls
      end
  end.

(** What poll reported. *)
Record revents_t := { ev_error : bool; ev_in : bool }.

Definition fail_thread : ThreadM Z := _ ← on_agent agent_conn_fail; mret (-1).

Definition conn_thread_process (ev : revents_t) : ThreadM Z :=
  c ← get_conn;
  if stopped c then mret (-1)
  else if ev_error ev then fail_thread
  else if ev_in ev then
    ret ← recv_loop (S (length recv_calls)) recv_calls;
    match ret with
    | None => mret (-1)
    | Some ret => if ret <? 0 then fail_thread else _ ← conn_update; mret 0
    end
  else if next_timestamp c <=? now then _ ← conn_update; mret 0
  else mret 0.

(** ** The connection of an agent *)

(** A connection as [calloc] and [conn_thread_init] leave it. *)
Definition new_conn (k : Z) : conn_impl_t := {| sock := k; send_ds := 0; next_timestamp := 0; stopped := false |}.

Definition conn_thread_init : ThreadM Z :=
  s ← get;
  match new_socket with
  | None => mret (-1)
  | Some k =>
      _ ← put {| t_agent := t_agent s; t_conn := Some (new_conn k) |};
      if start_thread =? 0 then mret 0
      else _ ← put {| t_agent := t_agent s; t_conn := None |}; mret (-1)
  end.

(** [join] is what the thread still does until it leaves. *)
Definition conn_thread_cleanup (join : ThreadM unit) : ThreadM unit :=
  _ ← update_conn with_stopped;
  _ ← conn_thread_interrupt;
  _ ← join;
  _ ← emit Joined;
  c ← get_conn;
  _ ← emit (Closed (sock c));
  s ← get;
  put {| t_agent := t_agent s; t_conn := None |}.
End Thread.

(** What a call of poll gives, and a turn of the loop: what the other threads do while
    it waits, as [conn_thread_cleanup] that stops the connection, when it processes and
    what the socket has then. *)
Inductive poll_result := PollFailed (err : Z) | Polled (ev : revents_t).
Record turn_t := { meanwhile : ThreadM unit; process_time : System; poll_gives : poll_result; turn_socket : ThreadSocket }.

(** [conn_thread_run]: whether the thread has left the loop when the turns are over. *)
Fixpoint conn_thread_run `{Crypto} (turns : list turn_t) : ThreadM bool :=
  match turns with
  | [] => mret false
  | t :: turns =>
      ready ← conn_thread_prepare;
      match ready with
      | None => mret true
      | Some _ =>
          _ ← meanwhile t;
          match poll_gives t with
          | PollFailed err => if (err =? SEINTR) || (err =? SEAGAIN) then conn_thread_run turns else mret true
          | Polled ev =>
              ret ← @conn_thread_process _ (process_time t) (turn_socket t) ev;
              if ret <? 0 then mret true else conn_thread_run turns
          end
      end
  end.

(** ** The thread serves its agent *)

(** The call of poll succeeds, or is interrupted. *)
Definition poll_survives (t : turn_t) : Prop :=
  match poll_gives t with PollFailed err => err = SEINTR \/ err = SEAGAIN | Polled _ => True end.

Section Leaves.
Context `{Crypto} `{System} `{ThreadSocket}.

Lemma update_conn_agent f s u s' tr : update_conn f s = Some (u, s', tr) -> t_agent s' = t_agent s.
Proof.
  unfold update_conn. rewrite bind_get. intros (c & s1 & t1 & t2 & Hc & Hp & _)%bind_run. apply defined_run in Hc as (_ & -> & _).
  by apply put_run in Hp as [-> _].
Qed.

Lemma get_conn_same s c s' tr : get_conn s = Some (c, s', tr) -> s' = s /\ t_conn s = Some c.
Proof. unfold get_conn. rewrite bind_get. by intros (Hc & -> & _)%defined_run. Qed.

Lemma interrupt_agent s r s' tr : conn_thread_interrupt s = Some (r, s', tr) -> t_agent s' = t_agent s.
Proof.
  unfold conn_thread_interrupt. intros (u & s1 & t1 & t2 & Hu & Hr & _)%bind_run. apply update_conn_agent in Hu as <-.
  apply bind_run in Hr as (v & s2 & t3 & t4 & He & Hr & _). apply emit_run in He as [-> _]. by apply ret_run in Hr as (_ & -> & _).
Qed.

Lemma send_agent dst data ds s r s' tr : conn_thread_send dst data ds s = Some (r, s', tr) -> t_agent s' = t_agent s.
Proof.
  unfold conn_thread_send. intros (c & s1 & t1 & t2 & Hc & Hr & _)%bind_run. apply get_conn_same in Hc as [-> _].
  apply bind_run in Hr as (u & s2 & t3 & t4 & Hu & Hr & _). apply bind_run in Hr as (d & s3 & t5 & t6 & Hd & Hr & _).
  apply get_conn_same in Hd as [-> _]. apply bind_run in Hr as (v & s4 & t7 & t8 & He & Hr & _). apply emit_run in He as [-> _].
  destruct (send_result dst data). apply ret_run in Hr as (_ & -> & _).
  destruct (_ && _); [by apply update_conn_agent in Hu|by apply ret_run in Hu as (_ & -> & _)].
Qed.

(** What an agent asks for does not change the agent. *)
Lemma carry_agent l : forall s u s' tr, carry l s = Some (u, s', tr) -> t_agent s' = t_agent s.
Proof.
  induction l as [|e l IH]; intros s u s' tr Hr; cbn [carry] in Hr; [by apply ret_run in Hr as (_ & -> & _)|].
  apply bind_run in Hr as (v & s1 & t1 & t2 & He & Hr & _). apply IH in Hr as ->.
  destruct e; try (by apply ret_run in He as (_ & -> & _)); apply bind_run in He as (w & s2 & t3 & t4 & He & Hr & _);
    apply ret_run in Hr as (_ & -> & _); [by eapply send_agent|by eapply interrupt_agent].
Qed.

Lemma agent_handler_run {A} (c : M A) s x s' tr : on_agent c s = Some (x, s', tr) -> exists tr', c (t_agent s) = Some (x, t_agent s', tr').
Proof.
  unfold on_agent. intros ([y l] & s1 & t1 & t2 & Hs & Hr & _)%bind_run. apply bind_run in Hr as (u & s2 & t3 & t4 & Hc & Hr & _).
  apply ret_run in Hr as (-> & -> & _). apply carry_agent in Hc as ->. unfold agent_step in Hs.
  destruct (c (t_agent s)) as [ [ [z a] l']|]; [|done]. injection Hs as <- <- <- _. by exists l'.
Qed.

(** The agent has failed, and it sends no more. *)
Definition has_failed (s : thread_t) : Prop := a_state (t_agent s) = JUICE_STATE_FAILED /\ selected_entry (t_agent s) = None.

Lemma fail_thread_run s r s' tr : fail_thread s = Some (r, s', tr) -> has_failed s'.
Proof.
  unfold fail_thread. intros (x & s1 & t1 & t2 & Hf & Hr & _)%bind_run. apply ret_run in Hr as (_ & -> & _).
  apply agent_handler_run in Hf as (l & Hf). unfold agent_conn_fail in Hf. apply bind_run in Hf as (u & a1 & t3 & t4 & Hc & Hf & _).
  unfold modify in Hf. apply bind_run in Hf as (v & a2 & t5 & t6 & Hm & Hf & _). apply ret_run in Hf as (_ & Hf & _).
  rewrite bind_get in Hm. apply put_run in Hm as [-> _]. unfold has_failed. rewrite Hf.
  unfold agent_change_state in Hc. rewrite bind_get in Hc. case_bool_decide as Hs; cbn [negb] in Hc.
  - apply ret_run in Hc as (_ & -> & _). done.
  - apply bind_run in Hc as (w & a3 & t7 & t8 & Hp & Hc & _). apply put_run in Hp as [-> _]. by apply emit_run in Hc as [-> _].
Qed.

Lemma recv_loop_agent fuel : forall calls s r s' tr, recv_loop fuel calls s = Some (r, s', tr) -> r <> None.
Proof.
  induction fuel as [|fuel IH]; intros calls s r s' tr Hr; cbn [recv_loop] in Hr; [done|].
  apply bind_run in Hr as ([got calls'] & s1 & t1 & t2 & _ & Hr & _). destruct got as [ [data src]|ret]; [|by apply ret_run in Hr as (-> & _)].
  apply bind_run in Hr as (x & s2 & t3 & t4 & Hx & Hr & _). apply agent_handler_run in Hx as (l & Hx). unfold agent_conn_recv in Hx.
  apply bind_run in Hx as (y & a & t5 & t6 & _ & Hx & _). apply ret_run in Hx as (-> & _). by apply IH in Hr.
Qed.

(** A turn that ends the loop finds the connection stopped or fails the agent. *)
Lemma process_run ev s r s' tr : conn_thread_process ev s = Some (r, s', tr) -> r < 0 ->
  (exists c, t_conn s' = Some c /\ stopped c = true) \/ has_failed s'.
Proof.
  unfold conn_thread_process. intros (c & s1 & t1 & t2 & Hc & Hr & _)%bind_run Hneg. apply get_conn_same in Hc as [-> Hc].
  assert (Hupd : forall x y z, (_ ← conn_update; mret 0) x = Some (r, y, z) -> False).
  { intros x y z (u & a & t3 & t4 & _ & Hx & _)%bind_run. apply ret_run in Hx as (-> & _). lia. }
  destruct (stopped c) eqn:Hs; [apply ret_run in Hr as (_ & -> & _); left; by exists c|].
  destruct (ev_error ev); [right; by eapply fail_thread_run|]. destruct (ev_in ev).
  - apply bind_run in Hr as (ret & s2 & t3 & t4 & Hl & Hr & _). apply recv_loop_agent in Hl. destruct ret as [ret|]; [|done].
    destruct (ret <? 0); [right; by eapply fail_thread_run|by apply Hupd in Hr].
  - destruct (_ <=? _); [by apply Hupd in Hr|]. apply ret_run in Hr as (-> & _). lia.
Qed.
End Leaves.

(** C38: the thread of an agent leaves its loop only when the connection is stopped or
    the agent has failed, and then sends no more, as long as the calls of poll succeed
    or are interrupted, whatever the other threads do while it waits; and the thread of
    a stopped connection leaves at its next turn. *)
Theorem thread_run_leaves `{Crypto} :
  (forall turns s s' tr, Forall poll_survives turns -> conn_thread_run turns s = Some (true, s', tr) ->
    (exists c, t_conn s' = Some c /\ stopped c = true) \/ has_failed s') /\
  (forall t turns s c, t_conn s = Some c -> stopped c = true -> conn_thread_run (t :: turns) s = Some (true, s, [])).
Proof.
  split.
  - intros turns s s' tr Hs. revert s tr. induction Hs as [|t turns Ht _ IH]; intros s tr Hr; cbn [conn_thread_run] in Hr; [done|].
    apply bind_run in Hr as (ready & s1 & t1 & t2 & Hp & Hr & _). unfold conn_thread_prepare in Hp.
    apply bind_run in Hp as (c & s2 & t3 & t4 & Hc & Hp & _). apply get_conn_same in Hc as [-> Hc]. apply ret_run in Hp as (-> & -> & _).
    destruct (stopped c) eqn:Hst; [apply ret_run in Hr as (_ & -> & _); left; by exists c|].
    apply bind_run in Hr as (u & s4 & t7 & t8 & _ & Hr & _). unfold poll_survives in Ht.
    destruct (poll_gives t) as [err|ev].
    + replace ((err =? SEINTR) || (err =? SEAGAIN)) with true in Hr by (destruct Ht as [->| ->]; done). by eapply IH.
    + apply bind_run in Hr as (ret & s3 & t5 & t6 & Hx & Hr & _). destruct (Z.ltb_spec ret 0) as [Hn|_]; [|by eapply IH].
      apply ret_run in Hr as (_ & -> & _). by eapply process_run.
  - intros t turns s c Hc Hst. cbn [conn_thread_run]. unfold conn_thread_prepare, get_conn.
    rewrite (bind_quiet _ _ s None s); [done|]. rewrite (bind_quiet _ _ s c s); [by rewrite Hst|]. by rewrite bind_get, Hc.
Qed.

(** ** A thread whose socket fails *)

Definition failing_socket : ThreadSocket := {|
  new_socket := Some 5; start_thread := 0; send_result := fun _ data => (zlen data, 0); diffserv_result := fun _ => 0;
  wake_result := 0; socket_addrs := (0, []); recv_calls := [inr SECONNREFUSED; inl ([], addr_record_zero); inr SEAGAIN] |}.
Definition alice_thread : thread_t :=
  {| t_agent := peer_agent (new_peer alice_addr 70); t_conn := Some (new_conn 5) |}.
Definition thread_turns : list turn_t :=
  let turn r := {| meanwhile := mret tt; process_time := host_system alice_addr 1010; poll_gives := r; turn_socket := failing_socket |} in
  [turn (Polled {| ev_error := false; ev_in := true |}); turn (PollFailed SEINTR); turn (Polled {| ev_error := true; ev_in := false |})].

Lemma thread_run_leaves_witness : Forall poll_survives thread_turns /\
  exists s' tr, @conn_thread_run sum_crypto thread_turns alice_thread = Some (true, s', tr) /\
    ((exists c, t_conn s' = Some c /\ stopped c = true) \/ has_failed s').
Proof.
  assert (Hs : Forall poll_survives thread_turns) by (repeat constructor; cbn; auto). split; [exact Hs|].
  assert (Hr : exists s' tr, @conn_thread_run sum_crypto thread_turns alice_thread = Some (true, s', tr)) by (eexists _, _; vm_compute; reflexivity).
  destruct Hr as (s' & tr & Hr). exists s', tr. split; [exact Hr|]. exact (proj1 (@thread_run_leaves sum_crypto) thread_turns _ _ _ Hs Hr).
Defined.
