(* ===== verification/Conn.v ===== *)
(** * Connections and their registries (src/conn.c, src/conn.h)

    Agents share registries, which a mode creates with the first connection and
    destroys with the last one.  The functions of a mode are a record, as the table
    [mode_entries] of the code; what they promise is the class [ModeLaws], against
    which the registries are proved safe.  The three modes are instances (ConnModes.v).
    Mutexes are not modelled: every operation here holds that of its entry. *)

From S2P Require Import Prelude Effects Addr Udp AgentTypes.
From stdpp Require Import list gmap.
#[local] Open Scope Z_scope.

Definition INITIAL_REGISTRY_SIZE : nat := 16.

(** ** State *)

Section State.
Context {I C G : Type}.

(** [agents_size] is the length of [agents]; [impl] is null until the mode has set
    the registry up. *)
Record conn_registry_t := { impl : option I; agents : list (option positive); agents_count : Z }.

(** What an agent has of its connection. *)
Record agent_conn_t := { registry : option positive; conn_index : Z; conn_impl : option C }.

(** A mode: the registry of its entry, the registries in memory, the agents and the
    variables of the mode. *)
Record conns_t := {
  entry_registry : option positive;
  registries : gmap positive conn_registry_t;
  users : gmap positive agent_conn_t;
  globals : G
}.

(** The functions of a mode.  A function of a registry gives the result, the new
    [impl] and the new variables; [None] is an assertion that fails. *)
Record conn_mode_entry_t := {
  registry_init_func : option (udp_socket_config_t -> positive -> G -> option (Z * option I * G));
  registry_cleanup_func : option (positive -> option I -> G -> option G);
  init_func : positive -> option positive -> udp_socket_config_t -> Z * option C;
  cleanup_func : positive -> C -> option I -> option (option I);
  interrupt_func : C -> Z * C;
  get_registry_func : option (udp_socket_config_t -> gmap positive I -> G -> option (option positive));
  can_release_registry_func : option (option I -> bool)
}.

Inductive conn_event := RegistryCreated (r : positive) | RegistryDestroyed (r : positive).
Abbreviation ConnM := (eff conns_t conn_event).

Definition with_entry (s : conns_t) (v : option positive) : conns_t :=
  {| entry_registry := v; registries := registries s; users := users s; globals := globals s |}.
Definition with_registries (s : conns_t) (v : gmap positive conn_registry_t) : conns_t :=
  {| entry_registry := entry_registry s; registries := v; users := users s; globals := globals s |}.
Definition with_users (s : conns_t) (v : gmap positive agent_conn_t) : conns_t :=
  {| entry_registry := entry_registry s; registries := registries s; users := v; globals := globals s |}.
Definition with_globals (s : conns_t) (v : G) : conns_t :=
  {| entry_registry := entry_registry s; registries := registries s; users := users s; globals := v |}.

Definition with_impl (R : conn_registry_t) (v : option I) : conn_registry_t :=
  {| impl := v; agents := agents R; agents_count := agents_count R |}.
Definition with_agents (R : conn_registry_t) (l : list (option positive)) (n : Z) : conn_registry_t :=
  {| impl := impl R; agents := l; agents_count := n |}.

Definition modify (f : conns_t -> conns_t) : ConnM unit := s ← get; put (f s).

(** Reading and writing a registry, which must be in memory, and an agent. *)
Definition get_registry (r : positive) : ConnM conn_registry_t := s ← get; defined (registries s !! r).
Definition set_registry (r : positive) (R : conn_registry_t) : ConnM unit :=
  modify (fun s => with_registries s (<[r := R]> (registries s))).
Definition get_user (a : positive) : ConnM agent_conn_t := s ← get; defined (users s !! a).
Definition set_user (a : positive) (u : agent_conn_t) : ConnM unit := modify (fun s => with_users s (<[a := u]> (users s))).

(** ** Registries *)

Context (entry : conn_mode_entry_t).

Definition find_registry (config : udp_socket_config_t) : ConnM (option positive) :=
  s ← get;
  match get_registry_func entry with
  | Some f => defined (f config (omap impl (registries s)) (globals s))
  | None => mret (entry_registry s)
  end.

(** A new registry, in memory that was not in use. *)
Definition create_registry (init : udp_socket_config_t -> positive -> G -> option (Z * option I * G)) (config : udp_socket_config_t)
  : ConnM (Z * option positive) :=
  s ← get;
  let r := fresh (dom (registries s)) in
  let R := {| impl := None; agents := replicate INITIAL_REGISTRY_SIZE None; agents_count := 0 |} in
  _ ← set_registry r R;
  '(ret, i, g) ← defined (init config r (globals s));
  _ ← modify (fun s => with_globals s g);
  if negb (ret =? 0) then
    _ ← modify (fun s => with_registries s (delete r (registries s))); mret (-1, None)
  else
    _ ← set_registry r (with_impl R i);
    _ ← modify (fun s => with_entry s (Some r));
    _ ← emit (RegistryCreated r);
    mret (0, Some r).

(** The result and the registry that is acquired. *)
Definition acquire_registry (config : udp_socket_config_t) : ConnM (Z * option positive) :=
  found ← find_registry config;
  match found with
  | Some r => _ ← get_registry r; mret (0, Some r)
  | None =>
      match registry_init_func entry with
      | None => mret (0, None)
      | Some init => create_registry init config
      end
  end.

Definition can_release (i : option I) : bool :=
  match can_release_registry_func entry with Some f => f i | None => true end.

Definition release_registry (r : option positive) : ConnM unit :=
  match r with
  | None => mret tt
  | Some r =>
      R ← get_registry r;
      if (agents_count R =? 0) && can_release (impl R) then
        _ ← match registry_cleanup_func entry with
            | Some f => s ← get; g ← defined (f r (impl R) (globals s)); modify (fun s => with_globals s g)
            | None => mret tt
            end;
        _ ← modify (fun s => with_entry s None);
        _ ← modify (fun s => with_registries s (delete r (registries s)));
        emit (RegistryDestroyed r)
      else mret tt
  end.

(** ** Connections *)

(** The first place that is free. *)
Fixpoint free_place (l : list (option positive)) : nat :=
  match l with Some _ :: l => S (free_place l) | _ => O end.

(** The array, with a free place: it is enlarged if it is full. *)
Definition with_room (l : list (option positive)) : option (list (option positive)) :=
  if (free_place l =? length l)%nat then
    if INT_MAX <? Z.of_nat (length l) * 2 then None
    else if 0 <? Z.of_nat (length l) * 2 then Some (l ++ replicate (length l) None) else None
  else Some l.

Definition conn_interrupt (a : positive) : ConnM Z :=
  u ← get_user a;
  match conn_impl u with
  | None => mret (-1)
  | Some c =>
      let '(ret, c) := interrupt_func entry c in
      _ ← set_user a {| registry := registry u; conn_index := conn_index u; conn_impl := Some c |};
      mret ret
  end.

(** The part of [conn_create] with the registry [r]. *)
Definition create_in (a : positive) (config : udp_socket_config_t) (r : positive) : ConnM Z :=
  u ← get_user a;
  R ← get_registry r;
  l ← defined (with_room (agents R));
  _ ← set_registry r (with_agents R l (agents_count R));
  let '(ret, c) := init_func entry a (Some r) config in
  if negb (ret =? 0) then _ ← release_registry (Some r); mret (-1)
  else
    let i := free_place (agents R) in
    R ← get_registry r;
    _ ← set_registry r (with_agents R (<[i := Some a]> (agents R)) (agents_count R + 1));
    _ ← set_user a {| registry := registry u; conn_index := Z.of_nat i; conn_impl := c |};
    _ ← conn_interrupt a;
    mret 0.

Definition create_alone (a : positive) (config : udp_socket_config_t) : ConnM Z :=
  u ← get_user a;
  let '(ret, c) := init_func entry a None config in
  if negb (ret =? 0) then mret (-1)
  else
    _ ← set_user a {| registry := registry u; conn_index := -1; conn_impl := c |};
    _ ← conn_interrupt a;
    mret 0.

Definition conn_create (a : positive) (config : udp_socket_config_t) : ConnM Z :=
  '(ret, r) ← acquire_registry config;
  if negb (ret =? 0) then mret (-1)
  else
    u ← get_user a;
    _ ← set_user a {| registry := r; conn_index := conn_index u; conn_impl := conn_impl u |};
    match r with Some r => create_in a config r | None => create_alone a config end.

(** [entry->cleanup_func(agent)]: the connection must exist. *)
Definition cleanup_conn (a : positive) : ConnM unit :=
  u ← get_user a;
  c ← defined (conn_impl u);
  _ ← match registry u with
      | Some r =>
          R ← get_registry r;
          i ← defined (cleanup_func entry a c (impl R));
          set_registry r (with_impl R i)
      | None => _ ← defined (cleanup_func entry a c None); mret tt
      end;
  set_user a {| registry := registry u; conn_index := conn_index u; conn_impl := None |}.

(** The place of the agent is given back. *)
Definition leave_registry (a r : positive) : ConnM unit :=
  u ← get_user a;
  _ ← (if 0 <=? conn_index u then
         R ← get_registry r;
         x ← defined (agents R !! Z.to_nat (conn_index u));
         if negb (bool_decide (x = Some a)) then defined None
         else
           _ ← set_registry r (with_agents R (<[Z.to_nat (conn_index u) := None]> (agents R)) (agents_count R));
           set_user a {| registry := registry u; conn_index := -1; conn_impl := conn_impl u |}
       else mret tt);
  R ← get_registry r;
  _ ← (if agents_count R <=? 0 then defined None else set_registry r (with_agents R (agents R) (agents_count R - 1)));
  u ← get_user a;
  set_user a {| registry := None; conn_index := conn_index u; conn_impl := conn_impl u |}.

Definition conn_destroy (a : positive) : ConnM unit :=
  u ← get_user a;
  match registry u with
  | Some r =>
      _ ← cleanup_conn a;
      _ ← leave_registry a r;
      release_registry (Some r)
  | None =>
      _ ← cleanup_conn a;
      u ← get_user a;
      if conn_index u <? 0 then mret tt else defined None
  end.

(** ** Operations on the registry of a port *)

(** [juice_mux_listen] and, with a callback, [juice_mux_listen_pending]: the registry
    is acquired, which creates it if there is none, and released. *)
Definition mux_listen_operation (config : udp_socket_config_t) (op : I -> option (Z * I)) : ConnM Z :=
  '(ret, r) ← acquire_registry config;
  if negb (ret =? 0) then mret JUICE_ERR_FAILED
  else
    r ← defined r;
    R ← get_registry r;
    i ← defined (impl R);
    '(result, i) ← defined (op i);
    _ ← set_registry r (with_impl R (Some i));
    _ ← release_registry (Some r);
    mret result.

(** [mux_request_operation] and [juice_mux_get_stats]: the registry must exist. *)
Definition mux_request_operation (config : udp_socket_config_t) (op : positive -> I -> option (Z * I)) : ConnM Z :=
  found ← find_registry config;
  match found with
  | None => mret JUICE_ERR_NOT_AVAIL
  | Some r =>
      R ← get_registry r;
      i ← defined (impl R);
      '(result, i) ← defined (op r i);
      _ ← set_registry r (with_impl R (Some i));
      mret result
  end.
End State.

(** ** What a mode promises *)

Class ModeLaws {I C G : Type} (entry : conn_mode_entry_t (I := I) (C := C) (G := G)) := {
  impl_ok : I -> Prop;
  (** The variables of the mode agree with the registries in memory. *)
  mode_ok : gmap positive I -> G -> Prop;
  (** What an operation on a registry keeps. *)
  same_place : I -> I -> Prop;
  same_place_refl i : same_place i i;
  mode_ok_same regs g r i i' : mode_ok regs g -> regs !! r = Some i -> same_place i i' -> mode_ok (<[r := i']> regs) g;
  registry_init_law f config r regs g : registry_init_func entry = Some f -> mode_ok regs g -> regs !! r = None ->
    Z.of_nat (size regs) < 2 ^ 30 ->
    exists ret i g', f config r g = Some (ret, i, g') /\
      if ret =? 0 then exists x, i = Some x /\ impl_ok x /\ mode_ok (<[r := x]> regs) g' else mode_ok regs g';
  registry_cleanup_law f r i regs g : registry_cleanup_func entry = Some f -> mode_ok regs g -> regs !! r = Some i -> impl_ok i ->
    exists g', f r (Some i) g = Some g' /\ mode_ok (delete r regs) g';
  registry_cleanup_null regs g r : registry_cleanup_func entry = None -> mode_ok regs g -> mode_ok (delete r regs) g;
  init_law a r config : exists ret c, init_func entry a r config = (ret, c) /\ if ret =? 0 then is_Some c else c = None;
  cleanup_law a c i : impl_ok i -> exists i', cleanup_func entry a c (Some i) = Some (Some i') /\ impl_ok i' /\ same_place i i';
  cleanup_alone a c : registry_init_func entry = None -> exists i, cleanup_func entry a c None = Some i;
  get_registry_law f config regs g : get_registry_func entry = Some f -> mode_ok regs g ->
    exists o, f config regs g = Some o /\ forall r, o = Some r -> is_Some (regs !! r)
}.

(** ** The registries are sound *)

Section Sound.
Context {I C G : Type} (entry : conn_mode_entry_t (I := I) (C := C) (G := G)) `{!ModeLaws entry}.
Implicit Types (s : conns_t (I := I) (C := C) (G := G)) (R : conn_registry_t (I := I)).

(** The place of an agent in its registry. *)
Definition placed (regs : gmap positive (conn_registry_t (I := I))) (r : positive) (i : nat) (a : positive) : Prop :=
  exists R, regs !! r = Some R /\ agents R !! i = Some (Some a).

(** A registry that is set up, with as many agents as it counts. *)
Definition registry_ok R : Prop := (exists x, impl R = Some x /\ impl_ok x) /\ agents_count R = zlen (omap id (agents R)) /\ (0 < length (agents R))%nat.

(** A registry is in use: it has an agent, or the mode keeps it. *)
Definition in_use R : Prop := 0 < agents_count R \/ can_release entry (impl R) = false.

(** The agents and the registries agree; an agent that has no connection is in none.
    [but] is a registry that is being worked on and may be out of use. *)
Record conns_ok (but : option positive) s : Prop := {
  ok_placed r i a : placed (registries s) r i a ->
    exists u c, users s !! a = Some u /\ conn_impl u = Some c /\ registry u = Some r /\ conn_index u = Z.of_nat i;
  ok_user a u c : users s !! a = Some u -> conn_impl u = Some c ->
    match registry u with Some r => exists i, conn_index u = Z.of_nat i /\ placed (registries s) r i a | None => conn_index u < 0 /\ registry_init_func entry = None end;
  ok_registry r R : registries s !! r = Some R -> registry_ok R;
  ok_in_use r R : registries s !! r = Some R -> but <> Some r -> in_use R;
  ok_entry : get_registry_func entry = None -> forall r, is_Some (registries s !! r) <-> entry_registry s = Some r;
  ok_mode : mode_ok (omap impl (registries s)) (globals s)
}.

Lemma lookup_impl (regs : gmap positive (conn_registry_t (I := I))) r R x : regs !! r = Some R -> impl R = Some x -> omap impl regs !! r = Some x.
Proof. intros HR Hx. rewrite lookup_omap, HR. done. Qed.

Lemma impl_live (regs : gmap positive (conn_registry_t (I := I))) r : is_Some (omap impl regs !! r) -> is_Some (regs !! r).
Proof. rewrite lookup_omap. destruct (regs !! r); [by eexists|by intros [? ?] ]. Qed.

Lemma impl_count (regs : gmap positive (conn_registry_t (I := I))) : (size (omap impl regs) <= size regs)%nat.
Proof.
  rewrite <- (size_dom (omap impl regs)), <- (size_dom regs). apply subseteq_size. intros r. rewrite !elem_of_dom. apply impl_live.
Qed.

Lemma get_registry_run r s R : registries s !! r = Some R -> get_registry r s = Some (R, s, []).
Proof. intros HR. unfold get_registry. by rewrite bind_get, HR. Qed.
Lemma get_user_run a s u : users s !! a = Some u -> get_user a s = Some (u, s, []).
Proof. intros Hu. unfold get_user. by rewrite bind_get, Hu. Qed.
Lemma bind_set_registry {A} r R s (k : unit -> eff conns_t conn_event A) :
  (x ← set_registry r R; k x) s = k tt (with_registries s (<[r := R]> (registries s))).
Proof. by apply bind_quiet. Qed.
Lemma bind_set_user {A} a u s (k : unit -> eff conns_t conn_event A) :
  (x ← set_user a u; k x) s = k tt (with_users s (<[a := u]> (users s))).
Proof. by apply bind_quiet. Qed.
Lemma bind_modify {A} f s (k : unit -> eff conns_t conn_event A) : (x ← modify f; k x) s = k tt (f s).
Proof. by apply bind_quiet. Qed.

(** Finding a registry. *)
Lemma find_registry_run but config s : conns_ok but s -> exists o, find_registry entry config s = Some (o, s, []) /\
  (forall r, o = Some r -> is_Some (registries s !! r)) /\ (get_registry_func entry = None -> o = entry_registry s).
Proof.
  intros Hs. unfold find_registry. rewrite bind_get. destruct (get_registry_func entry) as [f|] eqn:Hf.
  - destruct (get_registry_law f config _ _ Hf (ok_mode _ _ Hs)) as (o & Ho & Hl). rewrite Ho. exists o. split; [done|].
    split; [|done]. intros r ->. apply impl_live. by apply Hl.
  - exists (entry_registry s). split; [done|]. split; [|done]. intros r Hr. by apply (ok_entry _ _ Hs Hf).
Qed.

(** *** Working on one registry *)

(** A registry whose agents keep their places, with an [impl] in the same place. *)
Lemma touch_registry but s r R R' x y : conns_ok but s -> (but = None \/ but = Some r) -> registries s !! r = Some R ->
  impl R = Some x -> impl R' = Some y -> same_place x y -> registry_ok R' ->
  (forall i a, agents R' !! i = Some (Some a) <-> agents R !! i = Some (Some a)) ->
  conns_ok (Some r) (with_registries s (<[r := R']> (registries s))).
Proof.
  intros [H1 H2 H3 H4 H5 H6] Hbut HR Hx Hy Hxy HR' Hag.
  assert (Hpl : forall r' i a, placed (<[r := R']> (registries s)) r' i a <-> placed (registries s) r' i a).
  { intros r' i a. unfold placed. destruct (decide (r = r')) as [<-|Hn]; [|by rewrite lookup_insert_ne].
    rewrite lookup_insert_eq. split; intros (Q & [= <-] & HQ) || intros (Q & HQ' & HQ); [exists R; by rewrite <- Hag|].
    rewrite HR in HQ'. injection HQ' as <-. exists R'. by rewrite Hag. }
  split; cbn [registries users entry_registry globals with_registries].
  - intros r' i a Hp. by apply H1, Hpl.
  - intros a u c Hu Hc. specialize (H2 a u c Hu Hc). destruct (registry u) as [q|]; [|done]. destruct H2 as (i & Hi & Hp).
    exists i. split; [done|]. by apply Hpl.
  - intros r' Q. destruct (decide (r = r')) as [<-|Hn]; [rewrite lookup_insert_eq; by intros [= <-]|rewrite lookup_insert_ne by done; apply H3].
  - intros r' Q HQ Hn. destruct (decide (r = r')) as [<-|Hn']; [done|]. rewrite lookup_insert_ne in HQ by done. apply (H4 _ _ HQ).
    destruct Hbut as [->| ->]; [done|]. by intros [= ->].
  - intros Hg r'. rewrite <- (H5 Hg). destruct (decide (r = r')) as [<-|Hn]; [rewrite lookup_insert_eq, HR; by split; eexists|by rewrite lookup_insert_ne].
  - rewrite omap_insert, Hy. eapply mode_ok_same; [exact H6|by apply (lookup_impl _ _ R)|done].
Qed.

(** The agents that have a connection take different places. *)
Lemma place_unique but s r r' i i' a : conns_ok but s -> placed (registries s) r i a -> placed (registries s) r' i' a -> r = r' /\ i = i'.
Proof.
  intros Hs (u & c & Hu & _ & Hr & Hi)%(ok_placed _ _ Hs) (u' & c' & Hu' & _ & Hr' & Hi')%(ok_placed _ _ Hs).
  assert (u = u') as <- by congruence. split; [congruence|lia].
Qed.

Lemma omap_insert_some (l : list (option positive)) i a : l !! i = Some None -> zlen (omap id (<[i := Some a]> l)) = zlen (omap id l) + 1.
Proof.
  intros Hi. rewrite <- (take_drop_middle l i None Hi) at 2. rewrite (insert_take_drop l i) by (by apply lookup_lt_is_Some; eexists).
  rewrite !omap_app. cbn. unfold zlen. rewrite !length_app. cbn. lia.
Qed.
Lemma omap_insert_none (l : list (option positive)) i a : l !! i = Some (Some a) -> zlen (omap id (<[i := None]> l)) = zlen (omap id l) - 1.
Proof.
  intros Hi. rewrite <- (take_drop_middle l i (Some a) Hi) at 2. rewrite (insert_take_drop l i) by (by apply lookup_lt_is_Some; eexists).
  rewrite !omap_app. cbn. unfold zlen. rewrite !length_app. cbn. lia.
Qed.
Lemma omap_placed (l : list (option positive)) a : a ∈ omap id l <-> exists i, l !! i = Some (Some a).
Proof.
  rewrite list_elem_of_omap. split.
  - intros (o & Ho & Ha). cbn in Ha. subst o. by apply list_elem_of_lookup.
  - intros [i Hi]. exists (Some a). split; [by eapply list_elem_of_lookup_2|done].
Qed.

(** An agent takes a place. *)
Lemma join_registry s r R i a u c : conns_ok (Some r) s -> registries s !! r = Some R -> agents R !! i = Some None ->
  users s !! a = Some u -> conn_impl u = None ->
  conns_ok None (with_users (with_registries s (<[r := with_agents R (<[i := Some a]> (agents R)) (agents_count R + 1)]> (registries s)))
    (<[a := {| registry := Some r; conn_index := Z.of_nat i; conn_impl := Some c |}]> (users s))).
Proof.
  intros [H1 H2 H3 H4 H5 H6] HR Hi Hu Hc. destruct (H3 _ _ HR) as ((x & Hx & Hxo) & Hn & Hlen).
  assert (Hpl : forall r' j b, placed (<[r := with_agents R (<[i := Some a]> (agents R)) (agents_count R + 1)]> (registries s)) r' j b <->
      (r' = r /\ j = i /\ b = a) \/ placed (registries s) r' j b).
  { intros r' j b. unfold placed. destruct (decide (r = r')) as [<-|Hr]; [|rewrite lookup_insert_ne by done; naive_solver].
    rewrite lookup_insert_eq, HR. destruct (decide (i = j)) as [<-|Hj].
    - split; [intros (Q & [= <-] & HQ); cbn in HQ; rewrite list_lookup_insert_eq in HQ by (by apply lookup_lt_is_Some; eexists); naive_solver|].
      intros [(_ & _ & ->)|(Q & [= <-] & HQ)]; [|congruence]. eexists. split; [done|]. cbn. by rewrite list_lookup_insert_eq by (by apply lookup_lt_is_Some; eexists).
    - split; [intros (Q & [= <-] & HQ); cbn in HQ; rewrite list_lookup_insert_ne in HQ by done; naive_solver|].
      intros [(_ & -> & _)|(Q & [= <-] & HQ)]; [done|]. eexists. split; [done|]. cbn. by rewrite list_lookup_insert_ne. }
  assert (Hna : forall r' j, ~ placed (registries s) r' j a).
  { intros r' j (v & d & Hv & Hd & _)%H1. congruence. }
  split; cbn [registries users entry_registry globals with_registries with_users].
  - intros r' j b [(-> & -> & ->)|Hp]%Hpl; [rewrite lookup_insert_eq; by eexists _, c|].
    rewrite lookup_insert_ne by (intros ->; by eapply Hna). by apply H1.
  - intros b v d Hv Hd. destruct (decide (a = b)) as [<-|Hb].
    + rewrite lookup_insert_eq in Hv. injection Hv as <-. cbn. exists i. split; [done|]. apply Hpl. by left.
    + rewrite lookup_insert_ne in Hv by done. specialize (H2 b v d Hv Hd). destruct (registry v); [|done]. destruct H2 as (j & Hj & Hp).
      exists j. split; [done|]. apply Hpl. by right.
  - intros r' Q. destruct (decide (r = r')) as [<-|Hr]; [rewrite lookup_insert_eq; intros [= <-]|rewrite lookup_insert_ne by done; apply H3].
    split; [by exists x|]. cbn. split; [by rewrite omap_insert_some, Hn|by rewrite length_insert].
  - intros r' Q HQ _. destruct (decide (r = r')) as [<-|Hr].
    + rewrite lookup_insert_eq in HQ. injection HQ as <-. left. cbn. rewrite Hn. pose proof (zlen_nonneg (omap id (agents R))). lia.
    + rewrite lookup_insert_ne in HQ by done. apply (H4 _ _ HQ). by intros [= ->].
  - intros Hg r'. rewrite <- (H5 Hg). destruct (decide (r = r')) as [<-|Hr]; [rewrite lookup_insert_eq, HR; by split; eexists|by rewrite lookup_insert_ne].
  - rewrite omap_insert. cbn. rewrite Hx. eapply mode_ok_same; [exact H6|by apply (lookup_impl _ _ R)|apply same_place_refl].
Qed.

(** An agent leaves its place and its connection. *)
Lemma quit_registry s r R i a u c x y : conns_ok None s -> registries s !! r = Some R -> agents R !! i = Some (Some a) ->
  users s !! a = Some u -> conn_impl u = Some c -> impl R = Some x -> same_place x y -> impl_ok y ->
  conns_ok (Some r) (with_users (with_registries s (<[r := {| impl := Some y; agents := <[i := None]> (agents R); agents_count := agents_count R - 1 |}]> (registries s)))
    (<[a := {| registry := None; conn_index := -1; conn_impl := None |}]> (users s))).
Proof.
  intros Hs HR Hi Hu Hc Hx Hxy Hy. destruct (ok_registry _ _ Hs _ _ HR) as (_ & Hn & Hlen).
  assert (Hpa : placed (registries s) r i a) by (by exists R).
  assert (Hpl : forall r' j b, placed (<[r := {| impl := Some y; agents := <[i := None]> (agents R); agents_count := agents_count R - 1 |}]> (registries s)) r' j b <->
      b <> a /\ placed (registries s) r' j b).
  { intros r' j b. split.
    - intros (Q & HQ & Hj). destruct (decide (r = r')) as [<-|Hr].
      + rewrite lookup_insert_eq in HQ. injection HQ as <-. cbn in Hj. apply list_lookup_insert_Some in Hj as [(_ & [=] & _)|[Hij Hj] ].
        assert (Hp : placed (registries s) r j b) by (by exists R). split; [|done]. intros ->. by destruct (place_unique _ _ _ _ _ _ _ Hs Hp Hpa).
      + rewrite lookup_insert_ne in HQ by done. assert (Hp : placed (registries s) r' j b) by (by exists Q). split; [|done].
        intros ->. by destruct (place_unique _ _ _ _ _ _ _ Hs Hp Hpa).
    - intros (Hb & Q & HQ & Hj). unfold placed. destruct (decide (r = r')) as [<-|Hr]; [|rewrite lookup_insert_ne by done; by exists Q].
      rewrite lookup_insert_eq. rewrite HR in HQ. injection HQ as <-. eexists. split; [done|]. cbn. rewrite list_lookup_insert_ne; [done|].
      intros <-. congruence. }
  destruct Hs as [H1 H2 H3 H4 H5 H6]. split; cbn [registries users entry_registry globals with_registries with_users].
  - intros r' j b [Hb Hp]%Hpl. rewrite lookup_insert_ne by done. by apply H1.
  - intros b v d Hv Hd. destruct (decide (a = b)) as [<-|Hb]; [rewrite lookup_insert_eq in Hv; by injection Hv as <-|].
    rewrite lookup_insert_ne in Hv by done. specialize (H2 b v d Hv Hd). destruct (registry v); [|done]. destruct H2 as (j & Hj & Hp).
    exists j. split; [done|]. by apply Hpl.
  - intros r' Q. destruct (decide (r = r')) as [<-|Hr]; [rewrite lookup_insert_eq; intros [= <-]|rewrite lookup_insert_ne by done; apply H3].
    split; [by exists y|]. cbn. split; [by rewrite (omap_insert_none _ _ a), Hn|by rewrite length_insert].
  - intros r' Q HQ Hn'. destruct (decide (r = r')) as [<-|Hr]; [done|]. rewrite lookup_insert_ne in HQ by done. by apply (H4 _ _ HQ).
  - intros Hg r'. rewrite <- (H5 Hg). destruct (decide (r = r')) as [<-|Hr]; [rewrite lookup_insert_eq, HR; by split; eexists|by rewrite lookup_insert_ne].
  - rewrite omap_insert. cbn. eapply mode_ok_same; [exact H6|by apply (lookup_impl _ _ R)|done].
Qed.

(** Other fields of an agent without a connection, and the connection of one that has it. *)
Lemma set_user_ok but s a u v : conns_ok but s -> users s !! a = Some u ->
  (conn_impl u = None /\ conn_impl v = None \/ is_Some (conn_impl u) /\ is_Some (conn_impl v) /\ registry v = registry u /\ conn_index v = conn_index u) ->
  conns_ok but (with_users s (<[a := v]> (users s))).
Proof.
  intros [H1 H2 H3 H4 H5 H6] Hu Hv. split; cbn [registries users entry_registry globals with_users]; try done.
  - intros r i b Hp. destruct (H1 r i b Hp) as (w & c & Hw & Hc & Hr & Hi). destruct (decide (a = b)) as [<-|Hb]; [|rewrite lookup_insert_ne by done; by exists w, c].
    rewrite lookup_insert_eq. assert (w = u) as -> by congruence. destruct Hv as [ [Hn _]|(_ & [d Hd] & Hr' & Hi')]; [congruence|].
    exists v, d. by rewrite Hr', Hi'.
  - intros b w c Hw Hc. destruct (decide (a = b)) as [<-|Hb]; [|rewrite lookup_insert_ne in Hw by done; by apply (H2 b w c)].
    rewrite lookup_insert_eq in Hw. injection Hw as <-. destruct Hv as [ [_ Hn]|([d Hd] & _ & Hr & Hi)]; [congruence|]. rewrite Hr, Hi. by apply (H2 a u d).
Qed.

(** A connection without a registry comes or goes. *)
Lemma alone_ok s a u v : conns_ok None s -> users s !! a = Some u -> (forall r i, ~ placed (registries s) r i a) ->
  registry v = None -> conn_index v < 0 -> (conn_impl v = None \/ registry_init_func entry = None) -> conns_ok None (with_users s (<[a := v]> (users s))).
Proof.
  intros [H1 H2 H3 H4 H5 H6] Hu Hna Hr Hi Hor. split; cbn [registries users entry_registry globals with_users]; try done.
  - intros r i b Hp. rewrite lookup_insert_ne by (intros ->; by eapply Hna). by apply H1.
  - intros b w c Hw Hc. destruct (decide (a = b)) as [<-|Hb]; [|rewrite lookup_insert_ne in Hw by done; by apply (H2 b w c)].
    rewrite lookup_insert_eq in Hw. injection Hw as <-. rewrite Hr. split; [done|]. destruct Hor; [congruence|done].
Qed.

(** *** Acquiring and releasing *)

Definition few {K A} `{Countable K} (m : gmap K A) : Prop := Z.of_nat (size m) < 2 ^ 30.

(** A new registry has no agents. *)
Lemma new_registry_ok s g r x : conns_ok None s -> registries s !! r = None -> impl_ok x ->
  (get_registry_func entry = None -> entry_registry s = None) -> mode_ok (<[r := x]> (omap impl (registries s))) g ->
  conns_ok (Some r) {| entry_registry := Some r;
    registries := <[r := {| impl := Some x; agents := replicate INITIAL_REGISTRY_SIZE None; agents_count := 0 |}]> (registries s);
    users := users s; globals := g |}.
Proof.
  intros [H1 H2 H3 H4 H5 H6] Hr Hx He Hm.
  assert (Hpl : forall r' i a, placed (<[r := {| impl := Some x; agents := replicate INITIAL_REGISTRY_SIZE None; agents_count := 0 |}]> (registries s)) r' i a <-> placed (registries s) r' i a).
  { intros r' i a. unfold placed. destruct (decide (r = r')) as [<-|Hn]; [|by rewrite lookup_insert_ne]. rewrite lookup_insert_eq, Hr.
    split; [intros (Q & [= <-] & HQ); by apply (lookup_replicate INITIAL_REGISTRY_SIZE None (Some a) i) in HQ as [? _]|by intros (Q & ? & _)]. }
  split; cbn [registries users entry_registry globals].
  - intros r' i a Hp. by apply H1, Hpl.
  - intros a u c Hu Hc. specialize (H2 a u c Hu Hc). destruct (registry u); [|done]. destruct H2 as (i & Hi & Hp). exists i. split; [done|]. by apply Hpl.
  - intros r' Q. destruct (decide (r = r')) as [<-|Hn]; [rewrite lookup_insert_eq; intros [= <-]|rewrite lookup_insert_ne by done; apply H3].
    split; [by exists x|]. cbn. split; [done|lia].
  - intros r' Q HQ Hn'. destruct (decide (r = r')) as [<-|Hn]; [done|]. rewrite lookup_insert_ne in HQ by done. by apply (H4 _ _ HQ).
  - intros Hg r'. destruct (decide (r = r')) as [<-|Hn]; [rewrite lookup_insert_eq; by split; [|by eexists]|]. rewrite lookup_insert_ne by done.
    rewrite (H5 Hg), (He Hg). split; [done|]. by intros [= ->].
  - by rewrite omap_insert.
Qed.

Lemma acquire_run config s : conns_ok None s -> few (registries s) -> exists ret o s' tr, acquire_registry entry config s = Some ((ret, o), s', tr) /\ users s' = users s /\
  if ret =? 0 then match o with Some r => conns_ok (Some r) s' /\ is_Some (registries s' !! r) | None => s' = s /\ registry_init_func entry = None end else conns_ok None s'.
Proof.
  intros Hs Hf. unfold acquire_registry. destruct (find_registry_run None config s Hs) as (o & Ho & Hl & He). rewrite (bind_quiet _ _ _ _ _ Ho).
  destruct o as [r|].
  { destruct (Hl r (eq_refl _)) as [R HR]. rewrite (bind_quiet _ _ _ _ _ (get_registry_run r s R HR)). exists 0, (Some r), s, []. split; [done|]. split; [done|].
    cbn. split; [|by exists R]. destruct Hs as [H1 H2 H3 H4 H5 H6]. split; try done. intros r' Q HQ _. by apply (H4 _ _ HQ). }
  destruct (registry_init_func entry) as [f|] eqn:Hi; [|by exists 0, None, s, []]. unfold create_registry. rewrite bind_get. cbv zeta.
  set (r := fresh (dom (registries s))). assert (Hr : registries s !! r = None) by (apply not_elem_of_dom, is_fresh).
  rewrite bind_set_registry. assert (Hri : omap impl (registries s) !! r = None) by (by rewrite lookup_omap, Hr).
  destruct (registry_init_law f config r _ _ Hi (ok_mode _ _ Hs) Hri) as (ret & i & g & Hfr & Hret).
  { unfold few in Hf. pose proof (impl_count (registries s)). lia. }
  rewrite (bind_defined _ _ _ _ Hfr), bind_modify. destruct (Z.eqb_spec ret 0) as [->|Hne]; cbn [negb].
  - destruct Hret as (x & -> & Hx & Hm). rewrite bind_set_registry, bind_modify. eexists 0, (Some r), _, _. split; [cbn; reflexivity|]. split; [reflexivity|]. cbn.
    rewrite insert_insert_eq. split; [|rewrite lookup_insert_eq; by eexists]. refine (new_registry_ok s g r x Hs Hr Hx _ Hm). intros Hg. by rewrite <- (He Hg).
  - rewrite bind_modify. eexists (-1), None, _, _. split; [reflexivity|]. split; [done|]. cbn. rewrite delete_insert_id by done.
    destruct Hs as [H1 H2 H3 H4 H5 H6]. by split.
Qed.

(** A registry that is not in use is destroyed. *)
Lemma release_run s r R : conns_ok (Some r) s -> registries s !! r = Some R -> exists s' tr, release_registry entry (Some r) s = Some (tt, s', tr) /\
  users s' = users s /\ conns_ok None s'.
Proof.
  intros Hs HR. cbn [release_registry]. rewrite (bind_quiet _ _ _ _ _ (get_registry_run r s R HR)).
  destruct ((agents_count R =? 0) && can_release entry (impl R)) eqn:Hrel.
  2: { exists s, []. split; [done|]. split; [done|]. destruct Hs as [H1 H2 H3 H4 H5 H6]. split; try done. intros r' Q HQ _.
       destruct (decide (r = r')) as [<-|Hn]; [|apply (H4 _ _ HQ); by intros [= ->] ]. assert (Q = R) as -> by congruence. unfold in_use.
       destruct (H3 _ _ HR) as (_ & Hn & _). pose proof (zlen_nonneg (omap id (agents R))). destruct (Z.eqb_spec (agents_count R) 0); [by right|left; lia]. }
  apply andb_prop in Hrel as [Hz%Z.eqb_eq Hcan].
  assert (Hna : forall i a, ~ placed (registries s) r i a).
  { intros i a (Q & HQ & Hi). assert (Q = R) as -> by congruence. destruct (ok_registry _ _ Hs _ _ HR) as (_ & Hn & _). rewrite Hz in Hn.
    assert (Ha : a ∈ omap id (agents R)) by (apply omap_placed; by exists i). destruct (omap id (agents R)); [by apply not_elem_of_nil in Ha|].
    rewrite zlen_cons in Hn. pose proof (zlen_nonneg l). lia. }
  destruct (ok_registry _ _ Hs _ _ HR) as ((x & Hx & Hxo) & _). assert (Hxi : omap impl (registries s) !! r = Some x) by (by apply (lookup_impl _ _ R)).
  assert (Hg : exists g, (match registry_cleanup_func entry with
      | Some f => s0 ← get; g ← defined (f r (impl R) (globals s0)); modify (fun s => with_globals s g)
      | None => mret tt end) s = Some (tt, with_globals s g, []) /\ mode_ok (delete r (omap impl (registries s))) g).
  { destruct (registry_cleanup_func entry) as [f|] eqn:Hf.
    - destruct (registry_cleanup_law f r x _ _ Hf (ok_mode _ _ Hs) Hxi Hxo) as (g & Hfg & Hm). exists g. split; [|done].
      rewrite bind_get, Hx, (bind_defined _ _ _ _ Hfg). done.
    - exists (globals s). split; [by destruct s|]. by apply registry_cleanup_null, (ok_mode _ _ Hs). }
  destruct Hg as (g & Hg & Hm). rewrite (bind_quiet _ _ _ _ _ Hg), bind_modify, bind_modify. eexists _, _. split; [reflexivity|]. split; [done|].
  destruct Hs as [H1 H2 H3 H4 H5 H6].
  assert (Hpl : forall r' i a, placed (delete r (registries s)) r' i a <-> placed (registries s) r' i a).
  { intros r' i a. unfold placed. destruct (decide (r = r')) as [<-|Hn]; [|by rewrite lookup_delete_ne]. rewrite lookup_delete_eq.
    split; [by intros (Q & ? & _)|]. intros Hp. by destruct (Hna i a). }
  split; cbn [registries users entry_registry globals with_registries with_globals with_entry].
  - intros r' i a Hp. by apply H1, Hpl.
  - intros a u c Hu Hc. specialize (H2 a u c Hu Hc). destruct (registry u); [|done]. destruct H2 as (i & Hi & Hp). exists i. split; [done|]. by apply Hpl.
  - intros r' Q [_ HQ]%lookup_delete_Some. by eapply H3.
  - intros r' Q [Hn HQ]%lookup_delete_Some _. apply (H4 _ _ HQ). by intros [= ->].
  - intros Hgf r'. split; [|done]. intros [Q [Hn HQ]%lookup_delete_Some]. assert (H0 : entry_registry s = Some r) by (apply H5; [done|by exists R]).
    assert (H0' : entry_registry s = Some r') by (apply H5; [done|by exists Q]). congruence.
  - by rewrite omap_delete.
Qed.

(** *** Connections *)

Lemma omap_distinct (l : list (option positive)) : (forall i j a, l !! i = Some (Some a) -> l !! j = Some (Some a) -> i = j) -> NoDup (omap id l).
Proof.
  induction l as [|o l IH]; intros Hd; [constructor|]. assert (Hl : NoDup (omap id l)).
  { apply IH. intros i j a Hi Hj. specialize (Hd (S i) (S j) a Hi Hj). lia. }
  destruct o as [a|]; [|exact Hl]. cbn. constructor; [|exact Hl]. intros [i Hi]%omap_placed. by specialize (Hd 0%nat (S i) a (eq_refl _) Hi).
Qed.

(** A registry has no more agents than there are. *)
Lemma agents_few but s r R : conns_ok but s -> registries s !! r = Some R -> zlen (omap id (agents R)) <= Z.of_nat (size (users s)).
Proof.
  intros Hs HR. assert (Hd : NoDup (omap id (agents R))).
  { apply omap_distinct. intros i j a Hi Hj. by destruct (place_unique _ s r r i j a Hs); [exists R|exists R|]. }
  unfold zlen. apply Nat2Z.inj_le. rewrite <- (size_list_to_set (C := gset positive) _ Hd), <- (size_dom (users s)). apply subseteq_size.
  intros a [i Hi]%elem_of_list_to_set%omap_placed. apply elem_of_dom. destruct (ok_placed _ _ Hs r i a) as (u & c & Hu & _); [by exists R|]. by exists u.
Qed.

Lemma free_place_spec l : if (free_place l =? length l)%nat then zlen (omap id l) = Z.of_nat (length l) else l !! free_place l = Some None.
Proof.
  induction l as [| [a|] l IH]; [done| |done]. cbn [free_place length]. change (S (free_place l) =? S (length l))%nat with (free_place l =? length l)%nat.
  destruct (free_place l =? length l)%nat; [|exact IH]. cbn. rewrite zlen_cons. fold (omap (M := list) (@id (option positive)) l). rewrite IH. lia.
Qed.

Lemma with_room_spec l : (0 < length l)%nat -> zlen (omap id l) < 2 ^ 30 -> exists l', with_room l = Some l' /\ l' !! free_place l = Some None /\
  (forall j b, l' !! j = Some (Some b) <-> l !! j = Some (Some b)) /\ zlen (omap id l') = zlen (omap id l) /\ (0 < length l')%nat.
Proof.
  intros Hl Hn. pose proof (free_place_spec l) as Hf. unfold with_room. destruct (Nat.eqb_spec (free_place l) (length l)) as [He|He].
  - rewrite Hf in Hn. rewrite (proj2 (Z.ltb_ge INT_MAX _)), (proj2 (Z.ltb_lt 0 _)) by (unfold INT_MAX; lia). eexists. split; [done|]. rewrite He.
    split; [rewrite lookup_app_r, Nat.sub_diag by done; by rewrite lookup_replicate_2|]. split; [|split; [|rewrite length_app; lia] ].
    + intros j b. rewrite lookup_app_Some. split; [intros [Hj|[_ [Hj _]%lookup_replicate] ]; done|by left].
    + rewrite omap_app. assert (Hr : forall n, omap id (replicate n (None : option positive)) = []) by (intros n; by induction n).
      by rewrite Hr, app_nil_r.
  - exists l. done.
Qed.

Lemma conn_interrupt_run s a u c : users s !! a = Some u -> conn_impl u = Some c -> exists ret d,
  conn_interrupt entry a s = Some (ret, with_users s (<[a := {| registry := registry u; conn_index := conn_index u; conn_impl := Some d |}]> (users s)), []).
Proof.
  intros Hu Hc. unfold conn_interrupt. rewrite (bind_quiet _ _ _ _ _ (get_user_run a s u Hu)), Hc. destruct (interrupt_func entry c) as [ret d].
  rewrite bind_set_user. by exists ret, d.
Qed.

(** The result of [conn_create]: the agent has a connection if it succeeds. *)
Definition connected (s s' : conns_t (I := I) (C := C) (G := G)) (a : positive) (ret : Z) : Prop :=
  (forall b, b <> a -> users s' !! b = users s !! b) /\
  exists u, users s' !! a = Some u /\ if ret =? 0 then is_Some (conn_impl u) else conn_impl u = None.

Lemma create_in_run s a config r u : conns_ok (Some r) s -> is_Some (registries s !! r) -> users s !! a = Some u -> conn_impl u = None ->
  registry u = Some r -> few (users s) ->
  exists ret s' tr, create_in entry a config r s = Some (ret, s', tr) /\ conns_ok None s' /\ connected s s' a ret.
Proof.
  intros Hs [R HR] Hu Hc Hreg Hfew. unfold create_in. rewrite (bind_quiet _ _ _ _ _ (get_user_run a s u Hu)), (bind_quiet _ _ _ _ _ (get_registry_run r s R HR)).
  destruct (ok_registry _ _ Hs _ _ HR) as ((x & Hx & Hxo) & Hn & Hlen). pose proof (agents_few _ _ _ _ Hs HR) as Hle. unfold few in Hfew.
  destruct (with_room_spec (agents R) Hlen ltac:(lia)) as (l & Hl & Hfree & Hsame & Hzl & Hlen'). rewrite (bind_defined _ _ _ _ Hl), bind_set_registry.
  set (R1 := with_agents R l (agents_count R)).
  assert (Hs1 : conns_ok (Some r) (with_registries s (<[r := R1]> (registries s)))).
  { apply (touch_registry (Some r) s r R R1 x x); try done; [by right|apply same_place_refl|]. split; [by exists x|]. cbn. by rewrite Hzl. }
  set (s1 := with_registries s (<[r := R1]> (registries s))) in *. assert (HR1 : registries s1 !! r = Some R1) by (apply lookup_insert_eq).
  destruct (init_law a (Some r) config) as (ret & c & Hi & Hret). rewrite Hi. destruct (Z.eqb_spec ret 0) as [->|Hne]; cbn [negb].
  - destruct Hret as [d ->]. rewrite (bind_quiet _ _ _ _ _ (get_registry_run r s1 R1 HR1)), bind_set_registry, bind_set_user.
    pose proof (join_registry s1 r R1 (free_place (agents R)) a u d Hs1 HR1 Hfree Hu Hc) as Hs2. rewrite Hreg.
    match type of Hs2 with conns_ok _ ?t => set (s2 := t) in * end.
    assert (Hu2 : users s2 !! a = Some {| registry := Some r; conn_index := Z.of_nat (free_place (agents R)); conn_impl := Some d |}) by (apply lookup_insert_eq).
    destruct (conn_interrupt_run s2 a _ d Hu2 (eq_refl _)) as (ret & d' & Hint). rewrite (bind_quiet _ _ _ _ _ Hint).
    eexists 0, _, _. split; [reflexivity|]. split; [apply (set_user_ok None s2 a _ _ Hs2 Hu2); right; by repeat split; eexists|]. split.
    + intros b Hb. cbn. by rewrite !lookup_insert_ne.
    + eexists. split; [apply lookup_insert_eq|]. by eexists.
  - destruct (release_run s1 r R1 Hs1 HR1) as (s2 & tr & Hrel & Hus & Hs2). eexists (-1), s2, _.
    split; [by rewrite (bind_some _ _ _ _ _ _ Hrel)|]. split; [done|]. unfold connected. rewrite Hus. split; [done|]. by exists u.
Qed.

(** Creating a connection. *)
Lemma conn_create_run s a config u : conns_ok None s -> users s !! a = Some u -> conn_impl u = None -> few (users s) -> few (registries s) ->
  exists ret s' tr, conn_create entry a config s = Some (ret, s', tr) /\ conns_ok None s' /\ connected s s' a ret.
Proof.
  intros Hs Hu Hc Hfew Hfr. unfold conn_create. destruct (acquire_run config s Hs Hfr) as (ret & o & s1 & tr1 & Hacq & Hus & Hok).
  rewrite (bind_some _ _ _ _ _ _ Hacq). destruct (Z.eqb_spec ret 0) as [->|Hne]; cbn [negb].
  2: { eexists (-1), s1, _. split; [done|]. split; [done|]. unfold connected. rewrite Hus. split; [done|]. by exists u. }
  rewrite <- Hus in Hu. rewrite (bind_quiet _ _ _ _ _ (get_user_run a s1 u Hu)), bind_set_user.
  set (v := {| registry := o; conn_index := conn_index u; conn_impl := conn_impl u |}). set (s2 := with_users s1 (<[a := v]> (users s1))).
  assert (Hv : users s2 !! a = Some v) by (apply lookup_insert_eq).
  assert (Hother : forall b, b <> a -> users s2 !! b = users s !! b) by (intros b Hb; cbn; by rewrite lookup_insert_ne, Hus).
  assert (Hvc : conn_impl v = None) by done. destruct o as [r|]; cbn in Hok.
  - destruct Hok as [Hs1 Hr]. destruct (create_in_run s2 a config r v) as (ret & s' & tr & Hrun & Hs' & Ho & w); try done.
    { apply (set_user_ok _ s1 a u v Hs1 Hu). by left. }
    { unfold few. cbn. rewrite map_size_insert_Some by (by eexists). by rewrite Hus. }
    rewrite Hrun. eexists _, _, _. split; [done|]. split; [done|]. split; [|done]. intros b Hb. by rewrite Ho, Hother.
  - destruct Hok as [-> Hnone]. unfold create_alone. rewrite (bind_quiet _ _ _ _ _ (get_user_run a s2 v Hv)).
    destruct (init_law a None config) as (ret & c & Hi & Hret). rewrite Hi. destruct (Z.eqb_spec ret 0) as [->|Hne]; cbn [negb].
    + destruct Hret as [d ->]. rewrite bind_set_user. set (w := {| registry := registry v; conn_index := -1; conn_impl := Some d |}).
      assert (Hw : users (with_users s2 (<[a := w]> (users s2))) !! a = Some w) by (apply lookup_insert_eq).
      destruct (conn_interrupt_run _ a w d Hw (eq_refl _)) as (ret & d' & Hint). rewrite (bind_quiet _ _ _ _ _ Hint).
      eexists 0, _, _. split; [reflexivity|]. assert (Hs3 : conns_ok None (with_users s2 (<[a := w]> (users s2)))).
      { cbn. rewrite insert_insert_eq. apply (alone_ok s a u w Hs Hu); [|done|cbn; lia|by right]. intros r i (y & e & Hy & He & _)%(ok_placed _ _ Hs). congruence. }
      split; [apply (set_user_ok None _ a w _ Hs3 Hw); right; by repeat split; eexists|]. split.
      * intros b Hb. cbn. by rewrite !lookup_insert_ne.
      * eexists. split; [apply lookup_insert_eq|]. by eexists.
    + eexists (-1), s2, _. split; [done|]. split; [apply (set_user_ok None s a u v Hs Hu); by left|]. split; [done|]. by exists v.
Qed.

Lemma cleanup_conn_run s a u c r R x : users s !! a = Some u -> conn_impl u = Some c -> registry u = Some r -> registries s !! r = Some R ->
  impl R = Some x -> impl_ok x -> exists y, impl_ok y /\ same_place x y /\
  cleanup_conn entry a s = Some (tt, with_users (with_registries s (<[r := with_impl R (Some y)]> (registries s)))
    (<[a := {| registry := Some r; conn_index := conn_index u; conn_impl := None |}]> (users s)), []).
Proof.
  intros Hu Hc Hreg HR Hx Hxo. destruct (cleanup_law a c x Hxo) as (y & Hy & Hyo & Hxy). exists y. split; [done|]. split; [done|].
  unfold cleanup_conn. rewrite (bind_quiet _ _ _ _ _ (get_user_run a s u Hu)), (bind_defined _ _ _ _ Hc), Hreg.
  rewrite (bind_quiet _ _ s tt (with_registries s (<[r := with_impl R (Some y)]> (registries s)))); [done|].
  rewrite (bind_quiet _ _ _ _ _ (get_registry_run r s R HR)), Hx. by rewrite (bind_defined _ _ _ _ Hy).
Qed.

Lemma leave_registry_run s a r u R i : users s !! a = Some u -> conn_index u = Z.of_nat i -> registries s !! r = Some R ->
  agents R !! i = Some (Some a) -> 0 < agents_count R ->
  leave_registry a r s = Some (tt, with_users (with_registries s (<[r := with_agents R (<[i := None]> (agents R)) (agents_count R - 1)]> (registries s)))
    (<[a := {| registry := None; conn_index := -1; conn_impl := conn_impl u |}]> (users s)), []).
Proof.
  intros Hu Hi HR Hp Hn. unfold leave_registry. rewrite (bind_quiet _ _ _ _ _ (get_user_run a s u Hu)), Hi, (proj2 (Z.leb_le 0 _)), Nat2Z.id by lia.
  set (s1 := with_users (with_registries s (<[r := with_agents R (<[i := None]> (agents R)) (agents_count R)]> (registries s)))
               (<[a := {| registry := registry u; conn_index := -1; conn_impl := conn_impl u |}]> (users s))).
  rewrite (bind_quiet _ _ s tt s1).
  2: { rewrite (bind_quiet _ _ _ _ _ (get_registry_run r s R HR)), (bind_defined _ _ _ _ Hp), bool_decide_eq_true_2 by done. cbn [negb].
       by rewrite bind_set_registry. }
  rewrite (bind_quiet _ _ _ _ _ (get_registry_run r s1 _ (lookup_insert_eq _ _ _))). cbn [agents_count with_agents agents].
  rewrite (proj2 (Z.leb_gt _ _)), bind_set_registry by lia.
  match goal with |- (x ← get_user a; _) ?t = _ => rewrite (bind_quiet _ _ _ _ _ (get_user_run a t _ (lookup_insert_eq _ _ _))) end.
  unfold set_user, modify. rewrite bind_get. cbn. unfold put, with_users, with_registries. cbn. by rewrite !insert_insert_eq.
Qed.

(** Destroying a connection. *)
Lemma conn_destroy_run s a u c : conns_ok None s -> users s !! a = Some u -> conn_impl u = Some c ->
  exists s' tr, conn_destroy entry a s = Some (tt, s', tr) /\ conns_ok None s' /\ connected s s' a (-1).
Proof.
  intros Hs Hu Hc. unfold conn_destroy. rewrite (bind_quiet _ _ _ _ _ (get_user_run a s u Hu)). pose proof (ok_user _ _ Hs a u c Hu Hc) as Hpl.
  destruct (registry u) as [r|] eqn:Hreg.
  - destruct Hpl as (i & Hi & R & HR & Hp). destruct (ok_registry _ _ Hs _ _ HR) as ((x & Hx & Hxo) & Hn & _).
    assert (Hpos : 0 < agents_count R).
    { rewrite Hn. assert (Ha : a ∈ omap id (agents R)) by (apply omap_placed; by exists i). destruct (omap id (agents R)) as [|b l]; [by apply not_elem_of_nil in Ha|].
      rewrite zlen_cons. pose proof (zlen_nonneg l). lia. }
    destruct (cleanup_conn_run s a u c r R x Hu Hc Hreg HR Hx Hxo) as (y & Hyo & Hxy & Hcl). rewrite (bind_quiet _ _ _ _ _ Hcl).
    match type of Hcl with _ = Some (_, ?t, _) => set (s1 := t) in * end.
    rewrite (bind_quiet _ _ _ _ _ (leave_registry_run s1 a r _ (with_impl R (Some y)) i (lookup_insert_eq _ _ _) Hi (lookup_insert_eq _ _ _) Hp Hpos)).
    pose proof (quit_registry s r R i a u c x y Hs HR Hp Hu Hc Hx Hxy Hyo) as Hq. match type of Hq with conns_ok _ ?t => set (s2 := t) in * end.
    match goal with |- context [release_registry entry (Some r) ?t] => assert (Ht : t = s2) end.
    { unfold s1, s2, with_users, with_registries, with_agents, with_impl. cbn. by rewrite !insert_insert_eq. }
    rewrite Ht. destruct (release_run s2 r _ Hq (lookup_insert_eq _ _ _)) as (s' & tr & Hrel & Hus & Hs'). exists s', tr. split; [done|]. split; [done|].
    unfold connected. rewrite Hus. cbn. split; [intros b Hb; by rewrite lookup_insert_ne|]. rewrite lookup_insert_eq. by eexists.
  - set (v := {| registry := None; conn_index := conn_index u; conn_impl := None |} : agent_conn_t (C := C)).
    assert (Hcl : cleanup_conn entry a s = Some (tt, with_users s (<[a := v]> (users s)), [])).
    { unfold cleanup_conn. rewrite (bind_quiet _ _ _ _ _ (get_user_run a s u Hu)), (bind_defined _ _ _ _ Hc), Hreg.
      destruct (cleanup_alone a c (proj2 Hpl)) as (i & Hi). rewrite (bind_quiet _ _ s tt s); [done|]. by rewrite (bind_defined _ _ _ _ Hi). }
    rewrite (bind_quiet _ _ _ _ _ Hcl), (bind_quiet _ _ _ _ _ (get_user_run a (with_users s (<[a := v]> (users s))) v (lookup_insert_eq _ _ _))).
    cbn [conn_index v]. rewrite (proj2 (Z.ltb_lt _ 0)) by (exact (proj1 Hpl)). eexists _, _. split; [reflexivity|]. split.
    + apply (alone_ok s a u v Hs Hu); [|done|exact (proj1 Hpl)|by left]. intros r i (w & d & Hw & _ & Hr & _)%(ok_placed _ _ Hs). congruence.
    + split; [intros b Hb; cbn; by rewrite lookup_insert_ne|]. exists v. split; [apply lookup_insert_eq|done].
Qed.

(** *** Operations on a registry *)

(** An operation on [impl] that is defined and keeps it sound; each operation of the
    mux mode is shown to be one (ConnModes.v). *)
Definition keeps_impl (op : I -> option (Z * I)) : Prop := forall x, impl_ok x -> exists ret y, op x = Some (ret, y) /\ impl_ok y /\ same_place x y.

Lemma op_touch but s r R x y : conns_ok but s -> (but = None \/ but = Some r) -> registries s !! r = Some R -> impl R = Some x -> same_place x y ->
  impl_ok y -> conns_ok (Some r) (with_registries s (<[r := with_impl R (Some y)]> (registries s))).
Proof.
  intros Hs Hbut HR Hx Hxy Hy. apply (touch_registry but s r R (with_impl R (Some y)) x y); try done.
  destruct (ok_registry _ _ Hs _ _ HR) as (_ & Hn). split; [by exists y|exact Hn].
Qed.

Lemma mux_listen_run s config op init : conns_ok None s -> few (registries s) -> registry_init_func entry = Some init -> keeps_impl op ->
  exists ret s' tr, mux_listen_operation entry config op s = Some (ret, s', tr) /\ conns_ok None s' /\ users s' = users s.
Proof.
  intros Hs Hfr Hini Hop. unfold mux_listen_operation. destruct (acquire_run config s Hs Hfr) as (ret & o & s1 & tr1 & Hacq & Hus & Hok).
  rewrite (bind_some _ _ _ _ _ _ Hacq). destruct (Z.eqb_spec ret 0) as [->|Hne]; cbn [negb]; [|by eexists _, s1, _].
  destruct o as [r|]; cbn in Hok.
  - destruct Hok as [Hs1 [R HR] ]. rewrite (bind_defined _ _ _ _ (eq_refl _)), (bind_quiet _ _ _ _ _ (get_registry_run r s1 R HR)).
    destruct (ok_registry _ _ Hs1 _ _ HR) as ((x & Hx & Hxo) & _). rewrite (bind_defined _ _ _ _ Hx).
    destruct (Hop x Hxo) as (res & y & Hy & Hyo & Hxy). rewrite (bind_defined _ _ _ _ Hy), bind_set_registry.
    pose proof (op_touch (Some r) s1 r R x y Hs1 (or_intror (eq_refl _)) HR Hx Hxy Hyo) as Hs2.
    destruct (release_run _ r _ Hs2 (lookup_insert_eq _ _ _)) as (s' & tr & Hrel & Hus' & Hs'). rewrite (bind_some _ _ _ _ _ _ Hrel).
    eexists res, s', _. split; [done|]. split; [done|]. by rewrite Hus'.
  - destruct Hok as [_ Hnone]. congruence.
Qed.

Lemma mux_request_run s config op : conns_ok None s -> (forall r, keeps_impl (op r)) ->
  (forall r x ret y, op r x = Some (ret, y) -> can_release entry (Some y) = can_release entry (Some x)) ->
  exists ret s', mux_request_operation entry config op s = Some (ret, s', []) /\ conns_ok None s' /\ users s' = users s.
Proof.
  intros Hs Hop Hcan. unfold mux_request_operation. destruct (find_registry_run None config s Hs) as (o & Ho & Hl & _).
  rewrite (bind_quiet _ _ _ _ _ Ho). destruct o as [r|]; [|by eexists _, s].
  destruct (Hl r (eq_refl _)) as [R HR]. rewrite (bind_quiet _ _ _ _ _ (get_registry_run r s R HR)).
  destruct (ok_registry _ _ Hs _ _ HR) as ((x & Hx & Hxo) & _). rewrite (bind_defined _ _ _ _ Hx).
  destruct (Hop r x Hxo) as (res & y & Hy & Hyo & Hxy). rewrite (bind_defined _ _ _ _ Hy), bind_set_registry.
  exists res, (with_registries s (<[r := with_impl R (Some y)]> (registries s))). split; [done|]. split; [|done].
  pose proof (op_touch None s r R x y Hs (or_introl (eq_refl _)) HR Hx Hxy Hyo) as [H1 H2 H3 H4 H5 H6]. split; try done. intros r' Q HQ _.
  destruct (decide (r' = r)) as [->|Hn]; [|apply (H4 _ _ HQ); by intros [= ->] ]. cbn in HQ. rewrite lookup_insert_eq in HQ. injection HQ as <-.
  pose proof (ok_in_use _ _ Hs r R HR ltac:(done)) as Huse. unfold in_use in *. cbn. rewrite (Hcan r x res y Hy), <- Hx. exact Huse.
Qed.

(** *** Runs *)

(** An agent comes and goes, and its connection is created and destroyed. *)
Inductive conn_op :=
| NewAgent (a : positive)
| FreeAgent (a : positive)
| Create (a : positive) (config : udp_socket_config_t)
| Destroy (a : positive).

Definition perform (o : conn_op) : eff conns_t conn_event Z :=
  match o with
  | NewAgent a => _ ← set_user a {| registry := None; conn_index := 0; conn_impl := None |}; mret 0
  | FreeAgent a => _ ← modify (fun s => with_users s (delete a (users s))); mret 0
  | Create a config => conn_create entry a config
  | Destroy a => _ ← conn_destroy entry a; mret 0
  end.

(** When the code calls them: an agent has one connection at a time and is freed
    without it; there are fewer than 2^30 agents and registries. *)
Definition allowed s (o : conn_op) : Prop :=
  few (users s) /\ few (registries s) /\
  match o with
  | NewAgent a => users s !! a = None
  | FreeAgent a | Create a _ => exists u, users s !! a = Some u /\ conn_impl u = None
  | Destroy a => exists u, users s !! a = Some u /\ is_Some (conn_impl u)
  end.

Definition no_conns (g : G) : conns_t (I := I) (C := C) (G := G) :=
  {| entry_registry := None; registries := ∅; users := ∅; globals := g |}.

Lemma no_conns_ok g : mode_ok ∅ g -> conns_ok None (no_conns g).
Proof. intros Hg. split; cbn; [by intros r i a (R & ? & _)|done|done|done|intros _ r; by split; [intros [? ?]|]|by rewrite omap_empty]. Qed.

(** The rest of the agents when one comes or goes. *)
Lemma user_absent_ok s a o : conns_ok None s -> (forall u, users s !! a = Some u -> conn_impl u = None) -> (forall u, o = Some u -> conn_impl u = None) ->
  conns_ok None (with_users s (partial_alter (fun _ => o) a (users s))).
Proof.
  intros [H1 H2 H3 H4 H5 H6] Ha Ho. split; cbn [registries users entry_registry globals with_users]; try done.
  - intros r i b Hp. destruct (H1 r i b Hp) as (u & c & Hu & Hc & Hr). destruct (decide (a = b)) as [<-|Hb]; [by rewrite (Ha u Hu) in Hc|].
    rewrite lookup_partial_alter_ne by done. by exists u, c.
  - intros b u c Hu Hc. destruct (decide (a = b)) as [<-|Hb]; [rewrite lookup_partial_alter_eq in Hu; by rewrite (Ho u Hu) in Hc|].
    rewrite lookup_partial_alter_ne in Hu by done. by apply (H2 b u c).
Qed.

(** Every operation that is allowed succeeds and keeps the registries sound. *)
Lemma perform_ok s o : conns_ok None s -> allowed s o -> exists ret s' tr, perform o s = Some (ret, s', tr) /\ conns_ok None s'.
Proof.
  intros Hs (Hfu & Hfr & Ho). destruct o as [a|a|a config|a]; cbn [perform].
  - rewrite bind_set_user. eexists _, _, _. split; [reflexivity|]. apply (user_absent_ok s a (Some _)); [done|congruence|]. by intros u [= <-].
  - destruct Ho as (u & Hu & Hc). rewrite bind_modify. eexists _, _, _. split; [reflexivity|]. apply (user_absent_ok s a None); [done| |done]. congruence.
  - destruct Ho as (u & Hu & Hc). destruct (conn_create_run s a config u Hs Hu Hc Hfu Hfr) as (ret & s' & tr & Hr & Hs' & _). by exists ret, s', tr.
  - destruct Ho as (u & Hu & [c Hc]). destruct (conn_destroy_run s a u c Hs Hu Hc) as (s' & tr & Hr & Hs' & _).
    rewrite (bind_some _ _ _ _ _ _ Hr). by eexists _, s', _.
Qed.
End Sound.

(** ** The mode over time *)

(** A mode as its functions are at each moment, for what the system gives then; [later]
    orders the moments. *)
Class ModeOver {I C G E : Type} (mode : E -> conn_mode_entry_t (I := I) (C := C) (G := G)) (later : E -> E -> Prop) := {
  laws_at e :: ModeLaws (mode e);
  same_searching e e' : get_registry_func (mode e) = None -> get_registry_func (mode e') = None;
  same_init e e' : registry_init_func (mode e) = None -> registry_init_func (mode e') = None;
  same_release e e' i : can_release (mode e') i = can_release (mode e) i;
  impl_later e e' i : later e e' -> impl_ok (ModeLaws := laws_at e) i -> impl_ok (ModeLaws := laws_at e') i;
  mode_later e e' regs g : later e e' -> mode_ok (ModeLaws := laws_at e) regs g -> mode_ok (ModeLaws := laws_at e') regs g
}.

Section Over.
Context {I C G E : Type} (mode : E -> conn_mode_entry_t (I := I) (C := C) (G := G)) (later : E -> E -> Prop) `{!ModeOver mode later}.
Implicit Types (s : conns_t (I := I) (C := C) (G := G)).

Lemma conns_ok_later e e' s : later e e' -> conns_ok (mode e) None s -> conns_ok (mode e') None s.
Proof.
  intros Hl [H1 H2 H3 H4 H5 H6]. split; try done.
  - intros a u c Hu Hc. specialize (H2 a u c Hu Hc). destruct (registry u); [done|]. destruct H2. split; [done|]. by eapply same_init.
  - intros r R HR. destruct (H3 r R HR) as ((x & Hx & Hxo) & Hn). split; [|done]. exists x. split; [done|]. by eapply impl_later.
  - intros r R HR Hb. destruct (H4 r R HR Hb) as [?|Hcan]; [by left|right]. by rewrite (same_release e e').
  - intros Hg. apply H5. by eapply (same_searching e' e).
  - by eapply mode_later.
Qed.

(** The states that operations reach, each at a later moment. *)
Inductive reachable (g : G) : E -> conns_t (I := I) (C := C) (G := G) -> Prop :=
| reachable_start e : reachable g e (no_conns g)
| reachable_step e s e' o ret s' tr : reachable g e s -> later e e' -> allowed s o -> perform (mode e') o s = Some (ret, s', tr) -> reachable g e' s'.

Lemma reachable_ok g e s : (forall e, mode_ok (ModeLaws := laws_at e) ∅ g) -> reachable g e s -> conns_ok (mode e) None s.
Proof.
  intros Hg. induction 1 as [e|e s e' o ret s' tr _ IH Hl Ho Hr]; [by apply no_conns_ok|].
  destruct (perform_ok (mode e') s o (conns_ok_later e e' s Hl IH) Ho) as (ret' & s1 & tr' & Hr' & Hs1). congruence.
Qed.
End Over.
