(* ===== verification/ConnModes.v ===== *)
(** * The three modes (src/conn.c, src/conn_poll.c, src/conn_mux.c, src/conn_thread.c)

    The table [mode_entries] of src/conn.c: the functions of the poll mode, of the mux
    mode with its table of registries by port, and of the thread mode, which has no
    registries.  Each is shown to keep the promises of a mode ([ModeLaws] and [ModeOver] of
    Conn.v), so that the registries of every mode are sound; and the calls of the
    application on a port of the mux mode are shown to keep them so. *)

From S2P Require Import Prelude Effects CText Addr Udp Turn Ice IceSdp StunTypes StunWrite StunRead.
From S2P Require Import AgentTypes Agent AgentMessages AgentUpdate AgentNet Tcp ConnPoll ConnThread.
From S2P Require Import HashCrypto MuxMap MuxQueues MuxPending Mux MuxSpec MuxSafety MuxCorrect Conn.
From stdpp Require Import list gmap.
#[local] Open Scope Z_scope.

(** What the system gives when a registry is created: a pipe, a socket for a
    configuration and its port, and whether the thread starts (0). *)
Class RegistrySystem := {
  sys_pipe : option (Z * Z);
  registry_socket : udp_socket_config_t -> option Z;
  socket_port : Z -> Z;
  registry_thread : Z
}.

Section Modes.
Context `{CryptoLaws} `{System} `{RegistrySystem}.

(** ** The poll mode *)

Record poll_registry_t := { interrupt_pipe_out : Z; interrupt_pipe_in : Z }.

Definition conn_poll_registry_init (config : udp_socket_config_t) (r : positive) (g : unit) : option (Z * option poll_registry_t * unit) :=
  match sys_pipe with
  | None => Some (-1, None, g)
  | Some (rd, wr) =>
      if registry_thread =? 0 then Some (0, Some {| interrupt_pipe_out := wr; interrupt_pipe_in := rd |}, g) else Some (-1, None, g)
  end.

(** The thread is joined and the pipe closed. *)
Definition conn_poll_registry_cleanup (r : positive) (i : option poll_registry_t) (g : unit) : option unit := _ ← i; Some g.

Definition poll_entry (new_udp_socket : option Z) : conn_mode_entry_t (I := poll_registry_t) (C := ConnPoll.conn_impl_t) (G := unit) := {|
  registry_init_func := Some conn_poll_registry_init;
  registry_cleanup_func := Some conn_poll_registry_cleanup;
  init_func := fun _ _ _ => match new_udp_socket with None => (-1, None) | Some k => (0, Some (ConnPoll.new_conn k)) end;
  cleanup_func := fun _ _ i => match i with Some i => Some (Some i) | None => None end;
  interrupt_func := fun c => (0, set_c_next_timestamp c now);
  get_registry_func := None;
  can_release_registry_func := None
|}.

(** ** The thread mode *)

Definition thread_entry (new_socket : option Z) (start wake : Z) : conn_mode_entry_t (I := unit) (C := ConnThread.conn_impl_t) (G := unit) := {|
  registry_init_func := None;
  registry_cleanup_func := None;
  init_func := fun _ _ _ => match new_socket with None => (-1, None) | Some k => if start =? 0 then (0, Some (ConnThread.new_conn k)) else (-1, None) end;
  cleanup_func := fun _ _ i => Some i;
  interrupt_func := fun c => (if wake <? 0 then -1 else 0, with_next_timestamp c now);
  get_registry_func := None;
  can_release_registry_func := None
|}.

(** ** The mux mode *)

(** [conn_mux_registries] and [conn_mux_registries_count]. *)
Record mux_table_t := { conn_mux_registries : list (option positive); conn_mux_registries_count : Z }.

(** An address that is not given is empty. *)
Definition address_of (config : udp_socket_config_t) : list Z := default [] (Udp.bind_address config).

Definition serves (config : udp_socket_config_t) (m : registry_impl_t) : bool :=
  bool_decide (Mux.bind_address m = address_of config) && (port_begin config <=? port m) &&
  ((port_end config =? 0) || (port m <=? port_end config)).

(** The loop over the table. *)
Fixpoint find_mux_registry (config : udp_socket_config_t) (regs : gmap positive registry_impl_t) (l : list (option positive))
  : option (option positive) :=
  match l with
  | [] => Some None
  | None :: l => find_mux_registry config regs l
  | Some r :: l => m ← regs !! r; if serves config m then Some (Some r) else find_mux_registry config regs l
  end.
Definition conn_mux_get_registry (config : udp_socket_config_t) (regs : gmap positive registry_impl_t) (g : mux_table_t) : option (option positive) :=
  find_mux_registry config regs (conn_mux_registries g).

(** The table with a free place. *)
Definition table_with_room (l : list (option positive)) : option (list (option positive)) :=
  if (free_place l =? length l)%nat then
    let new_size := if (length l =? 0)%nat then 1 else Z.of_nat (length l) * 2 in
    if (INT_MAX <? new_size) || (new_size <=? 0) then None
    else Some (l ++ replicate (Z.to_nat new_size - length l) None)
  else Some l.

(** The place of the registry and the table. *)
Definition conn_mux_add_registry (r : positive) (g : mux_table_t) : option (nat * mux_table_t) :=
  let i := free_place (conn_mux_registries g) in
  l ← table_with_room (conn_mux_registries g);
  Some (i, {| conn_mux_registries := <[i := Some r]> l; conn_mux_registries_count := conn_mux_registries_count g + 1 |}).

Definition new_impl (i : Z) (p : Z) (address : list Z) : registry_impl_t :=
  {| conn_mux_registries_index := i; port := p; bind_address := address; send_ds := 0; amap := new_map INITIAL_MAP_SIZE;
     cb_mux_incoming := None; cb_mux_pending := None; pending_required := false; pending_closing := false;
     max_pending := 0; pending_timeout_ms := 0; queues := no_queues; received := 0; rejected := 0;
     notifications := 0; duplicates := 0 |}.

Definition conn_mux_registry_init (config : udp_socket_config_t) (r : positive) (g : mux_table_t) : option (Z * option registry_impl_t * mux_table_t) :=
  if ADDR_MAX_NUMERICHOST_LEN <=? zlen (address_of config) then Some (-1, None, g)
  else
    match registry_socket config with
    | None => Some (-1, None, g)
    | Some k =>
        '(i, g) ← conn_mux_add_registry r g;
        if registry_thread =? 0 then Some (0, Some (new_impl (Z.of_nat i) (socket_port k) (address_of config)), g)
        else
          Some (-1, None, {| conn_mux_registries := <[i := None]> (conn_mux_registries g);
                             conn_mux_registries_count := conn_mux_registries_count g - 1 |})
    end.

(** The place of the registry is given back, and the table freed with the last one. *)
Definition leave_table (r : positive) (i : Z) (g : mux_table_t) : option mux_table_t :=
  l ← (if -1 <? i then
         x ← conn_mux_registries g !! Z.to_nat i;
         if bool_decide (x = Some r) then Some (<[Z.to_nat i := None]> (conn_mux_registries g)) else None
       else Some (conn_mux_registries g));
  if conn_mux_registries_count g <=? 0 then None
  else
    let n := conn_mux_registries_count g - 1 in
    Some {| conn_mux_registries := if n =? 0 then [] else l; conn_mux_registries_count := n |}.

Definition conn_mux_registry_cleanup (r : positive) (m : option registry_impl_t) (g : mux_table_t) : option mux_table_t :=
  m ← m;
  _ ← clear_pending (queues m);
  leave_table r (conn_mux_registries_index m) g.

(** What [conn_mux_cleanup] does to the registry. *)
Definition mux_cleanup_impl (a : agent_ptr) (m : registry_impl_t) : option registry_impl_t :=
  '(_, am) ← remove_map_entries (amap m) a;
  q ← remove_all_where (fun r => bool_decide (pr_agent r = Some a)) (queues m);
  Some (set_queues (set_amap m am) q).

Definition releasable (m : option registry_impl_t) : bool :=
  match m with
  | None => true
  | Some m => negb (bool_decide (is_Some (cb_mux_incoming m))) && negb (bool_decide (is_Some (cb_mux_pending m))) && negb (pending_closing m)
  end.

Definition mux_entry (wake : Z) : conn_mode_entry_t (I := registry_impl_t) (C := Mux.conn_impl_t) (G := mux_table_t) := {|
  registry_init_func := Some conn_mux_registry_init;
  registry_cleanup_func := Some conn_mux_registry_cleanup;
  init_func := fun _ _ _ => (0, Some {| Mux.next_timestamp := 0; conn_finished := false |});
  cleanup_func := fun a _ m => m ← m; m ← mux_cleanup_impl a m; Some (Some m);
  interrupt_func := fun c => (if wake <? 0 then -1 else 0, wake_at now c);
  get_registry_func := Some conn_mux_get_registry;
  can_release_registry_func := Some releasable
|}.

(** ** The promises are kept *)

#[export, program] Instance poll_laws k : ModeLaws (poll_entry k) := {|
  impl_ok _ := True; mode_ok _ _ := True; same_place _ _ := True |}.
Next Obligation. done. Qed.
Next Obligation. done. Qed.
Next Obligation.
  intros k f config r regs g [= <-] _ _ _. unfold conn_poll_registry_init. destruct sys_pipe as [ [rd wr]|]; [|by eexists _, _, _].
  destruct (registry_thread =? 0); eexists _, _, _; (split; [done|]); [|done]. cbn. by eexists.
Qed.
Next Obligation. intros k f r i regs g [= <-] _ _ _. by eexists. Qed.
Next Obligation. done. Qed.
Next Obligation. intros [k|] a r config; eexists _, _; (split; [done|]); [by eexists|done]. Qed.
Next Obligation. intros k a c i _. by eexists. Qed.
Next Obligation. done. Qed.
Next Obligation. done. Qed.

#[export, program] Instance thread_laws k start wake : ModeLaws (thread_entry k start wake) := {|
  impl_ok _ := True; mode_ok _ _ := True; same_place _ _ := True |}.
Next Obligation. done. Qed.
Next Obligation. done. Qed.
Next Obligation. done. Qed.
Next Obligation. done. Qed.
Next Obligation. done. Qed.
Next Obligation.
  intros [k|] start wake a r config; cbn; [destruct (start =? 0)|]; eexists _, _; (split; [done|]); [by eexists|done..].
Qed.
Next Obligation. intros k start wake a c i _. by eexists. Qed.
Next Obligation. intros k start wake a c _. by eexists. Qed.
Next Obligation. done. Qed.

(** The table of registries agrees with those in memory. *)
Record table_ok (regs : gmap positive registry_impl_t) (g : mux_table_t) : Prop := {
  table_has r m : regs !! r = Some m -> exists i, conn_mux_registries_index m = Z.of_nat i /\ conn_mux_registries g !! i = Some (Some r);
  table_only i r : conn_mux_registries g !! i = Some (Some r) -> exists m, regs !! r = Some m /\ conn_mux_registries_index m = Z.of_nat i;
  table_count : conn_mux_registries_count g = zlen (omap id (conn_mux_registries g))
}.

(** The invariant of the mux mode holds of a registry (MuxSpec.v): its queues hold some
    requests, in order, with different numbers, and its addresses are those of agents. *)
Definition mux_impl_ok (m : registry_impl_t) : Prop := exists L R, pinv now 0 m L R.
Definition mux_same_place (m m' : registry_impl_t) : Prop := conn_mux_registries_index m' = conn_mux_registries_index m.

Lemma table_few regs g : table_ok regs g -> zlen (omap id (conn_mux_registries g)) <= Z.of_nat (size regs).
Proof.
  intros [_ Ho _]. assert (Hd : NoDup (omap id (conn_mux_registries g))).
  { apply omap_distinct. intros i j r (m & Hm & Hi)%Ho (m' & Hm' & Hj)%Ho. assert (m' = m) as -> by congruence. lia. }
  unfold zlen. apply Nat2Z.inj_le. rewrite <- (size_list_to_set (C := gset positive) _ Hd), <- (size_dom regs). apply subseteq_size.
  intros r [i Hi]%elem_of_list_to_set%omap_placed. apply elem_of_dom. destruct (Ho _ _ Hi) as (m & Hm & _). by exists m.
Qed.

Lemma table_room l : zlen (omap id l) < 2 ^ 30 -> exists l', table_with_room l = Some l' /\ l' !! free_place l = Some None /\
  (forall j b, l' !! j = Some (Some b) <-> l !! j = Some (Some b)) /\ zlen (omap id l') = zlen (omap id l).
Proof.
  intros Hn. pose proof (free_place_spec l) as Hf. unfold table_with_room. destruct (Nat.eqb_spec (free_place l) (length l)) as [He|He]; [|by exists l].
  rewrite Hf in Hn. set (n := if (length l =? 0)%nat then 1 else Z.of_nat (length l) * 2).
  assert (Hnl : Z.of_nat (length l) < n <= 2 ^ 31 - 2) by (unfold n; destruct (Nat.eqb_spec (length l) 0); lia).
  cbv zeta. rewrite (proj2 (Z.ltb_ge INT_MAX _)), (proj2 (Z.leb_gt _ 0)) by (unfold INT_MAX; lia). cbn [orb]. eexists. split; [done|]. rewrite He.
  split; [rewrite lookup_app_r, Nat.sub_diag by done; apply lookup_replicate_2; lia|]. split.
  - intros j b. rewrite lookup_app_Some. split; [intros [Hj|[_ [Hj _]%lookup_replicate] ]; done|by left].
  - rewrite omap_app. assert (Hr : forall k, omap id (replicate k (None : option positive)) = []) by (intros k; by induction k). by rewrite Hr, app_nil_r.
Qed.

(** The registry [r] takes the place [i]. *)
Lemma table_join regs g r i l m : table_ok regs g -> regs !! r = None -> l !! i = Some None ->
  (forall j b, l !! j = Some (Some b) <-> conn_mux_registries g !! j = Some (Some b)) -> zlen (omap id l) = zlen (omap id (conn_mux_registries g)) ->
  conn_mux_registries_index m = Z.of_nat i ->
  table_ok (<[r := m]> regs) {| conn_mux_registries := <[i := Some r]> l; conn_mux_registries_count := conn_mux_registries_count g + 1 |}.
Proof.
  intros [Hh Ho Hc] Hr Hi Hsame Hz Hm. assert (Hlt : (i < length l)%nat) by (apply lookup_lt_is_Some; by eexists). split; cbn [conn_mux_registries conn_mux_registries_count].
  - intros r' m' Hm'. destruct (decide (r = r')) as [<-|Hn].
    + rewrite lookup_insert_eq in Hm'. injection Hm' as <-. exists i. by rewrite list_lookup_insert_eq.
    + rewrite lookup_insert_ne in Hm' by done. destruct (Hh _ _ Hm') as (j & Hj & Hl). exists j. split; [done|]. rewrite list_lookup_insert_ne; [by apply Hsame|].
      intros <-. apply Hsame in Hl. congruence.
  - intros j r' Hj. destruct (decide (i = j)) as [<-|Hn].
    + rewrite list_lookup_insert_eq in Hj by done. injection Hj as <-. exists m. by rewrite lookup_insert_eq.
    + rewrite list_lookup_insert_ne in Hj by done. apply Hsame in Hj. destruct (Ho _ _ Hj) as (m' & Hm' & Hx). exists m'.
      rewrite lookup_insert_ne; [done|]. intros <-. congruence.
  - by rewrite omap_insert_some, Hz, Hc.
Qed.

(** Only places of registries count. *)
Lemma table_same regs g g' : table_ok regs g -> conn_mux_registries_count g' = conn_mux_registries_count g ->
  (forall j b, conn_mux_registries g' !! j = Some (Some b) <-> conn_mux_registries g !! j = Some (Some b)) ->
  zlen (omap id (conn_mux_registries g')) = zlen (omap id (conn_mux_registries g)) -> table_ok regs g'.
Proof.
  intros [Hh Ho Hc] Hn Hsame Hz. split.
  - intros r m Hm. destruct (Hh r m Hm) as (i & Hi & Hl). exists i. split; [done|]. by apply Hsame.
  - intros i r Hi. by apply Ho, Hsame.
  - by rewrite Hn, Hz.
Qed.

Lemma table_leave regs g r m : table_ok regs g -> regs !! r = Some m ->
  exists g', leave_table r (conn_mux_registries_index m) g = Some g' /\ table_ok (delete r regs) g'.
Proof.
  intros [Hh Ho Hc] Hm. destruct (Hh r m Hm) as (i & Hi & Hl). unfold leave_table. rewrite Hi, (proj2 (Z.ltb_lt (-1) _)), Nat2Z.id by lia.
  rewrite Hl. cbn. rewrite bool_decide_eq_true_2 by done. cbn. pose proof (omap_insert_none _ _ _ Hl) as Hz. rewrite <- Hc in Hz.
  pose proof (zlen_nonneg (omap id (<[i := None]> (conn_mux_registries g)))). rewrite (proj2 (Z.leb_gt _ 0)) by lia. eexists. split; [done|].
  assert (Hlt : (i < length (conn_mux_registries g))%nat) by (apply lookup_lt_is_Some; by eexists).
  assert (Hin : forall j b, <[i := None]> (conn_mux_registries g) !! j = Some (Some b) <-> b <> r /\ conn_mux_registries g !! j = Some (Some b)).
  { intros j b. destruct (decide (i = j)) as [<-|Hn].
    - rewrite list_lookup_insert_eq by done. split; [done|]. intros [Hb Hj]. congruence.
    - rewrite list_lookup_insert_ne by done. split; [|by intros [_ Hj] ]. intros Hj. split; [|done]. intros ->. destruct (Ho _ _ Hj) as (m' & Hm' & Hx).
      assert (m' = m) as -> by congruence. lia. }
  assert (Hok : table_ok (delete r regs) {| conn_mux_registries := <[i := None]> (conn_mux_registries g); conn_mux_registries_count := conn_mux_registries_count g - 1 |}).
  { split; cbn [conn_mux_registries conn_mux_registries_count]; [| |done].
    - intros r' m' [Hn Hm']%lookup_delete_Some. destruct (Hh _ _ Hm') as (j & Hj & Hl'). exists j. split; [done|]. apply Hin. by split; [congruence|].
    - intros j r' [Hn Hj]%Hin. destruct (Ho _ _ Hj) as (m' & Hm' & Hx). exists m'. by rewrite lookup_delete_ne by congruence. }
  destruct (Z.eqb_spec (conn_mux_registries_count g - 1) 0) as [Hz0|_]; [|done]. rewrite Hz0 in Hok |- *. destruct Hok as [Kh Ko Kc].
  cbn [conn_mux_registries conn_mux_registries_count] in *.
  assert (Hempty : forall j b, <[i := None]> (conn_mux_registries g) !! j <> Some (Some b)).
  { intros j b Hj. assert (Hb : b ∈ omap id (<[i := None]> (conn_mux_registries g))) by (apply omap_placed; by exists j).
    destruct (omap id (<[i := None]> (conn_mux_registries g))) as [|x l]; [by apply not_elem_of_nil in Hb|]. rewrite zlen_cons in Kc. pose proof (zlen_nonneg l). lia. }
  split; cbn [conn_mux_registries conn_mux_registries_count]; [|done|done]. intros r' m' Hm'. destruct (Kh r' m' Hm') as (j & _ & Hj). by destruct (Hempty j r').
Qed.

Lemma new_impl_ok i p address : mux_impl_ok (new_impl i p address).
Proof. exists [], []. eapply (pinv_same _ _ registry_impl_zero); [by apply pinv_start|done..]. Qed.

Lemma find_mux_registry_run config regs g : table_ok regs g -> exists o, find_mux_registry config regs (conn_mux_registries g) = Some o /\ forall r, o = Some r -> is_Some (regs !! r).
Proof.
  intros [_ Ho _]. assert (Hl : forall r, Some r ∈ conn_mux_registries g -> is_Some (regs !! r)).
  { intros r [i Hi]%list_elem_of_lookup. destruct (Ho _ _ Hi) as (m & Hm & _). by exists m. }
  clear Ho. induction (conn_mux_registries g) as [| [r|] l IH]; cbn [find_mux_registry]; [by exists None| |apply IH; intros r Hr; apply Hl; by right].
  destruct (Hl r) as [m Hm]; [by left|]. rewrite Hm. cbn. destruct (serves config m); [exists (Some r); split; [done|]; intros r' [= <-]; by exists m|].
  apply IH. intros r' Hr'. apply Hl. by right.
Qed.

Lemma mux_init_run config r regs g : table_ok regs g -> regs !! r = None -> Z.of_nat (size regs) < 2 ^ 30 ->
  exists ret m g', conn_mux_registry_init config r g = Some (ret, m, g') /\
    if ret =? 0 then exists x, m = Some x /\ mux_impl_ok x /\ table_ok (<[r := x]> regs) g' else table_ok regs g'.
Proof.
  intros Hg Hr Hf. unfold conn_mux_registry_init. destruct (_ <=? _); [by exists (-1), None, g|]. destruct (registry_socket config) as [k|]; [|by exists (-1), None, g].
  pose proof (table_few _ _ Hg) as Hn. destruct (table_room (conn_mux_registries g) ltac:(lia)) as (l & Hl & Hi & Hsame & Hz).
  unfold conn_mux_add_registry. rewrite Hl. cbn. set (i := free_place (conn_mux_registries g)) in *. destruct (registry_thread =? 0).
  - eexists 0, _, _. split; [done|]. cbn. eexists. split; [done|]. split; [apply new_impl_ok|]. by apply table_join.
  - eexists (-1), None, _. split; [done|]. cbn. assert (Hlt : (i < length l)%nat) by (apply lookup_lt_is_Some; by eexists).
    apply (table_same regs g); [done|cbn; lia| |]; cbn [conn_mux_registries]; rewrite list_insert_insert_eq.
    + intros j b. rewrite <- Hsame. destruct (decide (i = j)) as [<-|Hj]; [rewrite list_lookup_insert_eq by done; by rewrite Hi|by rewrite list_lookup_insert_ne].
    + by rewrite list_insert_id.
Qed.

Lemma mux_cleanup_run (a : agent_ptr) m : mux_impl_ok m -> exists m', mux_cleanup_impl a m = Some m' /\ mux_impl_ok m' /\ mux_same_place m m'.
Proof.
  intros (L & R & Hinv). unfold mux_cleanup_impl. destruct (remove_map_entries_spec (amap m) a (pi_map _ _ _ _ _ Hinv)) as (am & Ham & Hok & _ & _ & Has). rewrite Ham. cbn.
  destruct (remove_all_where_spec (fun r => bool_decide (pr_agent r = Some (a : agent_ptr))) (queues m) L R (pi_rep _ _ _ _ _ Hinv)) as (q & R' & Hr & _ & Hrep & Hb).
  rewrite Hr. cbn. eexists. split; [done|]. split; [|done]. eexists (filter (fun e => bool_decide (pr_agent e.2 = Some (a : agent_ptr)) = false) L), R'.
  eapply (pinv_same _ _ (set_amap (set_queues m q) am)); try done. apply pinv_amap; [|done|].
  - eapply pinv_sublist; [exact Hinv|apply sublist_filter|exact Hrep|exact Hb].
  - intros x r Hx Hat. apply list_elem_of_filter in Hx as [_ Hx]. apply absent_assoc; [done|]. intros b Hb'. apply Has in Hb' as [(i & e & Hl & _) _].
    by apply (pi_absent _ _ _ _ _ Hinv x r Hx Hat i e).
Qed.

#[export, program] Instance mux_laws wake : ModeLaws (mux_entry wake) := {|
  impl_ok := mux_impl_ok; mode_ok := table_ok; same_place := mux_same_place |}.
Next Obligation. done. Qed.
Next Obligation.
  intros wake regs g r i i' [Hh Ho Hc] Hi Hs. split; [| |done].
  - intros r' m. destruct (decide (r = r')) as [<-|Hn]; [rewrite lookup_insert_eq; intros [= <-]|rewrite lookup_insert_ne by done; apply Hh].
    unfold mux_same_place in Hs. rewrite Hs. by apply Hh.
  - intros j r' (m & Hm & Hx)%Ho. destruct (decide (r = r')) as [<-|Hn]; [|rewrite lookup_insert_ne by done; by exists m].
    rewrite lookup_insert_eq. exists i'. split; [done|]. unfold mux_same_place in Hs. rewrite Hs. congruence.
Qed.
Next Obligation. intros wake f config r regs g [= <-] Hg Hr Hf. by apply mux_init_run. Qed.
Next Obligation.
  intros wake f r i regs g [= <-] Hg Hi (L & R & Hinv). cbn. destruct (clear_pending_spec _ _ _ (pi_rep _ _ _ _ _ Hinv)) as (q & Hcl & _). rewrite Hcl. cbn.
  by apply table_leave.
Qed.
Next Obligation. done. Qed.
Next Obligation. intros wake a r config. eexists 0, _. split; [done|]. by eexists. Qed.
Next Obligation. intros wake a c i Hi. cbn. destruct (mux_cleanup_run a i Hi) as (m & Hm & Hok & Hs). rewrite Hm. by eexists. Qed.
Next Obligation. done. Qed.
Next Obligation. intros wake f config regs g [= <-] Hg. by apply find_mux_registry_run. Qed.

(** The functions of the table are those of Mux.v, ConnPoll.v and ConnThread.v. *)
Lemma mux_cleanup_agrees `{!Mux.Socket} a s s' tr : conn_mux_cleanup a s = Some (tt, s', tr) -> mux_cleanup_impl a (r_impl (reg s)) = Some (r_impl (reg s')).
Proof.
  unfold conn_mux_cleanup, mux_cleanup_impl. intros (m & s1 & t1 & t2 & Hm & Hr & _)%bind_run. unfold get_impl in Hm. rewrite bind_get in Hm.
  apply ret_run in Hm as (-> & -> & _). apply bind_run in Hr as ([z am] & s2 & t3 & t4 & Ham & Hr & _). apply defined_run in Ham as (Ham & -> & _).
  rewrite Ham. cbn [mbind option_bind]. apply bind_run in Hr as (u & s3 & t5 & t6 & Hu & Hr & _). unfold set_impl in Hu. rewrite bind_get in Hu. apply put_run in Hu as [-> _].
  apply bind_run in Hr as (v & s4 & t7 & t8 & Hv & Hr & _). unfold on_queues, get_impl, set_impl in Hv.
  apply bind_run in Hv as (m2 & s5 & t9 & t10 & Hm & Hv & _). rewrite bind_get in Hm. apply ret_run in Hm as (-> & -> & _).
  apply bind_run in Hv as (q & s6 & t11 & t12 & Hq & Hv & _). apply defined_run in Hq as (Hq & -> & _). rewrite bind_get in Hv. apply put_run in Hv as [-> _].
  change (queues (r_impl (reg (Mux.with_impl s (set_amap (r_impl (reg s)) am))))) with (queues (r_impl (reg s))) in Hq. rewrite Hq. cbn [mbind option_bind].
  apply bind_run in Hr as (w & s7 & t13 & t14 & Hi & Hr & _). rewrite bind_get in Hr. apply bind_run in Hr as (g & s8 & t15 & t16 & Hg & Hr & _).
  apply defined_run in Hg as (_ & -> & _). apply put_run in Hr as [-> _]. cbn. f_equal.
  unfold conn_mux_interrupt in Hi. apply bind_run in Hi as (x & s9 & t17 & t18 & Hx & Hi & _). unfold conn_mux_interrupt_registry in Hi.
  apply bind_run in Hi as (y & s10 & t19 & t20 & Hy & Hi & _). apply emit_run in Hy as [-> _]. apply ret_run in Hi as (_ & -> & _).
  unfold set_conn in Hx. rewrite bind_get in Hx. apply bind_run in Hx as (g2 & s11 & t21 & t22 & Hg2 & Hx & _). apply defined_run in Hg2 as (_ & -> & _).
  apply bind_run in Hx as (c & s12 & t23 & t24 & Hc & Hx & _). apply defined_run in Hc as (_ & -> & _). by apply put_run in Hx as [-> _].
Qed.

Lemma can_release_agrees s : conn_mux_can_release_registry s = Some (releasable (Some (r_impl (reg s))), s, []).
Proof. reflexivity. Qed.

Lemma poll_init_agrees `{!PollSockets} a r config s g : p_store s !! a = Some g -> conn_poll_init a s =
  let '(ret, c) := init_func (poll_entry new_udp_socket) a r config in
  Some (ret, match c with Some _ => with_p_store s (<[a := {| pa_agent := pa_agent g; pa_conn := c |}]> (p_store s)) | None => s end, []).
Proof. intros Hg. unfold conn_poll_init. cbn. destruct new_udp_socket as [k|]; [|done]. by rewrite bind_get, (bind_defined _ _ _ _ Hg). Qed.

Lemma thread_init_agrees `{!ThreadSocket} a r config s : t_conn s = None -> conn_thread_init s =
  let '(ret, c) := init_func (thread_entry new_socket start_thread wake_result) a r config in Some (ret, {| t_agent := t_agent s; t_conn := c |}, []).
Proof.
  intros Hc. unfold conn_thread_init. rewrite bind_get. cbn. destruct new_socket as [k|]; [|by destruct s; cbn in Hc; subst].
  rewrite bind_put. by destruct (start_thread =? 0).
Qed.
End Modes.

(** The modes at a moment: the system, and what it gives to new connections. *)
Definition poll_at (e : System * RegistrySystem * option Z) := @poll_entry e.1.1 e.1.2 e.2.
Definition thread_at (e : System * (option Z * Z * Z)) := @thread_entry e.1 e.2.1.1 e.2.1.2 e.2.2.
Definition mux_at (e : System * RegistrySystem * Z) := @mux_entry e.1.1 e.1.2 e.2.
Definition any_time {E} (_ _ : E) : Prop := True.
Definition not_before (e e' : System * RegistrySystem * Z) : Prop := @now e.1.1 <= @now e'.1.1.

#[export, program] Instance poll_over : ModeOver poll_at any_time := {| laws_at e := @poll_laws e.1.1 e.1.2 e.2 |}.
Solve All Obligations with done.
#[export, program] Instance thread_over : ModeOver thread_at any_time := {| laws_at e := @thread_laws e.1 e.2.1.1 e.2.1.2 e.2.2 |}.
Solve All Obligations with done.
#[export, program] Instance mux_over `{CryptoLaws} : ModeOver mux_at not_before := {| laws_at e := @mux_laws _ _ e.1.1 e.1.2 e.2 |}.
Next Obligation. done. Qed.
Next Obligation. done. Qed.
Next Obligation. done. Qed.
Next Obligation. intros ? ? e e' m Hl (L & R & Hinv). exists L, R. by eapply pinv_clock. Qed.
Next Obligation. done. Qed.

(** ** The calls of the application on a port *)

Section Api.
Context `{Crypto} `{System} `{RegistrySystem} `{Mux.Socket} (wake : Z).
#[local] Abbreviation MuxConns := (conns_t (I := registry_impl_t) (C := Mux.conn_impl_t) (G := mux_table_t)).

(** A step of the mux mode on a registry, with the agents as they are. *)
Definition on_impl {A} (st : gmap positive mux_agent_t) (c : MuxM A) (m : registry_impl_t) : option (A * registry_impl_t) :=
  '(x, s, _) ← c {| reg := {| r_impl := m; Mux.agents := []; Mux.agents_count := 0 |}; store := st; next_request_id := 0 |};
  Some (x, r_impl (reg s)).

(** The agents as the registry [r] finds them; [w] are their own states. *)
Definition seen_by (w : positive -> juice_agent_t) (s : MuxConns) (r : positive) : gmap positive mux_agent_t :=
  map_imap (fun a u => Some {| ma_agent := w a; ma_conn := conn_impl u; ma_registered := bool_decide (registry u = Some r);
                               Mux.conn_index := Conn.conn_index u |}) (users s).

Definition valid_port (p : Z) : bool := (1 <=? p) && (p <=? 65535).
Definition port_config (address : option (list Z)) (p : Z) : udp_socket_config_t :=
  {| Udp.bind_address := address; port_begin := p; port_end := p |}.

Definition juice_mux_listen (address : option (list Z)) (p : Z) (cb : option callback) : eff MuxConns conn_event Z :=
  if negb (valid_port p) then mret JUICE_ERR_INVALID
  else mux_listen_operation (mux_entry wake) (port_config address p) (on_impl ∅ (conn_mux_listen cb)).

(** The listener is stopped in two steps, between which its callbacks end. *)
Definition stop_pending (config : udp_socket_config_t) : eff MuxConns conn_event Z :=
  found ← find_registry (mux_entry wake) config;
  match found with
  | None => mret JUICE_ERR_NOT_AVAIL
  | Some r =>
      R ← Conn.get_registry r;
      m ← defined (Conn.impl R);
      '(result, m) ← defined (on_impl ∅ conn_mux_begin_stop_pending m);
      _ ← set_registry r (Conn.with_impl R (Some m));
      if negb (result =? 0) then mret result
      else
        '(_, m) ← defined (on_impl ∅ conn_mux_finish_stop_pending m);
        _ ← set_registry r (Conn.with_impl R (Some m));
        _ ← release_registry (mux_entry wake) (Some r);
        mret 0
  end.

(** Whether a configuration has limits that are too large. *)
Definition bad_config (config : option juice_mux_pending_config_t) : bool :=
  match config with Some c => (4096 <? pc_max_pending c) || (30000 <? pc_timeout_ms c) | None => false end.

Definition juice_mux_listen_pending (address : option (list Z)) (p : Z) (config : option juice_mux_pending_config_t) (cb : option callback)
  : eff MuxConns conn_event Z :=
  if negb (valid_port p) || bad_config config then mret JUICE_ERR_INVALID
  else
    match cb with
    | Some _ => mux_listen_operation (mux_entry wake) (port_config address p) (on_impl ∅ (conn_mux_listen_pending config cb))
    | None => stop_pending (port_config address p)
    end.

Definition request_operation (address : option (list Z)) (p id : Z) (op : positive -> registry_impl_t -> option (Z * registry_impl_t))
  : eff MuxConns conn_event Z :=
  if (id =? 0) || negb (valid_port p) then mret JUICE_ERR_INVALID
  else mux_request_operation (mux_entry wake) (port_config address p) op.

(** A password that a request may be verified with. *)
Definition bad_password (pwd : list Z) : bool := (zlen pwd <? 22) || (256 <? zlen pwd).

Definition juice_mux_verify_request (address : option (list Z)) (p id : Z) (password : option (list Z)) : eff MuxConns conn_event Z :=
  match password with
  | None => mret JUICE_ERR_INVALID
  | Some pwd =>
      if bad_password pwd then mret JUICE_ERR_INVALID
      else request_operation address p id (fun _ => on_impl ∅ (conn_mux_verify_request id pwd))
  end.

Definition juice_mux_attach_request (w : positive -> juice_agent_t) (address : option (list Z)) (p id : Z) (agent : option positive)
  : eff MuxConns conn_event Z :=
  match agent with
  | None => mret JUICE_ERR_INVALID
  | Some a => s ← get; request_operation address p id (fun r => on_impl (seen_by w s r) (conn_mux_attach_request id a))
  end.

Definition juice_mux_reject_request (address : option (list Z)) (p id : Z) : eff MuxConns conn_event Z :=
  request_operation address p id (fun _ => on_impl ∅ (conn_mux_reject_request id)).

(** The calls. *)
Inductive mux_call :=
| MuxListen (address : option (list Z)) (p : Z) (cb : option callback)
| MuxListenPending (address : option (list Z)) (p : Z) (config : option juice_mux_pending_config_t) (cb : option callback)
| MuxVerify (address : option (list Z)) (p id : Z) (password : option (list Z))
| MuxAttach (address : option (list Z)) (p id : Z) (agent : option positive)
| MuxReject (address : option (list Z)) (p id : Z).

Definition call (w : positive -> juice_agent_t) (c : mux_call) : eff MuxConns conn_event Z :=
  match c with
  | MuxListen address p cb => juice_mux_listen address p cb
  | MuxListenPending address p config cb => juice_mux_listen_pending address p config cb
  | MuxVerify address p id password => juice_mux_verify_request address p id password
  | MuxAttach address p id agent => juice_mux_attach_request w address p id agent
  | MuxReject address p id => juice_mux_reject_request address p id
  end.
End Api.

(** ** The calls keep the registries sound *)

(** What the callers of a registry see of it. *)
Definition listener_of (m : registry_impl_t) := (conn_mux_registries_index m, cb_mux_incoming m, cb_mux_pending m, pending_closing m).
Definition same_listener (s s' : mux_t) : Prop := listener_of (r_impl (reg s')) = listener_of (r_impl (reg s)).
#[global] Instance same_listener_preorder : PreOrder same_listener.
Proof. split; [done|]. intros s1 s2 s3 H1 H2. unfold same_listener in *. congruence. Qed.
Abbreviation keeps_listener c := (forall s, keeps_at (on_states same_listener) s c).

Section Listener.
Context `{Crypto} `{System} `{Mux.Socket}.

Lemma get_impl_listener : keeps_listener get_impl.
Proof. intros s x s' tr Hr. by apply get_impl_run in Hr as (_ & -> & _). Qed.
Lemma modify_impl_listener f : (forall m, listener_of (f m) = listener_of m) -> keeps_listener (modify_impl f).
Proof. intros Hf s x s' tr Hr. apply modify_impl_run in Hr as [-> _]. apply Hf. Qed.
Lemma on_queues_listener f : keeps_listener (on_queues f).
Proof.
  intros s x s' tr Hr. unfold on_queues in Hr. rewrite bind_get_impl in Hr. apply bind_run in Hr as (q & s1 & t1 & t2 & Hq & Hr & _).
  apply defined_run in Hq as (_ & -> & _). by apply set_impl_run in Hr as [-> _].
Qed.
Lemma expire_listener : keeps_listener expire_pending.
Proof.
  intros s x s' tr Hr. unfold expire_pending in Hr. rewrite bind_get_impl in Hr. apply bind_run in Hr as ([k q] & s1 & t1 & t2 & Hq & Hr & _).
  apply defined_run in Hq as (_ & -> & _). by apply set_impl_run in Hr as [-> _].
Qed.
Lemma get_agent_listener a : keeps_listener (get_agent a).
Proof. intros s x s' tr Hr. by apply get_agent_run in Hr as (_ & -> & _). Qed.
Lemma reject_count_listener k : keeps_listener (modify_impl (count_rejected k)).
Proof. by apply modify_impl_listener. Qed.
#[local] Hint Resolve get_impl_listener on_queues_listener expire_listener get_agent_listener reject_count_listener : keeps.
Lemma verify_listener id pwd : keeps_listener (conn_mux_verify_request id pwd).
Proof. intros s. unfold conn_mux_verify_request, verify_at, refuse_request. keeps. Qed.
Lemma attach_listener id a : keeps_listener (conn_mux_attach_request id a).
Proof. intros s. unfold conn_mux_attach_request, attach_at, conn_mux_interrupt_registry. keeps. Qed.
Lemma reject_listener id : keeps_listener (conn_mux_reject_request id).
Proof. intros s. unfold conn_mux_reject_request. keeps. Qed.
End Listener.

Section Calls.
Context `{CryptoLaws} `{System} `{RegistrySystem} `{Mux.Socket} (wake : Z).
#[local] Abbreviation MuxConns := (conns_t (I := registry_impl_t) (C := Mux.conn_impl_t) (G := mux_table_t)).

Lemma releasable_same m m' : listener_of m' = listener_of m -> releasable (Some m') = releasable (Some m).
Proof. destruct m, m'. unfold listener_of. cbn. by intros [= _ -> -> ->]. Qed.

(** A step that keeps the invariant of the mux mode. *)
Definition keeps_pinv (st : gmap positive mux_agent_t) (c : MuxM Z) : Prop := forall s L R,
  store s = st -> next_request_id s = 0 -> pinv now 0 (r_impl (reg s)) L R ->
  exists ret s' L' R' tr, c s = Some (ret, s', tr) /\ pinv now 0 (r_impl (reg s')) L' R' /\
    conn_mux_registries_index (r_impl (reg s')) = conn_mux_registries_index (r_impl (reg s)).

Lemma on_impl_keeps st c : keeps_pinv st c -> keeps_impl (mux_entry wake) (on_impl st c).
Proof.
  intros Hc m (L & R & Hinv).
  destruct (Hc {| reg := {| r_impl := m; Mux.agents := []; Mux.agents_count := 0 |}; store := st; next_request_id := 0 |} L R)
    as (ret & s' & L' & R' & tr & Hr & Hi & Hx); [done..|].
  exists ret, (r_impl (reg s')). split; [unfold on_impl; by rewrite Hr|]. split; [by exists L', R'|done].
Qed.

(** What the specifications of the steps give. *)
Lemma moves_keeps c st : keeps_listener c ->
  (forall s L R, store s = st -> next_request_id s = 0 -> pinv now (next_request_id s) (r_impl (reg s)) L R ->
     exists ret s' L' R' tr, c s = Some (ret, s', tr) /\ moves s s' L' R') -> keeps_pinv st c.
Proof.
  intros Hl Hc s L R Hst Hn Hinv. rewrite <- Hn in Hinv. destruct (Hc s L R Hst Hn Hinv) as (ret & s' & L' & R' & tr & Hr & _ & _ & _ & Hi).
  exists ret, s', L', R', tr. split; [done|]. rewrite <- Hn. split; [done|]. pose proof (Hl s _ _ _ Hr) as Hs. unfold on_states, same_listener, listener_of in Hs. congruence.
Qed.

Lemma verify_keeps id pwd : keeps_pinv ∅ (conn_mux_verify_request id pwd).
Proof.
  apply moves_keeps; [apply verify_listener|]. intros s L R _ _ Hinv.
  destruct (verify_request_spec now s L R id pwd Hinv (Z.le_refl _)) as (ret & s' & L' & Hr & Hm & _). by exists ret, s', L', R, [].
Qed.
Lemma attach_keeps st id a : is_Some (st !! a) -> keeps_pinv st (conn_mux_attach_request id a).
Proof.
  intros [g Hg]. apply moves_keeps; [apply attach_listener|]. intros s L R Hst _ Hinv. rewrite <- Hst in Hg.
  destruct (attach_request_spec now s L R id a g Hinv (Z.le_refl _) Hg) as (ret & s' & L' & R' & tr & Hr & Hm & _). by exists ret, s', L', R', tr.
Qed.
Lemma reject_keeps id : keeps_pinv ∅ (conn_mux_reject_request id).
Proof.
  apply moves_keeps; [apply reject_listener|]. intros s L R _ _ Hinv.
  destruct (reject_spec now s L R id Hinv) as (ret & s' & L' & Hr & Ho & Hn & Ham & Hi & _). by exists ret, s', L', R, [].
Qed.

Lemma listen_keeps cb : keeps_pinv ∅ (conn_mux_listen cb).
Proof.
  intros s L R _ _ Hinv. unfold conn_mux_listen. destruct cb as [cb|].
  - rewrite bind_get_impl. destruct (_ || _); [by exists (-1), s, L, R, []|]. rewrite bind_set_impl. eexists _, _, L, R, _. split; [reflexivity|].
    split; [by eapply pinv_same|done].
  - unfold conn_mux_stop_listen. rewrite bind_modify_impl. eexists _, _, L, R, _. split; [reflexivity|]. split; [by eapply pinv_same|done].
Qed.

Lemma listen_pending_index config cb s ret s' tr : conn_mux_listen_pending config cb s = Some (ret, s', tr) ->
  conn_mux_registries_index (r_impl (reg s')) = conn_mux_registries_index (r_impl (reg s)).
Proof.
  unfold conn_mux_listen_pending. rewrite bind_get_impl. intros Hr. destruct (_ || _ || _ || _); [by apply ret_run in Hr as (_ & -> & _)|].
  cbv zeta in Hr. destruct (_ || _); [by apply ret_run in Hr as (_ & -> & _)|]. apply bind_run in Hr as (n & s1 & t1 & t2 & Hn & Hr & _).
  apply defined_run in Hn as (_ & -> & _). apply bind_run in Hr as (q & s1 & t3 & t4 & Hq & Hr & _). apply defined_run in Hq as (_ & -> & _).
  rewrite bind_set_impl in Hr. by apply ret_run in Hr as (_ & -> & _).
Qed.
Lemma listen_pending_keeps config cb : keeps_pinv ∅ (conn_mux_listen_pending config cb).
Proof.
  intros s L R _ Hn Hinv. rewrite <- Hn in Hinv. destruct (listen_pending_spec s L R config cb Hinv) as (ret & s' & Hr & (_ & _ & _ & Hi) & _).
  exists ret, s', L, R, []. rewrite <- Hn. split; [done|]. split; [done|]. by eapply listen_pending_index.
Qed.

Lemma begin_stop_keeps : keeps_pinv ∅ conn_mux_begin_stop_pending.
Proof.
  intros s L R _ Hn Hinv. rewrite <- Hn in Hinv. destruct (begin_stop_spec s L R Hinv) as (ret & s' & L' & Hr & (_ & _ & _ & Hi) & _).
  exists ret, s', L', R, []. rewrite <- Hn. split; [done|]. split; [done|]. unfold conn_mux_begin_stop_pending in Hr.
  destruct on_thread; [by apply ret_run in Hr as (_ & -> & _)|]. rewrite bind_get_impl in Hr. destruct (_ || _); [by apply ret_run in Hr as (_ & -> & _)|].
  rewrite bind_set_impl in Hr. apply bind_run in Hr as (u & s1 & t1 & t2 & Hq & Hr & _). apply ret_run in Hr as (_ & -> & _).
  apply on_queues_listener in Hq. unfold on_states, same_listener, listener_of in Hq. cbn in Hq. congruence.
Qed.
Lemma begin_stop_refused m ret m' : on_impl ∅ conn_mux_begin_stop_pending m = Some (ret, m') -> ret <> 0 -> m' = m.
Proof.
  unfold on_impl. set (s := {| reg := _ |}). intros Hr Hne. destruct (conn_mux_begin_stop_pending s) as [ [ [z s1] tr]|] eqn:E; [|done].
  change (Some (z, r_impl (reg s1)) = Some (ret, m')) in Hr. injection Hr as <- <-. unfold conn_mux_begin_stop_pending in E.
  destruct on_thread; [by apply ret_run in E as (_ & -> & _)|]. rewrite bind_get_impl in E. destruct (_ || _); [by apply ret_run in E as (_ & -> & _)|].
  rewrite bind_set_impl in E. apply bind_run in E as (u & s2 & t1 & t2 & _ & E & _). by apply ret_run in E as (-> & _).
Qed.
Lemma finish_stop_keeps m : mux_impl_ok m -> exists m', on_impl ∅ conn_mux_finish_stop_pending m = Some (tt, m') /\ mux_impl_ok m' /\ mux_same_place m m'.
Proof.
  intros (L & R & Hinv). eexists. split; [reflexivity|]. split; [|done]. exists L, R. cbn. by eapply pinv_same.
Qed.

(** What the application ensures: the agent it gives is in memory. *)
Definition call_ok (s : MuxConns) (c : mux_call) : Prop :=
  match c with MuxAttach _ _ _ (Some a) => is_Some (users s !! a) | _ => True end.

(** The arguments that are refused. *)
Definition bad_call (c : mux_call) : bool :=
  match c with
  | MuxListen _ p _ => negb (valid_port p)
  | MuxListenPending _ p config _ => negb (valid_port p) || bad_config config
  | MuxVerify _ p id password => match password with None => true | Some pwd => bad_password pwd || (id =? 0) || negb (valid_port p) end
  | MuxAttach _ p id agent => match agent with None => true | Some _ => (id =? 0) || negb (valid_port p) end
  | MuxReject _ p id => (id =? 0) || negb (valid_port p)
  end.

(** A call ends, and the registries are sound then and the agents as before. *)
Definition ends_well (s : MuxConns) (c : eff MuxConns conn_event Z) : Prop :=
  exists ret s' tr, c s = Some (ret, s', tr) /\ conns_ok (mux_entry wake) None s' /\ users s' = users s.

Lemma mux_listening s config op : conns_ok (mux_entry wake) None s -> few (registries s) -> keeps_impl (mux_entry wake) op ->
  ends_well s (mux_listen_operation (mux_entry wake) config op).
Proof. intros Hs Hf Hop. by eapply mux_listen_run. Qed.

Lemma mux_requesting s config (op : positive -> gmap positive mux_agent_t * MuxM Z) : conns_ok (mux_entry wake) None s ->
  (forall r, keeps_pinv (op r).1 (op r).2) -> (forall r, keeps_listener (op r).2) ->
  ends_well s (mux_request_operation (mux_entry wake) config (fun r => on_impl (op r).1 (op r).2)).
Proof.
  intros Hs Hop Hl. destruct (mux_request_run (mux_entry wake) s config (fun r => on_impl (op r).1 (op r).2) Hs) as (ret & s' & Hr & Hs' & Hu).
  - intros r. by apply on_impl_keeps.
  - intros r x ret y Hy. unfold on_impl in Hy. destruct ((op r).2 _) as [ [ [z s1] tr]|] eqn:Hrun; [|done].
    change (Some (z, r_impl (reg s1)) = Some (ret, y)) in Hy. assert (y = r_impl (reg s1)) as -> by congruence.
    apply Hl in Hrun. exact (releasable_same _ _ Hrun).
  - by exists ret, s', [].
Qed.

Lemma stopping s config : conns_ok (mux_entry wake) None s -> ends_well s (stop_pending wake config).
Proof.
  intros Hs. unfold stop_pending. destruct (find_registry_run (mux_entry wake) None config s Hs) as (o & Ho & Hl & _).
  unfold ends_well. rewrite (bind_quiet _ _ _ _ _ Ho). destruct o as [r|]; [|by eexists _, s, _].
  destruct (Hl r eq_refl) as [R HR]. rewrite (bind_quiet _ _ _ _ _ (get_registry_run r s R HR)). destruct (ok_registry _ _ _ Hs _ _ HR) as ((x & Hx & Hxo) & _).
  rewrite (bind_defined _ _ _ _ Hx). destruct (on_impl_keeps ∅ _ begin_stop_keeps x Hxo) as (res & y & Hy & Hyo & Hxy).
  rewrite (bind_defined _ _ _ _ Hy), bind_set_registry. destruct (Z.eqb_spec res 0) as [->|Hne]; cbn [negb].
  - pose proof (op_touch _ None s r R x y Hs (or_introl eq_refl) HR Hx Hxy Hyo) as Hs1. destruct (finish_stop_keeps y Hyo) as (z & Hz & Hzo & Hyz).
    rewrite (bind_defined _ _ _ _ Hz), bind_set_registry. set (s1 := with_registries s _) in *.
    pose proof (op_touch _ (Some r) s1 r (Conn.with_impl R (Some y)) y z Hs1 (or_intror eq_refl) (lookup_insert_eq _ _ _) eq_refl Hyz Hzo) as Hs2.
    destruct (release_run _ _ r _ Hs2 (lookup_insert_eq _ _ _)) as (s' & tr & Hrel & Hu & Hs').
    rewrite (bind_some _ _ _ _ _ _ Hrel). by eexists 0, s', _.
  - apply (begin_stop_refused x res y) in Hy as ->; [|done]. eexists res, s, []. split; [|done].
    replace (with_registries s (<[r := Conn.with_impl R (Some x)]> (registries s))) with s; [done|].
    unfold with_registries. rewrite insert_id; [by destruct s|]. rewrite HR. destruct R; cbn in Hx. by rewrite Hx.
Qed.

End Calls.

(** ** Runs of the operations *)

(** C21: whatever agents come and go, create and destroy their connections, in any order
    and at any times, whatever the system gives to them then, every operation succeeds:
    no assertion fails, no array is read out of its bounds and no registry is used after
    it was freed.  Each connection has a registry in memory, the agent in the place that
    it remembers and no other, the count of a registry is that of its agents, and a
    registry is in memory only while it has agents or a listener.  An agent has one
    connection at a time and is freed without it, and there are fewer than 2^30 agents
    and registries ([allowed]).  This holds for every mode that keeps the promises of
    [ModeLaws] and [ModeOver], as the poll, mux and thread modes do. *)
Theorem conn_registries_safe {I C G E} (mode : E -> conn_mode_entry_t (I := I) (C := C) (G := G)) (later : E -> E -> Prop) `{!ModeOver mode later}
    (g : G) (e : E) (s : conns_t) (Hg : forall e, mode_ok (ModeLaws := laws_at e) ∅ g) (Hs : reachable mode later g e s) :
  conns_ok (mode e) None s /\
  forall e' o, later e e' -> allowed s o ->
    exists ret s' tr, perform (mode e') o s = Some (ret, s', tr) /\ reachable mode later g e' s'.
Proof.
  assert (Hok : conns_ok (mode e) None s) by (by eapply reachable_ok). split; [exact Hok|]. intros e' o Hl Ho.
  destruct (perform_ok (mode e') s o (conns_ok_later mode later e e' s Hl Hok) Ho) as (ret & s' & tr & Hr & _).
  exists ret, s', tr. split; [done|]. by eapply reachable_step.
Qed.

(** ** Two agents on one port *)

Definition registry_host : RegistrySystem := {|
  sys_pipe := Some (3, 4); registry_socket := fun _ => Some 5; socket_port := fun _ => 5000; registry_thread := 0 |}.
Definition any_port : udp_socket_config_t := {| Udp.bind_address := None; port_begin := 0; port_end := 0 |}.

Definition quiet_socket : Mux.Socket := {|
  inbox := []; recv_fails := false; Mux.sendto := fun _ data => zlen data; sockerrno := 11; set_diffserv := fun _ => 0; sendto_self := 0;
  Mux.socket_addrs := (0, []); on_thread := false |}.

(** The mux mode of Bob's host at a time. *)
Definition host_at (t : Z) : System * RegistrySystem * Z := (host_system bob_addr t, registry_host, 0).
Definition host_mux (t : Z) := mux_at (host_at t).
Definition no_table : mux_table_t := {| conn_mux_registries := []; conn_mux_registries_count := 0 |}.

(** A run of operations: the results, the state and the events. *)
Fixpoint perform_all {I C G} (entry : conn_mode_entry_t (I := I) (C := C) (G := G)) (l : list conn_op) : eff conns_t conn_event (list Z) :=
  match l with [] => mret [] | o :: l => x ← perform entry o; xs ← perform_all entry l; mret (x :: xs) end.

#[local] Abbreviation MuxConns := (conns_t (I := registry_impl_t) (C := Mux.conn_impl_t) (G := mux_table_t)).
Definition one_agent : MuxConns :=
  {| entry_registry := None; registries := ∅; users := {[1%positive := {| registry := None; Conn.conn_index := 0; conn_impl := None |}]}; globals := no_table |}.
Definition one_conn := Eval vm_compute in default one_agent ((fun x => x.1.2) <$> perform (host_mux 1000) (Create 1 any_port) one_agent).

Definition host_call (t : Z) (c : mux_call) : eff MuxConns conn_event Z :=
  @call sum_crypto (host_system bob_addr t) registry_host quiet_socket 0 (fun _ => mux_bob) c.

(** With two agents and a listener, a registry is made for the first agent only, and
    destroyed when both have gone and the listener is removed. *)
Lemma mux_registry_shared :
  option_map (fun x => (x.1.1, x.2, size (registries x.1.2)))
    ((x ← perform_all (host_mux 1000) [NewAgent 1; NewAgent 2; Create 1 any_port; Create 2 any_port];
      y ← host_call 1000 (MuxListen None 5000 (Some (1, 2)));
      z ← perform_all (host_mux 1000) [Destroy 1; Destroy 2];
      v ← host_call 1000 (MuxListen None 5000 None);
      mret (x ++ [y] ++ z ++ [v])) (no_conns no_table)) =
  Some ([0; 0; 0; 0; 0; 0; 0; 0], [RegistryCreated 1; RegistryDestroyed 1], 0%nat).
Proof. vm_compute. reflexivity. Qed.

Lemma empty_table_ok (e : System * RegistrySystem * Z) : mode_ok (ModeLaws := @mux_laws sum_crypto sum_crypto_laws e.1.1 e.1.2 e.2) ∅ no_table.
Proof. by split. Qed.

Lemma one_conn_reached : reachable mux_at not_before no_table (host_at 1000) one_conn.
Proof.
  assert (H1 : reachable mux_at not_before no_table (host_at 1000) one_agent).
  { eapply (reachable_step _ _ _ (host_at 1000) _ (host_at 1000) (NewAgent 1)); [constructor|by vm_compute| |reflexivity]. by split. }
  eapply (reachable_step _ _ _ _ _ _ (Create 1 any_port)); [exact H1|by vm_compute| |vm_compute; reflexivity]. split; [done|]. split; [done|]. by eexists.
Qed.

#[local] Abbreviation laws_of t := (@mux_laws sum_crypto sum_crypto_laws (host_system bob_addr t) registry_host 0).

(** The agent leaves a second later. *)
Lemma conn_registries_safe_witness : conns_ok (host_mux 1000) (ModeLaws0 := laws_of 1000) None one_conn /\
  exists ret s' tr, perform (host_mux 2000) (Destroy 1) one_conn = Some (ret, s', tr) /\ reachable mux_at not_before no_table (host_at 2000) s'.
Proof.
  destruct (@conn_registries_safe _ _ _ _ mux_at not_before (@mux_over sum_crypto sum_crypto_laws) no_table (host_at 1000) one_conn empty_table_ok one_conn_reached)
    as [Hok Hnext]. split; [exact Hok|].
  apply (Hnext (host_at 2000) (Destroy 1)); [by vm_compute|]. split; [done|]. split; [done|]. eexists. split; [reflexivity|]. by eexists.
Defined.

(** The same agent when its registry holds Alice's check, which was announced and
    verified (the example of MuxCorrect.v). *)
Definition at_port (m : registry_impl_t) : registry_impl_t :=
  Build_registry_impl_t 0 5000 [] (send_ds m) (amap m) (cb_mux_incoming m) (cb_mux_pending m) (pending_required m) (pending_closing m) (max_pending m)
    (pending_timeout_ms m) (queues m) (received m) (rejected m) (notifications m) (duplicates m).
Lemma at_port_ok `{Crypto} clock nid m L R : pinv clock nid m L R -> pinv clock nid (at_port m) L R.
Proof. intros Hinv. by eapply pinv_same. Qed.
Definition waiting_impl : registry_impl_t := at_port (r_impl (reg (example_at 4).1)).
Definition one_registry : conn_registry_t (I := registry_impl_t) :=
  default {| Conn.impl := None; Conn.agents := []; Conn.agents_count := 0 |} (registries one_conn !! 1%positive).
Definition waiting_conn : MuxConns := with_registries one_conn (<[1%positive := Conn.with_impl one_registry (Some waiting_impl)]> (registries one_conn)).

Lemma waiting_conn_ok : conns_ok (host_mux 1105) (ModeLaws0 := laws_of 1105) None waiting_conn.
Proof.
  pose proof (@reachable_ok _ _ _ _ mux_at not_before (@mux_over sum_crypto sum_crypto_laws) no_table (host_at 1000) one_conn empty_table_ok one_conn_reached) as Hok.
  assert (Hok' : conns_ok (host_mux 1105) (ModeLaws0 := laws_of 1105) None one_conn)
    by (exact (@conns_ok_later _ _ _ _ mux_at not_before (@mux_over sum_crypto sum_crypto_laws) (host_at 1000) (host_at 1105) one_conn ltac:(by vm_compute) Hok)).
  assert (HR : registries one_conn !! 1%positive = Some one_registry) by reflexivity.
  destruct (ok_registry _ _ _ Hok' _ _ HR) as ((x & Hx & _) & _).
  destruct (@reaches_good sum_crypto sum_crypto_laws 4 _ _ _ example_reached4) as (L & R & Hinv & _); [vm_compute; discriminate|].
  assert (Hw : @mux_impl_ok sum_crypto (host_system bob_addr 1105) waiting_impl).
  { exists L, R. unfold waiting_impl. apply at_port_ok. eapply (@pinv_later sum_crypto sum_crypto_laws); [|unfold later_id; lia]. eapply pinv_clock; [exact Hinv|]. vm_compute. discriminate. }
  assert (Hsame : mux_same_place x waiting_impl) by (vm_compute in Hx; by injection Hx as <-).
  pose proof (op_touch (host_mux 1105) None one_conn 1%positive one_registry x waiting_impl Hok' (or_introl eq_refl) HR Hx Hsame Hw) as [H1 H2 H3 H4 H5 H6].
  split; try done. intros r Q HQ _. destruct (decide (1%positive = r)) as [<-|Hn]; [|apply (H4 _ _ HQ); congruence].
  unfold waiting_conn, with_registries in HQ. cbn [registries] in HQ. rewrite lookup_insert_eq in HQ. injection HQ as <-. left. by vm_compute.
Qed.


(** ** The thread of the poll mode *)

Definition host_poll := @poll_entry (host_system alice_addr 1000) registry_host (Some 5).

(** The thread of the poll mode leaves when every connection is finished, also if the
    agents, and so the registry, are still there; and a new connection joins that
    registry, for which no thread is started again. *)
Theorem poll_thread_not_restarted :
  (exists s tr, @conn_poll_run sum_crypto wake_pipe failing_turns alice_registry = Some (true, s, tr) /\ p_agents s <> []) /\
  (x ← perform_all host_poll [NewAgent 1; NewAgent 2; Create 1 any_port] (no_conns tt);
   y ← perform host_poll (Create 2 any_port) x.1.2;
   Some (x.2, y.1.1, y.2, size (registries y.1.2))) = Some ([RegistryCreated 1], 0, [], 1%nat).
Proof.
  split; [|vm_compute; reflexivity].
  assert (Hr : exists s tr, @conn_poll_run sum_crypto wake_pipe failing_turns alice_registry = Some (true, s, tr) /\ length (p_agents s) = 2%nat) by (eexists _, _; split; vm_compute; reflexivity).
  destruct Hr as (s & tr & Hr & Hl). exists s, tr. split; [exact Hr|]. by destruct (p_agents s).
Qed.
