(* ===== verification/Juice.v ===== *)
(** * The calls of an application (src/juice.c)

    The functions of the public interface on an agent: the checks of their arguments
    and the error codes.  A null agent is [None].  [juice_get_state] and
    [juice_set_local_ice_attributes] do not check the agent. *)

From S2P Require Import Prelude Effects CText Addr Ice IceSdp StunTypes StunWrite StunRead Turn.
From S2P Require Import AgentTypes Agent AgentMessages AgentUpdate AgentCalls.
From stdpp Require Import list.
#[local] Open Scope Z_scope.

Definition JUICE_ERR_AGAIN : Z := -5.
Definition JUICE_ERR_TOO_LARGE : Z := -6.
Definition EAGAIN : Z := 11.
Definition EMSGSIZE : Z := 90.

Abbreviation JuiceM := (eff (option juice_agent_t) event).

Section Juice.
Context `{Crypto} `{System}.

(** A step of the agent, which must not be null. *)
Definition deref {A} (c : M A) : JuiceM A := fun s =>
  match s with
  | None => None
  | Some a => match c a with Some (x, a, tr) => Some (x, Some a, tr) | None => None end
  end.

(** The check [!agent], with that of other arguments. *)
Definition checked {A} (invalid : A) (bad : bool) (c : JuiceM A) : JuiceM A := fun s =>
  match s with None => Some (invalid, None, []) | Some _ => if bad then Some (invalid, s, []) else c s end.

(** [if (call < 0) return JUICE_ERR_FAILED; return JUICE_ERR_SUCCESS]. *)
Definition reported (c : M Z) : JuiceM Z := ret ← deref c; mret (if ret <? 0 then JUICE_ERR_FAILED else JUICE_ERR_SUCCESS).

Definition juice_gather_candidates : JuiceM Z := checked JUICE_ERR_INVALID false (reported agent_gather_candidates).

(** The result and the text that is written; a null buffer is [None], with its size. *)
Definition juice_get_local_description (buffer : bool) (size : Z) : JuiceM (Z * list Z) :=
  checked (JUICE_ERR_INVALID, []) (negb buffer && negb (size =? 0))
    ('(ret, text) ← deref (agent_get_local_description size);
     mret (if ret <? 0 then JUICE_ERR_FAILED else JUICE_ERR_SUCCESS, text)).

Definition juice_set_remote_description (sdp : option (list Z)) : JuiceM Z :=
  checked JUICE_ERR_INVALID (bool_decide (sdp = None)) (sdp ← defined sdp; deref (agent_set_remote_description sdp)).
Definition juice_add_remote_candidate (sdp : option (list Z)) : JuiceM Z :=
  checked JUICE_ERR_INVALID (bool_decide (sdp = None)) (sdp ← defined sdp; deref (agent_add_remote_candidate sdp)).
Definition juice_add_turn_server (t : option juice_turn_server_t) : JuiceM Z :=
  checked JUICE_ERR_INVALID (match t with None => true | Some _ => false end) (t ← defined t; reported (agent_add_turn_server t)).
Definition juice_set_remote_gathering_done : JuiceM Z := checked JUICE_ERR_INVALID false (reported agent_set_remote_gathering_done).
Definition juice_set_ice_tcp_mode (m : juice_ice_tcp_mode_t) : JuiceM Z := checked JUICE_ERR_INVALID false (deref (agent_set_ice_tcp_mode m)).

(** The code for the result of sending. *)
Definition send_code (ret : Z) : Z :=
  if 0 <=? ret then JUICE_ERR_SUCCESS
  else if ret =? - EAGAIN then JUICE_ERR_AGAIN
  else if ret =? - EMSGSIZE then JUICE_ERR_TOO_LARGE
  else JUICE_ERR_FAILED.

(** A null pointer to the data is [None], with the size. *)
Definition juice_send_diffserv (data : option (list Z)) (size ds : Z) : JuiceM Z :=
  checked JUICE_ERR_INVALID (bool_decide (data = None) && negb (size =? 0))
    (ret ← deref (agent_send (default [] data) ds); mret (send_code ret)).
Definition juice_send (data : option (list Z)) (size : Z) : JuiceM Z := juice_send_diffserv data size 0.

Definition juice_get_state : JuiceM juice_state_t := deref agent_get_state.

(** The two ends of the selected pair as text, each written if its size is not 0. *)
Definition selected_texts (print : ice_candidate_t -> Z -> Z * option (list Z)) (local : bool) (local_size : Z) (remote : bool) (remote_size : Z)
  : JuiceM (Z * option (list Z) * option (list Z)) :=
  checked (JUICE_ERR_INVALID, None, None) (negb local && negb (local_size =? 0) || negb remote && negb (remote_size =? 0))
    (pair ← deref agent_get_selected_candidate_pair;
     match pair with
     | None => mret (JUICE_ERR_NOT_AVAIL, None, None)
     | Some (l, r) =>
         let '(n, ltext) := if local_size =? 0 then (0, None) else print l local_size in
         if n <? 0 then mret (JUICE_ERR_FAILED, ltext, None)
         else
           let '(n, rtext) := if remote_size =? 0 then (0, None) else print r remote_size in
           mret (if n <? 0 then JUICE_ERR_FAILED else JUICE_ERR_SUCCESS, ltext, rtext)
     end).
Definition juice_get_selected_candidates := selected_texts ice_generate_candidate_sdp.
Definition juice_get_selected_addresses := selected_texts (fun c size => addr_record_to_string getnameinfo (resolved c) size).

Definition juice_set_local_ice_attributes (ufrag pwd : option (list Z)) : JuiceM Z :=
  match ufrag, pwd with
  | Some ufrag, Some pwd => deref (agent_set_local_ice_attributes ufrag pwd)
  | _, _ => mret JUICE_ERR_INVALID
  end.

Definition juice_state_to_string (st : juice_state_t) : list Z :=
  match st with
  | JUICE_STATE_DISCONNECTED => str "disconnected"
  | JUICE_STATE_GATHERING => str "gathering"
  | JUICE_STATE_CONNECTING => str "connecting"
  | JUICE_STATE_CONNECTED => str "connected"
  | JUICE_STATE_COMPLETED => str "completed"
  | JUICE_STATE_FAILED => str "failed"
  end.

(** ** Sending *)

Lemma agent_deref_run {A} (c : M A) a x s tr : deref c (Some a) = Some (x, s, tr) <-> exists a', c a = Some (x, a', tr) /\ s = Some a'.
Proof.
  unfold deref. destruct (c a) as [ [ [y a'] t]|]; [|split; [done|by intros (? & ? & _)] ]. split; [intros [= <- <- <-]; by exists a'|].
  by intros (b & [= <- <- <-] & ->).
Qed.

(** What an application learns from sending: success exactly when the agent sent the
    datagram, and why not else. *)
Lemma juice_send_reports data ds a ret s tr : juice_send_diffserv (Some data) (zlen data) ds (Some a) = Some (ret, s, tr) ->
  exists n a', agent_send data ds a = Some (n, a', tr) /\ s = Some a' /\ ret = send_code n /\
    (ret = JUICE_ERR_SUCCESS <-> 0 <= n) /\ (ret = JUICE_ERR_AGAIN <-> n = - EAGAIN) /\ (ret = JUICE_ERR_TOO_LARGE <-> n = - EMSGSIZE).
Proof.
  unfold juice_send_diffserv, checked. rewrite bool_decide_eq_false_2 by done. cbn [andb default from_option]. intros Hr.
  apply bind_run in Hr as (n & s1 & t1 & t2 & Hd & Hr & ->). apply ret_run in Hr as (-> & -> & ->). apply agent_deref_run in Hd as (a' & Hs & ->).
  exists n, a'. rewrite app_nil_r. split; [done|]. split; [done|]. split; [done|]. unfold send_code, JUICE_ERR_SUCCESS, JUICE_ERR_AGAIN, JUICE_ERR_TOO_LARGE, JUICE_ERR_FAILED, EAGAIN, EMSGSIZE.
  destruct (Z.leb_spec 0 n), (Z.eqb_spec n (- (11))), (Z.eqb_spec n (- (90))); cbn; lia.
Qed.

(** The calls on a null agent do nothing. *)
Lemma juice_null sdp t data size ds m : let null {A} (c : JuiceM A) (x : A) := c None = Some (x, None, []) in
  null juice_gather_candidates JUICE_ERR_INVALID /\ null (juice_set_remote_description sdp) JUICE_ERR_INVALID /\
  null (juice_add_remote_candidate sdp) JUICE_ERR_INVALID /\ null (juice_add_turn_server t) JUICE_ERR_INVALID /\
  null juice_set_remote_gathering_done JUICE_ERR_INVALID /\ null (juice_send_diffserv data size ds) JUICE_ERR_INVALID /\
  null (juice_set_ice_tcp_mode m) JUICE_ERR_INVALID.
Proof. done. Qed.
End Juice.
